(* ===== verification/_CoqProject ===== *)
-Q . S2P
Prelude.v
Mem.v
CString.v
Spinlock.v
Mmu.v
Kalloc.v
Vm.v
VmSpec.v
VmOps.v
VmProps.v
Seg.v
Sleeplock.v
Block.v
Disk.v
Memide.v
Bio.v
Layout.v
Log.v
StorageRuns.v
Tx.v
Format.v
Fs.v
FsBlocks.v
FsInode.v
FsRw.v
FsCache.v
FsDir.v
FsPath.v
TxIdeal.v
FsProps.v
Pipe.v
Proc.v
ProcSpec.v
ProcRefine.v
ProcProps.v
File.v
Kern.v
Sysfile.v
Elf.v
Exec.v
Sysproc.v
KernProps.v
FileProps.v
Ulib.v
Textprogs.v
Userprogs.v
Grep.v
Sh.v
ShProps.v
LabSh.v
BoundedBuffer.v
Glob.v
SchedThreads.v
Wordstack.v
Msgbox.v
Canvas.v
LabText.v
PageSim.v
Console.v
ConsoleProps.v
ConsoleTypes.v
Ide.v
IdeProps.v
Umalloc.v
Mkfs.v
MkfsProps.v
MkfsImage.v
Boot.v
Mp.v
Apic.v
Uswitch.v
Uthread.v
Trapasm.v
Entry.v
