(* ===== verification/Prelude.v ===== *)
(** * Verification of the xv6 teaching kernel and its laboratories

    The repository holds xv6, a small Unix kernel for 32-bit x86 multiprocessors with its user
    programs ([src/xv6]), and the exercises of a course on operating systems ([src/lab-01] to
    [src/lab-08]).  This development translates the code into functions and proves what makes
    it correct.  The files are listed here from the bottom up; a file only uses earlier ones.

    ** How the code is modelled

    A routine of the kernel is a function in the state monad [M S A] of this file: from the
    state [S] it returns a value and a new state ([Ok]), stops the machine ([Panic], with the
    message of the source), gives up the processor ([Blocked], with the state in which it
    sleeps), or uses up its fuel ([OutOfFuel]).  Guards, early returns and calls are in the
    order of the source.  [wp] is total correctness (the routine returns), [post] is about all
    results, [keeps] about invariants.  Integers are [Z] with [u32], [i32], [u16], [u8], [i8]
    written where the source can wrap; memory as bytes is in [Mem.v].

    Where a part of the program uses another one, the first is written against a class, and
    the second is an instance of it: [Disk] (a disk driver, for the buffer cache: [Memide.v]
    and [IdeProps.v] implement it), [Cache] (the buffer cache, for the log: [Bio.v]), [Tx]
    (transactions, for the file system: [Tx.v] from the log, and [TxIdeal.v]), [ProcEnv] (what
    proc.c calls: [Kern.v]), [Ulib.OS] (system calls, for user programs) and [Sh.Lexer].
    Hardware and the host system cannot be read as code; they are classes as well, and what is
    relied on of them is stated as laws: [Ports], [Crt] and [ByteDev] (console), [IdePorts],
    [IdeProps.Ata] (disk controller), [Mmio], [IoApic] and [Rtc] (interrupt
    controllers, clock), [Kbc] and [Smp] (keyboard controller, other processors), [Sbrk]
    (the break of a process), [Files], [Tree] and [Names] (files, for the programs that read
    them), [Host] (the system under the laboratory shell).  Every class with laws has an
    instance at which the theorems about it are used.

    Concurrency is a step relation wherever the source relies on interleaving: the steps are
    single memory accesses (spin locks), statements (the laboratory threads), or the segments
    between two sleeps under a lock (sleep locks, pipes, the disk queue, the process table).

    ** The parts of the kernel

    - Memory: [CString.v] (string.c), [Mmu.v] (mmu.h, memlayout.h), [Kalloc.v] (kalloc.c),
      [Vm.v] (vm.c) with [VmSpec.v] (address spaces, the specification), [VmOps.v] and
      [VmProps.v]; [Seg.v] (descriptors, [seginit], [switchuvm], [tvinit]).  A page is free or
      has one holder; [allocuvm], [copyuvm] and [freevm] act on abstract address spaces, lose
      no page and isolate a child from its parent.
    - Locks: [Spinlock.v] (spinlock.c) and [Sleeplock.v] (sleeplock.c): mutual exclusion for
      any interleaving.
    - Storage: [Block.v], [Disk.v] (buf.h), [Memide.v] (memide.c), [Ide.v] and [IdeProps.v]
      (ide.c), [Bio.v] (bio.c), [Layout.v] (the superblock), [Log.v] (log.c), [StorageRuns.v]
      (concrete runs), [Tx.v].  The driver serves requests in order; a block has one buffer;
      a commit is atomic under crashes at any point, recoveries included; the reservation of
      [begin_op] is right for a log of one block more than the one that mkfs makes, and is
      off by one for that.
    - File system: [Format.v] (fs.h), [Fs.v] (fs.c), and its theory in [FsBlocks.v]
      (bitmap), [FsInode.v] (block map), [FsRw.v] (contents), [FsCache.v] (inode cache),
      [FsDir.v] (directories), [FsPath.v] (path names), [FsProps.v].  Files are byte
      sequences; reads, writes, directories and path names do on the disk what they say.
    - Processes: [Proc.v] (proc.c), [ProcSpec.v] (an abstract machine of process states),
      [ProcRefine.v] and [ProcProps.v] (the refinement, and what follows from it: no lost
      exit, distinct pids, a fair scheduler).
    - Files and pipes: [Pipe.v] (pipe.c), [File.v] (file.c), [FileProps.v]: pipes are queues
      without lost wakeups, reference counts are right.
    - The kernel as a whole: [Kern.v] (the joint state, the arguments of system calls),
      [Sysfile.v] (sysfile.c), [Elf.v] (elf.h), [Exec.v] (exec.c), [Sysproc.v] (sysproc.c,
      syscall.c, trap.c), [KernProps.v]: arguments that the kernel accepts lie in the process.
    - Traps and switches: [Trapasm.v] (trapasm.S, vectors.pl, usys.S, initcode.S, swtch.S):
      a system call returns to its caller with nothing changed but its result, and a new
      process starts as [fork] promises.
    - Devices: [Console.v], [ConsoleProps.v], [ConsoleTypes.v] (console.c, uart.c, kbd.c),
      [Apic.v] (lapic.c, ioapic.c, picirq.c), [Mp.v] (mp.c).
    - Start: [Mkfs.v], [MkfsProps.v], [MkfsImage.v] (mkfs.c: its image is a file system for
      the theorems above), [Boot.v] (bootmain.c), [Entry.v] (bootasm.S, entry.S, entryother.S,
      the boot page table and [startothers] of main.c).

    ** User programs

    [Ulib.v] (ulib.c, printf.c), [Umalloc.v] (umalloc.c), [Textprogs.v] (cat, wc, echo),
    [Userprogs.v] (ls, rm, mkdir, ln, kill, init), [Grep.v] (grep.c), [Sh.v] and [ShProps.v]
    (sh.c: the parser terminates and accepts exactly a grammar), [Uswitch.v] and [Uthread.v]
    (user-level threads).

    ** Laboratories

    [LabText.v] (histograma.c, palabras.c, crypt.c), [LabSh.v] (lab-02/sh.c), [Glob.v] (glob.c),
    [SchedThreads.v] (sched-threads.c), [BoundedBuffer.v] (buf.c), [Wordstack.v] (wordheap.c),
    [Msgbox.v] (msgbox.c), [Canvas.v] (canvas.c), [PageSim.v] (lab-07/sim.c).

    ** Fuel and bounds

    Loops whose recursion is not structural take fuel.  Loops over data get it from the
    definition that calls them, computed from the data (the bytes asked for, the size of a
    directory, the length of the line or path, the number of buffers), and the theorems about
    [wp] show that it suffices.  Loops that poll a device get it from their caller; the theorems
    ask for more than the number of polls after which, by the law of the device, it is ready.
    [Boot.v] has one bound for the segments, one for the sectors of a segment and one for the
    polls.  Two loops of the source do not end on some inputs: that of [mpinit] on an entry of
    unknown type and that of [histograma] on a long word; for both it is proved that no fuel
    suffices.  The main loops of init and of the shells are meant not to end: their fuel is the
    number of turns, and nothing is claimed about their end.  Counters that wrap (the indices
    of pipes and of the console) are 32 bits wide in the model as well.

    ** Not modelled

    - [main], [mpenter] and [mpmain] of main.c, which only call the initialisation routines of
      the other parts in a row.
    - The caches, memory ordering and segment checks of the processor: memory accesses are
      sequentially consistent, and [__sync_synchronize] has no effect.
    - The interleaving of whole system calls on several processors: components are shown
      correct under interleaving where their own locks are at stake (see above); the system
      calls of [Sysfile.v] and [Sysproc.v] run from one sleep to the next.
    - Test programs (usertests.c, stressfs.c, forktest.c, zombie.c, lab-06, lab-08/big.c): they
      are scenarios on the calls that are modelled, and define no operation of their own.
    - Programs that only print what one call returns (answer.c, pgcnt.c, pscnt.c, testppid.c,
      trace.c), demonstrations of the language (democ.c, hola.c, sum.c, holamundo.c), and
      programs whose behaviour is that of the host's clock, signals, scheduler or files
      (lab-03, threads.c, benchmark.c, maps.c, fstat.c, write_bytes.c, dosarch.c, ejread.c,
      ejwrite.c, readwrite.c).
    - lab-07/sys_pgcnt.c, a draft that does not compile; the call is modelled from sysproc.c.
    - Makefiles, the linker script, and the scripts that print the source or sign the boot
      sector. *)

From stdpp Require Export base list numbers strings gmap relations.
From Stdlib Require Import FunctionalExtensionality.

#[export] Set Default Goal Selector "!".
Open Scope Z_scope.

(** ** Machine integers

    The kernel is compiled for 32-bit x86.  A C [uint] is a [Z] in
    [0 .. 2^32-1]; every operation of the source that can wrap is written with
    an explicit [u32], and a conversion to [int] with [i32]. *)

Definition W32 : Z := 4294967296.

Definition u32 (x : Z) : Z := x mod 4294967296.
Definition u16 (x : Z) : Z := x mod 65536.
Definition u8 (x : Z) : Z := x mod 256.

(** Conversion of a 32-bit pattern to a C [int] (two's complement). *)
Definition i32 (x : Z) : Z :=
  let y := x mod 4294967296 in if y <? 2147483648 then y else y - 4294967296.

(** Conversion to a C [short]. *)
Definition i16 (x : Z) : Z :=
  let y := x mod 65536 in if y <? 32768 then y else y - 65536.

(** Conversion to a (signed, on x86) C [char]. *)
Definition i8 (x : Z) : Z :=
  let y := x mod 256 in if y <? 128 then y else y - 256.

(** ** The kernel monad

    An operation of the kernel reads and changes the state [S].  It returns
    ([Ok]), stops the machine ([Panic], the message is the argument of
    [panic]), has to wait for another thread ([Blocked], with the state in
    which the caller sleeps), or, when it is written with fuel, runs out of it
    ([OutOfFuel]). *)

Inductive res (S A : Type) : Type :=
| Ok (a : A) (s : S)
| Panic (msg : string)
| Blocked (s : S)
| OutOfFuel.
Arguments Ok {S A}.
Arguments Panic {S A}.
Arguments Blocked {S A}.
Arguments OutOfFuel {S A}.

Definition M (S A : Type) : Type := S -> res S A.

Definition ret {S A} (a : A) : M S A := fun s => Ok a s.

Definition bind {S A B} (m : M S A) (k : A -> M S B) : M S B := fun s =>
  match m s with
  | Ok a s' => k a s'
  | Panic e => Panic e
  | Blocked s' => Blocked s'
  | OutOfFuel => OutOfFuel
  end.

Definition panic {S A} (msg : string) : M S A := fun _ => Panic msg.
Definition waits {S A} : M S A := fun s => Blocked s.
Definition get {S} : M S S := fun s => Ok s s.
Definition put {S} (s : S) : M S unit := fun _ => Ok tt s.
Definition gets {S A} (f : S -> A) : M S A := fun s => Ok (f s) s.
Definition modify {S} (f : S -> S) : M S unit := fun s => Ok tt (f s).

Declare Scope kernel_scope.
Notation "'let!' x ':=' m 'in' k" := (bind m (fun x => k))
  (at level 10, x pattern, m at level 100, k at level 200) : kernel_scope.
Notation "m ;;; k" := (bind m (fun _ => k))
  (at level 199, k at level 200, right associativity) : kernel_scope.
Open Scope kernel_scope.

(** Running an operation of a component inside a bigger state. *)
Definition zoom {S T A} (g : S -> T) (p : T -> S -> S) (m : M T A) : M S A := fun s =>
  match m (g s) with
  | Ok a t => Ok a (p t s)
  | Panic e => Panic e
  | Blocked t => Blocked (p t s)
  | OutOfFuel => OutOfFuel
  end.

(** [wp m Q s]: run from [s], [m] returns, and its result and final state
    satisfy [Q].  It excludes panics, blocking and running out of fuel. *)
Definition wp {S A} (m : M S A) (Q : A -> S -> Prop) (s : S) : Prop :=
  match m s with
  | Ok a s' => Q a s'
  | _ => False
  end.

Section wp_lemmas.
Context {S : Type}.

Lemma wp_ret {A} (a : A) (Q : A -> S -> Prop) s : Q a s -> wp (ret a) Q s.
Proof. done. Qed.

Lemma wp_bind {A B} (m : M S A) (k : A -> M S B) Q s :
  wp m (fun a s' => wp (k a) Q s') s -> wp (bind m k) Q s.
Proof. unfold wp, bind. by destruct (m s). Qed.

Lemma wp_bind_inv {A B} (m : M S A) (k : A -> M S B) Q s :
  wp (bind m k) Q s -> wp m (fun a s' => wp (k a) Q s') s.
Proof. unfold wp, bind. by destruct (m s). Qed.

Lemma wp_mono {A} (m : M S A) (Q Q' : A -> S -> Prop) s :
  wp m Q s -> (forall a s', Q a s' -> Q' a s') -> wp m Q' s.
Proof. unfold wp. destruct (m s); eauto. Qed.

Lemma wp_and {A} (m : M S A) (Q Q' : A -> S -> Prop) s :
  wp m Q s -> wp m Q' s -> wp m (fun a s' => Q a s' /\ Q' a s') s.
Proof. unfold wp. by destruct (m s). Qed.

Lemma wp_ok {A} (m : M S A) (Q : A -> S -> Prop) s :
  wp m Q s <-> exists a s', m s = Ok a s' /\ Q a s'.
Proof.
  unfold wp. destruct (m s) as [a s'| | |]; split; try done; try (by intros (?&?&?&?)).
  - by exists a, s'.
  - by intros (? & ? & [= -> ->] & ?).
Qed.

Lemma bind_Ok {A B} (m : M S A) (k : A -> M S B) s b s' :
  bind m k s = Ok b s' -> exists a s1, m s = Ok a s1 /\ k a s1 = Ok b s'.
Proof. unfold bind. destruct (m s) as [a s1| | |]; try done. intros H. by exists a, s1. Qed.

Lemma wp_elim {A} (m : M S A) (Q : A -> S -> Prop) s a s' : wp m Q s -> m s = Ok a s' -> Q a s'.
Proof. unfold wp. intros H Hm. by rewrite Hm in H. Qed.

Lemma wp_get (Q : S -> S -> Prop) s : Q s s -> wp get Q s.
Proof. done. Qed.
Lemma wp_put (Q : unit -> S -> Prop) s s0 : Q tt s -> wp (put s) Q s0.
Proof. done. Qed.
Lemma wp_gets {A} (f : S -> A) (Q : A -> S -> Prop) s : Q (f s) s -> wp (gets f) Q s.
Proof. done. Qed.
Lemma wp_modify (f : S -> S) (Q : unit -> S -> Prop) s : Q tt (f s) -> wp (modify f) Q s.
Proof. done. Qed.

Lemma wp_zoom {T A} (g : S -> T) (p : T -> S -> S) (m : M T A) Q s :
  wp m (fun a t => Q a (p t s)) (g s) -> wp (zoom g p m) Q s.
Proof. unfold wp, zoom. by destruct (m (g s)). Qed.
End wp_lemmas.

(** [post m Q R s]: if [m] run from [s] returns, [Q] holds of its result, and if it
    waits, [R] holds of the state in which it does. *)
Definition post {S A} (m : M S A) (Q : A -> S -> Prop) (R : S -> Prop) (s : S) : Prop :=
  match m s with
  | Ok a s' => Q a s'
  | Blocked s' => R s'
  | _ => True
  end.

Section post_lemmas.
Context {S : Type}.

Lemma post_bind {A B} (m : M S A) (k : A -> M S B) Q R s :
  post m (fun a s' => post (k a) Q R s') R s -> post (bind m k) Q R s.
Proof. unfold post, bind. by destruct (m s). Qed.

Lemma wp_post {A} (m : M S A) (Q : A -> S -> Prop) R s : wp m Q s -> post m Q R s.
Proof. unfold wp, post. by destruct (m s). Qed.

Lemma post_mono {A} (m : M S A) (Q Q' : A -> S -> Prop) (R R' : S -> Prop) s :
  post m Q R s -> (forall a s', Q a s' -> Q' a s') -> (forall s', R s' -> R' s') -> post m Q' R' s.
Proof. unfold post. destruct (m s); auto. Qed.

Lemma post_ret {A} (a : A) (Q : A -> S -> Prop) R s : Q a s -> post (ret a) Q R s.
Proof. done. Qed.
Lemma post_get (Q : S -> S -> Prop) R s : Q s s -> post get Q R s.
Proof. done. Qed.
Lemma post_gets {A} (f : S -> A) (Q : A -> S -> Prop) R s : Q (f s) s -> post (gets f) Q R s.
Proof. done. Qed.
Lemma post_modify (f : S -> S) (Q : unit -> S -> Prop) R s : Q tt (f s) -> post (modify f) Q R s.
Proof. done. Qed.
Lemma post_panic {A} msg (Q : A -> S -> Prop) R s : post (panic msg) Q R s.
Proof. done. Qed.

Lemma post_zoom {T A} (g : S -> T) (p : T -> S -> S) (m : M T A) Q R s :
  post m (fun a t => Q a (p t s)) (fun t => R (p t s)) (g s) -> post (zoom g p m) Q R s.
Proof. unfold post, zoom. by destruct (m (g s)). Qed.

Lemma post_Ok {A} (m : M S A) (Q : A -> S -> Prop) R s a s' : post m Q R s -> m s = Ok a s' -> Q a s'.
Proof. unfold post. intros H Hm. by rewrite Hm in H. Qed.

Lemma post_Blocked {A} (m : M S A) (Q : A -> S -> Prop) R s s' : post m Q R s -> m s = Blocked s' -> R s'.
Proof. unfold post. intros H Hm. by rewrite Hm in H. Qed.
End post_lemmas.

(** [wpx P m Q s]: as [wp], but [m] may also stop the machine with a message that
    satisfies [P]. *)
Definition wpx {S A} (P : string -> Prop) (m : M S A) (Q : A -> S -> Prop) (s : S) : Prop :=
  match m s with
  | Ok a s' => Q a s'
  | Panic e => P e
  | _ => False
  end.

Section wpx_lemmas.
Context {S : Type} (P : string -> Prop).

Lemma wpx_wp {A} (m : M S A) (Q : A -> S -> Prop) s : wp m Q s -> wpx P m Q s.
Proof. unfold wp, wpx. by destruct (m s). Qed.
Lemma wpx_ret {A} (a : A) (Q : A -> S -> Prop) s : Q a s -> wpx P (ret a) Q s.
Proof. done. Qed.
Lemma wpx_bind {A B} (m : M S A) (k : A -> M S B) Q s :
  wpx P m (fun a s' => wpx P (k a) Q s') s -> wpx P (bind m k) Q s.
Proof. unfold wpx, bind. by destruct (m s). Qed.
Lemma wpx_mono {A} (m : M S A) (Q Q' : A -> S -> Prop) s :
  wpx P m Q s -> (forall a s', Q a s' -> Q' a s') -> wpx P m Q' s.
Proof. unfold wpx. destruct (m s); eauto. Qed.
Lemma wpx_get (Q : S -> S -> Prop) s : Q s s -> wpx P get Q s.
Proof. done. Qed.
Lemma wpx_gets {A} (f : S -> A) (Q : A -> S -> Prop) s : Q (f s) s -> wpx P (gets f) Q s.
Proof. done. Qed.
Lemma wpx_modify (f : S -> S) (Q : unit -> S -> Prop) s : Q tt (f s) -> wpx P (modify f) Q s.
Proof. done. Qed.
Lemma wpx_panic {A} msg (Q : A -> S -> Prop) s : P msg -> wpx P (panic msg) Q s.
Proof. done. Qed.
End wpx_lemmas.

(** [for(i = from; ...; i++) body(i)] with [n] iterations. *)
Fixpoint for_loop {S} (n : nat) (from : Z) (body : Z -> M S unit) : M S unit :=
  match n with
  | O => ret tt
  | Datatypes.S k => body from ;;; for_loop k (from + 1) body
  end.

(** [keeps K m]: wherever it is run from, [m] only makes changes that [K] allows. *)
Definition keeps {S A} (K : S -> S -> Prop) (m : M S A) : Prop :=
  forall s, post m (fun _ s' => K s s') (K s) s.

Section keeps_lemmas.
Context {S : Type} (K : S -> S -> Prop) `{!PreOrder K}.

Lemma keeps_ret {A} (a : A) : keeps K (ret a).
Proof. intros s. apply post_ret. reflexivity. Qed.
Lemma keeps_bind {A B} (m : M S A) (k : A -> M S B) :
  keeps K m -> (forall a, keeps K (k a)) -> keeps K (bind m k).
Proof.
  intros Hm Hk s. apply post_bind. eapply post_mono; [apply Hm| |done]. intros a s' HK.
  eapply post_mono; [apply Hk|intros b s2 HK2|intros s2 HK2]; by apply (PreOrder_Transitive _ s').
Qed.
Lemma keeps_get : keeps K get.
Proof. intros s. apply post_get. reflexivity. Qed.
Lemma keeps_gets {A} (f : S -> A) : keeps K (gets f).
Proof. intros s. apply post_gets. reflexivity. Qed.
Lemma keeps_modify (f : S -> S) : (forall s, K s (f s)) -> keeps K (modify f).
Proof. intros Hf s. apply post_modify, Hf. Qed.
Lemma keeps_panic {A} msg : keeps K (panic msg : M S A).
Proof. intros s. apply post_panic. Qed.
Lemma keeps_fuel {A} : keeps K (fun _ => OutOfFuel : res S A).
Proof. done. Qed.
Lemma keeps_waits {A} : keeps K (waits : M S A).
Proof. intros s. unfold post, waits. apply PreOrder_Reflexive. Qed.
Lemma keeps_for n from body : (forall i, keeps K (body i)) -> keeps K (for_loop n from body).
Proof. revert from. induction n as [|n IH]; intros from Hb; [apply keeps_ret|]. apply keeps_bind; auto. Qed.
Lemma keeps_zoom {T A} (g : S -> T) (p : T -> S -> S) (m : M T A) :
  (forall t s, K s (p t s)) -> keeps K (zoom g p m).
Proof. intros Hp s. unfold post, zoom. by destruct (m (g s)). Qed.
End keeps_lemmas.

(** Undefined behaviour of C that the code does not guard against. *)
Definition undefined {S A} (what : string) : M S A := panic ("undefined: " ++ what).

Lemma wp_for {S} (I : Z -> S -> Prop) n from body (Q : unit -> S -> Prop) s :
  I from s ->
  (forall j s, from <= j < from + Z.of_nat n -> I j s -> wp (body j) (fun _ s' => I (j + 1) s') s) ->
  (forall s, I (from + Z.of_nat n) s -> Q tt s) ->
  wp (for_loop n from body) Q s.
Proof.
  revert from s. induction n as [|n IH]; intros from s HI Hb HQ; simpl.
  - apply wp_ret, HQ. by rewrite Z.add_0_r.
  - apply wp_bind. eapply wp_mono; [apply Hb; [lia|done]|]. intros [] s' HI'.
    apply IH; [done| |].
    + intros j s'' Hj. apply Hb. lia.
    + intros s'' H''. apply HQ. by replace (from + Z.of_nat (Datatypes.S n)) with
        (from + 1 + Z.of_nat n) by lia.
Qed.

(** ** Automation *)

Create HintDb kernel.
Create Rewrite HintDb kernel.
#[export] Hint Resolve wp_ret wp_get wp_put wp_gets wp_modify : kernel.

(** One symbolic execution step of a [wp] goal. *)
Ltac wp_step :=
  lazymatch goal with
  | |- wp (bind _ _) _ _ => apply wp_bind
  | |- wp (ret _) _ _ => apply wp_ret
  | |- wp get _ _ => apply wp_get
  | |- wp (put _) _ _ => apply wp_put
  | |- wp (gets _) _ _ => apply wp_gets
  | |- wp (modify _) _ _ => apply wp_modify
  | |- wp (zoom _ _ _) _ _ => apply wp_zoom
  end.
Ltac wp_steps := repeat (wp_step; cbn beta).

Ltac wpx_step :=
  lazymatch goal with
  | |- wpx _ (bind _ _) _ _ => apply wpx_bind
  | |- wpx _ (ret _) _ _ => apply wpx_ret
  | |- wpx _ get _ _ => apply wpx_get
  | |- wpx _ (gets _) _ _ => apply wpx_gets
  | |- wpx _ (modify _) _ _ => apply wpx_modify
  end.
Ltac wpx_steps := repeat (wpx_step; cbn beta).

Ltac post_step :=
  lazymatch goal with
  | |- post (bind _ _) _ _ _ => apply post_bind
  | |- post (ret _) _ _ _ => apply post_ret
  | |- post get _ _ _ => apply post_get
  | |- post (gets _) _ _ _ => apply post_gets
  | |- post (modify _) _ _ _ => apply post_modify
  | |- post (panic _) _ _ _ => apply post_panic
  | |- post (undefined _) _ _ _ => apply post_panic
  end.
Ltac post_steps := repeat (post_step; cbn beta).

(** Walk through an operation with [keeps]; facts on the operations it calls come from
    the database [keeps], and the changes it makes itself are left as goals. *)
Create HintDb keeps discriminated.
#[export] Hint Constants Opaque : keeps.
Ltac keeps_step :=
  lazymatch goal with
  | |- keeps _ (bind _ _) => apply (keeps_bind _); [|intros ?]
  | |- keeps _ (ret _) => apply (keeps_ret _)
  | |- keeps _ get => apply (keeps_get _)
  | |- keeps _ (gets _) => apply (keeps_gets _)
  | |- keeps _ (modify _) => apply (keeps_modify _)
  | |- keeps _ (panic _) => apply (keeps_panic _)
  | |- keeps _ (undefined _) => apply (keeps_panic _)
  | |- keeps _ (fun _ => OutOfFuel) => apply (keeps_fuel _)
  | |- keeps _ waits => apply (keeps_waits _)
  | |- keeps _ (for_loop _ _ _) => apply (keeps_for _); intros ?
  | |- keeps _ (if ?b then _ else _) => destruct b
  | |- keeps _ (match ?x with _ => _ end) => destruct x eqn:?
  | |- keeps _ _ => solve [eauto 3 with keeps]
  end.
Ltac keeps_steps := cbv zeta; repeat (keeps_step; cbn beta).

(** Case analysis on boolean comparisons of [Z]. *)
Ltac zcase :=
  match goal with
  | |- context [?a =? ?b] => destruct (Z.eqb_spec a b)
  | |- context [?a <? ?b] => destruct (Z.ltb_spec a b)
  | |- context [?a <=? ?b] => destruct (Z.leb_spec a b)
  | H : context [?a =? ?b] |- _ => destruct (Z.eqb_spec a b)
  | H : context [?a <? ?b] |- _ => destruct (Z.ltb_spec a b)
  | H : context [?a <=? ?b] |- _ => destruct (Z.leb_spec a b)
  end.

(** Linear arithmetic with [Z.div] and [Z.modulo] by constants. *)
Ltac zlia := Z.to_euclidean_division_equations; lia.

(** ** Integer lemmas *)

Lemma u32_small x : 0 <= x < W32 -> u32 x = x.
Proof. unfold W32, u32. intros. by apply Z.mod_small. Qed.

Lemma u32_range x : 0 <= u32 x < W32.
Proof. unfold u32, W32. apply Z.mod_pos_bound. lia. Qed.

Lemma u32_u32 x : u32 (u32 x) = u32 x.
Proof. apply u32_small, u32_range. Qed.

Lemma u8_range x : 0 <= u8 x < 256.
Proof. unfold u8. apply Z.mod_pos_bound. lia. Qed.

Lemma u8_small x : 0 <= x < 256 -> u8 x = x.
Proof. unfold u8. intros. by apply Z.mod_small. Qed.

(** Joining bit fields that do not overlap. *)
Lemma lor_mul_pow2 a b n : 0 <= b < 2 ^ n -> 0 <= n -> Z.lor (a * 2 ^ n) b = a * 2 ^ n + b.
Proof.
  intros Hb Hn. rewrite <- Z.add_lor_land. assert (Z.land (a * 2 ^ n) b = 0) as ->; [|lia].
  apply Z.bits_inj'. intros i Hi. rewrite Z.land_spec, Z.bits_0. destruct (decide (i < n)); [by rewrite Z.mul_pow2_bits_low by lia|].
  assert (Z.testbit b i = false) as ->; [|by rewrite andb_false_r]. destruct (decide (b = 0)) as [->|]; [apply Z.bits_0|].
  apply Z.bits_above_log2; [lia|]. apply Z.log2_lt_pow2; [lia|]. eapply Z.lt_le_trans; [apply Hb|]. apply Z.pow_le_mono_r; lia.
Qed.

Lemma i32_small x : -2147483648 <= x < 2147483648 -> i32 x = x.
Proof.
  intros H. unfold i32. destruct (Z.ltb_spec (x mod 4294967296) 2147483648); zlia.
Qed.

Lemma i32_range x : -2147483648 <= i32 x < 2147483648.
Proof. unfold i32. zcase; zlia. Qed.

(** The counters of the ring buffers of the kernel are free-running [uint]s
    reduced modulo a power of two: wrap-around does not disturb the index. *)
Lemma u32_mod_pow2 x k : 0 <= k <= 32 -> u32 x mod 2 ^ k = x mod 2 ^ k.
Proof.
  intros Hk. unfold u32. change 4294967296 with (2 ^ 32).
  replace 32 with (k + (32 - k)) at 1 by lia.
  rewrite Z.pow_add_r by lia.
  rewrite Z.rem_mul_r by (try apply Z.pow_nonzero; try apply Z.pow_pos_nonneg; lia).
  rewrite Z.mul_comm, Z.mod_add by (apply Z.pow_nonzero; lia).
  apply Z.mod_mod. apply Z.pow_nonzero; lia.
Qed.

Lemma u32_add_l x y : u32 (u32 x + y) = u32 (x + y).
Proof. unfold u32. apply Z.add_mod_idemp_l. lia. Qed.

Lemma u32_add_r x y : u32 (x + u32 y) = u32 (x + y).
Proof. unfold u32. apply Z.add_mod_idemp_r. lia. Qed.

Lemma u32_sub x y : u32 (u32 x - u32 y) = u32 (x - y).
Proof. unfold u32. symmetry. apply Zminus_mod. Qed.

#[export] Hint Rewrite u32_u32 u32_add_l u32_add_r u32_sub : kernel.

(** ** Lists and table scans *)

(** The loops of the form [for(p = table; p < end; p++) if(cond) goto found;]
    look for the first entry that satisfies the condition. *)
Fixpoint find_index {A} (f : A -> bool) (l : list A) : option nat :=
  match l with
  | [] => None
  | x :: l' => if f x then Some 0%nat else S <$> find_index f l'
  end.

Section find_index.
Context {A : Type} (f : A -> bool).

Lemma find_index_Some l i :
  find_index f l = Some i <->
  (exists x, l !! i = Some x /\ f x = true) /\
  (forall j y, (j < i)%nat -> l !! j = Some y -> f y = false).
Proof.
  revert i. induction l as [|x l IH]; intros i; simpl.
  { split; [done|]. by intros [(x & H & _) _]. }
  destruct (f x) eqn:Hx.
  - split.
    + intros [= <-]. split; [by exists x|]. lia.
    + intros [_ Hall]. destruct i as [|i]; [done|].
      specialize (Hall 0%nat x ltac:(lia) eq_refl). congruence.
  - rewrite fmap_Some. split.
    + intros (k & Hk & ->). apply IH in Hk as [Hk1 Hk2]. split; [done|].
      intros [|j] y Hj Hy; simpl in *; [congruence|]. eapply Hk2; [|done]. lia.
    + intros [(y & Hy & Hfy) Hall]. destruct i as [|i]; simpl in Hy; [congruence|].
      exists i. split; [|done]. apply IH. split; [by exists y|].
      intros j z Hj Hz. apply (Hall (S j) z); [lia|done].
Qed.

Lemma find_index_None l :
  find_index f l = None <-> (forall i x, l !! i = Some x -> f x = false).
Proof.
  induction l as [|x l IH]; simpl.
  - split; [|done]. intros _ i x. by rewrite lookup_nil.
  - destruct (f x) eqn:Hx.
    + split; [done|]. intros H. specialize (H 0%nat x eq_refl). congruence.
    + rewrite fmap_None, IH. split.
      * intros H [|i] y Hy; simpl in *; [congruence|eauto].
      * intros H i y Hy. exact (H (S i) y Hy).
Qed.

Lemma find_index_lt l i : find_index f l = Some i -> (i < length l)%nat.
Proof.
  intros H. apply find_index_Some in H as [(x & Hx & _) _]. by eapply lookup_lt_Some.
Qed.
End find_index.

(** Updating one field of an array entry, [a[i].f = ...]: nothing happens out of range. *)
Definition upd_nth {A} (i : nat) (f : A -> A) (l : list A) : list A := alter f i l.

(** Updating one entry of an array indexed by [nat]. *)
Definition fupd {A} (f : nat -> A) (i : nat) (x : A) : nat -> A :=
  fun j => if decide (j = i) then x else f j.

Lemma fupd_eq {A} (f : nat -> A) i x : fupd f i x i = x.
Proof. unfold fupd. by rewrite decide_True. Qed.
Lemma fupd_ne {A} (f : nat -> A) i j x : j <> i -> fupd f i x j = f j.
Proof. intros. unfold fupd. by rewrite decide_False. Qed.
#[export] Hint Rewrite @fupd_eq : kernel.
Lemma fupd_fupd {A} (f : nat -> A) i x y : fupd (fupd f i x) i y = fupd f i y.
Proof. apply functional_extensionality. intros j. unfold fupd. by destruct (decide (j = i)). Qed.
Lemma fupd_id {A} (f : nat -> A) i : fupd f i (f i) = f.
Proof. apply functional_extensionality. intros j. unfold fupd. by destruct (decide (j = i)) as [->|]. Qed.

(** The first element that satisfies a test. *)
Fixpoint first {A} (P : A -> bool) (l : list A) : option A :=
  match l with
  | [] => None
  | x :: l' => if P x then Some x else first P l'
  end.

Lemma first_Some {A} (P : A -> bool) l x : first P l = Some x -> x ∈ l /\ P x = true.
Proof.
  induction l as [|y l IH]; simpl; [done|]. destruct (P y) eqn:E.
  - intros [= ->]. split; [apply elem_of_cons; auto|done].
  - intros H. destruct (IH H) as [? ?]. split; [apply elem_of_cons; auto|done].
Qed.

Lemma first_None {A} (P : A -> bool) l : first P l = None -> forall x, x ∈ l -> P x = false.
Proof.
  induction l as [|y l IH]; simpl; [intros _ x H; by apply elem_of_nil in H|].
  destruct (P y) eqn:E; [done|]. intros H x Hx. apply elem_of_cons in Hx as [->|Hx]; auto.
Qed.
Lemma first_ext {A} (P P' : A -> bool) l : (forall x, x ∈ l -> P x = P' x) -> first P l = first P' l.
Proof.
  induction l as [|y l IH]; intros HP; simpl; [done|]. rewrite (HP y) by (apply elem_of_cons; by left).
  destruct (P' y); [done|]. apply IH. intros x Hx. apply HP, elem_of_cons. by right.
Qed.
Lemma first_snoc_false {A} (P : A -> bool) l x : P x = false -> first P (l ++ [x]) = first P l.
Proof. intros Hx. induction l as [|y l IH]; simpl; [by rewrite Hx|]. by rewrite IH. Qed.

(** ** Sets *)

Lemma size_add_le (X : gset Z) b : (size (X ∪ {[b]}) <= size X + 1)%nat.
Proof.
  rewrite size_union_alt.
  assert (Hs : (size (({[b]} : gset Z) ∖ X) <= size ({[b]} : gset Z))%nat)
    by (apply subseteq_size; set_solver).
  rewrite size_singleton in Hs. lia.
Qed.

(** ** Transition systems *)

Section invariants.
Context {A : Type} (R : relation A).

(** A property that every step preserves holds in every reachable state. *)
Lemma invariant_rtc (I : A -> Prop) :
  (forall x y, I x -> R x y -> I y) -> forall x y, I x -> rtc R x y -> I y.
Proof. intros Hstep x y Hx Hr. induction Hr; eauto. Qed.
End invariants.
