(* ===== verification/Mem.v ===== *)
(** * Byte-addressed memory

    The flat memory in which the kernel keeps free pages, page tables and
    strings: a total function from addresses to bytes, with the little-endian
    32-bit loads and stores of x86.  The predicate [mem_ok] says that every cell
    holds a byte. *)

From S2P Require Import Prelude.

Definition mem : Type := Z -> Z.

Definition store8 (m : mem) (a v : Z) : mem := fun x => if x =? a then v else m x.

Definition load32 (m : mem) (a : Z) : Z :=
  m a + 256 * m (a + 1) + 65536 * m (a + 2) + 16777216 * m (a + 3).

Definition store32 (m : mem) (a v : Z) : mem := fun x =>
  if x =? a then v mod 256
  else if x =? a + 1 then (v / 256) mod 256
  else if x =? a + 2 then (v / 65536) mod 256
  else if x =? a + 3 then (v / 16777216) mod 256
  else m x.

(** The bytes [l] stored at [a]. *)
Definition store_bytes (m : mem) (a : Z) (l : list Z) : mem := fun x =>
  if (a <=? x) && (x <? a + Z.of_nat (length l)) then default 0 (l !! Z.to_nat (x - a)) else m x.

Definition mem_ok (m : mem) : Prop := forall x, 0 <= m x < 256.

Lemma store8_eq m a v : store8 m a v a = v.
Proof. unfold store8. by rewrite Z.eqb_refl. Qed.

Lemma store8_ne m a v x : x <> a -> store8 m a v x = m x.
Proof. intros H. unfold store8. by rewrite (proj2 (Z.eqb_neq x a) H). Qed.

Lemma store32_ne m a v x : x < a \/ a + 4 <= x -> store32 m a v x = m x.
Proof. intros H. unfold store32. repeat (zcase; [lia|]). done. Qed.

Lemma load32_store32_eq m a v : 0 <= v < W32 -> load32 (store32 m a v) a = v.
Proof.
  intros H. unfold load32, store32, W32 in *.
  repeat (zcase; try lia). zlia.
Qed.

Lemma load32_store32_ne m a b v :
  b + 4 <= a \/ a + 4 <= b -> load32 (store32 m a v) b = load32 m b.
Proof. intros H. unfold load32. rewrite !store32_ne by lia. done. Qed.

Lemma load32_ext m m' a :
  (forall x, a <= x < a + 4 -> m x = m' x) -> load32 m a = load32 m' a.
Proof. intros H. unfold load32. rewrite !H by lia. done. Qed.

Lemma load32_range m a : mem_ok m -> 0 <= load32 m a < W32.
Proof.
  intros H. unfold load32, W32.
  pose proof (H a). pose proof (H (a + 1)). pose proof (H (a + 2)). pose proof (H (a + 3)). lia.
Qed.

Lemma mem_ok_store32 m a v : mem_ok m -> mem_ok (store32 m a v).
Proof.
  intros H x. unfold store32. specialize (H x). repeat zcase; try done; zlia.
Qed.

Lemma mem_ok_store8 m a v : mem_ok m -> 0 <= v < 256 -> mem_ok (store8 m a v).
Proof. intros H Hv x. unfold store8. by zcase. Qed.

#[export] Hint Resolve mem_ok_store32 mem_ok_store8 load32_range : kernel.
