(* ===== verification/CString.v ===== *)
(** * Kernel memory and string routines ([src/xv6/string.c])

    Each routine is a loop over the flat memory of [Mem.v]; pointers are
    addresses.  The string instructions [stosb] and [stosl] of [x86.h] are the
    loops that the [rep] prefix performs.  [strlen] scans for a NUL byte and
    takes the length of the scanned region as fuel. *)

From S2P Require Import Prelude Mem.

(** [rep stosb]: store [cnt] times the low byte of [data]. *)
Fixpoint stosb (m : mem) (addr data : Z) (cnt : nat) : mem :=
  match cnt with
  | O => m
  | S k => stosb (store8 m addr (u8 data)) (addr + 1) data k
  end.

(** [rep stosl]: store [cnt] times the word [data]. *)
Fixpoint stosl (m : mem) (addr data : Z) (cnt : nat) : mem :=
  match cnt with
  | O => m
  | S k => stosl (store32 m addr (u32 data)) (addr + 4) data k
  end.

Definition memset (m : mem) (dst c n : Z) : mem :=
  if (Z.rem (i32 dst) 4 =? 0) && (n mod 4 =? 0) then
    let c := Z.land c 255 in
    stosl m dst
      (Z.lor (Z.lor (Z.lor (Z.shiftl c 24) (Z.shiftl c 16)) (Z.shiftl c 8)) c)
      (Z.to_nat (n / 4))
  else stosb m dst c (Z.to_nat n).

Fixpoint memcmp_loop (m : mem) (s1 s2 : Z) (n : nat) : Z :=
  match n with
  | O => 0
  | S k => if negb (m s1 =? m s2) then m s1 - m s2 else memcmp_loop m (s1 + 1) (s2 + 1) k
  end.
Definition memcmp (m : mem) (v1 v2 n : Z) : Z := memcmp_loop m v1 v2 (Z.to_nat n).

(** [while(n-- > 0) *--d = *--s;] *)
Fixpoint copy_backward (m : mem) (d s : Z) (n : nat) : mem :=
  match n with
  | O => m
  | S k => copy_backward (store8 m (d - 1) (m (s - 1))) (d - 1) (s - 1) k
  end.

(** [while(n-- > 0) *d++ = *s++;] *)
Fixpoint copy_forward (m : mem) (d s : Z) (n : nat) : mem :=
  match n with
  | O => m
  | S k => copy_forward (store8 m d (m s)) (d + 1) (s + 1) k
  end.

Definition memmove (m : mem) (dst src n : Z) : mem :=
  if (src <? dst) && (dst <? src + n)
  then copy_backward m (dst + n) (src + n) (Z.to_nat n)
  else copy_forward m dst src (Z.to_nat n).

Definition memcpy (m : mem) (dst src n : Z) : mem := memmove m dst src n.

Fixpoint strncmp_loop (m : mem) (p q : Z) (n : nat) : Z :=
  match n with
  | O => 0
  | S k =>
      if negb (m p =? 0) && (m p =? m q) then strncmp_loop m (p + 1) (q + 1) k
      else u8 (m p) - u8 (m q)
  end.
Definition strncmp (m : mem) (p q n : Z) : Z := strncmp_loop m p q (Z.to_nat n).

(** [while(n-- > 0) *s++ = 0;] *)
Fixpoint zero_fill (m : mem) (s : Z) (n : nat) : mem :=
  match n with
  | O => m
  | S k => zero_fill (store8 m s 0) (s + 1) k
  end.

(** [while(n-- > 0 && ( *s++ = *t++ ) != 0);] followed by the zero fill. *)
Fixpoint strncpy_loop (m : mem) (s t : Z) (n : nat) : mem :=
  match n with
  | O => m
  | S k =>
      let m' := store8 m s (m t) in
      if negb (m t =? 0) then strncpy_loop m' (s + 1) (t + 1) k else zero_fill m' (s + 1) k
  end.
Definition strncpy (m : mem) (s t n : Z) : mem := strncpy_loop m s t (Z.to_nat n).

(** [while(--n > 0 && ( *s++ = *t++ ) != 0); *s = 0;] with [n] already decremented. *)
Fixpoint safestrcpy_loop (m : mem) (s t : Z) (n : nat) : mem :=
  match n with
  | O => store8 m s 0
  | S k =>
      let m' := store8 m s (m t) in
      if negb (m t =? 0) then safestrcpy_loop m' (s + 1) (t + 1) k else store8 m' (s + 1) 0
  end.
Definition safestrcpy (m : mem) (s t n : Z) : mem :=
  if n <=? 0 then m else safestrcpy_loop m s t (Z.to_nat (n - 1)).

(** The scan [for(n = 0; s[n]; n++)]; [None] when no NUL is met in [fuel] bytes. *)
Fixpoint strlen_loop (m : mem) (s n : Z) (fuel : nat) : option Z :=
  match fuel with
  | O => None
  | S k => if m (s + n) =? 0 then Some n else strlen_loop m s (n + 1) k
  end.
Definition strlen (m : mem) (s : Z) (fuel : nat) : option Z := strlen_loop m s 0 fuel.

(** ** Specification: the C string in a buffer of [n] bytes *)

(** The bytes at [p] up to the first NUL, at most [n] of them. *)
Fixpoint cstr (m : mem) (p : Z) (n : nat) : list Z :=
  match n with
  | O => []
  | S k => if m p =? 0 then [] else m p :: cstr m (p + 1) k
  end.

(** ** Lemmas *)

Lemma stosb_lookup cnt m addr data x :
  stosb m addr data cnt x =
  if (addr <=? x) && (x <? addr + Z.of_nat cnt) then u8 data else m x.
Proof.
  revert m addr. induction cnt as [|k IH]; intros m addr; cbn [stosb].
  - repeat zcase; simpl; try done; lia.
  - rewrite IH. unfold store8. repeat (zcase; simpl); try done; lia.
Qed.

Lemma stosl_lookup cnt m addr data x :
  stosl m addr data cnt x =
  if (addr <=? x) && (x <? addr + 4 * Z.of_nat cnt)
  then u32 data / 2 ^ (8 * ((x - addr) mod 4)) mod 256 else m x.
Proof.
  revert m addr. induction cnt as [|k IH]; intros m addr; cbn [stosl].
  - repeat zcase; simpl; try done; lia.
  - rewrite IH.
    replace (x - (addr + 4)) with (x - addr + (-1) * 4) by lia. rewrite Z.mod_add by lia.
    destruct (decide (addr <= x < addr + 4)) as [Hin|Hout].
    + replace ((addr + 4 <=? x) && _) with false by (repeat zcase; simpl; lia || done).
      replace ((addr <=? x) && _) with true by (repeat zcase; simpl; lia || done).
      unfold store32.
      assert (x = addr \/ x = addr + 1 \/ x = addr + 2 \/ x = addr + 3)
        as [-> | [-> | [-> | ->]]] by lia;
        [replace (addr - addr) with 0 by lia
        |replace (addr + 1 - addr) with 1 by lia
        |replace (addr + 2 - addr) with 2 by lia
        |replace (addr + 3 - addr) with 3 by lia];
        repeat (zcase; try lia); cbn; rewrite ?Z.div_1_r; done.
    + rewrite store32_ne by lia. repeat (zcase; simpl); try done; lia.
Qed.

(** The word [c<<24|c<<16|c<<8|c] holds [c] in each of its four bytes. *)
Lemma memset_word_byte c k :
  0 <= c < 256 -> 0 <= k < 4 ->
  u32 (Z.lor (Z.lor (Z.lor (Z.shiftl c 24) (Z.shiftl c 16)) (Z.shiftl c 8)) c)
    / 2 ^ (8 * k) mod 256 = c.
Proof.
  intros Hc Hk.
  assert (Hw : Z.lor (Z.lor (Z.lor (Z.shiftl c 24) (Z.shiftl c 16)) (Z.shiftl c 8)) c
               = c * 16777216 + c * 65536 + c * 256 + c).
  { rewrite !Z.shiftl_mul_pow2 by lia.
    rewrite <- !Z.lor_assoc.
    rewrite (lor_mul_pow2 c c 8) by lia.
    rewrite (lor_mul_pow2 c (c * 2 ^ 8 + c) 16) by lia.
    rewrite (lor_mul_pow2 c _ 24) by lia. lia. }
  rewrite Hw, u32_small by (unfold W32; lia).
  assert (k = 0 \/ k = 1 \/ k = 2 \/ k = 3) as [-> | [-> | [-> | ->]]] by lia; cbn; zlia.
Qed.

Lemma copy_forward_lookup n m d s x :
  d <= s \/ s + Z.of_nat n <= d ->
  copy_forward m d s n x =
  if (d <=? x) && (x <? d + Z.of_nat n) then m (s + (x - d)) else m x.
Proof.
  revert m d s. induction n as [|k IH]; intros m d s H; cbn [copy_forward].
  - repeat (zcase; simpl); try done; lia.
  - rewrite IH by lia.
    destruct (decide (x = d)) as [->|Hx].
    + replace ((d + 1 <=? d) && _) with false by (repeat zcase; simpl; lia || done).
      replace ((d <=? d) && _) with true by (repeat zcase; simpl; lia || done).
      rewrite store8_eq. f_equal; lia.
    + rewrite (store8_ne _ _ _ x) by done.
      repeat (zcase; simpl); try done; try lia.
      rewrite store8_ne by lia. f_equal; lia.
Qed.

Lemma copy_backward_lookup n m d s x :
  s <= d ->
  copy_backward m d s n x =
  if (d - Z.of_nat n <=? x) && (x <? d) then m (s + (x - d)) else m x.
Proof.
  revert m d s. induction n as [|k IH]; intros m d s H; cbn [copy_backward].
  - repeat (zcase; simpl); try done; lia.
  - rewrite IH by lia.
    destruct (decide (x = d - 1)) as [->|Hx].
    + replace (_ && (d - 1 <? d - 1)) with false by (repeat zcase; simpl; lia || done).
      replace (_ && (d - 1 <? d)) with true by (repeat zcase; simpl; lia || done).
      rewrite store8_eq. f_equal; lia.
    + rewrite (store8_ne _ _ _ x) by done.
      repeat (zcase; simpl); try done; try lia.
      rewrite store8_ne by lia. f_equal; lia.
Qed.

Lemma zero_fill_lookup n m s x :
  zero_fill m s n x = if (s <=? x) && (x <? s + Z.of_nat n) then 0 else m x.
Proof.
  revert m s. induction n as [|k IH]; intros m s; cbn [zero_fill].
  - repeat (zcase; simpl); try done; lia.
  - rewrite IH. unfold store8. repeat (zcase; simpl); try done; lia.
Qed.

Lemma cstr_ext m m' p n :
  (forall x, p <= x < p + Z.of_nat n -> m x = m' x) -> cstr m p n = cstr m' p n.
Proof.
  revert p. induction n as [|k IH]; intros p H; cbn [cstr]; [done|].
  rewrite <- (H p) by lia. zcase; [done|]. f_equal. apply IH. intros; apply H; lia.
Qed.

Lemma strncpy_frame n m s t x :
  x < s \/ s + Z.of_nat n <= x -> strncpy_loop m s t n x = m x.
Proof.
  revert m s t. induction n as [|k IH]; intros m s t H; cbn [strncpy_loop]; [done|].
  zcase; simpl.
  - rewrite zero_fill_lookup. rewrite store8_ne by lia. repeat (zcase; simpl); try done; lia.
  - rewrite IH by lia. apply store8_ne. lia.
Qed.

Lemma safestrcpy_frame n m s t x :
  x < s \/ s + Z.of_nat n < x -> safestrcpy_loop m s t n x = m x.
Proof.
  revert m s t. induction n as [|k IH]; intros m s t H; cbn [safestrcpy_loop].
  - apply store8_ne. lia.
  - zcase; simpl.
    + rewrite !store8_ne by lia. done.
    + rewrite IH by lia. apply store8_ne. lia.
Qed.

(** Both paths of [memset] store the same byte in the same range. *)
Lemma memset_lookup (m : mem) (dst c n x : Z) :
  0 <= n ->
  memset m dst c n x = if (dst <=? x) && (x <? dst + n) then u8 c else m x.
Proof.
  intros Hn. unfold memset.
  destruct (Z.rem (i32 dst) 4 =? 0); simpl; [destruct (Z.eqb_spec (n mod 4) 0) as [H4|]|].
  - rewrite stosl_lookup.
    replace (4 * Z.of_nat (Z.to_nat (n / 4))) with n by zlia.
    change 255 with (Z.ones 8). rewrite Z.land_ones by lia.
    destruct ((dst <=? x) && (x <? dst + n)); [|done].
    apply memset_word_byte; [change (2 ^ 8) with 256|]; apply Z.mod_pos_bound; lia.
  - rewrite stosb_lookup, Z2Nat.id by lia. done.
  - rewrite stosb_lookup, Z2Nat.id by lia. done.
Qed.

(** ** Properties *)

(** [memset] stores the low byte of [c] in exactly the [n] bytes at [dst],
    whether it takes the word-wise [stosl] path (aligned pointer, length a
    multiple of four) or the byte-wise [stosb] path. *)
Theorem memset_fills (m : mem) (dst c n x : Z) :
  0 <= n ->
  memset m dst c n x = if (dst <=? x) && (x <? dst + n) then u8 c else m x.
Proof. apply memset_lookup. Qed.

Lemma memset_fills_witness :
  memset (fun _ => 7) 4096 257 8 4103 = 1 /\ memset (fun _ => 7) 4096 257 8 4104 = 7.
Proof.
  split; [apply (memset_fills (fun _ => 7) 4096 257 8 4103)
         |apply (memset_fills (fun _ => 7) 4096 257 8 4104)]; lia.
Defined.

Lemma memmove_lookup (m : mem) (dst src n x : Z) :
  0 <= n ->
  memmove m dst src n x =
  if (dst <=? x) && (x <? dst + n) then m (src + (x - dst)) else m x.
Proof.
  intros Hn. unfold memmove. zcase; simpl; [zcase; simpl|].
  - rewrite copy_backward_lookup, Z2Nat.id by lia.
    replace (dst + n - n) with dst by lia.
    replace (src + n + (x - (dst + n))) with (src + (x - dst)) by lia. done.
  - rewrite copy_forward_lookup, Z2Nat.id by lia. done.
  - rewrite copy_forward_lookup, Z2Nat.id by lia. done.
Qed.

(** [memmove] leaves at [dst] the [n] bytes that were at [src] before the call,
    also when the two regions overlap, and changes nothing else. *)
Theorem memmove_copies (m : mem) (dst src n x : Z) :
  0 <= n ->
  memmove m dst src n x =
  if (dst <=? x) && (x <? dst + n) then m (src + (x - dst)) else m x.
Proof. apply memmove_lookup. Qed.

Lemma memmove_copies_witness :
  memmove (fun x => x) 102 100 4 105 = 103 /\ memmove (fun x => x) 100 102 4 103 = 105.
Proof.
  split; [apply (memmove_copies (fun x => x) 102 100 4 105)
         |apply (memmove_copies (fun x => x) 100 102 4 103)]; lia.
Defined.

Lemma strncmp_loop_zero (m : mem) k p q :
  mem_ok m -> strncmp_loop m p q k = 0 <-> cstr m p k = cstr m q k.
Proof.
  intros Hm. revert p q. induction k as [|k IH]; intros p q; cbn [strncmp_loop cstr]; [done|].
  rewrite !u8_small by apply Hm.
  destruct (Z.eqb_spec (m p) 0) as [Hp|Hp]; simpl.
  - destruct (Z.eqb_spec (m q) 0); split; intros H; try done; lia.
  - destruct (Z.eqb_spec (m p) (m q)) as [Hpq|Hpq].
    + rewrite IH, <- Hpq. destruct (Z.eqb_spec (m p) 0); [done|].
      split; [by intros ->|by intros [= ->]].
    + split; [lia|]. destruct (Z.eqb_spec (m q) 0); [done|]. by intros [= ? _].
Qed.

(** [strncmp] returns 0 exactly when the two buffers hold the same string,
    a string being cut at its first NUL and at [n] bytes. *)
Theorem strncmp_zero_iff (m : mem) (p q n : Z) :
  mem_ok m ->
  strncmp m p q n = 0 <-> cstr m p (Z.to_nat n) = cstr m q (Z.to_nat n).
Proof. apply strncmp_loop_zero. Qed.

Lemma strncmp_zero_iff_witness :
  let m := fun x => if x =? 3 then 0 else if x =? 13 then 0 else 65 in
  strncmp m 0 10 14 = 0 <-> cstr m 0 14 = cstr m 10 14.
Proof.
  apply (strncmp_zero_iff (fun x => if x =? 3 then 0 else if x =? 13 then 0 else 65) 0 10 14).
  intros x. repeat zcase; lia.
Defined.

Lemma zero_fill_ok n m s : mem_ok m -> mem_ok (zero_fill m s n).
Proof. revert m s. induction n as [|n IH]; intros m s Hm; simpl; [done|]. apply IH, mem_ok_store8; [done|lia]. Qed.
Lemma strncpy_ok m s t n : mem_ok m -> mem_ok (strncpy m s t n).
Proof.
  unfold strncpy. generalize (Z.to_nat n) as k. intros k. revert m s t.
  induction k as [|k IH]; intros m s t Hm; simpl; [done|].
  assert (Hm' : mem_ok (store8 m s (m t))) by (by apply mem_ok_store8).
  destruct (negb _); [by apply IH|by apply zero_fill_ok].
Qed.

(** The name that [strncpy] leaves in a directory entry. *)
Lemma cstr_strncpy n m s t :
  s + Z.of_nat n <= t \/ t + Z.of_nat n <= s ->
  cstr (strncpy_loop m s t n) s n = cstr m t n.
Proof.
  revert m s t. induction n as [|k IH]; intros m s t H; cbn [strncpy_loop cstr]; [done|].
  destruct (Z.eqb_spec (m t) 0) as [Ht|Ht]; simpl.
  - rewrite zero_fill_lookup, store8_eq.
    replace (_ && _) with false by (repeat zcase; simpl; lia || done).
    by rewrite (proj2 (Z.eqb_eq _ _) Ht).
  - rewrite strncpy_frame by lia. rewrite store8_eq.
    rewrite (proj2 (Z.eqb_neq _ _) Ht). f_equal.
    rewrite IH by lia. apply cstr_ext. intros x Hx. apply store8_ne. lia.
Qed.

(** a name stored with [strncpy] compares equal, with [strncmp] and the same
    bound, to the name it was copied from: this is what [dirlink] and [dirlookup]
    rely on for names of any length. *)
Theorem strncpy_strncmp (m : mem) (s t n : Z) :
  mem_ok m -> s + n <= t \/ t + n <= s -> 0 <= n ->
  strncmp (strncpy m s t n) s t n = 0.
Proof.
  intros Hm Hsep Hn. unfold strncmp, strncpy.
  assert (Hsep' : s + Z.of_nat (Z.to_nat n) <= t \/ t + Z.of_nat (Z.to_nat n) <= s) by lia.
  revert Hsep'. generalize (Z.to_nat n) as k. clear n Hsep Hn. intros k.
  revert m s t Hm. induction k as [|k IH]; intros m s t Hm H; cbn [strncpy_loop strncmp_loop]; [done|].
  destruct (Z.eqb_spec (m t) 0) as [Ht|Ht]; simpl.
  - rewrite !zero_fill_lookup, store8_eq, store8_ne by lia. rewrite Ht.
    repeat (zcase; simpl); lia || done.
  - rewrite (strncpy_frame _ _ _ _ s), (strncpy_frame _ _ _ _ t) by lia.
    rewrite store8_eq, (store8_ne _ _ _ t) by lia.
    rewrite (proj2 (Z.eqb_neq _ _) Ht), Z.eqb_refl. simpl.
    apply IH; [|lia]. apply mem_ok_store8; auto.
Qed.

Lemma strncpy_strncmp_witness :
  strncmp (strncpy (fun x => if (16 <=? x) && (x <? 20) then 97 else 0) 100 16 14) 100 16 14 = 0.
Proof.
  apply strncpy_strncmp; [|lia|lia]. intros x. repeat (zcase; simpl); lia.
Defined.

Lemma safestrcpy_loop_spec k m s t :
  s + Z.of_nat k < t \/ t + Z.of_nat k <= s ->
  cstr (safestrcpy_loop m s t k) s (S k) = cstr m t k /\
  exists j, 0 <= j <= Z.of_nat k /\ safestrcpy_loop m s t k (s + j) = 0.
Proof.
  revert m s t. induction k as [|k IH]; intros m s t H; cbn [safestrcpy_loop].
  - split; [cbn; by rewrite store8_eq|]. exists 0. split; [lia|].
    rewrite Z.add_0_r. apply store8_eq.
  - destruct (Z.eqb_spec (m t) 0) as [Ht|Ht]; simpl negb; cbv iota.
    + split.
      * cbn [cstr]. rewrite store8_ne, store8_eq by lia. by rewrite Ht.
      * exists 1. split; [lia|]. apply store8_eq.
    + destruct (IH (store8 m s (m t)) (s + 1) (t + 1) ltac:(lia)) as [Hc (j & Hj & Hz)].
      split.
      * change (cstr ?f s (S (S k))) with
          (if f s =? 0 then [] else f s :: cstr f (s + 1) (S k)).
        rewrite Hc, safestrcpy_frame by lia. rewrite store8_eq.
        cbn [cstr]. rewrite (proj2 (Z.eqb_neq _ _) Ht). f_equal.
        apply cstr_ext. intros x Hx. apply store8_ne. lia.
      * exists (j + 1). split; [lia|]. rewrite <- Hz. f_equal; lia.
Qed.

(** [safestrcpy] always NUL-terminates within the [n] bytes of the destination,
    and the destination then holds the source string cut at [n-1] bytes. *)
Theorem safestrcpy_terminated (m : mem) (s t n : Z) :
  0 < n -> s + n <= t \/ t + n <= s ->
  cstr (safestrcpy m s t n) s (Z.to_nat n) = cstr m t (Z.to_nat (n - 1)) /\
  exists j, 0 <= j < n /\ safestrcpy m s t n (s + j) = 0.
Proof.
  intros Hn Hsep. unfold safestrcpy. rewrite (proj2 (Z.leb_gt n 0)) by lia.
  replace (Z.to_nat n) with (S (Z.to_nat (n - 1))) by lia.
  destruct (safestrcpy_loop_spec (Z.to_nat (n - 1)) m s t ltac:(lia)) as [Hc (j & Hj & Hz)].
  split; [done|]. exists j. split; [lia|done].
Qed.

Lemma safestrcpy_terminated_witness :
  let m := fun x => if x <? 90 then 65 else 66 in
  cstr (safestrcpy m 100 16 16) 100 16 = cstr m 16 15 /\
  exists j, 0 <= j < 16 /\ safestrcpy m 100 16 16 (100 + j) = 0.
Proof.
  apply (safestrcpy_terminated (fun x => if x <? 90 then 65 else 66) 100 16 16); lia.
Defined.

(** ** Strings as lists *)

(** The NUL-terminated string at [p]. *)
Fixpoint str_at (b : mem) (p : Z) (l : list Z) : Prop :=
  match l with
  | [] => b p = 0
  | c :: l => b p = c /\ c <> 0 /\ str_at b (p + 1) l
  end.

Lemma str_at_ext b b' p l : str_at b p l -> (forall x, p <= x <= p + Z.of_nat (length l) -> b' x = b x) -> str_at b' p l.
Proof.
  revert p. induction l as [|c l IH]; intros p H He; cbn [str_at length] in *; [by rewrite He by lia|].
  destruct H as (H1 & H2 & H3). rewrite He by lia. split_and!; [done|done|]. apply IH; [done|]. intros x Hx. apply He. lia.
Qed.
Lemma str_at_app b p x l : str_at b p (x ++ l) <-> (Forall (fun c => c <> 0) x /\ forall i c, x !! i = Some c -> b (p + Z.of_nat i) = c) /\ str_at b (p + Z.of_nat (length x)) l.
Proof.
  revert p. induction x as [|c x IH]; intros p; cbn [app str_at length].
  - rewrite Z.add_0_r. split; [|tauto]. intros H. split_and!; done.
  - rewrite IH, Forall_cons. replace (p + 1 + Z.of_nat (length x)) with (p + Z.of_nat (S (length x))) by lia. split.
    + intros (H1 & H2 & [H3 H4] & H5). split_and!; [done|done| |done]. intros [|i] d Hd; simpl in Hd; [injection Hd as <-; by rewrite Z.add_0_r|].
      rewrite <-(H4 i d Hd). f_equal. lia.
    + intros [[[H2 H3] H4] H5]. split_and!; [by rewrite <-(H4 0%nat c eq_refl), Z.add_0_r|done|done| |done].
      intros i d Hd. rewrite <-(H4 (S i) d Hd). f_equal. lia.
Qed.
Lemma cstr_str_at b p l n : str_at b p l -> (length l < n)%nat -> cstr b p n = l.
Proof.
  revert p n. induction l as [|c l IH]; intros p n H Hn; (destruct n as [|n]; [simpl in Hn; lia|]); cbn [cstr str_at] in *; [by rewrite H|].
  destruct H as (-> & Hc & H). destruct (Z.eqb_spec c 0); [done|]. f_equal. apply IH; [done|simpl in Hn; lia].
Qed.
