(* ===== verification/Spinlock.v ===== *)
(** * Spin locks and interrupt nesting ([src/xv6/spinlock.c], [mycpu] of [proc.c])

    The first part models the routines one after the other: [pushcli] and
    [popcli] on the record of one CPU, and [acquire]/[release]/[holding] on a lock
    as the components of the kernel use them, run by CPU [me].  The second part
    is the concurrent view: every CPU runs [acquire]; critical section;
    [release] as a program whose atomic steps are the single memory accesses of
    the source, interleaved arbitrarily. *)

From S2P Require Import Prelude.

(** ** CPUs *)

(** The fields of [struct cpu] that the routines use; [if_flag] is the FL_IF
    bit of this CPU's eflags register. *)
Record cpu : Type := mk_cpu {
  apicid : Z;
  ncli : Z;
  intena : bool;
  if_flag : bool
}.

Definition set_ncli (n : Z) (c : cpu) : cpu := mk_cpu (apicid c) n (intena c) (if_flag c).
Definition set_intena (b : bool) (c : cpu) : cpu := mk_cpu (apicid c) (ncli c) b (if_flag c).
Definition set_if (b : bool) (c : cpu) : cpu := mk_cpu (apicid c) (ncli c) (intena c) b.

Definition cli (c : cpu) : cpu := set_if false c.
Definition sti (c : cpu) : cpu := set_if true c.

(** [mycpu]: the index in [cpus] of the CPU whose local APIC id is [id]; [ifl] is
    the interrupt flag of the executing CPU. *)
Definition mycpu (ifl : bool) (id : Z) (cpus : list cpu) : M unit nat := fun s =>
  if ifl then Panic "mycpu called with interrupts enabled"
  else match find_index (fun c => apicid c =? id) cpus with
       | Some i => Ok i s
       | None => Panic "unknown apicid"
       end.

Definition pushcli (c : cpu) : cpu :=
  let eflags := if_flag c in
  let c := cli c in
  let c := if ncli c =? 0 then set_intena eflags c else c in
  set_ncli (ncli c + 1) c.

Definition popcli (c : cpu) : res unit cpu :=
  if if_flag c then Panic "popcli - interruptible"
  else
    let c := set_ncli (ncli c - 1) c in
    if ncli c <? 0 then Panic "popcli"
    else Ok (if (ncli c =? 0) && intena c then sti c else c) tt.

(** Interrupts are off inside a [pushcli]/[popcli] section. *)
Definition cpu_ok (c : cpu) : Prop := 0 <= ncli c /\ (0 < ncli c -> if_flag c = false).

Fixpoint pushclis (n : nat) (c : cpu) : cpu :=
  match n with
  | O => c
  | S k => pushclis k (pushcli c)
  end.

Fixpoint popclis (n : nat) (c : cpu) : res unit cpu :=
  match n with
  | O => Ok c tt
  | S k => match popcli c with Ok c' _ => popclis k c' | r => r end
  end.

(** ** Locks, as the components use them *)

(** [locked] and [cpu] of [struct spinlock]; the fields kept for debugging
    (name, pcs) do not influence control. *)
Record spinlock : Type := mk_spinlock {
  locked : Z;
  lk_cpu : option nat
}.

Definition initlock : spinlock := mk_spinlock 0 None.

(** [holding], run by CPU [me]. *)
Definition holding (me : nat) (lk : spinlock) : bool :=
  negb (locked lk =? 0) && bool_decide (lk_cpu lk = Some me).

(** [acquire] on the lock that [g] reads and [p] writes in the component's state.
    A lock held by another CPU makes this CPU spin: [Blocked]. *)
Definition acquire {S} (me : nat) (g : S -> spinlock) (p : spinlock -> S -> S) : M S unit := fun s =>
  if holding me (g s) then Panic "acquire"
  else if negb (locked (g s) =? 0) then Blocked s
  else Ok tt (p (mk_spinlock 1 (Some me)) s).

Definition release {S} (me : nat) (g : S -> spinlock) (p : spinlock -> S -> S) : M S unit := fun s =>
  if negb (holding me (g s)) then Panic "release"
  else Ok tt (p (mk_spinlock 0 None) s).

Lemma wp_acquire {S} me g p (s : S) (Q : unit -> S -> Prop) :
  g s = initlock -> Q tt (p (mk_spinlock 1 (Some me)) s) -> wp (acquire me g p) Q s.
Proof. intros Hg HQ. unfold wp, acquire. rewrite Hg. done. Qed.

Lemma wp_release {S} me g p (s : S) (Q : unit -> S -> Prop) :
  g s = mk_spinlock 1 (Some me) -> Q tt (p initlock s) -> wp (release me g p) Q s.
Proof.
  intros Hg HQ. unfold wp, release, holding. rewrite Hg. simpl.
  by rewrite bool_decide_true.
Qed.

Lemma post_acquire {S} me g p (s : S) (Q : unit -> S -> Prop) R :
  g s = initlock -> Q tt (p (mk_spinlock 1 (Some me)) s) -> post (acquire me g p) Q R s.
Proof. intros Hg HQ. unfold post, acquire. rewrite Hg. done. Qed.

Lemma post_release {S} me g p (s : S) (Q : unit -> S -> Prop) R :
  g s = mk_spinlock 1 (Some me) -> Q tt (p initlock s) -> post (release me g p) Q R s.
Proof. intros Hg HQ. unfold post, release, holding. rewrite Hg. simpl. by rewrite bool_decide_true. Qed.

Lemma acquire_Ok {S} me g p (s s' : S) u :
  acquire me g p s = Ok u s' -> locked (g s) = 0 /\ s' = p (mk_spinlock 1 (Some me)) s.
Proof.
  unfold acquire. destruct (holding me (g s)); [done|].
  destruct (Z.eqb_spec (locked (g s)) 0); [|done]. by intros [= _ <-].
Qed.

Lemma release_Ok {S} me g p (s s' : S) u : release me g p s = Ok u s' -> s' = p initlock s.
Proof. unfold release. destruct (holding me (g s)); [|done]. by intros [= _ <-]. Qed.

Lemma keeps_acquire {S} (K : S -> S -> Prop) `{!PreOrder K} me g p :
  (forall x s, K s (p x s)) -> keeps K (acquire me g p).
Proof.
  intros Hp s. unfold post, acquire. destruct (holding me (g s)); [done|].
  destruct (locked (g s) =? 0); simpl; [apply Hp|apply PreOrder_Reflexive].
Qed.
Lemma keeps_release {S} (K : S -> S -> Prop) `{!PreOrder K} me g p :
  (forall x s, K s (p x s)) -> keeps K (release me g p).
Proof. intros Hp s. unfold post, release. destruct (holding me (g s)); simpl; [apply Hp|done]. Qed.

(** [getcallerpcs]: follow the saved frame pointers from [ebp], at most [n]
    more entries, through the word memory [ld]; a break fills with zeros. *)
Fixpoint getcallerpcs_loop (ld : Z -> Z) (ebp : Z) (n : nat) : list Z :=
  match n with
  | O => []
  | S k =>
      if (ebp =? 0) || (ebp <? 2147483648) || (ebp =? 4294967295) then repeat 0 n
      else ld (u32 (ebp + 4)) :: getcallerpcs_loop ld (ld ebp) k
  end.
Definition getcallerpcs (ld : Z -> Z) (v : Z) : list Z := getcallerpcs_loop ld (u32 (v - 8)) 10.

(** ** The concurrent view *)

(** Where a CPU is in [acquire(lk); ...; release(lk);]. *)
Inductive pc : Type :=
| Outside                 (* before pushcli of acquire *)
| AcqLocked               (* in holding: about to read lk->locked *)
| AcqCpu                  (* in holding: about to read lk->cpu *)
| Spin                    (* in the xchg loop *)
| Got                     (* xchg returned 0, lk->cpu not yet written *)
| Crit                    (* acquire has returned *)
| RelLocked               (* release: in holding, about to read lk->locked *)
| RelCpu                  (* release: in holding, about to read lk->cpu *)
| RelClear                (* about to write lk->cpu = 0 *)
| RelStore                (* about to store 0 in lk->locked *)
| RelPop                  (* about to popcli *)
| Dead.                   (* panicked *)

#[export] Instance pc_eq_dec : EqDecision pc.
Proof. solve_decision. Defined.

Record machine : Type := mk_machine {
  m_lk : spinlock;
  m_cpu : nat -> cpu;
  m_pc : nat -> pc
}.

(** One atomic step of CPU [i]. *)
Inductive step (s : machine) : machine -> Prop :=
| step_pushcli i :
    m_pc s i = Outside ->
    step s (mk_machine (m_lk s) (fupd (m_cpu s) i (pushcli (m_cpu s i)))
              (fupd (m_pc s) i AcqLocked))
| step_acq_locked i :
    m_pc s i = AcqLocked ->
    step s (mk_machine (m_lk s) (m_cpu s)
              (fupd (m_pc s) i (if locked (m_lk s) =? 0 then Spin else AcqCpu)))
| step_acq_cpu i :
    m_pc s i = AcqCpu ->
    step s (mk_machine (m_lk s) (m_cpu s)
              (fupd (m_pc s) i (if bool_decide (lk_cpu (m_lk s) = Some i) then Dead else Spin)))
| step_xchg i :
    m_pc s i = Spin ->
    step s (mk_machine (mk_spinlock 1 (lk_cpu (m_lk s))) (m_cpu s)
              (fupd (m_pc s) i (if locked (m_lk s) =? 0 then Got else Spin)))
| step_setcpu i :
    m_pc s i = Got ->
    step s (mk_machine (mk_spinlock (locked (m_lk s)) (Some i)) (m_cpu s) (fupd (m_pc s) i Crit))
| step_release i :
    m_pc s i = Crit ->
    step s (mk_machine (m_lk s) (m_cpu s) (fupd (m_pc s) i RelLocked))
| step_rel_locked i :
    m_pc s i = RelLocked ->
    step s (mk_machine (m_lk s) (m_cpu s)
              (fupd (m_pc s) i (if locked (m_lk s) =? 0 then Dead else RelCpu)))
| step_rel_cpu i :
    m_pc s i = RelCpu ->
    step s (mk_machine (m_lk s) (m_cpu s)
              (fupd (m_pc s) i (if bool_decide (lk_cpu (m_lk s) = Some i) then RelClear else Dead)))
| step_rel_clear i :
    m_pc s i = RelClear ->
    step s (mk_machine (mk_spinlock (locked (m_lk s)) None) (m_cpu s) (fupd (m_pc s) i RelStore))
| step_rel_store i :
    m_pc s i = RelStore ->
    step s (mk_machine (mk_spinlock 0 (lk_cpu (m_lk s))) (m_cpu s) (fupd (m_pc s) i RelPop))
| step_popcli i :
    m_pc s i = RelPop ->
    step s (match popcli (m_cpu s i) with
            | Ok c _ => mk_machine (m_lk s) (fupd (m_cpu s) i c) (fupd (m_pc s) i Outside)
            | _ => mk_machine (m_lk s) (m_cpu s) (fupd (m_pc s) i Dead)
            end).

(** The lock is free and no CPU is inside [acquire] or [release]. *)
Definition initial (s : machine) : Prop :=
  m_lk s = initlock /\ (forall i, m_pc s i = Outside) /\ (forall i, cpu_ok (m_cpu s i)).

(** CPU [i] owns the lock: between its successful xchg and its store of 0. *)
Definition owns (p : pc) : bool :=
  match p with Got | Crit | RelLocked | RelCpu | RelClear | RelStore => true | _ => false end.

(** CPU [i] has written its own identity in [lk->cpu]. *)
Definition named (p : pc) : bool :=
  match p with Crit | RelLocked | RelCpu | RelClear => true | _ => false end.

(** CPU [i] is between the [pushcli] of [acquire] and the [popcli] of [release]. *)
Definition inside (p : pc) : bool := match p with Outside => false | _ => true end.

Record inv (s : machine) : Prop := mk_inv {
  inv_own : forall i, owns (m_pc s i) = true -> locked (m_lk s) = 1;
  inv_excl : forall i j, owns (m_pc s i) = true -> owns (m_pc s j) = true -> i = j;
  inv_free : locked (m_lk s) <> 0 -> exists i, owns (m_pc s i) = true;
  inv_named : forall i, named (m_pc s i) = true -> lk_cpu (m_lk s) = Some i;
  inv_cpu : forall i, lk_cpu (m_lk s) = Some i -> named (m_pc s i) = true;
  inv_live : forall i, m_pc s i <> Dead;
  inv_irq : forall i, cpu_ok (m_cpu s i) /\ (inside (m_pc s i) = true -> 0 < ncli (m_cpu s i))
}.

(** ** Lemmas *)

Lemma pushcli_ok c : cpu_ok c -> cpu_ok (pushcli c) /\ 0 < ncli (pushcli c).
Proof.
  intros [H1 H2]. unfold pushcli, cpu_ok. simpl. zcase; simpl; repeat split; intros; try done; lia.
Qed.

Lemma pushcli_if c : if_flag (pushcli c) = false.
Proof. unfold pushcli. simpl. by zcase. Qed.

Lemma pushcli_ncli c : ncli (pushcli c) = ncli c + 1.
Proof. unfold pushcli. simpl. by zcase. Qed.

Lemma popcli_ok c :
  cpu_ok c -> 0 < ncli c -> exists c', popcli c = Ok c' tt /\ cpu_ok c' /\ ncli c' = ncli c - 1.
Proof.
  intros [H1 H2] H3. unfold popcli. rewrite H2 by done. simpl.
  destruct (Z.ltb_spec (ncli c - 1) 0); [lia|].
  eexists. split; [done|]. zcase; simpl; [destruct (intena c); simpl|];
    unfold cpu_ok; simpl; repeat split; try lia; intros; try lia; auto.
Qed.

(** After a [popcli], a matching [pushcli] has nothing more to undo. *)
Lemma popcli_pushcli c :
  cpu_ok c ->
  exists c', popcli (pushcli c) = Ok c' tt /\ ncli c' = ncli c /\ if_flag c' = if_flag c /\
             (0 < ncli c -> c' = c).
Proof.
  intros [H1 H2]. destruct c as [a n it fl]; simpl in *. unfold popcli, pushcli; simpl.
  destruct (Z.eqb_spec n 0) as [->|Hn]; simpl.
  - eexists. split; [done|]. destruct fl; simpl; repeat split; lia.
  - replace (n + 1 - 1) with n by lia. destruct (Z.ltb_spec n 0); [lia|].
    rewrite (proj2 (Z.eqb_neq n 0)) by done. simpl.
    rewrite H2 by lia. eexists. split; [done|]. done.
Qed.

(** [fupd] at the updated and at the other indices. *)

(** A step of CPU [i] that leaves the ownership of every CPU, the lock and the
    interrupt state as they are keeps the invariant. *)
Lemma inv_local s i p :
  inv s -> owns p = owns (m_pc s i) -> named p = named (m_pc s i) ->
  inside (m_pc s i) = true -> p <> Dead ->
  inv (mk_machine (m_lk s) (m_cpu s) (fupd (m_pc s) i p)).
Proof.
  intros [I1 I2 I3 I4 I5 I6 I7] Ho Hn Hi Hd.
  assert (Hos : forall j, owns (fupd (m_pc s) i p j) = owns (m_pc s j)).
  { intros j. destruct (decide (j = i)) as [->|]; [by rewrite fupd_eq|by rewrite fupd_ne]. }
  assert (Hns : forall j, named (fupd (m_pc s) i p j) = named (m_pc s j)).
  { intros j. destruct (decide (j = i)) as [->|]; [by rewrite fupd_eq|by rewrite fupd_ne]. }
  constructor; simpl.
  - intros j. rewrite Hos. apply I1.
  - intros j k. rewrite !Hos. apply I2.
  - intros H. destruct (I3 H) as [j Hj]. exists j. by rewrite Hos.
  - intros j. rewrite Hns. apply I4.
  - intros j. rewrite Hns. apply I5.
  - intros j. destruct (decide (j = i)) as [->|]; [by rewrite fupd_eq|by rewrite fupd_ne].
  - intros j. destruct (I7 j) as [Hok Hpos]. split; [done|].
    destruct (decide (j = i)) as [->|]; [auto|rewrite fupd_ne by done; auto].
Qed.

(** Case analysis on whether an index is the one that moves. *)
Ltac who j i := destruct (decide (j = i)) as [->|]; [rewrite ?fupd_eq|rewrite ?fupd_ne by done].

Lemma inv_pushcli s i :
  inv s -> m_pc s i = Outside ->
  inv (mk_machine (m_lk s) (fupd (m_cpu s) i (pushcli (m_cpu s i))) (fupd (m_pc s) i AcqLocked)).
Proof.
  intros [I1 I2 I3 I4 I5 I6 I7] Hpc.
  constructor; simpl.
  - intros j. who j i; [done|apply I1].
  - intros j k. who j i; [done|]. who k i; [done|]. apply I2.
  - intros H. destruct (I3 H) as [j Hj]. exists j. who j i; [by rewrite Hpc in Hj|done].
  - intros j. who j i; [done|apply I4].
  - intros j Hj. apply I5 in Hj. who j i; [by rewrite Hpc in Hj|done].
  - intros j. who j i; done.
  - intros j. who j i; [|apply I7]. destruct (I7 i) as [Hok _].
    destruct (pushcli_ok _ Hok). split; auto.
Qed.

Lemma inv_xchg s i :
  inv s -> m_pc s i = Spin ->
  inv (mk_machine (mk_spinlock 1 (lk_cpu (m_lk s))) (m_cpu s)
         (fupd (m_pc s) i (if locked (m_lk s) =? 0 then Got else Spin))).
Proof.
  intros [I1 I2 I3 I4 I5 I6 I7] Hpc. destruct (Z.eqb_spec (locked (m_lk s)) 0) as [H0|H0].
  - assert (Hno : forall j, owns (m_pc s j) = true -> False).
    { intros j Hj. apply I1 in Hj. lia. }
    constructor; simpl.
    + intros j. done.
    + intros j k. who j i; who k i; intros; try done; exfalso; eauto.
    + intros _. exists i. by rewrite fupd_eq.
    + intros j. who j i; [done|apply I4].
    + intros j Hj. apply I5 in Hj. who j i; [by rewrite Hpc in Hj|done].
    + intros j. who j i; done.
    + intros j. destruct (I7 j) as [Hok Hp]. split; [done|]. who j i; [|done].
      intros _. apply Hp. by rewrite Hpc.
  - constructor; simpl.
    + intros j. done.
    + intros j k. who j i; [done|]. who k i; [done|]. apply I2.
    + intros _. destruct (I3 H0) as [j Hj]. exists j. who j i; [by rewrite Hpc in Hj|done].
    + intros j. who j i; [done|apply I4].
    + intros j Hj. apply I5 in Hj. who j i; [by rewrite Hpc in Hj|done].
    + intros j. who j i; done.
    + intros j. destruct (I7 j) as [Hok Hp]. split; [done|]. who j i; [|done].
      intros _. apply Hp. by rewrite Hpc.
Qed.

Lemma inv_setcpu s i :
  inv s -> m_pc s i = Got ->
  inv (mk_machine (mk_spinlock (locked (m_lk s)) (Some i)) (m_cpu s) (fupd (m_pc s) i Crit)).
Proof.
  intros [I1 I2 I3 I4 I5 I6 I7] Hpc.
  assert (Hi : owns (m_pc s i) = true) by by rewrite Hpc.
  constructor; simpl.
  - intros j. who j i; [intros _; by apply (I1 i)|apply I1].
  - intros j k. who j i; who k i; intros; try done; eauto.
  - intros H. exists i. by rewrite fupd_eq.
  - intros j. who j i; [done|]. intros Hj. exfalso.
    assert (i = j); [|congruence]. apply I2; [done|]. by destruct (m_pc s j).
  - intros j [= <-]. by rewrite fupd_eq.
  - intros j. who j i; done.
  - intros j. destruct (I7 j) as [Hok Hp]. split; [done|]. who j i; [|done].
    intros _. apply Hp. by rewrite Hpc.
Qed.

Lemma inv_rel_clear s i :
  inv s -> m_pc s i = RelClear ->
  inv (mk_machine (mk_spinlock (locked (m_lk s)) None) (m_cpu s) (fupd (m_pc s) i RelStore)).
Proof.
  intros [I1 I2 I3 I4 I5 I6 I7] Hpc.
  assert (Hi : owns (m_pc s i) = true) by by rewrite Hpc.
  constructor; simpl.
  - intros j. who j i; [intros _; by apply (I1 i)|apply I1].
  - intros j k. who j i; who k i; intros; try done; eauto.
  - intros H. exists i. by rewrite fupd_eq.
  - intros j. who j i; [done|]. intros Hj. exfalso.
    assert (i = j); [|congruence]. apply I2; [done|]. by destruct (m_pc s j).
  - done.
  - intros j. who j i; done.
  - intros j. destruct (I7 j) as [Hok Hp]. split; [done|]. who j i; [|done].
    intros _. apply Hp. by rewrite Hpc.
Qed.

Lemma inv_rel_store s i :
  inv s -> m_pc s i = RelStore ->
  inv (mk_machine (mk_spinlock 0 (lk_cpu (m_lk s))) (m_cpu s) (fupd (m_pc s) i RelPop)).
Proof.
  intros [I1 I2 I3 I4 I5 I6 I7] Hpc.
  assert (Hi : owns (m_pc s i) = true) by by rewrite Hpc.
  assert (Hno : forall j, j <> i -> owns (m_pc s j) = false).
  { intros j Hj. destruct (owns (m_pc s j)) eqn:E; [|done]. exfalso. eauto. }
  constructor; simpl.
  - intros j. who j i; [done|]. by rewrite Hno.
  - intros j k. who j i; [done|]. by rewrite Hno.
  - done.
  - intros j. who j i; [done|apply I4].
  - intros j Hj. apply I5 in Hj. who j i; [by rewrite Hpc in Hj|done].
  - intros j. who j i; done.
  - intros j. destruct (I7 j) as [Hok Hp]. split; [done|]. who j i; [|done].
    intros _. apply Hp. by rewrite Hpc.
Qed.

Lemma inv_popcli s i c :
  inv s -> m_pc s i = RelPop -> popcli (m_cpu s i) = Ok c tt -> cpu_ok c ->
  inv (mk_machine (m_lk s) (fupd (m_cpu s) i c) (fupd (m_pc s) i Outside)).
Proof.
  intros [I1 I2 I3 I4 I5 I6 I7] Hpc Hc Hok.
  constructor; simpl.
  - intros j. who j i; [done|apply I1].
  - intros j k. who j i; [done|]. who k i; [done|]. apply I2.
  - intros H. destruct (I3 H) as [j Hj]. exists j. who j i; [by rewrite Hpc in Hj|done].
  - intros j. who j i; [done|apply I4].
  - intros j Hj. apply I5 in Hj. who j i; [by rewrite Hpc in Hj|done].
  - intros j. who j i; done.
  - intros j. who j i; [by split|apply I7].
Qed.

Lemma inv_step s s' : inv s -> step s s' -> inv s'.
Proof.
  intros Hinv Hstep. pose proof Hinv as [I1 I2 I3 I4 I5 I6 I7].
  destruct Hstep as [i Hpc|i Hpc|i Hpc|i Hpc|i Hpc|i Hpc|i Hpc|i Hpc|i Hpc|i Hpc|i Hpc].
  - by apply inv_pushcli.
  - apply inv_local; rewrite ?Hpc; try done; by destruct (locked (m_lk s) =? 0).
  - destruct (bool_decide_reflect (lk_cpu (m_lk s) = Some i)) as [Hc|Hc].
    { apply I5 in Hc. by rewrite Hpc in Hc. }
    by apply inv_local; rewrite ?Hpc.
  - by apply inv_xchg.
  - by apply inv_setcpu.
  - by apply inv_local; rewrite ?Hpc.
  - rewrite (I1 i) by by rewrite Hpc. by apply inv_local; rewrite ?Hpc.
  - rewrite (bool_decide_true (lk_cpu (m_lk s) = Some i)) by (apply I4; by rewrite Hpc).
    by apply inv_local; rewrite ?Hpc.
  - by apply inv_rel_clear.
  - by apply inv_rel_store.
  - destruct (I7 i) as [Hok Hp]. rewrite Hpc in Hp.
    destruct (popcli_ok _ Hok (Hp eq_refl)) as (c & Hc & Hc' & _).
    rewrite Hc. by apply inv_popcli.
Qed.

Lemma inv_initial s : initial s -> inv s.
Proof.
  intros (Hlk & Hpc & Hok). constructor; rewrite ?Hlk; simpl; try done;
    intros i; rewrite ?Hpc; done.
Qed.

Lemma inv_reachable s0 s : initial s0 -> rtc step s0 s -> inv s.
Proof. intros H0. apply invariant_rtc; eauto using inv_step, inv_initial. Qed.

(** ** Properties *)


(** no CPU ever panics in [acquire] or [release], and a CPU runs with
    interrupts disabled from the [pushcli] of [acquire] to the [popcli] of
    [release]. *)
Theorem spinlock_no_panic_irq_off (s0 s : machine) (i : nat) :
  initial s0 -> rtc step s0 s ->
  m_pc s i <> Dead /\ (inside (m_pc s i) = true -> if_flag (m_cpu s i) = false).
Proof.
  intros H0 Hr. destruct (inv_reachable _ _ H0 Hr) as [_ _ _ _ _ I6 I7].
  split; [apply I6|]. intros Hi. destruct (I7 i) as [[_ Hok] Hp]. auto.
Qed.

(** A run in which CPU 0 takes the lock while CPU 1 spins. *)
Definition sample_cpu (i : nat) : cpu := mk_cpu (Z.of_nat i) 0 false true.
Definition sample0 : machine := mk_machine initlock sample_cpu (fun _ => Outside).

Lemma sample0_initial : initial sample0.
Proof. repeat split; simpl; lia. Qed.

Lemma sample_run : exists s, rtc step sample0 s /\ m_pc s 0%nat = Crit /\ m_pc s 1%nat = Spin.
Proof.
  eexists. split; [|split].
  - eapply rtc_l; [apply (step_pushcli _ 0); done|].
    eapply rtc_l; [apply (step_acq_locked _ 0); done|].
    eapply rtc_l; [apply (step_xchg _ 0); done|].
    eapply rtc_l; [apply (step_setcpu _ 0); done|].
    eapply rtc_l; [apply (step_pushcli _ 1); done|].
    eapply rtc_l; [apply (step_acq_locked _ 1); done|].
    eapply rtc_l; [apply (step_acq_cpu _ 1); done|]. apply rtc_refl.
  - done.
  - done.
Qed.


Lemma spinlock_no_panic_irq_off_witness :
  exists s, rtc step sample0 s /\ if_flag (m_cpu s 1%nat) = false.
Proof.
  destruct sample_run as (s & Hr & _ & H1). exists s. split; [done|].
  apply (spinlock_no_panic_irq_off sample0 s 1 sample0_initial Hr). by rewrite H1.
Defined.

Lemma popclis_S n c :
  popclis (S n) c = match popclis n c with Ok c' _ => popcli c' | r => r end.
Proof.
  revert c. induction n as [|n IH]; intros c.
  - simpl. by destruct (popcli c) as [? []| | |].
  - change (popclis (S (S n)) c) with
      (match popcli c with Ok c' _ => popclis (S n) c' | r => r end).
    simpl popclis at 2. destruct (popcli c) as [c' u| | |]; [apply IH|done..].
Qed.

Lemma popclis_pushclis_inner n c :
  cpu_ok c -> 0 < ncli c -> popclis n (pushclis n c) = Ok c tt.
Proof.
  revert c. induction n as [|n IH]; intros c Hok Hpos; [done|].
  rewrite popclis_S. simpl pushclis.
  destruct (pushcli_ok c Hok) as [Hok' Hpos']. rewrite IH by done.
  destruct (popcli_pushcli c Hok) as (c' & -> & _ & _ & Heq). by rewrite Heq.
Qed.

(** [n] calls of [pushcli] are undone by exactly [n] calls of [popcli]: none
    of them panics, the interrupt flag is off in between, and at the end the
    nesting depth and the interrupt flag are those of the start. *)
Theorem pushcli_popcli_matched (n : nat) (c : cpu) :
  cpu_ok c ->
  (n <> O -> if_flag (pushclis n c) = false) /\
  exists c', popclis n (pushclis n c) = Ok c' tt /\ ncli c' = ncli c /\ if_flag c' = if_flag c.
Proof.
  intros Hok. split.
  - revert c Hok. induction n as [|n IH]; intros c Hok H; [done|]. simpl.
    destruct n as [|n]; [apply pushcli_if|]. apply IH; [|done]. by apply pushcli_ok.
  - destruct n as [|n]; [by exists c|].
    rewrite popclis_S. simpl pushclis.
    destruct (pushcli_ok c Hok) as [Hok' Hpos']. rewrite popclis_pushclis_inner by done.
    destruct (popcli_pushcli c Hok) as (c' & -> & ? & ? & _). eauto.
Qed.

Lemma pushcli_popcli_matched_witness :
  exists c', popclis 3 (pushclis 3 (sample_cpu 0)) = Ok c' tt /\ if_flag c' = true.
Proof.
  destruct (pushcli_popcli_matched 3 (sample_cpu 0)) as [_ (c' & H1 & H2 & H3)].
  - split; simpl; lia.
  - exists c'. split; [exact H1|exact H3].
Defined.
