(* ===== verification/Mmu.v ===== *)
(** * Memory layout and MMU macros ([src/xv6/mmu.h], [src/xv6/memlayout.h])

    The address arithmetic shared by the page allocator and the paging code:
    constants, rounding, the split of a virtual address and of a page-table
    entry.  All arguments are [uint]s, so every macro is computed modulo 2^32. *)

From S2P Require Import Prelude.

Definition PGSIZE : Z := 4096.
Definition NPDENTRIES : Z := 1024.
Definition NPTENTRIES : Z := 1024.
Definition PTXSHIFT : Z := 12.
Definition PDXSHIFT : Z := 22.

Definition EXTMEM : Z := 0x100000.
Definition PHYSTOP : Z := 0xE000000.
Definition DEVSPACE : Z := 0xFE000000.
Definition KERNBASE : Z := 0x80000000.
Definition KERNLINK : Z := 0x80100000.

Definition V2P (a : Z) : Z := u32 (a - KERNBASE).
Definition P2V (a : Z) : Z := u32 (a + KERNBASE).

(** [~(PGSIZE-1)] as a 32-bit mask. *)
Definition PGMASK : Z := 4294963200.

Definition PGROUNDUP (sz : Z) : Z := Z.land (u32 (sz + PGSIZE - 1)) PGMASK.
Definition PGROUNDDOWN (a : Z) : Z := Z.land (u32 a) PGMASK.

Definition PDX (va : Z) : Z := Z.land (Z.shiftr (u32 va) PDXSHIFT) 0x3FF.
Definition PTX (va : Z) : Z := Z.land (Z.shiftr (u32 va) PTXSHIFT) 0x3FF.
Definition PGADDR (d t o : Z) : Z :=
  u32 (Z.lor (Z.lor (Z.shiftl d PDXSHIFT) (Z.shiftl t PTXSHIFT)) o).

Definition PTE_P : Z := 0x001.
Definition PTE_W : Z := 0x002.
Definition PTE_U : Z := 0x004.

Definition PTE_ADDR (pte : Z) : Z := Z.land (u32 pte) PGMASK.
Definition PTE_FLAGS (pte : Z) : Z := Z.land (u32 pte) 0xFFF.

(** ** Arithmetic of the macros *)

Lemma land_mask x : 0 <= x < W32 -> Z.land x PGMASK = x - x mod 4096.
Proof.
  intros Hx. unfold W32, PGMASK in *.
  replace 4294963200 with (Z.ldiff (Z.ones 32) (Z.ones 12)) by done.
  assert (H : Z.land x (Z.ldiff (Z.ones 32) (Z.ones 12)) = Z.ldiff x (Z.ones 12)).
  { apply Z.bits_inj'. intros i Hi.
    rewrite Z.land_spec, !Z.ldiff_spec. rewrite !Z.testbit_ones_nonneg by lia.
    destruct (Z.ltb_spec i 32); [by destruct (Z.testbit x i)|].
    assert (Z.testbit x i = false) as ->; [|done].
    destruct (decide (x = 0)) as [->|]; [apply Z.bits_0|].
    apply Z.bits_above_log2; [lia|]. apply Z.log2_lt_pow2; [lia|].
    eapply Z.lt_le_trans; [apply Hx|]. change 4294967296 with (2 ^ 32).
    apply Z.pow_le_mono_r; lia. }
  rewrite H, Z.ldiff_ones_r by lia.
  rewrite Z.shiftr_div_pow2, Z.shiftl_mul_pow2 by lia. change (2 ^ 12) with 4096. zlia.
Qed.

Lemma PGROUNDDOWN_spec a : 0 <= a < W32 -> PGROUNDDOWN a = a - a mod 4096.
Proof. intros H. unfold PGROUNDDOWN. rewrite u32_small by done. by apply land_mask. Qed.

Lemma PGROUNDUP_spec sz :
  0 <= sz -> sz + 4095 < W32 -> PGROUNDUP sz = (sz + 4095) - (sz + 4095) mod 4096.
Proof.
  intros H1 H2. unfold PGROUNDUP, PGSIZE. replace (sz + 4096 - 1) with (sz + 4095) by lia.
  rewrite u32_small by (unfold W32 in *; lia). apply land_mask. unfold W32 in *; lia.
Qed.

Lemma PTE_ADDR_spec pte : 0 <= pte < W32 -> PTE_ADDR pte = pte - pte mod 4096.
Proof. intros H. unfold PTE_ADDR. rewrite u32_small by done. by apply land_mask. Qed.

Lemma PTE_FLAGS_spec pte : 0 <= pte < W32 -> PTE_FLAGS pte = pte mod 4096.
Proof.
  intros H. unfold PTE_FLAGS. rewrite u32_small by done.
  change 4095 with (Z.ones 12). by rewrite Z.land_ones by lia.
Qed.

Lemma PDX_spec va : 0 <= va < W32 -> PDX va = va / 4194304.
Proof.
  intros H. unfold PDX. rewrite u32_small by done. change 1023 with (Z.ones 10).
  rewrite Z.land_ones by lia. unfold PDXSHIFT. rewrite Z.shiftr_div_pow2 by lia.
  change (2 ^ 22) with 4194304. apply Z.mod_small. unfold W32 in *. zlia.
Qed.

Lemma PTX_spec va : 0 <= va < W32 -> PTX va = (va / 4096) mod 1024.
Proof.
  intros H. unfold PTX. rewrite u32_small by done. change 1023 with (Z.ones 10).
  rewrite Z.land_ones by lia. unfold PTXSHIFT. by rewrite Z.shiftr_div_pow2 by lia.
Qed.

(** A page-table entry built from a page address and 12 bits of flags. *)
Lemma pte_lor a f : a mod 4096 = 0 -> 0 <= f < 4096 -> Z.lor a f = a + f.
Proof.
  intros Ha Hf. replace a with (a / 4096 * 2 ^ 12) by (change (2 ^ 12) with 4096; zlia).
  apply lor_mul_pow2; [done|lia].
Qed.
