(* ===== verification/Kalloc.v ===== *)
(** * Physical page allocator ([src/xv6/kalloc.c])

    The free list is threaded through the free pages themselves: the first word
    of a free page holds the address of the next one.  The state is the memory
    and the fields of [struct kmem]; [kend] is the linker symbol [end] and [me]
    the CPU that runs.  The specification is a list of free pages; the client
    model at the end lets the owners of allocated pages write into them at any
    time. *)

From S2P Require Import Prelude Mem CString Mmu Spinlock.

Record kmem : Type := mk_kmem {
  km_mem : mem;
  km_lock : spinlock;
  km_use_lock : bool;
  km_freelist : Z
}.

Definition km_set_mem (x : mem) (s : kmem) : kmem :=
  mk_kmem x (km_lock s) (km_use_lock s) (km_freelist s).
Definition km_set_lock (x : spinlock) (s : kmem) : kmem :=
  mk_kmem (km_mem s) x (km_use_lock s) (km_freelist s).
Definition km_set_use_lock (x : bool) (s : kmem) : kmem :=
  mk_kmem (km_mem s) (km_lock s) x (km_freelist s).
Definition km_set_freelist (x : Z) (s : kmem) : kmem :=
  mk_kmem (km_mem s) (km_lock s) (km_use_lock s) x.

Section kalloc.
Context (kend : Z) (me : nat).

Definition km_acquire : M kmem unit :=
  let! s := get in if km_use_lock s then acquire me km_lock km_set_lock else ret tt.
Definition km_release : M kmem unit :=
  let! s := get in if km_use_lock s then release me km_lock km_set_lock else ret tt.

Definition kfree (v : Z) : M kmem unit :=
  if negb (v mod PGSIZE =? 0) || (v <? kend) || (PHYSTOP <=? V2P v) then panic "kfree"
  else
    (* Fill with junk to catch dangling refs. *)
    modify (fun s => km_set_mem (memset (km_mem s) v 1 PGSIZE) s) ;;;
    km_acquire ;;;
    modify (fun s => km_set_mem (store32 (km_mem s) v (km_freelist s)) s) ;;;
    modify (km_set_freelist v) ;;;
    km_release.

Definition kalloc : M kmem Z :=
  km_acquire ;;;
  let! r := gets km_freelist in
  (if negb (r =? 0) then modify (fun s => km_set_freelist (load32 (km_mem s) r) s) else ret tt) ;;;
  km_release ;;;
  ret r.

(** [for(; p + PGSIZE <= vend; p += PGSIZE) kfree(p);] *)
Fixpoint freerange_loop (fuel : nat) (p vend : Z) : M kmem unit :=
  if p + PGSIZE <=? vend then
    match fuel with
    | O => fun _ => OutOfFuel
    | S k => kfree p ;;; freerange_loop k (p + PGSIZE) vend
    end
  else ret tt.

Definition freerange (vstart vend : Z) : M kmem unit :=
  freerange_loop (Z.to_nat (vend / PGSIZE)) (PGROUNDUP vstart) vend.

Definition kinit1 (vstart vend : Z) : M kmem unit :=
  modify (km_set_lock initlock) ;;;
  modify (km_set_use_lock false) ;;;
  freerange vstart vend.

Definition kinit2 (vstart vend : Z) : M kmem unit :=
  freerange vstart vend ;;;
  modify (km_set_use_lock true).

(** ** Representation of the free list *)

(** [p] is the head of the list [l] of pages chained through their first word. *)
Fixpoint flist (m : mem) (p : Z) (l : list Z) : Prop :=
  match l with
  | [] => p = 0
  | a :: l' => p = a /\ flist m (load32 m a) l'
  end.

(** The addresses that [kfree] accepts. *)
Definition page_ok (a : Z) : Prop :=
  0 < a < W32 /\ a mod PGSIZE = 0 /\ kend <= a /\ V2P a < PHYSTOP.

Record kmem_inv (s : kmem) (l : list Z) : Prop := mk_kmem_inv {
  ki_list : flist (km_mem s) (km_freelist s) l;
  ki_nodup : NoDup l;
  ki_pages : Forall page_ok l;
  ki_lock : km_lock s = initlock
}.

(** ** Lemmas *)

Lemma flist_ext m m' p l :
  flist m p l -> (forall a x, a ∈ l -> a <= x < a + 4 -> m' x = m x) -> flist m' p l.
Proof.
  revert p. induction l as [|a l IH]; intros p H Hm; [done|].
  destruct H as [-> H]. split; [done|].
  rewrite (load32_ext m' m) by (intros; apply (Hm a); [apply elem_of_cons; auto|lia]).
  apply IH; [done|]. intros b x Hb. apply Hm. by apply elem_of_cons; right.
Qed.

(** Distinct pages do not overlap. *)
Lemma pages_disjoint a b x :
  page_ok a -> page_ok b -> a <> b -> a <= x < a + PGSIZE -> ~ (b <= x < b + PGSIZE).
Proof. unfold page_ok, PGSIZE. intros (_ & Ha & _) (_ & Hb & _) Hne H1 H2. zlia. Qed.

Lemma flist_frame m m' p l v :
  flist m p l -> Forall page_ok l -> page_ok v -> v ∉ l ->
  (forall x, ~ (v <= x < v + PGSIZE) -> m' x = m x) -> flist m' p l.
Proof.
  intros Hl Hok Hv Hn Hm. apply (flist_ext m); [done|]. intros a x Ha Hx. apply Hm.
  rewrite Forall_forall in Hok. apply (pages_disjoint a); auto; [congruence|].
  unfold PGSIZE; lia.
Qed.

Lemma wp_km_acquire s (Q : unit -> kmem -> Prop) :
  km_lock s = initlock ->
  Q tt (if km_use_lock s then km_set_lock (mk_spinlock 1 (Some me)) s else s) ->
  wp km_acquire Q s.
Proof.
  intros Hl HQ. unfold km_acquire. wp_steps. destruct (km_use_lock s).
  - by apply wp_acquire.
  - by wp_step.
Qed.

Lemma wp_km_release s (Q : unit -> kmem -> Prop) :
  (km_use_lock s = true -> km_lock s = mk_spinlock 1 (Some me)) ->
  Q tt (if km_use_lock s then km_set_lock initlock s else s) ->
  wp km_release Q s.
Proof.
  intros Hl HQ. unfold km_release. wp_steps. destruct (km_use_lock s).
  - apply wp_release; auto.
  - by wp_step.
Qed.

Lemma kfree_spec s l v (Q : unit -> kmem -> Prop) :
  kmem_inv s l -> page_ok v -> v ∉ l ->
  (forall s', kmem_inv s' (v :: l) -> km_use_lock s' = km_use_lock s ->
     (forall x, ~ (v <= x < v + PGSIZE) -> km_mem s' x = km_mem s x) -> Q tt s') ->
  wp (kfree v) Q s.
Proof.
  intros [Hl Hnd Hp Hk] Hv Hn HQ. pose proof Hv as (Hr & Hal & He & Htop). unfold kfree.
  rewrite (proj2 (Z.eqb_eq _ _) Hal), (proj2 (Z.ltb_ge _ _) He), (proj2 (Z.leb_gt _ _) Htop).
  destruct s as [mm lk ul fl]; simpl in *. subst lk.
  set (m2 := store32 (memset mm v 1 PGSIZE) v fl).
  assert (Hm2 : forall x, ~ (v <= x < v + PGSIZE) -> m2 x = mm x).
  { intros x Hx. unfold m2. rewrite store32_ne by (unfold PGSIZE in *; lia).
    unfold PGSIZE in *. rewrite memset_lookup by lia. repeat (zcase; simpl); try done; lia. }
  assert (Hf : 0 <= fl < W32).
  { destruct l as [|a l]; simpl in Hl; [rewrite Hl; unfold W32; lia|].
    destruct Hl as [-> _]. apply Forall_cons in Hp as [(? & _) _]. lia. }
  assert (Hl2 : flist m2 v (v :: l)).
  { split; [done|].
    assert (load32 m2 v = fl) as -> by (by apply load32_store32_eq).
    by apply (flist_frame mm _ _ _ v). }
  wp_steps. apply wp_km_acquire; [done|].
  destruct ul; simpl; wp_steps; (apply wp_km_release; [done|]); simpl;
    (apply HQ; [constructor; [done|by apply NoDup_cons|by constructor|done]|done|done]).
Qed.

Lemma kalloc_spec s l (Q : Z -> kmem -> Prop) :
  kmem_inv s l ->
  (match l with
   | [] => Q 0 s
   | a :: l' => forall s', kmem_inv s' l' -> km_use_lock s' = km_use_lock s ->
                km_mem s' = km_mem s -> Q a s'
   end) ->
  wp kalloc Q s.
Proof.
  intros [Hl Hnd Hp Hk] HQ. unfold kalloc. wp_steps.
  apply wp_km_acquire; [done|]. wp_steps.
  destruct s as [mm lk ul fl]; simpl in *. subst lk.
  destruct l as [|a l'].
  - simpl in Hl. subst fl. destruct ul; simpl; wp_steps;
      apply wp_km_release; simpl; try done; by wp_steps.
  - destruct Hl as [-> Hl]. apply Forall_cons in Hp as [(Ha & Hok) Hp].
    apply NoDup_cons in Hnd as [_ Hnd].
    destruct ul; simpl; (destruct (Z.eqb_spec a 0); [lia|]); simpl; wp_steps;
      apply wp_km_release; simpl; try done; wp_steps; by apply HQ.
Qed.

(** The whole pages of [p, vend), in increasing order. *)
Definition pages_from (p vend : Z) : list Z :=
  (fun i => p + PGSIZE * Z.of_nat i) <$> seq 0 (Z.to_nat ((vend - p) / PGSIZE)).

Lemma pages_from_step p vend :
  p + PGSIZE <= vend -> pages_from p vend = p :: pages_from (p + PGSIZE) vend.
Proof.
  unfold pages_from, PGSIZE. intros H.
  replace (Z.to_nat ((vend - p) / 4096)) with (S (Z.to_nat ((vend - (p + 4096)) / 4096))) by zlia.
  simpl. f_equal; [lia|]. rewrite <- fmap_S_seq, <- list_fmap_compose.
  apply list_fmap_ext. intros. simpl. lia.
Qed.

Lemma pages_from_end p vend : vend < p + PGSIZE -> pages_from p vend = [].
Proof.
  unfold pages_from, PGSIZE. intros H.
  replace (Z.to_nat ((vend - p) / 4096)) with O by zlia. done.
Qed.

Lemma elem_of_pages_from p vend a : p mod PGSIZE = 0 ->
  a ∈ pages_from p vend <-> p <= a /\ a + PGSIZE <= vend /\ a mod PGSIZE = 0.
Proof.
  intros Hp. unfold pages_from, PGSIZE in *. rewrite list_elem_of_fmap. split.
  - intros (i & -> & Hi). apply elem_of_seq in Hi. zlia.
  - intros (H1 & H2 & H3). exists (Z.to_nat ((a - p) / 4096)).
    split; [zlia|]. apply elem_of_seq. zlia.
Qed.

Lemma freerange_loop_spec fuel p vend s l (Q : unit -> kmem -> Prop) :
  (Z.to_nat ((vend - p) / PGSIZE) <= fuel)%nat ->
  kmem_inv s l -> (forall a, a ∈ pages_from p vend -> page_ok a /\ a ∉ l) ->
  p mod PGSIZE = 0 ->
  (forall s', kmem_inv s' (reverse (pages_from p vend) ++ l) ->
     km_use_lock s' = km_use_lock s -> Q tt s') ->
  wp (freerange_loop fuel p vend) Q s.
Proof.
  revert p s l. induction fuel as [|k IH]; intros p s l Hfuel Hi Hok Hp HQ; simpl.
  - destruct (Z.leb_spec (p + PGSIZE) vend) as [Hle|Hgt].
    + unfold PGSIZE in *. zlia.
    + wp_step. apply HQ; [by rewrite pages_from_end|done].
  - destruct (Z.leb_spec (p + PGSIZE) vend) as [Hle|Hgt].
    + wp_steps. destruct (Hok p) as [Hpok Hpn].
      { rewrite pages_from_step by done. apply elem_of_cons; auto. }
      apply (kfree_spec s l); [done..|]. intros s' Hi' Hul _.
      assert (Hp' : (p + PGSIZE) mod PGSIZE = 0) by (unfold PGSIZE in *; zlia).
      apply (IH _ _ (p :: l)); [unfold PGSIZE in *; zlia|done| |done|].
      * intros a Ha. destruct (Hok a) as [Haok Han].
        { rewrite pages_from_step by done. by apply elem_of_cons; right. }
        split; [done|]. rewrite elem_of_cons. intros [->|?]; [|done].
        apply elem_of_pages_from in Ha as [? _]; [|done]. unfold PGSIZE in *; lia.
      * intros s'' Hi'' Hul''. apply HQ; [|congruence].
        rewrite pages_from_step by done. rewrite reverse_cons, <- app_assoc. done.
    + wp_step. apply HQ; [by rewrite pages_from_end|done].
Qed.

(** ** The allocator and its clients *)

(** A configuration: the allocator and the pages its clients hold.  Clients
    allocate, free a page they hold, and write any byte of a page they hold. *)
Inductive client_step : kmem * list Z -> kmem * list Z -> Prop :=
| client_alloc s s' r held :
    kalloc s = Ok r s' -> r <> 0 -> client_step (s, held) (s', r :: held)
| client_alloc_none s s' held :
    kalloc s = Ok 0 s' -> client_step (s, held) (s', held)
| client_free s s' v held1 held2 :
    kfree v s = Ok tt s' -> client_step (s, held1 ++ v :: held2) (s', held1 ++ held2)
| client_write s v x b held :
    v ∈ held -> v <= x < v + PGSIZE ->
    client_step (s, held) (km_set_mem (store8 (km_mem s) x b) s, held).

(** Every page of the pool is either on the free list or held, and only once. *)
Definition client_inv (pool : list Z) (c : kmem * list Z) : Prop :=
  exists l, kmem_inv c.1 l /\ l ++ c.2 ≡ₚ pool /\ NoDup (l ++ c.2) /\ Forall page_ok c.2.

Lemma client_inv_step pool c c' : client_inv pool c -> client_step c c' -> client_inv pool c'.
Proof.
  intros (l & Hi & Hperm & Hnd & Hok) Hstep.
  destruct Hstep as [s s' r held Hr Hr0|s s' held Hr|s s' v h1 h2 Hf|s v x b held Hv Hx]; simpl in *.
  - destruct l as [|a l'].
    { pose proof (kalloc_spec s [] (fun r _ => r = 0) Hi eq_refl) as H.
      unfold wp in H. by rewrite Hr in H. }
    pose proof (kalloc_spec s (a :: l') (fun r t => r = a /\ kmem_inv t l') Hi) as H.
    unfold wp in H. rewrite Hr in H. destruct H as [-> Hi']; [auto|].
    exists l'. simpl. split_and!; [exact Hi'| | |].
    + by rewrite <- Permutation_middle.
    + by rewrite <- Permutation_middle.
    + constructor; [|done]. by apply ki_pages, Forall_cons in Hi as [? _].
  - destruct l as [|a l'].
    { pose proof (kalloc_spec s [] (fun _ t => t = s) Hi eq_refl) as H.
      unfold wp in H. rewrite Hr in H. subst s'. by exists []. }
    pose proof (kalloc_spec s (a :: l') (fun r _ => r = a) Hi) as H.
    unfold wp in H. rewrite Hr in H. specialize (H ltac:(auto)). subst a.
    pose proof (ki_pages _ _ Hi) as Hp. apply Forall_cons in Hp as [((? & _) & _) _]. lia.
  - assert (Hvok : page_ok v) by (rewrite Forall_app, Forall_cons in Hok; apply Hok).
    assert (Hvn : v ∉ l).
    { intros Hv. apply NoDup_app in Hnd as (_ & Hd & _). apply (Hd v Hv).
      apply elem_of_app; right. apply elem_of_cons; auto. }
    pose proof (kfree_spec s l v (fun _ t => kmem_inv t (v :: l)) Hi Hvok Hvn ltac:(auto)) as H.
    unfold wp in H. rewrite Hf in H. exists (v :: l). simpl.
    assert (Hpp : v :: l ++ h1 ++ h2 ≡ₚ l ++ h1 ++ v :: h2)
      by (rewrite !app_assoc; apply Permutation_middle).
    split_and!; [exact H| | |].
    + by rewrite Hpp.
    + by rewrite Hpp.
    + rewrite !Forall_app in *. rewrite Forall_cons in Hok. tauto.
  - exists l. simpl. split_and!; [|done..].
    constructor; simpl; [|apply Hi..]. destruct (list_elem_of_split _ _ Hv) as (h1 & h2 & ->).
    apply (flist_frame (km_mem s) _ _ _ v).
    + apply Hi.
    + apply Hi.
    + rewrite Forall_app, Forall_cons in Hok. apply Hok.
    + intros Hvl. apply NoDup_app in Hnd as (_ & Hd & _). apply (Hd v Hvl).
      apply elem_of_app; right. apply elem_of_cons; auto.
    + intros y Hy. apply store8_ne. intros ->. done.
Qed.

(** ** Properties *)

(** C40: however clients allocate, free and overwrite the pages they hold, every
    page of the pool stays either free or held by exactly one client: [kalloc]
    never hands out a page that is in use, and no page is lost. *)
Theorem kalloc_exclusive (pool : list Z) (s s' : kmem) (held : list Z) :
  kmem_inv s pool -> rtc client_step (s, []) (s', held) ->
  exists l, kmem_inv s' l /\ l ++ held ≡ₚ pool /\ NoDup (l ++ held).
Proof.
  intros Hi Hr.
  assert (Hc : client_inv pool (s, [])).
  { exists pool. simpl. rewrite app_nil_r. split_and!; [exact Hi|done|apply Hi|constructor]. }
  destruct (invariant_rtc client_step (client_inv pool) (client_inv_step pool) _ _ Hc Hr)
    as (l & ? & ? & ? & _). eauto.
Qed.

(** [kfree] of a page that is a legal page address and not on the free list
    returns (no panic, the lock is free again), puts the page at the head of the
    list and changes no byte outside that page; [kalloc] then returns that page. *)
Theorem kfree_kalloc (s : kmem) (l : list Z) (v : Z) :
  kmem_inv s l -> page_ok v -> v ∉ l ->
  wp (kfree v ;;; kalloc)
     (fun r s' => r = v /\ kmem_inv s' l /\
        forall x, ~ (v <= x < v + PGSIZE) -> km_mem s' x = km_mem s x) s.
Proof.
  intros Hi Hv Hn. wp_steps. apply (kfree_spec s l); [done..|]. intros s1 Hi1 _ Hm1.
  apply (kalloc_spec s1 (v :: l)); [done|]. intros s2 Hi2 _ Hm2.
  split_and!; [done|exact Hi2|]. intros x Hx. rewrite Hm2. by apply Hm1.
Qed.

(** [kfree] panics exactly on an address that is not page-aligned, lies in the
    kernel image, or is above the top of physical memory. *)
Theorem kfree_panics (s : kmem) (v : Z) :
  km_lock s = initlock ->
  (exists e, kfree v s = Panic e) <-> v mod PGSIZE <> 0 \/ v < kend \/ PHYSTOP <= V2P v.
Proof.
  intros Hl. unfold kfree.
  destruct (Z.eqb_spec (v mod PGSIZE) 0) as [H1|H1]; simpl; [|split; eauto].
  destruct (Z.ltb_spec v kend) as [H2|H2]; simpl; [split; eauto|].
  destruct (Z.leb_spec PHYSTOP (V2P v)) as [H3|H3]; simpl; [split; eauto|].
  split; [|lia]. intros [e He]. exfalso. destruct s as [mm lk ul fl]; simpl in *. subst lk.
  revert He. match goal with |- ?m ?s = _ -> _ => assert (Hw : wp m (fun _ _ => True) s) end.
  { wp_steps. apply wp_km_acquire; [done|].
    destruct ul; simpl; wp_steps; by apply wp_km_release. }
  apply wp_ok in Hw as (a & s' & Hw & _). congruence.
Qed.

(** boot: [kinit1] over [v0, v1) and then [kinit2] over [v1, v2) leave on the
    free list exactly the whole pages of the two ranges, each once, and turn the
    lock on. *)
Theorem kinit_frees_all (s : kmem) (v0 v1 v2 : Z) :
  km_freelist s = 0 ->
  kend <= v0 -> KERNBASE <= v0 -> v0 <= v1 -> v1 <= v2 -> v2 <= KERNBASE + PHYSTOP ->
  v1 mod PGSIZE = 0 ->
  wp (kinit1 v0 v1 ;;; kinit2 v1 v2)
     (fun _ s' => km_use_lock s' = true /\
        kmem_inv s' (reverse (pages_from v1 v2) ++ reverse (pages_from (PGROUNDUP v0) v1))) s.
Proof.
  intros Hfl H0 Hk H01 H12 H2 Hal. unfold KERNBASE, PHYSTOP, PGSIZE in *.
  assert (Hup : PGROUNDUP v0 = (v0 + 4095) - (v0 + 4095) mod 4096)
    by (apply PGROUNDUP_spec; unfold W32; lia).
  assert (Hup1 : PGROUNDUP v1 = v1) by (rewrite PGROUNDUP_spec; unfold W32; zlia).
  assert (Hpok : forall a, v0 <= a -> a + 4096 <= v2 -> a mod 4096 = 0 -> page_ok a).
  { intros a Ha1 Ha2 Ha3. unfold page_ok, V2P, PHYSTOP, PGSIZE, KERNBASE, W32.
    rewrite u32_small by (unfold W32; lia). lia. }
  unfold kinit1, kinit2, freerange. rewrite Hup1. wp_steps.
  apply (freerange_loop_spec _ _ _ _ []); unfold PGSIZE; [zlia| | |zlia|].
  - constructor; simpl; [done|constructor|constructor|done].
  - intros a Ha. apply elem_of_pages_from in Ha as (? & ? & ?); [|unfold PGSIZE; zlia].
    unfold PGSIZE in *. split; [|by intros ?%elem_of_nil]. apply Hpok; zlia.
  - intros s1 Hi1 _. rewrite app_nil_r in Hi1. wp_step.
    apply (freerange_loop_spec _ _ _ _ (reverse (pages_from (PGROUNDUP v0) v1)));
      unfold PGSIZE; [zlia|done| |done|].
    + intros a Ha. apply elem_of_pages_from in Ha as (? & ? & ?); [|done].
      unfold PGSIZE in *. split; [apply Hpok; zlia|].
      rewrite elem_of_reverse, elem_of_pages_from by (unfold PGSIZE; zlia). unfold PGSIZE; lia.
    + intros s2 Hi2 Hul. wp_steps. split; [done|]. by destruct Hi2.
Qed.
End kalloc.

(** ** Witnesses *)

(** Two free pages, the second one written by its holder after allocation. *)
Definition sample_kmem : kmem :=
  mk_kmem (store32 (fun _ => 0) 2151677952 2151682048) initlock true 2151677952.

Lemma sample_kmem_inv : kmem_inv 2148532224 sample_kmem [2151677952; 2151682048].
Proof.
  constructor; simpl.
  - split_and!; done.
  - repeat constructor; set_solver.
  - repeat constructor; by vm_compute.
  - done.
Qed.

Lemma kalloc_exclusive_witness :
  exists s' held l, kmem_inv 2148532224 s' l /\ l ++ held ≡ₚ [2151677952; 2151682048] /\
    NoDup (l ++ held).
Proof.
  eexists _, _.
  apply (kalloc_exclusive 2148532224 0 [2151677952; 2151682048] sample_kmem).
  - apply sample_kmem_inv.
  - eapply rtc_l; [eapply (client_alloc _ _ _ _ 2151677952); [reflexivity|lia]|].
    eapply rtc_l; [eapply (client_write _ _ _ 2151677952 2151677953 77); [set_solver|unfold PGSIZE; lia]|].
    eapply rtc_l; [eapply (client_alloc _ _ _ _ 2151682048); [reflexivity|lia]|].
    apply rtc_refl.
Defined.

Lemma kfree_kalloc_witness :
  wp (kfree 2148532224 0 2151686144 ;;; kalloc 0)
     (fun r s' => r = 2151686144 /\ kmem_inv 2148532224 s' [2151677952; 2151682048] /\
        forall x, ~ (2151686144 <= x < 2151686144 + PGSIZE) ->
          km_mem s' x = km_mem sample_kmem x) sample_kmem.
Proof.
  apply (kfree_kalloc 2148532224 0 sample_kmem [2151677952; 2151682048] 2151686144).
  - apply sample_kmem_inv.
  - by vm_compute.
  - set_solver.
Defined.

Lemma kfree_panics_witness :
  exists e, kfree 2148532224 0 2151686145 sample_kmem = Panic e.
Proof.
  apply (kfree_panics 2148532224 0 sample_kmem 2151686145); [reflexivity|].
  left. vm_compute. discriminate.
Defined.

Lemma kinit_frees_all_witness :
  wp (kinit1 2148532224 0 2148532225 2151677952 ;;; kinit2 2148532224 0 2151677952 2382364672)
     (fun _ s' => km_use_lock s' = true /\
        kmem_inv 2148532224 s' (reverse (pages_from 2151677952 2382364672) ++
          reverse (pages_from (PGROUNDUP 2148532225) 2151677952)))
     (mk_kmem (fun _ => 0) initlock false 0).
Proof.
  apply (kinit_frees_all 2148532224 0 (mk_kmem (fun _ => 0) initlock false 0)
           2148532225 2151677952 2382364672);
    unfold KERNBASE, PHYSTOP; simpl; first [reflexivity | lia].
Defined.
