(* ===== verification/Vm.v ===== *)
(** * Page tables and user memory ([src/xv6/vm.c])

    The page directory and the page tables live in pages of the kernel memory that the
    allocator of [Kalloc] hands out; a pointer is a kernel virtual address and 0 the
    null pointer.  [kend] and [kdata] are the linker symbols [end] and [data], [me] is
    the CPU that runs.  [loaduvm], which reads from a file, is in [Exec]. *)

From S2P Require Import Prelude Mem CString Mmu Spinlock Kalloc.

(** [struct kmap] *)
Record kmap_entry : Type := mk_kmap { km_virt : Z; km_phys_start : Z; km_phys_end : Z; km_perm : Z }.

Section vm.
Context (kend kdata : Z) (me : nat).

(** Accesses to a word, and to a range of bytes, through a kernel pointer. *)
Definition ld (a : Z) : M kmem Z := gets (fun s => load32 (km_mem s) a).
Definition st (a v : Z) : M kmem unit := modify (fun s => km_set_mem (store32 (km_mem s) a v) s).
Definition fill (dst c n : Z) : M kmem unit := modify (fun s => km_set_mem (memset (km_mem s) dst c n) s).
Definition copy (dst src n : Z) : M kmem unit := modify (fun s => km_set_mem (memmove (km_mem s) dst src n) s).

Definition has_bit (x f : Z) : bool := negb (Z.land x f =? 0).

(** The address of the entry for [va], or 0. *)
Definition walkpgdir (pgdir va : Z) (alloc : bool) : M kmem Z :=
  let pde := pgdir + 4 * PDX va in
  let! e := ld pde in
  if has_bit e PTE_P then ret (P2V (PTE_ADDR e) + 4 * PTX va)
  else if negb alloc then ret 0
  else
    let! pgtab := kalloc me in
    if pgtab =? 0 then ret 0
    else
      fill pgtab 0 PGSIZE ;;;
      st pde (Z.lor (Z.lor (Z.lor (V2P pgtab) PTE_P) PTE_W) PTE_U) ;;;
      ret (pgtab + 4 * PTX va).

Fixpoint mappages_loop (fuel : nat) (pgdir a last pa perm : Z) : M kmem Z :=
  match fuel with
  | O => fun _ => OutOfFuel
  | S k =>
      let! pte := walkpgdir pgdir a true in
      if pte =? 0 then ret (-1)
      else
        let! e := ld pte in
        if has_bit e PTE_P then panic "remap"
        else
          st pte (Z.lor (Z.lor pa perm) PTE_P) ;;;
          if a =? last then ret 0
          else mappages_loop k pgdir (u32 (a + PGSIZE)) last (u32 (pa + PGSIZE)) perm
  end.
(** The loop goes from [a] up to [last], around the address space if need be. *)
Definition mappages (pgdir va size pa perm : Z) : M kmem Z :=
  let a := PGROUNDDOWN va in
  let last := PGROUNDDOWN (u32 (va + size - 1)) in
  mappages_loop (S (Z.to_nat (u32 (last - a) / PGSIZE))) pgdir a last pa perm.

Fixpoint deallocuvm_loop (fuel : nat) (pgdir a oldsz : Z) : M kmem unit :=
  if a <? oldsz then
    match fuel with
    | O => fun _ => OutOfFuel
    | S k =>
        let! pte := walkpgdir pgdir a false in
        if pte =? 0 then
          deallocuvm_loop k pgdir (u32 (u32 (PGADDR (PDX a + 1) 0 0 - PGSIZE) + PGSIZE)) oldsz
        else
          let! e := ld pte in
          (if has_bit e PTE_P then
             if PTE_ADDR e =? 0 then panic "kfree"
             else kfree kend me (P2V (PTE_ADDR e)) ;;; st pte 0
           else ret tt) ;;;
          deallocuvm_loop k pgdir (u32 (a + PGSIZE)) oldsz
    end
  else ret tt.
Definition deallocuvm (pgdir oldsz newsz : Z) : M kmem Z :=
  if oldsz <=? newsz then ret oldsz
  else
    deallocuvm_loop (Z.to_nat (oldsz / PGSIZE + 1)) pgdir (PGROUNDUP newsz) oldsz ;;;
    ret newsz.

Fixpoint allocuvm_loop (fuel : nat) (pgdir oldsz newsz a : Z) : M kmem Z :=
  if a <? newsz then
    match fuel with
    | O => fun _ => OutOfFuel
    | S k =>
        let! mem := kalloc me in
        if mem =? 0 then
          deallocuvm pgdir newsz oldsz ;;;          (* allocuvm out of memory *)
          ret 0
        else
          fill mem 0 PGSIZE ;;;
          let! r := mappages pgdir a PGSIZE (V2P mem) (Z.lor PTE_W PTE_U) in
          if r <? 0 then
            deallocuvm pgdir newsz oldsz ;;;        (* allocuvm out of memory (2) *)
            kfree kend me mem ;;;
            ret 0
          else allocuvm_loop k pgdir oldsz newsz (u32 (a + PGSIZE))
    end
  else ret newsz.
Definition allocuvm (pgdir oldsz newsz : Z) : M kmem Z :=
  if KERNBASE <=? newsz then ret 0
  else if newsz <? oldsz then ret oldsz
  else allocuvm_loop (Z.to_nat (newsz / PGSIZE + 1)) pgdir oldsz newsz (PGROUNDUP oldsz).

Definition freevm (pgdir : Z) : M kmem unit :=
  if pgdir =? 0 then panic "freevm: no pgdir"
  else
    deallocuvm pgdir KERNBASE 0 ;;;
    for_loop (Z.to_nat NPDENTRIES) 0 (fun i =>
      let! e := ld (pgdir + 4 * i) in
      if has_bit e PTE_P then kfree kend me (P2V (PTE_ADDR e)) else ret tt) ;;;
    kfree kend me pgdir.

Definition kmap : list kmap_entry :=
  [mk_kmap KERNBASE 0 EXTMEM PTE_W; mk_kmap KERNLINK (V2P KERNLINK) (V2P kdata) 0;
   mk_kmap kdata (V2P kdata) PHYSTOP PTE_W; mk_kmap DEVSPACE DEVSPACE 0 PTE_W].

Fixpoint setupkvm_loop (pgdir : Z) (ks : list kmap_entry) : M kmem Z :=
  match ks with
  | [] => ret pgdir
  | k :: ks =>
      let! r := mappages pgdir (km_virt k) (u32 (km_phys_end k - km_phys_start k)) (km_phys_start k) (km_perm k) in
      if r <? 0 then freevm pgdir ;;; ret 0 else setupkvm_loop pgdir ks
  end.
Definition setupkvm : M kmem Z :=
  let! pgdir := kalloc me in
  if pgdir =? 0 then ret 0
  else
    fill pgdir 0 PGSIZE ;;;
    if DEVSPACE <? P2V PHYSTOP then panic "PHYSTOP too high" else setupkvm_loop pgdir kmap.

(** [init] is the contents of the buffer, [sz] bytes long. *)
Definition inituvm (pgdir : Z) (init : list Z) : M kmem unit :=
  if PGSIZE <=? Z.of_nat (length init) then panic "inituvm: more than a page"
  else
    let! mem := kalloc me in
    fill mem 0 PGSIZE ;;;
    mappages pgdir 0 PGSIZE (V2P mem) (Z.lor PTE_W PTE_U) ;;;
    modify (fun s => km_set_mem (store_bytes (km_mem s) mem init) s).

Definition clearpteu (pgdir uva : Z) : M kmem unit :=
  let! pte := walkpgdir pgdir uva false in
  if pte =? 0 then panic "clearpteu"
  else let! e := ld pte in st pte (Z.land e (u32 (Z.lnot PTE_U))).

Fixpoint copyuvm_loop (fuel : nat) (pgdir d i sz : Z) : M kmem Z :=
  if i <? sz then
    match fuel with
    | O => fun _ => OutOfFuel
    | S k =>
        let! pte := walkpgdir pgdir i false in
        if pte =? 0 then panic "copyuvm: pte should exist" else
        let! e := ld pte in
        if negb (has_bit e PTE_P) then panic "copyuvm: page not present" else
        let! mem := kalloc me in
        if mem =? 0 then freevm d ;;; ret 0 else
        copy mem (P2V (PTE_ADDR e)) PGSIZE ;;;
        let! r := mappages d i PGSIZE (V2P mem) (PTE_FLAGS e) in
        if r <? 0 then kfree kend me mem ;;; freevm d ;;; ret 0
        else copyuvm_loop k pgdir d (u32 (i + PGSIZE)) sz
    end
  else ret d.
Definition copyuvm (pgdir sz : Z) : M kmem Z :=
  let! d := setupkvm in
  if d =? 0 then ret 0 else copyuvm_loop (Z.to_nat (sz / PGSIZE + 1)) pgdir d 0 sz.

(** [uva2ka] reads [*pte] without a test for a null [pte]. *)
Definition uva2ka (pgdir uva : Z) : M kmem Z :=
  let! pte := walkpgdir pgdir uva false in
  if pte =? 0 then undefined "uva2ka: null pte" else
  let! e := ld pte in
  if negb (has_bit e PTE_P) then ret 0
  else if negb (has_bit e PTE_U) then ret 0
  else ret (P2V (PTE_ADDR e)).

(** [src] is the contents of the buffer [p], [len] bytes long. *)
Fixpoint copyout_loop (fuel : nat) (pgdir va : Z) (src : list Z) : M kmem Z :=
  let len := Z.of_nat (length src) in
  if 0 <? len then
    match fuel with
    | O => fun _ => OutOfFuel
    | S k =>
        let va0 := PGROUNDDOWN va in
        let! pa0 := uva2ka pgdir va0 in
        if pa0 =? 0 then ret (-1)
        else
          let n := Z.min (u32 (PGSIZE - (va - va0))) len in
          modify (fun s => km_set_mem (store_bytes (km_mem s) (pa0 + (va - va0)) (take (Z.to_nat n) src)) s) ;;;
          copyout_loop k pgdir (u32 (va0 + PGSIZE)) (drop (Z.to_nat n) src)
    end
  else ret 0.
Definition copyout (pgdir va : Z) (src : list Z) : M kmem Z :=
  copyout_loop (Z.to_nat (Z.of_nat (length src) / PGSIZE + 2)) pgdir va src.
End vm.
