(* ===== verification/VmSpec.v ===== *)
(** * Address spaces

    The specification of [vm.c]: an address space is a map from page numbers to
    page-table entries, a user part below [KERNBASE] and a kernel part.  [vrep] says that
    the memory of the kernel represents it, and that every page is in exactly one place:
    free, the page directory, a page table, a user page, or held by the code that runs. *)

From S2P Require Import Prelude Mem CString Mmu Spinlock Kalloc Vm.

(** The number of user pages. *)
Definition UPN : Z := 524288.

Definition in_page (p x : Z) : Prop := p <= x < p + PGSIZE.

(** The kernel address of the page of an entry. *)
Definition page_of (e : Z) : Z := P2V (PTE_ADDR e).

Definition tpages (tabs : gmap Z Z) : list Z := (map_to_list tabs).*2.
Definition upages (us : gmap Z Z) : list Z := page_of <$> (map_to_list us).*2.

(** The memory [m] holds the page directory [pd] with the page tables [tabs] and the
    entries [us] and [ks]. *)
Record pgrep (m : mem) (pd : Z) (tabs us ks : gmap Z Z) : Prop := mk_pgrep {
  pr_pd i : 0 <= i < 1024 -> load32 m (pd + 4 * i) = match tabs !! i with Some t => V2P t + 7 | None => 0 end;
  pr_pt i t j : tabs !! i = Some t -> 0 <= j < 1024 -> load32 m (t + 4 * j) = default 0 ((us ∪ ks) !! (1024 * i + j));
  pr_tab i t : tabs !! i = Some t -> 0 <= i < 1024;
  pr_us n e : us !! n = Some e -> 0 <= n < UPN;
  pr_ks n e : ks !! n = Some e -> UPN <= n < 1048576;
  pr_entry n e : (us ∪ ks) !! n = Some e -> is_Some (tabs !! (n / 1024)) /\ 0 <= e < W32 /\ has_bit e PTE_P = true
}.

(** Pages of [ps] are the same in both memories. *)
Definition same_pages (ps : list Z) (m m' : mem) : Prop := forall p x, p ∈ ps -> in_page p x -> m' x = m x.

Lemma same_pages_refl ps m : same_pages ps m m.
Proof. done. Qed.
Lemma same_pages_trans ps m1 m2 m3 : same_pages ps m1 m2 -> same_pages ps m2 m3 -> same_pages ps m1 m3.
Proof. intros A B p x Hp Hx. rewrite (B p x Hp Hx). by apply (A p). Qed.
Lemma same_pages_sub ps ps' m m' : ps' ⊆ ps -> same_pages ps m m' -> same_pages ps' m m'.
Proof. intros Hs A p x Hp. apply A. by apply Hs. Qed.

(** ** Words in pages *)

Lemma load32_page ps m m' p j : same_pages ps m m' -> p ∈ ps -> 0 <= j < 1024 -> load32 m' (p + 4 * j) = load32 m (p + 4 * j).
Proof. intros Hs Hp Hj. apply load32_ext. intros x Hx. apply (Hs p); [done|]. unfold in_page, PGSIZE. lia. Qed.

Lemma pgrep_ext m m' pd tabs us ks :
  same_pages (pd :: tpages tabs) m m' -> pgrep m pd tabs us ks -> pgrep m' pd tabs us ks.
Proof.
  intros Hs [P1 P2 P3 P4 P5 P6]. split; try done.
  - intros i Hi. rewrite (load32_page (pd :: tpages tabs) m); [auto|done|apply elem_of_cons; by left|done].
  - intros i t j Ht Hj. rewrite (load32_page (pd :: tpages tabs) m); [auto|done| |done].
    apply elem_of_cons. right. apply list_elem_of_fmap. exists (i, t). split; [done|]. by apply elem_of_map_to_list.
Qed.

(** ** Addresses and entries *)

Definition vpn (va : Z) : Z := va / PGSIZE.

Lemma PDX_vpn va : 0 <= va < W32 -> PDX va = vpn va / 1024.
Proof. intros Hv. rewrite PDX_spec by done. unfold vpn, PGSIZE. rewrite Z.div_div by lia. done. Qed.
Lemma PTX_vpn va : 0 <= va < W32 -> PTX va = vpn va mod 1024.
Proof. intros Hv. by rewrite PTX_spec. Qed.
Lemma vpn_split va : vpn va = 1024 * (vpn va / 1024) + vpn va mod 1024.
Proof. apply Z.div_mod. lia. Qed.
Lemma vpn_range va : 0 <= va < W32 -> 0 <= vpn va < 1048576 /\ 0 <= vpn va / 1024 < 1024 /\ 0 <= vpn va mod 1024 < 1024.
Proof. unfold vpn, W32, PGSIZE. intros Hv. zlia. Qed.

Lemma has_bit_P x : has_bit x PTE_P = Z.odd x.
Proof.
  unfold has_bit, PTE_P. change 1 with (Z.ones 1). rewrite Z.land_ones by lia. change (2 ^ 1) with 2.
  rewrite Zmod_odd. by destruct (Z.odd x).
Qed.

Section kend.
Context (kend : Z).

Lemma V2P_page p : page_ok kend p -> 0 <= V2P p < W32 /\ V2P p mod 4096 = 0 /\ P2V (V2P p) = p.
Proof.
  intros (Hp & Hm & _ & _). unfold V2P, P2V, u32, PGSIZE, KERNBASE, W32 in *.
  pose proof (Z.mod_pos_bound (p - 2147483648) 4294967296). split_and!; [lia|lia| |].
  - pose proof (Z.div_mod (p - 2147483648) 4294967296). zlia.
  - rewrite Zplus_mod_idemp_l. replace (p - 2147483648 + 2147483648) with p by lia. by apply Z.mod_small; lia.
Qed.

(** A directory entry for the page table [p]. *)
Lemma pde_page p : page_ok kend p ->
  Z.lor (Z.lor (Z.lor (V2P p) PTE_P) PTE_W) PTE_U = V2P p + 7 /\ has_bit (V2P p + 7) PTE_P = true /\
  page_of (V2P p + 7) = p /\ 0 <= V2P p + 7 < W32.
Proof.
  intros Hp. destruct (V2P_page p Hp) as (Hr & Hm & Hv).
  assert (Hr7 : 0 <= V2P p + 7 < W32) by (unfold W32 in *; zlia).
  split_and!; [| | |lia|lia].
  - rewrite <-!Z.lor_assoc. change (Z.lor PTE_P (Z.lor PTE_W PTE_U)) with 7. apply pte_lor; lia.
  - rewrite has_bit_P, Z.odd_add. assert (Z.odd (V2P p) = false) as ->; [|done].
    rewrite <-Z.negb_even. apply negb_false_iff, Z.even_spec. exists (V2P p / 2). zlia.
  - unfold page_of. rewrite PTE_ADDR_spec by done. transitivity (P2V (V2P p)); [f_equal; zlia|done].
Qed.

(** The entry that [mappages] stores. *)
Definition mk_pte (pa perm : Z) : Z := Z.lor (Z.lor pa perm) PTE_P.

Lemma mk_pte_spec pa perm : 0 <= pa < W32 -> pa mod 4096 = 0 -> 0 <= perm < 4096 ->
  mk_pte pa perm = pa + Z.lor perm PTE_P /\ 0 <= Z.lor perm PTE_P < 4096 /\ 0 <= mk_pte pa perm < W32 /\
  has_bit (mk_pte pa perm) PTE_P = true /\ PTE_ADDR (mk_pte pa perm) = pa /\ PTE_FLAGS (mk_pte pa perm) = Z.lor perm PTE_P.
Proof.
  intros Hpa Hm Hp. unfold mk_pte. rewrite <-Z.lor_assoc.
  assert (Hl : 0 <= Z.lor perm PTE_P < 4096).
  { split; [apply Z.lor_nonneg; unfold PTE_P; lia|]. change 4096 with (2 ^ 12).
    destruct (decide (Z.lor perm PTE_P = 0)) as [->|Hne]; [lia|].
    assert (0 <= Z.lor perm PTE_P) by (apply Z.lor_nonneg; unfold PTE_P; lia).
    apply Z.log2_lt_pow2; [lia|]. rewrite Z.log2_lor by (unfold PTE_P; lia).
    apply Z.max_lub_lt; [|by compute]. destruct (decide (perm = 0)) as [->|]; [by compute|]. apply Z.log2_lt_pow2; lia. }
  rewrite pte_lor by done. assert (Hr : 0 <= pa + Z.lor perm PTE_P < W32) by (unfold W32 in *; zlia).
  split_and!; try lia.
  - rewrite has_bit_P, Z.odd_add.
    assert (Z.odd pa = false) as ->. { rewrite <-Z.negb_even. apply negb_false_iff, Z.even_spec. exists (pa / 2). zlia. }
    rewrite xorb_false_l, <-Z.bit0_odd, Z.lor_spec. apply orb_true_r.
  - rewrite PTE_ADDR_spec by done. zlia.
  - rewrite PTE_FLAGS_spec by done. rewrite <-Z.add_mod_idemp_l, Hm by lia. by apply Z.mod_small.
Qed.

(** ** The representation *)

Definition places (h l : list Z) (pd : Z) (tabs us : gmap Z Z) : list Z := h ++ l ++ pd :: tpages tabs ++ upages us.

Record vrep (s : kmem) (h l : list Z) (pd : Z) (tabs us ks : gmap Z Z) : Prop := mk_vrep {
  vr_km : kmem_inv kend s l;
  vr_nodup : NoDup (places h l pd tabs us);
  vr_ok : Forall (page_ok kend) (places h l pd tabs us);
  vr_rep : pgrep (km_mem s) pd tabs us ks
}.

Definition only_page (p : Z) (m m' : mem) : Prop := forall x, ~ in_page p x -> m' x = m x.

Lemma only_same p ps m m' : page_ok kend p -> Forall (page_ok kend) ps -> p ∉ ps -> only_page p m m' -> same_pages ps m m'.
Proof.
  intros Hp Hps Hn Ho q x Hq Hx. apply Ho. rewrite Forall_forall in Hps.
  apply (pages_disjoint kend q p); auto. congruence.
Qed.

Lemma kmem_write s l p m' :
  kmem_inv kend s l -> page_ok kend p -> p ∉ l -> only_page p (km_mem s) m' -> kmem_inv kend (km_set_mem m' s) l.
Proof.
  intros [K1 K2 K3 K4] Hp Hn Ho. split; try done. simpl. by apply (flist_frame kend (km_mem s) _ _ _ p).
Qed.

Lemma places_perm s h l pd tabs us ks h' l' tabs' us' s' ks' :
  vrep s h l pd tabs us ks -> kmem_inv kend s' l' -> places h' l' pd tabs' us' ≡ₚ places h l pd tabs us ->
  pgrep (km_mem s') pd tabs' us' ks' -> vrep s' h' l' pd tabs' us' ks'.
Proof. intros [V1 V2 V3 V4] Hk Hp Hr. split; [done|by rewrite Hp|by rewrite Hp|done]. Qed.

Lemma places_held p h l pd tabs us : NoDup (places (p :: h) l pd tabs us) -> Forall (page_ok kend) (places (p :: h) l pd tabs us) ->
  page_ok kend p /\ p ∉ h /\ p ∉ l /\ p <> pd /\ p ∉ tpages tabs /\ p ∉ upages us.
Proof.
  intros Hn Ho. unfold places in *. simpl in *. apply NoDup_cons in Hn as [Hn _]. apply Forall_cons in Ho as [Hp _].
  rewrite !elem_of_app, elem_of_cons, elem_of_app in Hn. split; [done|]. tauto.
Qed.
Lemma vrep_held s p h l pd tabs us ks : vrep s (p :: h) l pd tabs us ks ->
  page_ok kend p /\ p ∉ h /\ p ∉ l /\ p <> pd /\ p ∉ tpages tabs /\ p ∉ upages us.
Proof. intros [_ Hn Ho _]. by apply places_held. Qed.

(** A write into a page that the code holds. *)
Lemma vrep_write s p h l pd tabs us ks m' :
  vrep s (p :: h) l pd tabs us ks -> only_page p (km_mem s) m' ->
  vrep (km_set_mem m' s) (p :: h) l pd tabs us ks /\ same_pages (h ++ upages us) (km_mem s) m'.
Proof.
  intros Hv Hm. destruct (vrep_held _ _ _ _ _ _ _ _ Hv) as (Hp & Hh & Hl & Hpd & Ht & Hu). destruct Hv as [V1 V2 V3 V4].
  unfold places in V3. simpl in V3. apply Forall_cons in V3 as [_ V3]. rewrite !Forall_app, Forall_cons, Forall_app in V3.
  destruct V3 as (Oh & Ol & Opd & Ot & Ou). split.
  - split; [by apply kmem_write with p|done| |].
    + unfold places. simpl. apply Forall_cons. split; [done|]. rewrite !Forall_app, Forall_cons, Forall_app. done.
    + apply (pgrep_ext (km_mem s)); [|done]. apply (only_same p); [done|by constructor| |done].
      rewrite elem_of_cons. tauto.
  - apply (only_same p); [done|by apply Forall_app| |done]. rewrite elem_of_app. tauto.
Qed.

(** ** The allocator *)

Context (me : nat).

Lemma wp_kalloc_v s h l pd tabs us ks (Q : Z -> kmem -> Prop) :
  vrep s h l pd tabs us ks ->
  match l with
  | [] => Q 0 s
  | p :: l' => forall s', vrep s' (p :: h) l' pd tabs us ks -> km_mem s' = km_mem s -> p <> 0 -> Q p s'
  end -> wp (kalloc me) Q s.
Proof.
  intros Hv HQ. apply (kalloc_spec kend me s l); [apply Hv|]. destruct l as [|p l']; [done|].
  intros s' Hk _ Hm. apply HQ; [|done|].
  - eapply places_perm; [exact Hv|exact Hk| |rewrite Hm; apply Hv]. unfold places. simpl. by rewrite Permutation_middle.
  - destruct Hv as [_ _ Ho _]. unfold places in Ho. rewrite Forall_app in Ho. destruct Ho as [_ Ho].
    simpl in Ho. apply Forall_cons in Ho as [(Hp & _) _]. lia.
Qed.

Lemma wp_kfree_v s p h l pd tabs us ks (Q : unit -> kmem -> Prop) :
  vrep s (p :: h) l pd tabs us ks ->
  (forall s', vrep s' h (p :: l) pd tabs us ks -> same_pages (h ++ upages us) (km_mem s) (km_mem s') -> Q tt s') ->
  wp (kfree kend me p) Q s.
Proof.
  intros Hv HQ. pose proof Hv as [V1 _ _ _].
  destruct (vrep_held _ _ _ _ _ _ _ _ Hv) as (Hp & _ & Hl & _ & _ & _).
  apply (kfree_spec kend me s l); [done..|]. intros s' Hk _ Hm.
  destruct (vrep_write _ _ _ _ _ _ _ _ (km_mem s') Hv Hm) as [[_ W2 W3 W4] Hs]. apply HQ; [|done].
  split; [done| | |done]; unfold places in *; simpl in *; by rewrite <-Permutation_middle.
Qed.

Definition zero_page (m : mem) (p : Z) : Prop := forall x, in_page p x -> m x = 0.

Lemma fill_zero m p : page_ok kend p -> only_page p m (memset m p 0 PGSIZE) /\ zero_page (memset m p 0 PGSIZE) p.
Proof.
  intros (Hp & Hm & _). unfold PGSIZE in *. split; intros x Hx; rewrite memset_lookup by (unfold W32 in *; lia);
    unfold in_page, PGSIZE in Hx; repeat (zcase; simpl); try done; lia.
Qed.

Lemma zero_word m p j : zero_page m p -> 0 <= j < 1024 -> load32 m (p + 4 * j) = 0.
Proof. intros Hz Hj. unfold load32. rewrite !Hz by (unfold in_page, PGSIZE; lia). done. Qed.

Lemma store_only m p j e : 0 <= j < 1024 -> only_page p m (store32 m (p + 4 * j) e).
Proof. intros Hj x Hx. apply store32_ne. unfold in_page, PGSIZE in Hx. lia. Qed.

Lemma load_store_word m p j k e : 0 <= j < 1024 -> 0 <= k < 1024 -> 0 <= e < W32 ->
  load32 (store32 m (p + 4 * j) e) (p + 4 * k) = if k =? j then e else load32 m (p + 4 * k).
Proof.
  intros Hj Hk He. destruct (Z.eqb_spec k j) as [->|Hne]; [by apply load32_store32_eq|].
  apply load32_store32_ne. lia.
Qed.

Lemma elem_tpages tabs i t : tabs !! i = Some t -> t ∈ tpages tabs.
Proof. intros Ht. apply list_elem_of_fmap. exists (i, t). split; [done|]. by apply elem_of_map_to_list. Qed.
Lemma elem_upages us n e : us !! n = Some e -> page_of e ∈ upages us.
Proof.
  intros Hn. apply list_elem_of_fmap. exists e. split; [done|]. apply list_elem_of_fmap. exists (n, e). split; [done|].
  by apply elem_of_map_to_list.
Qed.
Lemma tpages_insert tabs i p : tabs !! i = None -> tpages (<[i := p]> tabs) ≡ₚ p :: tpages tabs.
Proof. intros Hi. unfold tpages. by rewrite map_to_list_insert. Qed.
Lemma upages_insert us n e : us !! n = None -> upages (<[n := e]> us) ≡ₚ page_of e :: upages us.
Proof. intros Hi. unfold upages. by rewrite map_to_list_insert. Qed.
Lemma upages_delete us n e : us !! n = Some e -> upages us ≡ₚ page_of e :: upages (delete n us).
Proof. intros Hi. rewrite <-(insert_delete_id us n e Hi) at 1. apply upages_insert, lookup_delete_eq. Qed.

(** Two page tables of one directory are different pages. *)
Lemma tabs_inj tabs i j t : NoDup (tpages tabs) -> tabs !! i = Some t -> tabs !! j = Some t -> i = j.
Proof.
  intros Hn Hi Hj. destruct (decide (i = j)) as [|Hne]; [done|]. rewrite <-(insert_delete_id tabs i t Hi) in Hn.
  rewrite tpages_insert in Hn by apply lookup_delete_eq. apply NoDup_cons in Hn as [Hn _]. destruct Hn.
  apply (elem_tpages _ j). by rewrite lookup_delete_ne.
Qed.

Lemma vrep_parts s h l pd tabs us ks : vrep s h l pd tabs us ks ->
  page_ok kend pd /\ pd ∉ h /\ pd ∉ l /\ pd ∉ tpages tabs /\ pd ∉ upages us /\ NoDup (tpages tabs) /\
  Forall (page_ok kend) (h ++ l ++ tpages tabs ++ upages us).
Proof.
  intros [_ Hn Ho _]. unfold places in *.
  assert (E : h ++ l ++ pd :: tpages tabs ++ upages us ≡ₚ pd :: h ++ l ++ tpages tabs ++ upages us).
  { rewrite (app_assoc h l (pd :: _)), (app_assoc h l (tpages tabs ++ _)). by rewrite <-Permutation_middle. }
  rewrite E in Hn, Ho. apply NoDup_cons in Hn as [Hn Hn']. apply Forall_cons in Ho as [Hp Ho].
  rewrite !elem_of_app in Hn. rewrite (app_assoc h l) in Hn'.
  apply NoDup_app in Hn' as (_ & _ & Hn'). apply NoDup_app in Hn' as (Hn' & _ & _).
  split_and!; try done; tauto.
Qed.

(** A new page table, filled with zeros, in an empty slot of the directory. *)
Lemma pgrep_tab m pd tabs us ks i p :
  pgrep m pd tabs us ks -> page_ok kend pd -> page_ok kend p -> Forall (page_ok kend) (tpages tabs) ->
  p <> pd -> pd ∉ tpages tabs -> tabs !! i = None -> 0 <= i < 1024 -> zero_page m p ->
  pgrep (store32 m (pd + 4 * i) (V2P p + 7)) pd (<[i := p]> tabs) us ks.
Proof.
  intros [P1 P2 P3 P4 P5 P6] Hpd Hp Hts Hne Hnt Hi Hir Hz. destruct (pde_page _ Hp) as (_ & _ & _ & Hr).
  assert (Hframe : same_pages (p :: tpages tabs) m (store32 m (pd + 4 * i) (V2P p + 7))).
  { apply (only_same pd); [done|by constructor|rewrite elem_of_cons; intros [E|E]; congruence|by apply store_only]. }
  split; try done.
  - intros k Hk. rewrite load_store_word by done. destruct (Z.eqb_spec k i) as [->|Hki]; [by rewrite lookup_insert_eq|].
    rewrite lookup_insert_ne by congruence. auto.
  - intros k t j Ht Hj. destruct (decide (k = i)) as [->|Hki].
    + rewrite lookup_insert_eq in Ht. injection Ht as <-.
      rewrite (load32_page _ m _ p j Hframe); [|apply elem_of_cons; by left|done]. rewrite zero_word by done.
      destruct ((us ∪ ks) !! (1024 * i + j)) as [e|] eqn:E; [|done]. apply P6 in E as [[t' Ht'] _].
      replace ((1024 * i + j) / 1024) with i in Ht' by zlia. congruence.
    + rewrite lookup_insert_ne in Ht by congruence. rewrite (load32_page _ m _ t j Hframe); [by apply P2| |done].
      apply elem_of_cons. right. by eapply elem_tpages.
  - intros k t Ht. destruct (decide (k = i)) as [->|Hki]; [done|]. rewrite lookup_insert_ne in Ht by congruence. by eapply P3.
  - intros n e He. destruct (P6 n e He) as (Ht & Hrest). split; [|done].
    destruct (decide (n / 1024 = i)) as [->|Hki]; [by rewrite lookup_insert_eq|by rewrite lookup_insert_ne by congruence].
Qed.

(** An entry of a page table is overwritten. *)
Lemma pgrep_entry m pd tabs us ks us' ks' i t j e :
  pgrep m pd tabs us ks -> page_ok kend t -> page_ok kend pd -> Forall (page_ok kend) (tpages tabs) ->
  pd ∉ tpages tabs -> NoDup (tpages tabs) -> tabs !! i = Some t -> 0 <= j < 1024 -> 0 <= e < W32 ->
  (forall k, k <> 1024 * i + j -> (us' ∪ ks') !! k = (us ∪ ks) !! k) ->
  (us' ∪ ks') !! (1024 * i + j) = (if has_bit e PTE_P then Some e else None) -> (has_bit e PTE_P = false -> e = 0) ->
  (forall n x, us' !! n = Some x -> 0 <= n < UPN) -> (forall n x, ks' !! n = Some x -> UPN <= n < 1048576) ->
  pgrep (store32 m (t + 4 * j) e) pd tabs us' ks'.
Proof.
  intros [P1 P2 P3 P4 P5 P6] Ht Hpd Hts Hnt Hnd Hti Hj He Hother Hthis Hz Hus Hks.
  assert (Hframe : forall ps, t ∉ ps -> Forall (page_ok kend) ps -> same_pages ps m (store32 m (t + 4 * j) e)).
  { intros ps Hn Ho. apply (only_same t); [done|done|done|by apply store_only]. }
  split; try done.
  - intros k Hk. rewrite (load32_page [pd] m); [by apply P1| |apply elem_of_cons; by left|done].
    apply Hframe; [|by constructor]. rewrite elem_of_cons, elem_of_nil. intros [->|[]]. destruct Hnt. by eapply elem_tpages.
  - intros k t' j' Ht' Hj'. destruct (decide (t' = t)) as [->|Hne].
    + assert (k = i) as -> by (by eapply tabs_inj). rewrite load_store_word by done.
      destruct (Z.eqb_spec j' j) as [->|Hjj]; [|rewrite (P2 i t j') by done; by rewrite Hother by lia].
      rewrite Hthis. destruct (has_bit e PTE_P); [done|]. by rewrite Hz.
    + rewrite (load32_page [t'] m); [| |apply elem_of_cons; by left|done].
      * rewrite (P2 k t' j') by done. rewrite Hother; [done|]. intros E. destruct Hne.
        assert (k = i) as -> by (pose proof (P3 _ _ Hti); pose proof (P3 _ _ Ht'); lia). congruence.
      * apply Hframe; [rewrite elem_of_cons, elem_of_nil; intros [E|[]]; congruence|]. constructor; [|constructor].
        rewrite Forall_forall in Hts. apply Hts. by eapply elem_tpages.
  - intros n x Hn. destruct (decide (n = 1024 * i + j)) as [->|Hne].
    + rewrite Hthis in Hn. destruct (has_bit e PTE_P) eqn:Hb; [|done]. injection Hn as <-. split_and!; [|lia|lia|done].
      replace ((1024 * i + j) / 1024) with i by zlia. eauto.
    + rewrite Hother in Hn by done. by apply P6.
Qed.

(** ** One entry of an address space *)

Lemma Permutation_middle4 {A} (x : A) a b c d : a ++ b ++ c ++ x :: d ≡ₚ (x :: a) ++ b ++ c ++ d.
Proof. rewrite !app_assoc. rewrite <-Permutation_middle. by rewrite <-!app_assoc. Qed.

Lemma vrep_tab s h l pd tabs us ks i t : vrep s h l pd tabs us ks -> tabs !! i = Some t ->
  page_ok kend t /\ t ∉ h /\ t ∉ l /\ t <> pd /\ t ∉ upages us.
Proof.
  intros Hv Ht. destruct (vrep_parts _ _ _ _ _ _ _ Hv) as (_ & _ & _ & Hpd & _ & _ & Ho).
  apply elem_tpages in Ht. destruct Hv as [_ Hn _ _]. unfold places in Hn. rewrite !Forall_app in Ho.
  destruct Ho as (_ & _ & Ho & _). rewrite Forall_forall in Ho. split; [by apply Ho|].
  apply NoDup_app in Hn as (_ & Hh & Hn). apply NoDup_app in Hn as (_ & Hl & Hn).
  apply NoDup_cons in Hn as [_ Hn]. apply NoDup_app in Hn as (_ & Hu & _).
  split_and!; [|  |congruence|by apply Hu].
  - intros X. apply (Hh t X). rewrite elem_of_app, elem_of_cons, elem_of_app. tauto.
  - intros X. apply (Hl t X). rewrite elem_of_cons, elem_of_app. tauto.
Qed.

Lemma lookup_user m pd tabs us ks n : pgrep m pd tabs us ks -> n < UPN -> (us ∪ ks) !! n = us !! n.
Proof.
  intros Hp Hn. destruct (us !! n) as [e|] eqn:E; [by apply lookup_union_Some_l|].
  rewrite lookup_union_r by done. destruct (ks !! n) eqn:K; [|done]. apply (pr_ks _ _ _ _ _ Hp) in K. lia.
Qed.
Lemma lookup_kern m pd tabs us ks n : pgrep m pd tabs us ks -> UPN <= n -> (us ∪ ks) !! n = ks !! n.
Proof.
  intros Hp Hn. apply lookup_union_r. destruct (us !! n) eqn:K; [|done]. apply (pr_us _ _ _ _ _ Hp) in K. lia.
Qed.

(** The store of an entry into a page table: the frame. *)
Lemma vrep_store s h l pd tabs us ks i t j e : vrep s h l pd tabs us ks -> tabs !! i = Some t -> 0 <= j < 1024 ->
  kmem_inv kend (km_set_mem (store32 (km_mem s) (t + 4 * j) e) s) l /\
  same_pages (h ++ upages us) (km_mem s) (store32 (km_mem s) (t + 4 * j) e).
Proof.
  intros Hv Ht Hj. destruct (vrep_tab _ _ _ _ _ _ _ _ _ Hv Ht) as (Ht1 & Ht2 & Ht3 & _ & Ht4).
  destruct (vrep_parts _ _ _ _ _ _ _ Hv) as (_ & _ & _ & _ & _ & _ & Ho). rewrite !Forall_app in Ho.
  destruct Ho as (Oh & _ & _ & Ou). split.
  - apply (kmem_write _ _ t); [apply Hv|done|done|by apply store_only].
  - apply (only_same t); [done|by apply Forall_app| |by apply store_only]. rewrite elem_of_app. tauto.
Qed.

Lemma vrep_entry s h l pd tabs us ks us' ks' n t e :
  vrep s h l pd tabs us ks -> tabs !! (n / 1024) = Some t -> 0 <= e < W32 ->
  (forall k, k <> n -> (us' ∪ ks') !! k = (us ∪ ks) !! k) ->
  (us' ∪ ks') !! n = (if has_bit e PTE_P then Some e else None) -> (has_bit e PTE_P = false -> e = 0) ->
  (forall n x, us' !! n = Some x -> 0 <= n < UPN) -> (forall n x, ks' !! n = Some x -> UPN <= n < 1048576) ->
  pgrep (store32 (km_mem s) (t + 4 * (n mod 1024)) e) pd tabs us' ks'.
Proof.
  intros Hv Ht He Ho Hn Hz Hu Hk. destruct (vrep_tab _ _ _ _ _ _ _ _ _ Hv Ht) as (Ht1 & _).
  destruct (vrep_parts _ _ _ _ _ _ _ Hv) as (Hpd & _ & _ & Hpt & _ & Hnd & Hok). rewrite !Forall_app in Hok.
  assert (E : n = 1024 * (n / 1024) + n mod 1024) by (apply Z.div_mod; lia).
  apply (pgrep_entry _ _ _ us ks _ _ (n / 1024)); try done; rewrite <-?E; try done; [apply Hv|tauto|].
  apply Z.mod_pos_bound. lia.
Qed.

(** A held page becomes a user page. *)
Lemma vrep_map_user s p h l pd tabs us ks n t e :
  vrep s (p :: h) l pd tabs us ks -> tabs !! (n / 1024) = Some t -> 0 <= n < UPN -> us !! n = None ->
  0 <= e < W32 -> has_bit e PTE_P = true -> page_of e = p ->
  vrep (km_set_mem (store32 (km_mem s) (t + 4 * (n mod 1024)) e) s) h l pd tabs (<[n := e]> us) ks /\
  same_pages (p :: h ++ upages us) (km_mem s) (store32 (km_mem s) (t + 4 * (n mod 1024)) e).
Proof.
  intros Hv Ht Hn Hu He Hb Hp. destruct (vrep_store _ _ _ _ _ _ _ _ _ (n mod 1024) e Hv Ht) as [Hk Hs];
    [apply Z.mod_pos_bound; lia|]. split; [|exact Hs].
  apply (places_perm _ _ _ _ _ _ _ _ _ _ _ _ _ Hv Hk).
  - unfold places. rewrite upages_insert, Hp by done. 
    apply (Permutation_middle4 p h l (pd :: tpages tabs)).
  - apply (vrep_entry _ _ _ _ _ _ _ _ _ _ _ _ Hv Ht He).
    + intros k Hk'. rewrite <-insert_union_l, lookup_insert_ne by done. done.
    + rewrite <-insert_union_l, lookup_insert_eq, Hb. done.
    + rewrite Hb. done.
    + intros k x Hx. destruct (decide (k = n)) as [->|Hne]; [done|]. rewrite lookup_insert_ne in Hx by done.
      by apply (pr_us _ _ _ _ _ (vr_rep _ _ _ _ _ _ _ Hv) _ _ Hx).
    + intros k x Hx. by apply (pr_ks _ _ _ _ _ (vr_rep _ _ _ _ _ _ _ Hv) _ _ Hx).
Qed.

(** A kernel mapping. *)
Lemma vrep_map_kern s h l pd tabs us ks n t e :
  vrep s h l pd tabs us ks -> tabs !! (n / 1024) = Some t -> UPN <= n < 1048576 -> 0 <= e < W32 -> has_bit e PTE_P = true ->
  vrep (km_set_mem (store32 (km_mem s) (t + 4 * (n mod 1024)) e) s) h l pd tabs us (<[n := e]> ks) /\
  same_pages (h ++ upages us) (km_mem s) (store32 (km_mem s) (t + 4 * (n mod 1024)) e).
Proof.
  intros Hv Ht Hn He Hb. destruct (vrep_store _ _ _ _ _ _ _ _ _ (n mod 1024) e Hv Ht) as [Hk Hs];
    [apply Z.mod_pos_bound; lia|]. split; [|exact Hs].
  assert (Hu : us !! n = None).
  { destruct (us !! n) eqn:K; [|done]. apply (pr_us _ _ _ _ _ (vr_rep _ _ _ _ _ _ _ Hv)) in K. lia. }
  apply (places_perm _ _ _ _ _ _ _ _ _ _ _ _ _ Hv Hk); [done|].
  apply (vrep_entry _ _ _ _ _ _ _ _ _ _ _ _ Hv Ht He).
  - intros k Hk'. rewrite <-insert_union_r, lookup_insert_ne by done. done.
  - rewrite <-insert_union_r, lookup_insert_eq, Hb by done. done.
  - rewrite Hb. done.
  - intros k x Hx. by apply (pr_us _ _ _ _ _ (vr_rep _ _ _ _ _ _ _ Hv) _ _ Hx).
  - intros k x Hx. destruct (decide (k = n)) as [->|Hne]; [done|]. rewrite lookup_insert_ne in Hx by done.
    by apply (pr_ks _ _ _ _ _ (vr_rep _ _ _ _ _ _ _ Hv) _ _ Hx).
Qed.
End kend.
