(* ===== verification/VmOps.v ===== *)
(** * The operations of [vm.c] on address spaces

    What [walkpgdir], [mappages], [deallocuvm], [allocuvm], [freevm] and [setupkvm] do to
    the address space that the memory represents ([VmSpec.vrep]): which pages move
    between the free list, the page tables and the user part, and which memory changes. *)

From S2P Require Import Prelude Mem CString Mmu Spinlock Kalloc Vm VmSpec.

Section ops.
Context (kend : Z) (me : nat).
#[local] Notation vrep := (vrep kend).

Lemma wp_walk s h l pd tabs us ks va alloc (Q : Z -> kmem -> Prop) :
  vrep s h l pd tabs us ks -> 0 <= va < W32 ->
  (forall t, tabs !! (vpn va / 1024) = Some t -> Q (t + 4 * (vpn va mod 1024)) s) ->
  (tabs !! (vpn va / 1024) = None -> alloc = false \/ l = [] -> Q 0 s) ->
  (forall p l' s', tabs !! (vpn va / 1024) = None -> alloc = true -> l = p :: l' ->
     vrep s' h l' pd (<[vpn va / 1024 := p]> tabs) us ks -> same_pages (h ++ upages us) (km_mem s) (km_mem s') ->
     Q (p + 4 * (vpn va mod 1024)) s') ->
  wp (walkpgdir me pd va alloc) Q s.
Proof.
  intros Hv Hva Hhit Hnone Hnew. destruct (vpn_range va Hva) as (_ & Hi & Hj).
  unfold walkpgdir. rewrite PDX_vpn, PTX_vpn by done. unfold ld. wp_step. wp_step. cbn beta.
  rewrite (pr_pd _ _ _ _ _ (vr_rep _ _ _ _ _ _ _ _ Hv)) by done.
  destruct (tabs !! (vpn va / 1024)) as [t|] eqn:Ht.
  - destruct (vrep_tab _ _ _ _ _ _ _ _ _ _ Hv Ht) as (Htok & _). destruct (pde_page kend t Htok) as (_ & Hb & Hp & _).
    rewrite Hb. wp_step. unfold page_of in Hp. rewrite Hp. auto.
  - change (has_bit 0 PTE_P) with false. cbv iota. destruct alloc; cbn [negb]; cbv iota; [|wp_step; apply Hnone; auto]. wp_step. apply (wp_kalloc_v kend me s h l pd tabs us ks _ Hv).
    destruct l as [|p l']; [cbn [Z.eqb]; wp_step; apply Hnone; auto|]. intros s1 Hv1 Hm1 Hp0.
    destruct (Z.eqb_spec p 0) as [|_]; [done|]. unfold fill, st. wp_steps.
    destruct (vrep_held _ _ _ _ _ _ _ _ _ Hv1) as (Hp & Hph & Hpl & Hppd & Hpt & Hpu).
    destruct (fill_zero kend (km_mem s1) p Hp) as [Hof Hz].
    destruct (vrep_write _ _ _ _ _ _ _ _ _ _ Hv1 Hof) as [Hv2 Hs2].
    set (s2 := km_set_mem (memset (km_mem s1) p 0 PGSIZE) s1) in *.
    destruct (pde_page kend p Hp) as (He & _). rewrite He.
    destruct (vrep_parts _ _ _ _ _ _ _ _ Hv2) as (Hpd & Hpdh & Hpdl & Hpdt & Hpdu & Hnd & Hok). rewrite !Forall_app in Hok.
    rewrite not_elem_of_cons in Hpdh. destruct Hok as (Oh & Ol & Ot & Ou). apply Forall_cons in Oh as [_ Oh].
    apply (Hnew p l'); [done..| |].
    + eapply places_perm; [exact Hv2| | |].
      * apply (kmem_write kend _ _ pd); [apply Hv2|done|done|by apply store_only].
      * unfold places. rewrite tpages_insert by done. apply (Permutation_middle4 p h l' [pd]).
      * apply pgrep_tab with kend; try done. apply Hv2.
    + cbn [km_mem km_set_mem]. eapply same_pages_trans; [rewrite <-Hm1; exact Hs2|].
      apply (only_same kend pd); [done|by apply Forall_app| |by apply store_only]. rewrite elem_of_app. tauto.
Qed.

Lemma tab_nonzero s h l pd tabs us ks i t j : vrep s h l pd tabs us ks -> tabs !! i = Some t -> 0 <= j -> t + 4 * j <> 0.
Proof. intros Hv Ht Hj. destruct (vrep_tab _ _ _ _ _ _ _ _ _ _ Hv Ht) as ((Hp & _) & _). lia. Qed.

(** The word that [walkpgdir] finds. *)
Lemma load_entry s h l pd tabs us ks n t : vrep s h l pd tabs us ks -> tabs !! (n / 1024) = Some t ->
  load32 (km_mem s) (t + 4 * (n mod 1024)) = default 0 ((us ∪ ks) !! n).
Proof.
  intros Hv Ht. rewrite (pr_pt _ _ _ _ _ (vr_rep _ _ _ _ _ _ _ _ Hv) _ _ _ Ht) by (apply Z.mod_pos_bound; lia).
  by rewrite <-Z.div_mod by lia.
Qed.

(** The pages of the free list and of the page tables, which walkpgdir exchanges. *)
Definition pool (l : list Z) (tabs : gmap Z Z) : list Z := l ++ tpages tabs.

(** [walkpgdir] with allocation, as [mappages] uses it. *)
Lemma wp_walk_alloc s h l pd tabs us ks va (Q : Z -> kmem -> Prop) :
  vrep s h l pd tabs us ks -> 0 <= va < W32 ->
  (forall t l' tabs' s', tabs' !! (vpn va / 1024) = Some t -> pool l' tabs' ≡ₚ pool l tabs ->
     Z.of_nat (length l) <= Z.of_nat (length l') + 1 -> vrep s' h l' pd tabs' us ks -> same_pages (h ++ upages us) (km_mem s) (km_mem s') ->
     Q (t + 4 * (vpn va mod 1024)) s') ->
  (l = [] -> tabs !! (vpn va / 1024) = None -> Q 0 s) ->
  wp (walkpgdir me pd va true) Q s.
Proof.
  intros Hv Hva Hok Hfail. apply (wp_walk s h l pd tabs us ks); [done|done| | |].
  - intros t Ht. eapply Hok; [exact Ht|done|lia|exact Hv|done].
  - intros Ht [?|?]; [done|]. auto.
  - intros p l' s' Hn _ -> Hv' Hs'. eapply Hok; [| | |exact Hv'|exact Hs'].
    + by rewrite lookup_insert_eq.
    + unfold pool. rewrite tpages_insert by done. simpl. by rewrite <-Permutation_middle.
    + simpl. lia.
Qed.

(** ** [mappages] *)

Lemma PGROUNDDOWN_page n x : 0 <= n < 1048576 -> 0 <= x < 4096 -> PGROUNDDOWN (4096 * n + x) = 4096 * n.
Proof. intros Hn Hx. rewrite PGROUNDDOWN_spec by (unfold W32; lia). zlia. Qed.
Lemma PGROUNDDOWN_page0 n : 0 <= n < 1048576 -> PGROUNDDOWN (4096 * n) = 4096 * n.
Proof. intros Hn. rewrite PGROUNDDOWN_spec by (unfold W32; lia). zlia. Qed.
Lemma vpn_page n : vpn (4096 * n) = n.
Proof. unfold vpn, PGSIZE. zlia. Qed.

(** A page that the code holds is mapped at the user page [n]. *)
Lemma wp_map_page s p h l pd tabs us ks n perm (Q : Z -> kmem -> Prop) :
  vrep s (p :: h) l pd tabs us ks -> 0 <= n < UPN -> us !! n = None -> 0 <= perm < 4096 ->
  (forall l' tabs' s', pool l' tabs' ≡ₚ pool l tabs -> Z.of_nat (length l) <= Z.of_nat (length l') + 1 ->
     vrep s' h l' pd tabs' (<[n := mk_pte (V2P p) perm]> us) ks ->
     same_pages (p :: h ++ upages us) (km_mem s) (km_mem s') -> Q 0 s') ->
  (l = [] -> Q (-1) s) ->
  wp (mappages me pd (4096 * n) PGSIZE (V2P p) perm) Q s.
Proof.
  intros Hv Hn Hu Hpm Hok Hfail. unfold UPN in Hn. destruct (vrep_held _ _ _ _ _ _ _ _ _ Hv) as (Hp & _).
  destruct (V2P_page kend p Hp) as (Hpa & Hpm4 & HPV).
  destruct (mk_pte_spec (V2P p) perm Hpa Hpm4 Hpm) as (_ & _ & He & Hb & Ha & _).
  unfold mappages. change PGSIZE with 4096. rewrite (u32_small (4096 * n + 4096 - 1)) by (unfold W32; lia).
  rewrite PGROUNDDOWN_page0 by lia.
  replace (4096 * n + 4096 - 1) with (4096 * n + 4095) by lia. rewrite PGROUNDDOWN_page by lia.
  replace (4096 * n - 4096 * n) with 0 by lia. change (Z.to_nat (u32 0 / 4096)) with 0%nat. cbn [mappages_loop].
  wp_step. apply (wp_walk_alloc s (p :: h) l pd tabs us ks); [done|unfold W32; lia| |].
  2:{ intros -> _. cbn [Z.eqb]. wp_step. by apply Hfail. }
  rewrite vpn_page. intros t l' tabs' s1 Ht Hpool Hlen Hv1 Hs1.
  destruct (Z.eqb_spec (t + 4 * (n mod 1024)) 0) as [E|_].
  { apply (tab_nonzero _ _ _ _ _ _ _ _ _ (n mod 1024)) with (1 := Hv1) in Ht; [done|]. apply Z.mod_pos_bound; lia. }
  unfold ld, st. wp_step. wp_step. cbn beta. rewrite (load_entry _ _ _ _ _ _ _ _ _ Hv1 Ht).
  rewrite (lookup_user _ _ _ _ _ _ (vr_rep _ _ _ _ _ _ _ _ Hv1)), Hu by (unfold UPN; lia).
  change (has_bit (default 0 None) PTE_P) with false. cbv iota. wp_step. wp_step. rewrite Z.eqb_refl. wp_step.
  fold (mk_pte (V2P p) perm).
  destruct (vrep_map_user _ _ _ _ _ _ _ _ _ _ _ _ Hv1 Ht Hn Hu He Hb) as [Hv2 Hs2]; [unfold page_of; by rewrite Ha|].
  eapply Hok; [exact Hpool|exact Hlen|exact Hv2|]. by eapply same_pages_trans.
Qed.

(** A range of kernel pages is mapped, from physical address [pa] on. *)
Lemma wp_map_range h pd us perm : 0 <= perm < 4096 -> forall k n s l tabs ks pa (Q : Z -> kmem -> Prop),
  vrep s h l pd tabs us ks -> UPN <= n -> n + Z.of_nat k < 1048576 ->
  (forall v, n <= v <= n + Z.of_nat k -> ks !! v = None) -> 0 <= pa -> pa + 4096 * Z.of_nat k < W32 -> pa mod 4096 = 0 ->
  (forall l' tabs' ks' s', pool l' tabs' ≡ₚ pool l tabs -> vrep s' h l' pd tabs' us ks' ->
     same_pages (h ++ upages us) (km_mem s) (km_mem s') ->
     (forall v, ks' !! v = if (n <=? v) && (v <=? n + Z.of_nat k) then Some (mk_pte (pa + 4096 * (v - n)) perm) else ks !! v) ->
     Q 0 s') ->
  (forall tabs' ks' s', tpages tabs' ≡ₚ pool l tabs -> vrep s' h [] pd tabs' us ks' ->
     same_pages (h ++ upages us) (km_mem s) (km_mem s') -> Q (-1) s') ->
  wp (mappages_loop me (S k) pd (4096 * n) (4096 * (n + Z.of_nat k)) pa perm) Q s.
Proof.
  intros Hpm. induction k as [|k IH]; intros n s l tabs ks pa Q Hv Hn Hnk Hfree Hpa Hpk Hpa4 Hok Hfail;
    unfold UPN in Hn; cbn [mappages_loop]; wp_step;
    (apply (wp_walk_alloc s h l pd tabs us ks); [done|unfold W32 in *; lia| |
       intros -> _; cbn [Z.eqb]; wp_step; by eapply Hfail]);
    rewrite vpn_page; intros t l1 tabs1 s1 Ht Hpool1 _ Hv1 Hs1;
    (destruct (Z.eqb_spec (t + 4 * (n mod 1024)) 0) as [E|_];
      [by apply (tab_nonzero _ _ _ _ _ _ _ _ _ (n mod 1024)) with (1 := Hv1) in Ht; [|apply Z.mod_pos_bound; lia]|]);
    unfold ld, st; wp_step; wp_step; cbn beta; rewrite (load_entry _ _ _ _ _ _ _ _ _ Hv1 Ht);
    rewrite (lookup_kern _ _ _ _ _ _ (vr_rep _ _ _ _ _ _ _ _ Hv1)), Hfree by (unfold UPN; lia);
    change (has_bit (default 0 None) PTE_P) with false; cbv iota; wp_step; wp_step;
    fold (mk_pte pa perm);
    destruct (mk_pte_spec pa perm ltac:(lia) Hpa4 Hpm) as (_ & _ & He & Hb & _);
    destruct (vrep_map_kern _ _ _ _ _ _ _ _ _ _ _ Hv1 Ht ltac:(unfold UPN; lia) He Hb) as [Hv2 Hs2].
  - replace (n + Z.of_nat 0) with n by lia. rewrite Z.eqb_refl. wp_step.
    eapply Hok; [exact Hpool1|exact Hv2|by eapply same_pages_trans|].
    intros v. destruct (Z.leb_spec n v), (Z.leb_spec v (n + Z.of_nat 0)); simpl;
      try (rewrite lookup_insert_ne by lia; done).
    assert (v = n) as -> by lia. rewrite lookup_insert_eq. do 3 f_equal. lia.
  - destruct (Z.eqb_spec (4096 * n) (4096 * (n + Z.of_nat (S k)))) as [E|_]; [lia|].
    unfold PGSIZE. rewrite !u32_small by (unfold W32 in *; lia).
    replace (4096 * n + 4096) with (4096 * (n + 1)) by lia.
    replace (n + Z.of_nat (S k)) with (n + 1 + Z.of_nat k) in * by lia.
    eapply (IH (n + 1)); [exact Hv2|unfold UPN; lia|lia| |lia|lia|zlia| |].
    + intros v Hv3. rewrite lookup_insert_ne by lia. apply Hfree. lia.
    + intros l' tabs' ks' s' Hpool' Hv' Hs' Hks'. eapply Hok; [by rewrite Hpool'|exact Hv'| |].
      * eapply same_pages_trans; [exact Hs1|]. by eapply same_pages_trans.
      * intros v. rewrite Hks'. destruct (decide (v = n)) as [->|Hne].
        -- rewrite lookup_insert_eq. repeat (zcase; simpl); try lia. do 3 f_equal. lia.
        -- rewrite lookup_insert_ne by lia. repeat (zcase; simpl); try lia; try done. do 2 f_equal. lia.
    + intros tabs' ks' s' Hpool' Hv' Hs'. eapply Hfail; [by rewrite Hpool'|exact Hv'|].
      eapply same_pages_trans; [exact Hs1|]. by eapply same_pages_trans.
Qed.

(** ** [deallocuvm] *)

Lemma places_delete h l pd tabs us n e : us !! n = Some e ->
  places h l pd tabs us ≡ₚ places (page_of e :: h) l pd tabs (delete n us).
Proof.
  intros He. unfold places. rewrite (upages_delete us n e He). apply (Permutation_middle4 (page_of e) h l (pd :: tpages tabs)).
Qed.
Lemma places_move p h l pd tabs us : places h (p :: l) pd tabs us ≡ₚ places (p :: h) l pd tabs us.
Proof. unfold places. simpl. by rewrite <-Permutation_middle. Qed.

Lemma vrep_user s h l pd tabs us ks n e : vrep s h l pd tabs us ks -> us !! n = Some e ->
  page_ok kend (page_of e) /\ page_of e ∉ h /\ page_of e ∉ l /\ page_of e <> pd /\ page_of e ∉ tpages tabs /\
  page_of e ∉ upages (delete n us).
Proof.
  intros [Hk Hn Ho Hr] He. rewrite (places_delete _ _ _ _ _ _ _ He) in Hn, Ho. by apply places_held.
Qed.

(** The two statements that free a user page. *)
Lemma wp_unmap s h l pd tabs us ks n e t (Q : unit -> kmem -> Prop) :
  vrep s h l pd tabs us ks -> us !! n = Some e -> tabs !! (n / 1024) = Some t ->
  (forall s', vrep s' h (page_of e :: l) pd tabs (delete n us) ks ->
     same_pages (h ++ upages (delete n us)) (km_mem s) (km_mem s') -> Q tt s') ->
  wp (kfree kend me (page_of e) ;;; st (t + 4 * (n mod 1024)) 0) Q s.
Proof.
  intros Hv He Ht HQ. destruct (vrep_user _ _ _ _ _ _ _ _ _ Hv He) as (Hp & Hph & Hpl & Hpd & Hpt & Hpu).
  destruct (vrep_parts _ _ _ _ _ _ _ _ Hv) as (Hpdok & _ & _ & _ & _ & _ & Hok). rewrite !Forall_app in Hok.
  destruct Hok as (Oh & Ol & Ot & Ou). rewrite (upages_delete us n e He) in Ou. apply Forall_cons in Ou as [_ Ou].
  wp_step. apply (kfree_spec kend me s l); [apply Hv|done|done|]. intros s1 Hk1 _ Hm1.
  assert (Hrest : same_pages (h ++ upages (delete n us)) (km_mem s) (km_mem s1)).
  { apply (only_same kend (page_of e)); [done|by apply Forall_app| |done]. rewrite elem_of_app. tauto. }
  assert (Hpg1 : pgrep (km_mem s1) pd tabs us ks).
  { apply (pgrep_ext (km_mem s)); [|apply Hv]. apply (only_same kend (page_of e)); [done|by constructor| |done].
    rewrite elem_of_cons. tauto. }
  destruct (vrep_tab _ _ _ _ _ _ _ _ _ _ Hv Ht) as (Htok & Hth & Htl & _ & Htu).
  assert (Hj : 0 <= n mod 1024 < 1024) by (apply Z.mod_pos_bound; lia).
  rewrite (upages_delete us n e He), not_elem_of_cons in Htu. destruct Htu as [Hte Htu].
  unfold st. wp_step. apply HQ.
  - destruct (vrep_parts _ _ _ _ _ _ _ _ Hv) as (_ & _ & _ & Hpdt & _ & Hnd & _).
    assert (Hn : 0 <= n < UPN) by by eapply (pr_us _ _ _ _ _ (vr_rep _ _ _ _ _ _ _ _ Hv)).
    eapply places_perm; [exact Hv| | |].
    + apply (kmem_write kend _ _ t); [done|done| |by apply store_only]. rewrite elem_of_cons. tauto.
    + rewrite places_move. symmetry. by apply places_delete.
    + assert (E : n = 1024 * (n / 1024) + n mod 1024) by (apply Z.div_mod; lia).
      apply (pgrep_entry kend _ _ _ us ks _ _ (n / 1024)); try done; rewrite <-?E.
      * intros k Hk. destruct (decide (k < UPN)) as [Hlt|Hge].
        -- rewrite (lookup_user _ _ _ _ _ _ Hpg1) by done. unfold union, map_union.
           rewrite lookup_union_with, lookup_delete_ne by done.
           destruct (ks !! k) eqn:K; [apply (pr_ks _ _ _ _ _ Hpg1) in K; lia|]. by destruct (us !! k).
        -- rewrite !lookup_union, lookup_delete_ne by done. done.
      * rewrite lookup_union, lookup_delete_eq. destruct (ks !! n) eqn:K; [|done].
        apply (pr_ks _ _ _ _ _ Hpg1) in K. lia.
      * intros k x Hx. apply lookup_delete_Some in Hx as [_ Hx]. by eapply (pr_us _ _ _ _ _ Hpg1).
      * intros k x Hx. by eapply (pr_ks _ _ _ _ _ Hpg1).
  - simpl. eapply same_pages_trans; [exact Hrest|]. apply (only_same kend t); [done|by apply Forall_app| |by apply store_only].
    rewrite elem_of_app. tauto.
Qed.

Context (Hkend : KERNBASE < kend).

(** The user part without the pages from [n] up to [sz]. *)
Definition cut (us us' : gmap Z Z) (n sz : Z) : Prop :=
  forall v, us' !! v = if (n <=? v) && (4096 * v <? sz) then None else us !! v.

Lemma cut_upages us us' n sz : cut us us' n sz -> upages us' ⊆ upages us.
Proof.
  intros Hc p Hp. apply list_elem_of_fmap in Hp as (e & -> & He). apply list_elem_of_fmap in He as ([v x] & -> & Hx).
  apply elem_of_map_to_list in Hx. rewrite Hc in Hx. destruct (_ && _); [done|]. by eapply elem_upages.
Qed.

Lemma PGADDR_next n : 0 <= n < UPN -> u32 (u32 (PGADDR (PDX (4096 * n) + 1) 0 0 - PGSIZE) + PGSIZE) = 4096 * (1024 * (n / 1024 + 1)).
Proof.
  unfold UPN. intros Hn. rewrite PDX_vpn, vpn_page by (unfold W32; lia). unfold PGADDR, PDXSHIFT, PTXSHIFT, PGSIZE.
  rewrite Z.shiftl_0_l, !Z.lor_0_r, Z.shiftl_mul_pow2 by lia. change (2 ^ 22) with 4194304.
  assert (Hd : 0 <= n / 1024 < 512) by zlia.
  rewrite (u32_small (_ * _)) by (unfold W32; lia). rewrite (u32_small (_ * _ - _)) by (unfold W32; lia).
  rewrite u32_small by (unfold W32; lia). lia.
Qed.

Lemma page_of_nonzero e : page_ok kend (page_of e) -> PTE_ADDR e <> 0.
Proof. intros (_ & _ & Hk & _) E. unfold page_of in Hk. rewrite E in Hk. change (P2V 0) with KERNBASE in Hk. lia. Qed.

Lemma wp_deallocuvm_loop h pd ks tabs oldsz : oldsz <= KERNBASE -> forall fuel n s l us (Q : unit -> kmem -> Prop),
  vrep s h l pd tabs us ks -> 0 <= n -> oldsz <= 4096 * (n + Z.of_nat fuel) ->
  (forall l' us' s', l' ++ upages us' ≡ₚ l ++ upages us -> cut us us' n oldsz -> vrep s' h l' pd tabs us' ks ->
     same_pages (h ++ upages us') (km_mem s) (km_mem s') -> Q tt s') ->
  wp (deallocuvm_loop kend me fuel pd (4096 * n) oldsz) Q s.
Proof.
  unfold KERNBASE. intros Hold. induction fuel as [|fuel IH]; intros n s l us Q Hv Hn Hf HQ; cbn [deallocuvm_loop];
    (destruct (Z.ltb_spec (4096 * n) oldsz) as [Hlt|Hge];
      [|wp_step; eapply HQ; [done| |done|done]; intros v; repeat (zcase; simpl); lia || done]); [lia|].
  assert (HnU : 0 <= n < UPN) by (unfold UPN; lia).
  wp_step. apply (wp_walk s h l pd tabs us ks); [done|unfold W32; lia| | |done]; rewrite vpn_page.
  - intros t Ht. destruct (Z.eqb_spec (t + 4 * (n mod 1024)) 0) as [E|_].
    { apply (tab_nonzero _ _ _ _ _ _ _ _ _ (n mod 1024)) with (1 := Hv) in Ht; [done|]. apply Z.mod_pos_bound; lia. }
    unfold ld. wp_step. wp_step. cbn beta. rewrite (load_entry _ _ _ _ _ _ _ _ _ Hv Ht).
    rewrite (lookup_user _ _ _ _ _ _ (vr_rep _ _ _ _ _ _ _ _ Hv)) by lia.
    change PGSIZE with 4096. rewrite u32_small by (unfold W32; lia). replace (4096 * n + 4096) with (4096 * (n + 1)) by lia.
    destruct (us !! n) as [e|] eqn:He; cbn [from_option]; unfold id.
    + destruct (pr_entry _ _ _ _ _ (vr_rep _ _ _ _ _ _ _ _ Hv) n e) as (_ & _ & Hb); [by apply lookup_union_Some_l|].
      destruct (vrep_user _ _ _ _ _ _ _ _ _ Hv He) as (Hp & _). apply page_of_nonzero in Hp.
      rewrite Hb. destruct (Z.eqb_spec (PTE_ADDR e) 0) as [|_]; [done|]. fold (page_of e).
      wp_step. apply (wp_unmap _ _ _ _ _ _ _ _ _ _ _ Hv He Ht). intros s1 Hv1 Hs1.
      eapply IH; [exact Hv1|lia|lia|]. intros l' us' s' Hpm Hc Hv' Hs'. eapply HQ; [| |exact Hv'|].
      * rewrite Hpm, (upages_delete us n e He). simpl. apply Permutation_middle.
      * intros v. rewrite Hc. destruct (decide (v = n)) as [->|Hne]; [rewrite lookup_delete_eq|rewrite lookup_delete_ne by done];
          repeat (zcase; simpl); lia || done.
      * eapply same_pages_trans; [|exact Hs']. eapply same_pages_sub; [|exact Hs1].
        pose proof (cut_upages _ _ _ _ Hc). clear -H. set_solver.
    + change (has_bit 0 PTE_P) with false. cbv iota. wp_step. wp_step. eapply IH; [exact Hv|lia|lia|].
      intros l' us' s' Hpm Hc Hv' Hs'. eapply HQ; [done| |exact Hv'|done].
      intros v. rewrite Hc. destruct (decide (v = n)) as [->|Hne]; [rewrite He|]; repeat (zcase; simpl); lia || done.
  - intros Hno _. cbn [Z.eqb]. rewrite PGADDR_next by done.
    eapply IH; [exact Hv|zlia|zlia|]. intros l' us' s' Hpm Hc Hv' Hs'. eapply HQ; [done| |exact Hv'|done].
    intros v. rewrite Hc. destruct (decide (v / 1024 = n / 1024)) as [E|Hne].
    + assert (us !! v = None) as ->.
      { destruct (us !! v) as [e|] eqn:He; [|done].
        destruct (pr_entry _ _ _ _ _ (vr_rep _ _ _ _ _ _ _ _ Hv) v e) as ([t Ht] & _); [by apply lookup_union_Some_l|]. congruence. }
      by destruct (_ && _), (_ && _).
    + repeat (zcase; simpl); try done; zlia.
Qed.

Lemma PGROUNDUP_page sz : 0 <= sz <= KERNBASE -> PGROUNDUP sz = 4096 * ((sz + 4095) / 4096).
Proof. unfold KERNBASE. intros Hs. rewrite PGROUNDUP_spec by (unfold W32; lia). zlia. Qed.

Lemma wp_deallocuvm s h l pd tabs us ks oldsz newsz (Q : Z -> kmem -> Prop) :
  vrep s h l pd tabs us ks -> 0 <= newsz -> oldsz <= KERNBASE ->
  (forall l' us' s', l' ++ upages us' ≡ₚ l ++ upages us -> cut us us' ((newsz + 4095) / 4096) oldsz ->
     vrep s' h l' pd tabs us' ks -> same_pages (h ++ upages us') (km_mem s) (km_mem s') -> Q (Z.min oldsz newsz) s') ->
  wp (deallocuvm kend me pd oldsz newsz) Q s.
Proof.
  intros Hv Hn Ho HQ. unfold deallocuvm. destruct (Z.leb_spec oldsz newsz) as [Hle|Hlt].
  - wp_step. rewrite Z.min_l in HQ by lia. eapply HQ; [done| |done|done]. intros v. repeat (zcase; simpl); try done. zlia.
  - rewrite Z.min_r in HQ by lia. wp_step. rewrite PGROUNDUP_page by lia.
    apply (wp_deallocuvm_loop h pd ks tabs oldsz Ho _ _ s l us); [done|zlia|unfold PGSIZE; zlia|].
    intros. wp_step. by eapply HQ.
Qed.

(** ** [allocuvm] *)

(** All the pages but the page directory and those that are held. *)
Definition stock (l : list Z) (tabs us : gmap Z Z) : list Z := l ++ tpages tabs ++ upages us.

(** [us'] is [us] with fresh pages of zeros, writable by the user, from [n0] up to [n]. *)
Definition grown (m : mem) (us us' : gmap Z Z) (n0 n : Z) : Prop := forall v,
  if (n0 <=? v) && (v <? n) then exists e, us' !! v = Some e /\ PTE_FLAGS e = Z.lor (Z.lor PTE_W PTE_U) PTE_P /\ zero_page m (page_of e)
  else us' !! v = us !! v.

Lemma grown_same m m' us us' n0 n : same_pages (upages us') m m' -> grown m us us' n0 n -> grown m' us us' n0 n.
Proof.
  intros Hs Hg v. specialize (Hg v). destruct (_ && _); [|done]. destruct Hg as (e & He & Hf & Hz). exists e.
  split_and!; [done..|]. intros x Hx. rewrite (Hs (page_of e)); [by apply Hz|by eapply elem_upages|done].
Qed.
Lemma grown_sub m us us' n0 n : grown m us us' n0 n -> (forall v, n0 <= v < n -> us !! v = None) -> us ⊆ us'.
Proof.
  intros Hg Hn. apply map_subseteq_spec. intros v e He. specialize (Hg v).
  destruct (Z.leb_spec n0 v), (Z.ltb_spec v n); simpl in Hg; try congruence. rewrite Hn in He by lia. done.
Qed.
Lemma upages_sub us us' : us ⊆ us' -> upages us ⊆ upages us'.
Proof.
  intros Hs p Hp. apply list_elem_of_fmap in Hp as (e & -> & He). apply list_elem_of_fmap in He as ([v x] & -> & Hx).
  apply elem_of_map_to_list in Hx. eapply elem_upages. by eapply lookup_weaken.
Qed.

(** Deallocation after growth restores the user part. *)
Lemma grown_cut m us us1 us' n0 n sz : grown m us us1 n0 n -> 4096 * n < sz + 4096 ->
  (forall v, n0 <= v -> 4096 * v < sz -> us !! v = None) -> cut us1 us' n0 sz -> us' = us.
Proof.
  intros Hg Hn Hf Hc. apply map_eq. intros v. rewrite Hc. specialize (Hg v).
  destruct (Z.leb_spec n0 v), (Z.ltb_spec (4096 * v) sz), (Z.ltb_spec v n); simpl in *; try congruence; try lia.
  - by rewrite Hf.
  - by rewrite Hf.
Qed.

Section alloc.
Context (h : list Z) (pd : Z) (us0 ks : gmap Z Z) (m0 : mem) (st0 : list Z) (n0 newsz : Z).
Context (Hnew : newsz < KERNBASE) (Hn0 : 0 <= n0).
Context (Hfree : forall v, n0 <= v -> 4096 * v < newsz -> us0 !! v = None).

Record growing (n : Z) (s : kmem) (l : list Z) (tabs us : gmap Z Z) : Prop := mk_growing {
  gr_rep : vrep s h l pd tabs us ks;
  gr_grown : grown (km_mem s) us0 us n0 n;
  gr_same : same_pages (h ++ upages us0) m0 (km_mem s);
  gr_stock : stock l tabs us ≡ₚ st0
}.

(** The result of a failed growth. *)
Definition undone (s : kmem) (l : list Z) (tabs : gmap Z Z) : Prop :=
  vrep s h l pd tabs us0 ks /\ same_pages (h ++ upages us0) m0 (km_mem s) /\ stock l tabs us0 ≡ₚ st0.

Lemma grow_none n v s l tabs us : growing n s l tabs us -> n <= v -> 4096 * v < newsz -> n0 <= n -> us !! v = None.
Proof.
  intros [_ Hg _ _] Hv Hl Hn. specialize (Hg v). destruct (Z.leb_spec n0 v), (Z.ltb_spec v n); simpl in Hg; try lia.
  rewrite Hg. auto.
Qed.

(** One page more. *)
Lemma growing_step n s1 p l1 l' tabs1 tabs' us s s' l :
  growing n s l tabs1 us -> n0 <= n -> 4096 * n < newsz -> l = p :: l1 ->
  vrep s1 (p :: h) l1 pd tabs1 us ks -> km_mem s1 = memset (km_mem s) p 0 PGSIZE ->
  pool l' tabs' ≡ₚ pool l1 tabs1 -> vrep s' h l' pd tabs' (<[n := mk_pte (V2P p) (Z.lor PTE_W PTE_U)]> us) ks ->
  same_pages (p :: h ++ upages us) (km_mem s1) (km_mem s') ->
  growing (n + 1) s' l' tabs' (<[n := mk_pte (V2P p) (Z.lor PTE_W PTE_U)]> us).
Proof.
  intros Hg Hn Hlt -> Hv1 Hm1 Hpool Hv' Hs'. pose proof (grow_none n n _ _ _ _ Hg ltac:(lia) Hlt Hn) as Hnone.
  destruct (vrep_held _ _ _ _ _ _ _ _ _ Hv1) as (Hp & Hph & _ & _ & _ & Hpu).
  destruct Hg as [Hv Hg Hs Hst]. destruct (fill_zero kend (km_mem s) p Hp) as [Hof Hz].
  destruct (V2P_page kend p Hp) as (Hpa & Hpm4 & HPV).
  destruct (mk_pte_spec (V2P p) (Z.lor PTE_W PTE_U) Hpa Hpm4 ltac:(by compute)) as (_ & _ & _ & _ & Ha & Hfl).
  assert (Hpof : page_of (mk_pte (V2P p) (Z.lor PTE_W PTE_U)) = p) by (unfold page_of; by rewrite Ha).
  destruct (vrep_parts _ _ _ _ _ _ _ _ Hv) as (_ & _ & _ & _ & _ & _ & Hok). rewrite !Forall_app in Hok.
  destruct Hok as (Oh & _ & _ & Ou).
  assert (Hs1 : same_pages (h ++ upages us) (km_mem s) (km_mem s1)).
  { rewrite Hm1. apply (only_same kend p); [done|by apply Forall_app| |done]. rewrite elem_of_app. tauto. }
  assert (Hall : same_pages (h ++ upages us) (km_mem s) (km_mem s')).
  { eapply same_pages_trans; [exact Hs1|]. eapply same_pages_sub; [|exact Hs']. intros q Hq. apply elem_of_cons. by right. }
  split; [done| | |].
  - intros v. destruct (decide (v = n)) as [->|Hne].
    + destruct (Z.leb_spec n0 n), (Z.ltb_spec n (n + 1)); try lia. simpl. eexists. rewrite lookup_insert_eq.
      split_and!; [done|done|]. rewrite Hpof. intros x Hx. rewrite (Hs' p x); [|apply elem_of_cons; by left|done].
      rewrite Hm1. by apply Hz.
    + rewrite lookup_insert_ne by done.
      assert (Hg' : grown (km_mem s') us0 us n0 n).
      { eapply grown_same; [|exact Hg]. eapply same_pages_sub; [|exact Hall]. intros q Hq. apply elem_of_app. by right. }
      specialize (Hg' v). destruct (Z.leb_spec n0 v), (Z.ltb_spec v n), (Z.ltb_spec v (n + 1)); simpl in *; try done; lia.
  - eapply same_pages_trans; [exact Hs|]. eapply same_pages_sub; [|exact Hall].
    pose proof (upages_sub _ _ (grown_sub _ _ _ _ _ Hg ltac:(intros; apply Hfree; lia))) as Hsub. clear -Hsub. set_solver.
  - rewrite <-Hst. unfold stock, pool in *. rewrite upages_insert, Hpof by done. rewrite (app_assoc l'), Hpool.
    rewrite <-Permutation_middle, <-app_assoc. done.
Qed.

(** Giving up: the pages are deallocated again. *)
Lemma wp_undo n s h' l tabs us (Q : Z -> kmem -> Prop) oldsz :
  vrep s (h' ++ h) l pd tabs us ks -> grown (km_mem s) us0 us n0 n -> 4096 * n < newsz + 4096 ->
  same_pages (h ++ upages us0) m0 (km_mem s) -> h' ++ stock l tabs us ≡ₚ st0 -> 0 <= oldsz -> n0 = (oldsz + 4095) / 4096 ->
  (forall l' s', vrep s' (h' ++ h) l' pd tabs us0 ks -> same_pages (h ++ upages us0) m0 (km_mem s') ->
     h' ++ stock l' tabs us0 ≡ₚ st0 -> Q (Z.min newsz oldsz) s') ->
  wp (deallocuvm kend me pd newsz oldsz) Q s.
Proof.
  intros Hv Hg Hn Hs Hst Ho -> HQ. apply (wp_deallocuvm s (h' ++ h) l pd tabs us ks); [done|lia|lia|].
  intros l' us' s' Hpm Hc Hv' Hs'. assert (us' = us0) as -> by (by eapply grown_cut). apply HQ with l'; [done| |].
  - eapply same_pages_trans; [exact Hs|]. eapply same_pages_sub; [|exact Hs']. clear. set_solver.
  - rewrite <-Hst. f_equiv. unfold stock. rewrite (Permutation_app_comm (tpages tabs)), (Permutation_app_comm (tpages tabs) (upages us)).
    rewrite !app_assoc. by rewrite Hpm.
Qed.

Lemma wp_allocuvm_loop oldsz short (Q : Z -> kmem -> Prop) : 0 <= oldsz -> n0 = (oldsz + 4095) / 4096 ->
  (forall n s l tabs us, growing n s l tabs us -> newsz <= 4096 * n < newsz + 4096 \/ n = n0 /\ newsz <= 4096 * n -> Q newsz s) ->
  (forall s l tabs, undone s l tabs -> short -> Q 0 s) ->
  forall fuel n s l tabs us, growing n s l tabs us -> n0 <= n -> 4096 * n < newsz + 4096 \/ n = n0 ->
  newsz <= 4096 * (n + Z.of_nat fuel) -> short \/ 2 * ((newsz + 4095) / 4096 - n) <= Z.of_nat (length l) ->
  wp (allocuvm_loop kend me fuel pd oldsz newsz (4096 * n)) Q s.
Proof.
  intros Ho En0 HQ HQ0. unfold KERNBASE in Hnew.
  induction fuel as [|fuel IH]; intros n s l tabs us Hg Hn Hnb Hf Hsh; cbn [allocuvm_loop];
    (destruct (Z.ltb_spec (4096 * n) newsz) as [Hlt|Hge];
      [|wp_step; eapply HQ; [exact Hg|]; destruct Hnb as [?|?]; [left|right]; lia]); [lia|].
  pose proof (grow_none n n _ _ _ _ Hg ltac:(lia) Hlt Hn) as Hnone. pose proof Hg as [Hv Hgr Hsm Hst].
  wp_step. apply (wp_kalloc_v kend me s h l pd tabs us ks _ Hv). destruct l as [|p l1].
  - cbn [Z.eqb]. wp_step. apply (wp_undo n s [] [] tabs us); try done; [lia|].
    intros l' s' Hv' Hs' Hst'. wp_step. apply (HQ0 s' l' tabs); [done|]. destruct Hsh as [Hsh|Hsh]; [done|]. cbn [length] in Hsh. zlia.
  - intros s1 Hv1 Hm1 Hp0. destruct (Z.eqb_spec p 0) as [|_]; [done|]. unfold fill. wp_step. wp_step. cbn beta.
    destruct (vrep_held _ _ _ _ _ _ _ _ _ Hv1) as (Hp & _).
    destruct (fill_zero kend (km_mem s1) p Hp) as [Hof _].
    destruct (vrep_write _ _ _ _ _ _ _ _ _ _ Hv1 Hof) as [Hv2 Hs2]. rewrite Hm1 in Hs2 at 1.
    wp_step. apply (wp_map_page _ _ _ _ _ _ _ _ _ _ _ Hv2); [unfold UPN; lia|done|by compute| |].
    + intros l' tabs' s' Hpool Hlen Hv' Hs'. cbn [Z.ltb Z.compare]. change PGSIZE with 4096. rewrite u32_small by (unfold W32; lia).
      replace (4096 * n + 4096) with (4096 * (n + 1)) by lia.
      eapply (IH (n + 1) s' l'); [|lia|lia|lia|destruct Hsh as [Hsh|Hsh]; [by left|right; cbn [length] in Hsh; lia]].
      eapply (growing_step n); [exact Hg|lia|lia|done|exact Hv2| |exact Hpool|exact Hv'|exact Hs']. cbn [km_mem km_set_mem]. by rewrite Hm1.
    + intros ->. change (-1 <? 0) with true. cbv iota. wp_step.
      apply (wp_undo n _ [p] [] tabs us); [done| |lia| |done|done|done|].
      * eapply grown_same; [|exact Hgr]. eapply same_pages_sub; [|exact Hs2]. clear. set_solver.
      * eapply same_pages_trans; [exact Hsm|]. eapply same_pages_sub; [|exact Hs2].
        pose proof (upages_sub _ _ (grown_sub _ _ _ _ _ Hgr ltac:(intros; apply Hfree; lia))) as Hsub. clear -Hsub. set_solver.
      * intros l' s' Hv' Hs' Hst'. wp_step. apply (wp_kfree_v _ _ _ _ _ _ _ _ _ _ _ Hv').
        intros s'' Hv'' Hs''. wp_step. apply (HQ0 s'' (p :: l') tabs);
          [|destruct Hsh as [Hsh|Hsh]; [done|cbn [length] in Hsh; zlia]]. split; [done|]. split; [|done].
        by eapply same_pages_trans.
Qed.
End alloc.

Lemma wp_allocuvm s h l pd tabs us ks oldsz newsz (Q : Z -> kmem -> Prop) :
  vrep s h l pd tabs us ks -> 0 <= oldsz <= newsz -> newsz < KERNBASE ->
  (forall v, (oldsz + 4095) / 4096 <= v -> 4096 * v < newsz -> us !! v = None) ->
  (forall l' tabs' us' s', vrep s' h l' pd tabs' us' ks -> stock l' tabs' us' ≡ₚ stock l tabs us ->
     same_pages (h ++ upages us) (km_mem s) (km_mem s') ->
     grown (km_mem s') us us' ((oldsz + 4095) / 4096) ((newsz + 4095) / 4096) -> Q newsz s') ->
  (forall l' tabs' s', vrep s' h l' pd tabs' us ks -> stock l' tabs' us ≡ₚ stock l tabs us ->
     same_pages (h ++ upages us) (km_mem s) (km_mem s') ->
     Z.of_nat (length l) < 2 * ((newsz + 4095) / 4096 - (oldsz + 4095) / 4096) -> Q 0 s') ->
  wp (allocuvm kend me pd oldsz newsz) Q s.
Proof.
  intros Hv Ho Hn Hfree Hok Hfail. unfold allocuvm. pose proof Hn as Hn'. unfold KERNBASE in Hn'.
  destruct (Z.leb_spec KERNBASE newsz) as [?|_]; [lia|]. destruct (Z.ltb_spec newsz oldsz) as [?|_]; [lia|].
  rewrite PGROUNDUP_page by (unfold KERNBASE; lia).
  eapply (wp_allocuvm_loop h pd us ks (km_mem s) (stock l tabs us) ((oldsz + 4095) / 4096) newsz Hn ltac:(zlia) Hfree _
            (Z.of_nat (length l) < 2 * ((newsz + 4095) / 4096 - (oldsz + 4095) / 4096))); [lia|done| | | |lia|by right| |].
  - intros n s' l' tabs' us' [Hv' Hg Hs Hst] Hr. assert (E : (newsz + 4095) / 4096 = n) by (clear -Hr Ho; destruct Hr as [?|[-> ?]]; zlia).
    rewrite E in Hok. by eapply Hok.
  - intros s' l' tabs' (Hv' & Hs & Hst) Hsh. by eapply Hfail.
  - split; [exact Hv| |done|done]. intros v. by destruct (Z.leb_spec ((oldsz + 4095) / 4096) v), (Z.ltb_spec v ((oldsz + 4095) / 4096)); simpl; try lia.
  - unfold PGSIZE. zlia.
  - lia.
Qed.

(** ** [freevm] *)

(** The allocator with the pages [h] in use. *)
Record krep (s : kmem) (h l : list Z) : Prop := mk_krep {
  kr_km : kmem_inv kend s l;
  kr_nodup : NoDup (h ++ l);
  kr_ok : Forall (page_ok kend) (h ++ l)
}.

(** After the page tables below [i] of the directory [pd] are freed. *)
Record freeing (h : list Z) (pd : Z) (tabs : gmap Z Z) (m0 : mem) (all : list Z) (i : Z) (s : kmem) : Prop := mk_freeing {
  fr_list : exists l, krep s (h ++ pd :: tpages (filter (fun kt => i <= kt.1) tabs)) l /\
    l ++ tpages (filter (fun kt => i <= kt.1) tabs) ≡ₚ all;
  fr_same : same_pages (pd :: h) m0 (km_mem s)
}.

Lemma filter_step (tabs : gmap Z Z) i t : tabs !! i = Some t ->
  filter (fun kt => i <= kt.1) tabs = <[i := t]> (filter (fun kt => i + 1 <= kt.1) tabs).
Proof.
  intros Ht. apply map_eq. intros k. destruct (decide (k = i)) as [->|Hne].
  - rewrite lookup_insert_eq. apply map_lookup_filter_Some. simpl. split; [done|lia].
  - rewrite lookup_insert_ne by done. rewrite !map_lookup_filter. destruct (tabs !! k); simpl; [|done].
    by repeat case_guard; simpl in *; try lia.
Qed.
Lemma filter_none (tabs : gmap Z Z) i : tabs !! i = None ->
  filter (fun kt => i <= kt.1) tabs = filter (fun kt => i + 1 <= kt.1) tabs.
Proof.
  intros Ht. apply map_eq. intros k. rewrite !map_lookup_filter. destruct (decide (k = i)) as [->|Hne]; [by rewrite Ht|].
  destruct (tabs !! k); simpl; [|done]. by repeat case_guard; simpl in *; try lia.
Qed.

Lemma wp_kfree_k s p h1 h2 l (Q : unit -> kmem -> Prop) : krep s (h1 ++ p :: h2) l ->
  (forall s', krep s' (h1 ++ h2) (p :: l) -> same_pages (h1 ++ h2) (km_mem s) (km_mem s') -> Q tt s') ->
  wp (kfree kend me p) Q s.
Proof.
  intros [Hk Hn Ho] HQ. assert (E : (h1 ++ p :: h2) ++ l ≡ₚ p :: (h1 ++ h2) ++ l) by (by rewrite <-Permutation_middle).
  rewrite E in Hn, Ho. pose proof Hn as Hn1. pose proof Ho as Ho1. apply NoDup_cons in Hn1 as [Hn1 _].
  apply Forall_cons in Ho1 as [Hp Ho1]. apply Forall_app in Ho1 as [Ho1 _]. rewrite elem_of_app in Hn1.
  apply (kfree_spec kend me s l); [done|done|tauto|]. intros s' Hk' _ Hm. apply HQ.
  - split; [done| |]; by rewrite <-Permutation_middle.
  - apply (only_same kend p); [done|done|tauto|done].
Qed.

Lemma freeing_step h pd tabs m0 all j s us ks :
  pgrep m0 pd tabs us ks -> 0 <= j < 1024 -> freeing h pd tabs m0 all j s ->
  wp (let! e := ld (pd + 4 * j) in if has_bit e PTE_P then kfree kend me (P2V (PTE_ADDR e)) else ret tt)
     (fun _ s' => freeing h pd tabs m0 all (j + 1) s') s.
Proof.
  intros Hpg Hj [(l & Hk & Hpm) Hs]. unfold ld. wp_step. wp_step. cbn beta.
  rewrite (load32_page (pd :: h) m0 _ pd j Hs ltac:(apply elem_of_cons; by left) Hj), (pr_pd _ _ _ _ _ Hpg) by done.
  destruct (tabs !! j) as [t|] eqn:Ht.
  - rewrite (filter_step _ _ _ Ht) in Hk, Hpm.
    assert (Hnone : filter (fun kt => j + 1 <= kt.1) tabs !! j = None) by (apply map_lookup_filter_None; right; simpl; intros; lia).
    rewrite tpages_insert in Hpm by done. assert (Hk1 : krep s ((h ++ [pd]) ++ t :: tpages (filter (fun kt => j + 1 <= kt.1) tabs)) l).
    { destruct Hk as [K1 K2 K3]. rewrite <-app_assoc. simpl. split; [done| |]; by rewrite <-tpages_insert. }
    assert (Htok : page_ok kend t).
    { destruct Hk1 as [_ _ K3]. rewrite !Forall_app, !Forall_cons in K3. tauto. }
    destruct (pde_page kend t Htok) as (_ & Hb & Hp & _). unfold page_of in Hp. rewrite Hb, Hp.
    apply (wp_kfree_k _ _ _ _ _ _ Hk1). intros s' Hk' Hs'. split.
    + exists (t :: l). split; [rewrite <-app_assoc in Hk'; exact Hk'|]. rewrite <-Hpm. simpl. apply Permutation_middle.
    + eapply same_pages_trans; [exact Hs|]. eapply same_pages_sub; [|exact Hs']. clear. set_solver.
  - change (has_bit 0 PTE_P) with false. cbv iota. wp_step. rewrite (filter_none _ _ Ht) in Hk, Hpm. split; [by exists l|done].
Qed.

Lemma vrep_krep s h l pd tabs us ks : vrep s h l pd tabs us ks -> krep s (h ++ pd :: tpages tabs ++ upages us) l.
Proof.
  intros [V1 V2 V3 V4]. unfold places in *.
  assert (E : (h ++ pd :: tpages tabs ++ upages us) ++ l ≡ₚ h ++ l ++ pd :: tpages tabs ++ upages us).
  { rewrite <-app_assoc. f_equiv. apply Permutation_app_comm. }
  split; [done| |]; by rewrite E.
Qed.

Lemma cut_all m pd tabs us ks us' : pgrep m pd tabs us ks -> cut us us' 0 KERNBASE -> us' = ∅.
Proof.
  intros Hp Hc. apply map_eq. intros v. rewrite Hc, lookup_empty. destruct (us !! v) eqn:E; [|by destruct (_ && _)].
  apply (pr_us _ _ _ _ _ Hp) in E. unfold UPN in E. unfold KERNBASE. repeat (zcase; simpl); lia || done.
Qed.

Lemma wp_freevm s h l pd tabs us ks (Q : unit -> kmem -> Prop) : vrep s h l pd tabs us ks ->
  (forall l' s', l' ≡ₚ pd :: stock l tabs us -> krep s' h l' -> same_pages h (km_mem s) (km_mem s') -> Q tt s') ->
  wp (freevm kend me pd) Q s.
Proof.
  intros Hv HQ. destruct (vrep_parts _ _ _ _ _ _ _ _ Hv) as ((Hpd0 & _) & _). unfold freevm.
  destruct (Z.eqb_spec pd 0) as [|_]; [lia|]. wp_step. apply (wp_deallocuvm s h l pd tabs us ks); [done|lia|done|].
  change ((0 + 4095) / 4096) with 0. intros l1 us1 s1 Hpm Hc Hv1 Hs1.
  assert (us1 = ∅) as -> by (by eapply cut_all; [apply Hv|]). change (upages ∅) with (@nil Z) in *. rewrite !app_nil_r in *.
  wp_step. eapply (wp_for (freeing h pd tabs (km_mem s1) (l1 ++ tpages tabs))).
  - split; [exists l1|done].
    assert (filter (fun kt => 0 <= kt.1) tabs = tabs) as ->.
    { apply map_filter_id. intros i t Ht. apply (pr_tab _ _ _ _ _ (vr_rep _ _ _ _ _ _ _ _ Hv1)) in Ht. simpl. lia. }
    split; [|done]. apply vrep_krep in Hv1. change (upages ∅) with (@nil Z) in Hv1. by rewrite app_nil_r in Hv1.
  - intros j s2 Hj Hf. eapply freeing_step; [apply Hv1|unfold NPDENTRIES in Hj; lia|done].
  - intros s2 [(l2 & Hk2 & Hpm2) Hs2]. simpl in *.
    assert (E : filter (fun kt => 1024 <= kt.1) tabs = ∅).
    { apply map_empty. intros i. apply map_lookup_filter_None. right. intros t Ht. apply (pr_tab _ _ _ _ _ (vr_rep _ _ _ _ _ _ _ _ Hv1)) in Ht. simpl. lia. }
    change (0 + Z.of_nat (Z.to_nat NPDENTRIES)) with 1024 in *. rewrite E in Hk2, Hpm2. change (tpages ∅) with (@nil Z) in *.
    apply (wp_kfree_k _ _ _ _ _ _ Hk2). rewrite app_nil_r in *. intros s3 Hk3 Hs3. apply (HQ (pd :: l2)); [|done|].
    + f_equiv. rewrite Hpm2. unfold stock. rewrite (Permutation_app_comm (tpages tabs)), app_assoc. f_equiv. done.
    + eapply same_pages_trans; [exact Hs1|]. eapply same_pages_trans; [|exact Hs3]. eapply same_pages_sub; [|exact Hs2]. clear. set_solver.
Qed.

(** ** [setupkvm] *)

Lemma wp_mappages_range s h l pd tabs us ks n c va size pa perm (Q : Z -> kmem -> Prop) :
  va = 4096 * n -> size = 4096 * c -> 0 < c -> 0 <= perm < 4096 ->
  vrep s h l pd tabs us ks -> UPN <= n -> n + c <= 1048576 ->
  (forall v, n <= v < n + c -> ks !! v = None) -> 0 <= pa -> pa + size <= W32 -> pa mod 4096 = 0 ->
  (forall l' tabs' ks' s', pool l' tabs' ≡ₚ pool l tabs -> vrep s' h l' pd tabs' us ks' ->
     same_pages (h ++ upages us) (km_mem s) (km_mem s') ->
     (forall v, ks' !! v = if (n <=? v) && (v <? n + c) then Some (mk_pte (pa + 4096 * (v - n)) perm) else ks !! v) -> Q 0 s') ->
  (forall tabs' ks' s', tpages tabs' ≡ₚ pool l tabs -> vrep s' h [] pd tabs' us ks' ->
     same_pages (h ++ upages us) (km_mem s) (km_mem s') -> Q (-1) s') ->
  wp (mappages me pd va size pa perm) Q s.
Proof.
  intros -> -> Hc Hpm Hv Hn Hnc Hfree Hpa Hpc Hpa4 Hok Hfail. unfold UPN in Hn. unfold mappages.
  rewrite PGROUNDDOWN_page0 by lia. rewrite (u32_small (_ - 1)) by (unfold W32; lia).
  replace (4096 * n + 4096 * c - 1) with (4096 * (n + c - 1) + 4095) by lia. rewrite PGROUNDDOWN_page by lia.
  rewrite u32_small by (unfold W32; lia).
  replace ((4096 * (n + c - 1) - 4096 * n) / PGSIZE) with (c - 1) by (unfold PGSIZE; zlia).
  replace (n + c - 1) with (n + Z.of_nat (Z.to_nat (c - 1))) by lia.
  eapply (wp_map_range h pd us perm Hpm _ n s l tabs ks); [done|done|lia| |lia|lia|done| |done].
  - intros v Hv'. apply Hfree. lia.
  - intros l' tabs' ks' s' Hpool Hv' Hs' Hks. eapply Hok; [exact Hpool|exact Hv'|exact Hs'|]. intros v. rewrite Hks.
    replace (v <=? n + Z.of_nat (Z.to_nat (c - 1))) with (v <? n + c); [done|]. zcase; zcase; lia || done.
Qed.

(** The kernel part of an address space: the entry that [kmap] asks for at page [v]. *)
Definition kernel_pte (kdata v : Z) : option Z :=
  if (KERNBASE / 4096 <=? v) && (v <? KERNLINK / 4096) then Some (mk_pte (4096 * (v - KERNBASE / 4096)) PTE_W)
  else if (KERNLINK / 4096 <=? v) && (v <? kdata / 4096) then Some (mk_pte (4096 * (v - KERNBASE / 4096)) 0)
  else if (kdata / 4096 <=? v) && (v <? P2V PHYSTOP / 4096) then Some (mk_pte (4096 * (v - KERNBASE / 4096)) PTE_W)
  else if (DEVSPACE / 4096 <=? v) && (v <? 1048576) then Some (mk_pte (4096 * v) PTE_W)
  else None.

Lemma tabs_bound m pd tabs us ks : pgrep m pd tabs us ks -> (length (tpages tabs) <= 1024)%nat.
Proof.
  intros Hp. unfold tpages. rewrite length_fmap, length_map_to_list, <-size_dom.
  transitivity (size (list_to_set (seqZ 0 1024) : gset Z)).
  - apply subseteq_size. intros i Hi. apply elem_of_dom in Hi as [t Ht]. apply (pr_tab _ _ _ _ _ Hp) in Ht.
    apply elem_of_list_to_set, elem_of_seqZ. lia.
  - by vm_compute.
Qed.

Lemma zero_pgrep m pd : zero_page m pd -> pgrep m pd ∅ ∅ ∅.
Proof.
  intros Hz. split; try (intros; exfalso; done).
  intros i Hi. by rewrite zero_word.
Qed.

Section setup.
Context (kdata : Z) (Hkd4 : kdata mod 4096 = 0) (Hkd : KERNLINK < kdata < P2V PHYSTOP).
Context (s0 : kmem) (h l0 : list Z) (Q : Z -> kmem -> Prop).
Context (Hfail : forall l' s', krep s' h l' -> l' ≡ₚ l0 -> same_pages h (km_mem s0) (km_mem s') ->
  (length l0 <= 1025)%nat -> Q 0 s').

(** The address space under construction. *)
Record setting (pd : Z) (s : kmem) (l : list Z) (tabs ks : gmap Z Z) : Prop := mk_setting {
  se_rep : vrep s h l pd tabs ∅ ks;
  se_pool : pd :: pool l tabs ≡ₚ l0;
  se_same : same_pages h (km_mem s0) (km_mem s)
}.

(** One entry of [kmap], at the pages [n] to [n + c], and what follows it. *)
Lemma wp_setup_entry pd s l tabs ks n c e es : setting pd s l tabs ks ->
  km_virt e = 4096 * n -> u32 (km_phys_end e - km_phys_start e) = 4096 * c -> 0 < c -> 0 <= km_perm e < 4096 ->
  UPN <= n -> n + c <= 1048576 -> (forall v, n <= v < n + c -> ks !! v = None) ->
  0 <= km_phys_start e -> km_phys_start e + 4096 * c <= W32 -> km_phys_start e mod 4096 = 0 ->
  (forall s' l' tabs' ks', setting pd s' l' tabs' ks' ->
     (forall v, ks' !! v = if (n <=? v) && (v <? n + c) then Some (mk_pte (km_phys_start e + 4096 * (v - n)) (km_perm e)) else ks !! v) ->
     wp (setupkvm_loop kend me pd es) Q s') ->
  wp (setupkvm_loop kend me pd (e :: es)) Q s.
Proof.
  intros [Hv Hp Hs] Hva Hsz Hc Hpm Hn Hnc Hfree Hpa Hpc Hpa4 Hok. cbn [setupkvm_loop]. wp_step.
  eapply (wp_mappages_range s h l pd tabs ∅ ks n c); try done; [by rewrite Hsz| |].
  - intros l' tabs' ks' s' Hpool Hv' Hs' Hks. change (upages ∅) with (@nil Z) in *. rewrite app_nil_r in *. eapply Hok; [|exact Hks].
    split; [done|by rewrite Hpool|by eapply same_pages_trans].
  - intros tabs' ks' s' Hpool Hv' Hs'. change (upages ∅) with (@nil Z) in *. rewrite app_nil_r in *.
    change (-1 <? 0) with true. cbv iota. wp_step. eapply wp_freevm; [exact Hv'|]. intros l' s2 Hpm2 Hk2 Hs2. wp_step.
    apply (Hfail l'); [done| | |].
    + rewrite Hpm2, <-Hp. f_equiv. unfold stock. simpl. change (upages ∅) with (@nil Z). by rewrite app_nil_r.
    + eapply same_pages_trans; [|exact Hs2]. by eapply same_pages_trans.
    + rewrite <-Hp. simpl. rewrite <-Hpool. pose proof (tabs_bound _ _ _ _ _ (vr_rep _ _ _ _ _ _ _ _ Hv')). lia.
Qed.

Lemma wp_setupkvm : krep s0 h l0 ->
  (forall d l' tabs' ks s', d <> 0 -> vrep s' h l' d tabs' ∅ ks -> d :: pool l' tabs' ≡ₚ l0 ->
     same_pages h (km_mem s0) (km_mem s') -> (forall v, ks !! v = kernel_pte kdata v) -> Q d s') ->
  wp (setupkvm kend kdata me) Q s0.
Proof.
  intros [Hk Hnd Hok0] HQ. unfold setupkvm. wp_step. apply (kalloc_spec kend me s0 l0 _ Hk). remember l0 as lx eqn:El in |- *. destruct lx as [|d l].
  { cbn [Z.eqb]. wp_step. apply (Hfail l0); [by split|done|done|rewrite <-El; simpl; lia]. }
  intros s1 Hk1 _ Hm1. rewrite <-El, <-Permutation_middle in Hnd, Hok0.
  apply NoDup_cons in Hnd as [Hd Hnd]. apply Forall_cons in Hok0 as [Hdok Hok0]. pose proof Hdok as (Hd0 & _).
  destruct (Z.eqb_spec d 0) as [|_]; [lia|]. unfold fill. wp_steps. change (DEVSPACE <? P2V PHYSTOP) with false. cbv iota.
  rewrite elem_of_app in Hd. destruct (fill_zero kend (km_mem s1) d Hdok) as [Hof Hz].
  apply Forall_app in Hok0 as [Oh Ol]. set (s2 := km_set_mem _ s1).
  assert (Hse : setting d s2 l ∅ ∅).
  { split.
    - split; [apply (kmem_write kend _ _ d); try done; tauto| | |by apply zero_pgrep];
        unfold places; change (tpages ∅ ++ upages ∅) with (@nil Z); rewrite app_assoc, <-Permutation_cons_append; constructor; try done.
      + rewrite elem_of_app. tauto.
      + by apply Forall_app.
    - unfold pool. change (tpages ∅) with (@nil Z). by rewrite app_nil_r, <-El.
    - unfold s2. simpl. rewrite <-Hm1. apply (only_same kend d); [done|done|tauto|done]. }
  set (b := kdata / 4096). assert (Hb : kdata = 4096 * b) by (unfold b; zlia). unfold KERNLINK in Hkd. change (P2V PHYSTOP) with 2382364672 in Hkd.
  assert (HV : V2P kdata = 4096 * (b - 524288)) by (unfold V2P, KERNBASE; rewrite u32_small by (unfold W32; lia); lia).
  unfold kmap.
  eapply (wp_setup_entry d s2 l ∅ ∅ 524288 256 _ _ Hse); try done. intros s3 l3 tabs3 ks3 H3 K3.
  eapply (wp_setup_entry d s3 l3 tabs3 ks3 524544 (b - 524544) _ _ H3);
    cbn [km_virt km_phys_start km_phys_end km_perm]; rewrite ?HV; change (V2P KERNLINK) with 1048576;
    [done|rewrite u32_small by (unfold W32; lia); lia|lia|done|done|lia| |done|unfold W32; lia|done|].
  { intros v Hv. rewrite K3. repeat (zcase; simpl); lia || done. }
  intros s4 l4 tabs4 ks4 H4 K4.
  eapply (wp_setup_entry d s4 l4 tabs4 ks4 b (581632 - b) _ _ H4);
    cbn [km_virt km_phys_start km_phys_end km_perm]; rewrite ?HV; change PHYSTOP with 234881024;
    [done|rewrite u32_small by (unfold W32; lia); lia|lia|done|unfold UPN; lia|lia| |lia|unfold W32; lia|zlia|].
  { intros v Hv. rewrite K4, K3. repeat (zcase; simpl); lia || done. }
  intros s5 l5 tabs5 ks5 H5 K5.
  eapply (wp_setup_entry d s5 l5 tabs5 ks5 1040384 8192 _ _ H5); try done.
  { intros v Hv. rewrite K5, K4, K3. repeat (zcase; simpl); lia || done. }
  intros s6 l6 tabs6 ks6 [Hv6 Hp6 Hs6] K6. cbn [setupkvm_loop]. wp_step.
  eapply HQ; [lia|exact Hv6|exact Hp6|exact Hs6|]. intros v. rewrite K6, K5, K4, K3, lookup_empty. unfold kernel_pte. fold b.
  cbn [km_phys_start km_perm]. rewrite ?HV. change (KERNBASE / 4096) with 524288. change (KERNLINK / 4096) with 524544.
  change (P2V PHYSTOP / 4096) with 581632. change (DEVSPACE / 4096) with 1040384. change (V2P KERNLINK) with 1048576. change DEVSPACE with 4261412864.
  repeat (zcase; simpl; try (exfalso; lia)); try done; do 2 f_equal; lia.
Qed.
End setup.
End ops.
