(* ===== verification/VmProps.v ===== *)
(** * Properties of the address spaces

    [allocuvm] grows an address space by pages of zeros or leaves it as it was, [freevm]
    gives every page back, [copyuvm] makes an isolated copy, and [copyout] writes through
    the page table. *)

From S2P Require Import Prelude Mem CString Mmu Spinlock Kalloc Vm VmSpec VmOps.

(** ** Another address space *)

(** The address space of [pd0] whose pages are among the pages [h]. *)
Record other (kend : Z) (m : mem) (h : list Z) (pd0 : Z) (tabs0 us0 ks0 : gmap Z Z) : Prop := mk_other {
  ot_rep : pgrep m pd0 tabs0 us0 ks0;
  ot_pages : pd0 :: tpages tabs0 ++ upages us0 ⊆ h;
  ot_ok : Forall (page_ok kend) h
}.

Section props.
Context (kend : Z) (me : nat).
#[local] Abbreviation vrep := (vrep kend).

Lemma other_same m m' h pd0 tabs0 us0 ks0 : other kend m h pd0 tabs0 us0 ks0 -> same_pages h m m' -> other kend m' h pd0 tabs0 us0 ks0.
Proof.
  intros [O1 O2 O3] Hs. split; [|done|done]. apply (pgrep_ext m); [|done]. eapply same_pages_sub; [|exact Hs]. clear -O2. set_solver.
Qed.

(** Looking up an entry changes nothing. *)
Lemma wp_walk_other s h pd0 tabs0 us0 ks0 va (Q : Z -> kmem -> Prop) :
  other kend (km_mem s) h pd0 tabs0 us0 ks0 -> 0 <= va < W32 ->
  match tabs0 !! (vpn va / 1024) with
  | Some t => t + 4 * (vpn va mod 1024) <> 0 -> load32 (km_mem s) (t + 4 * (vpn va mod 1024)) = default 0 ((us0 ∪ ks0) !! vpn va) ->
      Q (t + 4 * (vpn va mod 1024)) s
  | None => Q 0 s
  end -> wp (walkpgdir me pd0 va false) Q s.
Proof.
  intros [O1 O2 O3] Hva HQ. destruct (vpn_range va Hva) as (_ & Hi & Hj).
  unfold walkpgdir. rewrite PDX_vpn, PTX_vpn by done. unfold ld. wp_step. wp_step. cbn beta. rewrite (pr_pd _ _ _ _ _ O1) by done.
  destruct (tabs0 !! (vpn va / 1024)) as [t|] eqn:Ht.
  - assert (Htok : page_ok kend t).
    { rewrite Forall_forall in O3. apply O3, O2. apply elem_tpages in Ht. clear -Ht. set_solver. }
    destruct (pde_page kend t Htok) as (_ & Hb & Hp & _). unfold page_of in Hp. rewrite Hb, Hp. wp_step. apply HQ.
    + destruct Htok as (Ht0 & _). lia.
    + rewrite (pr_pt _ _ _ _ _ O1 _ _ _ Ht) by done. by rewrite <-vpn_split.
  - change (has_bit 0 PTE_P) with false. cbn [negb]. cbv iota. by wp_step.
Qed.

(** ** [copyuvm] *)

Lemma flags_present e : 0 <= e < W32 -> has_bit e PTE_P = true -> 0 <= PTE_FLAGS e < 4096 /\ Z.lor (PTE_FLAGS e) PTE_P = PTE_FLAGS e.
Proof.
  intros He Hb. rewrite PTE_FLAGS_spec by done. split; [by apply Z.mod_pos_bound|]. rewrite has_bit_P in Hb.
  assert (Ho : Z.testbit (e mod 4096) 0 = true).
  { rewrite Z.bit0_odd. change 4096 with (2 * 2048). rewrite Z.rem_mul_r by lia. rewrite Z.odd_add, Z.odd_mul. simpl.
    rewrite xorb_false_r, Zmod_odd, Hb. done. }
  apply Z.bits_inj'. intros k Hk. rewrite Z.lor_spec. destruct (decide (k = 0)) as [->|]; [by rewrite Ho|].
  unfold PTE_P. rewrite (Z.bits_above_log2 1 k) by (simpl; lia). apply orb_false_r.
Qed.

(** The pages below [n] of [us] hold what those of [us0] hold, with the same permissions. *)
Definition copied (m0 : mem) (us0 : gmap Z Z) (m : mem) (us : gmap Z Z) (n : Z) : Prop := forall v,
  if (0 <=? v) && (v <? n) then exists e0 e, us0 !! v = Some e0 /\ us !! v = Some e /\ PTE_FLAGS e = PTE_FLAGS e0 /\
    forall x, 0 <= x < 4096 -> m (page_of e + x) = m0 (page_of e0 + x)
  else us !! v = None.

Lemma copied_same m0 us0 m m' us n : same_pages (upages us) m m' -> copied m0 us0 m us n -> copied m0 us0 m' us n.
Proof.
  intros Hs Hc v. specialize (Hc v). destruct (_ && _); [|done]. destruct Hc as (e0 & e & H0 & He & Hf & Hx). exists e0, e.
  split_and!; try done. intros x Hr. rewrite (Hs (page_of e)); [auto|by eapply elem_upages|unfold in_page, PGSIZE; lia].
Qed.

Context (Hkend : KERNBASE < kend).

Section child.
Context (kdata : Z) (Hkd4 : kdata mod 4096 = 0) (Hkd : KERNLINK < kdata < P2V PHYSTOP).

Section copy.
Context (m0 : mem) (h l0 : list Z) (pd0 : Z) (tabs0 us0 ks0 : gmap Z Z) (sz : Z).
Context (Hpar : other kend m0 h pd0 tabs0 us0 ks0) (Hsz : sz <= KERNBASE).
Context (Hmapped : forall v, 0 <= v -> 4096 * v < sz -> is_Some (us0 !! v)).

(** The child [d] with [n] pages copied. *)
Record copying (d n : Z) (s : kmem) (l : list Z) (tabs us ks : gmap Z Z) : Prop := mk_copying {
  co_rep : vrep s h l d tabs us ks;
  co_copied : copied m0 us0 (km_mem s) us n;
  co_same : same_pages h m0 (km_mem s);
  co_stock : d :: stock l tabs us ≡ₚ l0;
  co_count : Z.of_nat (length (upages us)) = n;
  co_kern v : ks !! v = kernel_pte kdata v
}.

(** The child is given up. *)
Definition gave_up (s : kmem) : Prop :=
  (exists l', krep kend s h l' /\ l' ≡ₚ l0) /\ same_pages h m0 (km_mem s) /\
  Z.of_nat (length l0) <= 1026 + (sz + 4095) / 4096.

Lemma wp_give_up d n s h' tabs us ks (Q : Z -> kmem -> Prop) :
  vrep s h h' d tabs us ks -> same_pages h m0 (km_mem s) -> d :: stock h' tabs us ≡ₚ l0 -> (length h' <= 1)%nat ->
  Z.of_nat (length (upages us)) = n -> 4096 * n < sz ->
  (forall s', gave_up s' -> Q 0 s') -> wp (freevm kend me d ;;; ret 0) Q s.
Proof.
  intros Hv Hs Hst Hh Hn Hlt HQ. wp_step. apply (wp_freevm kend me Hkend s h h' d tabs us ks _ Hv). intros l' s' Hpm Hk Hs'. wp_step.
  apply HQ. split; [exists l'; split; [done|by rewrite Hpm]|]. split; [by eapply same_pages_trans|].
  rewrite <-Hst. unfold stock. simpl. rewrite !length_app. pose proof (tabs_bound _ _ _ _ _ (vr_rep _ _ _ _ _ _ _ _ Hv)). zlia.
Qed.

(** One more page. *)
Lemma copying_step d n s l tabs us ks e0 p l1 s1 l' tabs' s' :
  copying d n s (p :: l1) tabs us ks -> 0 <= n -> us0 !! n = Some e0 -> vrep s1 (p :: h) l1 d tabs us ks ->
  km_mem s1 = memmove (km_mem s) p (page_of e0) PGSIZE -> l = p :: l1 ->
  pool l' tabs' ≡ₚ pool l1 tabs -> vrep s' h l' d tabs' (<[n := mk_pte (V2P p) (PTE_FLAGS e0)]> us) ks ->
  same_pages (p :: h ++ upages us) (km_mem s1) (km_mem s') ->
  copying d (n + 1) s' l' tabs' (<[n := mk_pte (V2P p) (PTE_FLAGS e0)]> us) ks.
Proof.
  intros [Hv Hc Hs Hst Hcnt Hks] Hn He0 Hv1 Hm1 _ Hpool Hv' Hs'.
  assert (Hnone : us !! n = None).
  { specialize (Hc n). destruct (Z.leb_spec 0 n), (Z.ltb_spec n n); simpl in Hc; try done; lia. }
  destruct (vrep_held _ _ _ _ _ _ _ _ _ Hv1) as (Hp & Hph & _ & _ & _ & Hpu).
  destruct (pr_entry _ _ _ _ _ (ot_rep _ _ _ _ _ _ _ Hpar) n e0) as (_ & Her & Hb); [by apply lookup_union_Some_l|].
  destruct (flags_present e0 Her Hb) as [Hfr Hfl]. destruct (V2P_page kend p Hp) as (Hpa & Hpm4 & HPV).
  destruct (mk_pte_spec (V2P p) (PTE_FLAGS e0) Hpa Hpm4 Hfr) as (_ & _ & _ & _ & Ha & Hfl').
  assert (Hpof : page_of (mk_pte (V2P p) (PTE_FLAGS e0)) = p) by (unfold page_of; by rewrite Ha).
  destruct (vrep_parts _ _ _ _ _ _ _ _ Hv) as (_ & _ & _ & _ & _ & _ & Hok). rewrite !Forall_app in Hok.
  destruct Hok as (Oh & _ & _ & Ou).
  assert (Hs1 : same_pages (h ++ upages us) (km_mem s) (km_mem s1)).
  { rewrite Hm1. apply (only_same kend p); [done|by apply Forall_app|rewrite elem_of_app; tauto|].
    intros x Hx. rewrite memmove_lookup by done. unfold in_page in Hx. repeat (zcase; simpl); lia || done. }
  assert (Hall : same_pages (h ++ upages us) (km_mem s) (km_mem s')).
  { eapply same_pages_trans; [exact Hs1|]. eapply same_pages_sub; [|exact Hs']. intros q Hq. apply elem_of_cons. by right. }
  split; [done| | | | |done].
  - intros v. destruct (decide (v = n)) as [->|Hne].
    + destruct (Z.leb_spec 0 n), (Z.ltb_spec n (n + 1)); try lia. simpl. exists e0, (mk_pte (V2P p) (PTE_FLAGS e0)).
      rewrite lookup_insert_eq, Hpof. split_and!; [done|done|congruence|]. intros x Hx.
      rewrite (Hs' p); [|apply elem_of_cons; by left|unfold in_page, PGSIZE; lia].
      rewrite Hm1, memmove_lookup by done. unfold PGSIZE. repeat (zcase; simpl); try lia.
      replace (page_of e0 + (p + x - p)) with (page_of e0 + x) by lia. apply (Hs (page_of e0)); [|unfold in_page, PGSIZE; lia].
      apply (ot_pages _ _ _ _ _ _ _ Hpar). apply elem_upages in He0. clear -He0. set_solver.
    + rewrite lookup_insert_ne by done.
      assert (Hc' : copied m0 us0 (km_mem s') us n).
      { eapply copied_same; [|exact Hc]. eapply same_pages_sub; [|exact Hall]. intros q Hq. apply elem_of_app. by right. }
      specialize (Hc' v). destruct (Z.leb_spec 0 v), (Z.ltb_spec v n), (Z.ltb_spec v (n + 1)); simpl in *; try done; lia.
  - eapply same_pages_trans; [exact Hs|]. eapply same_pages_sub; [|exact Hall]. clear. set_solver.
  - rewrite <-Hst. f_equiv. unfold stock, pool in *. rewrite upages_insert, Hpof by done. rewrite (app_assoc l'), Hpool.
    rewrite <-Permutation_middle, <-app_assoc. done.
  - rewrite upages_insert by done. simpl. lia.
Qed.

Lemma wp_copyuvm_loop d (Q : Z -> kmem -> Prop) :
  (forall n s l tabs us ks, copying d n s l tabs us ks -> n = (sz + 4095) / 4096 \/ n = 0 /\ sz <= 0 -> Q d s) ->
  (forall s', gave_up s' -> Q 0 s') ->
  forall fuel n s l tabs us ks, copying d n s l tabs us ks -> 0 <= n -> 4096 * n < sz + 4096 \/ n = 0 ->
  sz <= 4096 * (n + Z.of_nat fuel) -> wp (copyuvm_loop kend me fuel pd0 d (4096 * n) sz) Q s.
Proof.
  intros HQ HQ0. pose proof Hsz as Hsz'. unfold KERNBASE in Hsz'.
  induction fuel as [|fuel IH]; intros n s l tabs us ks Hco Hn Hnb Hf; cbn [copyuvm_loop];
    (destruct (Z.ltb_spec (4096 * n) sz) as [Hlt|Hge];
      [|wp_step; eapply HQ; [exact Hco|]; clear -Hge Hnb Hn; destruct Hnb as [?|?]; zlia]); [lia|].
  pose proof Hco as [Hv Hc Hs Hst Hcnt Hks]. pose proof (other_same _ _ _ _ _ _ _ Hpar Hs) as Hpar'.
  destruct (Hmapped n Hn Hlt) as [e0 He0].
  assert (Hu0 : (us0 ∪ ks0) !! n = Some e0) by (by apply lookup_union_Some_l).
  destruct (pr_entry _ _ _ _ _ (ot_rep _ _ _ _ _ _ _ Hpar) n e0 Hu0) as ([t Ht] & Her & Hb).
  destruct (flags_present e0 Her Hb) as [Hfr _].
  wp_step. apply (wp_walk_other s h pd0 tabs0 us0 ks0); [done|unfold W32; lia|]. rewrite vpn_page, Ht. intros Hnz Hld.
  destruct (Z.eqb_spec (t + 4 * (n mod 1024)) 0) as [|_]; [done|]. unfold ld. wp_step. wp_step. cbn beta.
  rewrite Hld, Hu0. cbn [from_option]. unfold id. rewrite Hb. cbn [negb]. cbv iota. wp_step.
  apply (wp_kalloc_v kend me s h l d tabs us ks _ Hv). destruct l as [|p l1].
  { cbn [Z.eqb]. by apply (wp_give_up d n s [] tabs us ks); [..|simpl; lia| | |]. }
  intros s1 Hv1 Hm1 Hp0. destruct (Z.eqb_spec p 0) as [|_]; [done|]. unfold copy. wp_step. wp_step. cbn beta.
  fold (page_of e0). destruct (vrep_held _ _ _ _ _ _ _ _ _ Hv1) as (Hp & _).
  assert (Hof : only_page p (km_mem s1) (memmove (km_mem s1) p (page_of e0) PGSIZE)).
  { intros x Hx. rewrite memmove_lookup by done. unfold in_page in Hx. repeat (zcase; simpl); lia || done. }
  destruct (vrep_write _ _ _ _ _ _ _ _ _ _ Hv1 Hof) as [Hv2 Hs2]. rewrite Hm1 in Hs2 at 1.
  assert (Hnone : us !! n = None).
  { specialize (Hc n). destruct (Z.leb_spec 0 n), (Z.ltb_spec n n); simpl in Hc; try done; lia. }
  wp_step. apply (wp_map_page _ _ _ _ _ _ _ _ _ _ _ _ _ Hv2); [unfold UPN; lia|done|done| |].
  - intros l' tabs' s' Hpool _ Hv' Hs'. cbn [Z.ltb Z.compare]. change PGSIZE with 4096. rewrite u32_small by (unfold W32; lia).
    replace (4096 * n + 4096) with (4096 * (n + 1)) by lia. eapply (IH (n + 1) s' l'); [|lia|lia|lia].
    eapply (copying_step d n s _ _ _ _ e0 p l1); [exact Hco|done|done|exact Hv2| |done|exact Hpool|exact Hv'|exact Hs'].
    cbn [km_mem km_set_mem]. by rewrite Hm1.
  - intros ->. change (-1 <? 0) with true. cbv iota. wp_step. apply (wp_kfree_v _ _ _ _ _ _ _ _ _ _ _ Hv2). intros s3 Hv3 Hs3.
    apply (wp_give_up d n s3 [p] tabs us ks); try done.
    eapply same_pages_trans; [exact Hs|]. eapply same_pages_trans; (eapply same_pages_sub; [|eassumption]); clear; set_solver.
Qed.
End copy.

(** C17: [copyuvm] gives a child that has the parent's first [sz] bytes in pages of its own, with
    the parent's permissions, and the kernel's mappings, and leaves the parent alone; when
    memory runs out it returns 0 and every page it took is free again, and it cannot fail
    while more than [1026] pages and a page for each page of the parent are free. *)
Theorem copyuvm_isolated s h l pd0 tabs0 us0 ks0 sz :
  krep kend s h l -> other kend (km_mem s) h pd0 tabs0 us0 ks0 -> 0 <= sz <= KERNBASE ->
  (forall v, 0 <= v -> 4096 * v < sz -> is_Some (us0 !! v)) ->
  wp (copyuvm kend kdata me pd0 sz) (fun d s' =>
    same_pages h (km_mem s) (km_mem s') /\
    (d = 0 /\ (exists l', krep kend s' h l' /\ l' ≡ₚ l) /\ Z.of_nat (length l) <= 1026 + (sz + 4095) / 4096 \/
     exists l' tabs us ks, vrep s' h l' d tabs us ks /\ d :: stock l' tabs us ≡ₚ l /\
       copied (km_mem s) us0 (km_mem s') us ((sz + 4095) / 4096) /\ forall v, ks !! v = kernel_pte kdata v)) s.
Proof.
  intros Hk Hpar Hsz Hmap. unfold copyuvm. wp_step.
  apply (wp_setupkvm kend me Hkend kdata Hkd4 Hkd s h l); [|done|].
  - intros l' s' Hk' Hpm Hs' Hlen. cbn [Z.eqb]. wp_step. split; [done|]. left. split_and!; [done|eauto|zlia].
  - intros d l' tabs ks s' Hd Hv Hpm Hs' Hks. destruct (Z.eqb_spec d 0) as [|_]; [done|].
    apply (wp_copyuvm_loop (km_mem s) h l pd0 tabs0 us0 ks0 sz Hpar ltac:(lia) Hmap d) with (n := 0) (l := l') (tabs := tabs) (us := ∅) (ks := ks).
    + intros n s2 l2 tabs2 us2 ks2 [Hv2 Hc Hs2 Hst2 _ Hks2] Hn. split; [done|]. right. exists l2, tabs2, us2, ks2.
      replace ((sz + 4095) / 4096) with n by (clear -Hn Hsz; zlia). done.
    + intros s2 ((l2 & Hk2 & Hpm2) & Hs2 & Hlen). split; [done|]. left. eauto.
    + split; [done| |done| |done|done].
      * intros v. by destruct (Z.leb_spec 0 v), (Z.ltb_spec v 0); simpl; try lia.
      * unfold stock. change (upages ∅) with (@nil Z). by rewrite app_nil_r.
    + lia.
    + by right.
    + unfold PGSIZE. zlia.
Qed.

End child.

(** ** Growth and release *)


(** C19: [freevm] puts the user pages, the page tables and the page directory on the free list,
    each once, whatever is mapped, and touches no page in use elsewhere. *)
Theorem freevm_frees s h l pd tabs us ks : vrep s h l pd tabs us ks ->
  wp (freevm kend me pd) (fun _ s' => exists l', krep kend s' h l' /\ l' ≡ₚ pd :: stock l tabs us /\
    same_pages h (km_mem s) (km_mem s')) s.
Proof. intros Hv. apply (wp_freevm kend me Hkend s h l pd tabs us ks); [done|]. eauto. Qed.

(** ** [copyout] *)

(** The byte that the user sees at [a]. *)
Definition uget (m : mem) (us : gmap Z Z) (a : Z) : option Z := (fun e => m (page_of e + a mod 4096)) <$> us !! (a / 4096).

Definition user_page (us : gmap Z Z) (v : Z) : Prop := exists e, us !! v = Some e /\ has_bit e PTE_U = true.

Lemma upages_inj us n1 n2 e1 e2 : NoDup (upages us) -> us !! n1 = Some e1 -> us !! n2 = Some e2 -> page_of e1 = page_of e2 -> n1 = n2.
Proof.
  intros Hnd H1 H2 E. destruct (decide (n1 = n2)) as [|Hne]; [done|]. rewrite (upages_delete _ _ _ H1) in Hnd.
  apply NoDup_cons in Hnd as [Hn _]. destruct Hn. rewrite E. apply (elem_upages _ n2). by rewrite lookup_delete_ne.
Qed.

Lemma other_upage m h pd tabs us ks n e : other kend m h pd tabs us ks -> us !! n = Some e -> page_ok kend (page_of e).
Proof.
  intros [_ Hp Ho] He. rewrite Forall_forall in Ho. apply Ho, Hp. apply elem_upages in He. clear -He. set_solver.
Qed.

Lemma uget_write m h pd tabs us ks n e m' o c f : other kend m h pd tabs us ks -> NoDup (upages us) -> us !! n = Some e ->
  0 <= o -> o + c <= 4096 -> (forall x, m' x = if (page_of e + o <=? x) && (x <? page_of e + o + c) then f x else m x) ->
  forall a, uget m' us a = if (4096 * n + o <=? a) && (a <? 4096 * n + o + c) then Some (f (page_of e + a mod 4096)) else uget m us a.
Proof.
  intros Ho Hnd He H0 Hc Hm a. unfold uget. destruct (us !! (a / 4096)) as [e'|] eqn:E; simpl.
  - rewrite Hm. pose proof (other_upage _ _ _ _ _ _ _ _ Ho He) as Hp. pose proof (other_upage _ _ _ _ _ _ _ _ Ho E) as Hp'.
    pose proof (Z.mod_pos_bound a 4096 ltac:(lia)) as Hmod. destruct (decide (a / 4096 = n)) as [En|Hne].
    + assert (e' = e) as -> by congruence. assert (a = 4096 * n + a mod 4096) by zlia. repeat (zcase; simpl); lia || done.
    + assert (page_of e' <> page_of e) as Hpe by (intros Epg; apply Hne; by eapply upages_inj).
      destruct Hp as (_ & Hp & _), Hp' as (_ & Hp' & _). unfold PGSIZE in *.
      destruct (Z.leb_spec (4096 * n + o) a), (Z.ltb_spec a (4096 * n + o + c)); try (exfalso; apply Hne; zlia);
      destruct (Z.leb_spec (page_of e + o) (page_of e' + a mod 4096)), (Z.ltb_spec (page_of e' + a mod 4096) (page_of e + o + c)); simpl; try done; zlia.
  - destruct (Z.leb_spec (4096 * n + o) a), (Z.ltb_spec a (4096 * n + o + c)); simpl; try done.
    assert (a / 4096 = n) by zlia. congruence.
Qed.

Lemma vrep_other s h l pd tabs us ks : vrep s h l pd tabs us ks ->
  other kend (km_mem s) (pd :: tpages tabs ++ upages us) pd tabs us ks /\ NoDup (upages us).
Proof.
  intros Hv. destruct (vrep_parts _ _ _ _ _ _ _ _ Hv) as (Hpd & _ & _ & _ & _ & _ & Ho). destruct Hv as [_ Hn _ Hr].
  rewrite !Forall_app in Ho. destruct Ho as (_ & _ & Ot & Ou). unfold places in Hn.
  apply NoDup_app in Hn as (_ & _ & Hn). apply NoDup_app in Hn as (_ & _ & Hn). apply NoDup_cons in Hn as [_ Hn].
  apply NoDup_app in Hn as (_ & _ & Hn). split; [|done]. split; [done|done|]. constructor; [done|]. by apply Forall_app.
Qed.

(** A write into a user page. *)
Lemma vrep_user_write s h l pd tabs us ks n e m' : vrep s h l pd tabs us ks -> us !! n = Some e ->
  only_page (page_of e) (km_mem s) m' -> vrep (km_set_mem m' s) h l pd tabs us ks.
Proof.
  intros Hv He Hm. destruct (vrep_user _ _ _ _ _ _ _ _ _ _ Hv He) as (Hp & _ & Hpl & Hpd & Hpt & _).
  destruct (vrep_parts _ _ _ _ _ _ _ _ Hv) as (Hpdok & _ & _ & _ & _ & _ & Ho). rewrite !Forall_app in Ho.
  eapply places_perm; [exact Hv|by apply (kmem_write kend _ _ (page_of e)); [apply Hv|..]|done|].
  apply (pgrep_ext (km_mem s)); [|apply Hv]. apply (only_same kend (page_of e)); [done|constructor; tauto| |done].
  rewrite elem_of_cons. tauto.
Qed.

Lemma wp_uva2ka s h l pd tabs us ks n e (Q : Z -> kmem -> Prop) : vrep s h l pd tabs us ks -> 0 <= n < UPN ->
  us !! n = Some e -> has_bit e PTE_U = true -> Q (page_of e) s -> wp (uva2ka me pd (4096 * n)) Q s.
Proof.
  intros Hv Hn He HU HQ. destruct (vrep_other _ _ _ _ _ _ _ Hv) as [Ho _]. unfold UPN in Hn.
  assert (Hu : (us ∪ ks) !! n = Some e) by (by apply lookup_union_Some_l).
  destruct (pr_entry _ _ _ _ _ (ot_rep _ _ _ _ _ _ _ Ho) n e Hu) as ([t Ht] & _ & Hb).
  unfold uva2ka. wp_step. apply (wp_walk_other _ _ _ _ _ _ _ _ Ho); [unfold W32; lia|]. rewrite vpn_page, Ht. intros Hnz Hld.
  destruct (Z.eqb_spec (t + 4 * (n mod 1024)) 0) as [|_]; [done|]. unfold ld. wp_step. wp_step. cbn beta.
  rewrite Hld, Hu. cbn [from_option]. unfold id. rewrite Hb, HU. cbn [negb]. cbv iota. by wp_step.
Qed.

(** The memory after the bytes [src] are stored at the user address [va]. *)
Definition stored (m m' : mem) (us : gmap Z Z) (va : Z) (src : list Z) : Prop :=
  (forall a, uget m' us a = if (va <=? a) && (a <? va + Z.of_nat (length src)) then src !! Z.to_nat (a - va) else uget m us a) /\
  forall x, (forall p, p ∈ upages us -> ~ in_page p x) -> m' x = m x.

Lemma wp_copyout_loop h l pd tabs us ks : forall fuel va src s (Q : Z -> kmem -> Prop),
  vrep s h l pd tabs us ks -> 0 <= va -> va + Z.of_nat (length src) <= KERNBASE ->
  va mod 4096 + Z.of_nat (length src) <= 4096 * Z.of_nat fuel ->
  (forall a, va <= a < va + Z.of_nat (length src) -> user_page us (a / 4096)) ->
  (forall s', vrep s' h l pd tabs us ks -> stored (km_mem s) (km_mem s') us va src -> Q 0 s') ->
  wp (copyout_loop me fuel pd va src) Q s.
Proof.
  induction fuel as [|fuel IH]; intros va src s Q Hv Hva Hk Hf Hup HQ; cbn [copyout_loop]; cbv zeta;
    (destruct (Z.ltb_spec 0 (Z.of_nat (length src))) as [Hlt|Hge];
      [|wp_step; apply HQ; [done|]; split; [intros a; repeat (zcase; simpl); lia || done|done]]).
  { pose proof (Z.mod_pos_bound va 4096). lia. }
  unfold KERNBASE in Hk. destruct (Hup va ltac:(lia)) as (e & He & HU). destruct (vrep_other _ _ _ _ _ _ _ Hv) as [Ho Hnd].
  set (n := va / 4096) in *. set (o := va mod 4096) in *. set (len := Z.of_nat (length src)) in *.
  assert (Eva : va = 4096 * n + o) by (unfold n, o; zlia). assert (Hor : 0 <= o < 4096) by (unfold o; zlia).
  replace (PGROUNDDOWN va) with (4096 * n) by (rewrite Eva, PGROUNDDOWN_page; unfold n; zlia).
  wp_step. apply (wp_uva2ka _ _ _ _ _ _ _ _ _ _ Hv) with (2 := He); [unfold UPN, n; zlia|done|].
  pose proof (other_upage _ _ _ _ _ _ _ _ Ho He) as (Hp0 & _).
  destruct (Z.eqb_spec (page_of e) 0) as [|_]; [lia|]. replace (va - 4096 * n) with o by lia. change PGSIZE with 4096.
  rewrite (u32_small (4096 - o)), (u32_small (4096 * n + 4096)) by (unfold W32, n; zlia). set (c := Z.min (4096 - o) len).
  wp_step. wp_step. cbn beta. set (m' := store_bytes _ _ _).
  assert (Htk : Z.of_nat (length (take (Z.to_nat c) src)) = c) by (rewrite length_take; unfold len in *; lia).
  assert (Hdr : Z.of_nat (length (drop (Z.to_nat c) src)) = len - c) by (rewrite length_drop; unfold len in *; lia).
  assert (Hmm : forall x, m' x = if (page_of e + o <=? x) && (x <? page_of e + o + c)
    then default 0 (src !! Z.to_nat (x - (page_of e + o))) else km_mem s x).
  { intros x. unfold m', store_bytes. rewrite Htk. destruct (Z.leb_spec (page_of e + o) x), (Z.ltb_spec x (page_of e + o + c)); simpl; try done.
    rewrite lookup_take_lt by lia. done. }
  assert (Hof : only_page (page_of e) (km_mem s) m').
  { intros x Hx. rewrite Hmm. unfold in_page, PGSIZE in Hx. repeat (zcase; simpl); lia || done. }
  pose proof (uget_write _ _ _ _ _ _ _ _ _ o c _ Ho Hnd He ltac:(lia) ltac:(lia) Hmm) as Hget.
  apply IH with (1 := vrep_user_write _ _ _ _ _ _ _ _ _ _ Hv He Hof); rewrite ?Hdr.
  - lia.
  - unfold KERNBASE. destruct (Z.min_spec (4096 - o) len) as [[? E]|[? E]]; fold c in E; lia.
  - replace ((4096 * n + 4096) mod 4096) with 0 by zlia. lia.
  - intros a Ha. apply Hup. lia.
  - intros s' Hv' [Hg' Hr']. apply HQ; [done|]. cbn [km_mem km_set_mem] in *. fold m' in Hg', Hr'. split.
    + intros a. rewrite Hg', Hget, Hdr. fold len.
      assert (Hb : c < len -> va + c = 4096 * n + 4096) by lia.
      destruct (Z.leb_spec va a), (Z.ltb_spec a (va + len)), (Z.leb_spec (4096 * n + 4096) a), (Z.ltb_spec a (4096 * n + 4096 + (len - c))),
        (Z.leb_spec (4096 * n + o) a), (Z.ltb_spec a (4096 * n + o + c)); simpl; try (exfalso; lia); try done.
      * rewrite lookup_drop. f_equal. lia.
      * assert (a mod 4096 = a - 4096 * n) as Em by (clear -H H3 H4 Hor Eva; zlia). rewrite Em.
        replace (Z.to_nat (page_of e + (a - 4096 * n) - (page_of e + o))) with (Z.to_nat (a - va)) by lia.
        destruct (lookup_lt_is_Some_2 src (Z.to_nat (a - va))) as [x ->]; [unfold len in *; lia|]. done.
    + intros x Hx. rewrite Hr' by done. apply Hof, Hx. by eapply elem_upages.
Qed.

(** [copyout] to a range of user addresses that are mapped for the user stores exactly the
    bytes of the buffer, at every user address of the range, across page boundaries, and
    changes nothing else. *)
Theorem copyout_stores s h l pd tabs us ks va src :
  vrep s h l pd tabs us ks -> 0 <= va -> va + Z.of_nat (length src) <= KERNBASE ->
  (forall a, va <= a < va + Z.of_nat (length src) -> user_page us (a / 4096)) ->
  wp (copyout me pd va src) (fun r s' => r = 0 /\ vrep s' h l pd tabs us ks /\
    stored (km_mem s) (km_mem s') us va src) s.
Proof.
  intros Hv Hva Hk Hup. unfold copyout. apply (wp_copyout_loop h l pd tabs us ks) with (1 := Hv); try done.
  unfold PGSIZE. zlia.
Qed.
End props.

(** ** A small address space

    A page directory, one page table and one user page, and two free pages. *)

Definition pg (k : Z) : Z := 2151677952 + 4096 * k.
Definition demo_kend : Z := 2148622336.
Definition demo_e : Z := mk_pte (V2P (pg 2)) (Z.lor PTE_W PTE_U).
Definition demo_free : mem := store32 (fun _ => 0) (pg 3) (pg 4).
Definition demo_dir : mem := store32 demo_free (pg 0 + 4 * 0) (V2P (pg 1) + 7).
Definition demo_kmem : kmem := mk_kmem (store32 demo_dir (pg 1 + 4 * 0) demo_e) initlock true (pg 3).
Definition demo_tabs : gmap Z Z := {[0 := pg 1]}.
Definition demo_us : gmap Z Z := {[0 := demo_e]}.

#[local] Instance pg_inj : Inj eq eq pg.
Proof. intros a b. unfold pg. lia. Qed.

Lemma pg_ok k : 0 <= k < 100 -> page_ok demo_kend (pg k).
Proof.
  intros Hk. unfold page_ok, pg, demo_kend, V2P, PHYSTOP, KERNBASE, PGSIZE. rewrite u32_small by (unfold W32; lia).
  unfold W32. split_and!; try lia. zlia.
Qed.
Lemma pgs_ok ks : Forall (fun k => 0 <= k < 100) ks -> Forall (page_ok demo_kend) (pg <$> ks).
Proof. intros Hk. apply Forall_fmap. eapply Forall_impl; [exact Hk|]. intros k. apply pg_ok. Qed.

Lemma demo_rep : pgrep (km_mem demo_kmem) (pg 0) demo_tabs demo_us ∅.
Proof.
  assert (Ok : Forall (page_ok demo_kend) (tpages demo_tabs)) by (change (tpages demo_tabs) with (pg <$> [1]); apply pgs_ok; by apply Forall_singleton).
  assert (Nd : pg 0 ∉ tpages demo_tabs) by (change (pg 0 ∉ [pg 1]); set_solver).
  assert (R1 : pgrep demo_dir (pg 0) demo_tabs ∅ ∅).
  { apply (pgrep_tab demo_kend demo_free (pg 0) ∅ ∅ ∅ 0 (pg 1));
      [|by apply pg_ok|by apply pg_ok|constructor|done|apply not_elem_of_nil|done|done|].
    - apply zero_pgrep. intros x Hx. unfold demo_free. rewrite store32_ne by (unfold pg, in_page, PGSIZE in *; lia). done.
    - intros x Hx. unfold demo_free. rewrite store32_ne by (unfold pg, in_page, PGSIZE in *; lia). done. }
  apply (pgrep_entry demo_kend _ _ _ ∅ ∅ _ _ 0); try (by apply pg_ok); try done.
  - apply NoDup_singleton.
  - intros k Hk. rewrite !map_union_empty. unfold demo_us. rewrite lookup_singleton_ne by lia. done.
  - unfold demo_us. intros n x Hx. apply lookup_singleton_Some in Hx as [<- _]. done.
Qed.

Lemma demo_vrep : vrep demo_kend demo_kmem [] [pg 3; pg 4] (pg 0) demo_tabs demo_us ∅.
Proof.
  split; [split; [by vm_compute| | |done]| | |apply demo_rep].
  - change [pg 3; pg 4] with (pg <$> [3; 4]). apply (NoDup_fmap_2 pg). by apply (bool_decide_unpack _).
  - change [pg 3; pg 4] with (pg <$> [3; 4]). apply pgs_ok. repeat constructor; lia.
  - change (places _ _ _ _ _) with (pg <$> [3; 4; 0; 1; 2]). apply (NoDup_fmap_2 pg). by apply (bool_decide_unpack _).
  - change (places _ _ _ _ _) with (pg <$> [3; 4; 0; 1; 2]). apply pgs_ok. repeat constructor; lia.
Qed.

Lemma demo_mapped v : 0 <= v -> 4096 * v < 4096 -> v = 0.
Proof. lia. Qed.


Lemma freevm_frees_witness :
  wp (freevm demo_kend 0 (pg 0)) (fun _ s' => exists l', krep demo_kend s' [] l' /\ l' ≡ₚ pg <$> [0; 1; 2; 3; 4]) demo_kmem.
Proof.
  eapply wp_mono; [apply (freevm_frees demo_kend 0 ltac:(done) demo_kmem [] [pg 3; pg 4] (pg 0) demo_tabs demo_us ∅ demo_vrep)|].
  intros _ s' (l' & Hk & Hp & _). exists l'. split; [done|]. rewrite Hp.
  change (pg <$> [0; 1; 2; 3; 4]) with (pg <$> ([0] ++ [1; 2] ++ [3; 4])). rewrite (Permutation_app_comm [1; 2] [3; 4]). done.
Defined.

Lemma copyuvm_isolated_witness :
  wp (copyuvm demo_kend 2148630528 0 (pg 0) 4096) (fun d s' =>
    same_pages (pg <$> [0; 1; 2]) (km_mem demo_kmem) (km_mem s')) demo_kmem.
Proof.
  eapply wp_mono.
  - apply (copyuvm_isolated demo_kend 0 ltac:(done) 2148630528 ltac:(done) ltac:(done) demo_kmem (pg <$> [0; 1; 2]) (pg <$> [3; 4])
      (pg 0) demo_tabs demo_us ∅ 4096); [| |unfold KERNBASE; lia|].
    + apply (vrep_krep _ _ _ _ _ _ _ _ demo_vrep).
    + apply (vrep_other _ _ _ _ _ _ _ _ demo_vrep).
    + intros v H0 Hv. rewrite (demo_mapped v H0 Hv). by exists demo_e.
  - by intros d s' [Hs _].
Defined.

Lemma copyout_stores_witness :
  wp (copyout 0 (pg 0) 10 [7; 8; 9]) (fun r s' => r = 0 /\ uget (km_mem s') demo_us 11 = Some 8) demo_kmem.
Proof.
  eapply wp_mono.
  - apply (copyout_stores demo_kend 0 demo_kmem [] [pg 3; pg 4] (pg 0) demo_tabs demo_us ∅ 10 [7; 8; 9]);
      [apply demo_vrep|lia|unfold KERNBASE; simpl; lia|].
    intros a Ha. replace (a / 4096) with 0 by (simpl in Ha; zlia). by exists demo_e.
  - intros r s' (-> & _ & Hg & _). split; [done|]. by rewrite Hg.
Defined.
