(* ===== verification/Seg.v ===== *)
(** * Segments, gates and the switch of address spaces

    The descriptor formats of [src/xv6/mmu.h], the segment and task registers that
    [seginit], [switchuvm] and [switchkvm] of [src/xv6/vm.c] load, and the interrupt
    descriptor table of [tvinit] in [src/xv6/trap.c].  [lgdt], [lidt], [ltr] and [lcr3] of
    x86.h set the registers of the CPU that runs, [hw].  The addresses of the tables are
    chosen by the linker and are arguments. *)

From S2P Require Import Prelude Mem Mmu Spinlock Kalloc Vm.

Definition SEG_KCODE : Z := 1.
Definition SEG_KDATA : Z := 2.
Definition SEG_UCODE : Z := 3.
Definition SEG_UDATA : Z := 4.
Definition SEG_TSS : Z := 5.
Definition NSEGS : nat := 6.
Definition DPL_USER : Z := 3.
Definition STA_X : Z := 8.
Definition STA_W : Z := 2.
Definition STA_R : Z := 2.
Definition STS_T32A : Z := 9.
Definition STS_IG32 : Z := 14.
Definition STS_TG32 : Z := 15.

Record segdesc : Type := mk_segdesc {
  lim_15_0 : Z; base_15_0 : Z; base_23_16 : Z; sd_type : Z; sd_s : Z; sd_dpl : Z; sd_p : Z;
  lim_19_16 : Z; sd_avl : Z; sd_rsv1 : Z; sd_db : Z; sd_g : Z; base_31_24 : Z
}.
Definition no_seg : segdesc := mk_segdesc 0 0 0 0 0 0 0 0 0 0 0 0 0.

Definition SEG (type base lim dpl : Z) : segdesc :=
  mk_segdesc (Z.land (Z.shiftr lim 12) 0xffff) (Z.land (u32 base) 0xffff)
    (Z.land (Z.shiftr (u32 base) 16) 0xff) type 1 dpl 1
    (Z.shiftr (u32 lim) 28) 0 0 1 1 (Z.shiftr (u32 base) 24).
Definition SEG16 (type base lim dpl : Z) : segdesc :=
  mk_segdesc (Z.land lim 0xffff) (Z.land (u32 base) 0xffff)
    (Z.land (Z.shiftr (u32 base) 16) 0xff) type 1 dpl 1
    (Z.shiftr (u32 lim) 16) 0 0 1 0 (Z.shiftr (u32 base) 24).
Definition sd_set_s (x : Z) (d : segdesc) : segdesc :=
  mk_segdesc (lim_15_0 d) (base_15_0 d) (base_23_16 d) (sd_type d) x (sd_dpl d) (sd_p d)
    (lim_19_16 d) (sd_avl d) (sd_rsv1 d) (sd_db d) (sd_g d) (base_31_24 d).

Record gatedesc : Type := mk_gatedesc {
  off_15_0 : Z; gd_cs : Z; gd_args : Z; gd_rsv1 : Z; gd_type : Z; gd_s : Z; gd_dpl : Z; gd_p : Z; off_31_16 : Z
}.
Definition SETGATE (istrap : bool) (sel off d : Z) : gatedesc :=
  mk_gatedesc (Z.land (u32 off) 0xffff) sel 0 0 (if istrap then STS_TG32 else STS_IG32) 0 d 1
    (Z.shiftr (u32 off) 16).

(** The fields of [struct taskstate] that the kernel sets, and its size. *)
Record taskstate : Type := mk_ts { ts_esp0 : Z; ts_ss0 : Z; ts_iomb : Z }.
Definition TSSIZE : Z := 104.

(** The tables and registers of one CPU. *)
Record hw : Type := mk_hw {
  hw_gdt : list segdesc;        (* c->gdt *)
  hw_ts : taskstate;            (* c->ts *)
  hw_gdtr : option (Z * Z);     (* lgdt: base and limit *)
  hw_idtr : option (Z * Z);     (* lidt *)
  hw_tr : Z;                    (* ltr *)
  hw_cr3 : Z                    (* lcr3 *)
}.
Definition hw_set_gdt x h := mk_hw x (hw_ts h) (hw_gdtr h) (hw_idtr h) (hw_tr h) (hw_cr3 h).
Definition hw_set_ts x h := mk_hw (hw_gdt h) x (hw_gdtr h) (hw_idtr h) (hw_tr h) (hw_cr3 h).
Definition lgdt (p size : Z) h := mk_hw (hw_gdt h) (hw_ts h) (Some (p, u16 (size - 1))) (hw_idtr h) (hw_tr h) (hw_cr3 h).
Definition lidt (p size : Z) h := mk_hw (hw_gdt h) (hw_ts h) (hw_gdtr h) (Some (p, u16 (size - 1))) (hw_tr h) (hw_cr3 h).
Definition ltr (sel : Z) h := mk_hw (hw_gdt h) (hw_ts h) (hw_gdtr h) (hw_idtr h) sel (hw_cr3 h).
Definition lcr3 (val : Z) h := mk_hw (hw_gdt h) (hw_ts h) (hw_gdtr h) (hw_idtr h) (hw_tr h) val.

(** [c->gdt[i] = d] *)
Definition set_seg (i : Z) (d : segdesc) (h : hw) : hw := hw_set_gdt (<[Z.to_nat i := d]> (hw_gdt h)) h.

(** The state of [vm.c]: the pages, [kpgdir] and the registers of the CPU. *)
Record mach : Type := mk_mach { m_hw : nat -> hw; m_kpgdir : Z }.
Definition on_hw (c : nat) (f : hw -> hw) : M mach unit :=
  modify (fun m => mk_mach (fupd (m_hw m) c (f (m_hw m c))) (m_kpgdir m)).

(** The CPU whose registers are [h], all others as in [h0]. *)
Definition cpu_is (h0 : nat -> hw) (me : nat) (h : hw) (s : mach) : Prop :=
  m_hw s me = h /\ forall c, c <> me -> m_hw s c = h0 c.

Lemma wp_on_hw h0 me h f (Q : unit -> mach -> Prop) s :
  cpu_is h0 me h s -> (forall s', cpu_is h0 me (f h) s' -> Q tt s') -> wp (on_hw me f) Q s.
Proof.
  intros [E O] HQ. apply wp_modify, HQ. split; simpl; [by rewrite fupd_eq, E|]. intros c Hc. rewrite fupd_ne by done. auto.
Qed.

Section seg.
Context (me : nat) (gdt_addr ts_addr : nat -> Z).

Definition seginit : M mach unit :=
  on_hw me (set_seg SEG_KCODE (SEG (Z.lor STA_X STA_R) 0 0xffffffff 0)) ;;;
  on_hw me (set_seg SEG_KDATA (SEG STA_W 0 0xffffffff 0)) ;;;
  on_hw me (set_seg SEG_UCODE (SEG (Z.lor STA_X STA_R) 0 0xffffffff DPL_USER)) ;;;
  on_hw me (set_seg SEG_UDATA (SEG STA_W 0 0xffffffff DPL_USER)) ;;;
  on_hw me (lgdt (gdt_addr me) (8 * Z.of_nat NSEGS)).

Definition switchkvm : M mach unit :=
  let! m := get in
  on_hw me (lcr3 (V2P (m_kpgdir m))).

(** [p]'s [kstack] and [pgdir]; the [pushcli]/[popcli] pair leaves the CPU as it was. *)
Definition switchuvm (pgdir kstack : Z) : M mach unit :=
  if kstack =? 0 then panic "switchuvm: no kstack"
  else if pgdir =? 0 then panic "switchuvm: no pgdir"
  else
    on_hw me (set_seg SEG_TSS (SEG16 STS_T32A (ts_addr me) (TSSIZE - 1) 0)) ;;;
    on_hw me (fun h => set_seg SEG_TSS (sd_set_s 0 (default no_seg (hw_gdt h !! Z.to_nat SEG_TSS))) h) ;;;
    on_hw me (fun h => hw_set_ts (mk_ts (ts_esp0 (hw_ts h)) (Z.shiftl SEG_KDATA 3) (ts_iomb (hw_ts h))) h) ;;;
    on_hw me (fun h => hw_set_ts (mk_ts (u32 (kstack + 4096)) (ts_ss0 (hw_ts h)) (ts_iomb (hw_ts h))) h) ;;;
    on_hw me (fun h => hw_set_ts (mk_ts (ts_esp0 (hw_ts h)) (ts_ss0 (hw_ts h)) 0xFFFF) h) ;;;
    on_hw me (ltr (Z.shiftl SEG_TSS 3)) ;;;
    on_hw me (lcr3 (V2P pgdir)).
End seg.

(** ** The interrupt descriptor table *)

Definition T_SYSCALL : Z := 64.

(** [vectors] is the table of entry points in the generated [vectors.S]. *)
Definition tvinit (vectors : Z -> Z) : list gatedesc :=
  let idt := (fun i => SETGATE false (Z.shiftl SEG_KCODE 3) (vectors i) 0) <$> seqZ 0 256 in
  <[Z.to_nat T_SYSCALL := SETGATE true (Z.shiftl SEG_KCODE 3) (vectors T_SYSCALL) DPL_USER]> idt.

Definition idtinit (me : nat) (idt_addr : Z) : M mach unit := on_hw me (lidt idt_addr (8 * 256)).

(** ** What the processor makes of a descriptor *)

Definition gate_offset (g : gatedesc) : Z := off_15_0 g + 65536 * off_31_16 g.
Definition seg_base (d : segdesc) : Z := base_15_0 d + 65536 * base_23_16 d + 16777216 * base_31_24 d.
(** The limit, in units of a page when [g] is set. *)
Definition seg_limit (d : segdesc) : Z :=
  let l := lim_15_0 d + 65536 * lim_19_16 d in if sd_g d =? 1 then 4096 * l + 4095 else l.

Lemma split16 x : 0 <= x < W32 -> Z.land x 0xffff + 65536 * Z.shiftr x 16 = x.
Proof.
  intros Hx. change 0xffff with (Z.ones 16). rewrite Z.land_ones, Z.shiftr_div_pow2 by lia. change (2 ^ 16) with 65536. zlia.
Qed.

Lemma gate_offset_SETGATE t sel off d : gate_offset (SETGATE t sel off d) = u32 off.
Proof. unfold gate_offset, SETGATE. simpl. apply split16, u32_range. Qed.

Lemma seg_base_split x : 0 <= x < W32 ->
  Z.land x 0xffff + 65536 * Z.land (Z.shiftr x 16) 0xff + 16777216 * Z.shiftr x 24 = x.
Proof.
  intros Hx. change 0xffff with (Z.ones 16). change 0xff with (Z.ones 8).
  rewrite !Z.land_ones, !Z.shiftr_div_pow2 by lia. change (2 ^ 16) with 65536. change (2 ^ 8) with 256. change (2 ^ 24) with 16777216. zlia.
Qed.

(** The interrupt table sends vector [i] to [vectors i] in the kernel's code segment; only
    the gate of system calls can be used by user code, and only it leaves interrupts on. *)
Theorem tvinit_gates (vectors : Z -> Z) (i : Z) : 0 <= i < 256 ->
  exists g, tvinit vectors !! Z.to_nat i = Some g /\ gate_offset g = u32 (vectors i) /\ gd_cs g = 8 /\ gd_p g = 1 /\
    (gd_dpl g = DPL_USER <-> i = T_SYSCALL) /\ (gd_dpl g = 0 <-> i <> T_SYSCALL) /\ (gd_type g = STS_TG32 <-> i = T_SYSCALL).
Proof.
  intros Hi. unfold tvinit. destruct (decide (i = T_SYSCALL)) as [->|Hne].
  - eexists. rewrite list_lookup_insert_eq by (rewrite length_fmap, length_seqZ; unfold T_SYSCALL; lia). split; [done|]. rewrite gate_offset_SETGATE. done.
  - exists (SETGATE false (Z.shiftl SEG_KCODE 3) (vectors i) 0). rewrite list_lookup_insert_ne by (unfold T_SYSCALL in *; lia).
    rewrite list_lookup_fmap, (lookup_seqZ_lt 0 256 (Z.to_nat i)) by lia. simpl. rewrite gate_offset_SETGATE, Z2Nat.id by lia.
    split_and!; done.
Qed.
Lemma tvinit_gates_witness : exists g, tvinit (fun i => i) !! 13%nat = Some g /\ gd_dpl g = 0.
Proof.
  destruct (tvinit_gates (fun i => i) 13 ltac:(lia)) as (g & Hg & _ & _ & _ & _ & Hd & _). exists g. split; [done|]. by apply Hd.
Defined.

(** The segments of [seginit] cover the whole address space, at the privilege of their
    name; [switchuvm] points the task register at the CPU's task state, with the top of the
    process's kernel stack in it, and the page table register at the process's directory. *)
Theorem switchuvm_loads (me : nat) (gdt_addr ts_addr : nat -> Z) (pgdir kstack : Z) (s : mach) :
  length (hw_gdt (m_hw s me)) = NSEGS -> kstack <> 0 -> pgdir <> 0 ->
  wp (seginit me gdt_addr ;;; switchuvm me ts_addr pgdir kstack) (fun _ s' =>
    let h := m_hw s' me in
    hw_cr3 h = V2P pgdir /\ ts_esp0 (hw_ts h) = u32 (kstack + 4096) /\ ts_ss0 (hw_ts h) = 8 * SEG_KDATA /\
    hw_tr h = 8 * SEG_TSS /\ hw_gdtr h = Some (gdt_addr me, 47) /\
    (exists d, hw_gdt h !! Z.to_nat SEG_TSS = Some d /\ seg_base d = u32 (ts_addr me) /\ seg_limit d = TSSIZE - 1 /\ sd_s d = 0 /\ sd_type d = STS_T32A) /\
    (forall i, 1 <= i <= 4 -> exists d, hw_gdt h !! Z.to_nat i = Some d /\ seg_base d = 0 /\ seg_limit d = W32 - 1 /\
       sd_dpl d = (if i <=? 2 then 0 else DPL_USER) /\ (sd_type d = Z.lor STA_X STA_R <-> i = SEG_KCODE \/ i = SEG_UCODE)) /\
    forall c, c <> me -> m_hw s' c = m_hw s c) s.
Proof.
  intros Hlen Hk Hp. unfold seginit, switchuvm. destruct (Z.eqb_spec kstack 0) as [|_]; [done|]. destruct (Z.eqb_spec pgdir 0) as [|_]; [done|].
  destruct (m_hw s me) as [gdt ts gr ir tr cr] eqn:E. cbn [hw_gdt] in Hlen.
  destruct gdt as [|d0 [|d1 [|d2 [|d3 [|d4 [|d5 [|]]]]]]]; try discriminate Hlen. destruct ts as [e0 ss io].
  assert (C : cpu_is (m_hw s) me (mk_hw [d0; d1; d2; d3; d4; d5] (mk_ts e0 ss io) gr ir tr cr) s) by done.
  revert C. generalize s at 2 4. clear E.
  do 12 (intros s1 C; repeat wp_step; apply (wp_on_hw _ _ _ _ _ _ C); clear s1 C;
    unfold set_seg, hw_set_gdt, hw_set_ts, lgdt, ltr, lcr3; cbn [hw_gdt hw_ts hw_gdtr hw_idtr hw_tr hw_cr3 ts_esp0 ts_ss0 ts_iomb]).
  intros s' [C O]. cbv zeta. rewrite C. cbn [hw_gdt hw_ts hw_gdtr hw_idtr hw_tr hw_cr3 ts_esp0 ts_ss0 ts_iomb]. split_and!; try reflexivity; [| |exact O].
  - eexists. split; [reflexivity|]. split_and!; try reflexivity. unfold seg_base. cbn. apply seg_base_split, u32_range.
  - intros i Hi. assert (i = 1 \/ i = 2 \/ i = 3 \/ i = 4) as [->|[->|[->| ->]]] by lia;
      eexists; (split; [reflexivity|]); split_and!; try reflexivity; vm_compute; naive_solver.
Qed.

Lemma switchuvm_loads_witness :
  let s := mk_mach (fun _ => mk_hw (repeat no_seg 6) (mk_ts 0 0 0) None None 0 0) 0 in
  wp (seginit 0 (fun _ => 2148532224) ;;; switchuvm 0 (fun _ => 2148532300) 2151677952 2151686144) (fun _ s' =>
    hw_cr3 (m_hw s' 0%nat) = 4194304 /\ ts_esp0 (hw_ts (m_hw s' 0%nat)) = 2151690240) s.
Proof.
  intros s. eapply wp_mono; [apply (switchuvm_loads 0 (fun _ => 2148532224) (fun _ => 2148532300) 2151677952 2151686144 s); [reflexivity|lia|lia]|].
  intros _ s' (E1 & E2 & _). rewrite E1, E2. split; reflexivity.
Defined.
