(* ===== verification/Sleeplock.v ===== *)
(** * Sleep locks ([src/xv6/sleeplock.c])

    The routines run by the process [pid] on CPU [me].  [sleep] on the lock is
    [Blocked] with the spin lock released; [wakeup] is recorded through [wk].
    The second part interleaves any number of processes that use one lock. *)

From S2P Require Import Prelude Spinlock.

Record sleeplock : Type := mk_sleeplock {
  sl_locked : Z;
  sl_lk : spinlock;
  sl_pid : Z
}.

Definition sl_set_lk (x : spinlock) (l : sleeplock) : sleeplock :=
  mk_sleeplock (sl_locked l) x (sl_pid l).

Definition initsleeplock : sleeplock := mk_sleeplock 0 initlock 0.

(** A sleep lock held by process [pid]. *)
Definition held_by (pid : Z) : sleeplock := mk_sleeplock 1 initlock pid.

Section sleeplock.
Context {S : Type} (me : nat) (pid : Z).
Context (g : S -> sleeplock) (p : sleeplock -> S -> S) (wk : S -> S).

Definition sl_acquire : M S unit :=
  acquire me (fun s => sl_lk (g s)) (fun x s => p (sl_set_lk x (g s)) s).
Definition sl_release : M S unit :=
  release me (fun s => sl_lk (g s)) (fun x s => p (sl_set_lk x (g s)) s).

Definition acquiresleep : M S unit :=
  sl_acquire ;;;
  let! l := gets g in
  if negb (sl_locked l =? 0) then sl_release ;;; waits    (* sleep(lk, &lk->lk) *)
  else
    modify (fun s => p (mk_sleeplock 1 (sl_lk (g s)) (sl_pid (g s))) s) ;;;
    modify (fun s => p (mk_sleeplock (sl_locked (g s)) (sl_lk (g s)) pid) s) ;;;
    sl_release.

Definition releasesleep : M S unit :=
  sl_acquire ;;;
  modify (fun s => p (mk_sleeplock 0 (sl_lk (g s)) (sl_pid (g s))) s) ;;;
  modify (fun s => p (mk_sleeplock (sl_locked (g s)) (sl_lk (g s)) 0) s) ;;;
  modify wk ;;;
  sl_release.

Definition holdingsleep : M S bool :=
  sl_acquire ;;;
  let! l := gets g in
  sl_release ;;;
  ret (negb (sl_locked l =? 0) && (sl_pid l =? pid)).

(** They only change the lock. *)
Lemma keeps_sleeplock (K : S -> S -> Prop) `{!PreOrder K} :
  (forall x s, K s (p x s)) -> (forall s, K s (wk s)) ->
  keeps K acquiresleep /\ keeps K releasesleep /\ keeps K holdingsleep.
Proof.
  intros Hp Hw. unfold acquiresleep, releasesleep, holdingsleep, sl_acquire, sl_release.
  split_and!; keeps_steps; try (apply (keeps_acquire _); auto); try (apply (keeps_release _); auto); auto.
Qed.

(** The lens laws that make the effect of the routines a single update. *)
Class Lens : Prop := {
  lens_get : forall x s, g (p x s) = x;
  lens_put : forall x y s, p x (p y s) = p x s;
  lens_id : forall s, p (g s) s = s;
  lens_wk : forall s, g (wk s) = g s
}.
Context `{HL : Lens}.

Lemma wp_sl_acquire s (Q : unit -> S -> Prop) :
  sl_lk (g s) = initlock ->
  Q tt (p (sl_set_lk (mk_spinlock 1 (Some me)) (g s)) s) -> wp sl_acquire Q s.
Proof. intros H1 H2. by apply wp_acquire. Qed.

Lemma wp_sl_release s (Q : unit -> S -> Prop) :
  sl_lk (g s) = mk_spinlock 1 (Some me) ->
  Q tt (p (sl_set_lk initlock (g s)) s) -> wp sl_release Q s.
Proof. intros H1 H2. by apply wp_release. Qed.

Lemma wp_acquiresleep s (Q : unit -> S -> Prop) :
  g s = mk_sleeplock 0 initlock (sl_pid (g s)) ->
  Q tt (p (held_by pid) s) -> wp acquiresleep Q s.
Proof.
  intros Hg HQ. unfold acquiresleep. wp_steps. apply wp_sl_acquire; [by rewrite Hg|].
  wp_steps. rewrite lens_get. rewrite Hg. simpl. wp_steps. rewrite !lens_put, !lens_get.
  apply wp_sl_release; [by rewrite lens_get|]. by rewrite lens_get, lens_put.
Qed.

Lemma wp_releasesleep s (Q : unit -> S -> Prop) :
  sl_lk (g s) = initlock ->
  (Q tt (p initsleeplock (wk (p (mk_sleeplock 0 (mk_spinlock 1 (Some me)) 0) s)))) ->
  wp releasesleep Q s.
Proof.
  intros Hg HQ. unfold releasesleep. wp_steps. apply wp_sl_acquire; [done|].
  wp_steps. rewrite !lens_put, !lens_get. simpl.
  apply wp_sl_release; [by rewrite lens_wk, lens_get|]. rewrite lens_wk, lens_get. done.
Qed.

Lemma wp_holdingsleep s (Q : bool -> S -> Prop) :
  sl_lk (g s) = initlock ->
  Q (negb (sl_locked (g s) =? 0) && (sl_pid (g s) =? pid)) s -> wp holdingsleep Q s.
Proof.
  intros Hg HQ. unfold holdingsleep. wp_steps. apply wp_sl_acquire; [done|].
  wp_steps. rewrite !lens_get. apply wp_sl_release; [by rewrite lens_get|]. rewrite lens_get.
  wp_steps. rewrite lens_put.
  assert (sl_set_lk initlock (sl_set_lk (mk_spinlock 1 (Some me)) (g s)) = g s) as ->
    by (rewrite <- Hg; by destruct (g s)).
  by rewrite lens_id.
Qed.
End sleeplock.

(** ** Any number of processes and one lock *)

(** Where a process is: outside, in [sleep] on the lock's channel, woken up and
    about to test [lk->locked] again, or past [acquiresleep]. *)
Inductive sl_proc : Type := SlOut | SlAsleep | SlRetry | SlHolds.

#[export] Instance sl_proc_eq_dec : EqDecision sl_proc.
Proof. solve_decision. Defined.

Definition sl_wake (x : sl_proc) : sl_proc :=
  match x with SlAsleep => SlRetry | _ => x end.

Record sl_sys : Type := mk_sl_sys {
  ss_lock : sleeplock;
  ss_woken : bool;                 (* wakeup(lk) has been called by this step *)
  ss_proc : nat -> sl_proc
}.

(** The routines on the lock of a system: the critical section under [lk->lk] is
    one atomic step of the process. *)
Definition sys_set (x : sleeplock) (s : sl_sys) : sl_sys := mk_sl_sys x (ss_woken s) (ss_proc s).
Definition sys_wk (s : sl_sys) : sl_sys := mk_sl_sys (ss_lock s) true (ss_proc s).
Definition sys_acquiresleep (pid : Z) : M sl_sys unit := acquiresleep 0 pid ss_lock sys_set.
Definition sys_releasesleep : M sl_sys unit := releasesleep 0 ss_lock sys_set sys_wk.

#[export] Instance sys_lens : Lens ss_lock sys_set sys_wk.
Proof. split; try done. by intros []. Qed.

(** Process [i] has pid [i + 1]. *)
Definition pid_of (i : nat) : Z := Z.of_nat i + 1.

Inductive sl_step (s : sl_sys) : sl_sys -> Prop :=
| sl_step_acquired i s' :
    ss_proc s i = SlOut \/ ss_proc s i = SlRetry ->
    sys_acquiresleep (pid_of i) s = Ok tt s' ->
    sl_step s (mk_sl_sys (ss_lock s') false (fupd (ss_proc s) i SlHolds))
| sl_step_sleep i s' :
    ss_proc s i = SlOut \/ ss_proc s i = SlRetry ->
    sys_acquiresleep (pid_of i) s = Blocked s' ->
    sl_step s (mk_sl_sys (ss_lock s') false (fupd (ss_proc s) i SlAsleep))
| sl_step_release i s' :
    ss_proc s i = SlHolds ->
    sys_releasesleep s = Ok tt s' ->
    sl_step s (mk_sl_sys (ss_lock s') false
      (fun j => let x := fupd (ss_proc s) i SlOut j in if ss_woken s' then sl_wake x else x)).

Definition sl_initial (s : sl_sys) : Prop :=
  ss_lock s = initsleeplock /\ ss_woken s = false /\ forall i, ss_proc s i = SlOut.

(** The lock is free and nobody holds it or sleeps on it, or exactly one process
    holds it and the lock names that process. *)
Definition sl_inv (s : sl_sys) : Prop :=
  ss_woken s = false /\
  ((ss_lock s = initsleeplock /\ forall i, ss_proc s i <> SlHolds /\ ss_proc s i <> SlAsleep) \/
   (exists h, ss_lock s = held_by (pid_of h) /\ ss_proc s h = SlHolds /\
      forall i, ss_proc s i = SlHolds -> i = h)).

Lemma sl_inv_step s s' : sl_inv s -> sl_step s s' -> sl_inv s'.
Proof.
  destruct s as [lk w ps]. intros [Hw Hinv] Hstep. simpl in *. subst w.
  inversion Hstep as [i s1 Hi Hr|i s1 Hi Hr|i s1 Hi Hr]; subst; clear Hstep; simpl in *;
    (split; [done|]);
    destruct Hinv as [[-> Hall]|(h & -> & Hh & Hu)]; cbn in Hr; try discriminate;
    injection Hr as <-; simpl.
  - right. exists i. split_and!; [done|unfold fupd; by rewrite decide_True|].
    intros j. unfold fupd. case_decide; [done|]. intros Hj. by destruct (Hall j).
  - right. exists h. unfold fupd. split_and!; [done| |].
    + rewrite decide_False; [done|]. intros ->. destruct Hi; congruence.
    + intros j. case_decide; [done|]. apply Hu.
  - by destruct (Hall i) as [? _].
  - left. split; [done|]. intros j. unfold fupd. case_decide as Hd; [done|].
    destruct (ps j) eqn:Hj; simpl; try done. apply Hu in Hj. apply Hu in Hi. congruence.
Qed.

(** C31: however processes interleave [acquiresleep] and [releasesleep], at most one
    holds the lock, [holdingsleep] is true for exactly that process, and there is
    no lost wakeup: a process sleeps on the lock only while another one holds it. *)
Theorem sleeplock_exclusive (s s' : sl_sys) (i : nat) :
  sl_initial s -> rtc sl_step s s' ->
  (forall j, ss_proc s' i = SlHolds -> ss_proc s' j = SlHolds -> i = j) /\
  (exists t, holdingsleep 0 (pid_of i) ss_lock sys_set s' =
             Ok (bool_decide (ss_proc s' i = SlHolds)) t) /\
  (ss_proc s' i = SlAsleep -> exists h, h <> i /\ ss_proc s' h = SlHolds).
Proof.
  intros (Hl & Hw & Hout) Hr.
  assert (Hinv : sl_inv s').
  { apply (invariant_rtc sl_step sl_inv sl_inv_step s); [|done].
    split; [done|]. left. split; [done|]. intros j. by rewrite Hout. }
  assert (Hhs : exists t, holdingsleep 0 (pid_of i) ss_lock sys_set s' =
    Ok (negb (sl_locked (ss_lock s') =? 0) && (sl_pid (ss_lock s') =? pid_of i)) t).
  { assert (Hwp : wp (holdingsleep 0 (pid_of i) ss_lock sys_set)
      (fun r _ => r = negb (sl_locked (ss_lock s') =? 0) && (sl_pid (ss_lock s') =? pid_of i)) s').
    { apply (wp_holdingsleep _ _ _ _ sys_wk); [|done].
      by destruct Hinv as [_ [[-> _]|(h & -> & _)]]. }
    apply wp_ok in Hwp as (r & t & -> & ->). eauto. }
  destruct Hhs as [t Hhs].
  destruct Hinv as [_ [[Hl' Hall]|(h & Hl' & Hh & Hu)]]; rewrite Hl' in Hhs; simpl in Hhs.
  - destruct (Hall i) as [H1 H2]. split_and!; [done| |done].
    exists t. by rewrite bool_decide_false.
  - split_and!.
    + intros j Hi Hj. apply Hu in Hi, Hj. congruence.
    + exists t. rewrite Hhs. f_equal. destruct (Z.eqb_spec (pid_of h) (pid_of i)) as [Heq|Hne].
      * unfold pid_of in Heq. replace i with h by lia. by rewrite bool_decide_true.
      * rewrite bool_decide_false; [done|]. intros Hd%Hu. congruence.
    + intros Hi. exists h. split; [congruence|done].
Qed.

Lemma sleeplock_exclusive_witness :
  exists s', ss_proc s' 1 = SlAsleep /\ exists h, h <> 1%nat /\ ss_proc s' h = SlHolds.
Proof.
  eexists. split.
  2:{ eapply (sleeplock_exclusive (mk_sl_sys initsleeplock false (fun _ => SlOut)) _ 1).
      - done.
      - eapply rtc_l; [apply (sl_step_acquired _ 0); [left; reflexivity|reflexivity]|].
        eapply rtc_l; [apply (sl_step_sleep _ 1); [left; reflexivity|reflexivity]|].
        apply rtc_refl.
      - reflexivity. }
  reflexivity.
Defined.
