(* ===== verification/Block.v ===== *)
(** * Disk blocks

    A disk block and the data of a buffer are lists of bytes.  The structures
    that the kernel overlays on a block (log header, superblock, on-disk inodes,
    directory entries) are read and written with little-endian accessors at byte
    offsets; [memmove] into a block is [list_inserts] (the byte-level routine and
    its correctness are in [CString]). *)

From S2P Require Import Prelude.

Definition BSIZE : nat := 512.
Abbreviation block := (list Z) (only parsing).

(** The byte at an offset. *)
Definition byte_at (l : block) (off : nat) : Z := default 0 (l !! off).

Definition get16 (l : block) (off : nat) : Z := byte_at l off + 256 * byte_at l (off + 1).
Definition get32 (l : block) (off : nat) : Z :=
  byte_at l off + 256 * byte_at l (off + 1) + 65536 * byte_at l (off + 2)
  + 16777216 * byte_at l (off + 3).

Definition bytes16 (v : Z) : list Z := [u8 v; u8 (v / 256)].
Definition bytes32 (v : Z) : list Z := [u8 v; u8 (v / 256); u8 (v / 65536); u8 (v / 16777216)].

Definition put16 (l : block) (off : nat) (v : Z) : block := list_inserts off (bytes16 v) l.
Definition put32 (l : block) (off : nat) (v : Z) : block := list_inserts off (bytes32 v) l.

(** A well-formed block: [BSIZE] bytes. *)
Definition block_ok (l : block) : Prop :=
  length l = BSIZE /\ Forall (fun b => 0 <= b < 256) l.

(** ** Lemmas *)

Lemma byte_at_inserts l off k x :
  (off + length k <= length l)%nat ->
  byte_at (list_inserts off k l) x =
  if decide (off <= x < off + length k)%nat then byte_at k (x - off) else byte_at l x.
Proof.
  intros H. unfold byte_at. case_decide as Hd.
  - by rewrite list_lookup_inserts by lia.
  - destruct (decide (x < off)%nat).
    + by rewrite list_lookup_inserts_lt by lia.
    + by rewrite list_lookup_inserts_ge by lia.
Qed.

Lemma length_put16 l off v : length (put16 l off v) = length l.
Proof. apply length_inserts. Qed.
Lemma length_put32 l off v : length (put32 l off v) = length l.
Proof. apply length_inserts. Qed.
#[export] Hint Rewrite length_put16 length_put32 @length_inserts : kernel.

Lemma Forall_inserts {A} (P : A -> Prop) off k l :
  Forall P k -> Forall P l -> Forall P (list_inserts off k l).
Proof.
  intros Hk Hl. apply Forall_lookup. intros i x Hx.
  apply list_lookup_inserts_Some in Hx as [(_ & Hx)|(_ & _ & Hx)].
  - by eapply Forall_lookup_1.
  - by eapply (Forall_lookup_1 _ k).
Qed.

Lemma bytes16_ok v : Forall (fun b => 0 <= b < 256) (bytes16 v).
Proof. repeat constructor; try apply u8_range. Qed.
Lemma bytes32_ok v : Forall (fun b => 0 <= b < 256) (bytes32 v).
Proof. repeat constructor; try apply u8_range. Qed.

Lemma block_ok_put16 l off v : block_ok l -> block_ok (put16 l off v).
Proof.
  intros [Hl Hb]. split; [by rewrite length_put16|]. apply Forall_inserts; [apply bytes16_ok|done].
Qed.
Lemma block_ok_put32 l off v : block_ok l -> block_ok (put32 l off v).
Proof.
  intros [Hl Hb]. split; [by rewrite length_put32|]. apply Forall_inserts; [apply bytes32_ok|done].
Qed.
#[export] Hint Resolve block_ok_put16 block_ok_put32 : kernel.

Lemma byte_at_range l i : Forall (fun b => 0 <= b < 256) l -> 0 <= byte_at l i < 256.
Proof.
  intros H. unfold byte_at. destruct (l !! i) eqn:E; simpl; [|lia].
  by eapply (Forall_lookup_1 (fun b => 0 <= b < 256)).
Qed.

Lemma get32_range l off : Forall (fun b => 0 <= b < 256) l -> 0 <= get32 l off < W32.
Proof.
  intros H. unfold get32, W32.
  pose proof (byte_at_range l off H). pose proof (byte_at_range l (off + 1) H).
  pose proof (byte_at_range l (off + 2) H). pose proof (byte_at_range l (off + 3) H). lia.
Qed.

Lemma get32_put32 l off v :
  (off + 4 <= length l)%nat -> 0 <= v < W32 -> get32 (put32 l off v) off = v.
Proof.
  intros Hl Hv. unfold get32, put32. rewrite !byte_at_inserts by (simpl; lia). simpl.
  rewrite !decide_True by lia.
  replace (off - off)%nat with 0%nat by lia. replace (off + 1 - off)%nat with 1%nat by lia.
  replace (off + 2 - off)%nat with 2%nat by lia. replace (off + 3 - off)%nat with 3%nat by lia.
  unfold byte_at, bytes32, u8, W32 in *. simpl. zlia.
Qed.

Lemma get16_put16 l off v :
  (off + 2 <= length l)%nat -> 0 <= v < 65536 -> get16 (put16 l off v) off = v.
Proof.
  intros Hl Hv. unfold get16, put16. rewrite !byte_at_inserts by (simpl; lia). simpl.
  rewrite !decide_True by lia.
  replace (off - off)%nat with 0%nat by lia. replace (off + 1 - off)%nat with 1%nat by lia.
  unfold byte_at, bytes16, u8 in *. simpl. zlia.
Qed.

Lemma get32_inserts_ne l off k x :
  (off + length k <= length l)%nat -> (x + 4 <= off \/ off + length k <= x)%nat ->
  get32 (list_inserts off k l) x = get32 l x.
Proof.
  intros Hl Hx. unfold get32. rewrite !byte_at_inserts by lia. by rewrite !decide_False by lia.
Qed.

Lemma get16_inserts_ne l off k x :
  (off + length k <= length l)%nat -> (x + 2 <= off \/ off + length k <= x)%nat ->
  get16 (list_inserts off k l) x = get16 l x.
Proof.
  intros Hl Hx. unfold get16. rewrite !byte_at_inserts by lia. by rewrite !decide_False by lia.
Qed.

Lemma get32_put32_ne l off v x :
  (off + 4 <= length l)%nat -> (x + 4 <= off \/ off + 4 <= x)%nat ->
  get32 (put32 l off v) x = get32 l x.
Proof. intros. by apply get32_inserts_ne. Qed.

(** Replacing the whole block. *)
Lemma inserts_whole (k l : list Z) : length k = length l -> list_inserts 0 k l = k.
Proof.
  intros H. apply list_eq. intros i. destruct (decide (i < length l)%nat).
  - rewrite list_lookup_inserts by lia. by rewrite Nat.sub_0_r.
  - rewrite !lookup_ge_None_2; [done| |]; rewrite ?length_inserts; lia.
Qed.
