(* ===== verification/Disk.v ===== *)
(** * Buffers and the disk driver interface ([src/xv6/buf.h], [iderw])

    [struct buf], and the class [Disk] that states what the buffer cache needs of
    a driver: [iderw] on a locked buffer reads the block when the buffer is not
    valid and writes it when it is dirty.  [src/xv6/memide.c] implements it in
    [Memide] and [src/xv6/ide.c] in [Ide]. *)

From S2P Require Import Prelude Spinlock Sleeplock Block.

(** [prev] and [next] point into [bcache]: the index of a buffer, or [NBUF] for
    [bcache.head].  [qnext] belongs to the driver queue ([Ide]). *)
Record buf : Type := mk_buf {
  b_flags : Z;
  b_dev : Z;
  b_blockno : Z;
  b_lock : sleeplock;
  b_refcnt : Z;
  b_prev : nat;
  b_next : nat;
  b_data : block
}.

Definition B_VALID : Z := 2.
Definition B_DIRTY : Z := 4.

Definition b_set_flags (x : Z) (b : buf) : buf :=
  mk_buf x (b_dev b) (b_blockno b) (b_lock b) (b_refcnt b) (b_prev b) (b_next b) (b_data b).
Definition b_set_dev (x : Z) (b : buf) : buf :=
  mk_buf (b_flags b) x (b_blockno b) (b_lock b) (b_refcnt b) (b_prev b) (b_next b) (b_data b).
Definition b_set_blockno (x : Z) (b : buf) : buf :=
  mk_buf (b_flags b) (b_dev b) x (b_lock b) (b_refcnt b) (b_prev b) (b_next b) (b_data b).
Definition b_set_lock (x : sleeplock) (b : buf) : buf :=
  mk_buf (b_flags b) (b_dev b) (b_blockno b) x (b_refcnt b) (b_prev b) (b_next b) (b_data b).
Definition b_set_refcnt (x : Z) (b : buf) : buf :=
  mk_buf (b_flags b) (b_dev b) (b_blockno b) (b_lock b) x (b_prev b) (b_next b) (b_data b).
Definition b_set_prev (x : nat) (b : buf) : buf :=
  mk_buf (b_flags b) (b_dev b) (b_blockno b) (b_lock b) (b_refcnt b) x (b_next b) (b_data b).
Definition b_set_next (x : nat) (b : buf) : buf :=
  mk_buf (b_flags b) (b_dev b) (b_blockno b) (b_lock b) (b_refcnt b) (b_prev b) x (b_data b).
Definition b_set_data (x : block) (b : buf) : buf :=
  mk_buf (b_flags b) (b_dev b) (b_blockno b) (b_lock b) (b_refcnt b) (b_prev b) (b_next b) x.

(** [b->flags & f] as a condition. *)
Definition has_flag (b : buf) (f : Z) : bool := negb (Z.land (b_flags b) f =? 0).

#[export] Instance b_lens : Lens b_lock b_set_lock id.
Proof. split; try done. by intros []. Qed.

(** [holdingsleep(&b->lock)] on a buffer. *)
Definition b_holdingsleep (me : nat) (pid : Z) : M buf bool :=
  holdingsleep me pid b_lock b_set_lock.

Lemma wp_b_holdingsleep me pid b (Q : bool -> buf -> Prop) :
  b_lock b = held_by pid -> Q true b -> wp (b_holdingsleep me pid) Q b.
Proof.
  intros Hl HQ. apply (wp_holdingsleep _ _ _ _ id); rewrite Hl; [done|]. simpl.
  by rewrite Z.eqb_refl.
Qed.

(** The contents of a disk after a sequence of block writes. *)
Definition disk_write (c : Z -> block) (w : Z * block) : Z -> block :=
  fun x => if x =? w.1 then w.2 else c x.
Definition replay (c : Z -> block) (ws : list (Z * block)) : Z -> block :=
  foldl disk_write c ws.

Lemma replay_app c ws ws' : replay c (ws ++ ws') = replay (replay c ws) ws'.
Proof. apply foldl_app. Qed.

(** The driver's entry point runs on the driver state and one buffer. *)
Class DiskOps (D : Type) : Type := {
  iderw : nat -> Z -> M (D * buf) unit
}.

(** What the driver promises.  [dk_read] is the current contents of the medium,
    [dk_hist] the writes it has completed since it started, oldest first. *)
Class Disk (D : Type) `{DiskOps D} : Type := {
  dk_dev : Z;
  dk_size : D -> Z;
  dk_read : D -> Z -> block;
  dk_hist : D -> list (Z * block);
  dk_ok : D -> Prop;
  dk_dev_range : 0 < dk_dev < W32;
  dk_read_ok d x : dk_ok d -> 0 <= x < dk_size d -> block_ok (dk_read d x);
  dk_rd me pid d b (Q : unit -> D * buf -> Prop) :
    dk_ok d -> b_lock b = held_by pid -> b_dev b = dk_dev -> 0 <= b_blockno b < dk_size d ->
    b_flags b = 0 -> length (b_data b) = BSIZE ->
    (forall d', dk_ok d' -> dk_size d' = dk_size d -> (forall x, 0 <= x < dk_size d -> dk_read d' x = dk_read d x) ->
       dk_hist d' = dk_hist d ->
       Q tt (d', b_set_flags B_VALID (b_set_data (dk_read d (b_blockno b)) b))) ->
    wp (iderw me pid) Q (d, b);
  dk_wr me pid d b (Q : unit -> D * buf -> Prop) :
    dk_ok d -> b_lock b = held_by pid -> b_dev b = dk_dev -> 0 <= b_blockno b < dk_size d ->
    b_flags b = Z.lor B_VALID B_DIRTY -> block_ok (b_data b) ->
    (forall d', dk_ok d' -> dk_size d' = dk_size d ->
       (forall x, 0 <= x < dk_size d ->
          dk_read d' x = disk_write (dk_read d) (b_blockno b, b_data b) x) ->
       dk_hist d' = dk_hist d ++ [(b_blockno b, b_data b)] ->
       Q tt (d', b_set_flags B_VALID b)) ->
    wp (iderw me pid) Q (d, b)
}.
