(* ===== verification/Memide.v ===== *)
(** * The memory disk driver ([src/xv6/memide.c])

    The image linked into the kernel is a list of bytes; [md_hist] records the
    writes and has no counterpart in the code. *)

From S2P Require Import Prelude Spinlock Sleeplock Block Disk.

Record memide : Type := mk_memide {
  memdisk : list Z;
  disksize : Z;
  md_hist : list (Z * block)
}.

(** [ideinit] with the linker symbols [_binary_fs_img_start] and [_size]. *)
Definition ideinit (fs_img_start : list Z) (fs_img_size : Z) : memide :=
  mk_memide fs_img_start (fs_img_size / Z.of_nat BSIZE) [].

Definition ideintr : M memide unit := ret tt.

(** [memdisk + b->blockno*BSIZE] as an index. *)
Definition md_off (blockno : Z) : nat := Z.to_nat (u32 (blockno * Z.of_nat BSIZE)).

Definition md_iderw (me : nat) (pid : Z) : M (memide * buf) unit :=
  let! h := zoom snd (fun b s => (s.1, b)) (b_holdingsleep me pid) in
  if negb h then panic "iderw: buf not locked" else
  let! s := get in let '(d, b) := s in
  if Z.land (b_flags b) (Z.lor B_VALID B_DIRTY) =? B_VALID then panic "iderw: nothing to do" else
  if negb (b_dev b =? 1) then panic "iderw: request not for disk 1" else
  if disksize d <=? b_blockno b then panic "iderw: block out of range" else
  let p := md_off (b_blockno b) in
  (if has_flag b B_DIRTY then
     modify (fun '(d, b) => (d, b_set_flags (Z.ldiff (b_flags b) B_DIRTY) b)) ;;;
     modify (fun '(d, b) => (mk_memide (list_inserts p (b_data b) (memdisk d)) (disksize d)
                               (md_hist d ++ [(b_blockno b, b_data b)]), b))
   else
     modify (fun '(d, b) =>
       (d, b_set_data (list_inserts 0 (take BSIZE (drop p (memdisk d))) (b_data b)) b))) ;;;
  modify (fun '(d, b) => (d, b_set_flags (Z.lor (b_flags b) B_VALID) b)).

#[export] Instance memide_ops : DiskOps memide := {| iderw := md_iderw |}.

(** The image has [disksize] whole blocks of bytes and fits the address space. *)
Definition md_ok (d : memide) : Prop :=
  Forall (fun b => 0 <= b < 256) (memdisk d) /\
  disksize d * Z.of_nat BSIZE <= Z.of_nat (length (memdisk d)) < W32.

Definition md_read (d : memide) (x : Z) : block := take BSIZE (drop (md_off x) (memdisk d)).

Lemma md_off_spec d x : md_ok d -> 0 <= x < disksize d ->
  md_off x = (Z.to_nat x * BSIZE)%nat /\ (md_off x + BSIZE <= length (memdisk d))%nat.
Proof.
  intros [_ Hs] Hx. unfold md_off, W32, BSIZE in *.
  rewrite u32_small by (unfold W32; lia). lia.
Qed.

Lemma md_read_length d x : md_ok d -> 0 <= x < disksize d -> length (md_read d x) = BSIZE.
Proof.
  intros Hok Hx. destruct (md_off_spec d x Hok Hx) as [_ H].
  unfold md_read. rewrite length_take, length_drop. lia.
Qed.

Lemma md_read_ok d x : md_ok d -> 0 <= x < disksize d -> block_ok (md_read d x).
Proof.
  intros Hok Hx. split; [by apply md_read_length|].
  unfold md_read. apply Forall_take, Forall_drop, Hok.
Qed.

(** Reading back after a write of block [b]. *)
Lemma md_read_write d b data h x :
  md_ok d -> 0 <= b < disksize d -> 0 <= x < disksize d -> length data = BSIZE ->
  md_read (mk_memide (list_inserts (md_off b) data (memdisk d)) (disksize d) h) x =
  if x =? b then data else md_read d x.
Proof.
  intros Hok Hb Hx Hd.
  destruct (md_off_spec d b Hok Hb) as [Eb Lb], (md_off_spec d x Hok Hx) as [Ex Lx].
  unfold md_read. simpl. apply list_eq. intros i.
  destruct (decide (i < BSIZE)%nat) as [Hi|Hi].
  - rewrite lookup_take_lt, lookup_drop by done. destruct (Z.eqb_spec x b) as [->|Hne].
    + rewrite list_lookup_inserts by (unfold BSIZE in *; lia). f_equal. lia.
    + rewrite lookup_take_lt, lookup_drop by done.
      destruct (decide (x < b)).
      * apply list_lookup_inserts_lt. unfold BSIZE in *; nia.
      * apply list_lookup_inserts_ge. unfold BSIZE in *; nia.
  - rewrite lookup_take_ge by lia. symmetry. destruct (x =? b).
    + apply lookup_ge_None_2. lia.
    + apply lookup_take_ge. lia.
Qed.

Lemma md_ok_write d b data h :
  md_ok d -> block_ok data ->
  md_ok (mk_memide (list_inserts (md_off b) data (memdisk d)) (disksize d) h).
Proof.
  intros [Hb Hs] [_ Hd]. split; simpl; [by apply Forall_inserts|]. by rewrite length_inserts.
Qed.

(** The memory disk implements the driver interface. *)
#[export] Program Instance memide_disk : Disk memide := {|
  dk_dev := 1; dk_size := disksize; dk_read := md_read; dk_hist := md_hist; dk_ok := md_ok
|}.
Next Obligation. done. Qed.
Next Obligation. intros. by apply md_read_ok. Qed.
Next Obligation.
  intros me pid d b Q Hok Hl Hd Hb Hf Hlen HQ. simpl in *. unfold md_iderw. wp_steps.
  apply wp_b_holdingsleep; [done|]. simpl. wp_steps. rewrite Hf, Hd. simpl.
  rewrite (proj2 (Z.leb_gt _ _)) by lia. unfold has_flag. rewrite Hf. simpl. wp_steps.
  pose proof (md_read_length d (b_blockno b) Hok Hb) as Hrl. unfold md_read in Hrl.
  rewrite inserts_whole by congruence.
  specialize (HQ d Hok eq_refl ltac:(done) eq_refl). unfold md_read in HQ.
  by destruct b; simpl in *; subst.
Qed.
Next Obligation.
  intros me pid d b Q Hok Hl Hd Hb Hf Hbo HQ. simpl in *. unfold md_iderw. wp_steps.
  apply wp_b_holdingsleep; [done|]. simpl. wp_steps. rewrite Hf, Hd. simpl.
  rewrite (proj2 (Z.leb_gt _ _)) by lia. unfold has_flag. rewrite Hf. simpl. wp_steps.
  specialize (HQ (mk_memide (list_inserts (md_off (b_blockno b)) (b_data b) (memdisk d))
    (disksize d) (md_hist d ++ [(b_blockno b, b_data b)]))).
  destruct b; simpl in *; subst. apply HQ; [by apply md_ok_write|done| |done].
  intros x Hx. rewrite md_read_write by (auto; apply Hbo). done.
Qed.
