(* ===== verification/Bio.v ===== *)
(** * Buffer cache ([src/xv6/bio.c])

    The cache over a disk driver [D].  [bcache.buf] is an array indexed by [nat]
    whose entry [NBUF] is [bcache.head]; the most-recently-used list is threaded
    through [prev] and [next] exactly as in the code.  [bc_wakes] records the
    channels passed to [wakeup] (the index of the buffer).  The client interface
    is the class [Cache], stated over an abstract cache [abs]. *)

From S2P Require Import Prelude Spinlock Sleeplock Block Disk.

Definition NBUF : nat := 30.
Definition HEAD : nat := NBUF.

(** ** The interface *)

(** What a client sees: the medium, the contents of every block as the next
    [bread] will return them, the blocks pinned by [B_DIRTY], and the locked
    buffers with their block number and current data. *)
Record abs : Type := mk_abs {
  a_size : Z;
  a_disk : Z -> block;
  a_hist : list (Z * block);
  a_view : Z -> block;
  a_pin : gset Z;
  a_held : gmap nat (Z * block)
}.

Definition a_hold (i : nat) (x : Z * block) (a : abs) : abs :=
  mk_abs (a_size a) (a_disk a) (a_hist a) (a_view a) (a_pin a) (<[i := x]> (a_held a)).

(** The blocks whose buffers cannot be recycled. *)
Definition a_busy (a : abs) : gset Z :=
  a_pin a ∪ list_to_set ((fun e => e.2.1) <$> map_to_list (a_held a)).

(** [b] is not locked. *)
Definition a_free (a : abs) (b : Z) : Prop := forall i d, a_held a !! i <> Some (b, d).

(** [bwrite] of block [b] with contents [d]. *)
Definition a_written (b : Z) (d : block) (a : abs) : abs :=
  mk_abs (a_size a) (disk_write (a_disk a) (b, d)) (a_hist a ++ [(b, d)])
    (disk_write (a_view a) (b, d)) (a_pin a ∖ {[b]}) (a_held a).

Definition a_pinned (b : Z) (a : abs) : abs :=
  mk_abs (a_size a) (a_disk a) (a_hist a) (a_view a) (a_pin a ∪ {[b]}) (a_held a).

Definition a_released (i : nat) (b : Z) (d : block) (a : abs) : abs :=
  mk_abs (a_size a) (a_disk a) (a_hist a) (disk_write (a_view a) (b, d)) (a_pin a)
    (delete i (a_held a)).

(** Two descriptions of the same cache. *)
Record abs_eq (a a' : abs) : Prop := mk_abs_eq {
  ae_size : a_size a' = a_size a;
  ae_disk x : a_disk a' x = a_disk a x;
  ae_hist : a_hist a' = a_hist a;
  ae_view x : a_view a' x = a_view a x;
  ae_pin : a_pin a' = a_pin a;
  ae_held : a_held a' = a_held a
}.

Class CacheOps (S : Type) : Type := {
  bread : Z -> Z -> M S nat;
  bwrite : nat -> M S unit;
  brelse : nat -> M S unit;
  bdata : nat -> S -> block;              (* b->data *)
  bset_data : nat -> block -> S -> S;     (* an assignment through b->data *)
  bblockno : nat -> S -> Z;               (* b->blockno *)
  bset_dirty : nat -> S -> S              (* b->flags |= B_DIRTY *)
}.

Class Cache (S : Type) `{CacheOps S} : Type := {
  c_dev : Z;
  c_rel : S -> abs -> Prop;
  c_proper s a a' : abs_eq a a' -> c_rel s a -> c_rel s a';
  c_bread s a b (Q : nat -> S -> Prop) :
    c_rel s a -> 0 <= b < a_size a -> a_free a b ->
    (size (a_busy a ∪ {[b]}) <= NBUF)%nat ->
    (forall i s', a_held a !! i = None -> c_rel s' (a_hold i (b, a_view a b) a) -> Q i s') ->
    wp (bread c_dev b) Q s;
  c_bwrite s a i b d (Q : unit -> S -> Prop) :
    c_rel s a -> a_held a !! i = Some (b, d) ->
    (forall s', c_rel s' (a_written b d a) -> Q tt s') ->
    wp (bwrite i) Q s;
  c_brelse s a i b d (Q : unit -> S -> Prop) :
    c_rel s a -> a_held a !! i = Some (b, d) -> b ∈ a_pin a \/ d = a_disk a b ->
    (forall s', c_rel s' (a_released i b d a) -> Q tt s') ->
    wp (brelse i) Q s;
  c_data s a i b d : c_rel s a -> a_held a !! i = Some (b, d) -> bdata i s = d;
  c_blockno s a i b d : c_rel s a -> a_held a !! i = Some (b, d) -> bblockno i s = b;
  c_set_data s a i b d d' :
    c_rel s a -> a_held a !! i = Some (b, d) -> block_ok d' ->
    c_rel (bset_data i d' s) (a_hold i (b, d') a);
  c_dirty s a i b d :
    c_rel s a -> a_held a !! i = Some (b, d) -> c_rel (bset_dirty i s) (a_pinned b a);
  c_view_ok s a b : c_rel s a -> 0 <= b < a_size a -> block_ok (a_view a b);
  c_held_ok s a i b d : c_rel s a -> a_held a !! i = Some (b, d) -> 0 <= b < a_size a /\ block_ok d;
  c_view_disk s a b : c_rel s a -> 0 <= b < a_size a -> b ∉ a_pin a -> a_view a b = a_disk a b;
  c_dev32 : u32 c_dev = c_dev
}.

(** ** The implementation *)

Record bcache (D : Type) : Type := mk_bcache {
  bc_lock : spinlock;
  bc_buf : nat -> buf;
  bc_dk : D;
  bc_wakes : list nat
}.
Arguments mk_bcache {D}.
Arguments bc_lock {D}.
Arguments bc_buf {D}.
Arguments bc_dk {D}.
Arguments bc_wakes {D}.

Section bio.
Context {D : Type} `{!DiskOps D} (me : nat) (pid : Z).
Implicit Types s : bcache D.

Definition bc_set_lock (x : spinlock) s : bcache D := mk_bcache x (bc_buf s) (bc_dk s) (bc_wakes s).
Definition bc_set_buf (f : nat -> buf) s : bcache D := mk_bcache (bc_lock s) f (bc_dk s) (bc_wakes s).

(** An assignment to fields of the buffer [i]. *)
Definition on_buf (i : nat) (g : buf -> buf) (f : nat -> buf) : nat -> buf := fupd f i (g (f i)).
Definition upd_buf (i : nat) (g : buf -> buf) s : bcache D := bc_set_buf (on_buf i g (bc_buf s)) s.

(** [b->next = bcache.head.next; b->prev = &bcache.head;] *)
Definition link_new (b : nat) (f : nat -> buf) : nat -> buf :=
  on_buf b (b_set_prev HEAD) (on_buf b (b_set_next (b_next (f HEAD))) f).
(** [bcache.head.next->prev = b; bcache.head.next = b;] *)
Definition link_head (b : nat) (f : nat -> buf) : nat -> buf :=
  on_buf HEAD (b_set_next b) (on_buf (b_next (f HEAD)) (b_set_prev b) f).
(** [b->next->prev = b->prev; b->prev->next = b->next;] *)
Definition unlink (b : nat) (f : nat -> buf) : nat -> buf :=
  let f := on_buf (b_next (f b)) (b_set_prev (b_prev (f b))) f in
  on_buf (b_prev (f b)) (b_set_next (b_next (f b))) f.

Fixpoint binit_loop (n b : nat) (f : nat -> buf) : nat -> buf :=
  match n with
  | O => f
  | S k => binit_loop k (S b) (link_head b (on_buf b (b_set_lock initsleeplock) (link_new b f)))
  end.

Definition binit s : bcache D :=
  let s := bc_set_lock initlock s in
  let s := upd_buf HEAD (b_set_prev HEAD) s in
  let s := upd_buf HEAD (b_set_next HEAD) s in
  bc_set_buf (binit_loop NBUF 0 (bc_buf s)) s.

(** [for(b = ...; b != &bcache.head; b = b->dir) if(test) ...]: the first buffer
    that satisfies the test, [None] at the head. *)
Fixpoint scan (dir : buf -> nat) (test : buf -> bool) (f : nat -> buf) (fuel b : nat)
    : option (option nat) :=
  if decide (b = HEAD) then Some None
  else if test (f b) then Some (Some b)
  else match fuel with
       | O => None
       | S k => scan dir test f k (dir (f b))
       end.

Definition b_acquiresleep (i : nat) : M (bcache D) unit :=
  zoom (fun s => bc_buf s i) (fun b s => bc_set_buf (fupd (bc_buf s) i b) s)
    (acquiresleep me pid b_lock b_set_lock).

Definition is_block (dev blockno : Z) (b : buf) : bool :=
  (b_dev b =? dev) && (b_blockno b =? blockno).
Definition recyclable (b : buf) : bool := (b_refcnt b =? 0) && negb (has_flag b B_DIRTY).

Definition bget (dev blockno : Z) : M (bcache D) nat :=
  acquire me bc_lock bc_set_lock ;;;
  let! s := get in
  match scan b_next (is_block dev blockno) (bc_buf s) NBUF (b_next (bc_buf s HEAD)) with
  | None => fun _ => OutOfFuel
  | Some (Some b) =>
      modify (upd_buf b (fun x => b_set_refcnt (u32 (b_refcnt x + 1)) x)) ;;;
      release me bc_lock bc_set_lock ;;;
      b_acquiresleep b ;;;
      ret b
  | Some None =>
      match scan b_prev recyclable (bc_buf s) NBUF (b_prev (bc_buf s HEAD)) with
      | None => fun _ => OutOfFuel
      | Some (Some b) =>
          modify (upd_buf b (b_set_dev dev)) ;;;
          modify (upd_buf b (b_set_blockno blockno)) ;;;
          modify (upd_buf b (b_set_flags 0)) ;;;
          modify (upd_buf b (b_set_refcnt 1)) ;;;
          release me bc_lock bc_set_lock ;;;
          b_acquiresleep b ;;;
          ret b
      | Some None => panic "bget: no buffers"
      end
  end.

(** [iderw(b)] on the driver and buffer [i]. *)
Definition b_iderw (i : nat) : M (bcache D) unit :=
  zoom (fun s => (bc_dk s, bc_buf s i))
       (fun x s => mk_bcache (bc_lock s) (fupd (bc_buf s) i x.2) x.1 (bc_wakes s))
       (iderw me pid).

Definition bc_bread (dev blockno : Z) : M (bcache D) nat :=
  let! b := bget dev blockno in
  let! s := get in
  (if negb (has_flag (bc_buf s b) B_VALID) then b_iderw b else ret tt) ;;;
  ret b.

Definition b_holding (i : nat) : M (bcache D) bool :=
  zoom (fun s => bc_buf s i) (fun b s => bc_set_buf (fupd (bc_buf s) i b) s)
    (b_holdingsleep me pid).

Definition bc_bwrite (b : nat) : M (bcache D) unit :=
  let! h := b_holding b in
  if negb h then panic "bwrite" else
  modify (upd_buf b (fun x => b_set_flags (Z.lor (b_flags x) B_DIRTY) x)) ;;;
  b_iderw b.

Definition b_releasesleep (i : nat) : M (bcache D) unit :=
  zoom (fun s => (bc_wakes s, bc_buf s i))
       (fun x s => mk_bcache (bc_lock s) (fupd (bc_buf s) i x.2) (bc_dk s) x.1)
       (releasesleep me (fun x : list nat * buf => b_lock x.2)
          (fun l x => (x.1, b_set_lock l x.2)) (fun x => (x.1 ++ [i], x.2))).

Definition bc_brelse (b : nat) : M (bcache D) unit :=
  let! h := b_holding b in
  if negb h then panic "brelse" else
  b_releasesleep b ;;;
  acquire me bc_lock bc_set_lock ;;;
  modify (upd_buf b (fun x => b_set_refcnt (u32 (b_refcnt x - 1)) x)) ;;;
  let! s := get in
  (if b_refcnt (bc_buf s b) =? 0 then
     modify (fun s => bc_set_buf (unlink b (bc_buf s)) s) ;;;
     modify (fun s => bc_set_buf (link_new b (bc_buf s)) s) ;;;
     modify (fun s => bc_set_buf (link_head b (bc_buf s)) s)
   else ret tt) ;;;
  release me bc_lock bc_set_lock.
End bio.

(** ** The linked list *)

Definition link (f : nat -> buf) (x y : nat) : Prop := b_next (f x) = y /\ b_prev (f y) = x.

(** [l] is the chain of buffers strictly between [x] and [y]. *)
Fixpoint path (f : nat -> buf) (x : nat) (l : list nat) (y : nat) : Prop :=
  match l with
  | [] => link f x y
  | z :: l' => link f x z /\ path f z l' y
  end.

Lemma on_buf_eq i g f : on_buf i g f i = g (f i).
Proof. apply fupd_eq. Qed.
Lemma on_buf_ne i j g f : j <> i -> on_buf i g f j = f j.
Proof. apply fupd_ne. Qed.

(** An assignment of [next] or [prev] changes that field of that buffer only. *)
Lemma next_set_prev i x f j : b_next (on_buf i (b_set_prev x) f j) = b_next (f j).
Proof. unfold on_buf, fupd. case_decide; by subst. Qed.
Lemma prev_set_next i x f j : b_prev (on_buf i (b_set_next x) f j) = b_prev (f j).
Proof. unfold on_buf, fupd. case_decide; by subst. Qed.
Lemma next_set_next i x f j :
  b_next (on_buf i (b_set_next x) f j) = if decide (j = i) then x else b_next (f j).
Proof. unfold on_buf, fupd. case_decide; by subst. Qed.
Lemma prev_set_prev i x f j :
  b_prev (on_buf i (b_set_prev x) f j) = if decide (j = i) then x else b_prev (f j).
Proof. unfold on_buf, fupd. case_decide; by subst. Qed.

Lemma path_ext f g x l y :
  (forall z, z = x \/ z ∈ l -> b_next (g z) = b_next (f z)) ->
  (forall z, z = y \/ z ∈ l -> b_prev (g z) = b_prev (f z)) ->
  path f x l y -> path g x l y.
Proof.
  revert x. induction l as [|z l IH]; intros x Hn Hp; simpl; unfold link.
  - rewrite Hn, Hp by auto. done.
  - rewrite Hn, Hp by (rewrite ?elem_of_cons; auto). intros [H1 H2]. split; [done|].
    apply IH; [| |done]; intros w [Hw|Hw]; (apply Hn || apply Hp); rewrite ?elem_of_cons; auto.
Qed.

Lemma path_app f x l1 z l2 y :
  path f x (l1 ++ z :: l2) y <-> path f x l1 z /\ path f z l2 y.
Proof.
  revert x. induction l1 as [|w l1 IH]; intros x; simpl; [done|]. rewrite IH. tauto.
Qed.

Lemma path_last f x l y : path f x l y -> b_prev (f y) = x \/ b_prev (f y) ∈ l.
Proof.
  revert x. induction l as [|z l IH]; intros x; simpl.
  - intros [_ ->]. auto.
  - intros [_ H]. destruct (IH z H) as [->|?]; rewrite elem_of_cons; auto.
Qed.

Lemma path_first f x l y : path f x l y -> b_next (f x) = y \/ b_next (f x) ∈ l.
Proof.
  destruct l as [|z l]; simpl.
  - intros [-> _]. auto.
  - intros [[-> _] _]. rewrite elem_of_cons; auto.
Qed.

Lemma unlink_next b f j :
  b_next (f b) <> b ->
  b_next (unlink b f j) = if decide (j = b_prev (f b)) then b_next (f b) else b_next (f j).
Proof.
  intros Hb. unfold unlink. rewrite next_set_next, prev_set_prev.
  rewrite (decide_False (P := b = _)) by congruence. by rewrite !next_set_prev.
Qed.
Lemma unlink_prev b f j :
  b_prev (unlink b f j) = if decide (j = b_next (f b)) then b_prev (f b) else b_prev (f j).
Proof. unfold unlink. by rewrite prev_set_next, prev_set_prev. Qed.

(** Taking a buffer out of the chain. *)
Lemma path_unlink f x l1 b l2 y :
  NoDup (l1 ++ b :: l2) -> x ∉ l1 ++ b :: l2 -> y ∉ l1 ++ b :: l2 ->
  path f x (l1 ++ b :: l2) y -> path (unlink b f) x (l1 ++ l2) y.
Proof.
  rewrite path_app. intros Hnd Hx Hy [H1 H2].
  pose proof (path_last _ _ _ _ H1) as Hpr. pose proof (path_first _ _ _ _ H2) as Hnx.
  assert (Hb : b_next (f b) <> b).
  { intros Hbb. rewrite Hbb in Hnx. destruct Hnx as [->|Hnx].
    - apply Hy, elem_of_app; right; apply elem_of_cons; auto.
    - apply NoDup_app in Hnd as (_ & _ & Hnd). by apply NoDup_cons in Hnd as [? _]. }
  revert x Hnd Hx H1 Hpr. induction l1 as [|z l1 IH]; intros x Hnd Hx H1 Hpr; simpl in *.
  - apply NoDup_cons in Hnd as [Hb2 Hnd]. destruct H1 as [Hx1 Hx2].
    destruct l2 as [|n l2]; simpl in *.
    + destruct H2 as [Hn Hp]. split; [rewrite unlink_next by done|rewrite unlink_prev];
        by rewrite decide_True.
    + destruct H2 as [[Hn Hp] H2]. apply NoDup_cons in Hnd as [Hn2 Hnd].
      rewrite !elem_of_cons in *. split.
      * split; [rewrite unlink_next by done|rewrite unlink_prev]; by rewrite decide_True.
      * eapply path_ext; [| |exact H2]; intros w Hw.
        -- rewrite unlink_next by done. rewrite decide_False; [done|].
           rewrite Hx2. intros ->. destruct Hw as [->|Hw]; apply Hx; auto.
        -- rewrite unlink_prev. rewrite decide_False; [done|].
           rewrite Hn. intros ->. destruct Hw as [->|Hw]; [apply Hy; auto|done].
  - destruct H1 as [[Hxz Hzx] H1]. apply NoDup_cons in Hnd as [Hz Hnd].
    rewrite elem_of_cons in Hx, Hy. rewrite elem_of_app, elem_of_cons in Hz.
    assert (Hpr1 : b_prev (f b) = z \/ b_prev (f b) ∈ l1) by (eapply path_last; done).
    split.
    + split.
      * rewrite unlink_next by done. rewrite decide_False; [done|]. intros ->. apply Hx.
        destruct Hpr1 as [?|?]; [auto|]. right. apply elem_of_app; auto.
      * rewrite unlink_prev. rewrite decide_False; [done|]. intros ->.
        destruct Hnx as [<-|?]; [apply Hy; auto|]. tauto.
    + apply IH; auto. rewrite elem_of_app, elem_of_cons. tauto.
Qed.

(** Putting a buffer at the front of the chain. *)
Lemma path_push f l b :
  b <> HEAD -> b ∉ l -> HEAD ∉ l -> NoDup l -> path f HEAD l HEAD ->
  path (link_head b (link_new b f)) HEAD (b :: l) HEAD.
Proof.
  intros Hb Hbl Hl Hnd H.
  assert (Hne : b_next (f HEAD) <> b).
  { destruct (path_first _ _ _ _ H) as [->|Hin]; congruence. }
  set (n := b_next (f HEAD)) in *.
  assert (Hn0 : b_next (link_new b f HEAD) = n).
  { unfold link_new. rewrite next_set_prev, next_set_next. by rewrite decide_False. }
  assert (Hnext : forall j, b_next (link_head b (link_new b f) j) =
    if decide (j = HEAD) then b else if decide (j = b) then n else b_next (f j)).
  { intros j. unfold link_head. rewrite Hn0, next_set_next, next_set_prev.
    unfold link_new. by rewrite next_set_prev, next_set_next. }
  assert (Hprev : forall j, b_prev (link_head b (link_new b f) j) =
    if decide (j = n) then b else if decide (j = b) then HEAD else b_prev (f j)).
  { intros j. unfold link_head. rewrite Hn0, prev_set_next, prev_set_prev.
    unfold link_new. by rewrite prev_set_prev, prev_set_next. }
  simpl. split; [split|].
  - rewrite Hnext. by rewrite decide_True.
  - rewrite Hprev. rewrite decide_False by congruence. by rewrite decide_True.
  - destruct l as [|z l]; simpl in *.
    + destruct H as [H1 H2]. split.
      * rewrite Hnext, decide_False, decide_True by done. done.
      * rewrite Hprev. rewrite decide_True by done. done.
    + destruct H as [[H1 H2] H]. rewrite elem_of_cons in *. split.
      * split; [rewrite Hnext, decide_False, decide_True by done; done|].
        rewrite Hprev. by rewrite decide_True.
      * apply NoDup_cons in Hnd as [Hz _].
        eapply path_ext; [| |exact H]; intros w Hw.
        -- rewrite Hnext. rewrite !decide_False; [done| |]; intros ->; destruct Hw; subst; tauto.
        -- rewrite Hprev. rewrite !decide_False; [done| |]; intros ->; destruct Hw; subst; auto.
Qed.

Lemma scan_next test f x l fuel :
  path f x l HEAD -> HEAD ∉ l -> (length l <= fuel)%nat ->
  scan b_next test f fuel (b_next (f x)) = Some (first (fun i => test (f i)) l).
Proof.
  revert x fuel. induction l as [|z l IH]; intros x fuel H Hl Hf; simpl in H.
  - destruct H as [-> _]. destruct fuel; cbn [scan]; by rewrite decide_True.
  - destruct H as [[-> _] H]. rewrite elem_of_cons in Hl. simpl in *.
    destruct fuel as [|k]; [lia|]. cbn [scan]. rewrite decide_False by (intros ->; tauto).
    destruct (test (f z)); [done|]. apply IH; [done|tauto|lia].
Qed.

Lemma scan_prev test f l y fuel :
  path f HEAD l y -> HEAD ∉ l -> (length l <= fuel)%nat ->
  scan b_prev test f fuel (b_prev (f y)) = Some (first (fun i => test (f i)) (reverse l)).
Proof.
  revert y fuel. induction l as [|z l IH] using rev_ind; intros y fuel H Hl Hf.
  - destruct H as [_ ->]. destruct fuel; cbn [scan]; by rewrite decide_True.
  - apply path_app in H as [H [_ ->]]. rewrite elem_of_app, list_elem_of_singleton in Hl.
    rewrite length_app in Hf. simpl in Hf. destruct fuel as [|k]; [lia|].
    rewrite reverse_snoc. cbn [scan first]. rewrite decide_False by (intros ->; tauto).
    destruct (test (f z)); [done|]. apply IH; [done|tauto|lia].
Qed.

(** The cache holds [NBUF] buffers in one chain; [order] is the MRU order. *)
Definition chain (f : nat -> buf) (order : list nat) : Prop :=
  order ≡ₚ seq 0 NBUF /\ path f HEAD order HEAD.

Lemma chain_elem f order i : chain f order -> i ∈ order <-> (i < NBUF)%nat.
Proof. intros [Hp _]. rewrite Hp, elem_of_seq. lia. Qed.
Lemma chain_NoDup f order : chain f order -> NoDup order.
Proof. intros [Hp _]. rewrite Hp. apply NoDup_seq. Qed.
Lemma chain_head f order : chain f order -> HEAD ∉ order.
Proof. intros H. rewrite chain_elem by done. unfold HEAD. lia. Qed.
Lemma chain_length f order : chain f order -> length order = NBUF.
Proof. intros [Hp _]. by rewrite Hp, length_seq. Qed.

(** Two states of the buffers with the same links. *)
Definition same_links (f g : nat -> buf) : Prop :=
  forall i, b_next (g i) = b_next (f i) /\ b_prev (g i) = b_prev (f i).

Lemma same_links_lock i x f : same_links f (on_buf i (b_set_lock x) f).
Proof. intros j. unfold on_buf, fupd. case_decide; by subst. Qed.

Lemma link_head_ext b f g : same_links f g -> same_links (link_head b f) (link_head b g).
Proof.
  intros H j. unfold link_head. destruct (H HEAD) as [-> _].
  rewrite !next_set_next, !next_set_prev, !prev_set_next, !prev_set_prev.
  destruct (H j) as [-> ->]. done.
Qed.

(** A change that leaves [next] and [prev] alone keeps the chain. *)
Lemma chain_ext f g order :
  same_links f g -> chain f order -> chain g order.
Proof.
  intros Hfg [Hp H]. split; [done|]. eapply path_ext; [| |exact H]; intros z _; apply Hfg.
Qed.

(** The list surgery of [brelse] moves the buffer to the front of the MRU list. *)
Lemma chain_touch f l1 b l2 :
  chain f (l1 ++ b :: l2) -> chain (link_head b (link_new b (unlink b f))) (b :: l1 ++ l2).
Proof.
  intros H. pose proof (chain_NoDup _ _ H) as Hnd. pose proof (chain_head _ _ H) as Hh.
  destruct H as [Hp H]. split; [by rewrite Permutation_middle|].
  assert (Hnd' : NoDup (b :: l1 ++ l2)) by (by rewrite Permutation_middle).
  apply NoDup_cons in Hnd' as [Hb Hnd'].
  rewrite elem_of_app, elem_of_cons in Hh.
  apply path_push; [intros ->; tauto|done|rewrite elem_of_app; tauto|done|].
  apply path_unlink; [done|rewrite elem_of_app, elem_of_cons; tauto..|done].
Qed.

(** [binit] chains the buffers from the last one to the first one. *)
Lemma binit_loop_path n b f l :
  path f HEAD l HEAD -> (forall i, i ∈ l -> (i < b)%nat) -> NoDup l -> (b + n <= HEAD)%nat ->
  path (binit_loop n b f) HEAD (reverse (seq b n) ++ l) HEAD.
Proof.
  revert b f l. induction n as [|n IH]; intros b f l H Hl Hnd Hb; simpl; [done|].
  rewrite reverse_cons, <- app_assoc. simpl. apply IH.
  - eapply path_ext; [| |apply (path_push f l b); [lia| | |done|done]].
    + intros z _. apply link_head_ext. apply same_links_lock.
    + intros z _. apply link_head_ext. apply same_links_lock.
    + intros Hin%Hl. lia.
    + intros Hin%Hl. lia.
  - intros i Hi. apply elem_of_cons in Hi as [->|Hi%Hl]; lia.
  - constructor; [|done]. intros Hin%Hl. lia.
  - lia.
Qed.

(** ** The cache implements the interface *)

Section bio_rel.
Context {D : Type} `{!DiskOps D} `{!Disk D} (me : nat) (pid : Z).
Implicit Types (s : bcache D) (a : abs).

Definition in_range a (b : Z) : Prop := 0 <= b < a_size a.

Definition buf_flags a (b : Z) : Z :=
  if decide (b ∈ a_pin a) then Z.lor B_VALID B_DIRTY else B_VALID.

(** A buffer that caches a block. *)
Record caches a (x : buf) (b : Z) (d : block) : Prop := mk_caches {
  ca_dev : b_dev x = dk_dev;
  ca_blockno : b_blockno x = b;
  ca_range : in_range a b;
  ca_data : b_data x = d;
  ca_ok : block_ok d;
  ca_flags : b_flags x = buf_flags a b
}.

(** A buffer that has not been used since [binit]. *)
Record unused (x : buf) : Prop := mk_unused {
  un_dev : b_dev x = 0;
  un_flags : b_flags x = 0;
  un_data : length (b_data x) = BSIZE
}.

Definition buf_rel a (x : buf) (h : option (Z * block)) : Prop :=
  match h with
  | Some (b, d) => b_lock x = held_by pid /\ b_refcnt x = 1 /\ caches a x b d
  | None => b_lock x = initsleeplock /\ b_refcnt x = 0 /\
            (unused x \/ caches a x (b_blockno x) (a_view a (b_blockno x)))
  end.

Record bc_rel s a : Prop := mk_bc_rel {
  br_lock : bc_lock s = initlock;
  br_dk : dk_ok (bc_dk s);
  br_size : dk_size (bc_dk s) = a_size a;
  br_hist : dk_hist (bc_dk s) = a_hist a;
  br_disk b : in_range a b -> dk_read (bc_dk s) b = a_disk a b;
  br_chain : exists order, chain (bc_buf s) order;
  br_buf i : (i < NBUF)%nat -> buf_rel a (bc_buf s i) (a_held a !! i);
  br_held i h : a_held a !! i = Some h -> (i < NBUF)%nat;
  br_uniq i j : (i < NBUF)%nat -> (j < NBUF)%nat ->
    b_dev (bc_buf s i) = dk_dev -> b_dev (bc_buf s j) = dk_dev ->
    b_blockno (bc_buf s i) = b_blockno (bc_buf s j) -> i = j;
  br_pin b : b ∈ a_pin a -> exists i, (i < NBUF)%nat /\ b_dev (bc_buf s i) = dk_dev /\
    b_blockno (bc_buf s i) = b;
  br_view_ok b : in_range a b -> block_ok (a_view a b);
  br_view b : in_range a b -> b ∉ a_pin a -> a_view a b = a_disk a b
}.

(** Equal up to the links. *)
Definition same_fields (x y : buf) : Prop :=
  b_flags x = b_flags y /\ b_dev x = b_dev y /\ b_blockno x = b_blockno y /\
  b_lock x = b_lock y /\ b_refcnt x = b_refcnt y /\ b_data x = b_data y.

(** Abstract caches that differ at block [b] only. *)
Definition same_but a a' (b : Z) : Prop :=
  a_size a' = a_size a /\
  forall c, c <> b -> (c ∈ a_pin a' <-> c ∈ a_pin a) /\ a_view a' c = a_view a c.

Lemma buf_flags_same a a' b c : same_but a a' b -> c <> b -> buf_flags a' c = buf_flags a c.
Proof.
  intros [_ H] Hc. destruct (H c Hc) as [Hp _]. unfold buf_flags.
  destruct (decide (c ∈ a_pin a')), (decide (c ∈ a_pin a)); tauto.
Qed.

Lemma caches_same a a' b x y c d :
  same_but a a' b -> same_fields y x -> c <> b -> caches a x c d -> caches a' y c d.
Proof.
  intros Hs (F1 & F2 & F3 & F4 & F5 & F6) Hc [C1 C2 C3 C4 C5 C6].
  split; try congruence.
  - unfold in_range in *. by destruct Hs as [-> _].
  - by rewrite (buf_flags_same a a' b), F1.
Qed.

Lemma buf_rel_same a a' b x y h :
  same_but a a' b -> same_fields y x -> (b_dev x = dk_dev -> b_blockno x <> b) ->
  buf_rel a x h -> buf_rel a' y h.
Proof.
  intros Hs Hf Hb H. pose proof Hf as (F1 & F2 & F3 & F4 & F5 & F6).
  destruct h as [[c d]|]; simpl in *; rewrite F4, F5.
  - destruct H as (H1 & H2 & H3). split_and!; [done..|].
    eapply caches_same; [done..| |done]. destruct H3 as [C1 <- _ _ _ _]. auto.
  - destruct H as (H1 & H2 & H3). split_and!; [done..|]. destruct H3 as [[U1 U2 U3]|H3]; [left|right].
    + split; congruence.
    + assert (Hbx : b_blockno x <> b) by (apply Hb, H3).
      rewrite F3. rewrite (proj2 (proj2 Hs _ Hbx)). by eapply caches_same.
Qed.

(** One operation changes one buffer: what is left to check. *)
Lemma bc_rel_update s a s' a' i b :
  bc_rel s a -> (i < NBUF)%nat ->
  bc_lock s' = initlock -> dk_ok (bc_dk s') -> dk_size (bc_dk s') = a_size a' ->
  dk_hist (bc_dk s') = a_hist a' ->
  (forall b, in_range a' b -> dk_read (bc_dk s') b = a_disk a' b) ->
  (exists order, chain (bc_buf s') order) ->
  (forall j, (j < NBUF)%nat -> j <> i -> same_fields (bc_buf s' j) (bc_buf s j)) ->
  same_but a a' b ->
  (forall j, j <> i -> a_held a' !! j = a_held a !! j) ->
  buf_rel a' (bc_buf s' i) (a_held a' !! i) ->
  b_dev (bc_buf s' i) = dk_dev -> b_blockno (bc_buf s' i) = b ->
  (forall j, (j < NBUF)%nat -> j <> i -> b_dev (bc_buf s j) = dk_dev -> b_blockno (bc_buf s j) <> b) ->
  (b_dev (bc_buf s i) = dk_dev -> b_blockno (bc_buf s i) <> b ->
   b_blockno (bc_buf s i) ∉ a_pin a) ->
  (in_range a' b -> block_ok (a_view a' b) /\ (b ∉ a_pin a' -> a_view a' b = a_disk a' b)) ->
  (forall c, c <> b -> a_disk a' c = a_disk a c) ->
  bc_rel s' a'.
Proof.
  intros R Hi Hlk Hok Hsz Hh Hd Hch Hsame Hsb Hheld Hbuf Hdev Hbno Hother Hold Hb Hdisk.
  pose proof (proj1 Hsb) as Hsize.
  assert (Hr : forall c, in_range a' c -> in_range a c) by (unfold in_range; by rewrite Hsize).
  split; auto.
  - intros j Hj. destruct (decide (j = i)) as [->|Hne]; [done|]. rewrite Hheld by done.
    eapply buf_rel_same; [done|by apply Hsame|by apply Hother|]. by apply R.
  - intros j h Hj. destruct (decide (j = i)) as [->|Hne]; [done|]. rewrite Hheld in Hj by done.
    by eapply R.
  - assert (Hkey : forall j, (j < NBUF)%nat -> j <> i ->
      b_dev (bc_buf s' j) = dk_dev -> b_blockno (bc_buf s' j) <> b).
    { intros j Hj Hne. destruct (Hsame j Hj Hne) as (_ & -> & -> & _). by apply Hother. }
    intros j k Hj Hk Dj Dk Ejk.
    destruct (decide (j = i)) as [->|Nj], (decide (k = i)) as [->|Nk]; [done| | |].
    + exfalso. apply (Hkey k Hk Nk Dk). congruence.
    + exfalso. apply (Hkey j Hj Nj Dj). congruence.
    + destruct (Hsame j Hj Nj) as (_ & Sj & Bj & _), (Hsame k Hk Nk) as (_ & Sk & Bk & _).
      apply (br_uniq s a R); congruence.
  - intros c Hc. destruct (decide (c = b)) as [->|Hne]; [by exists i|].
    apply (proj1 (proj2 Hsb c Hne)) in Hc.
    destruct (br_pin s a R c Hc) as (j & Hj & Dj & Bj).
    destruct (decide (j = i)) as [->|Nj]; [rewrite Bj in Hold; by destruct (Hold Dj Hne)|].
    destruct (Hsame j Hj Nj) as (_ & Sj & Bj' & _). exists j. split_and!; congruence.
  - intros c Hc. destruct (decide (c = b)) as [->|Hne]; [by apply Hb|].
    rewrite (proj2 (proj2 Hsb c Hne)). by apply R, Hr.
  - intros c Hc Hp. destruct (decide (c = b)) as [->|Hne]; [by apply Hb|].
    rewrite (proj2 (proj2 Hsb c Hne)), Hdisk by done. apply R; [by apply Hr|].
    by rewrite <- (proj1 (proj2 Hsb c Hne)).
Qed.

Lemma has_valid a b x : b_flags x = buf_flags a b -> has_flag x B_VALID = true.
Proof. unfold has_flag, buf_flags. intros ->. by case_decide. Qed.

Lemma not_dirty a b x : b_flags x = buf_flags a b -> has_flag x B_DIRTY = false -> b ∉ a_pin a.
Proof. unfold has_flag, buf_flags. intros ->. by case_decide. Qed.

(** The lens into one buffer of the cache. *)
Lemma wp_b_acquiresleep i s (Q : unit -> bcache D -> Prop) :
  b_lock (bc_buf s i) = initsleeplock ->
  Q tt (upd_buf i (b_set_lock (held_by pid)) s) -> wp (b_acquiresleep me pid i) Q s.
Proof.
  intros Hl HQ. apply wp_zoom. apply (wp_acquiresleep _ _ _ _ id); [by rewrite Hl|]. done.
Qed.

Lemma wp_b_holding i s (Q : bool -> bcache D -> Prop) :
  b_lock (bc_buf s i) = held_by pid ->
  (forall s', bc_lock s' = bc_lock s -> bc_dk s' = bc_dk s -> bc_wakes s' = bc_wakes s ->
     (forall j, bc_buf s' j = bc_buf s j) -> Q true s') ->
  wp (b_holding me pid i) Q s.
Proof.
  intros Hl HQ. apply wp_zoom. apply wp_b_holdingsleep; [done|]. apply HQ; try done.
  intros j. simpl. unfold fupd. case_decide; by subst.
Qed.

(** Every buffer is held or pinned only if the busy blocks fill the cache. *)
Lemma busy_full s a :
  bc_rel s a ->
  (forall i, (i < NBUF)%nat -> recyclable (bc_buf s i) = false) ->
  (NBUF <= size (a_busy a))%nat /\
  forall b, b ∈ a_busy a -> exists i, (i < NBUF)%nat /\ b_dev (bc_buf s i) = dk_dev /\
    b_blockno (bc_buf s i) = b.
Proof.
  intros R Hall.
  assert (Hbusy : forall i, (i < NBUF)%nat ->
    b_dev (bc_buf s i) = dk_dev /\ b_blockno (bc_buf s i) ∈ a_busy a).
  { intros i Hi. pose proof (br_buf s a R i Hi) as Hb. pose proof (Hall i Hi) as Hr.
    unfold a_busy. destruct (a_held a !! i) as [[b d]|] eqn:Hh; simpl in Hb.
    - destruct Hb as (_ & _ & [C1 -> _ _ _ _]). split; [done|]. apply elem_of_union_r.
      apply elem_of_list_to_set, list_elem_of_fmap. exists (i, (b, d)).
      split; [done|]. by apply elem_of_map_to_list.
    - destruct Hb as (_ & Hz & Hc). unfold recyclable in Hr. rewrite Hz in Hr. simpl in Hr.
      destruct Hc as [[U1 U2 _]|[C1 _ _ _ _ C6]].
      + unfold has_flag in Hr. by rewrite U2 in Hr.
      + split; [done|]. apply elem_of_union_l. unfold has_flag, buf_flags in *.
        rewrite C6 in Hr. by case_decide. }
  split.
  - assert (Hsub : list_to_set ((fun i => b_blockno (bc_buf s i)) <$> seq 0 NBUF) ⊆ a_busy a).
    { intros b Hb. apply elem_of_list_to_set, list_elem_of_fmap in Hb as (i & -> & Hi).
      apply elem_of_seq in Hi. apply Hbusy. lia. }
    apply subseteq_size in Hsub. rewrite size_list_to_set, length_fmap, length_seq in Hsub; [done|].
    apply NoDup_fmap_2_strong; [|apply NoDup_seq].
    intros i j Hi Hj E. rewrite elem_of_seq in Hi, Hj.
    apply (br_uniq s a R); try apply Hbusy; lia || done.
  - intros b Hb. unfold a_busy in Hb. apply elem_of_union in Hb as [Hb|Hb].
    + by apply (br_pin s a R).
    + apply elem_of_list_to_set, list_elem_of_fmap in Hb as ([i [c d]] & -> & Hi).
      apply elem_of_map_to_list in Hi. pose proof (br_held s a R i _ Hi) as Hlt.
      pose proof (br_buf s a R i Hlt) as Hbuf. rewrite Hi in Hbuf.
      destruct Hbuf as (_ & _ & [C1 C2 _ _ _ _]). by exists i.
Qed.

(** A change of one buffer that leaves its links alone keeps the chain. *)
Lemma chain_fupd f order i x :
  b_next x = b_next (f i) -> b_prev x = b_prev (f i) -> chain f order -> chain (fupd f i x) order.
Proof.
  intros H1 H2. apply chain_ext. intros j. unfold fupd. case_decide; by subst.
Qed.

Lemma chain_on_buf f order i g :
  b_next (g (f i)) = b_next (f i) -> b_prev (g (f i)) = b_prev (f i) ->
  chain f order -> chain (on_buf i g f) order.
Proof. apply chain_fupd. Qed.

Ltac at_buf := cbn [bc_buf bc_lock bc_dk upd_buf bc_set_buf bc_set_lock fst snd];
  unfold on_buf; rewrite ?fupd_eq.

(** Holding a block in a buffer that already caches it. *)
Lemma bc_rel_hold s a i b s' :
  bc_rel s a -> (i < NBUF)%nat -> a_held a !! i = None ->
  (forall j, (j < NBUF)%nat -> j <> i -> b_dev (bc_buf s j) = dk_dev -> b_blockno (bc_buf s j) <> b) ->
  (b_dev (bc_buf s i) = dk_dev -> b_blockno (bc_buf s i) <> b ->
   b_blockno (bc_buf s i) ∉ a_pin a) ->
  bc_lock s' = initlock -> dk_ok (bc_dk s') -> dk_size (bc_dk s') = dk_size (bc_dk s) ->
  dk_hist (bc_dk s') = dk_hist (bc_dk s) ->
  (forall c, in_range a c -> dk_read (bc_dk s') c = dk_read (bc_dk s) c) ->
  (exists order, chain (bc_buf s') order) ->
  (forall j, j <> i -> bc_buf s' j = bc_buf s j) ->
  b_lock (bc_buf s' i) = held_by pid -> b_refcnt (bc_buf s' i) = 1 ->
  caches a (bc_buf s' i) b (a_view a b) ->
  bc_rel s' (a_hold i (b, a_view a b) a).
Proof.
  intros R Hi Hh Hother Hold Hlk Hok Hsz Hhist Hd Hch Hsame H1 H2 H3.
  pose proof H3 as [C1 C2 C3 C4 C5 C6].
  apply (bc_rel_update s a s' _ i b); simpl; auto.
  - by rewrite Hsz, (br_size s a R).
  - by rewrite Hhist, (br_hist s a R).
  - intros c Hc. rewrite Hd by done. by apply R.
  - intros j _ Hj. rewrite Hsame by done. done.
  - done.
  - intros j Hj. by apply lookup_insert_ne.
  - rewrite lookup_insert_eq. split_and!; [done..|]. by split.
  - intros Hr. split; [done|]. by apply R.
Qed.

Lemma bc_bread_ok s a b (Q : nat -> bcache D -> Prop) :
  bc_rel s a -> 0 <= b < a_size a -> a_free a b -> (size (a_busy a ∪ {[b]}) <= NBUF)%nat ->
  (forall i s', a_held a !! i = None -> bc_rel s' (a_hold i (b, a_view a b) a) -> Q i s') ->
  wp (bc_bread me pid dk_dev b) Q s.
Proof.
  intros R Hb Hfree Hroom HQ. destruct (br_chain s a R) as [order Hch].
  unfold bc_bread, bget. wp_steps. apply wp_acquire; [apply R|]. wp_steps.
  cbn [bc_buf bc_set_lock].
  rewrite (scan_next _ _ _ order) by
    (try apply Hch; try (by eapply chain_head); by rewrite (chain_length _ _ Hch)).
  destruct (first _ order) as [i|] eqn:Hf.
  - (* the block is cached *)
    apply first_Some in Hf as [Hi Hkey]. rewrite (chain_elem _ _ _ Hch) in Hi.
    apply andb_true_iff in Hkey as [Hd%Z.eqb_eq Hn%Z.eqb_eq].
    pose proof (br_buf s a R i Hi) as Hbuf.
    destruct (a_held a !! i) as [[c d]|] eqn:Hh.
    { destruct Hbuf as (_ & _ & [_ C2 _ _ _ _]). destruct (Hfree i d). congruence. }
    destruct Hbuf as (Hlk & Href & [[U1 _ _]|Hc]); [pose proof dk_dev_range; lia|].
    rewrite Hn in Hc.
    wp_steps. apply wp_release; [done|].
    wp_steps. apply wp_b_acquiresleep; [by at_buf|]. wp_steps.
    at_buf. rewrite (has_valid a b) by apply Hc. cbn [negb]. wp_steps.
    apply HQ; [done|]. apply (bc_rel_hold s); auto; at_buf; try apply R; try done.
    + intros j Hj Hne Dj Bj. apply Hne. apply (br_uniq s a R); congruence.
    + exists order. do 2 (apply chain_fupd; [by at_buf..|]). done.
    + intros j Hj. by rewrite !fupd_ne.
    + simpl. by rewrite Href.
    + destruct Hc. by split.
  - (* not cached: recycle *)
    rewrite (scan_prev _ _ order) by
      (try apply Hch; try (by eapply chain_head); by rewrite (chain_length _ _ Hch)).
    assert (Hnc : forall j, (j < NBUF)%nat -> b_dev (bc_buf s j) = dk_dev ->
      b_blockno (bc_buf s j) <> b).
    { intros j Hj Dj Bj. rewrite <- (chain_elem _ _ _ Hch) in Hj.
      pose proof (first_None _ _ Hf j Hj) as H. unfold is_block in H. simpl in H.
      rewrite Dj, Bj, !Z.eqb_refl in H. done. }
    destruct (first _ (reverse order)) as [i|] eqn:Hf2.
    + apply first_Some in Hf2 as [Hi Hrec]. rewrite elem_of_reverse, (chain_elem _ _ _ Hch) in Hi.
      apply andb_true_iff in Hrec as [Href%Z.eqb_eq Hdirty%negb_true_iff].
      pose proof (br_buf s a R i Hi) as Hbuf.
      destruct (a_held a !! i) as [[c d]|] eqn:Hh; [destruct Hbuf as (_ & H1 & _); lia|].
      destruct Hbuf as (Hlk & _ & Hc).
      assert (Hp : b ∉ a_pin a).
      { intros Hp. destruct (br_pin s a R b Hp) as (j & Hj & Dj & Bj). by destruct (Hnc j). }
      wp_steps. apply wp_release; [done|].
      wp_steps. apply wp_b_acquiresleep; [by at_buf|]. wp_steps. at_buf. cbn [negb has_flag].
      apply wp_zoom. at_buf.
      apply dk_rd; simpl; try done; [apply R|by rewrite (br_size s a R)| |].
      { destruct Hc as [[_ _ U]|[_ _ _ -> C _]]; [done|apply C]. }
      intros d' Hok Hsz Hrd Hhist. wp_steps.
      apply HQ; [done|]. apply (bc_rel_hold s); auto; at_buf; simpl; try done.
      * intros Hdev _. destruct Hc as [[U1 _ _]|C]; [pose proof dk_dev_range; lia|].
        eapply not_dirty; [apply C|done].
      * intros c Hcr. apply Hrd. by rewrite (br_size s a R).
      * exists order. do 6 (apply chain_fupd; [by at_buf..|]). done.
      * intros j Hj. by rewrite !fupd_ne.
      * assert (Hv : a_view a b = dk_read (bc_dk s) b).
        { rewrite (br_disk s a R) by done. by apply R. }
        split; simpl; try done. 
        -- rewrite Hv. apply dk_read_ok; [apply R|by rewrite (br_size s a R)].
        -- unfold buf_flags. by rewrite decide_False.
    + destruct (busy_full s a R) as [Hfull Hcached].
      { intros i Hi. apply (first_None _ _ Hf2). by rewrite elem_of_reverse, (chain_elem _ _ _ Hch). }
      assert (Hbn : b ∉ a_busy a).
      { intros Hin. destruct (Hcached b Hin) as (j & Hj & Dj & Bj). by destruct (Hnc j). }
      rewrite size_union, size_singleton in Hroom by set_solver. lia.
Qed.

Lemma caches_ext a a' x y b d :
  a_size a' = a_size a -> buf_flags a' b = b_flags y ->
  b_dev y = b_dev x -> b_blockno y = b_blockno x -> b_data y = b_data x ->
  caches a x b d -> caches a' y b d.
Proof.
  intros Hs Hf Hd Hb Hda [C1 C2 C3 C4 C5 C6]. split; try congruence.
  unfold in_range in *. by rewrite Hs.
Qed.

(** The blocks of the other buffers, when buffer [i] holds [b]. *)
Lemma held_other s a i b d j :
  bc_rel s a -> a_held a !! i = Some (b, d) -> (j < NBUF)%nat -> j <> i ->
  b_dev (bc_buf s j) = dk_dev -> b_blockno (bc_buf s j) <> b.
Proof.
  intros R Hh Hj Hne Dj Bj. pose proof (br_held s a R i _ Hh) as Hi.
  pose proof (br_buf s a R i Hi) as Hbuf. rewrite Hh in Hbuf.
  destruct Hbuf as (_ & _ & [C1 C2 _ _ _ _]). apply Hne. apply (br_uniq s a R); congruence.
Qed.

Lemma disk_write_ne c b d x : x <> b -> disk_write c (b, d) x = c x.
Proof. intros H. unfold disk_write. simpl. by rewrite (proj2 (Z.eqb_neq _ _) H). Qed.
Lemma disk_write_eq c b d : disk_write c (b, d) b = d.
Proof. unfold disk_write. simpl. by rewrite Z.eqb_refl. Qed.

Lemma bc_bwrite_ok s a i b d (Q : unit -> bcache D -> Prop) :
  bc_rel s a -> a_held a !! i = Some (b, d) ->
  (forall s', bc_rel s' (a_written b d a) -> Q tt s') -> wp (bc_bwrite me pid i) Q s.
Proof.
  intros R Hh HQ. pose proof (br_held s a R i _ Hh) as Hi.
  pose proof (br_buf s a R i Hi) as Hbuf. rewrite Hh in Hbuf.
  destruct Hbuf as (Hlk & Href & [C1 C2 C3 C4 C5 C6]).
  unfold bc_bwrite. wp_steps. apply wp_b_holding; [done|]. intros s1 E1 E2 E3 E4.
  cbn [negb]. wp_steps. apply wp_zoom. at_buf. rewrite !E4.
  apply dk_wr; simpl; try congruence; [rewrite E2; apply R| |..].
  { by rewrite C2, E2, (br_size s a R). }
  { rewrite C6. unfold buf_flags. by case_decide. }
  rewrite C2, C4, E2. intros d' Hok Hsz Hrd Hhist. apply HQ.
  apply (bc_rel_update s a _ _ i b); at_buf; simpl; try done.
  - rewrite E1. apply R.
  - by rewrite Hsz, (br_size s a R).
  - by rewrite Hhist, (br_hist s a R).
  - intros c Hc. rewrite Hrd by (by rewrite (br_size s a R)).
    unfold disk_write. simpl. case_match; [done|]. by apply R.
  - destruct (br_chain s a R) as [order Hch]. exists order.
    do 2 (apply chain_fupd; [at_buf; by rewrite ?E4..|]).
    apply (chain_ext (bc_buf s)); [|done]. intros j. by rewrite E4.
  - intros j Hj Hne. rewrite !fupd_ne, E4 by done. done.
  - split; [done|]. intros c Hc. simpl. rewrite disk_write_ne by done. split; [set_solver|done].
  - rewrite Hh. split_and!; [done..|]. split; simpl; try done.
    unfold buf_flags. simpl. rewrite decide_False by set_solver. done.
  - intros j Hj Hne. eapply held_other; done.
  - intros _. rewrite !disk_write_eq. done.
  - intros c Hc. by rewrite disk_write_ne.
Qed.

Lemma wp_b_releasesleep i s (Q : unit -> bcache D -> Prop) :
  b_lock (bc_buf s i) = held_by pid ->
  Q tt (mk_bcache (bc_lock s) (fupd (bc_buf s) i (b_set_lock initsleeplock (bc_buf s i)))
          (bc_dk s) (bc_wakes s ++ [i])) ->
  wp (b_releasesleep me i) Q s.
Proof.
  intros Hl HQ. apply wp_zoom.
  apply wp_releasesleep; [split; try done; by intros [? []]|simpl; by rewrite Hl|done].
Qed.

(** The list surgery does not touch the other fields. *)
Lemma touch_fields b f j : same_fields (link_head b (link_new b (unlink b f)) j) (f j).
Proof.
  assert (Hon : forall i g (f0 : nat -> buf), (forall x, same_fields (g x) x) ->
    same_fields (on_buf i g f0 j) (f0 j)).
  { intros i g f0 Hg. unfold on_buf, fupd. case_decide; subst; [apply Hg|done]. }
  assert (Htrans : forall x y z, same_fields x y -> same_fields y z -> same_fields x z).
  { unfold same_fields. intuition congruence. }
  unfold link_head, link_new, unlink.
  do 6 (eapply Htrans; [by apply Hon|]). done.
Qed.

Lemma bc_brelse_ok s a i b d (Q : unit -> bcache D -> Prop) :
  bc_rel s a -> a_held a !! i = Some (b, d) -> b ∈ a_pin a \/ d = a_disk a b ->
  (forall s', bc_rel s' (a_released i b d a) -> Q tt s') -> wp (bc_brelse me pid i) Q s.
Proof.
  intros R Hh Hd HQ. pose proof (br_held s a R i _ Hh) as Hi.
  pose proof (br_buf s a R i Hi) as Hbuf. rewrite Hh in Hbuf.
  destruct Hbuf as (Hlk & Href & Hc). pose proof Hc as [C1 C2 C3 C4 C5 C6].
  unfold bc_brelse. wp_steps. apply wp_b_holding; [done|]. intros s1 E1 E2 E3 E4.
  cbn [negb]. wp_steps. apply wp_b_releasesleep; [by rewrite E4|].
  wp_steps. apply wp_acquire; [simpl; rewrite E1; apply R|]. wp_steps. at_buf.
  rewrite E4. cbn [b_refcnt b_set_refcnt b_set_lock]. rewrite Href.
  change (u32 (1 - 1) =? 0) with true. cbv iota. wp_steps.
  apply wp_release; [done|]. apply HQ. at_buf.
  set (x := b_set_refcnt _ _). set (g := fupd _ i x).
  assert (Hg : forall j, j <> i -> g j = bc_buf s j).
  { intros j Hj. unfold g. rewrite !fupd_ne by done. apply E4. }
  assert (Hgi : g i = x) by apply fupd_eq.
  destruct (br_chain s a R) as [order Hch].
  assert (Hin : i ∈ order) by (by apply (chain_elem _ _ _ Hch)).
  apply list_elem_of_split in Hin as (l1 & l2 & ->).
  assert (Hchg : chain g (l1 ++ i :: l2)).
  { apply (chain_ext (bc_buf s)); [|done]. intros j. destruct (decide (j = i)) as [->|Hne].
    - by rewrite Hgi.
    - by rewrite Hg. }
  apply (bc_rel_update s a _ _ i b); simpl; rewrite ?E2; try apply R; try done.
  - eexists. by apply chain_touch.
  - intros j Hj Hne. rewrite <- Hg by done. apply touch_fields.
  - split; [done|]. intros c Hcb. simpl. by rewrite disk_write_ne.
  - intros j Hj. by apply lookup_delete_ne.
  - rewrite lookup_delete_eq. destruct (touch_fields i g i) as (F1 & F2 & F3 & F4 & F5 & F6).
    rewrite Hgi in *. split_and!; [by rewrite F4|by rewrite F5; simpl; rewrite Href|].
    right. rewrite F3. simpl.
    rewrite C2, disk_write_eq. by split; rewrite ?F1, ?F2, ?F3, ?F6.
  - destruct (touch_fields i g i) as (_ & -> & _). by rewrite Hgi.
  - destruct (touch_fields i g i) as (_ & _ & -> & _). by rewrite Hgi.
  - intros j Hj Hne. eapply held_other; done.
  - intros _. rewrite disk_write_eq. split; [done|]. intros Hp. by destruct Hd.
Qed.

Lemma bc_set_data_ok s a i b d d' :
  bc_rel s a -> a_held a !! i = Some (b, d) -> block_ok d' ->
  bc_rel (upd_buf i (b_set_data d') s) (a_hold i (b, d') a).
Proof.
  intros R Hh Hd'. pose proof (br_held s a R i _ Hh) as Hi.
  pose proof (br_buf s a R i Hi) as Hbuf. rewrite Hh in Hbuf.
  destruct Hbuf as (Hlk & Href & [C1 C2 C3 C4 C5 C6]).
  apply (bc_rel_update s a _ _ i b); at_buf; simpl; try apply R; try done.
  - destruct (br_chain s a R) as [order Hch]. exists order. by apply chain_fupd.
  - intros j Hj Hne. by rewrite fupd_ne.
  - intros j Hj. by apply lookup_insert_ne.
  - rewrite lookup_insert_eq. split_and!; [done..|]. by split.
  - intros j Hj Hne. eapply held_other; done.
  - intros _. split; [by apply R|]. intros Hp. by apply R.
Qed.

Lemma bc_set_dirty_ok s a i b d :
  bc_rel s a -> a_held a !! i = Some (b, d) ->
  bc_rel (upd_buf i (fun x => b_set_flags (Z.lor (b_flags x) B_DIRTY) x) s) (a_pinned b a).
Proof.
  intros R Hh. pose proof (br_held s a R i _ Hh) as Hi.
  pose proof (br_buf s a R i Hi) as Hbuf. rewrite Hh in Hbuf.
  destruct Hbuf as (Hlk & Href & [C1 C2 C3 C4 C5 C6]).
  apply (bc_rel_update s a _ _ i b); at_buf; simpl; try apply R; try done.
  - destruct (br_chain s a R) as [order Hch]. exists order. by apply chain_fupd.
  - intros j Hj Hne. by rewrite fupd_ne.
  - split; [done|]. intros c Hc. simpl. split; [set_solver|done].
  - rewrite Hh. split_and!; [done..|]. split; try done. simpl. rewrite C6.
    unfold buf_flags. simpl. rewrite (decide_True (P := b ∈ a_pin a ∪ {[b]})) by set_solver.
    by case_decide.
  - intros j Hj Hne. eapply held_other; done.
  - intros _. split; [by apply R|]. set_solver.
Qed.

(** The relation depends on the abstract cache up to [abs_eq]. *)
Lemma bc_rel_proper s a a' : abs_eq a a' -> bc_rel s a -> bc_rel s a'.
Proof.
  destruct a as [z dk h v p m], a' as [z' dk' h' v' p' m'].
  intros [E1 E2 E3 E4 E5 E6] [R1 R2 R3 R4 R5 R6 R7 R8 R9 R10 R11 R12]; simpl in *; subst.
  unfold in_range in *. simpl in *.
  split; unfold in_range; simpl; auto.
  - intros b Hb. rewrite E2. auto.
  - intros i Hi. specialize (R7 i Hi). destruct (m !! i) as [[b d]|]; simpl in *.
    + destruct R7 as (H1 & H2 & [C1 C2 C3 C4 C5 C6]). split_and!; [done..|]. by split.
    + destruct R7 as (H1 & H2 & [?|[C1 C2 C3 C4 C5 C6]]); (split_and!; [done..|]); [by left|].
      right. rewrite E4. by split.
  - intros b Hb. rewrite E4. auto.
  - intros b Hb Hp. rewrite E4, E2. auto.
Qed.

(** ** The instance *)

#[export] Instance bcache_ops : CacheOps (bcache D) := {|
  bread := bc_bread me pid; bwrite := bc_bwrite me pid; brelse := bc_brelse me pid;
  bdata i s := b_data (bc_buf s i);
  bset_data i d := upd_buf i (b_set_data d);
  bblockno i s := b_blockno (bc_buf s i);
  bset_dirty i := upd_buf i (fun x => b_set_flags (Z.lor (b_flags x) B_DIRTY) x)
|}.

Lemma bc_rel_held s a i b d :
  bc_rel s a -> a_held a !! i = Some (b, d) -> caches a (bc_buf s i) b d.
Proof.
  intros R Hh. pose proof (br_buf s a R i (br_held s a R i _ Hh)) as Hbuf.
  rewrite Hh in Hbuf. apply Hbuf.
Qed.

#[export] Program Instance bcache_cache : Cache (bcache D) := {|
  c_dev := dk_dev; c_rel := bc_rel
|}.
Next Obligation. intros. by eapply bc_rel_proper. Qed.
Next Obligation. intros. by eapply bc_bread_ok. Qed.
Next Obligation. intros. by eapply bc_bwrite_ok. Qed.
Next Obligation. intros. by eapply bc_brelse_ok. Qed.
Next Obligation. intros. eapply ca_data. by eapply bc_rel_held. Qed.
Next Obligation. intros. eapply ca_blockno. by eapply bc_rel_held. Qed.
Next Obligation. intros. by eapply bc_set_data_ok. Qed.
Next Obligation. intros. by eapply bc_set_dirty_ok. Qed.
Next Obligation. intros s a b R Hb. by apply R. Qed.
Next Obligation. intros s a i b d R Hh. by destruct (bc_rel_held s a i b d R Hh). Qed.
Next Obligation. intros s a b R Hb Hp. by apply R. Qed.
Next Obligation. apply u32_small. pose proof dk_dev_range. lia. Qed.
End bio_rel.

(** ** Initialisation *)

(** A buffer in the zeroed data segment. *)
Definition zero_buf : buf := mk_buf 0 0 0 initsleeplock 0 0 0 (repeat 0 BSIZE).

Definition zero_bcache {D} (d : D) : bcache D := mk_bcache initlock (fun _ => zero_buf) d [].

(** The abstract cache after a boot on the disk [d]. *)
Definition boot_abs {D} `{Disk D} (d : D) : abs :=
  mk_abs (dk_size d) (dk_read d) (dk_hist d) (dk_read d) ∅ ∅.

Lemma on_buf_zero i g f :
  (forall x, same_fields (g x) x \/ g x = b_set_lock initsleeplock x) ->
  (forall j, same_fields (f j) zero_buf) -> forall j, same_fields (on_buf i g f j) zero_buf.
Proof.
  intros Hg Hf j. unfold on_buf, fupd. case_decide; subst; [|by apply Hf].
  pose proof (Hf i) as Hi. destruct (Hg (f i)) as [H|H]; unfold same_fields in *; [|rewrite H; simpl];
    intuition congruence.
Qed.

Lemma binit_loop_zero n b f :
  (forall j, same_fields (f j) zero_buf) -> forall j, same_fields (binit_loop n b f j) zero_buf.
Proof.
  revert b f. induction n as [|n IH]; intros b f Hf; simpl; [done|].
  apply IH. unfold link_head, link_new.
  repeat (apply on_buf_zero; [intros x; by (left + right)|]). done.
Qed.

(** [binit] on the zeroed cache: an empty cache over the disk, chained. *)
Lemma binit_rel {D} `{Disk D} pid (d : D) :
  dk_ok d -> bc_rel pid (binit (zero_bcache d)) (boot_abs d).
Proof.
  intros Hok. 
  assert (Hz : forall j, same_fields (bc_buf (binit (zero_bcache d)) j) zero_buf).
  { apply binit_loop_zero. do 2 (apply on_buf_zero; [intros x; by left|]). done. }
  split; cbn [a_held a_pin a_view a_disk boot_abs]; try done.
  - exists (reverse (seq 0 NBUF) ++ []). split.
    + rewrite app_nil_r. apply reverse_Permutation.
    + apply binit_loop_path; [|intros i Hi; by apply elem_of_nil in Hi|constructor|unfold HEAD; lia].
      split; done.
  - intros i Hi. rewrite lookup_empty. destruct (Hz i) as (F1 & F2 & F3 & F4 & F5 & F6).
    split_and!; [done..|]. left. split; [done..|]. by rewrite F6.
  - intros i j _ _ Hi. destruct (Hz i) as (_ & F2 & _).
    exfalso. pose proof (@dk_dev_range D _ _). rewrite F2 in Hi. simpl in Hi. lia.
  - intros b Hb. by apply dk_read_ok.
Qed.

(** ** Properties *)

Section bio_properties.
Context {D : Type} `{!DiskOps D} `{!Disk D} (me : nat) (pid : Z).

(** C5: [bread] of an unlocked block, with fewer than [NBUF] other blocks in use,
    returns a locked buffer with the current contents of the block, and no other
    buffer caches that block. *)
Theorem bread_block (s : bcache D) (a : abs) (b : Z) :
  bc_rel pid s a -> 0 <= b < a_size a -> a_free a b ->
  (size (a_busy a ∪ {[b]}) <= NBUF)%nat ->
  wp (bc_bread me pid dk_dev b) (fun i s' =>
    bc_rel pid s' (a_hold i (b, a_view a b) a) /\
    b_data (bc_buf s' i) = a_view a b /\ b_lock (bc_buf s' i) = held_by pid /\
    forall j, (j < NBUF)%nat -> b_dev (bc_buf s' j) = dk_dev ->
      b_blockno (bc_buf s' j) = b -> j = i) s.
Proof.
  intros R Hb Hf Hroom. apply (bc_bread_ok me pid s a); [done..|]. intros i s' Hi R'.
  assert (Hh : a_held (a_hold i (b, a_view a b) a) !! i = Some (b, a_view a b))
    by apply lookup_insert_eq.
  pose proof (br_held _ _ _ R' _ _ Hh) as Hlt. pose proof (br_buf _ _ _ R' i Hlt) as Hbuf.
  rewrite Hh in Hbuf. destruct Hbuf as (H1 & _ & [C1 C2 _ C4 _ _]).
  split_and!; [done..|]. intros j Hj Dj Bj. apply (br_uniq _ _ _ R'); congruence.
Qed.

(** what is written through the cache is read back: after [bread], an update of
    the data, [bwrite] and [brelse], a later [bread] returns the new data, and the
    disk holds it. *)
Theorem bwrite_bread (s : bcache D) (a : abs) (b : Z) (d : block) :
  bc_rel pid s a -> 0 <= b < a_size a -> a_free a b ->
  (size (a_busy a ∪ {[b]}) <= NBUF)%nat -> block_ok d ->
  wp (let! i := bc_bread me pid dk_dev b in
      modify (upd_buf i (b_set_data d)) ;;;
      bc_bwrite me pid i ;;;
      bc_brelse me pid i ;;;
      let! j := bc_bread me pid dk_dev b in
      gets (fun s' => (b_data (bc_buf s' j), dk_read (bc_dk s') b)))
     (fun r _ => r = (d, d)) s.
Proof.
  intros R Hb Hf Hroom Hd. wp_step.
  apply (bc_bread_ok me pid s a); [done..|]. intros i s1 Hi R1. wp_steps.
  pose proof (bc_set_data_ok pid _ _ i b (a_view a b) d R1 (lookup_insert_eq _ _ _) Hd) as R2.
  apply (bc_bwrite_ok me pid _ _ i b d _ R2); [apply lookup_insert_eq|]. intros s3 R3. wp_steps.
  apply (bc_brelse_ok me pid _ _ i b d _ R3); [apply lookup_insert_eq|right; symmetry; apply disk_write_eq|].
  intros s4 R4. wp_steps. simpl in R4.
  set (a4 := a_released i b d _) in R4.
  assert (Hheld : a_held a4 = a_held a).
  { simpl. rewrite insert_insert_eq. by rewrite delete_insert_id. }
  apply (bc_bread_ok me pid _ a4); [done|done| | |].
  - intros j e. rewrite Hheld. apply Hf.
  - etrans; [apply subseteq_size|exact Hroom]. unfold a_busy. rewrite Hheld. simpl. set_solver.
  - intros j s5 Hj R5. wp_steps. f_equal.
    + erewrite ca_data by (eapply bc_rel_held; [exact R5|apply lookup_insert_eq]).
      apply disk_write_eq.
    + rewrite (br_disk _ _ _ R5) by done. apply disk_write_eq.
Qed.

(** replacement is least-recently-used: [brelse] of the last reference moves a
    buffer to the front of the list, and a [bget] that misses recycles the
    clean, unreferenced buffer nearest to its end. *)
Theorem bcache_lru (s : bcache D) (l1 l2 : list nat) (i : nat) :
  chain (bc_buf s) (l1 ++ i :: l2) -> bc_lock s = initlock ->
  (b_lock (bc_buf s i) = held_by pid -> b_refcnt (bc_buf s i) = 1 ->
   wp (bc_brelse me pid i) (fun _ s' => chain (bc_buf s') (i :: l1 ++ l2)) s) /\
  (forall dev blockno,
   (forall j, (j < NBUF)%nat -> is_block dev blockno (bc_buf s j) = false) ->
   Forall (fun j => recyclable (bc_buf s j) = false) l2 -> recyclable (bc_buf s i) = true ->
   b_lock (bc_buf s i) = initsleeplock ->
   wp (bget me pid dev blockno) (fun r s' => r = i /\ chain (bc_buf s') (l1 ++ i :: l2) /\
      b_dev (bc_buf s' i) = dev /\ b_blockno (bc_buf s' i) = blockno) s).
Proof.
  intros Hch Hlk. split.
  - intros Hl Hr. unfold bc_brelse. wp_steps. apply wp_b_holding; [done|]. intros s1 E1 _ _ E4.
    cbn [negb]. wp_steps. apply (wp_b_releasesleep me pid); [by rewrite E4|]. wp_steps.
    apply wp_acquire; [simpl; by rewrite E1|]. wp_steps. cbn [bc_buf upd_buf bc_set_buf bc_set_lock].
    rewrite on_buf_eq, fupd_eq. cbn [b_refcnt b_set_refcnt b_set_lock]. rewrite E4, Hr.
    change (u32 (1 - 1) =? 0) with true. cbv iota. wp_steps.
    apply wp_release; [done|]. cbn [bc_buf bc_set_buf bc_set_lock]. apply chain_touch.
    do 2 (apply chain_fupd; [by rewrite ?fupd_eq, ?E4..|]).
    apply (chain_ext (bc_buf s)); [|done]. intros j. by rewrite E4.
  - intros dev bno Hnone Hl2 Hrec Hl. unfold bget. wp_steps. apply wp_acquire; [done|]. wp_steps.
    cbn [bc_buf bc_set_lock].
    rewrite (scan_next _ _ _ (l1 ++ i :: l2)) by
      (try apply Hch; try (by eapply chain_head); by rewrite (chain_length _ _ Hch)).
    assert (Hf : first (fun j => is_block dev bno (bc_buf s j)) (l1 ++ i :: l2) = None).
    { destruct (first _ _) as [j|] eqn:Hf; [|done]. apply first_Some in Hf as [Hj Hb].
      apply (chain_elem _ _ _ Hch) in Hj. by rewrite Hnone in Hb. }
    rewrite Hf, (scan_prev _ _ (l1 ++ i :: l2)) by
      (try apply Hch; try (by eapply chain_head); by rewrite (chain_length _ _ Hch)).
    assert (Hg : first (fun j => recyclable (bc_buf s j)) (reverse (l1 ++ i :: l2)) = Some i).
    { rewrite reverse_app, reverse_cons, <- app_assoc. simpl.
      assert (Hr2 : Forall (fun j => recyclable (bc_buf s j) = false) (reverse l2))
        by (by apply Forall_reverse).
      induction Hr2 as [|j l Hj _ IH]; simpl; [by rewrite Hrec|]. by rewrite Hj. }
    rewrite Hg. wp_steps. apply wp_release; [done|]. wp_steps.
    apply wp_b_acquiresleep.
    { cbn [bc_buf upd_buf bc_set_buf bc_set_lock]. unfold on_buf. by rewrite !fupd_eq. }
    wp_steps. cbn [bc_buf upd_buf bc_set_buf bc_set_lock]. unfold on_buf. rewrite !fupd_eq.
    split_and!; [done| |done|done]. do 5 (apply chain_fupd; [by rewrite ?fupd_eq..|]). done.
Qed.
End bio_properties.
