(* ===== verification/Layout.v ===== *)
(** * On-disk format ([src/xv6/fs.h]) and [readsb] ([src/xv6/fs.c])

    The structures overlaid on disk blocks, decoded and encoded at the byte
    offsets that the C compiler gives their fields. *)

From S2P Require Import Prelude Block Disk Bio.

Record superblock : Type := mk_superblock {
  sb_size : Z;
  sb_nblocks : Z;
  sb_ninodes : Z;
  sb_nlog : Z;
  sb_logstart : Z;
  sb_inodestart : Z;
  sb_bmapstart : Z
}.

(** [memmove(sb, bp->data, sizeof( *sb))] *)
Definition decode_sb (d : block) : superblock :=
  mk_superblock (get32 d 0) (get32 d 4) (get32 d 8) (get32 d 12) (get32 d 16) (get32 d 20)
    (get32 d 24).

Section readsb.
Context {S : Type} `{!CacheOps S}.

Definition readsb (dev : Z) : M S superblock :=
  let! bp := bread (u32 dev) 1 in
  let! d := gets (bdata bp) in
  brelse bp ;;;
  ret (decode_sb d).
End readsb.

(** The abstract cache after releasing an unmodified, unpinned or pinned buffer. *)
Section release.
Context {S : Type} `{Cache S}.

Lemma hold_release s a i b d :
  a_held a !! i = None -> d = a_view a b ->
  c_rel s (a_released i b d (a_hold i (b, d) a)) -> c_rel s a.
Proof.
  intros Hn -> H1. refine (c_proper _ _ _ _ H1). split; try done; simpl.
  - intros x. unfold disk_write. simpl. destruct (Z.eqb_spec x b); by subst.
  - by rewrite delete_insert_id.
Qed.

(** Reading a block and releasing it leaves the cache as it was. *)
Lemma wp_readsb s a (Q : superblock -> S -> Prop) :
  u32 c_dev = c_dev -> c_rel s a -> 1 < a_size a -> a_free a 1 ->
  (size (a_busy a ∪ {[1%Z]}) <= NBUF)%nat ->
  (forall s', c_rel s' a -> Q (decode_sb (a_view a 1)) s') ->
  wp (readsb c_dev) Q s.
Proof.
  intros Hdev R Hsz Hf Hroom HQ. unfold readsb. rewrite Hdev. wp_steps.
  apply (c_bread s a); [done|lia|done..|]. intros i s1 Hi R1. wp_steps.
  assert (Hl : a_held (a_hold i (1, a_view a 1) a) !! i = Some (1, a_view a 1))
    by apply lookup_insert_eq.
  rewrite (c_data _ _ _ _ _ R1 Hl). apply (c_brelse s1 (a_hold i (1, a_view a 1) a) i 1 (a_view a 1)); [done..| |].
  - simpl. destruct (decide (1 ∈ a_pin a)); [by left|right]. eapply c_view_disk; [done|lia|done].
  - intros s2 R2. wp_steps. apply HQ. by eapply hold_release.
Qed.
End release.
