(* ===== verification/Log.v ===== *)
(** * The write-ahead log ([src/xv6/log.c])

    The log over any buffer cache that implements [Cache].  [lg_wakes] counts the
    calls [wakeup(&log)]; [sleep] is [Blocked].  The flagship result is crash
    atomicity: whatever prefix of the block writes of [commit] reaches the disk,
    and however often recovery is itself interrupted, a completed recovery shows
    either none or all of the transaction. *)

From S2P Require Import Prelude Spinlock Block Disk Bio Layout.

Definition MAXOPBLOCKS : Z := 10.
Definition LOGSIZE : nat := 30.

Record log : Type := mk_log {
  lg_lock : spinlock;
  lg_start : Z;
  lg_size : Z;
  lg_outstanding : Z;
  lg_committing : bool;
  lg_dev : Z;
  lh_n : Z;
  lh_block : list Z;
  lg_wakes : nat
}.

Definition lg_set_lock x l := mk_log x (lg_start l) (lg_size l) (lg_outstanding l)
  (lg_committing l) (lg_dev l) (lh_n l) (lh_block l) (lg_wakes l).
Definition lg_set_geometry st sz dev l := mk_log (lg_lock l) st sz (lg_outstanding l)
  (lg_committing l) dev (lh_n l) (lh_block l) (lg_wakes l).
Definition lg_set_outstanding x l := mk_log (lg_lock l) (lg_start l) (lg_size l) x
  (lg_committing l) (lg_dev l) (lh_n l) (lh_block l) (lg_wakes l).
Definition lg_set_committing x l := mk_log (lg_lock l) (lg_start l) (lg_size l) (lg_outstanding l)
  x (lg_dev l) (lh_n l) (lh_block l) (lg_wakes l).
Definition lh_set_n x l := mk_log (lg_lock l) (lg_start l) (lg_size l) (lg_outstanding l)
  (lg_committing l) (lg_dev l) x (lh_block l) (lg_wakes l).
Definition lh_set_block x l := mk_log (lg_lock l) (lg_start l) (lg_size l) (lg_outstanding l)
  (lg_committing l) (lg_dev l) (lh_n l) x (lg_wakes l).
Definition lg_wake l := mk_log (lg_lock l) (lg_start l) (lg_size l) (lg_outstanding l)
  (lg_committing l) (lg_dev l) (lh_n l) (lh_block l) (S (lg_wakes l)).

(** The log and the cache below it. *)
Record lstate (S : Type) : Type := mk_lstate { ls_log : log; ls_bc : S }.
Arguments mk_lstate {S}.
Arguments ls_log {S}.
Arguments ls_bc {S}.

(** Byte offset of [lh->block[i]] in the header block. *)
Definition hdr_off (i : Z) : nat := Z.to_nat (4 + 4 * i).

Section log.
Context {S : Type} `{!CacheOps S} (me : nat).

Definition bc {A} (m : M S A) : M (lstate S) A :=
  zoom ls_bc (fun b s => mk_lstate (ls_log s) b) m.
Definition on_log (f : log -> log) : M (lstate S) unit :=
  modify (fun s => mk_lstate (f (ls_log s)) (ls_bc s)).
Definition lock_log : M (lstate S) unit :=
  acquire me (fun s => lg_lock (ls_log s)) (fun x s => mk_lstate (lg_set_lock x (ls_log s)) (ls_bc s)).
Definition unlock_log : M (lstate S) unit :=
  release me (fun s => lg_lock (ls_log s)) (fun x s => mk_lstate (lg_set_lock x (ls_log s)) (ls_bc s)).

(** [log.lh.block[i]], read and written. *)
Definition lh_get (i : Z) : M (lstate S) Z :=
  let! l := gets ls_log in
  match lh_block l !! Z.to_nat i with
  | Some b => ret b
  | None => undefined "log.lh.block"
  end.
Definition lh_put (i v : Z) : M (lstate S) unit :=
  if i <? Z.of_nat LOGSIZE then on_log (fun l => lh_set_block (<[Z.to_nat i := v]> (lh_block l)) l)
  else undefined "log.lh.block".

(** [memmove(dst->data, src->data, BSIZE)] *)
Definition copy_data (dst src : nat) : M (lstate S) unit :=
  bc (modify (fun s => bset_data dst (list_inserts 0 (take BSIZE (bdata src s)) (bdata dst s)) s)).

Definition install_body (tail : Z) : M (lstate S) unit :=
  let! l := gets ls_log in
  let! lbuf := bc (bread (u32 (lg_dev l)) (u32 (lg_start l + tail + 1))) in
  let! b := lh_get tail in
  let! dbuf := bc (bread (u32 (lg_dev l)) (u32 b)) in
  copy_data dbuf lbuf ;;;
  bc (bwrite dbuf) ;;;
  bc (brelse lbuf) ;;;
  bc (brelse dbuf).

Definition install_trans : M (lstate S) unit :=
  let! l := gets ls_log in for_loop (Z.to_nat (lh_n l)) 0 install_body.

Definition read_head : M (lstate S) unit :=
  let! l := gets ls_log in
  let! buf := bc (bread (u32 (lg_dev l)) (u32 (lg_start l))) in
  let! lh := bc (gets (bdata buf)) in
  on_log (lh_set_n (i32 (get32 lh 0))) ;;;
  let! l := gets ls_log in
  for_loop (Z.to_nat (lh_n l)) 0 (fun i => lh_put i (i32 (get32 lh (hdr_off i)))) ;;;
  bc (brelse buf).

Definition write_head : M (lstate S) unit :=
  let! l := gets ls_log in
  let! buf := bc (bread (u32 (lg_dev l)) (u32 (lg_start l))) in
  bc (modify (fun s => bset_data buf (put32 (bdata buf s) 0 (lh_n l)) s)) ;;;
  for_loop (Z.to_nat (lh_n l)) 0 (fun i =>
    let! b := lh_get i in
    bc (modify (fun s => bset_data buf (put32 (bdata buf s) (hdr_off i) b) s))) ;;;
  bc (bwrite buf) ;;;
  bc (brelse buf).

Definition recover_from_log : M (lstate S) unit :=
  read_head ;;;
  install_trans ;;;
  on_log (lh_set_n 0) ;;;
  write_head.

(** [sizeof(struct logheader) >= BSIZE] is decided at compile time. *)
Definition initlog (dev : Z) : M (lstate S) unit :=
  if Nat.leb BSIZE (4 + 4 * LOGSIZE) then panic "initlog: too big logheader" else
  on_log (lg_set_lock initlock) ;;;
  let! sb := bc (readsb dev) in
  on_log (lg_set_geometry (i32 (sb_logstart sb)) (i32 (sb_nlog sb)) dev) ;;;
  recover_from_log.

Definition begin_op : M (lstate S) unit :=
  lock_log ;;;
  let! l := gets ls_log in
  if lg_committing l then unlock_log ;;; waits
  else if Z.of_nat LOGSIZE <? lh_n l + (lg_outstanding l + 1) * MAXOPBLOCKS then
    unlock_log ;;; waits
  else
    on_log (fun l => lg_set_outstanding (lg_outstanding l + 1) l) ;;;
    unlock_log.

Definition write_log_body (tail : Z) : M (lstate S) unit :=
  let! l := gets ls_log in
  let! to := bc (bread (u32 (lg_dev l)) (u32 (lg_start l + tail + 1))) in
  let! b := lh_get tail in
  let! from := bc (bread (u32 (lg_dev l)) (u32 b)) in
  copy_data to from ;;;
  bc (bwrite to) ;;;
  bc (brelse from) ;;;
  bc (brelse to).

Definition write_log : M (lstate S) unit :=
  let! l := gets ls_log in for_loop (Z.to_nat (lh_n l)) 0 write_log_body.

Definition commit : M (lstate S) unit :=
  let! l := gets ls_log in
  if 0 <? lh_n l then
    write_log ;;;
    write_head ;;;
    install_trans ;;;
    on_log (lh_set_n 0) ;;;
    write_head
  else ret tt.

Definition end_op : M (lstate S) unit :=
  lock_log ;;;
  on_log (fun l => lg_set_outstanding (lg_outstanding l - 1) l) ;;;
  let! l := gets ls_log in
  if lg_committing l then panic "log.committing" else
  let! do_commit :=
    (if lg_outstanding l =? 0 then on_log (lg_set_committing true) ;;; ret true
     else on_log lg_wake ;;; ret false) in
  unlock_log ;;;
  if do_commit : bool then
    commit ;;;
    lock_log ;;;
    on_log (lg_set_committing false) ;;;
    on_log lg_wake ;;;
    unlock_log
  else ret tt.

(** [for (i = 0; i < log.lh.n; i++) if (log.lh.block[i] == b->blockno) break;] *)
Fixpoint absorb_scan (bl : list Z) (blockno : Z) (n : nat) (i : Z) : Z :=
  match n with
  | O => i
  | Datatypes.S k =>
      if u32 (default 0 (bl !! Z.to_nat i)) =? blockno then i else absorb_scan bl blockno k (i + 1)
  end.

Definition log_write (b : nat) : M (lstate S) unit :=
  let! l := gets ls_log in
  if (Z.of_nat LOGSIZE <=? lh_n l) || (lg_size l - 1 <=? lh_n l) then
    panic "too big a transaction" else
  if lg_outstanding l <? 1 then panic "log_write outside of trans" else
  lock_log ;;;
  let! l := gets ls_log in
  let! blockno := bc (gets (bblockno b)) in
  let i := absorb_scan (lh_block l) blockno (Z.to_nat (lh_n l)) 0 in
  lh_put i (i32 blockno) ;;;
  (if i =? lh_n l then on_log (fun l => lh_set_n (lh_n l + 1) l) else ret tt) ;;;
  bc (modify (bset_dirty b)) ;;;
  unlock_log.
End log.

(** ** Lemmas on the abstract cache *)

(** The cache with no buffer locked. *)
Definition a_unheld (a : abs) : abs :=
  mk_abs (a_size a) (a_disk a) (a_hist a) (a_view a) (a_pin a) ∅.

(** The effect of a sequence of [bwrite]s. *)
Definition a_writes (ws : list (Z * block)) (a : abs) : abs :=
  foldl (fun a w => a_written w.1 w.2 a) a ws.

Lemma a_writes_app ws ws' a : a_writes (ws ++ ws') a = a_writes ws' (a_writes ws a).
Proof. apply foldl_app. Qed.

Lemma a_writes_fields ws a :
  a_size (a_writes ws a) = a_size a /\ a_disk (a_writes ws a) = replay (a_disk a) ws /\
  a_hist (a_writes ws a) = a_hist a ++ ws /\ a_view (a_writes ws a) = replay (a_view a) ws /\
  a_pin (a_writes ws a) ⊆ a_pin a /\ a_held (a_writes ws a) = a_held a.
Proof.
  revert a. induction ws as [|[b d] ws IH]; intros a; simpl.
  - by rewrite app_nil_r.
  - destruct (IH (a_written b d a)) as (-> & -> & -> & -> & Hp & ->). simpl.
    rewrite <- app_assoc. split_and!; try done. simpl in Hp. set_solver.
Qed.

(** A written block is no longer pinned. *)
Lemma a_writes_pin ws a b : b ∈ a_pin (a_writes ws a) <-> b ∈ a_pin a /\ b ∉ ws.*1.
Proof.
  revert a. induction ws as [|[c d] ws IH]; intros a; simpl.
  - split; [|tauto]. intros. split; [done|]. apply not_elem_of_nil.
  - rewrite IH, elem_of_cons. simpl. set_solver.
Qed.

Lemma replay_notin c ws x : x ∉ ws.*1 -> replay c ws x = c x.
Proof.
  unfold replay. revert c. induction ws as [|[b d] ws IH]; intros c Hx; simpl in *; [done|].
  rewrite elem_of_cons in Hx. rewrite IH by tauto. apply disk_write_ne. tauto.
Qed.

(** Replaying a list of writes twice, or over any part of it, is replaying it once. *)
Lemma replay_in c c' ws x : x ∈ ws.*1 -> replay c ws x = replay c' ws x.
Proof.
  unfold replay. revert c c'. induction ws as [|[b d] ws IH]; intros c c' Hx; simpl in *.
  - by apply elem_of_nil in Hx.
  - destruct (decide (x ∈ ws.*1)) as [Hin|Hin]; [by apply IH|].
    rewrite !(replay_notin _ ws x Hin). apply elem_of_cons in Hx as [->|]; [|done].
    by rewrite !disk_write_eq.
Qed.

Lemma replay_absorb c ws k x : replay (replay c (take k ws)) ws x = replay c ws x.
Proof.
  destruct (decide (x ∈ ws.*1)) as [Hin|Hin]; [by apply replay_in|].
  rewrite !(replay_notin _ ws x Hin). apply replay_notin. intros H. apply Hin.
  apply list_elem_of_fmap in H as (w & -> & Hw). apply list_elem_of_fmap.
  exists w. split; [done|]. apply elem_of_take in Hw as (i & Hi & _).
  by eapply list_elem_of_lookup_2.
Qed.


Section copy.
Context {S : Type} `{Cache S}.
Implicit Types (s : lstate S) (a : abs).

Lemma busy_hold a i b d : a_busy (a_hold i (b, d) a) ⊆ a_busy a ∪ {[b]}.
Proof.
  unfold a_busy. simpl. intros c Hc. apply elem_of_union in Hc as [Hc|Hc]; [set_solver|].
  apply elem_of_list_to_set, list_elem_of_fmap in Hc as ([j [e f]] & -> & Hj). simpl.
  apply elem_of_map_to_list in Hj. apply lookup_insert_Some in Hj as [[<- [= <- <-]]|[_ Hj]].
  - set_solver.
  - apply elem_of_union_l, elem_of_union_r, elem_of_list_to_set, list_elem_of_fmap.
    exists (j, (e, f)). split; [done|]. by apply elem_of_map_to_list.
Qed.

Lemma busy_unheld a : a_held a = ∅ -> a_busy a = a_pin a.
Proof.
  intros Hh. unfold a_busy. rewrite Hh, map_to_list_empty. simpl. set_solver.
Qed.

Lemma free_unheld a b : a_held a = ∅ -> a_free a b.
Proof. intros Hh i d. by rewrite Hh, lookup_empty. Qed.

(** [wp] of a cache operation inside the log state. *)
Lemma wp_bc {A} (m : M S A) s (Q : A -> lstate S -> Prop) :
  wp m (fun r b => Q r (mk_lstate (ls_log s) b)) (ls_bc s) -> wp (bc m) Q s.
Proof. intros Hm. unfold bc. by apply wp_zoom. Qed.

Lemma wp_on_log f s (Q : unit -> lstate S -> Prop) :
  Q tt (mk_lstate (f (ls_log s)) (ls_bc s)) -> wp (on_log f) Q s.
Proof. done. Qed.

Ltac log_steps :=
  repeat (first [wp_step | apply wp_bc | apply wp_on_log]; cbn beta); cbn [ls_log ls_bc].

(** The tail of the two copying loops: both buffers are locked, [src] is copied
    into [dst], [dst] is written and both are released. *)
Lemma wp_copy s a i j src dst (Q : unit -> lstate S -> Prop) :
  c_rel (ls_bc s) a -> i <> j -> src <> dst ->
  a_held a = {[ i := (src, a_view a src); j := (dst, a_view a dst) ]} ->
  (forall s', ls_log s' = ls_log s ->
     c_rel (ls_bc s') (a_written dst (a_view a src) (a_unheld a)) -> Q tt s') ->
  wp (copy_data j i ;;; bc (bwrite j) ;;; bc (brelse i) ;;; bc (brelse j)) Q s.
Proof.
  intros R Hij Hsd Hh HQ.
  assert (Hi : a_held a !! i = Some (src, a_view a src)) by (by rewrite Hh, lookup_insert_eq).
  assert (Hj : a_held a !! j = Some (dst, a_view a dst))
    by (by rewrite Hh, lookup_insert_ne, lookup_singleton_eq).
  destruct (c_held_ok _ _ _ _ _ R Hi) as [Hrs Hbs], (c_held_ok _ _ _ _ _ R Hj) as [Hrd Hbd].
  unfold copy_data. log_steps. rewrite (c_data _ _ _ _ _ R Hi), (c_data _ _ _ _ _ R Hj).
  rewrite take_ge by (by rewrite (proj1 Hbs)).
  rewrite inserts_whole by (rewrite (proj1 Hbs), (proj1 Hbd); done).
  pose proof (c_set_data _ _ _ _ _ _ R Hj Hbs) as R1.
  set (a1 := a_hold j (dst, a_view a src) a) in *.
  assert (Hj1 : a_held a1 !! j = Some (dst, a_view a src)) by apply lookup_insert_eq.
  assert (Hi1 : a_held a1 !! i = Some (src, a_view a src)) by (by apply lookup_insert_Some; right).
  apply (c_bwrite _ a1 j dst (a_view a src)); [done..|]. intros s2 R2. log_steps.
  set (a2 := a_written dst (a_view a src) a1) in *.
  apply (c_brelse _ a2 i src (a_view a src)); [done..| |].
  { simpl. rewrite disk_write_ne by done. destruct (decide (src ∈ a_pin a)); [left; set_solver|right].
    by eapply c_view_disk. }
  intros s3 R3. log_steps. set (a3 := a_released i src (a_view a src) a2) in *.
  apply (c_brelse _ a3 j dst (a_view a src)); [done| | |].
  { simpl. by rewrite lookup_delete_ne. }
  { right. simpl. by rewrite disk_write_eq. }
  intros s4 R4. cbn [ls_log ls_bc]. apply HQ; [done|]. simpl.
  refine (c_proper _ _ _ _ R4). split; try done; simpl.
  - intros x. unfold disk_write. simpl. destruct (x =? dst); [done|].
    destruct (Z.eqb_spec x src); by subst.
  - rewrite Hh. apply map_eq. intros k. rewrite lookup_empty.
    symmetry. rewrite !lookup_delete_None, lookup_insert_None.
    destruct (decide (k = j)); [by left|right]. destruct (decide (k = i)); [by left|right].
    rewrite lookup_insert_None, lookup_singleton_None. done.
Qed.

(** ** The copying loops *)

Context (start sz : Z).

(** A quiet log on a disk with the log area [start .. start+sz-1]. *)
Record geom s a : Prop := mk_geom {
  g_rel : c_rel (ls_bc s) a;
  g_held : a_held a = ∅;
  g_start : lg_start (ls_log s) = start;
  g_size : lg_size (ls_log s) = sz;
  g_dev : lg_dev (ls_log s) = c_dev;
  g_dev32 : u32 c_dev = c_dev;
  g_lo : 1 < start;
  g_hi : start + sz <= a_size a < 2147483648;
  g_len : length (lh_block (ls_log s)) = LOGSIZE
}.

Definition in_log (b : Z) : Prop := start <= b < start + sz.
Definition home (a : abs) (b : Z) : Prop := 0 <= b < a_size a /\ ~ in_log b.

Lemma geom_step s a s' a' :
  geom s a -> ls_log s' = ls_log s -> c_rel (ls_bc s') a' ->
  a_held a' = ∅ -> a_size a' = a_size a -> geom s' a'.
Proof. intros [G1 G2 G3 G4 G5 G6 G7 G8 G9] E R Hh Hs. split; rewrite ?E, ?Hs; auto. Qed.

Lemma unheld_id a : a_held a = ∅ -> a_unheld a = a.
Proof. destruct a. simpl. by intros ->. Qed.

Lemma wp_lh_get s i b (Q : Z -> lstate S -> Prop) :
  lh_block (ls_log s) !! Z.to_nat i = Some b -> Q b s -> wp (lh_get i) Q s.
Proof. intros Hb HQ. unfold lh_get. log_steps. rewrite Hb. by log_steps. Qed.

(** Locking two blocks one after the other. *)
Lemma wp_bread2 s a b1 b2 (k : nat -> nat -> M (lstate S) unit) t0 (Q : unit -> lstate S -> Prop) :
  geom s a -> b1 <> b2 -> 0 <= b1 < a_size a -> 0 <= b2 < a_size a ->
  (size (a_pin a ∪ {[b1]} ∪ {[b2]}) <= NBUF)%nat ->
  lh_block (ls_log s) !! Z.to_nat t0 = Some b2 ->
  (forall i j s', ls_log s' = ls_log s -> i <> j ->
     c_rel (ls_bc s') (a_hold j (b2, a_view a b2) (a_hold i (b1, a_view a b1) a)) ->
     wp (k i j) Q s') ->
  wp (let! i := bc (bread c_dev b1) in
      let! b := lh_get t0 in
      let! j := bc (bread c_dev (u32 b)) in k i j) Q s.
Proof.
  intros G Hne Hb1 Hb2 Hroom Hl HQ.
  pose proof (g_held _ _ G) as Hh.
  log_steps. apply (c_bread _ a); [apply G|done|by apply free_unheld| |].
  { rewrite busy_unheld by done. etrans; [apply subseteq_size|exact Hroom]. set_solver. }
  intros i s1 Hi R1. log_steps. apply (wp_lh_get _ _ b2); [done|].
  rewrite u32_small by (unfold W32; pose proof (g_hi _ _ G); lia).
  set (a1 := a_hold i (b1, a_view a b1) a) in *.
  log_steps. apply (c_bread _ a1); [done|done| | |].
  { intros j d. simpl. rewrite Hh. intros Hj.
    apply lookup_insert_Some in Hj as [[_ Heq]|[_ Hj]]; [congruence|]. by rewrite lookup_empty in Hj. }
  { etrans; [apply subseteq_size|exact Hroom].
    pose proof (busy_hold a i b1 (a_view a b1)) as Hb. rewrite (busy_unheld a Hh) in Hb. set_solver. }
  intros j s2 Hj R2. log_steps. apply HQ; [done| |done].
  intros ->. simpl in Hj. by rewrite lookup_insert_eq in Hj.
Qed.

Lemma wp_install_body s a tail b (Q : unit -> lstate S -> Prop) :
  geom s a -> lh_block (ls_log s) !! Z.to_nat tail = Some b -> 0 <= tail -> tail + 1 < sz ->
  home a b -> (size (a_pin a ∪ {[(start + 1 + tail)%Z]} ∪ {[b]}) <= NBUF)%nat ->
  (forall s', ls_log s' = ls_log s -> geom s' (a_written b (a_view a (start + 1 + tail)) a) -> Q tt s') ->
  wp (install_body tail) Q s.
Proof.
  intros G Hb Ht0 Ht1 [Hr Hn] Hroom HQ. unfold in_log in Hn.
  pose proof G as [_ Hh Hst _ Hdev H32 Hlo Hhi _].
  unfold install_body. wp_step. wp_step. rewrite Hst, Hdev, H32.
  rewrite (u32_small (start + tail + 1)) by (unfold W32; lia).
  replace (start + tail + 1) with (start + 1 + tail) by lia.
  apply (wp_bread2 s a _ b); [done|lia..|done|done|]. intros i j s1 E1 Hij R1.
  eapply wp_copy; [exact R1|done| |simpl; rewrite Hh, insert_insert_ne by done; done|]; [lia|].
  intros s2 E2 R2. apply HQ; [congruence|].
  apply (geom_step s a); [done|congruence| |done|done].
  rewrite <- (unheld_id a Hh). exact R2.
Qed.

Lemma wp_write_log_body s a tail b (Q : unit -> lstate S -> Prop) :
  geom s a -> lh_block (ls_log s) !! Z.to_nat tail = Some b -> 0 <= tail -> tail + 1 < sz ->
  home a b -> (size (a_pin a ∪ {[(start + 1 + tail)%Z]} ∪ {[b]}) <= NBUF)%nat ->
  (forall s', ls_log s' = ls_log s -> geom s' (a_written (start + 1 + tail) (a_view a b) a) -> Q tt s') ->
  wp (write_log_body tail) Q s.
Proof.
  intros G Hb Ht0 Ht1 [Hr Hn] Hroom HQ. unfold in_log in Hn.
  pose proof G as [_ Hh Hst _ Hdev H32 Hlo Hhi _].
  unfold write_log_body. wp_step. wp_step. rewrite Hst, Hdev, H32.
  rewrite (u32_small (start + tail + 1)) by (unfold W32; lia).
  replace (start + tail + 1) with (start + 1 + tail) by lia.
  apply (wp_bread2 s a _ b); [done|lia..|done|done|]. intros i j s1 E1 Hij R1.
  eapply wp_copy; [exact R1|done| |simpl; rewrite Hh; done|]; [lia|].
  intros s2 E2 R2. apply HQ; [congruence|].
  apply (geom_step s a); [done|congruence| |done|done].
  rewrite <- (unheld_id a Hh). exact R2.
Qed.

(** The writes of the two loops: block [i] of the transaction is at [start+1+i]. *)
Definition installs (bl : list Z) (c : Z -> block) : list (Z * block) :=
  imap (fun i b => (b, c (start + 1 + Z.of_nat i))) bl.
Definition log_copies (bl : list Z) (c : Z -> block) : list (Z * block) :=
  imap (fun i b => (start + 1 + Z.of_nat i, c b)) bl.

Lemma installs_dom bl c : (installs bl c).*1 = bl.
Proof.
  unfold installs. rewrite fmap_imap. apply list_eq. intros i.
  rewrite list_lookup_imap. by destruct (bl !! i).
Qed.

Lemma log_copies_dom bl c x :
  x ∈ (log_copies bl c).*1 <-> start + 1 <= x < start + 1 + Z.of_nat (length bl).
Proof.
  unfold log_copies. rewrite fmap_imap, list_elem_of_lookup. setoid_rewrite list_lookup_imap.
  split.
  - intros (i & Hi). apply fmap_Some in Hi as (b & Hb & ->). simpl.
    apply lookup_lt_Some in Hb. lia.
  - intros Hx. destruct (lookup_lt_is_Some_2 bl (Z.to_nat (x - start - 1)) ltac:(lia)) as [b Hb].
    exists (Z.to_nat (x - start - 1)). rewrite Hb. simpl. f_equal. lia.
Qed.

(** The transaction in the in-memory header. *)
Record trans s a (bl : list Z) : Prop := mk_trans {
  t_n : lh_n (ls_log s) = Z.of_nat (length bl);
  t_bl : take (length bl) (lh_block (ls_log s)) = bl;
  t_max : Z.of_nat (length bl) < sz;
  t_home : Forall (home a) bl;
  t_room b : b ∈ bl -> (size (a_pin a ∪ {[b]}) < NBUF)%nat
}.

(** One more block besides the pinned ones. *)
Lemma room2 (P A : gset Z) x b n :
  (size (A ∪ {[b]}) < n)%nat -> P ⊆ A -> (size (P ∪ {[x]} ∪ {[b]}) <= n)%nat.
Proof.
  intros Hr Hsub.
  assert (Hs : P ∪ {[x]} ∪ {[b]} ⊆ (A ∪ {[b]}) ∪ {[x]}) by set_solver.
  apply subseteq_size in Hs. pose proof (size_add_le (A ∪ {[b]}) x). lia.
Qed.

Lemma trans_lookup s a bl i b :
  trans s a bl -> bl !! i = Some b -> lh_block (ls_log s) !! i = Some b.
Proof.
  intros T Hb. rewrite <- (t_bl s a bl T) in Hb. by apply lookup_take_Some in Hb as [? _].
Qed.

Lemma wp_install_trans s a bl (Q : unit -> lstate S -> Prop) :
  geom s a -> trans s a bl ->
  (forall s', ls_log s' = ls_log s -> geom s' (a_writes (installs bl (a_view a)) a) -> Q tt s') ->
  wp install_trans Q s.
Proof.
  intros G T HQ. unfold install_trans. wp_step. wp_step.
  rewrite (t_n s a bl T), Nat2Z.id.
  set (ws := installs bl (a_view a)).
  assert (Hlen : length ws = length bl) by apply length_imap.
  apply (wp_for (fun j s' => ls_log s' = ls_log s /\ geom s' (a_writes (take (Z.to_nat j) ws) a))).
  - done.
  - intros j s1 Hj [E1 G1].
    destruct (lookup_lt_is_Some_2 bl (Z.to_nat j) ltac:(lia)) as [b Hb].
    assert (Hhb : home a b) by (eapply (Forall_lookup_1 _ bl), Hb; apply T).
    destruct (a_writes_fields (take (Z.to_nat j) ws) a) as (Es & _ & _ & Ev & Ep & _).
    apply (wp_install_body _ _ _ b _ G1).
    + rewrite E1. by eapply trans_lookup.
    + lia.
    + pose proof (t_max _ _ _ T). lia.
    + unfold home in *. by rewrite Es.
    + eapply room2; [|done]. by eapply t_room, list_elem_of_lookup_2.
    + intros s2 E2 G2. split; [congruence|].
      replace (Z.to_nat (j + 1)) with (Datatypes.S (Z.to_nat j)) by lia.
      assert (Hw : ws !! Z.to_nat j = Some (b, a_view a (start + 1 + j))).
      { unfold ws, installs. rewrite list_lookup_imap, Hb. simpl. do 3 f_equal. lia. }
      rewrite (take_S_r _ _ _ Hw), a_writes_app. simpl. rewrite Ev in G2.
      rewrite replay_notin in G2; [done|].
      intros Hin. rewrite fmap_take in Hin. apply elem_of_take in Hin as (k & Hk & _).
      unfold ws in Hk. rewrite installs_dom in Hk.
      pose proof (Forall_lookup_1 _ _ _ _ (t_home _ _ _ T) Hk) as [_ Hnl]. apply Hnl.
      unfold in_log. pose proof (t_max _ _ _ T). lia.
  - intros s1 [E1 G1]. rewrite take_ge in G1 by lia. by apply HQ.
Qed.

Lemma wp_write_log s a bl (Q : unit -> lstate S -> Prop) :
  geom s a -> trans s a bl ->
  (forall s', ls_log s' = ls_log s -> geom s' (a_writes (log_copies bl (a_view a)) a) -> Q tt s') ->
  wp write_log Q s.
Proof.
  intros G T HQ. unfold write_log. wp_step. wp_step.
  rewrite (t_n s a bl T), Nat2Z.id.
  set (ws := log_copies bl (a_view a)).
  assert (Hlen : length ws = length bl) by apply length_imap.
  apply (wp_for (fun j s' => ls_log s' = ls_log s /\ geom s' (a_writes (take (Z.to_nat j) ws) a))).
  - done.
  - intros j s1 Hj [E1 G1].
    destruct (lookup_lt_is_Some_2 bl (Z.to_nat j) ltac:(lia)) as [b Hb].
    assert (Hhb : home a b) by (eapply (Forall_lookup_1 _ bl), Hb; apply T).
    destruct (a_writes_fields (take (Z.to_nat j) ws) a) as (Es & _ & _ & Ev & Ep & _).
    pose proof (t_max _ _ _ T) as Hmax.
    apply (wp_write_log_body _ _ _ b _ G1).
    + rewrite E1. by eapply trans_lookup.
    + lia.
    + lia.
    + unfold home in *. by rewrite Es.
    + eapply room2; [|done]. by eapply t_room, list_elem_of_lookup_2.
    + intros s2 E2 G2. split; [congruence|].
      replace (Z.to_nat (j + 1)) with (Datatypes.S (Z.to_nat j)) by lia.
      assert (Hw : ws !! Z.to_nat j = Some (start + 1 + j, a_view a b)).
      { unfold ws, log_copies. rewrite list_lookup_imap, Hb. simpl. do 2 f_equal. lia. }
      rewrite (take_S_r _ _ _ Hw), a_writes_app. simpl. rewrite Ev in G2.
      rewrite replay_notin in G2; [done|].
      intros Hin. rewrite fmap_take in Hin. apply elem_of_take in Hin as (k & Hk & _).
      apply list_elem_of_lookup_2, log_copies_dom in Hk.
      destruct Hhb as [_ Hnl]. apply Hnl. unfold in_log. lia.
  - intros s1 [E1 G1]. rewrite take_ge in G1 by lia. by apply HQ.
Qed.
End copy.

(** ** The header block *)

(** The writes of [write_head] into the header: the count, then the entries. *)
Fixpoint put_blocks (d : block) (i : Z) (bl : list Z) : block :=
  match bl with
  | [] => d
  | b :: bl' => put_blocks (put32 d (hdr_off i) b) (i + 1) bl'
  end.
Definition encode_head (d : block) (bl : list Z) : block :=
  put_blocks (put32 d 0 (Z.of_nat (length bl))) 0 bl.

(** What [read_head] gets out of a header. *)
Definition head_n (d : block) : Z := i32 (get32 d 0).
Definition head_blocks (d : block) : list Z :=
  (fun i => i32 (get32 d (hdr_off (Z.of_nat i)))) <$> seq 0 (Z.to_nat (head_n d)).

Lemma put_blocks_snoc d i bl b :
  put_blocks d i (bl ++ [b]) = put32 (put_blocks d i bl) (hdr_off (i + Z.of_nat (length bl))) b.
Proof.
  revert d i. induction bl as [|c bl IH]; intros d i; simpl.
  - by rewrite Z.add_0_r.
  - rewrite IH. do 2 f_equal. lia.
Qed.

Lemma put_blocks_ok d i bl : block_ok d -> block_ok (put_blocks d i bl).
Proof. revert d i. induction bl; intros d i Hd; simpl; auto with kernel. Qed.

Lemma put_blocks_get d i bl x :
  length d = BSIZE -> 0 <= i -> (hdr_off (i + Z.of_nat (length bl)) <= BSIZE)%nat ->
  (x + 4 <= hdr_off i \/ hdr_off (i + Z.of_nat (length bl)) <= x)%nat ->
  get32 (put_blocks d i bl) x = get32 d x.
Proof.
  unfold hdr_off. revert d i. induction bl as [|b bl IH]; intros d i Hd Hi Hl Hx; simpl in *; [done|].
  rewrite IH by (rewrite ?length_put32; auto; lia).
  apply get32_put32_ne; unfold hdr_off; lia.
Qed.

Lemma put_blocks_entry d i bl k b :
  length d = BSIZE -> 0 <= i -> (hdr_off (i + Z.of_nat (length bl)) <= BSIZE)%nat ->
  bl !! k = Some b -> 0 <= b < W32 ->
  get32 (put_blocks d i bl) (hdr_off (i + Z.of_nat k)) = b.
Proof.
  revert d i k. induction bl as [|c bl IH]; intros d i k Hd Hi Hl Hb Hr; [done|].
  simpl in *. destruct k as [|k]; simpl in Hb.
  - injection Hb as ->. rewrite Z.add_0_r.
    rewrite put_blocks_get by (rewrite ?length_put32; unfold hdr_off in *; auto; lia).
    apply get32_put32; [unfold hdr_off in *; lia|done].
  - replace (i + Z.of_nat (Datatypes.S k)) with (i + 1 + Z.of_nat k) by lia.
    apply IH; auto; rewrite ?length_put32; auto; try lia. unfold hdr_off in *. lia.
Qed.

(** Reading a header back. *)
Lemma head_encode d bl :
  block_ok d -> (length bl <= LOGSIZE)%nat -> Forall (fun b => 0 <= b < 2147483648) bl ->
  head_n (encode_head d bl) = Z.of_nat (length bl) /\ head_blocks (encode_head d bl) = bl.
Proof.
  intros [Hd _] Hl Hbl. unfold LOGSIZE in Hl.
  assert (Hn : head_n (encode_head d bl) = Z.of_nat (length bl)).
  { unfold head_n, encode_head.
    rewrite put_blocks_get by (rewrite ?length_put32; unfold hdr_off, BSIZE; auto; lia).
    rewrite get32_put32 by (unfold W32, BSIZE in *; lia). apply i32_small. lia. }
  split; [done|]. unfold head_blocks. rewrite Hn, Nat2Z.id. apply list_eq. intros k.
  rewrite list_lookup_fmap. destruct (bl !! k) as [b|] eqn:Hb.
  - pose proof (lookup_lt_Some _ _ _ Hb) as Hk. rewrite lookup_seq_lt by done. simpl. f_equal.
    pose proof (Forall_lookup_1 _ _ _ _ Hbl Hb) as Hr. simpl in Hr.
    unfold encode_head. replace (Z.of_nat k) with (0 + Z.of_nat k) by lia.
    rewrite (put_blocks_entry _ _ _ _ b)
      by (rewrite ?length_put32; unfold hdr_off, BSIZE, W32; auto; lia).
    apply i32_small. lia.
  - apply lookup_ge_None in Hb. by rewrite lookup_seq_ge.
Qed.

Section head.
Context {S : Type} `{Cache S} (start sz : Z).
Implicit Types (s : lstate S) (a : abs).

Ltac log_steps :=
  repeat (first [wp_step | apply wp_bc | apply wp_on_log]; cbn beta); cbn [ls_log ls_bc].

Lemma hold_hold a i x y : a_hold i x (a_hold i y a) = a_hold i x a.
Proof. unfold a_hold. simpl. by rewrite insert_insert_eq. Qed.

Lemma hold_lookup a i x : a_held (a_hold i x a) !! i = Some x.
Proof. apply lookup_insert_eq. Qed.

(** Locking the header block. *)
Lemma wp_bread_head s a (Q : nat -> lstate S -> Prop) :
  geom start sz s a -> 0 < sz -> (size (a_pin a ∪ {[start]}) <= NBUF)%nat ->
  (forall i s', ls_log s' = ls_log s -> c_rel (ls_bc s') (a_hold i (start, a_view a start) a) -> Q i s') ->
  wp (bc (bread (u32 (lg_dev (ls_log s))) (u32 (lg_start (ls_log s))))) Q s.
Proof.
  intros G Hsz Hroom HQ. pose proof G as [R Hh Hst _ Hdev H32 Hlo Hhi _].
  rewrite Hst, Hdev, H32, u32_small by (unfold W32; lia). log_steps.
  apply (c_bread _ a); [done|lia|by apply free_unheld|by rewrite busy_unheld|].
  intros i s1 _ R1. by apply HQ.
Qed.

Lemma wp_write_head s a bl (Q : unit -> lstate S -> Prop) :
  geom start sz s a -> 0 < sz -> (size (a_pin a ∪ {[start]}) <= NBUF)%nat ->
  lh_n (ls_log s) = Z.of_nat (length bl) -> take (length bl) (lh_block (ls_log s)) = bl ->
  (forall s', ls_log s' = ls_log s ->
     geom start sz s' (a_written start (encode_head (a_view a start) bl) a) -> Q tt s') ->
  wp write_head Q s.
Proof.
  intros G Hsz Hroom Hn Hbl HQ. pose proof G as [R Hh Hst _ Hdev H32 Hlo Hhi _].
  assert (Hok : block_ok (a_view a start)) by (eapply c_view_ok; [done|lia]).
  unfold write_head. wp_step. wp_step. wp_step. apply (wp_bread_head s a); [done..|].
  intros i s1 E1 R1. log_steps. rewrite (c_data _ _ _ _ _ R1 (hold_lookup _ _ _)).
  rewrite Hn, Nat2Z.id.
  set (d := fun j => put_blocks (put32 (a_view a start) 0 (Z.of_nat (length bl))) 0 (take (Z.to_nat j) bl)).
  assert (Hdok : forall j, block_ok (d j)) by (intros; apply put_blocks_ok; auto with kernel).
  apply (wp_for (fun j s' => ls_log s' = ls_log s /\ c_rel (ls_bc s') (a_hold i (start, d j) a))).
  - split; [done|]. rewrite <- (hold_hold a i _ (start, a_view a start)).
    eapply c_set_data; [done|apply hold_lookup|]. apply Hdok.
  - intros j s2 Hj [E2 R2].
    destruct (lookup_lt_is_Some_2 bl (Z.to_nat j) ltac:(lia)) as [b Hb].
    wp_step. apply (wp_lh_get _ _ b).
    { rewrite E2. rewrite <- Hbl in Hb. by apply lookup_take_Some in Hb as [? _]. }
    log_steps. split; [done|]. rewrite (c_data _ _ _ _ _ R2 (hold_lookup _ _ _)).
    assert (Hd : d (j + 1) = put32 (d j) (hdr_off j) b).
    { unfold d. replace (Z.to_nat (j + 1)) with (Datatypes.S (Z.to_nat j)) by lia.
      rewrite (take_S_r _ _ _ Hb), put_blocks_snoc, length_take. do 2 f_equal. lia. }
    rewrite <- Hd, <- (hold_hold a i _ (start, d j)).
    eapply c_set_data; [done|apply hold_lookup|]. apply Hdok.
  - intros s2 [E2 R2].
    assert (Hd : d (0 + Z.of_nat (length bl)) = encode_head (a_view a start) bl)
      by (unfold d; by rewrite take_ge by lia).
    rewrite Hd in R2. set (x := encode_head (a_view a start) bl) in *.
    log_steps. apply (c_bwrite _ _ _ _ _ _ R2 (hold_lookup _ _ _)). intros s3 R3. log_steps.
    apply (c_brelse _ _ i start x _ R3); [apply hold_lookup|right; symmetry; apply disk_write_eq|].
    intros s4 R4. log_steps. apply HQ; [done|].
    apply (geom_step _ _ s a); [done|done| |done|done].
    refine (c_proper _ _ _ _ R4). split; try done; simpl.
    + intros y. unfold disk_write. simpl. by destruct (y =? start).
    + by rewrite Hh, delete_insert_id.
Qed.

Lemma inserts_snoc (k l : list Z) x :
  (length k < length l)%nat -> list_inserts 0 (k ++ [x]) l = <[length k := x]> (list_inserts 0 k l).
Proof.
  intros Hl. apply list_eq. intros i. destruct (decide (i = length k)) as [->|Hne].
  - rewrite list_lookup_insert_eq by (by rewrite length_inserts).
    rewrite list_lookup_inserts by (rewrite ?length_app; simpl; lia).
    rewrite lookup_app_r by lia. by replace (length k - 0 - length k)%nat with 0%nat by lia.
  - rewrite list_lookup_insert_ne by done. destruct (decide (i < length k)%nat).
    + rewrite !list_lookup_inserts by (rewrite ?length_app; simpl; lia).
      by rewrite lookup_app_l by lia.
    + by rewrite !list_lookup_inserts_ge by (rewrite ?length_app; simpl; lia).
Qed.

Lemma wp_read_head s a (Q : unit -> lstate S -> Prop) :
  let d := a_view a start in
  geom start sz s a -> 0 < sz -> (size (a_pin a ∪ {[start]}) <= NBUF)%nat ->
  0 <= head_n d <= Z.of_nat LOGSIZE ->
  (forall s', ls_log s' = lh_set_block (list_inserts 0 (head_blocks d) (lh_block (ls_log s)))
                            (lh_set_n (head_n d) (ls_log s)) ->
     geom start sz s' a -> Q tt s') ->
  wp read_head Q s.
Proof.
  intros d G Hsz Hroom Hn HQ. pose proof G as [R Hh Hst Hsi Hdev H32 Hlo Hhi Hlen].
  unfold read_head. wp_step. wp_step. wp_step. apply (wp_bread_head s a); [done..|].
  intros i s1 E1 R1. log_steps. rewrite (c_data _ _ _ _ _ R1 (hold_lookup _ _ _)).
  cbn [lh_n lh_set_n]. fold (head_n (a_view a start)). fold d.
  set (l1 := lh_set_n (head_n d) (ls_log s1)).
  assert (Hhb : length (head_blocks d) = Z.to_nat (head_n d))
    by (unfold head_blocks; by rewrite length_fmap, length_seq).
  assert (Hlen1 : length (lh_block l1) = LOGSIZE) by (simpl; by rewrite E1).
  apply (wp_for (fun j s' => ls_bc s' = ls_bc s1 /\ ls_log s' =
    lh_set_block (list_inserts 0 (take (Z.to_nat j) (head_blocks d)) (lh_block l1)) l1)).
  - done.
  - intros j s2 Hj [B2 E2]. unfold lh_put. rewrite (proj2 (Z.ltb_lt _ _)) by lia.
    log_steps. split; [done|]. rewrite E2. cbn [lh_block lh_set_block].
    replace (Z.to_nat (j + 1)) with (Datatypes.S (Z.to_nat j)) by lia.
    assert (Hb : head_blocks d !! Z.to_nat j = Some (i32 (get32 d (hdr_off j)))).
    { unfold head_blocks. rewrite list_lookup_fmap, lookup_seq_lt by lia. simpl. do 4 f_equal. lia. }
    rewrite (take_S_r _ _ _ Hb), inserts_snoc by (rewrite length_take; lia).
    rewrite length_take. unfold lh_set_block. simpl. do 2 f_equal. lia.
  - intros s2 [B2 E2]. rewrite take_ge in E2 by lia. log_steps. rewrite B2.
    apply (c_brelse _ _ i start (a_view a start) _ R1); [apply hold_lookup| |].
    { simpl. destruct (decide (start ∈ a_pin a)); [by left|right]. eapply c_view_disk; [done|lia|done]. }
    intros s3 R3. log_steps. apply hold_release in R3; [|by rewrite Hh, lookup_empty|done].
    apply HQ; simpl; [by rewrite E2; unfold l1; rewrite E1|].
    split; simpl; rewrite ?E2; simpl; rewrite ?E1, ?length_inserts; auto.
Qed.
End head.

(** ** Crash states *)

Section crash.
Context (start sz asz : Z).
Implicit Types c : Z -> block.

(** The contents a disk stands for: the home blocks, overlaid with the
    transaction when its header says that it has committed. *)
Definition logical c : Z -> block := replay c (installs start (head_blocks (c start)) c).

(** Two contents that agree outside the log area. *)
Definition eq_home c c' : Prop :=
  forall x, 0 <= x < asz -> ~ in_log start sz x -> c x = c' x.

(** Two contents that agree on the whole disk. *)
Definition eq_disk c c' : Prop := forall x, 0 <= x < asz -> c x = c' x.

(** A file system disk: the superblock locates the log, and the log header names
    home blocks only. *)
Record log_wf c : Prop := mk_log_wf {
  wf_logstart : i32 (sb_logstart (decode_sb (c 1))) = start;
  wf_nlog : i32 (sb_nlog (decode_sb (c 1))) = sz;
  wf_n : 0 <= head_n (c start) <= Z.of_nat LOGSIZE;
  wf_fits : head_n (c start) < sz;
  wf_home : Forall (fun b => 1 < b < asz /\ ~ in_log start sz b) (head_blocks (c start))
}.

Context (Hlo : 1 < start) (Hhi : start + sz <= asz < 2147483648) (Hsz : 0 < sz).

Lemma head_blocks_length d : 0 <= head_n d -> Z.of_nat (length (head_blocks d)) = head_n d.
Proof. intros. unfold head_blocks. rewrite length_fmap, length_seq. lia. Qed.

Lemma log_wf_ext c c' : eq_disk c c' -> log_wf c -> log_wf c'.
Proof.
  intros He [W1 W2 W3 W4 W5].
  assert (H1 : c 1 = c' 1) by (apply He; lia).
  assert (H2 : c start = c' start) by (apply He; lia).
  split; rewrite <- ?H1, <- ?H2; done.
Qed.

Lemma installs_ext c c' bl :
  Z.of_nat (length bl) < sz -> eq_disk c c' -> installs start bl c = installs start bl c'.
Proof.
  intros Hl He. apply list_eq. intros i. unfold installs. rewrite !list_lookup_imap.
  destruct (bl !! i) as [b|] eqn:Hb; [|done]. simpl. apply lookup_lt_Some in Hb.
  rewrite He by lia. done.
Qed.

Lemma replay_ext c c' ws : eq_disk c c' -> eq_disk (replay c ws) (replay c' ws).
Proof.
  intros He x Hx. destruct (decide (x ∈ ws.*1)); [by apply replay_in|].
  rewrite !replay_notin by done. by apply He.
Qed.

Lemma logical_ext c c' : log_wf c -> eq_disk c c' -> eq_disk (logical c) (logical c').
Proof.
  intros W He. unfold logical. rewrite <- (He start) by lia.
  rewrite <- (installs_ext c c').
  - by apply replay_ext.
  - rewrite head_blocks_length by apply W. apply W.
  - done.
Qed.

(** The writes of a recovery. *)
Definition recover_writes c : list (Z * block) :=
  installs start (head_blocks (c start)) c ++ [(start, encode_head (c start) [])].

Lemma head_encode_nil d : length d = BSIZE -> head_n (encode_head d []) = 0.
Proof.
  intros Hd. unfold head_n, encode_head. simpl. rewrite get32_put32; [done|rewrite Hd; unfold BSIZE; lia|done].
Qed.
Lemma head_blocks_nil d : head_n d = 0 -> head_blocks d = [].
Proof. unfold head_blocks. by intros ->. Qed.

Lemma installs_keep c bl k x :
  Forall (fun b => 1 < b < asz /\ ~ in_log start sz b) bl -> in_log start sz x \/ x = 1 ->
  replay c (take k (installs start bl c)) x = c x.
Proof.
  intros Hbl Hx. apply replay_notin. intros Hin. rewrite fmap_take in Hin.
  apply elem_of_take in Hin as (i & Hi & _). rewrite installs_dom in Hi.
  pose proof (Forall_lookup_1 _ _ _ _ Hbl Hi) as [? ?]. destruct Hx; [done|lia].
Qed.

(** Any prefix of the writes of a recovery leaves the meaning of the disk alone. *)
Lemma recover_prefix c k :
  log_wf c -> length (c start) = BSIZE ->
  log_wf (replay c (take k (recover_writes c))) /\
  eq_home (logical (replay c (take k (recover_writes c)))) (logical c).
Proof.
  intros W Hlen. pose proof W as [W1 W2 W3 W4 W5].
  set (bl := head_blocks (c start)). set (ws := installs start bl c).
  assert (Hwl : length ws = length bl) by apply length_imap.
  assert (Hstart : in_log start sz start) by (unfold in_log; lia).
  unfold recover_writes. fold bl. fold ws. rewrite take_app.
  destruct (decide (k <= length ws)%nat) as [Hk|Hk].
  - replace (k - length ws)%nat with 0%nat by lia. rewrite take_0, app_nil_r.
    set (c' := replay c (take k ws)).
    assert (Hkeep : forall x, in_log start sz x \/ x = 1 -> c' x = c x)
      by (intros; by apply installs_keep).
    assert (Hcs : c' start = c start) by auto.
    assert (Hc1 : c' 1 = c 1) by auto.
    split; [split; rewrite ?Hcs, ?Hc1; done|].
    intros x Hx Hn. unfold logical. rewrite Hcs. fold bl.
    assert (Hi : installs start bl c' = ws).
    { apply list_eq. intros i. unfold ws, installs. rewrite !list_lookup_imap.
      destruct (bl !! i) as [b|] eqn:Hb; [|done]. simpl. do 2 f_equal. apply Hkeep.
      apply lookup_lt_Some in Hb. pose proof (head_blocks_length (c start) ltac:(lia)).
      fold bl in H. left. unfold in_log. lia. }
    rewrite Hi. apply replay_absorb.
  - rewrite (take_ge ws) by lia. rewrite (take_ge [_]) by (simpl; lia).
    rewrite replay_app. simpl. set (h := encode_head (c start) []).
    assert (Hh : head_n h = 0) by (by apply head_encode_nil).
    assert (Hs : disk_write (replay c ws) (start, h) start = h) by apply disk_write_eq.
    assert (Hkeep : replay c ws 1 = c 1).
    { rewrite <- (take_ge ws (length ws)) by lia. apply installs_keep; auto. }
    assert (Hs1 : disk_write (replay c ws) (start, h) 1 = c 1) by (rewrite disk_write_ne; [done|lia]).
    split.
    + split; rewrite ?Hs1, ?Hs, ?Hh, ?(head_blocks_nil h Hh); try done; lia.
    + intros x Hx Hn. unfold logical at 1. rewrite Hs, (head_blocks_nil h Hh). simpl.
      rewrite disk_write_ne; [done|]. intros ->. done.
Qed.

(** A complete recovery installs the meaning of the disk and clears the log. *)
Lemma recover_complete c :
  log_wf c -> eq_home (replay c (recover_writes c)) (logical c).
Proof.
  intros W x Hx Hn. unfold recover_writes. rewrite replay_app. simpl.
  rewrite disk_write_ne; [done|]. intros ->. apply Hn. unfold in_log. lia.
Qed.

(** The writes of a commit of the blocks [bl] with contents [v]. *)
Definition commit_writes (bl : list Z) (v : Z -> block) : list (Z * block) :=
  let h := encode_head (v start) bl in
  log_copies start bl v ++ [(start, h)] ++ ((fun b => (b, v b)) <$> bl) ++
  [(start, encode_head h [])].

Lemma log_copies_slot c bl v i b :
  bl !! i = Some b -> replay c (log_copies start bl v) (start + 1 + Z.of_nat i) = v b.
Proof.
  induction bl as [|e bl IH] using rev_ind; intros Hb; [done|].
  unfold log_copies. rewrite imap_app, replay_app. simpl.
  destruct (decide (i = length bl)) as [->|Hne].
  - rewrite lookup_app_r, Nat.sub_diag in Hb by lia. injection Hb as ->.
    rewrite Nat.add_0_r. apply disk_write_eq.
  - pose proof (lookup_lt_Some _ _ _ Hb) as Hl. rewrite length_app in Hl. simpl in Hl.
    rewrite lookup_app_l in Hb by lia. rewrite disk_write_ne by lia. by apply IH.
Qed.

(** The disk just after the header write of a commit. *)
Definition committed c (bl : list Z) (v : Z -> block) : Z -> block :=
  replay c (log_copies start bl v ++ [(start, encode_head (v start) bl)]).

Section commit.
Context c (v : Z -> block) (bl : list Z).
Context (W : log_wf c) (Hclean : head_n (c start) = 0).
Context (Hbl : Forall (fun b => 1 < b < asz /\ ~ in_log start sz b) bl).
Context (Hlen : (length bl <= LOGSIZE)%nat) (Hfit : Z.of_nat (length bl) < sz).
Context (Hv : forall x, 0 <= x < asz -> x ∉ bl -> v x = c x) (Hok : block_ok (v start)).

Lemma committed_slot i b :
  bl !! i = Some b -> committed c bl v (start + 1 + Z.of_nat i) = v b.
Proof.
  intros Hb. unfold committed. rewrite replay_app. simpl. rewrite disk_write_ne by lia.
  by apply log_copies_slot.
Qed.
Lemma committed_start : committed c bl v start = encode_head (v start) bl.
Proof. unfold committed. rewrite replay_app. apply disk_write_eq. Qed.
Lemma committed_other x : ~ in_log start sz x -> committed c bl v x = c x.
Proof.
  intros Hx. unfold committed. rewrite replay_app. simpl. unfold in_log in Hx.
  rewrite disk_write_ne by lia. apply replay_notin. rewrite log_copies_dom. lia.
Qed.

Lemma committed_head :
  head_n (committed c bl v start) = Z.of_nat (length bl) /\
  head_blocks (committed c bl v start) = bl.
Proof.
  rewrite committed_start. apply head_encode; [done|done|].
  eapply Forall_impl; [exact Hbl|]. simpl. intros b [? _]. lia.
Qed.

Lemma committed_wf : log_wf (committed c bl v).
Proof.
  destruct committed_head as [Hn Hb]. pose proof W as [W1 W2 _ _ _].
  assert (H1 : committed c bl v 1 = c 1) by (apply committed_other; unfold in_log; lia).
  split; rewrite ?H1, ?Hn, ?Hb; try done; lia.
Qed.

Lemma committed_installs : installs start bl (committed c bl v) = (fun b => (b, v b)) <$> bl.
Proof.
  apply list_eq. intros i. unfold installs. rewrite list_lookup_imap, list_lookup_fmap.
  destruct (bl !! i) as [b|] eqn:Hb; [|done]. simpl. by rewrite (committed_slot i b).
Qed.

(** Its meaning is the new contents. *)
Lemma committed_logical : eq_home (logical (committed c bl v)) v.
Proof.
  intros x Hx Hn. unfold logical. rewrite (proj2 committed_head), committed_installs.
  assert (Hrep : forall (l : list Z) (c0 : Z -> block),
    replay c0 ((fun b => (b, v b)) <$> l) x = if decide (x ∈ l) then v x else c0 x).
  { induction l as [|b l IH]; intros c0; simpl; [done|]. rewrite IH.
    destruct (decide (x ∈ l)), (decide (x ∈ b :: l)) as [Hi|Hi]; rewrite elem_of_cons in Hi; try tauto.
    - assert (x = b) as -> by tauto. apply disk_write_eq.
    - apply disk_write_ne. tauto. }
  rewrite Hrep. case_decide; [done|]. rewrite committed_other by done. symmetry. by apply Hv.
Qed.

Lemma commit_writes_split :
  commit_writes bl v =
  (log_copies start bl v ++ [(start, encode_head (v start) bl)]) ++
  recover_writes (committed c bl v).
Proof.
  unfold commit_writes, recover_writes.
  rewrite (proj2 committed_head), committed_installs, committed_start. by rewrite <- app_assoc.
Qed.

(** Crash after [k] writes of a commit: nothing before the header write, all of
    the transaction from it on. *)
Lemma commit_prefix k :
  let c' := replay c (take k (commit_writes bl v)) in
  log_wf c' /\ eq_home (logical c') (if decide (k <= length bl)%nat then c else v).
Proof.
  intros c'. assert (Hl : length (log_copies start bl v) = length bl) by apply length_imap.
  destruct (decide (k <= length bl)%nat) as [Hk|Hk].
  - assert (Hout : forall x, ~ in_log start sz x \/ x = start -> c' x = c x).
    { intros x Hx. unfold c', commit_writes. rewrite take_app_le by lia.
      apply replay_notin. rewrite fmap_take. intros (i & Hi & _)%elem_of_take.
      apply list_elem_of_lookup_2, log_copies_dom in Hi. unfold in_log in Hx. lia. }
    assert (Hs : c' start = c start) by auto.
    assert (H1 : c' 1 = c 1) by (apply Hout; unfold in_log; lia).
    split; [pose proof W as []; split; by rewrite ?Hs, ?H1|].
    intros x Hx Hn. unfold logical. rewrite Hs, head_blocks_nil by done. simpl. auto.
  - assert (Hc' : c' = replay (committed c bl v)
      (take (k - length bl - 1) (recover_writes (committed c bl v)))).
    { unfold c'. rewrite commit_writes_split, take_app, take_ge by (rewrite length_app; simpl; lia).
      rewrite replay_app, length_app, Hl. simpl. do 2 f_equal. lia. }
    rewrite Hc'. destruct (recover_prefix (committed c bl v) (k - length bl - 1) committed_wf) as [H1 H2].
    { rewrite committed_start. unfold encode_head.
      apply put_blocks_ok. auto with kernel. }
    split; [done|]. intros x Hx Hn. rewrite H2 by done. by apply committed_logical.
Qed.
End commit.
End crash.

(** ** Recovery and commit run to completion *)

Section runs.
Context {S : Type} `{Cache S} (start sz : Z) (Hsz : 0 < sz).
Implicit Types (s : lstate S) (a : abs).

Ltac log_steps :=
  repeat (first [wp_step | apply wp_bc | apply wp_on_log]; cbn beta); cbn [ls_log ls_bc].

Lemma geom_log s a l :
  geom start sz s a -> lg_start l = start -> lg_size l = sz -> lg_dev l = c_dev ->
  length (lh_block l) = LOGSIZE -> geom start sz (mk_lstate l (ls_bc s)) a.
Proof. intros [] ? ? ? ?. by split. Qed.

Lemma take_inserts (k l : list Z) :
  (length k <= length l)%nat -> take (length k) (list_inserts 0 k l) = k.
Proof.
  intros Hl. apply list_eq. intros i. destruct (decide (i < length k)%nat) as [Hi|Hi].
  - rewrite lookup_take_lt, list_lookup_inserts by lia. f_equal. lia.
  - rewrite lookup_take_ge by lia. symmetry. apply lookup_ge_None. lia.
Qed.

Lemma wf_home_a a bl :
  Forall (fun b => 1 < b < a_size a /\ ~ in_log start sz b) bl -> Forall (home start sz a) bl.
Proof. intros HF. eapply Forall_impl; [exact HF|]. simpl. unfold home. intros b [? ?]. split; [lia|done]. Qed.

Lemma replay_start_keep bl c v :
  Forall (fun b => ~ in_log start sz b) bl -> replay c (installs start bl v) start = c start.
Proof.
  intros HF. apply replay_notin. rewrite installs_dom. intros Hin.
  rewrite Forall_forall in HF. apply (HF start Hin). unfold in_log. lia.
Qed.

Lemma wp_recover s a (Q : unit -> lstate S -> Prop) :
  geom start sz s a -> a_pin a = ∅ -> log_wf start sz (a_size a) (a_view a) ->
  (forall s' bl, ls_log s' = lh_set_n 0 (lh_set_block bl (ls_log s)) ->
     geom start sz s' (a_writes (recover_writes start (a_view a)) a) -> Q tt s') ->
  wp recover_from_log Q s.
Proof.
  intros G Hp W HQ. pose proof W as [_ _ Wn Wf Wh]. pose proof (g_len _ _ _ _ G) as Hlen.
  pose proof (head_blocks_length (a_view a start) ltac:(lia)) as Hhl.
  assert (Hroom : forall x : Z, (size (a_pin a ∪ {[x]}) = 1)%nat).
  { intros x. rewrite Hp, union_empty_l_L. apply size_singleton. }
  unfold recover_from_log. wp_step.
  apply (wp_read_head start sz s a); [done|done|rewrite Hroom; unfold NBUF; lia|done|].
  intros s1 E1 G1. set (bl := head_blocks (a_view a start)) in *. wp_step.
  apply (wp_install_trans start sz s1 a bl); [done| |].
  { split.
    - by rewrite E1, Hhl.
    - rewrite E1. apply take_inserts. simpl. lia.
    - lia.
    - by apply wf_home_a.
    - intros b _. rewrite Hroom. unfold NBUF. lia. }
  intros s2 E2 G2. wp_step. apply wp_on_log.
  set (s3 := mk_lstate (lh_set_n 0 (ls_log s2)) (ls_bc s2)).
  assert (G3 : geom start sz s3 (a_writes (installs start bl (a_view a)) a))
    by (apply geom_log; try apply G2; done).
  destruct (a_writes_fields (installs start bl (a_view a)) a) as (_ & _ & _ & Ev & Ep & _).
  eapply (wp_write_head start sz s3 _ []); [exact G3|done| |done|done|].
  { rewrite Hp in Ep. etrans; [apply subseteq_size|]; [|rewrite (Hroom start); unfold NBUF; lia].
    clear -Ep Hp. set_solver. }
  intros s4 E4 G4. apply (HQ s4 (list_inserts 0 bl (lh_block (ls_log s)))).
  - rewrite E4. simpl. rewrite E2, E1. done.
  - unfold recover_writes. rewrite a_writes_app. fold bl. simpl.
    rewrite Ev, replay_start_keep in G4; [done|].
    eapply Forall_impl; [exact Wh|]. simpl. tauto.
Qed.

Lemma wp_initlog s a (Q : unit -> lstate S -> Prop) :
  c_rel (ls_bc s) a -> a_held a = ∅ -> a_pin a = ∅ -> u32 c_dev = c_dev ->
  length (lh_block (ls_log s)) = LOGSIZE ->
  1 < start -> start + sz <= a_size a < 2147483648 ->
  log_wf start sz (a_size a) (a_view a) ->
  (forall s', geom start sz s' (a_writes (recover_writes start (a_view a)) a) ->
     lh_n (ls_log s') = 0 -> lg_lock (ls_log s') = initlock ->
     lg_outstanding (ls_log s') = lg_outstanding (ls_log s) ->
     lg_committing (ls_log s') = lg_committing (ls_log s) -> Q tt s') ->
  wp (initlog c_dev) Q s.
Proof.
  intros R Hh Hp H32 Hlen Hlo Hhi W HQ. unfold initlog.
  replace (Nat.leb BSIZE (4 + 4 * LOGSIZE)) with false by done. log_steps.
  apply (wp_readsb _ a); [done|done|lia|by apply free_unheld| |].
  { rewrite busy_unheld, Hp, union_empty_l_L, size_singleton by done. unfold NBUF. lia. }
  intros s1 R1. log_steps.
  apply (wp_recover _ a); [|done|done|].
  - split; simpl; auto; apply W.
  - intros s' bl El G. apply HQ; [done|..]; by rewrite El.
Qed.

Lemma trans_length s a bl :
  geom start sz s a -> trans start sz s a bl -> (length bl <= LOGSIZE)%nat.
Proof.
  intros G T. rewrite <- (t_bl _ _ _ _ _ T), length_take, (g_len _ _ _ _ G). lia.
Qed.

Lemma wp_commit s a bl (Q : unit -> lstate S -> Prop) :
  geom start sz s a -> trans start sz s a bl -> (0 < length bl)%nat ->
  a_pin a = list_to_set bl ->
  (forall s', ls_log s' = lh_set_n 0 (ls_log s) ->
     geom start sz s' (a_writes (commit_writes start bl (a_view a)) a) -> Q tt s') ->
  wp commit Q s.
Proof.
  intros G T Hpos Hp HQ. pose proof T as [Tn Tb Tm Th Tr].
  assert (Hhd : (size (a_pin a ∪ {[start]}) <= NBUF)%nat).
  { destruct bl as [|b bl']; [simpl in Hpos; lia|].
    pose proof (Tr b ltac:(apply elem_of_cons; auto)) as Hr.
    pose proof (room2 (a_pin a) (a_pin a) start b NBUF Hr ltac:(done)) as H2.
    etrans; [apply subseteq_size|exact H2]. set_solver. }
  assert (Hhd' : forall a', a_pin a' ⊆ a_pin a -> (size (a_pin a' ∪ {[start]}) <= NBUF)%nat).
  { intros a' Hs. etrans; [apply subseteq_size|exact Hhd]. set_solver. }
  assert (Hnl : Forall (fun b => ~ in_log start sz b) bl).
  { eapply Forall_impl; [exact Th|]. by intros b [_ ?]. }
  unfold commit. wp_step. wp_step. rewrite Tn, (proj2 (Z.ltb_lt _ _)) by lia.
  wp_step. apply (wp_write_log start sz s a bl); [done..|]. intros s1 E1 G1.
  set (w1 := log_copies start bl (a_view a)) in *.
  destruct (a_writes_fields w1 a) as (Es1 & _ & _ & Ev1 & Ep1 & _).
  assert (Hst : replay (a_view a) w1 start = a_view a start).
  { apply replay_notin. unfold w1. rewrite log_copies_dom. lia. }
  wp_step. eapply (wp_write_head start sz s1 _ bl); [exact G1|done|by apply Hhd'|by rewrite E1..|].
  intros s2 E2 G2. rewrite Ev1, Hst in G2.
  set (w2 := w1 ++ [(start, encode_head (a_view a start) bl)]).
  replace (a_written start (encode_head (a_view a start) bl) (a_writes w1 a)) with (a_writes w2 a)
    in G2 by (unfold w2; by rewrite a_writes_app).
  destruct (a_writes_fields w2 a) as (Es2 & _ & _ & Ev2 & Ep2 & _).
  wp_step. eapply (wp_install_trans start sz s2 _ bl); [exact G2| |].
  { split; [by rewrite E2, E1..|done| |].
    - eapply Forall_impl; [exact Th|]. unfold home. by rewrite Es2.
    - intros b Hb. eapply Nat.le_lt_trans; [apply subseteq_size|by apply (Tr b)]. set_solver. }
  intros s3 E3 G3. rewrite Ev2 in G3.
  change (replay (a_view a) w2) with (committed start (a_view a) bl (a_view a)) in G3.
  rewrite committed_installs in G3 by (by apply (trans_length s a)).
  rewrite <- a_writes_app in G3. set (w3 := w2 ++ _) in G3.
  destruct (a_writes_fields w3 a) as (Es3 & _ & _ & Ev3 & Ep3 & _).
  wp_step. apply wp_on_log.
  apply (wp_write_head start sz _ (a_writes w3 a) []); [|done|by apply Hhd'|done|done|].
  { apply geom_log; try apply G3; done. }
  intros s4 E4 G4. apply HQ; [rewrite E4; simpl; by rewrite E3, E2, E1|].
  assert (Hst3 : a_view (a_writes w3 a) start = encode_head (a_view a start) bl).
  { rewrite Ev3. unfold w3. rewrite replay_app, replay_notin.
    - unfold w2. rewrite replay_app. apply disk_write_eq.
    - rewrite <- list_fmap_compose. intros Hin. apply list_elem_of_fmap in Hin as (b & -> & Hb).
      rewrite Forall_forall in Hnl. apply (Hnl b Hb). unfold in_log. simpl in *. lia. }
  rewrite Hst3 in G4. unfold commit_writes.
  replace (a_written start _ (a_writes w3 a)) with (a_writes (w3 ++ [(start,
    encode_head (encode_head (a_view a start) bl) [])]) a) in G4 by (by rewrite a_writes_app).
  unfold w3, w2 in G4. rewrite <- !app_assoc in G4. exact G4.
Qed.
End runs.

(** ** Crash atomicity *)

Section crash_atomicity.
Context {D : Type} `{!DiskOps D} `{!Disk D} (me : nat) (pid start sz asz : Z).
#[local] Instance cr_ops : CacheOps (bcache D) := bcache_ops me pid.
#[local] Instance cr_cache : Cache (bcache D) := bcache_cache me pid.
Implicit Types (c : Z -> block) (d : D).

(** The log in the zeroed data segment, and a boot on the disk [d]. *)
Definition zero_log : log := mk_log initlock 0 0 0 false 0 0 (repeat 0 LOGSIZE) 0.
Definition boot d : lstate (bcache D) := mk_lstate zero_log (binit (zero_bcache d)).

(** [d] is a working disk with the contents [c]. *)
Definition medium c d : Prop := dk_ok d /\ dk_size d = asz /\ eq_disk asz (dk_read d) c.

(** The block writes that took the driver from [d] to its state in [s]. *)
Definition new_writes d (s : lstate (bcache D)) : list (Z * block) :=
  drop (length (dk_hist d)) (dk_hist (bc_dk (ls_bc s))).

(** A boot whose recovery is cut off after some prefix of its writes. *)
Inductive reboot c c' : Prop :=
| reboot_crash d s k :
    medium c d -> initlog dk_dev (boot d) = Ok tt s ->
    eq_disk asz c' (replay c (take k (new_writes d s))) -> reboot c c'.

Context (Hlo : 1 < start) (Hhi : start + sz <= asz < 2147483648) (Hsz : 0 < sz).

Lemma wp_boot c d :
  medium c d -> log_wf start sz asz c ->
  wp (initlog dk_dev) (fun _ s =>
    new_writes d s = recover_writes start (dk_read d) /\ lh_n (ls_log s) = 0 /\
    eq_disk asz (dk_read (bc_dk (ls_bc s))) (replay c (new_writes d s)) /\
    eq_disk asz (replay c (new_writes d s)) (replay c (recover_writes start c)) /\
    exists a, geom start sz s a /\ a_pin a = ∅) (boot d).
Proof.
  intros (Hok & Hs & He) W.
  assert (Wd : log_wf start sz asz (dk_read d)).
  { apply (log_wf_ext start sz asz Hlo Hhi c); [|done]. intros x Hx. symmetry. by apply He. }
  assert (R0 : c_rel (ls_bc (boot d)) (boot_abs d)) by (by apply binit_rel).
  assert (L0 : length (lh_block (ls_log (boot d))) = LOGSIZE) by (apply repeat_length).
  assert (H32 : u32 (@c_dev (bcache D) cr_ops cr_cache) = c_dev).
  { apply u32_small. pose proof (@dk_dev_range D _ _). simpl. lia. }
  generalize dependent (boot d). intros s0 R0 L0.
  assert (Hd : @dk_dev D _ _ = @c_dev (bcache D) cr_ops cr_cache) by reflexivity. rewrite Hd.
  apply (wp_initlog (S := bcache D) start sz Hsz s0 (boot_abs d));
    [exact R0|reflexivity|reflexivity|exact H32|exact L0|exact Hlo|by rewrite <- Hs in Hhi| |].
  - rewrite <- Hs in Wd. exact Wd.
  - intros s G Hn _ _ _.
    set (ws := recover_writes start (dk_read d)) in *.
    destruct (a_writes_fields ws (boot_abs d)) as (Es & Ed & Eh & _ & Ep & _).
    pose proof (g_rel _ _ _ _ G : bc_rel pid (ls_bc s) (a_writes ws (boot_abs d))) as R.
    assert (Hnw : new_writes d s = ws).
    { unfold new_writes. rewrite (br_hist _ _ _ R), Eh. simpl. by rewrite drop_app_length. }
    rewrite Hnw. split_and!; [done..| | |].
    + intros x Hx. rewrite (br_disk _ _ _ R), Ed by (unfold in_range; rewrite Es; simpl; by rewrite Hs).
      simpl. by apply (replay_ext asz).
    + intros x Hx. assert (Hws : ws = recover_writes start c); [|by rewrite Hws].
      unfold ws, recover_writes. rewrite (He start) by lia. f_equal.
      apply (installs_ext start sz asz); [done..| |done].
      rewrite head_blocks_length by apply W. apply W.
    + exists (a_writes ws (boot_abs d)). split; [done|]. by apply equiv_empty_L.
Qed.

Lemma medium_start c d : medium c d -> length (c start) = BSIZE.
Proof.
  intros (Hok & Hs & He). rewrite <- He by lia. apply (dk_read_ok d start Hok). lia.
Qed.

(** An interrupted recovery preserves the meaning of the disk. *)
Lemma reboot_logical c c' :
  reboot c c' -> log_wf start sz asz c ->
  log_wf start sz asz c' /\ eq_home start sz asz (logical start c') (logical start c).
Proof.
  intros [d s k Hm Hr He] W.
  destruct (wp_elim _ _ _ _ _ (wp_boot c d Hm W) Hr) as (Hnw & _ & _ & Heq & _). clear Hr.
  assert (Hsame : new_writes d s = recover_writes start c).
  { rewrite Hnw. unfold recover_writes. rewrite (proj2 (proj2 Hm) start) by lia. f_equal.
    apply (installs_ext start sz asz); [done..| |apply Hm].
    rewrite head_blocks_length by apply W. apply W. }
  rewrite Hsame in He.
  destruct (recover_prefix start sz asz Hlo Hsz c k W (medium_start c d Hm)) as [W' Hl].
  set (c0 := replay c (take k (recover_writes start c))) in *.
  assert (He' : eq_disk asz c0 c') by (intros x Hx; symmetry; by apply He).
  split; [by apply (log_wf_ext start sz asz Hlo Hhi c0)|].
  intros x Hx Hn. rewrite <- (logical_ext start sz asz Hlo Hhi Hsz c0 c') by done. by apply Hl.
Qed.

Lemma reboots_logical c c' :
  rtc reboot c c' -> log_wf start sz asz c ->
  log_wf start sz asz c' /\ eq_home start sz asz (logical start c') (logical start c).
Proof.
  intros Hr W. induction Hr as [|c1 c2 c3 H12 _ IH]; [done|].
  destruct (reboot_logical _ _ H12 W) as [W2 E2]. destruct (IH W2) as [W3 E3].
  split; [done|]. intros x Hx Hn. rewrite E3 by done. by apply E2.
Qed.

(** Ready to commit: the transaction [bl] is in the in-memory header, its blocks
    are pinned, and the on-disk log is empty. *)
Record ready (s : lstate (bcache D)) (a : abs) (bl : list Z) : Prop := mk_ready {
  rd_geom : geom start sz s a;
  rd_trans : trans start sz s a bl;
  rd_pin : a_pin a = list_to_set bl;
  rd_size : a_size a = asz;
  rd_wf : log_wf start sz asz (a_disk a);
  rd_clean : head_n (a_disk a start) = 0;
  rd_home : Forall (fun b => 1 < b < asz /\ ~ in_log start sz b) bl
}.

Lemma ready_prefix s a bl k :
  ready s a bl ->
  let c' := replay (a_disk a) (take k (commit_writes start bl (a_view a))) in
  log_wf start sz asz c' /\
  eq_home start sz asz (logical start c')
    (if decide (k <= length bl)%nat then a_disk a else a_view a).
Proof.
  intros [G T Hp Hs W Hc Hb].
  pose proof (g_rel _ _ _ _ G) as R.
  apply (commit_prefix start sz asz Hlo Hhi Hsz); try done.
  - by apply (trans_length start sz s a).
  - apply T.
  - intros x Hx Hn. apply (c_view_disk (ls_bc s)); [done|by rewrite Hs|].
    rewrite Hp. by rewrite elem_of_list_to_set.
  - apply (c_view_ok (ls_bc s)); [done|]. rewrite Hs. lia.
Qed.

(** C1: crash atomicity of the log.  Run [commit], cut the power after any number [k]
    of its block writes, reboot any number of times with the recovery itself cut
    off anywhere, then let one recovery finish: every block outside the log area
    has its old contents if the header had not been written ([k] at most the
    number of blocks in the transaction), and its new contents otherwise. *)
Theorem log_crash_atomic (s : lstate (bcache D)) (a : abs) (bl : list Z) :
  ready s a bl -> (0 < length bl)%nat ->
  wp commit (fun _ s1 =>
    forall k c1 d,
      rtc reboot (replay (a_disk a) (take k (new_writes (bc_dk (ls_bc s)) s1))) c1 ->
      medium c1 d ->
      wp (initlog dk_dev) (fun _ s2 =>
        forall x, 0 <= x < asz -> ~ in_log start sz x ->
          dk_read (bc_dk (ls_bc s2)) x =
          (if decide (k <= length bl)%nat then a_disk a x else a_view a x)) (boot d)) s.
Proof.
  intros Hr Hpos. pose proof Hr as [G T Hp Hs W Hc Hb].
  apply (wp_commit start sz Hsz s a bl); [done..|]. intros s1 _ G1 k c1 d Hrt Hm.
  assert (Hnw : new_writes (bc_dk (ls_bc s)) s1 = commit_writes start bl (a_view a)).
  { destruct (a_writes_fields (commit_writes start bl (a_view a)) a) as (_ & _ & Eh & _).
    pose proof (g_rel _ _ _ _ G1 : bc_rel pid (ls_bc s1) _) as R1.
    pose proof (g_rel _ _ _ _ G : bc_rel pid (ls_bc s) a) as R.
    unfold new_writes. rewrite (br_hist _ _ _ R1), (br_hist _ _ _ R), Eh. by rewrite drop_app_length. }
  rewrite Hnw in Hrt.
  destruct (ready_prefix s a bl k Hr) as [W0 L0].
  destruct (reboots_logical _ _ Hrt W0) as [W1 L1].
  eapply wp_mono; [by apply (wp_boot c1 d)|]. simpl.
  intros [] s2 (_ & _ & E1 & E2 & _) x Hx Hn.
  rewrite E1, E2 by done. rewrite (recover_complete start sz asz Hsz c1 W1) by done.
  rewrite L1, L0 by done. by case_decide.
Qed.
End crash_atomicity.

(** ** Transactions *)

Section transactions.
Context {S : Type} `{Cache S} (me : nat) (start sz : Z).
Implicit Types (s : lstate S) (a : abs).

Ltac log_steps :=
  repeat (first [wp_step | apply wp_bc | apply wp_on_log]; cbn beta); cbn [ls_log ls_bc].

(** Inside a transaction: buffers may be locked, and the blocks of the in-memory
    header are exactly the pinned ones. *)
Record in_trans s a (bl : list Z) : Prop := mk_in_trans {
  it_rel : c_rel (ls_bc s) a;
  it_lock : lg_lock (ls_log s) = initlock;
  it_start : lg_start (ls_log s) = start;
  it_size : lg_size (ls_log s) = sz;
  it_dev : lg_dev (ls_log s) = c_dev;
  it_len : length (lh_block (ls_log s)) = LOGSIZE;
  it_n : lh_n (ls_log s) = Z.of_nat (length bl);
  it_bl : take (length bl) (lh_block (ls_log s)) = bl;
  it_nodup : NoDup bl;
  it_pin : a_pin a = list_to_set bl;
  it_small : a_size a < 2147483648
}.

Lemma in_trans_length s a bl : in_trans s a bl -> (length bl <= LOGSIZE)%nat.
Proof. intros T. rewrite <- (it_bl s a bl T), length_take, (it_len s a bl T). lia. Qed.

(** The scan of [log_write] stops at the block or at the end. *)
Lemma absorb_scan_spec lb bl b n i :
  take (Z.to_nat i + n) lb = bl -> length bl = (Z.to_nat i + n)%nat -> 0 <= i ->
  Forall (fun x => 0 <= x < W32) bl ->
  absorb_scan lb b n i =
  match find_index (fun x => x =? b) (drop (Z.to_nat i) bl) with
  | Some k => i + Z.of_nat k
  | None => i + Z.of_nat n
  end.
Proof.
  revert i. induction n as [|n IH]; intros i Hbl Hlen Hi Hr; cbn [absorb_scan].
  - rewrite drop_ge by lia. simpl. lia.
  - destruct (lookup_lt_is_Some_2 bl (Z.to_nat i) ltac:(lia)) as [x Hx].
    rewrite (drop_S _ _ _ Hx). simpl.
    assert (Hlb : lb !! Z.to_nat i = Some x).
    { rewrite <- Hbl in Hx. by apply lookup_take_Some in Hx as [? _]. }
    rewrite Hlb. simpl. rewrite u32_small by (by apply (Forall_lookup_1 _ _ _ _ Hr Hx)).
    destruct (x =? b); [lia|].
    rewrite (IH (i + 1)) by (first [lia | done | by replace (Z.to_nat (i + 1) + n)%nat with
      (Z.to_nat i + Datatypes.S n)%nat by lia]).
    replace (Z.to_nat (i + 1)) with (Datatypes.S (Z.to_nat i)) by lia.
    destruct (find_index _ _); simpl; lia.
Qed.

(** The transaction after logging block [b]: an absorbed block keeps its place. *)
Definition logged (bl : list Z) (b : Z) : list Z := if decide (b ∈ bl) then bl else bl ++ [b].

(** Where [log_write] stores block [b]: its old place, or the end. *)
Lemma absorb_place lb bl b :
  take (length bl) lb = bl -> Forall (fun x => 0 <= x < W32) bl ->
  let k := absorb_scan lb b (length bl) 0 in
  (b ∈ bl -> 0 <= k < Z.of_nat (length bl) /\ <[Z.to_nat k := b]> lb = lb) /\
  (b ∉ bl -> k = Z.of_nat (length bl)).
Proof.
  intros Hb Hr k. unfold k. rewrite (absorb_scan_spec _ bl) by (done || lia).
  cbn [Z.to_nat]. rewrite drop_0. destruct (find_index _ bl) as [j|] eqn:Hf.
  - pose proof (find_index_lt _ _ _ Hf) as Hj.
    apply find_index_Some in Hf as [(x & Hx & Hxb%Z.eqb_eq) _]. subst x.
    rewrite Z.add_0_l, Nat2Z.id. split.
    + intros _. split; [lia|]. apply list_insert_id.
      rewrite <- Hb in Hx. by apply lookup_take_Some in Hx as [? _].
    + intros Hn. destruct Hn. by eapply list_elem_of_lookup_2.
  - rewrite find_index_None in Hf. split; [|lia]. intros Hin.
    apply list_elem_of_lookup in Hin as [j Hj]. specialize (Hf _ _ Hj). by rewrite Z.eqb_refl in Hf.
Qed.

Lemma take_insert_snoc (lb bl : list Z) b :
  take (length bl) lb = bl -> (length bl < length lb)%nat ->
  take (length (bl ++ [b])) (<[length bl := b]> lb) = bl ++ [b].
Proof.
  intros Hb Hl. rewrite length_app. simpl. rewrite Nat.add_1_r.
  rewrite (take_S_r _ _ b) by (by apply list_lookup_insert_eq).
  f_equal. by rewrite take_insert_ge.
Qed.

Lemma wp_log_write s a bl i b d (Q : unit -> lstate S -> Prop) :
  in_trans s a bl -> Forall (fun x => 0 <= x < a_size a) bl ->
  a_held a !! i = Some (b, d) -> 1 <= lg_outstanding (ls_log s) ->
  (length bl < LOGSIZE)%nat -> Z.of_nat (length bl) < sz - 1 ->
  (forall s', in_trans s' (a_pinned b a) (logged bl b) ->
     lg_outstanding (ls_log s') = lg_outstanding (ls_log s) ->
     lg_committing (ls_log s') = lg_committing (ls_log s) -> Q tt s') ->
  wp (log_write me i) Q s.
Proof.
  intros T Hbl Hh Hout Hmax Hfit HQ. pose proof T as [R Hlk Hst Hsi Hdv Hle Hn Hb Hnd Hp Hsm].
  destruct (c_held_ok _ _ _ _ _ R Hh) as [Hbr _].
  pose proof (c_dirty _ _ _ _ _ R Hh) as R1.
  unfold log_write. wp_step. wp_step. rewrite Hn, Hsi.
  rewrite (proj2 (Z.leb_gt _ _)) by lia. rewrite (proj2 (Z.leb_gt _ _)) by lia. cbn [orb].
  rewrite (proj2 (Z.ltb_ge _ _)) by lia. wp_step. apply wp_acquire; [done|]. log_steps.
  rewrite (c_blockno _ _ _ _ _ R Hh). cbn [lh_n lh_block lg_set_lock]. rewrite Hn, Nat2Z.id.
  rewrite (i32_small b) by lia.
  destruct (absorb_place (lh_block (ls_log s)) bl b) as [Hin Hnin]; [done| |].
  { eapply Forall_impl; [exact Hbl|]. simpl. unfold W32. lia. }
  unfold lh_put, logged in *. destruct (decide (b ∈ bl)) as [Hd|Hd].
  - destruct (Hin Hd) as [Hk Hid].
    rewrite (proj2 (Z.ltb_lt _ _)), (proj2 (Z.eqb_neq _ _)) by lia. log_steps.
    apply wp_release; [done|]. apply HQ; [|done..]. split; simpl; rewrite ?Hid; auto.
    rewrite Hp. apply set_eq. intros x. rewrite elem_of_union, elem_of_list_to_set, elem_of_singleton.
    split; [|tauto]. by intros [?| ->].
  - rewrite Hnin, Nat2Z.id, Z.eqb_refl, (proj2 (Z.ltb_lt _ _)) by (done || lia). log_steps.
    apply wp_release; [done|]. apply HQ; [|done..]. split; simpl; auto.
    + by rewrite length_insert.
    + rewrite Hn, length_app. simpl. lia.
    + apply take_insert_snoc; [done|lia].
    + apply NoDup_app. split_and!; [done| |apply NoDup_singleton].
      intros x Hx Hx'. apply list_elem_of_singleton in Hx' as ->. done.
    + rewrite Hp, list_to_set_app_L. simpl. by rewrite union_empty_r_L.
Qed.

Lemma wp_begin_op s (Q : unit -> lstate S -> Prop) :
  lg_lock (ls_log s) = initlock -> lg_committing (ls_log s) = false ->
  lh_n (ls_log s) + (lg_outstanding (ls_log s) + 1) * MAXOPBLOCKS <= Z.of_nat LOGSIZE ->
  Q tt (mk_lstate (lg_set_outstanding (lg_outstanding (ls_log s) + 1) (ls_log s)) (ls_bc s)) ->
  wp (begin_op me) Q s.
Proof.
  intros Hl Hc Hn HQ. destruct s as [[lk st si ou co dv n lb wk] b]. simpl in *. subst.
  unfold begin_op, lock_log. wp_step. apply wp_acquire; [done|]. log_steps. cbn [lg_committing lg_set_lock].
  cbn [lh_n lg_outstanding lg_set_lock]. rewrite (proj2 (Z.ltb_ge _ _)) by lia. log_steps.
  apply wp_release; [done|]. done.
Qed.

(** The idiom of the file system: read a block, change it, log it, release it. *)
Definition update_block (dev b : Z) (f : block -> block) : M (lstate S) unit :=
  let! i := bc (bread dev b) in
  bc (modify (fun t => bset_data i (f (bdata i t)) t)) ;;;
  log_write me i ;;;
  bc (brelse i).

Definition a_updated (b : Z) (d : block) (a : abs) : abs :=
  mk_abs (a_size a) (a_disk a) (a_hist a) (disk_write (a_view a) (b, d)) (a_pin a ∪ {[b]}) (a_held a).

Lemma wp_update s a bl b f (Q : unit -> lstate S -> Prop) :
  in_trans s a bl -> Forall (fun x => 0 <= x < a_size a) bl -> a_held a = ∅ ->
  0 <= b < a_size a -> block_ok (f (a_view a b)) -> 1 <= lg_outstanding (ls_log s) ->
  (length bl < LOGSIZE)%nat -> Z.of_nat (length bl) < sz - 1 ->
  (forall s', in_trans s' (a_updated b (f (a_view a b)) a) (logged bl b) ->
     lg_outstanding (ls_log s') = lg_outstanding (ls_log s) ->
     lg_committing (ls_log s') = lg_committing (ls_log s) -> Q tt s') ->
  wp (update_block c_dev b f) Q s.
Proof.
  intros T Hbl Hh Hb Hok Hout Hmax Hfit HQ. pose proof (it_rel _ _ _ T) as R.
  unfold update_block. wp_step. apply wp_bc.
  apply (c_bread _ a); [done|done|by apply free_unheld| |].
  { rewrite busy_unheld, (it_pin _ _ _ T) by done. unfold LOGSIZE, NBUF in *.
    etrans; [apply size_add_le|]. rewrite size_list_to_set by apply T. lia. }
  intros i s1 Hi R1. log_steps. rewrite (c_data _ _ _ _ _ R1 (lookup_insert_eq _ _ _)).
  set (v := a_view a b) in *.
  pose proof (c_set_data _ _ _ _ _ _ R1 (lookup_insert_eq _ _ _) Hok) as R2.
  set (s2 := mk_lstate (ls_log s) (bset_data i (f v) s1)).
  rewrite hold_hold in R2. set (a2 := a_hold i (b, f v) a) in *.
  apply (wp_log_write s2 a2 bl i b (f v)); try done.
  { destruct T. by split. }
  { apply hold_lookup. }
  intros s3 T3 O3 C3. apply wp_bc.
  apply (c_brelse _ (a_pinned b a2) i b (f v)); [apply T3|apply hold_lookup|left; simpl; set_solver|].
  intros s4 R4. apply HQ; [|done..].
  assert (R5 : c_rel s4 (a_updated b (f v) a)).
  { refine (c_proper _ _ _ _ R4). split; try done. simpl. by rewrite delete_insert_id. }
  destruct T3. by split.
Qed.

(** The cache after the last operation of the transaction [bl] has ended. *)
Definition ended (a : abs) (bl : list Z) : abs :=
  match bl with
  | [] => a
  | _ => a_writes (commit_writes start bl (a_view a)) a
  end.

Lemma ended_pin a bl : a_pin a = list_to_set bl -> a_pin (ended a bl) = ∅.
Proof.
  intros Hp. destruct bl as [|b bl']; [done|]. unfold ended. set (bl := b :: bl') in *.
  apply equiv_empty_L. intros x Hx. apply a_writes_pin in Hx as [Hx Hn]. exfalso. apply Hn.
  rewrite Hp, elem_of_list_to_set in Hx. unfold commit_writes.
  rewrite !fmap_app, !elem_of_app. right. right. left. rewrite <- list_fmap_compose.
  apply list_elem_of_fmap. by exists x.
Qed.

Lemma wp_commit_any s a bl (Q : unit -> lstate S -> Prop) :
  0 < sz -> geom start sz s a -> trans start sz s a bl -> a_pin a = list_to_set bl ->
  (forall s', ls_log s' = lh_set_n 0 (ls_log s) -> geom start sz s' (ended a bl) -> Q tt s') ->
  wp commit Q s.
Proof.
  intros Hsz G T Hp HQ. destruct bl as [|b bl'].
  - unfold commit. wp_step. wp_step. rewrite (t_n _ _ _ _ _ T). log_steps. apply HQ; [|done].
    destruct s as [[] ?]. pose proof (t_n _ _ _ _ _ T) as Hn. simpl in *. by subst.
  - apply (wp_commit start sz Hsz s a (b :: bl')); [done..|simpl; lia|done|]. exact HQ.
Qed.

(** The end of the last operation of a transaction commits it. *)
Lemma wp_end_op_last s a bl (Q : unit -> lstate S -> Prop) :
  in_trans s a bl -> geom start sz s a -> trans start sz s a bl -> 0 < sz ->
  lg_outstanding (ls_log s) = 1 -> lg_committing (ls_log s) = false ->
  (forall s', in_trans s' (ended a bl) [] -> geom start sz s' (ended a bl) ->
     lg_outstanding (ls_log s') = 0 -> lg_committing (ls_log s') = false -> Q tt s') ->
  wp (end_op me) Q s.
Proof.
  intros T G Tr Hsz Ho Hc HQ. pose proof T as [R Hlk Hst Hsi Hdv Hle Hn Hb Hnd Hp Hsm].
  unfold end_op, lock_log. wp_step. apply wp_acquire; [done|]. log_steps.
  cbn [lg_committing lg_set_lock lg_set_outstanding lg_outstanding]. rewrite Hc, Ho.
  change (1 - 1 =? 0) with true. cbv iota. log_steps. apply wp_release; [done|]. log_steps.
  apply (wp_commit_any _ a bl); [done| | |done|].
  - destruct G. by split.
  - destruct Tr. by split.
  - intros s2 E2 G2. unfold lock_log. wp_step. apply wp_acquire; [by rewrite E2|]. log_steps.
    apply wp_release; [done|].
    assert (Hs2 : a_size (ended a bl) = a_size a).
    { unfold ended. destruct bl; [done|]. apply a_writes_fields. }
    apply HQ; simpl; rewrite ?E2; try done.
    + split; simpl; rewrite ?E2; simpl; auto; [apply G2|constructor| |by rewrite Hs2].
      by rewrite (ended_pin a bl).
    + destruct G2 as [G2a G2b G2c G2d G2e G2f G2g G2h G2i]. rewrite E2 in *. by split.
Qed.
End transactions.

(** ** Reservation of log space *)

Section reservation.
Context {S : Type} `{!CacheOps S} (me : nat).
Implicit Types s : lstate S.

(** The file system calls in progress, each with the number of [log_write]s it
    has made; none makes more than [MAXOPBLOCKS]. *)
Inductive op_step : lstate S * list Z -> lstate S * list Z -> Prop :=
| op_begin s s' us : begin_op me s = Ok tt s' -> op_step (s, us) (s', 0 :: us)
| op_write s s' us1 u us2 b :
    u < MAXOPBLOCKS -> log_write me b s = Ok tt s' ->
    op_step (s, us1 ++ u :: us2) (s', us1 ++ (u + 1) :: us2)
| op_end s s' us1 u us2 :
    end_op me s = Ok tt s' -> op_step (s, us1 ++ u :: us2) (s', us1 ++ us2).

(** The space the calls in progress may still use. *)
Definition reserved (us : list Z) : Z := foldr (fun u r => MAXOPBLOCKS - u + r) 0 us.

Record op_inv (c : lstate S * list Z) : Prop := mk_op_inv {
  oi_lock : lg_lock (ls_log c.1) = initlock;
  oi_committing : lg_committing (ls_log c.1) = false;
  oi_outstanding : lg_outstanding (ls_log c.1) = Z.of_nat (length c.2);
  oi_n : 0 <= lh_n (ls_log c.1);
  oi_used : Forall (fun u => 0 <= u <= MAXOPBLOCKS) c.2;
  oi_space : lh_n (ls_log c.1) + reserved c.2 <= Z.of_nat LOGSIZE
}.

Lemma reserved_app us1 us2 : reserved (us1 ++ us2) = reserved us1 + reserved us2.
Proof. induction us1 as [|u us1 IH]; simpl; lia. Qed.

Lemma reserved_bounds us :
  Forall (fun u => 0 <= u <= MAXOPBLOCKS) us -> 0 <= reserved us <= MAXOPBLOCKS * Z.of_nat (length us).
Proof. unfold MAXOPBLOCKS. induction 1; simpl; unfold MAXOPBLOCKS in *; lia. Qed.

Lemma absorb_scan_bounds bl b n i : i <= absorb_scan bl b n i <= i + Z.of_nat n.
Proof.
  revert i. induction n as [|n IH]; intros i; cbn [absorb_scan]; [lia|].
  case_match; [lia|]. specialize (IH (i + 1)). lia.
Qed.

(** Operations that do not change the in-memory log. *)
Definition same_log (s s' : lstate S) : Prop := ls_log s' = ls_log s.
#[local] Instance same_log_pre : PreOrder same_log.
Proof. split; [done|]. unfold same_log. intros s1 s2 s3 A B. congruence. Qed.

Lemma keeps_bc {A} (m : M S A) : keeps same_log (bc m).
Proof. by apply keeps_zoom. Qed.
#[local] Hint Resolve keeps_bc : keeps.
Lemma keeps_lh_get i : keeps same_log (lh_get i).
Proof. unfold lh_get, undefined. keeps_steps. Qed.
#[local] Hint Resolve keeps_lh_get : keeps.

Lemma keeps_write_head : keeps same_log write_head.
Proof. unfold write_head. keeps_steps. Qed.
Lemma keeps_write_log : keeps same_log write_log.
Proof. unfold write_log, write_log_body, copy_data. keeps_steps. Qed.
Lemma keeps_install : keeps same_log install_trans.
Proof. unfold install_trans, install_body, copy_data. keeps_steps. Qed.

Lemma keeps_Ok_log {A} (m : M (lstate S) A) s r s' : keeps same_log m -> m s = Ok r s' -> ls_log s' = ls_log s.
Proof. intros Hm. apply (post_Ok _ _ _ _ _ _ (Hm s)). Qed.

Lemma commit_Ok s s' :
  0 <= lh_n (ls_log s) -> commit s = Ok tt s' -> ls_log s' = lh_set_n 0 (ls_log s).
Proof.
  intros Hn Hc. unfold commit in Hc. apply bind_Ok in Hc as (l & s0 & [= <- <-] & Hc).
  destruct (Z.ltb_spec 0 (lh_n (ls_log s))).
  - apply bind_Ok in Hc as ([] & s1 & H1%(keeps_Ok_log _ _ _ _ keeps_write_log) & Hc).
    apply bind_Ok in Hc as ([] & s2 & H2%(keeps_Ok_log _ _ _ _ keeps_write_head) & Hc).
    apply bind_Ok in Hc as ([] & s3 & H3%(keeps_Ok_log _ _ _ _ keeps_install) & Hc).
    apply bind_Ok in Hc as ([] & s4 & [= <-] & Hc%(keeps_Ok_log _ _ _ _ keeps_write_head)).
    rewrite Hc. simpl. by rewrite H3, H2, H1.
  - injection Hc as <-. destruct s as [[] ?]. simpl in *. by replace lh_n0 with 0 by lia.
Qed.

Lemma begin_op_Ok s s' :
  lg_lock (ls_log s) = initlock -> begin_op me s = Ok tt s' ->
  ls_log s' = lg_set_outstanding (lg_outstanding (ls_log s) + 1) (ls_log s) /\
  lg_committing (ls_log s) = false /\
  lh_n (ls_log s) + (lg_outstanding (ls_log s) + 1) * MAXOPBLOCKS <= Z.of_nat LOGSIZE.
Proof.
  destruct s as [[lk st si ou co dv n lb wk] b]. intros Hl Hb. simpl in *. subst.
  apply bind_Ok in Hb as (? & s1 & [_ ->]%acquire_Ok & Hb).
  apply bind_Ok in Hb as (l & s2 & [= <- <-] & Hb).
  cbn [ls_log lg_set_lock lg_committing lg_outstanding lh_n] in Hb.
  destruct co; [apply bind_Ok in Hb as (? & ? & _ & ?); done|].
  destruct (Z.ltb_spec (Z.of_nat LOGSIZE) (n + (ou + 1) * MAXOPBLOCKS)) as [Hlt|Hge].
  - apply bind_Ok in Hb as (? & ? & _ & ?). done.
  - apply bind_Ok in Hb as (? & s3 & [= _ <-] & ->%release_Ok). done.
Qed.

Lemma end_op_Ok s s' :
  lg_lock (ls_log s) = initlock -> 0 <= lh_n (ls_log s) -> end_op me s = Ok tt s' ->
  lg_lock (ls_log s') = initlock /\ lg_committing (ls_log s') = false /\
  lg_size (ls_log s') = lg_size (ls_log s) /\
  lg_outstanding (ls_log s') = lg_outstanding (ls_log s) - 1 /\
  lh_n (ls_log s') = if lg_outstanding (ls_log s) =? 1 then 0 else lh_n (ls_log s).
Proof.
  destruct s as [[lk st si ou co dv n lb wk] b]. intros Hl Hn Hb. simpl in *. subst.
  apply bind_Ok in Hb as (? & s1 & [_ ->]%acquire_Ok & Hb).
  apply bind_Ok in Hb as (? & s2 & [= _ <-] & Hb).
  apply bind_Ok in Hb as (l & s3 & [= <- <-] & Hb). simpl in Hb.
  destruct co; [done|]. destruct (Z.eqb_spec (ou - 1) 0) as [He|He].
  - rewrite (proj2 (Z.eqb_eq ou 1)) by lia.
    apply bind_Ok in Hb as (? & s4 & [= <- <-] & Hb). simpl in Hb.
    apply bind_Ok in Hb as (? & s5 & ->%release_Ok & Hb).
    apply bind_Ok in Hb as ([] & s6 & H6 & Hb).
    apply commit_Ok in H6; [|done]. simpl in H6.
    apply bind_Ok in Hb as (? & s7 & [_ ->]%acquire_Ok & Hb).
    apply bind_Ok in Hb as (? & s8 & [= _ <-] & Hb).
    apply bind_Ok in Hb as (? & s9 & [= _ <-] & ->%release_Ok). simpl. by rewrite H6.
  - rewrite (proj2 (Z.eqb_neq ou 1)) by lia.
    apply bind_Ok in Hb as (? & s4 & [= <- <-] & Hb). simpl in Hb.
    apply bind_Ok in Hb as (? & s5 & ->%release_Ok & Hb). by injection Hb as <-.
Qed.

Lemma log_write_Ok s s' b :
  0 <= lh_n (ls_log s) -> log_write me b s = Ok tt s' ->
  lg_lock (ls_log s') = initlock /\
  lg_committing (ls_log s') = lg_committing (ls_log s) /\
  lg_size (ls_log s') = lg_size (ls_log s) /\
  lg_outstanding (ls_log s') = lg_outstanding (ls_log s) /\
  lh_n (ls_log s) <= lh_n (ls_log s') <= lh_n (ls_log s) + 1.
Proof.
  destruct s as [[lk st si ou co dv n lb wk] bb]. intros Hn Hb. cbn [ls_log lh_n] in Hn.
  apply bind_Ok in Hb as (l & s1 & [= <- <-] & Hb). cbn [ls_log lh_n lg_size lg_outstanding] in Hb.
  destruct (_ || _); [done|]. destruct (_ <? 1); [done|].
  apply bind_Ok in Hb as (? & s2 & [_ ->]%acquire_Ok & Hb).
  apply bind_Ok in Hb as (l & s3 & [= <- <-] & Hb).
  apply bind_Ok in Hb as (bno & s4 & [= <- <-] & Hb).
  cbn [ls_log lg_set_lock lh_n lh_block] in Hb. set (k := absorb_scan _ _ _ _) in Hb.
  apply bind_Ok in Hb as ([] & s5 & H5 & Hb). unfold lh_put in H5.
  destruct (k <? Z.of_nat LOGSIZE); [|done]. injection H5 as <-.
  apply bind_Ok in Hb as ([] & s6 & H6 & Hb).
  apply bind_Ok in Hb as ([] & s7 & [= <-] & ->%release_Ok).
  destruct (k =? n); injection H6 as <-; simpl; split_and!; (done || lia).
Qed.

Context (sz : Z).

Definition op_inv_sz (c : lstate S * list Z) : Prop := op_inv c /\ lg_size (ls_log c.1) = sz.

Lemma op_inv_step c c' : op_inv_sz c -> op_step c c' -> op_inv_sz c'.
Proof.
  intros [[Hl Hc Ho Hn Hu Hs] Hz] Hstep.
  destruct Hstep as [s s' us Hb|s s' us1 u us2 b Hlt Hw|s s' us1 u us2 He]; simpl in *.
  - apply begin_op_Ok in Hb as (E & _ & Hr); [|done]. split; [|simpl; by rewrite E].
    pose proof (reserved_bounds us Hu). unfold MAXOPBLOCKS in *.
    split; simpl; rewrite ?E; simpl; try done; [lia| |unfold MAXOPBLOCKS; rewrite Ho in Hr; lia].
    constructor; [unfold MAXOPBLOCKS; lia|done].
  - apply log_write_Ok in Hw as (E1 & E2 & E3 & E4 & E5); [|done].
    rewrite reserved_app in Hs. simpl in Hs.
    apply Forall_app in Hu as [Hu1 Hu2]. apply Forall_cons in Hu2 as [Hu Hu2].
    split; [|simpl; congruence]. split; simpl; try (done || lia || congruence).
    + rewrite E4, Ho, !length_app. done.
    + apply Forall_app. split; [done|]. constructor; [lia|done].
    + rewrite reserved_app. simpl. lia.
  - apply end_op_Ok in He as (E1 & E2 & E3 & E4 & E5); [|done..].
    rewrite reserved_app in Hs. simpl in Hs. rewrite length_app in Ho. simpl in Ho.
    apply Forall_app in Hu as [Hu1 Hu2]. apply Forall_cons in Hu2 as [Hu Hu2].
    pose proof (reserved_bounds us1 Hu1). pose proof (reserved_bounds us2 Hu2).
    split; [|simpl; congruence].
    split; simpl; rewrite ?E4, ?E5, ?length_app; try (done || lia).
    + case_match; lia.
    + apply Forall_app. done.
    + rewrite reserved_app. destruct (Z.eqb_spec (lg_outstanding (ls_log s)) 1) as [H1|H1]; [|lia].
      destruct us1; [|simpl in *; lia]. destruct us2; [|simpl in *; lia]. simpl. lia.
Qed.

End reservation.

(** ** Durability *)

Section durability.
Context {S : Type} `{Cache S} (me : nat) (start sz : Z).

(** C2: durability.  When the last file system call of a transaction ends, [end_op]
    returns, no block stays pinned, the log is empty again, and every block
    outside the log area is on the disk with the contents the calls gave it. *)
Theorem end_op_durable (s : lstate S) (a : abs) (bl : list Z) :
  in_trans start sz s a bl -> geom start sz s a -> trans start sz s a bl -> 0 < sz ->
  log_wf start sz (a_size a) (a_disk a) -> head_n (a_disk a start) = 0 ->
  Forall (fun b => 1 < b < a_size a /\ ~ in_log start sz b) bl ->
  lg_outstanding (ls_log s) = 1 -> lg_committing (ls_log s) = false ->
  wp (end_op me) (fun _ s' => exists a',
    c_rel (ls_bc s') a' /\ a_pin a' = ∅ /\ lh_n (ls_log s') = 0 /\
    lg_outstanding (ls_log s') = 0 /\
    forall x, 0 <= x < a_size a -> ~ in_log start sz x ->
      a_disk a' x = a_view a x /\ a_view a' x = a_view a x) s.
Proof.
  intros T G Tr Hsz W Hc Hb Ho Hco.
  apply (wp_end_op_last me start sz s a bl); [done..|]. intros s' T' G' Ho' _.
  exists (ended start a bl). split_and!; [apply T'|apply T'|apply T'|done|].
  pose proof (it_rel _ _ _ _ _ T) as R. pose proof (g_lo _ _ _ _ G) as Hlo.
  pose proof (g_hi _ _ _ _ G) as Hhi.
  assert (Hv : forall x, 0 <= x < a_size a -> x ∉ bl -> a_view a x = a_disk a x).
  { intros x Hx Hn. apply (c_view_disk _ _ _ R Hx). by rewrite (it_pin _ _ _ _ _ T), elem_of_list_to_set. }
  intros x Hx Hn.
  assert (Hd : a_disk (ended start a bl) x = a_view a x).
  { unfold ended. destruct bl as [|b bl']; [symmetry; apply Hv; [done|apply not_elem_of_nil]|].
    set (bl := b :: bl') in *.
    destruct (a_writes_fields (commit_writes start bl (a_view a)) a) as (_ & -> & _).
    assert (Hlen : (length bl <= LOGSIZE)%nat) by (by apply (in_trans_length start sz s a)).
    assert (Hok : block_ok (a_view a start)) by (apply (c_view_ok _ _ _ R); lia).
    rewrite (commit_writes_split start sz (a_size a) Hhi (a_disk a)) by (try done; apply Tr).
    rewrite replay_app. fold (committed start (a_disk a) bl (a_view a)).
    rewrite (recover_complete start sz (a_size a) Hsz);
      [|eapply committed_wf; try done; apply Tr|done|done].
    eapply committed_logical; try done. apply Tr. }
  split; [done|]. rewrite <- Hd.
  apply (c_view_disk (ls_bc s')); [apply T'| |].
  - unfold ended. destruct bl; [done|]. by rewrite (proj1 (a_writes_fields _ _)).
  - rewrite ended_pin by apply T. set_solver.
Qed.
End durability.

(** ** The state between transactions *)

Section quiet.
Context {S : Type} `{Cache S} (me : nat) (start sz : Z).
Implicit Types (s : lstate S) (a : abs).

(** No call in progress, nothing pinned or locked, an empty log. *)
Record quiet s a : Prop := mk_quiet {
  q_trans : in_trans start sz s a [];
  q_geom : geom start sz s a;
  q_outstanding : lg_outstanding (ls_log s) = 0;
  q_committing : lg_committing (ls_log s) = false;
  q_wf : log_wf start sz (a_size a) (a_disk a);
  q_clean : head_n (a_disk a start) = 0
}.

(** A boot ends in a quiet state. *)
Lemma wp_initlog_quiet s a :
  0 < sz -> c_rel (ls_bc s) a -> a_held a = ∅ -> a_pin a = ∅ -> u32 c_dev = c_dev ->
  length (lh_block (ls_log s)) = LOGSIZE ->
  1 < start -> start + sz <= a_size a < 2147483648 ->
  log_wf start sz (a_size a) (a_view a) ->
  lg_outstanding (ls_log s) = 0 -> lg_committing (ls_log s) = false ->
  wp (initlog c_dev) (fun _ s' => exists a', quiet s' a' /\ a_size a' = a_size a) s.
Proof.
  intros Hsz R Hh Hp H32 Hlen Hlo Hhi W Ho Hc.
  apply (wp_initlog start sz Hsz s a); try done. intros s' G Hn Hlk Ho' Hc'.
  set (ws := recover_writes start (a_view a)) in *. exists (a_writes ws a).
  destruct (a_writes_fields ws a) as (Es & Ed & _ & Ev & Ep & Eh).
  assert (Hp' : a_pin (a_writes ws a) = ∅) by (rewrite Hp in Ep; by apply equiv_empty_L).
  assert (Hve : eq_disk (a_size a) (a_view a) (a_disk a)).
  { intros x Hx. apply (c_view_disk _ _ _ R Hx). by rewrite Hp. }
  assert (Hok : block_ok (a_view a start)) by (apply (c_view_ok _ _ _ R); lia).
  split; [|done]. split; rewrite ?Es, ?Ed; try done; try congruence.
  - destruct G. split; try done; [constructor|]. rewrite Es. lia.
  - apply (log_wf_ext start sz (a_size a) Hlo Hhi (replay (a_view a) ws)).
    { by apply replay_ext. }
    rewrite <- (take_ge ws (length ws)) by done. apply recover_prefix; try done. apply Hok.
  - unfold ws, recover_writes. rewrite replay_app. simpl. rewrite disk_write_eq.
    apply head_encode_nil, Hok.
Qed.

(** A transaction that updates one block. *)
Lemma wp_one_update s a b f :
  quiet s a -> 2 < sz -> 1 < b < a_size a -> ~ in_log start sz b -> block_ok (f (a_view a b)) ->
  wp (begin_op me ;;; update_block me c_dev b f) (fun _ s' =>
    let a' := a_updated b (f (a_view a b)) a in
    in_trans start sz s' a' [b] /\ geom start sz s' a' /\ trans start sz s' a' [b] /\
    lg_outstanding (ls_log s') = 1 /\ lg_committing (ls_log s') = false) s.
Proof.
  intros [T G Ho Hc W Hcl] Hsz Hb Hn Hok. wp_step.
  apply wp_begin_op; [apply T|done|rewrite (it_n _ _ _ _ _ T), Ho; done|].
  apply (wp_update me start sz _ a []); simpl; try done; try lia.
  - destruct T. by split.
  - apply G.
  - unfold LOGSIZE. lia.
  - intros s' T' Ho' Hc'. unfold logged in T'.
    rewrite decide_False in T' by apply not_elem_of_nil. simpl in T'.
    pose proof T' as [R1 L1 S1 Z1 D1 N1 B1 K1 U1 P1 M1].
    split_and!; [done| | |by rewrite Ho', Ho|by rewrite Hc'].
    + destruct G. by split.
    + split; [done..|simpl; lia| |].
      * constructor; [|constructor]. split; [simpl; lia|done].
      * intros x Hx. rewrite P1. eapply Nat.le_lt_trans; [apply size_add_le|].
        rewrite size_list_to_set by done. simpl. unfold NBUF. lia.
Qed.
End quiet.
