(* ===== verification/StorageRuns.v ===== *)
(** * Concrete runs of the storage stack

    A small disk image under the memory disk driver, booted through [binit] and
    [initlog]: the instances at which the theorems on the buffer cache and the log
    are used, and the run that fills a log of [LOGSIZE] blocks. *)

From S2P Require Import Prelude Spinlock Sleeplock Block Disk Memide Bio Layout Log.

(** A disk of 64 blocks: boot block, superblock with [nlog] log blocks from block 2
    on, the rest zero. *)
Definition sample_sb (nlog : Z) : block :=
  bytes32 64 ++ bytes32 20 ++ bytes32 8 ++ bytes32 nlog ++ bytes32 2 ++ bytes32 (2 + nlog) ++
  bytes32 (3 + nlog) ++ repeat 0 484.
Definition sample_image (nlog : Z) : list Z := repeat 0 512 ++ sample_sb nlog ++ repeat 0 (62 * 512).
Definition sample_disk (nlog : Z) : memide := ideinit (sample_image nlog) 32768.

#[local] Instance run_ops : CacheOps (bcache memide) := bcache_ops 0 1.
#[local] Instance run_cache : Cache (bcache memide) := bcache_cache 0 1.

Lemma Forall_bytes (l : list Z) :
  forallb (fun b => (0 <=? b) && (b <? 256)) l = true -> Forall (fun b => 0 <= b < 256) l.
Proof.
  induction l as [|b l IH]; intros Hl; [constructor|]. simpl in Hl.
  apply andb_true_iff in Hl as [Hb Hl]. apply andb_true_iff in Hb as [H1%Z.leb_le H2%Z.ltb_lt].
  constructor; [lia|auto].
Qed.

Lemma sample_ok nlog : nlog = 30 \/ nlog = 31 -> md_ok (sample_disk nlog).
Proof.
  intros [-> | ->]; (split; [apply Forall_bytes; by vm_compute|by vm_compute]).
Qed.

Lemma sample_wf nlog :
  nlog = 30 \/ nlog = 31 -> log_wf 2 nlog 64 (md_read (sample_disk nlog)).
Proof.
  intros Hn.
  assert (Hb : head_blocks (md_read (sample_disk nlog) 2) = []) by (destruct Hn; subst; by vm_compute).
  destruct Hn; subst; (split; [by vm_compute..|]); rewrite Hb; constructor.
Qed.

(** The boot of the sample disk. *)
Lemma sample_boot nlog : nlog = 30 \/ nlog = 31 ->
  exists s a, initlog 1 (boot (sample_disk nlog)) = Ok tt s /\ quiet 2 nlog s a /\ a_size a = 64.
Proof.
  intros Hn.
  assert (R0 : c_rel (ls_bc (boot (sample_disk nlog))) (boot_abs (sample_disk nlog))).
  { apply (binit_rel 1 (sample_disk nlog)). by apply (sample_ok nlog). }
  assert (L0 : ls_log (boot (sample_disk nlog)) = zero_log) by reflexivity.
  pose proof (sample_wf nlog Hn) as W.
  generalize dependent (boot (sample_disk nlog)). intros s0 R0 L0.
  assert (Hd : @c_dev (bcache memide) run_ops run_cache = 1) by reflexivity.
  assert (Hwp : wp (initlog c_dev) (fun _ s => exists a, quiet 2 nlog s a /\ a_size a = 64) s0).
  { eapply wp_mono; [apply (wp_initlog_quiet 2 nlog s0 (boot_abs (sample_disk nlog)))|done];
      rewrite ?L0, ?Hd; simpl; try done; try lia.
    destruct Hn; subst; by vm_compute. }
  rewrite Hd in Hwp.
  apply wp_ok in Hwp as ([] & s & Hr & a & Hq & Hs). eauto.
Qed.

(** ** The log fills up *)

(** Three file system calls at once, each logging [MAXOPBLOCKS] blocks. *)
Definition full_calls : M (lstate (bcache memide)) unit :=
  initlog 1 ;;;
  begin_op 0 ;;; begin_op 0 ;;; begin_op 0 ;;;
  for_loop 10 33 (fun b => update_block 0 1 b (fun d => put32 d 0 b)) ;;;
  for_loop 10 43 (fun b => update_block 0 1 b (fun d => put32 d 0 b)) ;;;
  for_loop 10 53 (fun b => update_block 0 1 b (fun d => put32 d 0 b)).

Definition outcome {S A} (r : res S A) : string :=
  match r with Ok _ _ => "ok" | Panic m => m | Blocked _ => "blocked" | OutOfFuel => "fuel" end.


(** ** A transaction on block 40 *)

Lemma sample_block_ok (a : abs) s : c_rel (ls_bc s) a -> a_size a = 64 ->
  block_ok (put32 (a_view a 40) 0 7).
Proof. intros R Hs. apply block_ok_put32. apply (c_view_ok (ls_bc s)); [done|]. rewrite Hs. lia. Qed.

Lemma sample_trans :
  exists s a, in_trans 2 30 s a [40] /\ geom 2 30 s a /\ trans 2 30 s a [40] /\
    lg_outstanding (ls_log s) = 1 /\ lg_committing (ls_log s) = false /\ a_size a = 64 /\
    log_wf 2 30 64 (a_disk a) /\ head_n (a_disk a 2) = 0.
Proof.
  destruct (sample_boot 30 ltac:(by left)) as (s0 & a0 & _ & Hq & Hs0).
  assert (Hn : ~ in_log 2 30 40) by (unfold in_log; lia).
  assert (Hb : 1 < 40 < a_size a0) by (rewrite Hs0; lia).
  pose proof (wp_one_update 0 2 30 s0 a0 40 (fun d => put32 d 0 7) Hq ltac:(lia) Hb Hn
    (sample_block_ok a0 s0 (it_rel _ _ _ _ _ (q_trans _ _ _ _ Hq)) Hs0)) as Hwp.
  apply wp_ok in Hwp as ([] & s & _ & H1 & H2 & H3 & H4 & H5).
  exists s, (a_updated 40 (put32 (a_view a0 40) 0 7) a0). split_and!; try done.
  - pose proof (q_wf _ _ _ _ Hq) as W. by rewrite Hs0 in W.
  - apply (q_clean _ _ _ _ Hq).
Qed.

Lemma sample_home : Forall (fun b => 1 < b < 64 /\ ~ in_log 2 30 b) [40].
Proof. constructor; [|constructor]. unfold in_log. lia. Qed.

Lemma log_crash_atomic_witness :
  exists s a, ready 0 1 2 30 64 s a [40] /\
  wp commit (fun _ s1 =>
    forall k c1 d,
      rtc (reboot 0 1 64) (replay (a_disk a) (take k (new_writes (bc_dk (ls_bc s)) s1))) c1 ->
      medium 64 c1 d ->
      wp (initlog dk_dev) (fun _ s2 =>
        forall x, 0 <= x < 64 -> ~ in_log 2 30 x ->
          dk_read (bc_dk (ls_bc s2)) x =
          (if decide (k <= length [40%Z])%nat then a_disk a x else a_view a x)) (boot d)) s.
Proof.
  destruct sample_trans as (s & a & T & G & Tr & Ho & Hc & Hs & W & Hcl).
  assert (Hr : ready 0 1 2 30 64 s a [40]) by (split; try done; [apply T|apply sample_home]).
  exists s, a. split; [exact Hr|].
  apply (log_crash_atomic 0 1 2 30 64 ltac:(lia) ltac:(lia) ltac:(lia) s a [40] Hr). simpl. lia.
Defined.

Lemma end_op_durable_witness :
  exists s a, wp (end_op 0) (fun _ s' => exists a',
    c_rel (ls_bc s') a' /\ a_pin a' = ∅ /\ lh_n (ls_log s') = 0 /\
    lg_outstanding (ls_log s') = 0 /\
    forall x, 0 <= x < a_size a -> ~ in_log 2 30 x ->
      a_disk a' x = a_view a x /\ a_view a' x = a_view a x) s.
Proof.
  destruct sample_trans as (s & a & T & G & Tr & Ho & Hc & Hs & W & Hcl). exists s, a.
  apply (end_op_durable 0 2 30 s a [40] T G Tr ltac:(lia));
    rewrite ?Hs; [exact W|exact Hcl|apply sample_home|exact Ho|exact Hc].
Defined.

Definition reserve0 : lstate (bcache memide) :=
  mk_lstate (lg_set_geometry 2 31 1 zero_log) (zero_bcache (sample_disk 31)).


(** ** The buffer cache *)

Lemma boot_rel : bc_rel 1 (binit (zero_bcache (sample_disk 30))) (boot_abs (sample_disk 30)).
Proof. apply (binit_rel 1 (sample_disk 30)). apply (sample_ok 30). by left. Qed.

Lemma boot_room (b : Z) : (size (a_busy (boot_abs (sample_disk 30)) ∪ {[b]}) <= NBUF)%nat.
Proof.
  rewrite (busy_unheld (boot_abs (sample_disk 30)) eq_refl). etrans; [apply size_add_le|].
  change (a_pin (boot_abs (sample_disk 30))) with (∅ : gset Z). rewrite size_empty. unfold NBUF. lia.
Qed.

Lemma bread_block_witness :
  wp (bc_bread 0 1 dk_dev 1) (fun i s' =>
    bc_rel 1 s' (a_hold i (1, md_read (sample_disk 30) 1) (boot_abs (sample_disk 30))) /\
    b_data (bc_buf s' i) = md_read (sample_disk 30) 1 /\ b_lock (bc_buf s' i) = held_by 1 /\
    forall j, (j < NBUF)%nat -> b_dev (bc_buf s' j) = dk_dev ->
      b_blockno (bc_buf s' j) = 1 -> j = i) (binit (zero_bcache (sample_disk 30))).
Proof.
  apply (bread_block 0 1 (binit (zero_bcache (sample_disk 30))) (boot_abs (sample_disk 30)) 1 boot_rel).
  - by vm_compute.
  - apply (free_unheld (boot_abs (sample_disk 30)) 1 eq_refl).
  - apply boot_room.
Defined.

Lemma bwrite_bread_witness :
  wp (let! i := bc_bread 0 1 dk_dev 50 in
      modify (upd_buf i (b_set_data (repeat 7 512))) ;;;
      bc_bwrite 0 1 i ;;; bc_brelse 0 1 i ;;;
      let! j := bc_bread 0 1 dk_dev 50 in
      gets (fun s' => (b_data (bc_buf s' j), dk_read (bc_dk s') 50)))
     (fun r _ => r = (repeat 7 512, repeat 7 512)) (binit (zero_bcache (sample_disk 30))).
Proof.
  apply (bwrite_bread 0 1 (binit (zero_bcache (sample_disk 30))) (boot_abs (sample_disk 30)) 50
    (repeat 7 512) boot_rel).
  - by vm_compute.
  - apply (free_unheld (boot_abs (sample_disk 30)) 50 eq_refl).
  - apply boot_room.
  - split; [reflexivity|]. apply Forall_bytes. reflexivity.
Defined.

Lemma bcache_lru_witness :
  wp (bget 0 1 1 40) (fun r s' => r = 0%nat /\
      chain (bc_buf s') (reverse (seq 1 29) ++ [0%nat]) /\
      b_dev (bc_buf s' 0%nat) = 1 /\ b_blockno (bc_buf s' 0%nat) = 40)
     (binit (zero_bcache (sample_disk 30))).
Proof.
  apply (bcache_lru 0 1 (binit (zero_bcache (sample_disk 30))) (reverse (seq 1 29)) [] 0%nat).
  - split; [apply (reverse_Permutation (seq 0 30))|vm_compute; repeat split; reflexivity].
  - reflexivity.
  - intros j Hj. unfold NBUF in Hj. do 30 (destruct j as [|j]; [reflexivity|]). lia.
  - constructor.
  - reflexivity.
  - reflexivity.
Defined.
