(* ===== verification/Tx.v ===== *)
(** * Transactions, as the file system uses them

    [fs.c] reads blocks with [bread], changes them in place, announces the change
    with [log_write] and lets them go with [brelse], inside a transaction.  The class
    [Tx] states what it relies on, over an abstract view: the contents of every block,
    the locked buffers and the blocks logged so far, of which there may be at most
    [t_cap].  The log of [Log], over any cache, implements it. *)

From S2P Require Import Prelude Spinlock Block Disk Bio Layout Log.

Class TxOps (T : Type) : Type := {
  t_bread : Z -> Z -> M T nat;
  t_data : nat -> T -> block;                (* bp->data *)
  t_set_data : nat -> block -> T -> T;       (* assignments through bp->data *)
  t_log_write : nat -> M T unit;
  t_brelse : nat -> M T unit
}.

Record tabs : Type := mk_tabs {
  t_size : Z;
  t_view : Z -> block;
  t_held : gmap nat (Z * block);
  t_logged : gset Z;
  t_cap : nat
}.

Definition t_hold (i : nat) (x : Z * block) (a : tabs) : tabs :=
  mk_tabs (t_size a) (t_view a) (<[i := x]> (t_held a)) (t_logged a) (t_cap a).
Definition t_log (b : Z) (a : tabs) : tabs :=
  mk_tabs (t_size a) (t_view a) (t_held a) (t_logged a ∪ {[b]}) (t_cap a).
Definition t_release (i : nat) (b : Z) (d : block) (a : tabs) : tabs :=
  mk_tabs (t_size a) (disk_write (t_view a) (b, d)) (delete i (t_held a)) (t_logged a) (t_cap a).
Definition t_free (a : tabs) (b : Z) : Prop := forall i d, t_held a !! i <> Some (b, d).

Record tabs_eq (a a' : tabs) : Prop := mk_tabs_eq {
  te_size : t_size a' = t_size a;
  te_view x : t_view a' x = t_view a x;
  te_held : t_held a' = t_held a;
  te_logged : t_logged a' = t_logged a;
  te_cap : t_cap a' = t_cap a
}.

Class Tx (T : Type) `{TxOps T} : Type := {
  t_dev : Z;
  t_rel : T -> tabs -> Prop;
  t_proper s a a' : tabs_eq a a' -> t_rel s a -> t_rel s a';
  t_wp_bread s a b (Q : nat -> T -> Prop) :
    t_rel s a -> 0 <= b < t_size a -> t_free a b ->
    (size (t_logged a) + size (t_held a) < t_cap a)%nat ->
    (forall i s', t_held a !! i = None -> t_rel s' (t_hold i (b, t_view a b) a) -> Q i s') ->
    wp (t_bread t_dev b) Q s;
  t_get s a i b d : t_rel s a -> t_held a !! i = Some (b, d) -> t_data i s = d;
  t_set s a i b d d' :
    t_rel s a -> t_held a !! i = Some (b, d) -> block_ok d' ->
    t_rel (t_set_data i d' s) (t_hold i (b, d') a);
  t_wp_log s a i b d (Q : unit -> T -> Prop) :
    t_rel s a -> t_held a !! i = Some (b, d) -> (size (t_logged a) < t_cap a)%nat ->
    (forall s', t_rel s' (t_log b a) -> Q tt s') -> wp (t_log_write i) Q s;
  t_wp_brelse s a i b d (Q : unit -> T -> Prop) :
    t_rel s a -> t_held a !! i = Some (b, d) -> b ∈ t_logged a \/ d = t_view a b ->
    (forall s', t_rel s' (t_release i b d a) -> Q tt s') -> wp (t_brelse i) Q s;
  t_view_ok s a b : t_rel s a -> 0 <= b < t_size a -> block_ok (t_view a b);
  t_held_ok s a i b d : t_rel s a -> t_held a !! i = Some (b, d) -> 0 <= b < t_size a /\ block_ok d;
  t_range s a : t_rel s a -> t_size a < 2147483648;
  t_dev32 : u32 t_dev = t_dev
}.

(** ** What a routine does with one block *)

Section idioms.
Context {T : Type} `{Tx T}.

(** Only the contents of some blocks and the set of logged blocks have changed. *)
Definition t_with (v : Z -> block) (l : gset Z) (a : tabs) : tabs :=
  mk_tabs (t_size a) v (t_held a) l (t_cap a).

Lemma t_hold_lookup i x a : t_held (t_hold i x a) !! i = Some x.
Proof. apply lookup_insert_eq. Qed.

Lemma t_hold_hold i x y a : t_hold i x (t_hold i y a) = t_hold i x a.
Proof. unfold t_hold. simpl. by rewrite insert_insert_eq. Qed.

(** [bread], look at the data, [brelse]. *)
Lemma wp_peek {A} s a b (k : block -> M T A) (Q : A -> T -> Prop) :
  t_rel s a -> 0 <= b < t_size a -> t_free a b ->
  (size (t_logged a) + size (t_held a) < t_cap a)%nat ->
  (forall s', t_rel s' a -> wp (k (t_view a b)) Q s') ->
  wp (let! i := t_bread t_dev b in let! d := gets (t_data i) in t_brelse i ;;; k d) Q s.
Proof.
  intros R Hb Hf Hc HQ. apply wp_bind. apply (t_wp_bread s a); [done..|]. intros i s1 Hi R1.
  apply wp_bind, wp_gets. rewrite (t_get _ _ _ _ _ R1 (t_hold_lookup _ _ _)). apply wp_bind.
  apply (t_wp_brelse _ _ i b (t_view a b) _ R1 (t_hold_lookup _ _ _)); [by right|].
  intros s2 R2. apply HQ. refine (t_proper _ _ _ _ R2). split; try done; simpl.
  - intros x. unfold disk_write. simpl. by destruct (Z.eqb_spec x b) as [->|].
  - by rewrite delete_insert_id.
Qed.

(** [bread], change the data, [log_write], [brelse]. *)
Lemma wp_change {A} s a b (f : block -> block) (k : M T A) (Q : A -> T -> Prop) :
  t_rel s a -> 0 <= b < t_size a -> t_free a b -> block_ok (f (t_view a b)) ->
  (size (t_logged a) + size (t_held a) < t_cap a)%nat ->
  (forall s', t_rel s' (t_with (disk_write (t_view a) (b, f (t_view a b))) (t_logged a ∪ {[b]}) a) ->
     wp k Q s') ->
  wp (let! i := t_bread t_dev b in modify (fun t => t_set_data i (f (t_data i t)) t) ;;;
      t_log_write i ;;; t_brelse i ;;; k) Q s.
Proof.
  intros R Hb Hf Hok Hc HQ. apply wp_bind. apply (t_wp_bread s a); [done..|]. intros i s1 Hi R1.
  apply wp_bind, wp_modify. rewrite (t_get _ _ _ _ _ R1 (t_hold_lookup _ _ _)).
  pose proof (t_set _ _ _ _ _ _ R1 (t_hold_lookup _ _ _) Hok) as R2. rewrite t_hold_hold in R2.
  apply wp_bind. eapply t_wp_log; [exact R2|apply t_hold_lookup|simpl; lia|]. intros s3 R3.
  apply wp_bind. eapply t_wp_brelse; [exact R3|apply t_hold_lookup|left; simpl; set_solver|].
  intros s4 R4. apply HQ. refine (t_proper _ _ _ _ R4). split; try done; simpl.
  by rewrite delete_insert_id.
Qed.
End idioms.

(** ** The log implements it *)

Section log_tx.
Context {S : Type} `{Cache S} (me : nat) (start sz : Z).

#[export] Instance log_tx_ops : TxOps (lstate S) := {|
  t_bread dev b := bc (bread dev b);
  t_data i s := bdata i (ls_bc s);
  t_set_data i d s := mk_lstate (ls_log s) (bset_data i d (ls_bc s));
  t_log_write i := log_write me i;
  t_brelse i := bc (brelse i) |}.

(** The abstract view of a transaction in progress. *)
Record log_rel (s : lstate S) (t : tabs) : Prop := mk_log_rel {
  lr_trans : exists a bl, in_trans start sz s a bl /\ Forall (fun x => 0 <= x < a_size a) bl /\
    t_size t = a_size a /\ (forall x, t_view t x = a_view a x) /\ t_held t = a_held a /\
    t_logged t = list_to_set bl;
  lr_out : 1 <= lg_outstanding (ls_log s);
  lr_cap : (t_cap t <= LOGSIZE)%nat /\ Z.of_nat (t_cap t) <= sz - 1
}.

Lemma size_list_to_set_le (l : list Z) : (size (list_to_set l : gset Z) <= length l)%nat.
Proof.
  induction l as [|x l IH]; simpl; [done|].
  rewrite union_comm_L. etrans; [apply size_add_le|]. lia.
Qed.

Lemma busy_size (a : abs) (bl : list Z) :
  a_pin a = list_to_set bl -> (size (a_busy a) <= length bl + size (a_held a))%nat.
Proof.
  intros Hp. unfold a_busy. rewrite Hp, size_union_alt.
  pose proof (size_list_to_set_le bl).
  pose proof (size_list_to_set_le ((fun e => e.2.1) <$> map_to_list (a_held a))) as H2.
  rewrite length_fmap, length_map_to_list in H2.
  pose proof (subseteq_size (list_to_set ((fun e => e.2.1) <$> map_to_list (a_held a)) ∖ list_to_set bl : gset Z)
                (list_to_set ((fun e => e.2.1) <$> map_to_list (a_held a))) ltac:(set_solver)).
  lia.
Qed.

Lemma logged_set bl b : list_to_set (logged bl b) = (list_to_set bl ∪ {[b]} : gset Z).
Proof.
  unfold logged. case_decide.
  - apply set_eq. intros x. rewrite elem_of_union, elem_of_singleton, elem_of_list_to_set. naive_solver.
  - rewrite list_to_set_app_L. simpl. by rewrite union_empty_r_L.
Qed.

Lemma in_trans_cache s s' a a' bl :
  in_trans start sz s a bl -> ls_log s' = ls_log s -> c_rel (ls_bc s') a' ->
  a_pin a' = a_pin a -> a_size a' = a_size a -> in_trans start sz s' a' bl.
Proof. intros [] Hl Hr Hp Hs. split; rewrite ?Hl, ?Hp, ?Hs; done. Qed.

Lemma log_wp_bread s t b (Q : nat -> lstate S -> Prop) :
  log_rel s t -> 0 <= b < t_size t -> t_free t b ->
  (size (t_logged t) + size (t_held t) < t_cap t)%nat ->
  (forall i s', t_held t !! i = None -> log_rel s' (t_hold i (b, t_view t b) t) -> Q i s') ->
  wp (t_bread c_dev b) Q s.
Proof.
  intros [(a & bl & T & Hbl & Hs & Hv & Hh & Hl) Ho [Hc1 Hc2]] Hb Hf Hcap HQ. simpl. apply wp_bc.
  rewrite Hl, Hh, (size_list_to_set bl (it_nodup _ _ _ _ _ T)) in Hcap.
  apply (c_bread _ a); [apply T|by rewrite <-Hs| | |].
  - intros i d. rewrite <-Hh. apply Hf.
  - etrans; [apply size_add_le|]. pose proof (busy_size a bl (it_pin _ _ _ _ _ T)).
    unfold LOGSIZE, NBUF in *. lia.
  - intros i s' Hi R'. apply HQ; [by rewrite Hh|]. split; [|done|done].
    exists (a_hold i (b, a_view a b) a), bl. split_and!; try done; simpl.
    + by eapply in_trans_cache.
    + by rewrite Hh, Hv.
Qed.

Lemma log_wp_log s t i b d (Q : unit -> lstate S -> Prop) :
  log_rel s t -> t_held t !! i = Some (b, d) -> (size (t_logged t) < t_cap t)%nat ->
  (forall s', log_rel s' (t_log b t) -> Q tt s') -> wp (t_log_write i) Q s.
Proof.
  intros [(a & bl & T & Hbl & Hs & Hv & Hh & Hl) Ho [Hc1 Hc2]] Hi Hcap HQ. simpl.
  rewrite Hl, (size_list_to_set bl (it_nodup _ _ _ _ _ T)) in Hcap. rewrite Hh in Hi.
  apply (wp_log_write me start sz s a bl i b d); [done|done|done|done|lia|lia|].
  intros s' T' Ho' Hc'. apply HQ. split; [|lia|done].
  exists (a_pinned b a), (logged bl b). split_and!; try done; simpl.
  - unfold logged. case_decide; [done|]. apply Forall_app. split; [done|]. constructor; [|done].
    apply (c_held_ok _ _ _ _ _ (it_rel _ _ _ _ _ T) Hi).
  - by rewrite logged_set, Hl.
Qed.

Lemma log_wp_brelse s t i b d (Q : unit -> lstate S -> Prop) :
  log_rel s t -> t_held t !! i = Some (b, d) -> b ∈ t_logged t \/ d = t_view t b ->
  (forall s', log_rel s' (t_release i b d t) -> Q tt s') -> wp (t_brelse i) Q s.
Proof.
  intros [(a & bl & T & Hbl & Hs & Hv & Hh & Hl) Ho [Hc1 Hc2]] Hi Hd HQ. simpl. apply wp_bc.
  rewrite Hh in Hi. destruct (c_held_ok _ _ _ _ _ (it_rel _ _ _ _ _ T) Hi) as [Hb _].
  apply (c_brelse _ a i b d); [apply T|done| |].
  - rewrite (it_pin _ _ _ _ _ T), <-Hl. destruct Hd as [?| ->]; [by left|].
    destruct (decide (b ∈ t_logged t)); [by left|]. right. rewrite Hv.
    apply (c_view_disk _ _ _ (it_rel _ _ _ _ _ T) Hb). by rewrite (it_pin _ _ _ _ _ T), <-Hl.
  - intros s' R'. apply HQ. split; [|done|done].
    exists (a_released i b d a), bl. split_and!; try done; simpl.
    + by eapply in_trans_cache.
    + intros x. unfold disk_write. by rewrite Hv.
    + by rewrite Hh.
Qed.

#[export] Program Instance log_tx : Tx (lstate S) := {| t_dev := c_dev; t_rel := log_rel |}.
Next Obligation.
  intros s t t' [E1 E2 E3 E4 E5] [(a & bl & T & Hbl & Hs & Hv & Hh & Hl) Ho Hc].
  split; [|done|by rewrite E5]. exists a, bl. rewrite E1, E3, E4. split_and!; try done.
  intros x. by rewrite E2.
Qed.
Next Obligation. apply log_wp_bread. Qed.
Next Obligation.
  intros s t i b d [(a & bl & T & Hbl & Hs & Hv & Hh & Hl) Ho Hc] Hi. rewrite Hh in Hi.
  by apply (c_data _ _ _ _ _ (it_rel _ _ _ _ _ T) Hi).
Qed.
Next Obligation.
  intros s t i b d d' [(a & bl & T & Hbl & Hs & Hv & Hh & Hl) Ho Hc] Hi Hok. rewrite Hh in Hi.
  split; [|done|done]. exists (a_hold i (b, d') a), bl. split_and!; try done; simpl.
  - eapply in_trans_cache; try done. simpl. by apply (c_set_data _ _ _ _ _ _ (it_rel _ _ _ _ _ T) Hi).
  - by rewrite Hh.
Qed.
Next Obligation. apply log_wp_log. Qed.
Next Obligation. apply log_wp_brelse. Qed.
Next Obligation.
  intros s t b [(a & bl & T & Hbl & Hs & Hv & Hh & Hl) Ho Hc] Hb. rewrite Hv, Hs in *.
  by apply (c_view_ok _ _ _ (it_rel _ _ _ _ _ T)).
Qed.
Next Obligation.
  intros s t i b d [(a & bl & T & Hbl & Hs & Hv & Hh & Hl) Ho Hc] Hi. rewrite Hh, Hs in *.
  by apply (c_held_ok _ _ _ _ _ (it_rel _ _ _ _ _ T) Hi).
Qed.
Next Obligation.
  intros s t [(a & bl & T & Hbl & Hs & Hv & Hh & Hl) Ho Hc]. rewrite Hs. apply T.
Qed.
Next Obligation. apply c_dev32. Qed.
End log_tx.
