(* ===== verification/Format.v ===== *)
(** * On-disk inodes and directory entries ([src/xv6/fs.h])

    [struct dinode] and [struct dirent] at their byte offsets in a block or a file,
    the macros that locate them, and the free bitmap. *)

From S2P Require Import Prelude Block Layout.

Definition ROOTINO : Z := 1.
Definition NDIRECT : nat := 12.
Definition NINDIRECT : nat := 128.
Definition MAXFILE : Z := 140.
Definition IPB : Z := 8.
Definition BPB : Z := 4096.
Definition DIRSIZ : nat := 14.
Definition T_DIR : Z := 1.
Definition T_FILE : Z := 2.
Definition T_DEV : Z := 3.

Definition IBLOCK (i : Z) (sb : superblock) : Z := u32 (i / IPB + sb_inodestart sb).
Definition BBLOCK (b : Z) (sb : superblock) : Z := u32 (b / BPB + sb_bmapstart sb).

Record dinode : Type := mk_dinode {
  di_type : Z;
  di_major : Z;
  di_minor : Z;
  di_nlink : Z;
  di_size : Z;
  di_addrs : list Z
}.

Definition set_type x d := mk_dinode x (di_major d) (di_minor d) (di_nlink d) (di_size d) (di_addrs d).
Definition set_nlink x d := mk_dinode (di_type d) (di_major d) (di_minor d) x (di_size d) (di_addrs d).
Definition set_size x d := mk_dinode (di_type d) (di_major d) (di_minor d) (di_nlink d) x (di_addrs d).
Definition set_addr (i : nat) x d := mk_dinode (di_type d) (di_major d) (di_minor d) (di_nlink d)
  (di_size d) (<[i := x]> (di_addrs d)).
Definition set_dev major minor d := mk_dinode (di_type d) major minor (di_nlink d) (di_size d) (di_addrs d).

(** [sizeof(struct dinode)] is 64; [(struct dinode* )bp->data + inum%IPB] *)
Definition di_off (inum : Z) : nat := Z.to_nat (64 * (inum mod IPB)).

(** The [uint] array of [n] entries at byte offset [off]. *)
Fixpoint get_words (d : block) (off n : nat) : list Z :=
  match n with O => [] | S k => get32 d off :: get_words d (off + 4) k end.
Fixpoint put_words (d : block) (off : nat) (ws : list Z) : block :=
  match ws with [] => d | w :: ws' => put_words (put32 d off w) (off + 4) ws' end.

(** Reading the fields of the on-disk inode at [off]. *)
Definition get_dinode (d : block) (off : nat) : dinode :=
  mk_dinode (i16 (get16 d off)) (i16 (get16 d (off + 2))) (i16 (get16 d (off + 4)))
    (i16 (get16 d (off + 6))) (get32 d (off + 8)) (get_words d (off + 12) (S NDIRECT)).

(** The assignments of [iupdate]. *)
Definition put_dinode (d : block) (off : nat) (x : dinode) : block :=
  let d := put16 d off (u16 (di_type x)) in
  let d := put16 d (off + 2) (u16 (di_major x)) in
  let d := put16 d (off + 4) (u16 (di_minor x)) in
  let d := put16 d (off + 6) (u16 (di_nlink x)) in
  let d := put32 d (off + 8) (di_size x) in
  put_words d (off + 12) (di_addrs x).

Definition short_ok (x : Z) : Prop := -32768 <= x < 32768.
Record dinode_ok (x : dinode) : Prop := mk_dinode_ok {
  ok_type : short_ok (di_type x);
  ok_major : short_ok (di_major x);
  ok_minor : short_ok (di_minor x);
  ok_nlink : short_ok (di_nlink x);
  ok_size : 0 <= di_size x < W32;
  ok_len : length (di_addrs x) = S NDIRECT;
  ok_addrs : Forall (fun a => 0 <= a < W32) (di_addrs x)
}.

(** ** Lemmas *)

Lemma length_put_words d off ws : length (put_words d off ws) = length d.
Proof. revert d off. induction ws as [|w ws IH]; intros; simpl; [done|]. by rewrite IH, length_put32. Qed.
#[export] Hint Rewrite length_put_words : kernel.

Lemma block_ok_put_words d off ws : block_ok d -> block_ok (put_words d off ws).
Proof. revert d off. induction ws as [|w ws IH]; intros; simpl; auto with kernel. Qed.
#[export] Hint Resolve block_ok_put_words : kernel.

Lemma length_get_words d off n : length (get_words d off n) = n.
Proof. revert off. induction n; intros; simpl; auto. Qed.

Lemma get_words_lookup d off n i :
  (i < n)%nat -> get_words d off n !! i = Some (get32 d (off + 4 * i)).
Proof.
  revert off i. induction n as [|n IH]; intros off i Hi; [lia|]. destruct i as [|i]; simpl.
  - do 2 f_equal. lia.
  - rewrite IH by lia. do 2 f_equal. lia.
Qed.

Lemma get_words_range d off n : Forall (fun b => 0 <= b < 256) d -> Forall (fun a => 0 <= a < W32) (get_words d off n).
Proof. intros Hd. revert off. induction n; intros; simpl; constructor; auto. by apply get32_range. Qed.

Lemma i16_u16 x : short_ok x -> i16 (u16 x) = x.
Proof. unfold short_ok, i16, u16. intros H. zcase; zlia. Qed.
Lemma u16_range x : 0 <= u16 x < 65536.
Proof. unfold u16. apply Z.mod_pos_bound. lia. Qed.
Lemma i16_range x : short_ok (i16 x).
Proof. unfold short_ok, i16. zcase; zlia. Qed.

(** Bytes outside the written range keep their value. *)
Lemma byte_at_put16 d off v x : (off + 2 <= length d)%nat -> (x < off \/ off + 2 <= x)%nat ->
  byte_at (put16 d off v) x = byte_at d x.
Proof. intros Hl Hx. unfold put16. rewrite byte_at_inserts by (simpl; lia). rewrite decide_False; [done|simpl; lia]. Qed.
Lemma byte_at_put32 d off v x : (off + 4 <= length d)%nat -> (x < off \/ off + 4 <= x)%nat ->
  byte_at (put32 d off v) x = byte_at d x.
Proof. intros Hl Hx. unfold put32. rewrite byte_at_inserts by (simpl; lia). rewrite decide_False; [done|simpl; lia]. Qed.
Lemma byte_at_put_words d off ws x :
  (off + 4 * length ws <= length d)%nat -> (x < off \/ off + 4 * length ws <= x)%nat ->
  byte_at (put_words d off ws) x = byte_at d x.
Proof.
  revert d off. induction ws as [|w ws IH]; intros d off Hl Hx; simpl in *; [done|].
  rewrite IH by (rewrite ?length_put32; lia). apply byte_at_put32; lia.
Qed.

Lemma get16_bytes d d' off : (forall x, (off <= x < off + 2)%nat -> byte_at d x = byte_at d' x) ->
  get16 d off = get16 d' off.
Proof. intros H. unfold get16. rewrite !H by lia. done. Qed.
Lemma get32_bytes d d' off : (forall x, (off <= x < off + 4)%nat -> byte_at d x = byte_at d' x) ->
  get32 d off = get32 d' off.
Proof. intros H. unfold get32. rewrite !H by lia. done. Qed.
Lemma get_words_bytes d d' off n : (forall x, (off <= x < off + 4 * n)%nat -> byte_at d x = byte_at d' x) ->
  get_words d off n = get_words d' off n.
Proof.
  revert off. induction n as [|n IH]; intros off H; simpl; [done|]. f_equal.
  - apply get32_bytes. intros. apply H. lia.
  - apply IH. intros. apply H. lia.
Qed.

Lemma get_put_words d off ws :
  (off + 4 * length ws <= length d)%nat -> Forall (fun a => 0 <= a < W32) ws ->
  get_words (put_words d off ws) off (length ws) = ws.
Proof.
  revert d off. induction ws as [|w ws IH]; intros d off Hl Hr; simpl in *; [done|].
  inversion Hr as [|? ? Hw Hws]; subst. f_equal.
  - rewrite (get32_bytes _ (put32 d off w)); [by apply get32_put32; [lia|]|].
    intros x Hx. apply byte_at_put_words; rewrite ?length_put32; lia.
  - apply IH; [rewrite length_put32; lia|done].
Qed.

(** One entry of the array changes. *)
Lemma get_words_put32 d off n i v :
  (off + 4 * n <= length d)%nat -> (i < n)%nat -> 0 <= v < W32 ->
  get_words (put32 d (off + 4 * i) v) off n = <[i := v]> (get_words d off n).
Proof.
  intros Hl Hi Hv. apply list_eq. intros k. destruct (decide (k < n)%nat) as [Hk|Hk].
  - rewrite get_words_lookup by done. destruct (decide (k = i)) as [->|Hne].
    + rewrite list_lookup_insert_eq by (by rewrite length_get_words). f_equal. apply get32_put32; [lia|done].
    + rewrite list_lookup_insert_ne by done. rewrite get_words_lookup by done. f_equal.
      apply get32_put32_ne; lia.
  - rewrite !lookup_ge_None_2; [done| |]; rewrite ?length_insert, length_get_words; lia.
Qed.

(** Outside its 64 bytes an on-disk inode's update changes nothing. *)
Lemma byte_at_put_dinode d off x k :
  (off + 64 <= length d)%nat -> length (di_addrs x) = S NDIRECT -> (k < off \/ off + 64 <= k)%nat ->
  byte_at (put_dinode d off x) k = byte_at d k.
Proof.
  intros Hl Hn Hk. unfold put_dinode. unfold NDIRECT in Hn.
  rewrite byte_at_put_words by (rewrite ?length_put32, ?length_put16, ?Hn; lia).
  rewrite byte_at_put32 by (rewrite ?length_put16; lia).
  rewrite !byte_at_put16 by (rewrite ?length_put16; lia). done.
Qed.

Lemma length_put_dinode d off x : length (put_dinode d off x) = length d.
Proof. unfold put_dinode. by rewrite length_put_words, length_put32, !length_put16. Qed.
Lemma block_ok_put_dinode d off x : block_ok d -> block_ok (put_dinode d off x).
Proof. unfold put_dinode. auto 8 with kernel. Qed.
#[export] Hint Rewrite length_put_dinode : kernel.
#[export] Hint Resolve block_ok_put_dinode : kernel.

Lemma get_dinode_bytes d d' off :
  (forall x, (off <= x < off + 64)%nat -> byte_at d x = byte_at d' x) -> get_dinode d off = get_dinode d' off.
Proof.
  intros H. unfold get_dinode, NDIRECT.
  rewrite !(get16_bytes d d') by (intros; apply H; lia). rewrite (get32_bytes d d') by (intros; apply H; lia).
  rewrite (get_words_bytes d d') by (intros; apply H; lia). done.
Qed.

(** What [iupdate] writes, [ilock] reads back. *)
Lemma get_put_dinode d off x :
  (off + 64 <= length d)%nat -> dinode_ok x -> get_dinode (put_dinode d off x) off = x.
Proof.
  intros Hl [Ht Hma Hmi Hnl Hs Hlen Ha]. unfold get_dinode, put_dinode.
  set (d1 := put16 d off (u16 (di_type x))). set (d2 := put16 d1 (off + 2) (u16 (di_major x))).
  set (d3 := put16 d2 (off + 4) (u16 (di_minor x))). set (d4 := put16 d3 (off + 6) (u16 (di_nlink x))).
  set (d5 := put32 d4 (off + 8) (di_size x)).
  assert (L1 : length d1 = length d) by apply length_put16.
  assert (L2 : length d2 = length d) by (by unfold d2; rewrite length_put16).
  assert (L3 : length d3 = length d) by (by unfold d3; rewrite length_put16).
  assert (L4 : length d4 = length d) by (by unfold d4; rewrite length_put16).
  assert (L5 : length d5 = length d) by (by unfold d5; rewrite length_put32).
  assert (Hw : forall k, (k < off + 12)%nat -> byte_at (put_words d5 (off + 12) (di_addrs x)) k = byte_at d5 k).
  { intros k Hk. apply byte_at_put_words; rewrite ?L5, ?Hlen; unfold NDIRECT; lia. }
  assert (H5 : forall k, (k < off + 8)%nat -> byte_at d5 k = byte_at d4 k).
  { intros k Hk. apply byte_at_put32; lia. }
  rewrite <-Hlen, get_put_words; [|rewrite L5, Hlen; unfold NDIRECT; lia|done].
  rewrite (get16_bytes _ d1 off), (get16_bytes _ d2 (off + 2)), (get16_bytes _ d3 (off + 4)),
    (get16_bytes _ d4 (off + 6)), (get32_bytes _ d5 (off + 8)).
  - unfold d1, d2, d3, d4, d5. rewrite !get16_put16 by (rewrite ?L1, ?L2, ?L3; lia || apply u16_range).
    rewrite get32_put32 by (rewrite ?L4; lia || done). rewrite !i16_u16 by done. by destruct x.
  - intros k Hk. apply Hw. lia.
  - intros k Hk. rewrite Hw, H5 by lia. done.
  - intros k Hk. rewrite Hw, H5 by lia. apply byte_at_put16; lia.
  - intros k Hk. rewrite Hw, H5 by lia. unfold d4. rewrite byte_at_put16 by lia. apply byte_at_put16; lia.
  - intros k Hk. rewrite Hw, H5 by lia. unfold d4. rewrite byte_at_put16 by lia.
    unfold d3. rewrite byte_at_put16 by lia. apply byte_at_put16; lia.
Qed.

Lemma get_dinode_ok d off : Forall (fun b => 0 <= b < 256) d -> dinode_ok (get_dinode d off).
Proof.
  intros Hd. unfold get_dinode.
  split; cbn [di_type di_major di_minor di_nlink di_size di_addrs]; try apply i16_range.
  - by apply get32_range.
  - apply length_get_words.
  - by apply get_words_range.
Qed.
