(* ===== verification/Fs.v ===== *)
(** * The file system ([src/xv6/fs.c])

    Block allocation, inodes, file contents, directories and path names, over any
    block layer with transactions ([Tx]).  An inode pointer is an index into
    [icache.inode]; a null pointer is [None].  A routine that fills a buffer of its
    caller returns the bytes it stores.  The routines run for process [pid] on CPU
    [me]; [cwd] is its current directory and [devsw] the table of devices. *)

From S2P Require Import Prelude Spinlock Sleeplock Block Disk Layout Format Mem CString Tx.

Definition NINODE : nat := 50.
Arguments NINODE : simpl never.
Definition NDEV : Z := 10.
Definition ROOTDEV : Z := 1.

Record inode : Type := mk_inode {
  i_dev : Z;
  i_inum : Z;
  i_ref : Z;
  i_lock : sleeplock;
  i_valid : bool;
  i_di : dinode          (* type, major, minor, nlink, size, addrs *)
}.

Definition i_set_key dev inum i := mk_inode dev inum (i_ref i) (i_lock i) (i_valid i) (i_di i).
Definition i_set_ref x i := mk_inode (i_dev i) (i_inum i) x (i_lock i) (i_valid i) (i_di i).
Definition i_set_lock x i := mk_inode (i_dev i) (i_inum i) (i_ref i) x (i_valid i) (i_di i).
Definition i_set_valid x i := mk_inode (i_dev i) (i_inum i) (i_ref i) (i_lock i) x (i_di i).
Definition i_set_di x i := mk_inode (i_dev i) (i_inum i) (i_ref i) (i_lock i) (i_valid i) x.

Record fs (T : Type) : Type := mk_fs {
  f_tx : T;
  f_sb : superblock;
  f_lock : spinlock;             (* icache.lock *)
  f_inode : nat -> inode;        (* icache.inode *)
  f_wakes : list nat             (* inodes on whose lock wakeup was called *)
}.
Arguments mk_fs {T}.
Arguments f_tx {T}.
Arguments f_sb {T}.
Arguments f_lock {T}.
Arguments f_inode {T}.
Arguments f_wakes {T}.

(** Two buffers in one memory, to compare or copy C strings between them. *)
Definition two_bufs (s t : list Z) : mem := fun x =>
  if x <? 256 then byte_at s (Z.to_nat x) else byte_at t (Z.to_nat (x - 256)).

Definition namecmp (s t : list Z) : Z := strncmp (two_bufs s t) 0 256 (Z.of_nat DIRSIZ).

(** [strncpy(de.name, name, DIRSIZ)]: the new contents of [de.name]. *)
Definition name_field (old name : list Z) : list Z :=
  let m := strncpy (two_bufs old name) 0 256 (Z.of_nat DIRSIZ) in
  (fun i => m (Z.of_nat i)) <$> seq 0 DIRSIZ.

(** The path functions on C strings, as the lists of bytes before the 0. *)
Fixpoint skip_slashes (path : list Z) : list Z :=
  match path with c :: p => if c =? 47 then skip_slashes p else path | [] => [] end.
Fixpoint path_elem (path : list Z) : list Z :=
  match path with c :: p => if c =? 47 then [] else c :: path_elem p | [] => [] end.

(** [skipelem(path, name)]: the rest of the path and the new contents of [name]. *)
Definition skipelem (path name : list Z) : option (list Z * list Z) :=
  let path := skip_slashes path in
  match path with
  | [] => None
  | _ =>
      let s := path_elem path in
      let path := drop (length s) path in
      let name := if (DIRSIZ <=? length s)%nat then take DIRSIZ s
                  else s ++ [0] ++ drop (S (length s)) name in
      Some (skip_slashes path, name)
  end.

Section fs.
Context {T : Type} `{!TxOps T} (me : nat) (pid : Z).
Abbreviation FM := (M (fs T)).

Definition tx {A} (m : M T A) : FM A :=
  zoom f_tx (fun t s => mk_fs t (f_sb s) (f_lock s) (f_inode s) (f_wakes s)) m.
Definition lock_icache : FM unit :=
  acquire me f_lock (fun x s => mk_fs (f_tx s) (f_sb s) x (f_inode s) (f_wakes s)).
Definition unlock_icache : FM unit :=
  release me f_lock (fun x s => mk_fs (f_tx s) (f_sb s) x (f_inode s) (f_wakes s)).

(** Access to the fields of inode [ip]. *)
Definition iget_field {A} (ip : nat) (f : inode -> A) : FM A := gets (fun s => f (f_inode s ip)).
Definition i_put (ip : nat) (x : inode) (s : fs T) : fs T :=
  mk_fs (f_tx s) (f_sb s) (f_lock s) (fupd (f_inode s) ip x) (f_wakes s).
Definition iset (ip : nat) (f : inode -> inode) : FM unit :=
  modify (fun s => i_put ip (f (f_inode s ip)) s).
Definition i_wake (ip : nat) (s : fs T) : fs T :=
  mk_fs (f_tx s) (f_sb s) (f_lock s) (f_inode s) (f_wakes s ++ [ip]).

(** [acquiresleep(&ip->lock)], [releasesleep] and [holdingsleep]. *)
Definition ip_acquiresleep (ip : nat) : FM unit :=
  acquiresleep me pid (fun s => i_lock (f_inode s ip)) (fun x s => i_put ip (i_set_lock x (f_inode s ip)) s).
Definition ip_releasesleep (ip : nat) : FM unit :=
  releasesleep me (fun s => i_lock (f_inode s ip)) (fun x s => i_put ip (i_set_lock x (f_inode s ip)) s)
    (i_wake ip).
Definition ip_holdingsleep (ip : nat) : FM bool :=
  holdingsleep me pid (fun s => i_lock (f_inode s ip)) (fun x s => i_put ip (i_set_lock x (f_inode s ip)) s).

(** ** Blocks *)

Definition fs_readsb (dev : Z) : FM unit :=
  let! bp := tx (t_bread (u32 dev) 1) in
  let! d := tx (gets (t_data bp)) in
  modify (fun s => mk_fs (f_tx s) (decode_sb d) (f_lock s) (f_inode s) (f_wakes s)) ;;;
  tx (t_brelse bp).

Definition bzero (dev bno : Z) : FM unit :=
  let! bp := tx (t_bread (u32 dev) (u32 bno)) in
  tx (modify (fun t => t_set_data bp (list_inserts 0 (repeat 0 BSIZE) (t_data bp t)) t)) ;;;
  tx (t_log_write bp) ;;;
  tx (t_brelse bp).

(** Bit [bi] of a bitmap block, and the block with it set or cleared. *)
Definition bit_mask (bi : Z) : Z := Z.shiftl 1 (bi mod 8).
Definition bit_get (d : block) (bi : Z) : Z := Z.land (byte_at d (Z.to_nat (bi / 8))) (bit_mask bi).
Definition bit_set (d : block) (bi : Z) : block :=
  <[Z.to_nat (bi / 8) := Z.lor (byte_at d (Z.to_nat (bi / 8))) (bit_mask bi)]> d.
Definition bit_clear (d : block) (bi : Z) : block :=
  <[Z.to_nat (bi / 8) := Z.land (byte_at d (Z.to_nat (bi / 8))) (Z.lnot (bit_mask bi))]> d.

(** [for(bi = 0; bi < BPB && b + bi < sb.size; bi++)], [n] more bits. *)
Fixpoint free_bit (d : block) (b size : Z) (n : nat) (bi : Z) : option Z :=
  match n with
  | O => None
  | S k =>
      if b + bi <? size then
        if bit_get d bi =? 0 then Some bi else free_bit d b size k (bi + 1)
      else None
  end.

Fixpoint balloc_loop (fuel : nat) (dev b : Z) : FM Z :=
  match fuel with
  | O => fun _ => OutOfFuel
  | S k =>
      let! sb := gets f_sb in
      if b <? sb_size sb then
        let! bp := tx (t_bread dev (BBLOCK b sb)) in
        let! d := tx (gets (t_data bp)) in
        match free_bit d b (sb_size sb) (Z.to_nat BPB) 0 with
        | Some bi =>
            tx (modify (t_set_data bp (bit_set d bi))) ;;;
            tx (t_log_write bp) ;;;
            tx (t_brelse bp) ;;;
            bzero dev (b + bi) ;;;
            ret (b + bi)
        | None => tx (t_brelse bp) ;;; balloc_loop k dev (b + BPB)
        end
      else panic "balloc: out of blocks"
  end.
(** The outer loop makes at most [size / BPB + 1] rounds. *)
Definition balloc (dev : Z) : FM Z :=
  let! sb := gets f_sb in balloc_loop (Z.to_nat (sb_size sb / BPB + 2)) dev 0.

Definition bfree (dev b : Z) : FM unit :=
  let! sb := gets f_sb in
  let! bp := tx (t_bread (u32 dev) (BBLOCK b sb)) in
  let! d := tx (gets (t_data bp)) in
  let bi := b mod BPB in
  if bit_get d bi =? 0 then panic "freeing free block" else
  tx (modify (t_set_data bp (bit_clear d bi))) ;;;
  tx (t_log_write bp) ;;;
  tx (t_brelse bp).

(** ** Inodes *)

Definition iinit (dev : Z) : FM unit :=
  modify (fun s => mk_fs (f_tx s) (f_sb s) initlock
    (fun i => if (i <? NINODE)%nat then i_set_lock initsleeplock (f_inode s i) else f_inode s i) (f_wakes s)) ;;;
  fs_readsb dev.

Definition is_inode (dev inum : Z) (i : inode) : bool :=
  (0 <? i_ref i) && (i_dev i =? dev) && (i_inum i =? inum).
Definition scan_icache (test : inode -> bool) (s : fs T) : option nat :=
  first (fun i => test (f_inode s i)) (seq 0 NINODE).

Definition iget (dev inum : Z) : FM nat :=
  lock_icache ;;;
  let! s := get in
  match scan_icache (is_inode dev inum) s with
  | Some ip =>
      iset ip (fun i => i_set_ref (i_ref i + 1) i) ;;;
      unlock_icache ;;;
      ret ip
  | None =>
      match scan_icache (fun i => i_ref i =? 0) s with
      | None => panic "iget: no inodes"
      | Some ip =>
          iset ip (i_set_key dev inum) ;;;
          iset ip (i_set_ref 1) ;;;
          iset ip (i_set_valid false) ;;;
          unlock_icache ;;;
          ret ip
      end
  end.

(** [for(inum = 1; inum < sb.ninodes; inum++)], [n] more inodes. *)
Fixpoint ialloc_loop (dev type : Z) (n : nat) (inum : Z) : FM nat :=
  match n with
  | O => panic "ialloc: no inodes"
  | S k =>
      let! sb := gets f_sb in
      let! bp := tx (t_bread dev (IBLOCK inum sb)) in
      let! d := tx (gets (t_data bp)) in
      if di_type (get_dinode d (di_off inum)) =? 0 then
        tx (modify (t_set_data bp
          (put16 (list_inserts (di_off inum) (repeat 0 64) d) (di_off inum) (u16 type)))) ;;;
        tx (t_log_write bp) ;;;
        tx (t_brelse bp) ;;;
        iget dev inum
      else tx (t_brelse bp) ;;; ialloc_loop dev type k (inum + 1)
  end.
Definition ialloc (dev type : Z) : FM nat :=
  let! sb := gets f_sb in ialloc_loop dev type (Z.to_nat (sb_ninodes sb - 1)) 1.

Definition iupdate (ip : nat) : FM unit :=
  let! sb := gets f_sb in
  let! i := iget_field ip id in
  let! bp := tx (t_bread (i_dev i) (IBLOCK (i_inum i) sb)) in
  tx (modify (fun t => t_set_data bp (put_dinode (t_data bp t) (di_off (i_inum i)) (i_di i)) t)) ;;;
  tx (t_log_write bp) ;;;
  tx (t_brelse bp).

Definition idup (ip : nat) : FM nat :=
  lock_icache ;;;
  iset ip (fun i => i_set_ref (i_ref i + 1) i) ;;;
  unlock_icache ;;;
  ret ip.

Definition ilock (ip : option nat) : FM unit :=
  match ip with
  | None => panic "ilock"
  | Some ip =>
      let! r := iget_field ip i_ref in
      if r <? 1 then panic "ilock" else
      ip_acquiresleep ip ;;;
      let! i := iget_field ip id in
      if i_valid i then ret tt else
      let! sb := gets f_sb in
      let! bp := tx (t_bread (i_dev i) (IBLOCK (i_inum i) sb)) in
      let! d := tx (gets (t_data bp)) in
      iset ip (i_set_di (get_dinode d (di_off (i_inum i)))) ;;;
      tx (t_brelse bp) ;;;
      iset ip (i_set_valid true) ;;;
      let! i := iget_field ip id in
      if di_type (i_di i) =? 0 then panic "ilock: no type" else ret tt
  end.

Definition iunlock (ip : option nat) : FM unit :=
  match ip with
  | None => panic "iunlock"
  | Some ip =>
      let! h := ip_holdingsleep ip in
      let! r := iget_field ip i_ref in
      if negb h || (r <? 1) then panic "iunlock" else ip_releasesleep ip
  end.

(** ** Inode contents *)

(** An assignment to a field of the in-memory copy of the on-disk inode. *)
Definition di_set (ip : nat) (f : dinode -> dinode) : FM unit := iset ip (fun i => i_set_di (f (i_di i)) i).
Definition addr_get (ip i : nat) : FM Z :=
  iget_field ip (fun x => default 0 (di_addrs (i_di x) !! i)).

Definition bmap (ip : nat) (bn : Z) : FM Z :=
  let! dev := iget_field ip i_dev in
  if bn <? Z.of_nat NDIRECT then
    let! addr := addr_get ip (Z.to_nat bn) in
    if addr =? 0 then
      let! addr := balloc dev in
      di_set ip (set_addr (Z.to_nat bn) addr) ;;;
      ret addr
    else ret addr
  else
    let bn := bn - Z.of_nat NDIRECT in
    if bn <? Z.of_nat NINDIRECT then
      let! addr := addr_get ip NDIRECT in
      let! addr := (if addr =? 0 then
                      let! addr := balloc dev in
                      di_set ip (set_addr NDIRECT addr) ;;;
                      ret addr
                    else ret addr) in
      let! bp := tx (t_bread dev addr) in
      let! a := tx (gets (t_data bp)) in
      let! addr := (if get32 a (4 * Z.to_nat bn) =? 0 then
                      let! addr := balloc dev in
                      tx (modify (fun t => t_set_data bp (put32 (t_data bp t) (4 * Z.to_nat bn) addr) t)) ;;;
                      tx (t_log_write bp) ;;;
                      ret addr
                    else ret (get32 a (4 * Z.to_nat bn))) in
      tx (t_brelse bp) ;;;
      ret addr
    else panic "bmap: out of range".

Definition itrunc_direct (ip : nat) (i : Z) : FM unit :=
  let! dev := iget_field ip i_dev in
  let! a := addr_get ip (Z.to_nat i) in
  if a =? 0 then ret tt else
  bfree dev a ;;;
  di_set ip (set_addr (Z.to_nat i) 0).

Definition itrunc (ip : nat) : FM unit :=
  for_loop NDIRECT 0 (itrunc_direct ip) ;;;
  let! dev := iget_field ip i_dev in
  let! ind := addr_get ip NDIRECT in
  (if ind =? 0 then ret tt else
   let! bp := tx (t_bread dev ind) in
   let! a := tx (gets (t_data bp)) in
   for_loop NINDIRECT 0 (fun j =>
     let x := get32 a (4 * Z.to_nat j) in if x =? 0 then ret tt else bfree dev x) ;;;
   tx (t_brelse bp) ;;;
   bfree dev ind ;;;
   di_set ip (set_addr NDIRECT 0)) ;;;
  di_set ip (set_size 0) ;;;
  iupdate ip.

Definition iput (ip : nat) : FM unit :=
  ip_acquiresleep ip ;;;
  let! i := iget_field ip id in
  (if i_valid i && (di_nlink (i_di i) =? 0) then
     lock_icache ;;;
     let! r := iget_field ip i_ref in
     unlock_icache ;;;
     if r =? 1 then
       itrunc ip ;;;
       di_set ip (set_type 0) ;;;
       iupdate ip ;;;
       iset ip (i_set_valid false)
     else ret tt
   else ret tt) ;;;
  ip_releasesleep ip ;;;
  lock_icache ;;;
  iset ip (fun i => i_set_ref (i_ref i - 1) i) ;;;
  unlock_icache.

Definition iunlockput (ip : nat) : FM unit := iunlock (Some ip) ;;; iput ip.

(** [struct stat] *)
Record stat : Type := mk_stat { st_type : Z; st_dev : Z; st_ino : Z; st_nlink : Z; st_size : Z }.
Definition stati (ip : nat) : FM stat :=
  let! i := iget_field ip id in
  ret (mk_stat (di_type (i_di i)) (i32 (i_dev i)) (i_inum i) (di_nlink (i_di i)) (di_size (i_di i))).

(** [devsw[major].read(ip, dst, n)] and [write]. *)
Record dev_ops : Type := mk_dev_ops {
  dev_read : option (nat -> Z -> FM (Z * list Z));
  dev_write : option (nat -> list Z -> Z -> FM Z)
}.
Context (devsw : Z -> dev_ops).

Fixpoint readi_loop (fuel : nat) (ip : nat) (off n tot : Z) (acc : list Z) : FM (list Z) :=
  match fuel with
  | O => fun _ => OutOfFuel
  | S k =>
      if tot <? n then
        let! dev := iget_field ip i_dev in
        let! addr := bmap ip (off / Z.of_nat BSIZE) in
        let! bp := tx (t_bread dev addr) in
        let! d := tx (gets (t_data bp)) in
        let m := Z.min (n - tot) (Z.of_nat BSIZE - off mod Z.of_nat BSIZE) in
        tx (t_brelse bp) ;;;
        readi_loop k ip (off + m) n (tot + m)
          (acc ++ take (Z.to_nat m) (drop (Z.to_nat (off mod Z.of_nat BSIZE)) d))
      else ret acc
  end.

Definition readi (ip : nat) (off n : Z) : FM (Z * list Z) :=
  let! i := iget_field ip id in
  let di := i_di i in
  if di_type di =? T_DEV then
    if (di_major di <? 0) || (NDEV <=? di_major di) then ret (-1, [])
    else match dev_read (devsw (di_major di)) with
         | None => ret (-1, [])
         | Some f => f ip (i32 n)
         end
  else if (di_size di <? off) || (u32 (off + n) <? off) then ret (-1, [])
  else
    let n := if di_size di <? off + n then di_size di - off else n in
    let! bytes := readi_loop (S (Z.to_nat n)) ip off n 0 [] in
    ret (i32 n, bytes).

Fixpoint writei_loop (fuel : nat) (ip : nat) (src : list Z) (off n tot : Z) : FM Z :=
  match fuel with
  | O => fun _ => OutOfFuel
  | S k =>
      if tot <? n then
        let! dev := iget_field ip i_dev in
        let! addr := bmap ip (off / Z.of_nat BSIZE) in
        let! bp := tx (t_bread dev addr) in
        let m := Z.min (n - tot) (Z.of_nat BSIZE - off mod Z.of_nat BSIZE) in
        tx (modify (fun t => t_set_data bp
          (list_inserts (Z.to_nat (off mod Z.of_nat BSIZE)) (take (Z.to_nat m) (drop (Z.to_nat tot) src))
             (t_data bp t)) t)) ;;;
        tx (t_log_write bp) ;;;
        tx (t_brelse bp) ;;;
        writei_loop k ip src (off + m) n (tot + m)
      else ret off
  end.

Definition writei (ip : nat) (src : list Z) (off n : Z) : FM Z :=
  let! i := iget_field ip id in
  let di := i_di i in
  if di_type di =? T_DEV then
    if (di_major di <? 0) || (NDEV <=? di_major di) then ret (-1)
    else match dev_write (devsw (di_major di)) with
         | None => ret (-1)
         | Some f => f ip src (i32 n)
         end
  else if (di_size di <? off) || (u32 (off + n) <? off) then ret (-1)
  else if MAXFILE * Z.of_nat BSIZE <? off + n then ret (-1)
  else
    let! off := writei_loop (S (Z.to_nat n)) ip src off n 0 in
    let! i := iget_field ip id in
    (if (0 <? n) && (di_size (i_di i) <? off) then
       di_set ip (set_size off) ;;;
       iupdate ip
     else ret tt) ;;;
    ret (i32 n).

(** ** Directories *)

Definition de_inum (de : list Z) : Z := get16 de 0.
Definition de_name (de : list Z) : list Z := take DIRSIZ (drop 2 de).
Definition DESIZE : Z := 16.

(** [dirlookup(dp, name, poff)]: the inode and the offset of the entry. *)
Fixpoint dirlookup_loop (fuel : nat) (dp : nat) (name : list Z) (off : Z) : FM (option (nat * Z)) :=
  match fuel with
  | O => fun _ => OutOfFuel
  | S k =>
      let! sz := iget_field dp (fun i => di_size (i_di i)) in
      if off <? sz then
        let! r := readi dp off DESIZE in
        if negb (fst r =? DESIZE) then panic "dirlookup read" else
        let de := snd r in
        if de_inum de =? 0 then dirlookup_loop k dp name (off + DESIZE)
        else if namecmp name (de_name de) =? 0 then
          let! dev := iget_field dp i_dev in
          let! ip := iget dev (de_inum de) in
          ret (Some (ip, off))
        else dirlookup_loop k dp name (off + DESIZE)
      else ret None
  end.
Definition dirlookup (dp : nat) (name : list Z) : FM (option (nat * Z)) :=
  let! i := iget_field dp id in
  if negb (di_type (i_di i) =? T_DIR) then panic "dirlookup not DIR" else
  dirlookup_loop (S (Z.to_nat (di_size (i_di i)))) dp name 0.

(** The offset of the first empty entry, or the size. *)
Fixpoint dirlink_scan (fuel : nat) (dp : nat) (off : Z) : FM Z :=
  match fuel with
  | O => fun _ => OutOfFuel
  | S k =>
      let! sz := iget_field dp (fun i => di_size (i_di i)) in
      if off <? sz then
        let! r := readi dp off DESIZE in
        if negb (fst r =? DESIZE) then panic "dirlink read" else
        if de_inum (snd r) =? 0 then ret off else dirlink_scan k dp (off + DESIZE)
      else ret off
  end.

(** A directory entry; the previous contents of [de.name] are all overwritten. *)
Definition mk_dirent (name : list Z) (inum : Z) : list Z :=
  bytes16 (u16 inum) ++ name_field (repeat 0 DIRSIZ) name.

Definition dirlink (dp : nat) (name : list Z) (inum : Z) : FM Z :=
  let! r := dirlookup dp name in
  match r with
  | Some (ip, _) => iput ip ;;; ret (-1)
  | None =>
      let! sz := iget_field dp (fun i => di_size (i_di i)) in
      let! off := dirlink_scan (S (Z.to_nat sz)) dp 0 in
      let! r := writei dp (mk_dirent name inum) off DESIZE in
      if negb (r =? DESIZE) then panic "dirlink" else ret 0
  end.

(** ** Paths *)

(** [namex]: the inode and the last contents of [name]. *)
Fixpoint namex_loop (fuel : nat) (ip : nat) (path : list Z) (nameiparent : bool) (name : list Z)
    : FM (option nat * list Z) :=
  match fuel with
  | O => fun _ => OutOfFuel
  | S k =>
      match skipelem path name with
      | None => if nameiparent then iput ip ;;; ret (None, name) else ret (Some ip, name)
      | Some (path, name) =>
          ilock (Some ip) ;;;
          let! i := iget_field ip id in
          if negb (di_type (i_di i) =? T_DIR) then iunlockput ip ;;; ret (None, name) else
          if nameiparent && bool_decide (path = []) then iunlock (Some ip) ;;; ret (Some ip, name) else
          let! next := dirlookup ip name in
          match next with
          | None => iunlockput ip ;;; ret (None, name)
          | Some (next, _) => iunlockput ip ;;; namex_loop k next path nameiparent name
          end
      end
  end.
Definition namex (cwd : nat) (path : list Z) (nameiparent : bool) (name : list Z) : FM (option nat * list Z) :=
  let! ip := (if bool_decide (path !! 0%nat = Some 47) then iget ROOTDEV ROOTINO else idup cwd) in
  namex_loop (S (length path)) ip path nameiparent name.

(** The 14 bytes of the local buffer of [namei] are not initialised; [name] is any. *)
Definition namei (cwd : nat) (path name : list Z) : FM (option nat) :=
  let! r := namex cwd path false name in ret (fst r).
Definition nameiparent (cwd : nat) (path name : list Z) : FM (option nat * list Z) :=
  namex cwd path true name.
End fs.
