(* ===== verification/FsBlocks.v ===== *)
(** * The block allocator of the file system ([balloc], [bfree], [bzero] of [fs.c])

    The free bitmap as a set of used blocks, and the specifications of the routines:
    [balloc] returns a block that was free, zeroed and marked, and nothing else
    changes; [bfree] undoes the mark. *)

From S2P Require Import Prelude Spinlock Block Disk Layout Format Tx Fs.

(** ** Bits *)

Definition bit (d : block) (bi : Z) : bool := Z.testbit (byte_at d (Z.to_nat (bi / 8))) (bi mod 8).

Lemma mask_bits k j : 0 <= k -> 0 <= j -> Z.testbit (Z.shiftl 1 k) j = (j =? k).
Proof.
  intros Hk Hj. rewrite Z.shiftl_1_l by lia. destruct (Z.eqb_spec j k) as [->|Hne].
  - by apply Z.pow2_bits_true.
  - by apply Z.pow2_bits_false.
Qed.

Lemma land_bit_mask x k : 0 <= k -> (Z.land x (Z.shiftl 1 k) =? 0) = negb (Z.testbit x k).
Proof.
  intros Hk. destruct (Z.testbit x k) eqn:Hx; simpl.
  - apply Z.eqb_neq. intros H0.
    assert (Ht : Z.testbit (Z.land x (Z.shiftl 1 k)) k = true).
    { by rewrite Z.land_spec, mask_bits, Z.eqb_refl, Hx by lia. }
    by rewrite H0, Z.bits_0 in Ht.
  - apply Z.eqb_eq. apply Z.bits_inj'. intros j Hj. rewrite Z.land_spec, mask_bits, Z.bits_0 by lia.
    destruct (Z.eqb_spec j k) as [->|]; [by rewrite Hx|apply andb_false_r].
Qed.

Lemma bit_get_spec d bi : (bit_get d bi =? 0) = negb (bit d bi).
Proof. unfold bit_get, bit_mask, bit. apply land_bit_mask. apply Z.mod_pos_bound. lia. Qed.

Lemma byte_bound x : 0 <= x < 256 <-> Z.land x (Z.ones 8) = x.
Proof. rewrite Z.land_ones by lia. change (2 ^ 8) with 256. split; intros H; zlia. Qed.

Lemma mask_byte bi : Z.land (bit_mask bi) (Z.ones 8) = bit_mask bi.
Proof.
  apply byte_bound. unfold bit_mask. rewrite Z.shiftl_1_l by (apply Z.mod_pos_bound; lia).
  pose proof (Z.mod_pos_bound bi 8 ltac:(lia)).
  pose proof (Z.pow_lt_mono_r 2 (bi mod 8) 8 ltac:(lia) ltac:(lia) ltac:(lia)).
  pose proof (Z.pow_pos_nonneg 2 (bi mod 8) ltac:(lia) ltac:(lia)). change (2 ^ 8) with 256 in *. lia.
Qed.

Lemma byte_lor x y : 0 <= x < 256 -> 0 <= y < 256 -> 0 <= Z.lor x y < 256.
Proof. rewrite !byte_bound. intros Hx Hy. by rewrite Z.land_lor_distr_l, Hx, Hy. Qed.
Lemma byte_land x y : 0 <= x < 256 -> 0 <= Z.land x y < 256.
Proof. rewrite !byte_bound. intros Hx. by rewrite (Z.land_comm x y), <-Z.land_assoc, Hx. Qed.

Section bits.
Context (d : block) (bi : Z) (Hbi : 0 <= bi < BPB).

Lemma block_ok_insert k x : block_ok d -> 0 <= x < 256 -> block_ok (<[k := x]> d).
Proof. intros [Hl Hf] Hx. split; [by rewrite length_insert|]. by apply Forall_insert. Qed.

Lemma block_ok_bit_set : block_ok d -> block_ok (bit_set d bi).
Proof.
  intros Hd. apply block_ok_insert; [done|]. apply byte_lor; [by apply byte_at_range, Hd|].
  apply byte_bound, mask_byte.
Qed.
Lemma block_ok_bit_clear : block_ok d -> block_ok (bit_clear d bi).
Proof. intros Hd. apply block_ok_insert; [done|]. by apply byte_land, byte_at_range, Hd. Qed.

Lemma byte_at_insert k x j : (k < length d)%nat ->
  byte_at (<[k := x]> d) j = if decide (j = k) then x else byte_at d j.
Proof.
  intros Hk. unfold byte_at. case_decide as Hj; [subst; by rewrite list_lookup_insert_eq|].
  by rewrite list_lookup_insert_ne.
Qed.

Lemma bit_pos bj : 0 <= bj < BPB ->
  Z.to_nat (bj / 8) = Z.to_nat (bi / 8) -> bj mod 8 = bi mod 8 -> bj = bi.
Proof.
  unfold BPB in *. intros Hj H1 H2.
  assert (bj / 8 = bi / 8) by (apply Z2Nat.inj; [zlia|zlia|done]).
  rewrite (Z.div_mod bj 8), (Z.div_mod bi 8) by lia. lia.
Qed.

Lemma bit_bit_set bj : length d = BSIZE -> 0 <= bj < BPB ->
  bit (bit_set d bi) bj = if bj =? bi then true else bit d bj.
Proof.
  intros Hl Hj. unfold bit, bit_set. rewrite byte_at_insert by (rewrite Hl; unfold BPB, BSIZE in *; zlia).
  pose proof (Z.mod_pos_bound bi 8 ltac:(lia)). pose proof (Z.mod_pos_bound bj 8 ltac:(lia)).
  case_decide as He.
  - rewrite Z.lor_spec. unfold bit_mask. rewrite mask_bits, He by lia.
    destruct (Z.eqb_spec (bj mod 8) (bi mod 8)) as [Hm|Hm].
    + rewrite orb_true_r, (bit_pos bj Hj He Hm), Z.eqb_refl. done.
    + rewrite orb_false_r. destruct (Z.eqb_spec bj bi) as [->|]; done.
  - destruct (Z.eqb_spec bj bi) as [->|]; done.
Qed.

Lemma bit_bit_clear bj : length d = BSIZE -> 0 <= bj < BPB ->
  bit (bit_clear d bi) bj = if bj =? bi then false else bit d bj.
Proof.
  intros Hl Hj. unfold bit, bit_clear. rewrite byte_at_insert by (rewrite Hl; unfold BPB, BSIZE in *; zlia).
  pose proof (Z.mod_pos_bound bi 8 ltac:(lia)). pose proof (Z.mod_pos_bound bj 8 ltac:(lia)).
  case_decide as He.
  - rewrite Z.land_spec, Z.lnot_spec by lia. unfold bit_mask. rewrite mask_bits, He by lia.
    destruct (Z.eqb_spec (bj mod 8) (bi mod 8)) as [Hm|Hm]; simpl.
    + rewrite andb_false_r, (bit_pos bj Hj He Hm), Z.eqb_refl. done.
    + rewrite andb_true_r. destruct (Z.eqb_spec bj bi) as [->|]; done.
  - destruct (Z.eqb_spec bj bi) as [->|]; done.
Qed.
End bits.

(** ** The bitmap *)

(** Block [b] is marked in use. *)
Definition used (sb : superblock) (v : Z -> block) (b : Z) : bool := bit (v (BBLOCK b sb)) (b mod BPB).

(** The first data block: after the boot block, the superblock, the log, the inodes
    and the bitmap, in the order of [mkfs]. *)
Definition dstart (sb : superblock) : Z := sb_bmapstart sb + sb_size sb / BPB + 1.

(** A superblock that fits the disk. *)
Record sb_ok (sb : superblock) (n : Z) : Prop := mk_sb_ok {
  so_size : 0 < sb_size sb <= n;
  so_inode : 1 < sb_inodestart sb;
  so_inodes : 0 < sb_ninodes sb /\ sb_inodestart sb + sb_ninodes sb / IPB < sb_bmapstart sb;
  so_data : dstart sb <= sb_size sb;
  so_small : n < 2147483648
}.

Lemma dstart_bounds sb n : sb_ok sb n -> 1 < sb_bmapstart sb < dstart sb.
Proof.
  intros [? ? [? ?] ? ?]. unfold dstart.
  assert (0 <= sb_ninodes sb / IPB) by (unfold IPB; apply Z.div_pos; lia).
  assert (0 <= sb_size sb / BPB) by (unfold BPB; apply Z.div_pos; lia). lia.
Qed.

Lemma BBLOCK_range sb n b : sb_ok sb n -> 0 <= b < sb_size sb ->
  BBLOCK b sb = b / BPB + sb_bmapstart sb /\ sb_bmapstart sb <= BBLOCK b sb < dstart sb.
Proof.
  intros [H1 H2 [H3 H4] H5 H6] Hb. unfold dstart, BBLOCK in *.
  assert (Hd : 0 <= b / BPB <= sb_size sb / BPB).
  { unfold BPB. split; [apply Z.div_pos; lia|]. apply Z.div_le_mono; lia. }
  assert (0 <= sb_ninodes sb / IPB) by (unfold IPB; apply Z.div_pos; lia).
  rewrite u32_small by (unfold W32; lia). lia.
Qed.

Lemma IBLOCK_range sb n i : sb_ok sb n -> 0 <= i < sb_ninodes sb ->
  IBLOCK i sb = i / IPB + sb_inodestart sb /\ sb_inodestart sb <= IBLOCK i sb < sb_bmapstart sb.
Proof.
  intros [H1 H2 [H3 H4] H5 H6] Hb. unfold dstart, IBLOCK in *.
  assert (Hd : 0 <= i / IPB <= sb_ninodes sb / IPB).
  { unfold IPB. split; [apply Z.div_pos; lia|]. apply Z.div_le_mono; lia. }
  assert (0 <= sb_size sb / BPB) by (unfold BPB; apply Z.div_pos; lia).
  rewrite u32_small by (unfold W32; lia). lia.
Qed.

(** What [balloc] does to the blocks when it returns [b]. *)
Record allocated (sb : superblock) (v v' : Z -> block) (b : Z) : Prop := mk_allocated {
  al_range : dstart sb <= b < sb_size sb;
  al_free : used sb v b = false;
  al_zero : v' b = repeat 0 BSIZE;
  al_used x : 0 <= x < sb_size sb -> used sb v' x = if x =? b then true else used sb v x;
  al_frame x : x <> b -> x < sb_bmapstart sb \/ dstart sb <= x -> v' x = v x
}.

Lemma repeat_zero_ok : block_ok (repeat 0 BSIZE).
Proof. split; [apply repeat_length|]. apply Forall_forall. intros x Hx%list_elem_of_In%repeat_spec. lia. Qed.

(** Marking bit [b] and changing other, data, blocks. *)
Lemma used_update sb n v v' b (g : block -> Z -> block) (y : bool) x :
  sb_ok sb n -> 0 <= b < sb_size sb -> 0 <= x < sb_size sb ->
  v' (BBLOCK b sb) = g (v (BBLOCK b sb)) (b mod BPB) ->
  (forall z, sb_bmapstart sb <= z < dstart sb -> z <> BBLOCK b sb -> v' z = v z) ->
  (forall bj, 0 <= bj < BPB -> bit (g (v (BBLOCK b sb)) (b mod BPB)) bj =
     if bj =? b mod BPB then y else bit (v (BBLOCK b sb)) bj) ->
  used sb v' x = if x =? b then y else used sb v x.
Proof.
  intros Hsb Hb Hx Hv Hz Hg. unfold used.
  destruct (BBLOCK_range sb n b Hsb Hb) as [Eb _]. destruct (BBLOCK_range sb n x Hsb Hx) as [Ex Rx].
  assert (Hm : forall z, 0 <= z mod BPB < BPB) by (intros; apply Z.mod_pos_bound; unfold BPB; lia).
  destruct (decide (BBLOCK x sb = BBLOCK b sb)) as [E|E].
  - rewrite E, Hv, Hg by done. destruct (Z.eqb_spec (x mod BPB) (b mod BPB)) as [Em|Em].
    + assert (x = b) as ->; [|by rewrite Z.eqb_refl].
      rewrite (Z.div_mod x BPB), (Z.div_mod b BPB) by (unfold BPB; lia). rewrite Em. lia.
    + by destruct (Z.eqb_spec x b) as [->|].
  - rewrite Hz by done. destruct (Z.eqb_spec x b) as [->|]; done.
Qed.

Lemma used_ext sb n v v' x : sb_ok sb n -> 0 <= x < sb_size sb ->
  (forall z, sb_bmapstart sb <= z < dstart sb -> v' z = v z) -> used sb v' x = used sb v x.
Proof. intros Hsb Hx Hz. unfold used. rewrite Hz; [done|]. by eapply BBLOCK_range. Qed.

(** ** The routines *)

Section blocks.
Context {T : Type} `{Tx T} (me : nat) (pid : Z).
Implicit Types (s : fs T) (a : tabs).


(** [s] with the block layer in state [t]. *)
Definition with_tx (t : T) s : fs T := mk_fs t (f_sb s) (f_lock s) (f_inode s) (f_wakes s).

Lemma wp_tx {A} (m : M T A) s (Q : A -> fs T -> Prop) :
  wp m (fun x t => Q x (with_tx t s)) (f_tx s) -> wp (tx m) Q s.
Proof. apply wp_zoom. Qed.

(** The locked buffers hold data blocks that are in use. *)
Definition held_data sb a : Prop := forall i b d, t_held a !! i = Some (b, d) ->
  dstart sb <= b < sb_size sb /\ used sb (t_view a) b = true.

Lemma held_data_free sb a b : held_data sb a ->
  b < dstart sb \/ used sb (t_view a) b = false -> t_free a b.
Proof. intros Hh Hb i d Hi. destruct (Hh i b d Hi) as [H1 H2]. destruct Hb; [lia|congruence]. Qed.

(** *** One access to the block layer *)

Lemma wp_f_bread s a b (Q : nat -> fs T -> Prop) :
  t_rel (f_tx s) a -> 0 <= b < t_size a -> t_free a b ->
  (size (t_logged a) + size (t_held a) < t_cap a)%nat ->
  (forall i t, t_held a !! i = None -> t_rel t (t_hold i (b, t_view a b) a) -> Q i (with_tx t s)) ->
  wp (tx (t_bread t_dev b)) Q s.
Proof. intros R Hb Hf Hc HQ. apply wp_tx. by apply (t_wp_bread _ a). Qed.

Lemma wp_f_data s a i b d (Q : block -> fs T -> Prop) :
  t_rel (f_tx s) (t_hold i (b, d) a) -> Q d s -> wp (tx (gets (t_data i))) Q s.
Proof.
  intros R HQ. apply wp_tx, wp_gets. rewrite (t_get _ _ _ _ _ R (t_hold_lookup _ _ _)).
  destruct s. exact HQ.
Qed.

Lemma wp_f_update s a i b d (f : block -> block) (Q : unit -> fs T -> Prop) :
  t_rel (f_tx s) (t_hold i (b, d) a) -> block_ok (f d) ->
  (forall t, t_rel t (t_hold i (b, f d) a) -> Q tt (with_tx t s)) ->
  wp (tx (modify (fun t => t_set_data i (f (t_data i t)) t))) Q s.
Proof.
  intros R Hok HQ. apply wp_tx, wp_modify, HQ. rewrite (t_get _ _ _ _ _ R (t_hold_lookup _ _ _)).
  rewrite <-(t_hold_hold i (b, f d) (b, d)). eapply t_set; [done|apply t_hold_lookup|done].
Qed.

Lemma wp_f_set s a i b d d' (Q : unit -> fs T -> Prop) :
  t_rel (f_tx s) (t_hold i (b, d) a) -> block_ok d' ->
  (forall t, t_rel t (t_hold i (b, d') a) -> Q tt (with_tx t s)) ->
  wp (tx (modify (t_set_data i d'))) Q s.
Proof.
  intros R Hok HQ. apply wp_tx, wp_modify, HQ.
  rewrite <-(t_hold_hold i (b, d') (b, d)). eapply t_set; [done|apply t_hold_lookup|done].
Qed.

Lemma wp_f_log s a i b d (Q : unit -> fs T -> Prop) :
  t_rel (f_tx s) (t_hold i (b, d) a) -> (size (t_logged a) < t_cap a)%nat ->
  (forall t, t_rel t (t_hold i (b, d) (t_log b a)) -> Q tt (with_tx t s)) -> wp (tx (t_log_write i)) Q s.
Proof. intros R Hc HQ. apply wp_tx. by eapply t_wp_log; [done|apply t_hold_lookup|done|]. Qed.

(** [brelse] of a buffer that was changed and logged. *)
Lemma wp_f_done s a i b d (Q : unit -> fs T -> Prop) :
  t_rel (f_tx s) (t_hold i (b, d) (t_log b a)) -> t_held a !! i = None ->
  (forall t, t_rel t (t_with (disk_write (t_view a) (b, d)) (t_logged a ∪ {[b]}) a) -> Q tt (with_tx t s)) ->
  wp (tx (t_brelse i)) Q s.
Proof.
  intros R Hi HQ. apply wp_tx. eapply t_wp_brelse; [exact R|apply t_hold_lookup|left; simpl; set_solver|].
  intros t R1. apply HQ. refine (t_proper _ _ _ _ R1). split; try done. simpl. by rewrite delete_insert_id.
Qed.

(** [brelse] of a buffer that was only read. *)
Lemma wp_f_brelse s a i b (Q : unit -> fs T -> Prop) :
  t_rel (f_tx s) (t_hold i (b, t_view a b) a) -> t_held a !! i = None ->
  (forall t, t_rel t a -> Q tt (with_tx t s)) -> wp (tx (t_brelse i)) Q s.
Proof.
  intros R Hi HQ. apply wp_tx. eapply t_wp_brelse; [exact R|apply t_hold_lookup|by right|].
  intros t R1. apply HQ. refine (t_proper _ _ _ _ R1). split; try done; simpl.
  - intros x. unfold disk_write. simpl. by destruct (Z.eqb_spec x b) as [->|].
  - by rewrite delete_insert_id.
Qed.

Lemma wp_bzero s a b (Q : unit -> fs T -> Prop) :
  t_rel (f_tx s) a -> 0 <= b < t_size a -> t_free a b ->
  (size (t_logged a) + size (t_held a) < t_cap a)%nat ->
  (forall t, t_rel t (t_with (disk_write (t_view a) (b, repeat 0 BSIZE)) (t_logged a ∪ {[b]}) a) ->
     Q tt (with_tx t s)) ->
  wp (bzero t_dev b) Q s.
Proof.
  intros R Hb Hf Hc HQ. unfold bzero. rewrite t_dev32.
  pose proof (t_range _ _ R). rewrite u32_small by (unfold W32; lia).
  apply wp_bind, (wp_f_bread s a); [done..|]. intros i t1 Hi R1.
  assert (Hz : list_inserts 0 (repeat 0 BSIZE) (t_view a b) = repeat 0 BSIZE).
  { apply inserts_whole. rewrite repeat_length. symmetry. apply (t_view_ok _ _ _ R Hb). }
  apply wp_bind, (wp_f_update (with_tx t1 s) a i b (t_view a b)); [done|rewrite Hz; apply repeat_zero_ok|].
  rewrite Hz. intros t2 R2.
  apply wp_bind, (wp_f_log _ a i b (repeat 0 BSIZE)); [done|lia|]. intros t3 R3.
  by apply (wp_f_done _ a i b (repeat 0 BSIZE)).
Qed.

(** The first clear bit. *)
Lemma free_bit_Some d b sz n bi x :
  free_bit d b sz n bi = Some x -> bi <= x < bi + Z.of_nat n /\ b + x < sz /\ bit d x = false.
Proof.
  revert bi. induction n as [|n IH]; intros bi; cbn [free_bit]; [done|].
  destruct (Z.ltb_spec (b + bi) sz); [|done]. rewrite bit_get_spec. destruct (bit d bi) eqn:Hb; simpl.
  - intros Hf. destruct (IH _ Hf) as (? & ? & ?). split; [lia|done].
  - intros [= ->]. split; [lia|done].
Qed.

Lemma free_bit_None d b sz n bi : free_bit d b sz n bi = None ->
  forall x, bi <= x < bi + Z.of_nat n -> b + x < sz -> bit d x = true.
Proof.
  revert bi. induction n as [|n IH]; intros bi; cbn [free_bit]; [lia|].
  destruct (Z.ltb_spec (b + bi) sz); [|intros; lia]. rewrite bit_get_spec. destruct (bit d bi) eqn:Hb; simpl; [|done].
  intros Hf x Hx Hlt. destruct (decide (x = bi)) as [->|]; [done|]. apply (IH _ Hf); lia.
Qed.

(** The two writes of [balloc]. *)
Lemma allocated_writes sb n v b bi :
  sb_ok sb n -> 0 <= b + bi < sb_size sb -> b mod BPB = 0 -> 0 <= bi < BPB ->
  dstart sb <= b + bi -> used sb v (b + bi) = false -> block_ok (v (BBLOCK b sb)) ->
  allocated sb v (disk_write (disk_write v (BBLOCK b sb, bit_set (v (BBLOCK b sb)) bi))
                    (b + bi, repeat 0 BSIZE)) (b + bi).
Proof.
  intros Hsb Hr Hb Hbi Hd Hu Hok.
  assert (Hdiv : (b + bi) / BPB = b / BPB /\ (b + bi) mod BPB = bi).
  { unfold BPB in *. split; zlia. }
  destruct Hdiv as [Hdiv Hmod].
  assert (HB : BBLOCK (b + bi) sb = BBLOCK b sb) by (unfold BBLOCK; by rewrite Hdiv).
  destruct (BBLOCK_range sb n (b + bi) Hsb Hr) as [_ Hrange]. rewrite HB in Hrange.
  assert (Hne : (BBLOCK b sb =? b + bi) = false) by (apply Z.eqb_neq; lia).
  split; [lia|done| | |].
  - unfold disk_write. simpl. by rewrite Z.eqb_refl.
  - intros x Hx. apply (used_update sb n v _ (b + bi) bit_set true x); try done.
    + rewrite HB, Hmod. unfold disk_write. simpl. by rewrite Hne, Z.eqb_refl.
    + intros z Hz Hzne. unfold disk_write. simpl. rewrite !(proj2 (Z.eqb_neq _ _)) by lia. done.
    + intros bj Hj. rewrite HB, Hmod. apply bit_bit_set; [done|apply Hok|done].
  - intros x Hx Hout. unfold disk_write. simpl. rewrite !(proj2 (Z.eqb_neq _ _)) by lia. done.
Qed.

(** The metadata blocks are marked in use. *)
Definition meta_used sb v : Prop := forall x, 0 <= x < dstart sb -> used sb v x = true.

Lemma wpx_balloc_loop P fuel s a b (Q : Z -> fs T -> Prop) :
  P "balloc: out of blocks"%string \/ (exists x, b <= x < sb_size (f_sb s) /\ used (f_sb s) (t_view a) x = false) ->
  t_rel (f_tx s) a -> sb_ok (f_sb s) (t_size a) -> meta_used (f_sb s) (t_view a) -> held_data (f_sb s) a ->
  (size (t_logged a) + size (t_held a) + 1 < t_cap a)%nat ->
  0 <= b -> b mod BPB = 0 -> (Z.to_nat ((sb_size (f_sb s) - b) / BPB + 1) < fuel)%nat ->
  (forall y t v', allocated (f_sb s) (t_view a) v' y ->
     t_rel t (t_with v' (t_logged a ∪ {[BBLOCK y (f_sb s)]} ∪ {[y]}) a) -> Q y (with_tx t s)) ->
  wpx P (balloc_loop fuel t_dev b) Q s.
Proof.
  revert s b. induction fuel as [|fuel IH]; intros s b Hout R Hsb Hm Hh Hc Hb Hb0 Hfuel HQ; [lia|].
  cbn [balloc_loop]. wpx_steps. destruct (Z.ltb_spec (b) (sb_size (f_sb s))) as [Hlt|Hge].
  2:{ apply wpx_panic. destruct Hout as [|(x & Hx & _)]; [done|lia]. }
  destruct (BBLOCK_range _ _ b Hsb ltac:(lia)) as [_ Hrange].
  pose proof (so_data _ _ Hsb). pose proof (so_size _ _ Hsb).
  assert (HB : 0 <= BBLOCK b (f_sb s) < t_size a).
  { pose proof (dstart_bounds _ _ Hsb). pose proof (so_data _ _ Hsb). pose proof (so_size _ _ Hsb). lia. }
  apply wpx_bind, wpx_wp, (wp_f_bread s a); [done|done| |lia|].
  { apply (held_data_free (f_sb s)); [done|]. left. lia. }
  intros i t1 Hi R1. apply wpx_bind, wpx_wp, (wp_f_data _ a i (BBLOCK b (f_sb s)) (t_view a (BBLOCK b (f_sb s)))); [done|].
  destruct (free_bit _ _ _ _ _) as [bi|] eqn:Hfb.
  - apply free_bit_Some in Hfb as (Hbi & Hlt' & Hbit). rewrite Z2Nat.id in Hbi by (unfold BPB; lia).
    assert (Hused : used (f_sb s) (t_view a) (b + bi) = false).
    { unfold used, BBLOCK in *. assert ((b + bi) / BPB = b / BPB /\ (b + bi) mod BPB = bi) as [-> ->].
      { unfold BPB in *. split; zlia. } done. }
    assert (Hd : dstart (f_sb s) <= b + bi).
    { destruct (Z.lt_ge_cases (b + bi) (dstart (f_sb s))) as [Hl|]; [|done].
      rewrite (Hm (b + bi)) in Hused by lia. done. }
    pose proof (t_view_ok _ _ _ R HB) as Hok.
    pose proof (allocated_writes _ _ (t_view a) b bi Hsb ltac:(lia) Hb0 ltac:(lia) Hd Hused Hok) as Hal.
    apply wpx_wp, wp_bind, (wp_f_set _ a i (BBLOCK b (f_sb s)) (t_view a (BBLOCK b (f_sb s)))); [done|by apply block_ok_bit_set|].
    intros t2 R2. apply wp_bind, (wp_f_log _ a i (BBLOCK b (f_sb s)) (bit_set (t_view a (BBLOCK b (f_sb s))) bi)); [done|lia|].
    intros t3 R3. apply wp_bind, (wp_f_done _ a i (BBLOCK b (f_sb s)) (bit_set (t_view a (BBLOCK b (f_sb s))) bi)); [done|done|].
    intros t4 R4. simpl in R4. apply wp_bind.
    eapply wp_bzero; [exact R4|simpl; lia| | |].
    + intros j d Hj. simpl in Hj. destruct (Hh j _ d Hj). congruence.
    + simpl. pose proof (size_add_le (t_logged a) (BBLOCK b (f_sb s))). lia.
    + intros t5 R5. apply wp_ret. eapply (HQ (b + bi)); [exact Hal|].
      refine (t_proper _ _ _ _ R5). split; try done. simpl. unfold BBLOCK in *.
      assert ((b + bi) / BPB = b / BPB) as ->; [unfold BPB in *; zlia|done].
  - apply wpx_bind, wpx_wp, (wp_f_brelse _ a i (BBLOCK b (f_sb s))); [done|done|]. intros t2 R2.
    apply IH; try done; cbn [f_sb with_tx]; [|unfold BPB in *; lia| |unfold BPB in *; zlia].
    + destruct Hout as [?|(x & Hx & Hfree)]; [by left|right]. exists x. split; [|done]. split; [|lia].
      destruct (Z.lt_ge_cases x (b + BPB)) as [Hl|]; [|done]. exfalso.
      assert (Hbit : bit (t_view a (BBLOCK b (f_sb s))) (x - b) = true).
      { apply (free_bit_None _ _ _ _ _ Hfb); [|lia]. rewrite Z2Nat.id by (unfold BPB; lia). lia. }
      unfold used, BBLOCK in *. assert (x / BPB = b / BPB /\ x mod BPB = x - b) as [E1 E2].
      { unfold BPB in *. split; zlia. } rewrite E1, E2 in Hfree. congruence.
    + rewrite <-Hb0. unfold BPB. zlia.
Qed.

(** [balloc], with the panic for a full disk allowed or excluded by a free block. *)
Lemma wpx_balloc P s a (Q : Z -> fs T -> Prop) :
  P "balloc: out of blocks"%string \/ (exists x, 0 <= x < sb_size (f_sb s) /\ used (f_sb s) (t_view a) x = false) ->
  t_rel (f_tx s) a -> sb_ok (f_sb s) (t_size a) -> meta_used (f_sb s) (t_view a) -> held_data (f_sb s) a ->
  (size (t_logged a) + size (t_held a) + 1 < t_cap a)%nat ->
  (forall y t v', allocated (f_sb s) (t_view a) v' y ->
     t_rel t (t_with v' (t_logged a ∪ {[BBLOCK y (f_sb s)]} ∪ {[y]}) a) -> Q y (with_tx t s)) ->
  wpx P (balloc t_dev) Q s.
Proof.
  intros Hout R Hsb Hm Hh Hc HQ. unfold balloc. wpx_steps. pose proof (so_size _ _ Hsb).
  apply (wpx_balloc_loop P _ s a 0); try done. rewrite Z.sub_0_r.
  assert (0 <= sb_size (f_sb s) / BPB) by (unfold BPB; apply Z.div_pos; lia). lia.
Qed.

(** What [bfree] does to the blocks. *)
Record freed sb (v v' : Z -> block) (b : Z) : Prop := mk_freed {
  fr_used x : 0 <= x < sb_size sb -> used sb v' x = if x =? b then false else used sb v x;
  fr_frame x : x < sb_bmapstart sb \/ dstart sb <= x -> v' x = v x
}.

Lemma wp_bfree s a b (Q : unit -> fs T -> Prop) :
  t_rel (f_tx s) a -> sb_ok (f_sb s) (t_size a) -> held_data (f_sb s) a -> 0 <= b < sb_size (f_sb s) ->
  used (f_sb s) (t_view a) b = true -> (size (t_logged a) + size (t_held a) < t_cap a)%nat ->
  (forall t v', freed (f_sb s) (t_view a) v' b ->
     t_rel t (t_with v' (t_logged a ∪ {[BBLOCK b (f_sb s)]}) a) -> Q tt (with_tx t s)) ->
  wp (bfree t_dev b) Q s.
Proof.
  intros R Hsb Hh Hb Hu Hc HQ. unfold bfree. rewrite t_dev32. wp_step. wp_step. cbn beta.
  destruct (BBLOCK_range _ _ b Hsb ltac:(lia)) as [_ Hrange].
  assert (HB : 0 <= BBLOCK b (f_sb s) < t_size a).
  { pose proof (dstart_bounds _ _ Hsb). pose proof (so_data _ _ Hsb). pose proof (so_size _ _ Hsb). lia. }
  pose proof (t_view_ok _ _ _ R HB) as Hok.
  apply wp_bind, (wp_f_bread s a); [done|done| |lia|].
  { apply (held_data_free (f_sb s)); [done|]. left. lia. }
  intros i t1 Hi R1. set (B := BBLOCK b (f_sb s)) in *.
  apply wp_bind, (wp_f_data _ a i B (t_view a B)); [done|]. rewrite bit_get_spec.
  assert (Hbit : bit (t_view a B) (b mod BPB) = true) by done. rewrite Hbit. cbn [negb].
  assert (Hmod : 0 <= b mod BPB < BPB) by (apply Z.mod_pos_bound; unfold BPB; lia).
  apply wp_bind, (wp_f_set _ a i B (t_view a B)); [done|by apply block_ok_bit_clear|]. intros t2 R2.
  apply wp_bind, (wp_f_log _ a i B (bit_clear (t_view a B) (b mod BPB))); [done|lia|]. intros t3 R3.
  apply (wp_f_done _ a i B (bit_clear (t_view a B) (b mod BPB))); [done|done|]. intros t4 R4.
  eapply (HQ t4); [|exact R4]. split.
  - intros x Hx. apply (used_update _ _ (t_view a) _ b bit_clear false x Hsb Hb Hx); fold B.
    + unfold disk_write. simpl. by rewrite Z.eqb_refl.
    + intros z Hz Hzne. unfold disk_write. simpl. by rewrite (proj2 (Z.eqb_neq _ _)) by lia.
    + intros bj Hj. apply bit_bit_clear; [done|apply Hok|done].
  - intros x Hx. unfold disk_write. simpl. by rewrite (proj2 (Z.eqb_neq _ _)) by lia.
Qed.
End blocks.
