(* ===== verification/FsInode.v ===== *)
(** * The block map of a file ([bmap] of [fs.c])

    A file is the sequence of bytes that its block map leads to, through the direct
    addresses and the indirect block.  [bmap] extends the map by fresh blocks and
    changes no byte of any file. *)

From S2P Require Import Prelude Spinlock Sleeplock Block Disk Layout Format Tx Fs FsBlocks.

(** ** The block map *)

Definition ind (di : dinode) : Z := default 0 (di_addrs di !! NDIRECT).

(** The address of block [bn] of the file, 0 when there is none. *)
Definition faddr (v : Z -> block) (di : dinode) (bn : Z) : Z :=
  if bn <? Z.of_nat NDIRECT then default 0 (di_addrs di !! Z.to_nat bn)
  else if ind di =? 0 then 0 else get32 (v (ind di)) (4 * Z.to_nat (bn - Z.of_nat NDIRECT)).

Definition fbyte (v : Z -> block) (di : dinode) (k : Z) : Z :=
  byte_at (v (faddr v di (k / 512))) (Z.to_nat (k mod 512)).

Definition contents (v : Z -> block) (di : dinode) : list Z := fbyte v di <$> seqZ 0 (di_size di).

(** A block in the data area that is in use. *)
Definition data_block sb v x : Prop := dstart sb <= x < sb_size sb /\ used sb v x = true.

Record inode_wf (sb : superblock) (v : Z -> block) (di : dinode) : Prop := mk_inode_wf {
  w_ok : dinode_ok di;
  w_addr bn : 0 <= bn < MAXFILE -> faddr v di bn <> 0 -> data_block sb v (faddr v di bn);
  w_ind : ind di <> 0 -> data_block sb v (ind di);
  w_ind_ne bn : 0 <= bn < MAXFILE -> ind di <> 0 -> faddr v di bn <> ind di;
  w_inj bn bm : 0 <= bn < MAXFILE -> 0 <= bm < MAXFILE -> faddr v di bn = faddr v di bm ->
    faddr v di bn <> 0 -> bn = bm;
  w_size : 0 <= di_size di <= MAXFILE * 512;
  w_full bn : 0 <= bn -> bn * 512 < di_size di -> faddr v di bn <> 0
}.

(** The blocks that belong to the inode. *)
Definition owned v di x : Prop :=
  x <> 0 /\ (x = ind di \/ exists bn, 0 <= bn < MAXFILE /\ faddr v di bn = x).

(** The inode is as before but for its block map. *)
Definition same_file (di di' : dinode) : Prop :=
  di_type di' = di_type di /\ di_major di' = di_major di /\ di_minor di' = di_minor di /\
  di_nlink di' = di_nlink di /\ di_size di' = di_size di.

(** From ([v], [di]) to ([v'], [di']) the inode may have grown by fresh blocks and the
    blocks it owns may have changed; everything else is as it was. *)
Record evolves (sb : superblock) (v v' : Z -> block) (di di' : dinode) : Prop := mk_evolves {
  ev_wf : inode_wf sb v' di';
  ev_file : same_file di di';
  ev_meta : meta_used sb v';
  ev_used x : 0 <= x < sb_size sb -> used sb v x = true -> used sb v' x = true;
  ev_frame x : data_block sb v x -> ~ owned v di x -> v' x = v x;
  ev_low x : x < sb_bmapstart sb -> v' x = v x;
  ev_own x : owned v' di' x -> owned v di x \/ used sb v x = false;
  ev_addr bn : 0 <= bn < MAXFILE -> faddr v di bn <> 0 -> faddr v' di' bn = faddr v di bn;
  ev_ind : ind di <> 0 -> ind di' = ind di
}.

Lemma evolves_refl sb v di : inode_wf sb v di -> meta_used sb v -> evolves sb v v di di.
Proof. intros Hw Hm. split; try done. intros x. by left. Qed.

Lemma owned_data sb v di x : inode_wf sb v di -> owned v di x -> data_block sb v x.
Proof.
  intros Hw [Hx [->|(bn & Hbn & <-)]]; [by apply (w_ind _ _ _ Hw)|by apply (w_addr _ _ _ Hw)].
Qed.

Lemma data_range sb n v x : sb_ok sb n -> data_block sb v x -> 0 <= x < sb_size sb.
Proof.
  intros Hsb [Hx _]. pose proof (dstart_bounds _ _ Hsb). lia.
Qed.

Lemma evolves_trans sb n v1 v2 v3 d1 d2 d3 :
  sb_ok sb n -> evolves sb v1 v2 d1 d2 -> evolves sb v2 v3 d2 d3 -> evolves sb v1 v3 d1 d3.
Proof.
  intros Hsb [A1 A2 A3 A4 A5 A6 A7 A8 A9] [B1 B2 B3 B4 B5 B6 B7 B8 B9]. split; try done.
  - unfold same_file in *. intuition congruence.
  - auto.
  - intros x Hx Hn. rewrite B5.
    + by apply A5.
    + split; [apply Hx|]. apply A4; [by eapply data_range|apply Hx].
    + intros Ho. destruct (A7 x Ho) as [?|Hu]; [done|]. destruct Hx. congruence.
  - intros x Hx. rewrite B6 by done. auto.
  - intros x Ho. destruct (B7 x Ho) as [Ho'|Hu]; [by apply A7|]. right.
    destruct (used sb v1 x) eqn:Hu1; [|done].
    assert (Hd : data_block sb v3 x) by (by apply (owned_data _ _ d3)).
    rewrite (A4 x) in Hu; [done|by eapply data_range|done].
  - intros bn Hbn Hne. rewrite B8 by (try done; rewrite A8; done). by apply A8.
  - intros Hi. rewrite B9; [by apply A9|by rewrite A9].
Qed.

(** ** Extending the map by one fresh block *)

Section extend.
Context (sb : superblock) (n : Z) (Hsb : sb_ok sb n).

Lemma alloc_data v v' y x : allocated sb v v' y -> data_block sb v x -> x <> y /\ v' x = v x /\ data_block sb v' x.
Proof.
  intros [A1 A2 A3 A4 A5] [Hx Hu]. assert (Hne : x <> y) by congruence. split; [done|].
  split; [apply A5; [done|right; lia]|]. split; [done|].
  rewrite A4 by (eapply (data_range sb n v x); done). by rewrite (proj2 (Z.eqb_neq _ _) Hne).
Qed.

Lemma alloc_new v v' y : allocated sb v v' y -> data_block sb v' y.
Proof.
  intros [A1 A2 A3 A4 A5]. split; [done|]. rewrite A4, Z.eqb_refl; [done|].
  pose proof (dstart_bounds _ _ Hsb). lia.
Qed.

Lemma alloc_meta v v' y : allocated sb v v' y -> meta_used sb v -> meta_used sb v'.
Proof.
  intros [A1 A2 A3 A4 A5] Hm x Hx. rewrite A4 by (pose proof (so_data _ _ Hsb); lia).
  destruct (x =? y); [done|]. by apply Hm.
Qed.

Lemma alloc_pos v v' y : allocated sb v v' y -> y <> 0.
Proof.
  intros [A1 _ _ _ _] ->. pose proof (dstart_bounds _ _ Hsb). lia.
Qed.

Lemma set_addr_ok di i y : dinode_ok di -> 0 <= y < W32 -> dinode_ok (set_addr i y di).
Proof.
  intros [H1 H2 H3 H4 H5 H6 H7] Hy. split; try done; simpl; [by rewrite length_insert|by apply Forall_insert].
Qed.

Lemma ind_set_addr di i y : (i < NDIRECT)%nat -> ind (set_addr i y di) = ind di.
Proof. intros Hi. unfold ind. simpl. by rewrite list_lookup_insert_ne by lia. Qed.

Lemma ind_set_ind di y : dinode_ok di -> ind (set_addr NDIRECT y di) = y.
Proof. intros Hd. unfold ind. simpl. by rewrite list_lookup_insert_eq by (rewrite (ok_len _ Hd); lia). Qed.

(** A new direct block. *)
Lemma faddr_direct v v' di y bn :
  inode_wf sb v di -> allocated sb v v' y -> 0 <= bn < Z.of_nat NDIRECT ->
  forall bm, 0 <= bm < MAXFILE ->
  faddr v' (set_addr (Z.to_nat bn) y di) bm = if bm =? bn then y else faddr v di bm.
Proof.
  intros Hw Ha Hbn bm Hbm. unfold faddr. rewrite ind_set_addr by (unfold NDIRECT in *; lia).
  destruct (Z.ltb_spec bm (Z.of_nat NDIRECT)) as [Hlt|Hge].
  - simpl. destruct (Z.eqb_spec bm bn) as [->|Hne].
    + rewrite list_lookup_insert_eq; [done|]. rewrite (ok_len _ (w_ok _ _ _ Hw)). lia.
    + rewrite list_lookup_insert_ne; [done|]. lia.
  - rewrite (proj2 (Z.eqb_neq bm bn)) by lia. destruct (Z.eqb_spec (ind di) 0) as [|Hi]; [done|].
    destruct (alloc_data v v' y (ind di) Ha (w_ind _ _ _ Hw Hi)) as (_ & -> & _). done.
Qed.

Lemma get32_zero off : get32 (repeat 0 BSIZE) off = 0.
Proof.
  assert (Hz : forall i, byte_at (repeat 0 BSIZE) i = 0).
  { intros i. unfold byte_at. destruct (repeat 0 BSIZE !! i) as [x|] eqn:Hx; [|done].
    by apply list_elem_of_lookup_2, list_elem_of_In, repeat_spec in Hx. }
  unfold get32. by rewrite !Hz.
Qed.

(** A new indirect block, still empty. *)
Lemma faddr_indirect v v' di y :
  inode_wf sb v di -> allocated sb v v' y -> ind di = 0 ->
  forall bm, faddr v' (set_addr NDIRECT y di) bm = faddr v di bm.
Proof.
  intros Hw Ha Hi bm. unfold faddr. rewrite ind_set_ind by apply Hw.
  destruct (Z.ltb_spec bm (Z.of_nat NDIRECT)) as [Hlt|Hge].
  - simpl. rewrite list_lookup_insert_ne; [done|]. unfold NDIRECT in *. lia.
  - rewrite (proj2 (Z.eqb_neq _ _) (alloc_pos _ _ _ Ha)), Hi. simpl. rewrite (al_zero _ _ _ _ Ha). apply get32_zero.
Qed.

(** A new entry in the indirect block. *)
Lemma faddr_entry v v' di y bn :
  inode_wf sb v di -> v' (ind di) = put32 (v (ind di)) (4 * Z.to_nat (bn - Z.of_nat NDIRECT)) y ->
  block_ok (v (ind di)) -> 0 <= y < W32 -> Z.of_nat NDIRECT <= bn < MAXFILE -> ind di <> 0 ->
  forall bm, 0 <= bm < MAXFILE -> faddr v' di bm = if bm =? bn then y else faddr v di bm.
Proof.
  intros Hw Hv [Hl _] Hy Hbn Hi bm Hbm. unfold faddr. unfold NDIRECT, MAXFILE, BSIZE in *.
  destruct (Z.ltb_spec bm (Z.of_nat 12)) as [Hlt|Hge].
  - by rewrite (proj2 (Z.eqb_neq bm bn)) by lia.
  - rewrite (proj2 (Z.eqb_neq _ _) Hi), Hv. destruct (Z.eqb_spec bm bn) as [->|Hne].
    + apply get32_put32; [lia|done].
    + apply get32_put32_ne; lia.
Qed.
End extend.

(** ** The generic extension: block [bn] gets the fresh address [y] *)

Section grow.
Context (sb : superblock) (n : Z) (Hsb : sb_ok sb n).
Context (v v' : Z -> block) (di di' : dinode).
Context (Hw : inode_wf sb v di) (Hok : dinode_ok di') (Hfile : same_file di di') (Hmeta : meta_used sb v').
Context (Hused : forall x, 0 <= x < sb_size sb -> used sb v x = true -> used sb v' x = true).
Context (Hlow : forall x, x < sb_bmapstart sb -> v' x = v x).
Context (Hframe : forall x, data_block sb v x -> ~ owned v di x -> v' x = v x).

Lemma keep_data x : data_block sb v x -> data_block sb v' x.
Proof. intros Hx. split; [apply Hx|]. apply Hused; [by eapply data_range|apply Hx]. Qed.

(** No new block, perhaps a new indirect block. *)
Lemma grow_same :
  (forall bm, 0 <= bm < MAXFILE -> faddr v' di' bm = faddr v di bm) ->
  ind di' = ind di \/ (ind di = 0 /\ used sb v (ind di') = false /\ data_block sb v' (ind di')) ->
  evolves sb v v' di di'.
Proof.
  intros Hf Hind. destruct Hfile as (_ & _ & _ & _ & Hsz).
  assert (Hmax : forall bn, bn * 512 < di_size di -> bn < MAXFILE).
  { intros bn Hbn. pose proof (w_size _ _ _ Hw). unfold MAXFILE in *. lia. }
  split; try done.
  - split; try done.
    + intros bn Hbn. rewrite Hf by done. intros Hne. by apply keep_data, (w_addr _ _ _ Hw).
    + intros Hi. destruct Hind as [E|(_ & _ & Hd)]; [|done]. rewrite E in *. by apply keep_data, (w_ind _ _ _ Hw).
    + intros bn Hbn Hi. rewrite Hf by done. destruct Hind as [E|(_ & Hu & _)].
      * rewrite E in *. by apply (w_ind_ne _ _ _ Hw).
      * intros E. rewrite <-E in *. destruct (w_addr _ _ _ Hw bn Hbn Hi) as [_ Hu']. congruence.
    + intros bn bm Hbn Hbm. rewrite !Hf by done. by apply (w_inj _ _ _ Hw).
    + rewrite Hsz. apply (w_size _ _ _ Hw).
    + intros bn Hbn Hlt. rewrite Hsz in Hlt. rewrite Hf by (pose proof (Hmax bn Hlt); lia).
      by apply (w_full _ _ _ Hw).
  - intros x [Hx [->|(bn & Hbn & Hfb)]].
    + destruct Hind as [E|(_ & Hu & _)]; [|by right]. rewrite E in *. left. split; [done|]. by left.
    + rewrite Hf in Hfb by done. left. split; [done|]. right. eauto.
  - intros bn Hbn _. by apply Hf.
  - intros Hi. by destruct Hind as [E|(E & _)].
Qed.

(** A new block. *)
Lemma grow_block bn y :
  0 <= bn < MAXFILE -> faddr v di bn = 0 -> used sb v y = false -> data_block sb v' y -> y <> 0 ->
  (forall bm, 0 <= bm < MAXFILE -> faddr v' di' bm = if bm =? bn then y else faddr v di bm) ->
  ind di' = ind di ->
  evolves sb v v' di di'.
Proof.
  intros Hbn H0 Hfresh Hy Hy0 Hf Hind. destruct Hfile as (_ & _ & _ & _ & Hsz).
  assert (Hmax : forall bn, bn * 512 < di_size di -> bn < MAXFILE).
  { intros k Hk. pose proof (w_size _ _ _ Hw). unfold MAXFILE in *. lia. }
  assert (Hnew : forall bm, 0 <= bm < MAXFILE -> faddr v di bm <> 0 -> faddr v di bm <> y).
  { intros bm Hbm Hne E. destruct (w_addr _ _ _ Hw bm Hbm Hne) as [_ Hu]. congruence. }
  split; try done.
  - split; try done.
    + intros bm Hbm. rewrite Hf by done. destruct (bm =? bn); [done|]. intros Hne.
      by apply keep_data, (w_addr _ _ _ Hw).
    + rewrite Hind. intros Hi. by apply keep_data, (w_ind _ _ _ Hw).
    + intros bm Hbm. rewrite Hind. intros Hi. rewrite Hf by done. destruct (bm =? bn).
      * intros E. destruct (w_ind _ _ _ Hw Hi). congruence.
      * by apply (w_ind_ne _ _ _ Hw).
    + intros bm bk Hbm Hbk. rewrite !Hf by done.
      destruct (Z.eqb_spec bm bn) as [->|E1], (Z.eqb_spec bk bn) as [->|E2]; [done| | |].
      * intros E Hne. destruct (Hnew bk Hbk); congruence.
      * intros E Hne. destruct (Hnew bm Hbm); congruence.
      * by apply (w_inj _ _ _ Hw).
    + rewrite Hsz. apply (w_size _ _ _ Hw).
    + intros bm Hbm Hlt. rewrite Hsz in Hlt. rewrite Hf by (pose proof (Hmax bm Hlt); lia).
      destruct (bm =? bn); [done|]. by apply (w_full _ _ _ Hw).
  - intros x [Hx [->|(bm & Hbm & Hfb)]].
    + rewrite Hind in *. left. split; [done|]. by left.
    + rewrite Hf in Hfb by done. destruct (bm =? bn); [subst; by right|].
      left. split; [done|]. right. eauto.
  - intros bm Hbm Hne. rewrite Hf by done. destruct (Z.eqb_spec bm bn) as [->|]; [congruence|done].
Qed.
End grow.

(** ** The three ways [bmap] extends a file *)

Section fresh.
Context (sb : superblock) (n : Z) (Hsb : sb_ok sb n).
Context (v v' : Z -> block) (di : dinode) (y : Z).
Context (Hw : inode_wf sb v di) (Hm : meta_used sb v) (Ha : allocated sb v v' y).

Lemma fresh_u32 : 0 <= y < W32.
Proof.
  pose proof (data_range _ _ _ _ Hsb (alloc_new _ _ Hsb _ _ _ Ha)). pose proof (so_small _ _ Hsb). pose proof (so_size _ _ Hsb).
  unfold W32. lia.
Qed.
Lemma fresh_low x : x < sb_bmapstart sb -> v' x = v x.
Proof.
  intros Hx. apply (al_frame _ _ _ _ Ha); [|by left]. pose proof (al_range _ _ _ _ Ha). pose proof (dstart_bounds _ _ Hsb). lia.
Qed.
Lemma fresh_used x : 0 <= x < sb_size sb -> used sb v x = true -> used sb v' x = true.
Proof. intros Hx Hu. rewrite (al_used _ _ _ _ Ha) by done. by destruct (x =? y). Qed.

(** A fresh direct block. *)
Lemma grow_direct bn : 0 <= bn < Z.of_nat NDIRECT -> faddr v di bn = 0 -> evolves sb v v' di (set_addr (Z.to_nat bn) y di).
Proof.
  intros Hbn Hz. apply (grow_block sb _ Hsb _ _ _ _ Hw) with (bn := bn) (y := y); try done.
  - apply set_addr_ok; [apply Hw|apply fresh_u32].
  - by eapply alloc_meta.
  - apply fresh_used.
  - apply fresh_low.
  - intros x Hx _. by apply (alloc_data _ _ Hsb _ _ _ _ Ha).
  - unfold NDIRECT, MAXFILE in *. lia.
  - apply Ha.
  - by eapply alloc_new.
  - by eapply alloc_pos.
  - by eapply faddr_direct.
  - apply ind_set_addr. unfold NDIRECT in *. lia.
Qed.

(** A fresh indirect block. *)
Lemma grow_ind : ind di = 0 -> evolves sb v v' di (set_addr NDIRECT y di).
Proof.
  intros Hi. apply (grow_same sb _ Hsb _ _ _ _ Hw); try done.
  - apply set_addr_ok; [apply Hw|apply fresh_u32].
  - by eapply alloc_meta.
  - apply fresh_used.
  - apply fresh_low.
  - intros x Hx _. by apply (alloc_data _ _ Hsb _ _ _ _ Ha).
  - intros bm _. by eapply (faddr_indirect _ _ Hsb).
  - right. rewrite ind_set_ind by apply Hw. split; [done|]. split; [apply Ha|by eapply alloc_new].
Qed.

(** A fresh entry of the indirect block. *)
Lemma grow_entry bn (v2 := disk_write v' (ind di, put32 (v (ind di)) (4 * Z.to_nat (bn - Z.of_nat NDIRECT)) y)) :
  Z.of_nat NDIRECT <= bn < MAXFILE -> ind di <> 0 -> faddr v di bn = 0 -> block_ok (v (ind di)) ->
  evolves sb v v2 di di /\ (forall bm, 0 <= bm < MAXFILE -> faddr v2 di bm = if bm =? bn then y else faddr v di bm).
Proof.
  intros Hbn Hi Hz Hok. pose proof (w_ind _ _ _ Hw Hi) as HdI. pose proof HdI as [[HdI1 HdI2] HdI3]. pose proof (dstart_bounds _ _ Hsb) as Hds.
  assert (HvI : v2 (ind di) = put32 (v (ind di)) (4 * Z.to_nat (bn - Z.of_nat NDIRECT)) y) by (unfold v2, disk_write; simpl; by rewrite Z.eqb_refl).
  assert (Hv2 : forall x, x <> ind di -> v2 x = v' x) by (intros x Hx; unfold v2, disk_write; simpl; by rewrite (proj2 (Z.eqb_neq _ _) Hx)).
  pose proof (faddr_entry sb v v2 di y bn Hw HvI Hok fresh_u32 Hbn Hi) as Hf. split; [|done].
  assert (Hu : forall x, 0 <= x < sb_size sb -> used sb v2 x = if x =? y then true else used sb v x).
  { intros x Hx. rewrite (used_ext _ _ v' v2 x Hsb Hx); [by apply Ha|]. intros z Hz'. apply Hv2. lia. }
  apply (grow_block sb _ Hsb _ _ _ _ Hw) with (bn := bn) (y := y); try done.
  - apply Hw.
  - intros x Hx. rewrite Hu by (pose proof (so_data _ _ Hsb); lia). destruct (x =? y); [done|]. by apply Hm.
  - intros x Hx Hux. rewrite Hu by done. by destruct (x =? y).
  - intros x Hx. rewrite Hv2 by lia. by apply fresh_low.
  - intros x Hx Hno. rewrite Hv2; [by apply (alloc_data _ _ Hsb _ _ _ _ Ha)|]. intros ->. apply Hno. split; [done|by left].
  - unfold NDIRECT in *. lia.
  - apply Ha.
  - pose proof (alloc_new _ _ Hsb _ _ _ Ha) as Hy. split; [apply Hy|]. rewrite Hu by (by eapply data_range). by rewrite Z.eqb_refl.
  - by eapply alloc_pos.
Qed.
End fresh.

(** ** [bmap] *)

(** The indirect block, as a set of blocks. *)
Definition indset (di : dinode) : gset Z := if ind di =? 0 then ∅ else {[ind di]}.

Lemma indset_some di : ind di <> 0 -> indset di = {[ind di]}.
Proof. intros Hi. unfold indset. by rewrite (proj2 (Z.eqb_neq _ _) Hi). Qed.
Lemma indset_mono sb v v' di di' : evolves sb v v' di di' -> indset di ⊆ indset di'.
Proof.
  intros Hev. unfold indset at 1. destruct (Z.eqb_spec (ind di) 0) as [|Hi]; [set_solver|].
  rewrite indset_some; rewrite (ev_ind _ _ _ _ _ Hev Hi); done.
Qed.
Lemma size_indset di : (size (indset di) <= 1)%nat.
Proof. unfold indset. destruct (ind di =? 0); [rewrite size_empty|rewrite size_singleton]; lia. Qed.
Lemma size_add_indset (L : gset Z) di : (size (L ∪ indset di) <= size L + 1)%nat.
Proof.
  rewrite size_union_alt. pose proof (size_indset di).
  assert (Hsub : indset di ∖ L ⊆ indset di) by set_solver. apply subseteq_size in Hsub. lia.
Qed.

(** The blocks of the free bitmap. *)
Definition bm_set (sb : superblock) : gset Z := list_to_set (seqZ (sb_bmapstart sb) (sb_size sb / BPB + 1)).

Lemma BBLOCK_bm sb n b : sb_ok sb n -> 0 <= b < sb_size sb -> BBLOCK b sb ∈ bm_set sb.
Proof.
  intros Hsb Hb. unfold bm_set. rewrite elem_of_list_to_set, elem_of_seqZ.
  destruct (BBLOCK_range sb n b Hsb Hb) as [_ Hr]. unfold dstart in Hr. lia.
Qed.

Section inode.
Context {T : Type} `{Tx T}.
Implicit Types (s : fs T) (a : tabs).

(** [s'] is [s] but for the block layer and the dinode of inode [ip]. *)
Record touches (ip : nat) s s' : Prop := mk_touches {
  to_sb : f_sb s' = f_sb s;
  to_lock : f_lock s' = f_lock s;
  to_wakes : f_wakes s' = f_wakes s;
  to_other j : j <> ip -> f_inode s' j = f_inode s j;
  to_inode : f_inode s' ip = i_set_di (i_di (f_inode s' ip)) (f_inode s ip)
}.

Lemma touches_refl ip s : touches ip s s.
Proof. split; try done. by destruct (f_inode s ip). Qed.
Lemma touches_trans ip s1 s2 s3 : touches ip s1 s2 -> touches ip s2 s3 -> touches ip s1 s3.
Proof.
  intros [A1 A2 A3 A4 A5] [B1 B2 B3 B4 B5]. split; try congruence.
  - intros j Hj. by rewrite B4, A4.
  - rewrite B5 at 1. by rewrite A5.
Qed.
Lemma touches_tx ip s s' t : touches ip s s' -> touches ip s (with_tx t s').
Proof. intros []. done. Qed.
Lemma touches_di ip s s' f : touches ip s s' -> touches ip s (i_put ip (i_set_di f (f_inode s' ip)) s').
Proof.
  intros [A1 A2 A3 A4 A5]. split; try done; simpl.
  - intros j Hj. rewrite fupd_ne by done. auto.
  - rewrite fupd_eq. by rewrite A5.
Qed.
Lemma touches_dev ip s s' : touches ip s s' -> i_dev (f_inode s' ip) = i_dev (f_inode s ip).
Proof. intros [_ _ _ _ E]. by rewrite E. Qed.

Lemma wp_addr_get ip i s (Q : Z -> fs T -> Prop) :
  Q (default 0 (di_addrs (i_di (f_inode s ip)) !! i)) s -> wp (addr_get ip i) Q s.
Proof. done. Qed.
Lemma wp_di_set ip f s (Q : unit -> fs T -> Prop) :
  Q tt (i_put ip (i_set_di (f (i_di (f_inode s ip))) (f_inode s ip)) s) -> wp (di_set ip f) Q s.
Proof. done. Qed.

Lemma held_empty_data sb a : t_held a = ∅ -> held_data sb a.
Proof. intros Hh i b d. by rewrite Hh, lookup_empty. Qed.
Lemma held_empty_free a b : t_held a = ∅ -> t_free a b.
Proof. intros Hh i d. by rewrite Hh, lookup_empty. Qed.

(** A mapped block is found without any change. *)
Lemma wp_bmap_hit s a ip bn (Q : Z -> fs T -> Prop) :
  t_rel (f_tx s) a -> t_held a = ∅ -> sb_ok (f_sb s) (t_size a) -> i_dev (f_inode s ip) = t_dev ->
  inode_wf (f_sb s) (t_view a) (i_di (f_inode s ip)) -> 0 <= bn < MAXFILE ->
  (size (t_logged a) < t_cap a)%nat -> faddr (t_view a) (i_di (f_inode s ip)) bn <> 0 ->
  (forall t, t_rel t a -> Q (faddr (t_view a) (i_di (f_inode s ip)) bn) (with_tx t s)) ->
  wp (bmap ip bn) Q s.
Proof.
  intros R Hh Hsb Hdev Hw Hbn Hc Hne HQ. unfold bmap. wp_steps. unfold iget_field. wp_steps. rewrite Hdev.
  unfold faddr in Hne, HQ. destruct (Z.ltb_spec bn (Z.of_nat NDIRECT)) as [Hd|Hi].
  - wp_steps. apply wp_addr_get. rewrite (proj2 (Z.eqb_neq _ _) Hne). apply wp_ret.
    specialize (HQ _ R). by destruct s.
  - rewrite (proj2 (Z.ltb_lt _ _)) by (unfold MAXFILE, NDIRECT, NINDIRECT in *; lia).
    destruct (Z.eqb_spec (ind (i_di (f_inode s ip))) 0) as [|Hin]; [done|].
    pose proof (w_ind _ _ _ Hw Hin) as Hdata.
    pose proof (data_range _ _ _ _ Hsb Hdata) as Hrange. pose proof (so_size _ _ Hsb).
    wp_steps. apply wp_addr_get. fold (ind (i_di (f_inode s ip))). rewrite (proj2 (Z.eqb_neq _ _) Hin).
    wp_steps. apply (wp_f_bread s a); [done|lia|by apply held_empty_free|rewrite Hh, map_size_empty; lia|].
    intros i t1 Hi1 R1. wp_steps. apply (wp_f_data _ a i (ind (i_di (f_inode s ip))) (t_view a (ind (i_di (f_inode s ip))))); [done|].
    rewrite (proj2 (Z.eqb_neq _ _) Hne). wp_steps.
    apply (wp_f_brelse _ a i (ind (i_di (f_inode s ip)))); [done|done|]. intros t2 R2. apply wp_ret. by apply (HQ t2).
Qed.

(** What [bmap] promises when it returns address [y] for block [bn]. *)
Record bmapped s a (ip : nat) (bn y : Z) s' a' : Prop := mk_bmapped {
  bp_rel : t_rel (f_tx s') a';
  bp_held : t_held a' = ∅;
  bp_cap : t_cap a' = t_cap a;
  bp_size : t_size a' = t_size a;
  bp_touch : touches ip s s';
  bp_ev : evolves (f_sb s) (t_view a) (t_view a') (i_di (f_inode s ip)) (i_di (f_inode s' ip));
  bp_addr : faddr (t_view a') (i_di (f_inode s' ip)) bn = y;
  bp_ne : y <> 0;
  bp_new : faddr (t_view a) (i_di (f_inode s ip)) bn = 0 -> t_view a' y = repeat 0 BSIZE;
  bp_others bm : 0 <= bm < MAXFILE -> bm <> bn ->
    faddr (t_view a') (i_di (f_inode s' ip)) bm = faddr (t_view a) (i_di (f_inode s ip)) bm;
  bp_data bm : 0 <= bm < MAXFILE -> faddr (t_view a) (i_di (f_inode s ip)) bm <> 0 ->
    t_view a' (faddr (t_view a) (i_di (f_inode s ip)) bm) = t_view a (faddr (t_view a) (i_di (f_inode s ip)) bm);
  bp_hit : faddr (t_view a) (i_di (f_inode s ip)) bn <> 0 -> i_di (f_inode s' ip) = i_di (f_inode s ip);
  bp_log : t_logged a' ⊆ t_logged a ∪ bm_set (f_sb s) ∪ indset (i_di (f_inode s' ip)) ∪ {[y]}
}.

(** The conditions under which the routines on inode [ip] run. *)
Record ready_ip s a (ip : nat) : Prop := mk_ready_ip {
  ri_rel : t_rel (f_tx s) a;
  ri_held : t_held a = ∅;
  ri_sb : sb_ok (f_sb s) (t_size a);
  ri_meta : meta_used (f_sb s) (t_view a);
  ri_dev : i_dev (f_inode s ip) = t_dev;
  ri_wf : inode_wf (f_sb s) (t_view a) (i_di (f_inode s ip))
}.

Lemma bmapped_ready s a ip bn y s' a' : ready_ip s a ip -> bmapped s a ip bn y s' a' -> ready_ip s' a' ip.
Proof.
  intros [R1 R2 R3 R4 R5 R6] []. split; try done.
  - by rewrite (to_sb _ _ _ bp_touch0), bp_size0.
  - rewrite (to_sb _ _ _ bp_touch0). apply bp_ev0.
  - by rewrite (touches_dev _ _ _ bp_touch0).
  - rewrite (to_sb _ _ _ bp_touch0). apply bp_ev0.
Qed.

Section bmap_miss.
Context (P : string -> Prop) (Hfull : P "balloc: out of blocks"%string).

(** [balloc] as [bmap] uses it. *)
Lemma wpx_bmap_alloc s a (Q : Z -> fs T -> Prop) :
  t_rel (f_tx s) a -> held_data (f_sb s) a -> sb_ok (f_sb s) (t_size a) -> meta_used (f_sb s) (t_view a) ->
  (size (t_logged a) + size (t_held a) + 1 < t_cap a)%nat ->
  (forall y t v' l, allocated (f_sb s) (t_view a) v' y -> l ⊆ t_logged a ∪ bm_set (f_sb s) ∪ {[y]} ->
     t_rel t (t_with v' l a) -> Q y (with_tx t s)) ->
  wpx P (balloc t_dev) Q s.
Proof.
  intros R Hh Hsb Hm Hc HQ. apply (wpx_balloc P s a); [by left|done..|]. intros y t v' Ha R'.
  eapply HQ; [done| |exact R']. destruct (al_range _ _ _ _ Ha) as [Hlo Hhi].
  assert (HB : BBLOCK y (f_sb s) ∈ bm_set (f_sb s)); [|set_solver].
  eapply BBLOCK_bm; [done|]. pose proof (dstart_bounds _ _ Hsb). lia.
Qed.

(** A fresh direct block. *)
Lemma wpx_bmap_direct s a ip bn (Q : Z -> fs T -> Prop) :
  ready_ip s a ip -> 0 <= bn < Z.of_nat NDIRECT -> faddr (t_view a) (i_di (f_inode s ip)) bn = 0 ->
  (size (t_logged a) + 1 < t_cap a)%nat ->
  (forall y s' a', bmapped s a ip bn y s' a' -> Q y s') ->
  wpx P (let! addr := balloc t_dev in di_set ip (set_addr (Z.to_nat bn) addr) ;;; ret addr) Q s.
Proof.
  intros [R Hh Hsb Hm Hdev Hw] Hbn Hz Hc HQ. apply wpx_bind.
  apply (wpx_bmap_alloc s a); [done|by apply held_empty_data|done|done|rewrite Hh, map_size_empty; lia|].
  intros y t v' l Ha Hl R'. apply wpx_wp, wp_bind, wp_di_set, wp_ret.
  set (s' := i_put _ _ _).
  assert (Hdi : i_di (f_inode s' ip) = set_addr (Z.to_nat bn) y (i_di (f_inode s ip)))
    by (unfold s'; simpl; by rewrite fupd_eq).
  pose proof (alloc_new _ _ Hsb _ _ _ Ha) as Hy. pose proof (alloc_pos _ _ Hsb _ _ _ Ha) as Hy0.
  assert (Hbn' : 0 <= bn < MAXFILE) by (unfold NDIRECT, MAXFILE in *; lia).
  pose proof (faddr_direct _ _ Hsb (t_view a) v' (i_di (f_inode s ip)) y bn Hw Ha Hbn) as Hf.
  apply (HQ y s' (t_with v' l a)). split; try done; rewrite ?Hdi; cbn [t_with t_view t_logged].
  - apply touches_di, touches_tx, touches_refl.
  - by eapply grow_direct.
  - by rewrite Hf, Z.eqb_refl.
  - intros _. apply Ha.
  - intros bm Hbm Hne. rewrite Hf by done. by rewrite (proj2 (Z.eqb_neq _ _)).
  - intros bm Hbm Hne. by apply (alloc_data _ _ Hsb _ _ _ _ Ha), (w_addr _ _ _ Hw).
  - clear -Hl. set_solver.
Qed.

(** The indirect block is there. *)
Record indirected s a (ip : nat) s' a' : Prop := mk_indirected {
  in_ready : ready_ip s' a' ip;
  in_cap : t_cap a' = t_cap a;
  in_size : t_size a' = t_size a;
  in_touch : touches ip s s';
  in_ev : evolves (f_sb s) (t_view a) (t_view a') (i_di (f_inode s ip)) (i_di (f_inode s' ip));
  in_ind : ind (i_di (f_inode s' ip)) <> 0;
  in_addr bm : faddr (t_view a') (i_di (f_inode s' ip)) bm = faddr (t_view a) (i_di (f_inode s ip)) bm;
  in_data bm : 0 <= bm < MAXFILE -> faddr (t_view a) (i_di (f_inode s ip)) bm <> 0 ->
    t_view a' (faddr (t_view a) (i_di (f_inode s ip)) bm) = t_view a (faddr (t_view a) (i_di (f_inode s ip)) bm);
  in_log : t_logged a' ⊆ t_logged a ∪ bm_set (f_sb s) ∪ {[ind (i_di (f_inode s' ip))]}
}.

Lemma wpx_bmap_ind s a ip (Q : Z -> fs T -> Prop) :
  ready_ip s a ip -> (size (t_logged a) + 1 < t_cap a)%nat ->
  (forall s' a', indirected s a ip s' a' -> Q (ind (i_di (f_inode s' ip))) s') ->
  wpx P (if ind (i_di (f_inode s ip)) =? 0 then
           let! addr := balloc t_dev in di_set ip (set_addr NDIRECT addr) ;;; ret addr
         else ret (ind (i_di (f_inode s ip)))) Q s.
Proof.
  intros Hready Hc HQ. pose proof Hready as [R Hh Hsb Hm Hdev Hw].
  destruct (Z.eqb_spec (ind (i_di (f_inode s ip))) 0) as [Hi|Hi].
  2:{ apply wpx_ret. apply (HQ s a). split; try done; [apply touches_refl|by apply evolves_refl|set_solver]. }
  apply wpx_bind. apply (wpx_bmap_alloc s a); [done|by apply held_empty_data|done|done|rewrite Hh, map_size_empty; lia|].
  intros y t v' l Ha Hl R'. apply wpx_wp, wp_bind, wp_di_set, wp_ret.
  set (s' := i_put _ _ _).
  assert (Hdi : i_di (f_inode s' ip) = set_addr NDIRECT y (i_di (f_inode s ip)))
    by (unfold s'; simpl; by rewrite fupd_eq).
  pose proof (alloc_new _ _ Hsb _ _ _ Ha) as Hy. pose proof (alloc_pos _ _ Hsb _ _ _ Ha) as Hy0.
  assert (Hind : ind (i_di (f_inode s' ip)) = y) by (rewrite Hdi; apply ind_set_ind, Hw).
  assert (Hf : forall bm, faddr v' (i_di (f_inode s' ip)) bm = faddr (t_view a) (i_di (f_inode s ip)) bm).
  { intros bm. rewrite Hdi. by eapply (faddr_indirect _ _ Hsb). }
  assert (Ht : touches ip s s') by apply touches_di, touches_tx, touches_refl.
  assert (Hev : evolves (f_sb s) (t_view a) v' (i_di (f_inode s ip)) (i_di (f_inode s' ip))) by (rewrite Hdi; by eapply grow_ind).
  rewrite <-Hind. apply (HQ s' (t_with v' l a)). split; try done; rewrite ?Hind; try done.
  - split; try done.
    + by apply (ev_meta _ _ _ _ _ Hev).
    + by rewrite (touches_dev _ _ _ Ht).
    + by apply (ev_wf _ _ _ _ _ Hev).
  - intros bm Hbm Hne. by apply (alloc_data _ _ Hsb _ _ _ _ Ha), (w_addr _ _ _ Hw).
Qed.

(** A fresh entry of the indirect block. *)
Lemma wpx_bmap_entry s a ip bn (Q : Z -> fs T -> Prop) :
  ready_ip s a ip -> Z.of_nat NDIRECT <= bn < MAXFILE -> ind (i_di (f_inode s ip)) <> 0 ->
  faddr (t_view a) (i_di (f_inode s ip)) bn = 0 ->
  (size (t_logged a) + 2 < t_cap a)%nat -> (size (t_logged a ∪ bm_set (f_sb s)) + 2 < t_cap a)%nat ->
  (forall y s' a', bmapped s a ip bn y s' a' -> Q y s') ->
  wpx P (let! bp := tx (t_bread t_dev (ind (i_di (f_inode s ip)))) in
         let! d := tx (gets (t_data bp)) in
         let! addr := (if get32 d (4 * Z.to_nat (bn - Z.of_nat NDIRECT)) =? 0 then
                         let! addr := balloc t_dev in
                         tx (modify (fun t => t_set_data bp
                           (put32 (t_data bp t) (4 * Z.to_nat (bn - Z.of_nat NDIRECT)) addr) t)) ;;;
                         tx (t_log_write bp) ;;;
                         ret addr
                       else ret (get32 d (4 * Z.to_nat (bn - Z.of_nat NDIRECT)))) in
         tx (t_brelse bp) ;;;
         ret addr) Q s.
Proof.
  intros [R Hh Hsb Hm Hdev Hw] Hbn Hi Hz Hc1 Hc2 HQ.
  set (di := i_di (f_inode s ip)) in *. set (I := ind di) in *. set (off := (4 * Z.to_nat (bn - Z.of_nat NDIRECT))%nat).
  pose proof (w_ind _ _ _ Hw Hi) as HdI. fold I in HdI. pose proof (data_range _ _ _ _ Hsb HdI) as HrI.
  pose proof (so_size _ _ Hsb) as Hsz.
  assert (HzI : get32 (t_view a I) off = 0).
  { unfold faddr in Hz. fold I in Hz. rewrite (proj2 (Z.ltb_ge _ _)), (proj2 (Z.eqb_neq _ _) Hi) in Hz by lia. done. }
  apply wpx_bind, wpx_wp, (wp_f_bread s a); [done|lia|by apply held_empty_free|rewrite Hh, map_size_empty; lia|].
  intros i t1 Hi1 R1. apply wpx_bind, wpx_wp, (wp_f_data _ a i I (t_view a I)); [done|].
  rewrite HzI. cbn [Z.eqb]. apply wpx_bind, wpx_bind.
  apply (wpx_bmap_alloc (with_tx t1 s) (t_hold i (I, t_view a I) a)); try done.
  { intros j b d Hj. simpl in Hj. rewrite Hh in Hj. apply lookup_singleton_Some in Hj as [_ [= <- <-]]. done. }
  { simpl. rewrite Hh, insert_empty, map_size_singleton. lia. }
  intros y t2 v' l Ha Hl R2. cbn [f_sb with_tx] in Ha, Hl. cbn [t_view t_hold t_logged] in Ha, Hl.
  destruct (alloc_data _ _ Hsb _ _ _ _ Ha HdI) as (HIy & HvI & _).
  pose proof (alloc_new _ _ Hsb _ _ _ Ha) as Hy. pose proof (alloc_pos _ _ Hsb _ _ _ Ha) as Hy0.
  pose proof (t_view_ok _ _ I R ltac:(lia)) as HokI.
  assert (Hy32 : 0 <= y < W32).
  { pose proof (data_range _ _ _ _ Hsb Hy). pose proof (so_small _ _ Hsb). unfold W32. lia. }
  set (a1 := t_with v' l a). assert (R3 : t_rel t2 (t_hold i (I, t_view a I) a1)) by exact R2.
  apply wpx_wp, wp_bind, (wp_f_update (with_tx t2 (with_tx t1 s)) a1 i I (t_view a I)
    (fun d => put32 d off y)); [done|by apply block_ok_put32|]. intros t3 R4.
  assert (Hsl : (size l < t_cap a)%nat).
  { assert (l ⊆ (t_logged a ∪ bm_set (f_sb s)) ∪ {[y]}) by done.
    pose proof (subseteq_size l _ H1). pose proof (size_add_le (t_logged a ∪ bm_set (f_sb s)) y). lia. }
  apply wp_bind, (wp_f_log _ a1 i I (put32 (t_view a I) off y)); [done|done|]. intros t4 R5. apply wp_ret.
  apply wpx_wp, wp_bind, (wp_f_done _ a1 i I (put32 (t_view a I) off y)); [done|done|]. intros t5 R6. apply wp_ret.
  set (v'' := disk_write v' (I, put32 (t_view a I) off y)) in *. cbn [a1 t_with t_view t_logged] in R6.
  assert (HvI'' : v'' I = put32 (t_view a I) off y) by (unfold v'', disk_write; simpl; by rewrite Z.eqb_refl).
  assert (Hv'' : forall x, x <> I -> v'' x = v' x).
  { intros x Hx. unfold v'', disk_write. simpl. by rewrite (proj2 (Z.eqb_neq _ _) Hx). }
  destruct (grow_entry (f_sb s) _ Hsb (t_view a) v' di y Hw Hm Ha bn Hbn Hi Hz HokI) as [Hev Hf]. fold I off in Hev, Hf. fold v'' in Hev, Hf.
  assert (Hbn' : 0 <= bn < MAXFILE) by (unfold NDIRECT in *; lia).
  apply (HQ y _ (t_with v'' (l ∪ {[I]}) a)). split; try done; cbn [f_sb f_inode with_tx t_with t_view t_logged]; fold di.
  - apply touches_tx, touches_tx, touches_tx, touches_tx, touches_tx, touches_refl.
  - by rewrite Hf, Z.eqb_refl.
  - intros _. rewrite Hv'' by done. apply Ha.
  - intros bm Hbm Hne. rewrite Hf by done. by rewrite (proj2 (Z.eqb_neq _ _)).
  - intros bm Hbm Hne. rewrite Hv'' by (by apply (w_ind_ne _ _ _ Hw)).
    by apply (alloc_data _ _ Hsb _ _ _ _ Ha), (w_addr _ _ _ Hw).
  - rewrite indset_some by done. fold I. clear -Hl. set_solver.
Qed.

(** [bmap]: a mapped block is returned as it is, a missing one is allocated. *)
Lemma wpx_bmap s a ip bn (Q : Z -> fs T -> Prop) :
  ready_ip s a ip -> 0 <= bn < MAXFILE -> (size (t_logged a ∪ bm_set (f_sb s)) + 3 < t_cap a)%nat ->
  (forall y s' a', bmapped s a ip bn y s' a' -> Q y s') ->
  wpx P (bmap ip bn) Q s.
Proof.
  intros Hready Hbn Hc HQ. pose proof Hready as [R Hh Hsb Hm Hdev Hw].
  assert (Hs : (size (t_logged a) <= size (t_logged a ∪ bm_set (f_sb s)))%nat) by (apply subseteq_size; set_solver).
  destruct (decide (faddr (t_view a) (i_di (f_inode s ip)) bn = 0)) as [Hz|Hz].
  2:{ apply wpx_wp, (wp_bmap_hit s a); try done; [lia|]. intros t Rt. apply (HQ _ _ a).
      split; try done; [apply touches_tx, touches_refl|by apply evolves_refl|set_solver]. }
  unfold bmap, iget_field. wpx_steps. rewrite Hdev.
  destruct (Z.ltb_spec bn (Z.of_nat NDIRECT)) as [Hd|Hi].
  - assert (Hz0 : default 0 (di_addrs (i_di (f_inode s ip)) !! Z.to_nat bn) = 0).
    { unfold faddr in Hz. by rewrite (proj2 (Z.ltb_lt _ _) Hd) in Hz. }
    apply wpx_bind, wpx_wp, wp_addr_get. rewrite Hz0, Z.eqb_refl. apply (wpx_bmap_direct s a); try done; lia.
  - rewrite (proj2 (Z.ltb_lt _ _)) by (unfold MAXFILE, NDIRECT, NINDIRECT in *; lia).
    apply wpx_bind, wpx_wp, wp_addr_get. fold (ind (i_di (f_inode s ip))).
    apply wpx_bind, (wpx_bmap_ind s a); [done|lia|]. intros s1 a1 [I1 I2 I3 I4 I5 I6 I7 I8 I9].
    pose proof (to_sb _ _ _ I4) as Esb.
    assert (Hset : t_logged a1 ∪ bm_set (f_sb s1) ⊆ (t_logged a ∪ bm_set (f_sb s)) ∪ {[ind (i_di (f_inode s1 ip))]}).
    { rewrite Esb. set_solver. }
    pose proof (subseteq_size _ _ Hset) as Hsz1. pose proof (size_add_le (t_logged a ∪ bm_set (f_sb s)) (ind (i_di (f_inode s1 ip)))).
    assert ((size (t_logged a1) <= size (t_logged a1 ∪ bm_set (f_sb s1)))%nat) by (apply subseteq_size; set_solver).
    apply (wpx_bmap_entry s1 a1 ip bn); [done|lia|done|by rewrite I7|lia|lia|].
    intros y s2 a2 [B1 B2 B3 B4 B5 B6 B7 B8 B9 B10 B11 B12 B13]. apply (HQ y s2 a2). rewrite Esb in *. split; try done.
    + congruence.
    + congruence.
    + by eapply touches_trans.
    + by eapply evolves_trans.
    + intros _. apply B9. by rewrite I7.
    + intros bm Hbm Hne. rewrite B10 by done. apply I7.
    + intros bm Hbm Hne. rewrite <-(I7 bm) at 1. rewrite B11 by (try done; by rewrite I7). rewrite I7. by apply I8.
    + rewrite indset_some in * by (rewrite ?(ev_ind _ _ _ _ _ B6 I6); done).
      rewrite (ev_ind _ _ _ _ _ B6 I6) in *. clear -B13 I9. set_solver.
Qed.
End bmap_miss.
End inode.
