(* ===== verification/FsRw.v ===== *)
(** * File contents ([readi], [writei] of [fs.c])

    [readi] returns the bytes asked for and [writei] replaces exactly the bytes
    written, whatever the alignment, across direct and indirect blocks; blocks the
    inode does not own keep their contents. *)

From S2P Require Import Prelude Spinlock Sleeplock Block Disk Layout Format Tx Fs FsBlocks FsInode.

(** Bytes [off, off + n) of the file. *)
Definition fslice (v : Z -> block) (di : dinode) (off n : Z) : list Z := fbyte v di <$> seqZ off n.

Lemma fslice_app v di off m n : 0 <= m -> 0 <= n ->
  fslice v di off (m + n) = fslice v di off m ++ fslice v di (off + m) n.
Proof. intros Hm Hn. unfold fslice. by rewrite seqZ_app, fmap_app by done. Qed.

Lemma length_fslice v di off n : length (fslice v di off n) = Z.to_nat n.
Proof. unfold fslice. by rewrite length_fmap, length_seqZ. Qed.

(** The part of the slice in one block. *)
Lemma fbyte_block v di off j : 0 <= off -> 0 <= j < 512 - off mod 512 ->
  fbyte v di (off + j) = byte_at (v (faddr v di (off / 512))) (Z.to_nat (off mod 512) + Z.to_nat j).
Proof.
  intros Ho Hj. unfold fbyte. pose proof (Z.mod_pos_bound off 512).
  pose proof (Z.div_mod off 512).
  assert (Hd : (off + j) / 512 = off / 512) by (symmetry; apply (Z.div_unique_pos _ _ _ (off mod 512 + j)); lia).
  assert (Hm : (off + j) mod 512 = off mod 512 + j) by (symmetry; apply (Z.mod_unique_pos _ _ (off / 512)); lia).
  rewrite Hd, Hm. f_equal. lia.
Qed.

Lemma fslice_block v di off m :
  length (v (faddr v di (off / 512))) = BSIZE -> 0 <= off -> 0 <= m <= 512 - off mod 512 ->
  take (Z.to_nat m) (drop (Z.to_nat (off mod 512)) (v (faddr v di (off / 512)))) = fslice v di off m.
Proof.
  intros Hl Ho Hm. pose proof (Z.mod_pos_bound off 512). apply list_eq. intros i.
  destruct (decide (i < Z.to_nat m)%nat) as [Hi|Hi].
  - unfold fslice. rewrite list_lookup_fmap, lookup_seqZ_lt by lia. simpl.
    rewrite fbyte_block, Nat2Z.id by lia. rewrite lookup_take_lt by lia. rewrite lookup_drop. unfold byte_at.
    destruct (lookup_lt_is_Some_2 (v (faddr v di (off / 512))) (Z.to_nat (off mod 512) + i)) as [x Hx]; [|by rewrite Hx].
    rewrite Hl. unfold BSIZE. lia.
  - rewrite lookup_take_ge by lia. symmetry. apply lookup_ge_None. rewrite length_fslice. lia.
Qed.

(** [data] put over a list at [off], growing it if need be. *)
Definition splice (off : Z) (data l : list Z) : list Z :=
  take (Z.to_nat off) l ++ data ++ drop (Z.to_nat off + length data) l.

Lemma fslice_ext v v' di di' off n :
  (forall k, off <= k < off + n -> fbyte v' di' k = fbyte v di k) -> fslice v' di' off n = fslice v di off n.
Proof. intros Hk. unfold fslice. apply list_fmap_ext. intros i k Hi%lookup_seqZ. apply Hk. lia. Qed.

Lemma fslice_list v di off l :
  (forall k, off <= k < off + Z.of_nat (length l) -> fbyte v di k = byte_at l (Z.to_nat (k - off))) ->
  fslice v di off (Z.of_nat (length l)) = l.
Proof.
  intros Hk. apply list_eq. intros i. unfold fslice. rewrite list_lookup_fmap.
  destruct (decide (i < length l)%nat) as [Hi|Hi].
  - rewrite lookup_seqZ_lt by lia. simpl. rewrite Hk by lia. unfold byte_at.
    replace (Z.to_nat (off + Z.of_nat i - off)) with i by lia.
    destruct (lookup_lt_is_Some_2 l i Hi) as [x ->]. done.
  - rewrite lookup_seqZ_ge by lia. symmetry. apply lookup_ge_None. lia.
Qed.

Lemma take_fslice v di m n : 0 <= m <= n -> take (Z.to_nat m) (fslice v di 0 n) = fslice v di 0 m.
Proof.
  intros Hm. replace n with (m + (n - m)) by lia. rewrite fslice_app by lia.
  by rewrite take_app_length' by (by rewrite length_fslice).
Qed.
Lemma drop_fslice v di m n : 0 <= m <= n -> drop (Z.to_nat m) (fslice v di 0 n) = fslice v di m (n - m).
Proof.
  intros Hm. replace n with (m + (n - m)) at 1 by lia. rewrite fslice_app by lia.
  by rewrite drop_app_length' by (by rewrite length_fslice).
Qed.

(** Bytes of [contents]. *)
Lemma contents_splice v v' di di' off data :
  0 <= off <= di_size di -> di_size di' = Z.max (di_size di) (off + Z.of_nat (length data)) ->
  (forall k, off <= k < off + Z.of_nat (length data) -> fbyte v' di' k = byte_at data (Z.to_nat (k - off))) ->
  (forall k, 0 <= k < di_size di -> ~ off <= k < off + Z.of_nat (length data) -> fbyte v' di' k = fbyte v di k) ->
  contents v' di' = splice off data (contents v di).
Proof.
  intros Ho Hs Hin Hout. unfold contents, splice.
  fold (fslice v' di' 0 (di_size di')). fold (fslice v di 0 (di_size di)). set (n := Z.of_nat (length data)) in *.
  rewrite take_fslice by lia. set (r := di_size di' - (off + n)).
  replace (di_size di') with (off + (n + r)) by lia. rewrite !fslice_app by lia.
  f_equal; [apply fslice_ext; intros; apply Hout; lia|]. f_equal; [apply fslice_list; intros; simpl; auto|].
  rewrite Z.add_0_l. destruct (Z.le_ge_cases (off + n) (di_size di)) as [Hle|Hge].
  - replace (Z.to_nat off + length data)%nat with (Z.to_nat (off + n)) by lia. rewrite drop_fslice by lia.
    replace (di_size di - (off + n)) with r by lia. apply fslice_ext. intros k Hk. apply Hout; lia.
  - rewrite drop_ge by (rewrite length_fslice; lia). unfold fslice. by replace r with 0 by lia.
Qed.

(** A file whose blocks have not changed. *)
Lemma file_ext sb n v v' d :
  sb_ok sb n -> inode_wf sb v d -> (forall x, owned v d x -> v' x = v x) ->
  (forall x, 0 <= x < sb_size sb -> used sb v x = true -> used sb v' x = true) ->
  inode_wf sb v' d /\ (forall bm, 0 <= bm < MAXFILE -> faddr v' d bm = faddr v d bm) /\
  (forall k, 0 <= k < MAXFILE * 512 -> faddr v d (k / 512) <> 0 -> fbyte v' d k = fbyte v d k).
Proof.
  intros Hsb Hw Hown Hu.
  assert (Hf : forall bm, faddr v' d bm = faddr v d bm).
  { intros bm. unfold faddr. destruct (bm <? _); [done|]. destruct (Z.eqb_spec (ind d) 0) as [|Hi]; [done|].
    rewrite Hown; [done|]. split; [done|by left]. }
  assert (Hd : forall x, data_block sb v x -> data_block sb v' x).
  { intros x Hx. split; [apply Hx|]. apply Hu; [by eapply data_range|apply Hx]. }
  split_and!; [|done|].
  - destruct Hw as [W1 W2 W3 W4 W5 W6 W7]. split; try done; try (intros *; rewrite ?Hf; auto).
  - intros k Hk Hne. unfold fbyte. rewrite Hf, Hown; [done|]. split; [done|]. right.
    exists (k / 512). split; [|done]. split; [apply Z.div_pos; lia|apply Z.div_lt_upper_bound; lia].
Qed.

Lemma file_ext_contents sb n v v' d :
  sb_ok sb n -> inode_wf sb v d -> (forall x, owned v d x -> v' x = v x) ->
  (forall x, 0 <= x < sb_size sb -> used sb v x = true -> used sb v' x = true) ->
  contents v' d = contents v d.
Proof.
  intros Hsb Hw Hown Hu. destruct (file_ext sb n v v' d Hsb Hw Hown Hu) as (_ & _ & Hb).
  apply fslice_ext. intros k Hk. pose proof (w_size _ _ _ Hw). apply Hb; [lia|].
  apply (w_full _ _ _ Hw); [apply Z.div_pos; lia|]. pose proof (Z.mul_div_le k 512). lia.
Qed.

Lemma resize_wf sb v d sz :
  inode_wf sb v d -> 0 <= sz <= MAXFILE * 512 ->
  (forall bn, 0 <= bn -> bn * 512 < sz -> faddr v d bn <> 0) -> inode_wf sb v (set_size sz d).
Proof.
  intros [W1 W2 W3 W4 W5 W6 W7] Hs Hf. split; try done.
  destruct W1. split; try done. unfold MAXFILE, W32 in *. simpl. lia.
Qed.

(** ** Writing bytes *)

(** From ([v], [di]) to ([v'], [di']), [data] has been written at offset [off] into the
    blocks of the file; its size has not been changed yet. *)
Record wrote (sb : superblock) (v v' : Z -> block) (di di' : dinode) (data : list Z) (off : Z) : Prop := mk_wrote {
  wr_ev : evolves sb v v' di di';
  wr_map k : off <= k < off + Z.of_nat (length data) -> faddr v' di' (k / 512) <> 0;
  wr_in k : off <= k < off + Z.of_nat (length data) -> fbyte v' di' k = byte_at data (Z.to_nat (k - off));
  wr_out k : 0 <= k < MAXFILE * 512 -> ~ off <= k < off + Z.of_nat (length data) ->
    faddr v di (k / 512) <> 0 -> fbyte v' di' k = fbyte v di k;
  wr_same : off + Z.of_nat (length data) <= di_size di -> di' = di
}.

Lemma blk_range k : 0 <= k < MAXFILE * 512 -> 0 <= k / 512 < MAXFILE.
Proof. intros Hk. split; [apply Z.div_pos; lia|]. apply Z.div_lt_upper_bound; lia. Qed.

Lemma wrote_nil sb v di off : inode_wf sb v di -> meta_used sb v -> wrote sb v v di di [] off.
Proof. intros Hw Hm. split; simpl; try done; try lia. by apply evolves_refl. Qed.

Lemma wrote_app sb n v1 v2 v3 d1 d2 d3 x y off :
  sb_ok sb n -> 0 <= off -> off + Z.of_nat (length x + length y) <= MAXFILE * 512 ->
  wrote sb v1 v2 d1 d2 x off -> wrote sb v2 v3 d2 d3 y (off + Z.of_nat (length x)) ->
  wrote sb v1 v3 d1 d3 (x ++ y) off.
Proof.
  intros Hsb Ho Hmax [A1 A2 A3 A4 A5] [B1 B2 B3 B4 B5].
  assert (Hk : forall k, off <= k < off + Z.of_nat (length x) -> 0 <= k < MAXFILE * 512) by lia.
  split; rewrite ?length_app.
  - by eapply evolves_trans.
  - intros k Hr. destruct (decide (k < off + Z.of_nat (length x))) as [Hlt|Hge]; [|apply B2; lia].
    rewrite (ev_addr _ _ _ _ _ B1); [apply A2; lia|apply blk_range, Hk; lia|apply A2; lia].
  - intros k Hr. unfold byte_at. destruct (decide (k < off + Z.of_nat (length x))) as [Hlt|Hge].
    + rewrite lookup_app_l by lia. rewrite B4; [apply A3; lia|apply Hk; lia|lia|apply A2; lia].
    + rewrite lookup_app_r by lia. rewrite B3 by lia. unfold byte_at. do 2 f_equal. lia.
  - intros k Hr Hno Hne. rewrite B4; [apply A4; [done|lia|done]|done|lia|].
    rewrite (ev_addr _ _ _ _ _ A1); [done|by apply blk_range|done].
  - intros Hs. assert (d2 = d1) as -> by (apply A5; lia). apply B5. lia.
Qed.

(** One block: [bmap] has led to block [y], and [x] has been copied into it. *)
Lemma wrote_block sb n v v1 di d1 off y x :
  sb_ok sb n -> evolves sb v v1 di d1 -> 0 <= off < MAXFILE * 512 ->
  faddr v1 d1 (off / 512) = y -> y <> 0 -> length (v1 y) = BSIZE ->
  (forall bm, 0 <= bm < MAXFILE -> faddr v di bm <> 0 -> v1 (faddr v di bm) = v (faddr v di bm)) ->
  (faddr v di (off / 512) <> 0 -> d1 = di) -> inode_wf sb v di ->
  (0 < length x)%nat -> off mod 512 + Z.of_nat (length x) <= 512 ->
  wrote sb v (disk_write v1 (y, list_inserts (Z.to_nat (off mod 512)) x (v1 y))) di d1 x off.
Proof.
  intros Hsb Hev Hoff Hy Hy0 Hl Hdata Hhit Hw0 Hx Hm. set (v2 := disk_write _ _).
  pose proof (ev_wf _ _ _ _ _ Hev) as Hw. pose proof (blk_range off Hoff) as Hbn.
  pose proof (Z.mod_pos_bound off 512) as Hmod. pose proof (Z.div_mod off 512) as Hdm.
  assert (Hdy : data_block sb v1 y) by (rewrite <-Hy in *; by apply (w_addr _ _ _ Hw)).
  assert (Hv2 : forall z, z <> y -> v2 z = v1 z).
  { intros z Hz. unfold v2, disk_write. simpl. by rewrite (proj2 (Z.eqb_neq _ _) Hz). }
  assert (Hv2y : v2 y = list_inserts (Z.to_nat (off mod 512)) x (v1 y)).
  { unfold v2, disk_write. simpl. by rewrite Z.eqb_refl. }
  assert (Hf : forall bm, faddr v2 d1 bm = faddr v1 d1 bm).
  { intros bm. unfold faddr. destruct (bm <? _); [done|]. destruct (Z.eqb_spec (ind d1) 0) as [|Hi]; [done|].
    rewrite Hv2; [done|]. rewrite <-Hy. intros E. by destruct (w_ind_ne _ _ _ Hw _ Hbn Hi). }
  assert (Hu : forall z, 0 <= z < sb_size sb -> used sb v2 z = used sb v1 z).
  { intros z Hz. eapply used_ext; [done..|]. intros w Hwz. apply Hv2. destruct Hdy. lia. }
  assert (Hev2 : evolves sb v1 v2 d1 d1).
  { apply (grow_same sb n Hsb _ _ _ _ Hw); try done; [apply Hw| | | | |].
    - intros z Hz. rewrite Hu; [by apply (ev_meta _ _ _ _ _ Hev)|]. pose proof (so_data _ _ Hsb). lia.
    - intros z Hz. by rewrite Hu.
    - intros z Hz. apply Hv2. pose proof (dstart_bounds _ _ Hsb). destruct Hdy. lia.
    - intros z Hz Hno. apply Hv2. intros ->. apply Hno. split; [done|]. right. eauto.
    - by left. }
  assert (Hq : forall k, off <= k < off + Z.of_nat (length x) -> k / 512 = off / 512 /\ k mod 512 = off mod 512 + (k - off)).
  { intros k Hk. split; symmetry;
      [apply (Z.div_unique_pos _ _ _ (off mod 512 + (k - off)))|apply (Z.mod_unique_pos _ _ (off / 512))]; lia. }
  split.
  - by eapply evolves_trans.
  - intros k Hk. rewrite Hf. rewrite (proj1 (Hq k Hk)), Hy. done.
  - intros k Hk. unfold fbyte. rewrite Hf. destruct (Hq k Hk) as [-> ->]. rewrite Hy, Hv2y.
    rewrite byte_at_inserts by (rewrite Hl; unfold BSIZE; lia). rewrite decide_True by lia. f_equal. lia.
  - intros k Hk Hno Hne. pose proof (blk_range k Hk) as Hkb. pose proof (Z.mod_pos_bound k 512).
    unfold fbyte. rewrite Hf, (ev_addr _ _ _ _ _ Hev) by done. rewrite <-Hdata by done.
    rewrite <-(ev_addr _ _ _ _ _ Hev) by done.
    destruct (Z.eq_dec (k / 512) (off / 512)) as [E|E].
    + rewrite E, Hy, Hv2y, byte_at_inserts by (rewrite Hl; unfold BSIZE; lia). rewrite decide_False; [done|].
      pose proof (Z.div_mod k 512). intros Hin. apply Hno. lia.
    + rewrite Hv2; [done|]. rewrite <-Hy. intros E'. destruct E. eapply (w_inj _ _ _ Hw); try done.
      rewrite E', Hy. done.
  - intros Hs. apply Hhit. apply (w_full _ _ _ Hw0); [lia|]. lia.
Qed.

Section rw.
Context {T : Type} `{Tx T} (devsw : Z -> @dev_ops T).
Implicit Types (s : fs T) (a : tabs).

Lemma wp_readi_loop fuel s a ip off n tot acc (Q : list Z -> fs T -> Prop) :
  ready_ip s a ip -> (size (t_logged a) < t_cap a)%nat ->
  0 <= off -> 0 <= tot <= n -> off + (n - tot) <= di_size (i_di (f_inode s ip)) ->
  (Z.to_nat (n - tot) < fuel)%nat ->
  (forall t, t_rel t a -> Q (acc ++ fslice (t_view a) (i_di (f_inode s ip)) off (n - tot)) (with_tx t s)) ->
  wp (readi_loop fuel ip off n tot acc) Q s.
Proof.
  revert s off tot acc. induction fuel as [|k IH]; intros s off tot acc [R Hh Hsb Hm Hdev Hw] Hc Ho Ht Hs Hf HQ; [lia|].
  simpl readi_loop. destruct (Z.ltb_spec tot n) as [Hlt|Hge].
  2:{ apply wp_ret. assert (n - tot = 0) as E by lia. rewrite E in HQ. specialize (HQ _ R).
      unfold fslice in HQ. simpl in HQ. rewrite app_nil_r in HQ. by destruct s. }
  change (Z.of_nat BSIZE) with 512 in *. pose proof (Z.mod_pos_bound off 512) as Hmod.
  set (di := i_di (f_inode s ip)) in *. set (m := Z.min (n - tot) (512 - off mod 512)).
  assert (Hbn : 0 <= off / 512 < MAXFILE).
  { pose proof (w_size _ _ _ Hw). split; [apply Z.div_pos; lia|]. apply Z.div_lt_upper_bound; lia. }
  assert (Hne : faddr (t_view a) di (off / 512) <> 0).
  { apply (w_full _ _ _ Hw); [lia|]. pose proof (Z.mul_div_le off 512). lia. }
  pose proof (data_range _ _ _ _ Hsb (w_addr _ _ _ Hw _ Hbn Hne)) as Hr. pose proof (so_size _ _ Hsb).
  unfold iget_field. wp_steps. rewrite Hdev. apply (wp_bmap_hit s a); try done. intros t1 R1. wp_steps.
  apply (wp_f_bread _ a); [done|fold di; lia|by apply held_empty_free|rewrite Hh, map_size_empty; lia|].
  intros i t2 Hi R2. wp_steps. eapply (wp_f_data (with_tx t2 (with_tx t1 s)) a i); [exact R2|]. wp_steps.
  eapply (wp_f_brelse _ a i); [exact R2|done|]. intros t3 R3.
  apply (IH (with_tx t3 s)); [by split|done|lia|lia|cbn [f_inode with_tx]; fold di; lia|lia|].
  intros t R'. cbn [f_inode with_tx]. fold di. unfold m. rewrite fslice_block; [|by apply (t_view_ok _ _ _ R); lia|lia|lia].
  fold m. rewrite <-app_assoc, <-fslice_app by lia. replace (m + (n - (tot + m))) with (n - tot) by lia.
  by apply HQ.
Qed.

(** [readi] on a file or a directory. *)
Lemma wp_readi s a ip off n (Q : Z * list Z -> fs T -> Prop) :
  ready_ip s a ip -> (size (t_logged a) < t_cap a)%nat -> di_type (i_di (f_inode s ip)) <> T_DEV ->
  0 <= off <= di_size (i_di (f_inode s ip)) -> 0 <= n -> off + n < W32 ->
  (let n' := Z.min n (di_size (i_di (f_inode s ip)) - off) in
   forall t, t_rel t a -> Q (n', fslice (t_view a) (i_di (f_inode s ip)) off n') (with_tx t s)) ->
  wp (readi devsw ip off n) Q s.
Proof.
  intros Hr Hc Hty Ho Hn Hw HQ. unfold readi, iget_field. wp_steps.
  pose proof (w_size _ _ _ (ri_wf _ _ _ Hr)) as Hsz. set (di := i_di (f_inode s ip)) in *. unfold id. fold di.
  rewrite (proj2 (Z.eqb_neq _ _) Hty). unfold MAXFILE, NDIRECT, NINDIRECT in Hsz. simpl in Hsz.
  rewrite (proj2 (Z.ltb_ge _ _)) by lia. rewrite u32_small by lia.
  rewrite (proj2 (Z.ltb_ge _ _)) by lia. cbn [orb].
  assert (E : (if di_size di <? off + n then di_size di - off else n) = Z.min n (di_size di - off)).
  { destruct (Z.ltb_spec (di_size di) (off + n)); lia. }
  rewrite E. set (n' := Z.min _ _) in *. wp_steps.
  apply (wp_readi_loop _ s a); [done|done|lia|lia|fold di; lia|lia|]. intros t R.
  apply wp_ret. fold di. rewrite Z.sub_0_r. cbn [app]. rewrite i32_small by lia. by apply HQ.
Qed.

(** ** The inode block *)

(** Inode [inum] as it is on the disk. *)
Definition disk_inode sb (v : Z -> block) (inum : Z) : dinode := get_dinode (v (IBLOCK inum sb)) (di_off inum).

Lemma disk_inode_put sb n v x d i :
  sb_ok sb n -> block_ok (v (IBLOCK i sb)) -> 0 <= i < sb_ninodes sb -> 0 <= x < sb_ninodes sb -> dinode_ok d ->
  disk_inode sb (disk_write v (IBLOCK i sb, put_dinode (v (IBLOCK i sb)) (di_off i) d)) x =
  if x =? i then d else disk_inode sb v x.
Proof.
  intros Hsb [Hl _] Hi Hx Hd. unfold disk_inode, disk_write. simpl.
  assert (Ho : forall j, 0 <= j -> (di_off j + 64 <= BSIZE)%nat).
  { intros j Hj. unfold di_off, IPB, BSIZE. pose proof (Z.mod_pos_bound j 8). lia. }
  destruct (Z.eqb_spec x i) as [->|Hne].
  - rewrite Z.eqb_refl. apply get_put_dinode; [|done]. rewrite Hl. apply Ho. lia.
  - destruct (Z.eqb_spec (IBLOCK x sb) (IBLOCK i sb)) as [E|]; [|done]. rewrite E.
    destruct (IBLOCK_range _ _ _ Hsb Hi) as [Ei _], (IBLOCK_range _ _ _ Hsb Hx) as [Ex _].
    assert (x mod IPB <> i mod IPB).
    { unfold IPB in *. pose proof (Z.div_mod x 8). pose proof (Z.div_mod i 8). lia. }
    apply get_dinode_bytes. intros k Hk. apply byte_at_put_dinode; [rewrite Hl; apply Ho; lia|apply Hd|].
    unfold di_off in *. unfold IPB in *. pose proof (Z.mod_pos_bound x 8). pose proof (Z.mod_pos_bound i 8). lia.
Qed.

Lemma wp_iupdate s a ip (Q : unit -> fs T -> Prop) :
  let b := IBLOCK (i_inum (f_inode s ip)) (f_sb s) in
  t_rel (f_tx s) a -> t_held a = ∅ -> sb_ok (f_sb s) (t_size a) -> i_dev (f_inode s ip) = t_dev ->
  0 <= i_inum (f_inode s ip) < sb_ninodes (f_sb s) -> (size (t_logged a) < t_cap a)%nat ->
  (forall t, t_rel t (t_with (disk_write (t_view a)
       (b, put_dinode (t_view a b) (di_off (i_inum (f_inode s ip))) (i_di (f_inode s ip))))
       (t_logged a ∪ {[b]}) a) -> Q tt (with_tx t s)) ->
  wp (iupdate ip) Q s.
Proof.
  intros b R Hh Hsb Hdev Hi Hc HQ. unfold iupdate, iget_field. wp_steps. unfold id. rewrite Hdev. fold b.
  pose proof (proj2 (IBLOCK_range _ _ _ Hsb Hi)) as Hb. fold b in Hb.
  assert (Hr : 0 <= b < t_size a) by (destruct Hsb as [? ? ? ? ?]; pose proof (dstart_bounds _ _ (ltac:(by split) : sb_ok (f_sb s) (t_size a))); lia).
  apply (wp_f_bread s a); [done|done|by apply held_empty_free|rewrite Hh, map_size_empty; lia|].
  intros i t1 Hi1 R1. wp_steps.
  apply (wp_f_update (with_tx t1 s) a i b (t_view a b)
    (fun d => put_dinode d (di_off (i_inum (f_inode s ip))) (i_di (f_inode s ip)))); [done|
    apply block_ok_put_dinode, (t_view_ok _ _ _ R Hr)|].
  intros t2 R2. wp_steps. eapply (wp_f_log _ a i b); [exact R2|done|]. intros t3 R3.
  eapply (wp_f_done _ a i b); [exact R3|done|]. intros t4 R4. by apply HQ.
Qed.

(** ** [writei] *)

(** The number of blocks that bytes [off, off + len) lie in. *)
Definition nblk (off len : Z) : nat := if len <=? 0 then 0%nat else Z.to_nat ((off + len - 1) / 512 - off / 512 + 1).

Lemma nblk_step off len : 0 <= off -> 0 < len ->
  let m := Z.min len (512 - off mod 512) in nblk off len = S (nblk (off + m) (len - m)).
Proof.
  intros Ho Hlen m. pose proof (Z.mod_pos_bound off 512). pose proof (Z.div_mod off 512).
  assert (Hle : off / 512 <= (off + len - 1) / 512) by (apply Z.div_le_mono; lia).
  unfold nblk. rewrite (proj2 (Z.leb_gt _ _)) by lia. destruct (Z.leb_spec (len - m) 0) as [Hz|Hz].
  - assert (E : (off + len - 1) / 512 = off / 512); [|rewrite E; lia].
    symmetry. apply (Z.div_unique_pos _ _ _ (off mod 512 + len - 1)); lia.
  - assert (Em : m = 512 - off mod 512) by lia.
    assert (E : (off + m) / 512 = off / 512 + 1) by (symmetry; apply (Z.div_unique_pos _ _ _ 0); lia).
    replace (off + m + (len - m) - 1) with (off + len - 1) by lia. rewrite E.
    assert ((off + m) / 512 <= (off + len - 1) / 512) by (apply Z.div_le_mono; lia). lia.
Qed.

Lemma nblk_bound off len : 0 <= off -> 0 <= len -> Z.of_nat (nblk off len) <= len / 512 + 2.
Proof.
  intros Ho Hlen. unfold nblk. assert (0 <= len / 512) by (apply Z.div_pos; lia).
  destruct (Z.leb_spec len 0); [lia|]. pose proof (Z.div_mod len 512). pose proof (Z.div_mod off 512).
  pose proof (Z.mod_pos_bound off 512). pose proof (Z.mod_pos_bound len 512).
  assert ((off + len - 1) / 512 <= off / 512 + len / 512 + 1); [|lia].
  apply Z.lt_succ_r, Z.div_lt_upper_bound; lia.
Qed.

Record wrote_to s a (ip : nat) (data : list Z) (off : Z) (L : gset Z) s' a' : Prop := mk_wrote_to {
  wt_ready : ready_ip s' a' ip;
  wt_cap : t_cap a' = t_cap a;
  wt_size : t_size a' = t_size a;
  wt_touch : touches ip s s';
  wt_wrote : wrote (f_sb s) (t_view a) (t_view a') (i_di (f_inode s ip)) (i_di (f_inode s' ip)) data off;
  wt_log : exists D, (size D <= nblk off (Z.of_nat (length data)))%nat /\
    t_logged a' ⊆ L ∪ indset (i_di (f_inode s' ip)) ∪ D
}.

Section write.
Context (P : string -> Prop) (Hfull : P "balloc: out of blocks"%string).

(** One round of the loop. *)
Lemma wpx_write_block {A} s a ip x off L (k : M (fs T) A) (Q : A -> fs T -> Prop) :
  ready_ip s a ip -> bm_set (f_sb s) ⊆ L -> t_logged a ⊆ L ∪ indset (i_di (f_inode s ip)) ->
  (size L + 5 <= t_cap a)%nat -> 0 <= off < MAXFILE * 512 ->
  (0 < length x)%nat -> off mod 512 + Z.of_nat (length x) <= 512 -> Forall (fun b => 0 <= b < 256) x ->
  (forall y s' a', wrote_to s a ip x off L s' a' -> t_logged a' ⊆ L ∪ {[y]} ∪ indset (i_di (f_inode s' ip)) ->
     wpx P k Q s') ->
  wpx P (let! addr := bmap ip (off / 512) in
         let! bp := tx (t_bread (i_dev (f_inode s ip)) addr) in
         tx (modify (fun t => t_set_data bp (list_inserts (Z.to_nat (off mod 512)) x (t_data bp t)) t)) ;;;
         tx (t_log_write bp) ;;; tx (t_brelse bp) ;;; k) Q s.
Proof.
  intros Hready HL Hlog Hc Ho Hx Hm Hb HQ. pose proof Hready as [R Hh Hsb Hmeta Hdev Hw]. rewrite Hdev.
  pose proof (blk_range off Ho) as Hbn. pose proof (Z.mod_pos_bound off 512).
  assert (Hs1 : (size (t_logged a ∪ bm_set (f_sb s)) <= size L + 1)%nat).
  { etrans; [apply (subseteq_size _ (L ∪ indset (i_di (f_inode s ip)))); clear -HL Hlog; set_solver|].
    apply size_add_indset. }
  apply wpx_bind, (wpx_bmap P Hfull s a); [done|done|lia|]. intros y s1 a1 Hbm.
  pose proof (bmapped_ready _ _ _ _ _ _ _ Hready Hbm) as Hr1.
  pose proof Hbm as [B1 B2 B3 B4 B5 B6 B7 B8 B9 B10 B11 B12 B13].
  pose proof (ev_wf _ _ _ _ _ B6) as Hw1. pose proof (to_sb _ _ _ B5) as Esb.
  set (di := i_di (f_inode s ip)) in *. set (d1 := i_di (f_inode s1 ip)) in *.
  assert (Hl1 : t_logged a1 ⊆ L ∪ {[y]} ∪ indset d1).
  { pose proof (indset_mono _ _ _ _ _ B6) as Hi. clear -B13 Hlog HL Hi. set_solver. }
  assert (Hs2 : (size (t_logged a1) <= size L + 2)%nat).
  { etrans; [apply (subseteq_size _ _ Hl1)|]. pose proof (size_add_indset (L ∪ {[y]}) d1).
    pose proof (size_add_le L y). lia. }
  assert (Hdy : data_block (f_sb s) (t_view a1) y) by (rewrite <-B7 in *; by apply (w_addr _ _ _ Hw1)).
  assert (Hry : 0 <= y < t_size a1).
  { pose proof (data_range _ _ _ _ Hsb Hdy). pose proof (so_size _ _ Hsb). rewrite B4. lia. }
  assert (Hok : block_ok (t_view a1 y)) by (by apply (t_view_ok _ _ _ B1)).
  apply wpx_bind, wpx_wp, (wp_f_bread s1 a1); [done|done|by apply held_empty_free|rewrite B2, map_size_empty; lia|].
  intros i t1 Hi R1.
  apply wpx_bind, wpx_wp, (wp_f_update (with_tx t1 s1) a1 i y (t_view a1 y) (fun d => list_inserts (Z.to_nat (off mod 512)) x d)); [done| |].
  { split; [rewrite length_inserts; apply Hok|]. apply Forall_inserts; [done|apply Hok]. }
  intros t2 R2. apply wpx_bind, wpx_wp. eapply (wp_f_log _ a1 i y); [exact R2|lia|]. intros t3 R3.
  apply wpx_bind, wpx_wp. eapply (wp_f_done _ a1 i y); [exact R3|done|]. intros t4 R4.
  pose proof (wrote_block _ _ _ _ _ _ off y x Hsb B6 Ho B7 B8 (proj1 Hok) B11 B12 Hw Hx Hm) as Hwr.
  set (v2 := disk_write _ _) in *. refine (HQ y _ (t_with v2 (t_logged a1 ∪ {[y]}) a1) _ _).
  - split; cbn [f_inode f_sb f_tx with_tx t_with t_view t_cap t_size t_logged]; fold di d1; try done.
    + split; cbn [f_inode f_sb f_tx with_tx t_with t_view t_cap t_size t_logged t_held]; rewrite ?Esb; try done.
      * by rewrite B4.
      * apply (ev_meta _ _ _ _ _ (wr_ev _ _ _ _ _ _ _ Hwr)).
      * by rewrite (touches_dev _ _ _ B5).
      * apply (ev_wf _ _ _ _ _ (wr_ev _ _ _ _ _ _ _ Hwr)).
    + by do 4 apply touches_tx.
    + exists ({[y]} : gset Z). split.
      * rewrite size_singleton. pose proof (nblk_step off (Z.of_nat (length x)) ltac:(lia) ltac:(lia)) as E. cbv zeta in E. rewrite E. lia.
      * clear -Hl1. set_solver.
  - cbn [f_inode with_tx t_with t_logged]. fold d1. clear -Hl1. set_solver.
Qed.

Lemma wpx_writei_loop fuel s a ip src off n tot L (Q : Z -> fs T -> Prop) :
  ready_ip s a ip -> bm_set (f_sb s) ⊆ L -> t_logged a ⊆ L ∪ indset (i_di (f_inode s ip)) ->
  (size L + nblk off (n - tot) + 4 <= t_cap a)%nat -> 0 <= off -> 0 <= tot <= n ->
  off + (n - tot) <= MAXFILE * 512 -> n <= Z.of_nat (length src) -> Forall (fun b => 0 <= b < 256) src ->
  (Z.to_nat (n - tot) < fuel)%nat ->
  (forall s' a', wrote_to s a ip (take (Z.to_nat (n - tot)) (drop (Z.to_nat tot) src)) off L s' a' ->
     Q (off + (n - tot)) s') ->
  wpx P (writei_loop fuel ip src off n tot) Q s.
Proof.
  revert s a off tot L. induction fuel as [|k IH]; intros s a off tot L Hr HL Hlog Hc Ho Ht Hmax Hsrc Hb Hf HQ; [lia|].
  simpl writei_loop. destruct (Z.ltb_spec tot n) as [Hlt|Hge].
  2:{ apply wpx_ret. assert (E : n - tot = 0) by lia. rewrite E in *. rewrite Z.add_0_r in HQ. apply (HQ s a).
      cbn [Z.to_nat take]. split; try done; [apply touches_refl|apply wrote_nil; apply Hr|].
      exists ∅. split; [rewrite size_empty; lia|set_solver]. }
  change (Z.of_nat BSIZE) with 512. set (m := Z.min (n - tot) (512 - off mod 512)).
  pose proof (Z.mod_pos_bound off 512) as Hmod. pose proof (nblk_step off (n - tot) Ho ltac:(lia)) as Hnb. cbv zeta in Hnb. fold m in Hnb.
  set (x := take (Z.to_nat m) (drop (Z.to_nat tot) src)).
  assert (Hlx : length x = Z.to_nat m) by (unfold x; rewrite length_take, length_drop; lia).
  apply wpx_bind, wpx_wp. unfold iget_field. apply wp_gets.
  apply (wpx_write_block s a ip x off L); [done|done|done|lia|lia|lia|lia|by apply Forall_take, Forall_drop|].
  intros y s1 a1 [W1 W2 W3 W4 W5 W6] Hl1. pose proof (to_sb _ _ _ W4) as Esb.
  apply (IH s1 a1 _ _ (L ∪ {[y]})); [done|rewrite Esb; clear -HL; set_solver|exact Hl1| |lia..|lia|done|lia|].
  { replace (n - (tot + m)) with (n - tot - m) by lia. pose proof (size_add_le L y). rewrite W2. lia. }
  intros s2 a2 [V1 V2 V3 V4 V5 V6]. replace (off + m + (n - (tot + m))) with (off + (n - tot)) by lia.
  apply (HQ s2 a2). rewrite Esb in V5.
  assert (Ex : take (Z.to_nat (n - tot)) (drop (Z.to_nat tot) src) =
    x ++ take (Z.to_nat (n - (tot + m))) (drop (Z.to_nat (tot + m)) src)).
  { unfold x. replace (Z.to_nat (tot + m)) with (Z.to_nat tot + Z.to_nat m)%nat by lia. rewrite <-drop_drop.
    rewrite <-(take_drop (Z.to_nat m) (drop (Z.to_nat tot) src)) at 1. rewrite take_app.
    rewrite length_take, length_drop. rewrite take_take. f_equal; f_equal; lia. }
  rewrite Ex. set (z := take (Z.to_nat (n - (tot + m))) _) in *.
  assert (Hlz : length z = Z.to_nat (n - tot - m)) by (unfold z; rewrite length_take, length_drop; lia).
  split; try done.
  - congruence.
  - congruence.
  - by eapply touches_trans.
  - replace (off + m) with (off + Z.of_nat (length x)) in V5 by lia.
    eapply wrote_app; [apply Hr|done|lia|exact W5|exact V5].
  - destruct V6 as (D & HD & HlD). exists ({[y]} ∪ D). split; [|clear -HlD; set_solver].
    rewrite length_app, Hlx, Hlz. rewrite Hlz in HD.
    replace (Z.of_nat (Z.to_nat m + Z.to_nat (n - tot - m))) with (n - tot) by lia.
    replace (Z.of_nat (Z.to_nat (n - tot - m))) with (n - tot - m) in HD by lia.
    rewrite (comm_L (∪)). pose proof (size_add_le D y). lia.
Qed.

(** What [writei] promises. *)
Record written s a (ip : nat) (data : list Z) (off : Z) (L : gset Z) s' a' : Prop := mk_written {
  wn_ready : ready_ip s' a' ip;
  wn_cap : t_cap a' = t_cap a;
  wn_size : t_size a' = t_size a;
  wn_touch : touches ip s s';
  wn_contents : contents (t_view a') (i_di (f_inode s' ip)) = splice off data (contents (t_view a) (i_di (f_inode s ip)));
  wn_len : di_size (i_di (f_inode s' ip)) = Z.max (di_size (i_di (f_inode s ip))) (off + Z.of_nat (length data));
  wn_type : di_type (i_di (f_inode s' ip)) = di_type (i_di (f_inode s ip));
  wn_nlink : di_nlink (i_di (f_inode s' ip)) = di_nlink (i_di (f_inode s ip));
  wn_other dj : inode_wf (f_sb s) (t_view a) dj ->
    (forall x, owned (t_view a) (i_di (f_inode s ip)) x -> owned (t_view a) dj x -> False) ->
    inode_wf (f_sb s) (t_view a') dj /\ contents (t_view a') dj = contents (t_view a) dj;
  wn_disk x : 0 <= x < sb_ninodes (f_sb s) ->
    disk_inode (f_sb s) (t_view a) (i_inum (f_inode s ip)) = i_di (f_inode s ip) ->
    disk_inode (f_sb s) (t_view a') x =
      if x =? i_inum (f_inode s ip) then i_di (f_inode s' ip) else disk_inode (f_sb s) (t_view a) x;
  wn_log : (size (t_logged a') <= size L + nblk off (Z.of_nat (length data)) + 2)%nat
}.

Lemma wrote_bytes sb n v v' di di' data off k :
  sb_ok sb n -> inode_wf sb v di -> wrote sb v v' di di' data off -> 0 <= k < di_size di ->
  ~ off <= k < off + Z.of_nat (length data) -> fbyte v' di' k = fbyte v di k.
Proof.
  intros Hsb Hw Hwr Hk Hno. pose proof (w_size _ _ _ Hw). apply (wr_out _ _ _ _ _ _ _ Hwr); [lia|done|].
  apply (w_full _ _ _ Hw); [apply Z.div_pos; lia|]. pose proof (Z.mul_div_le k 512). lia.
Qed.

Lemma wrote_other sb n v v' di di' data off dj :
  sb_ok sb n -> wrote sb v v' di di' data off -> inode_wf sb v dj ->
  (forall x, owned v di x -> owned v dj x -> False) -> forall x, owned v dj x -> v' x = v x.
Proof.
  intros Hsb Hwr Hj Hdis x Hx. apply (ev_frame _ _ _ _ _ (wr_ev _ _ _ _ _ _ _ Hwr)).
  - by eapply owned_data.
  - intros Hx'. by eapply Hdis.
Qed.

Lemma logged_bound (X L D : gset Z) di k :
  X ⊆ L ∪ indset di ∪ D -> (size D <= k)%nat -> (size X <= size L + k + 1)%nat.
Proof.
  intros HX HD. etrans; [apply (subseteq_size _ _ HX)|]. rewrite size_union_alt.
  assert (Hs : D ∖ (L ∪ indset di) ⊆ D) by set_solver. apply subseteq_size in Hs.
  pose proof (size_add_indset L di). lia.
Qed.

(** Nothing grew: the inode need not be written. *)
Lemma written_same s a ip data off L s' a' :
  ready_ip s a ip -> 0 <= off <= di_size (i_di (f_inode s ip)) ->
  off + Z.of_nat (length data) <= di_size (i_di (f_inode s ip)) \/ length data = 0%nat ->
  0 <= i_inum (f_inode s ip) < sb_ninodes (f_sb s) ->
  wrote_to s a ip data off L s' a' -> written s a ip data off L s' a'.
Proof.
  intros [R Hh Hsb Hmeta Hdev Hw] Ho Hle Hinum [W1 W2 W3 W4 W5 (D & HD & HlD)].
  assert (Hdi : i_di (f_inode s' ip) = i_di (f_inode s ip)) by (apply (wr_same _ _ _ _ _ _ _ W5); lia).
  pose proof (wr_ev _ _ _ _ _ _ _ W5) as Hev.
  split; try done.
  - apply contents_splice; [done|rewrite Hdi; lia|by apply W5|]. intros k Hk Hno. by eapply wrote_bytes.
  - rewrite Hdi. lia.
  - by rewrite Hdi.
  - by rewrite Hdi.
  - intros dj Hj Hdis. pose proof (wrote_other _ _ _ _ _ _ _ _ dj Hsb W5 Hj Hdis) as Hown.
    split; [eapply file_ext; [done|exact Hj|exact Hown|by apply Hev]|].
    eapply file_ext_contents; [done|exact Hj|exact Hown|by apply Hev].
  - intros x Hx Hd. destruct (IBLOCK_range _ _ _ Hsb Hx) as [_ Hb]. 
    assert (E : disk_inode (f_sb s) (t_view a') x = disk_inode (f_sb s) (t_view a) x).
    { unfold disk_inode. rewrite (ev_low _ _ _ _ _ Hev); [done|lia]. }
    rewrite E. destruct (Z.eqb_spec x (i_inum (f_inode s ip))) as [->|]; [|done]. by rewrite Hd, Hdi.
  - pose proof (logged_bound _ _ _ _ _ HlD HD). lia.
Qed.

(** The file grew: the new size and the inode are written. *)
Lemma written_grow s a ip data off L s1 a1 t :
  let sz := off + Z.of_nat (length data) in
  let d' := set_size sz (i_di (f_inode s1 ip)) in
  let b := IBLOCK (i_inum (f_inode s ip)) (f_sb s) in
  let v' := disk_write (t_view a1) (b, put_dinode (t_view a1 b) (di_off (i_inum (f_inode s ip))) d') in
  ready_ip s a ip -> 0 <= off <= di_size (i_di (f_inode s ip)) -> di_size (i_di (f_inode s ip)) < sz ->
  sz <= MAXFILE * 512 -> 0 <= i_inum (f_inode s ip) < sb_ninodes (f_sb s) ->
  wrote_to s a ip data off L s1 a1 ->
  t_rel t (t_with v' (t_logged a1 ∪ {[b]}) a1) ->
  written s a ip data off L (with_tx t (i_put ip (i_set_di d' (f_inode s1 ip)) s1)) (t_with v' (t_logged a1 ∪ {[b]}) a1).
Proof.
  intros sz d' b v' [R Hh Hsb Hmeta Hdev Hw] Ho Hgrow Hmax Hinum [W1 W2 W3 W4 W5 (D & HD & HlD)] Rt.
  pose proof (wr_ev _ _ _ _ _ _ _ W5) as Hev. pose proof (ev_wf _ _ _ _ _ Hev) as Hw1.
  pose proof (to_sb _ _ _ W4) as Esb. destruct (IBLOCK_range _ _ _ Hsb Hinum) as [_ Hb]. fold b in Hb.
  pose proof (dstart_bounds _ _ Hsb) as Hds.
  assert (Hv' : forall x, x <> b -> v' x = t_view a1 x).
  { intros x Hx. unfold v', disk_write. simpl. by rewrite (proj2 (Z.eqb_neq _ _) Hx). }
  assert (Hu : forall x, 0 <= x < sb_size (f_sb s) -> used (f_sb s) v' x = used (f_sb s) (t_view a1) x).
  { intros x Hx. eapply used_ext; [done..|]. intros z Hz. apply Hv'. lia. }
  assert (Hlow : forall d x, inode_wf (f_sb s) (t_view a1) d -> owned (t_view a1) d x -> v' x = t_view a1 x).
  { intros d x Hd Hx. apply Hv'. destruct (owned_data _ _ _ _ Hd Hx). lia. }
  assert (Hwd : inode_wf (f_sb s) (t_view a1) d').
  { apply resize_wf; [done|lia|]. intros bn Hbn Hlt.
    destruct (Z.lt_ge_cases (bn * 512) (di_size (i_di (f_inode s ip)))) as [Hl|Hl].
    - assert (bn < MAXFILE) by (unfold MAXFILE in *; lia).
      rewrite (ev_addr _ _ _ _ _ Hev); [by apply (w_full _ _ _ Hw)|lia|by apply (w_full _ _ _ Hw)].
    - replace bn with (bn * 512 / 512) by (apply Z.div_mul; lia). apply (wr_map _ _ _ _ _ _ _ W5). unfold sz in *; lia. }
  assert (Hmono : forall x, 0 <= x < sb_size (f_sb s) -> used (f_sb s) (t_view a1) x = true -> used (f_sb s) v' x = true)
    by (intros x Hx; by rewrite Hu).
  destruct (file_ext _ _ _ v' d' Hsb Hwd (fun x => Hlow d' x Hwd) Hmono) as (Hwd' & Hfd & Hbd).
  assert (Hbyte : forall k, 0 <= k < MAXFILE * 512 -> faddr (t_view a1) (i_di (f_inode s1 ip)) (k / 512) <> 0 ->
    fbyte v' d' k = fbyte (t_view a1) (i_di (f_inode s1 ip)) k) by exact Hbd.
  set (s' := with_tx t _). assert (Hdi : i_di (f_inode s' ip) = d') by (unfold s'; simpl; by rewrite fupd_eq).
  destruct (ev_file _ _ _ _ _ Hev) as (F1 & F2 & F3 & F4 & F5).
  assert (Hfull' : forall k, 0 <= k < di_size (i_di (f_inode s ip)) -> faddr (t_view a1) (i_di (f_inode s1 ip)) (k / 512) <> 0).
  { intros k Hk. apply (w_full _ _ _ Hw1); [apply Z.div_pos; lia|]. rewrite F5. pose proof (Z.mul_div_le k 512). lia. }
  assert (Ht : touches ip s s') by (by apply touches_tx, touches_di).
  assert (Hokb : block_ok (t_view a1 b)).
  { apply (t_view_ok _ _ _ (ri_rel _ _ _ W1)). pose proof (so_size _ _ Hsb). pose proof (so_inode _ _ Hsb). pose proof (so_data _ _ Hsb). rewrite W3. lia. }
  split; rewrite ?Hdi; cbn [t_with t_view t_logged t_cap t_size]; try done.
  - split; rewrite ?Hdi; cbn [t_with t_view t_logged t_size t_held f_tx s' with_tx f_sb i_put]; rewrite ?Esb; try done.
    + apply W1.
    + by rewrite W3.
    + intros x Hx. rewrite Hu; [by apply (ev_meta _ _ _ _ _ Hev)|]. pose proof (so_data _ _ Hsb). lia.
    + by rewrite (touches_dev _ _ _ Ht).
  - apply contents_splice; [done|simpl; lia| |].
    + intros k Hk. rewrite Hbyte; [by apply (wr_in _ _ _ _ _ _ _ W5)|lia|by apply (wr_map _ _ _ _ _ _ _ W5)].
    + intros k Hk Hno. rewrite Hbyte; [by eapply wrote_bytes|lia|by apply Hfull'].
  - simpl. lia.
  - intros dj Hj Hdis. pose proof (wrote_other _ _ _ _ _ _ _ _ dj Hsb W5 Hj Hdis) as Hown.
    assert (Hown' : forall x, owned (t_view a) dj x -> v' x = t_view a x).
    { intros x Hx. rewrite Hv'; [by apply Hown|]. destruct (owned_data _ _ _ _ Hj Hx). lia. }
    assert (Hu' : forall x, 0 <= x < sb_size (f_sb s) -> used (f_sb s) (t_view a) x = true -> used (f_sb s) v' x = true).
    { intros x Hx Hux. rewrite Hu by done. by apply (ev_used _ _ _ _ _ Hev). }
    split; [by eapply file_ext|by eapply file_ext_contents].
  - intros x Hx Hd. unfold v', b. rewrite (disk_inode_put _ _ _ x _ _ Hsb); [|exact Hokb|done|done|apply Hwd].
    destruct (x =? _); [done|]. destruct (IBLOCK_range _ _ _ Hsb Hx) as [_ Hbx].
    unfold disk_inode. rewrite (ev_low _ _ _ _ _ Hev); [done|lia].
  - pose proof (logged_bound _ _ _ _ _ HlD HD). pose proof (size_add_le (t_logged a1) b). lia.
Qed.

(** [writei] on a file or a directory. *)
Lemma wpx_writei s a ip src off n L (Q : Z -> fs T -> Prop) :
  ready_ip s a ip -> di_type (i_di (f_inode s ip)) <> T_DEV ->
  0 <= i_inum (f_inode s ip) < sb_ninodes (f_sb s) ->
  0 <= off <= di_size (i_di (f_inode s ip)) -> 0 <= n -> off + n <= MAXFILE * 512 ->
  n <= Z.of_nat (length src) -> Forall (fun b => 0 <= b < 256) src ->
  bm_set (f_sb s) ⊆ L -> t_logged a ⊆ L -> (size L + nblk off n + 4 <= t_cap a)%nat ->
  (forall s' a', written s a ip (take (Z.to_nat n) src) off L s' a' -> Q n s') ->
  wpx P (writei devsw ip src off n) Q s.
Proof.
  intros Hr Hty Hinum Ho Hn Hmax Hsrc Hb HL Hlog Hc HQ.
  unfold writei, iget_field. apply wpx_bind, wpx_gets. unfold id. rewrite (proj2 (Z.eqb_neq _ _) Hty).
  assert (HM : MAXFILE * 512 = 71680) by reflexivity. change (Z.of_nat BSIZE) with 512.
  rewrite (proj2 (Z.ltb_ge _ _)) by lia. rewrite u32_small by (unfold W32; lia).
  rewrite (proj2 (Z.ltb_ge _ _)) by lia. cbn [orb]. rewrite (proj2 (Z.ltb_ge _ _)) by lia.
  apply wpx_bind, (wpx_writei_loop _ s a ip src off n 0 L); rewrite ?Z.sub_0_r; try done; try lia;
    [clear -Hlog; set_solver|].
  intros s1 a1. rewrite drop_0. set (data := take (Z.to_nat n) src). intros Hwt.
  assert (Hld : Z.of_nat (length data) = n) by (unfold data; rewrite length_take; lia).
  apply wpx_bind, wpx_gets. apply wpx_bind, wpx_wp. rewrite i32_small by lia.
  pose proof Hwt as [W1 W2 W3 W4 W5 (D & HD & HlD)]. rewrite Hld in HD.
  destruct (ev_file _ _ _ _ _ (wr_ev _ _ _ _ _ _ _ W5)) as (_ & _ & _ & _ & Hsz). rewrite Hsz.
  destruct (Z.ltb_spec (di_size (i_di (f_inode s ip))) (off + n)) as [Hlt|Hge].
  - assert (0 < n \/ n = 0) as [Hpos|Hz] by lia.
    + rewrite (proj2 (Z.ltb_lt _ _) Hpos). cbn [andb]. apply wp_bind, wp_di_set.
      assert (Hin : i_inum (f_inode s1 ip) = i_inum (f_inode s ip)) by (by rewrite (to_inode _ _ _ W4)).
      pose proof (to_sb _ _ _ W4) as Esb.
      apply (wp_iupdate _ a1); cbn [f_tx i_put f_sb f_inode]; rewrite ?fupd_eq; cbn [i_dev i_inum i_set_di];
        rewrite ?Hin, ?Esb; [apply W1|apply W1|rewrite W3; apply Hr|apply W1|done| |].
      * pose proof (logged_bound _ _ _ _ _ HlD HD). lia.
      * intros t Rt. apply wpx_ret. eapply HQ. fold data.
        pose proof (written_grow s a ip data off L s1 a1 t) as Hgrow. cbv zeta in Hgrow. rewrite Hld in Hgrow.
        by apply Hgrow.
    + lia.
  - rewrite andb_false_r. apply wp_ret, wpx_ret. apply (HQ s1 a1). apply written_same; try done. left. fold data. lia.
Qed.
End write.
End rw.
