(* ===== verification/FsCache.v ===== *)
(** * The inode cache ([iget], [idup], [iput] of [fs.c])

    A reference to a cached inode is what [iget] and [idup] hand out and [iput] takes
    back.  The count of every entry is the number of references to it, an entry with
    references keeps its device and inode number whatever the file system calls do,
    and no two entries in use hold the same inode: two processes that name one file
    work on one copy of its inode, under one lock. *)

From S2P Require Import Prelude Spinlock Sleeplock Block Disk Layout Format Tx Fs.

(** What identifies an entry and counts its references. *)
Definition ikey (i : inode) : Z * Z * Z := (i_dev i, i_inum i, i_ref i).

Section cache.
Context {T : Type} `{!TxOps T} (me : nat) (pid : Z) (devsw : Z -> @dev_ops T).
Implicit Types (s : fs T).

(** No entry changes its identity or its count. *)
Definition same_keys s s' : Prop := forall j, ikey (f_inode s' j) = ikey (f_inode s j).

#[export] Instance same_keys_pre : PreOrder same_keys.
Proof. split; [done|]. intros s1 s2 s3 A B j. by rewrite B. Qed.

Lemma same_keys_put ip s x : ikey x = ikey (f_inode s ip) -> same_keys s (i_put ip x s).
Proof.
  intros Hx j. simpl. destruct (decide (j = ip)) as [->|Hj]; [by rewrite fupd_eq|by rewrite fupd_ne].
Qed.

Lemma keeps_tx {A} (m : M T A) : keeps same_keys (tx m).
Proof. by apply keeps_zoom. Qed.
Lemma keeps_iset ip f : (forall i, ikey (f i) = ikey i) -> keeps same_keys (iset (T := T) ip f).
Proof. intros Hf. apply keeps_modify. intros s. by apply same_keys_put. Qed.
Lemma keeps_di_set ip f : keeps same_keys (di_set (T := T) ip f).
Proof. by apply keeps_iset. Qed.
Lemma keeps_field {A} ip (f : inode -> A) : keeps same_keys (iget_field (T := T) ip f).
Proof. apply keeps_gets, _. Qed.
Lemma keeps_addr ip i : keeps same_keys (addr_get (T := T) ip i).
Proof. apply keeps_field. Qed.
Lemma keeps_lock : keeps same_keys (lock_icache (T := T) me).
Proof. by apply keeps_acquire; [apply _|]. Qed.
Lemma keeps_unlock : keeps same_keys (unlock_icache (T := T) me).
Proof. by apply keeps_release; [apply _|]. Qed.
Lemma keeps_ip_lock ip :
  keeps same_keys (ip_acquiresleep (T := T) me pid ip) /\ keeps same_keys (ip_releasesleep (T := T) me ip) /\
  keeps same_keys (ip_holdingsleep (T := T) me pid ip).
Proof.
  apply (keeps_sleeplock me pid _ _ _ same_keys); [|done]. intros x s. by apply same_keys_put.
Qed.
Lemma keeps_ip_acquire ip : keeps same_keys (ip_acquiresleep (T := T) me pid ip).
Proof. apply keeps_ip_lock. Qed.
Lemma keeps_ip_release ip : keeps same_keys (ip_releasesleep (T := T) me ip).
Proof. apply keeps_ip_lock. Qed.
Lemma keeps_ip_holding ip : keeps same_keys (ip_holdingsleep (T := T) me pid ip).
Proof. apply keeps_ip_lock. Qed.
#[local] Hint Resolve keeps_tx keeps_iset keeps_di_set keeps_field keeps_addr keeps_lock keeps_unlock
  keeps_ip_acquire keeps_ip_release keeps_ip_holding : keeps.

Lemma keeps_bzero dev b : keeps same_keys (bzero (T := T) dev b).
Proof. unfold bzero. keeps_steps. Qed.
#[local] Hint Resolve keeps_bzero : keeps.
Lemma keeps_balloc_loop fuel dev b : keeps same_keys (balloc_loop (T := T) fuel dev b).
Proof. revert b. induction fuel; intros b; cbn [balloc_loop]; keeps_steps. Qed.
#[local] Hint Resolve keeps_balloc_loop : keeps.
Lemma keeps_balloc dev : keeps same_keys (balloc (T := T) dev).
Proof. unfold balloc. keeps_steps. Qed.
Lemma keeps_bfree dev b : keeps same_keys (bfree (T := T) dev b).
Proof. unfold bfree. keeps_steps. Qed.
Lemma keeps_iupdate ip : keeps same_keys (iupdate (T := T) ip).
Proof. unfold iupdate. keeps_steps. Qed.
#[local] Hint Resolve keeps_balloc keeps_bfree keeps_iupdate : keeps.
Lemma keeps_bmap ip bn : keeps same_keys (bmap (T := T) ip bn).
Proof. unfold bmap. keeps_steps. Qed.
Lemma keeps_itrunc ip : keeps same_keys (itrunc (T := T) ip).
Proof. unfold itrunc, itrunc_direct. keeps_steps. Qed.
Lemma keeps_ilock ip : keeps same_keys (ilock (T := T) me pid ip).
Proof. unfold ilock. keeps_steps; by apply keeps_iset. Qed.
Lemma keeps_iunlock ip : keeps same_keys (iunlock (T := T) me pid ip).
Proof. unfold iunlock. keeps_steps. Qed.
#[local] Hint Resolve keeps_bmap keeps_itrunc : keeps.

(** The device drivers give back the locks they release, and nothing else. *)
Context (Hread : forall d f ip n, dev_read (devsw d) = Some f -> keeps same_keys (f ip n)).
Context (Hwrite : forall d f ip src n, dev_write (devsw d) = Some f -> keeps same_keys (f ip src n)).

Lemma keeps_readi_loop fuel ip off n tot acc : keeps same_keys (readi_loop (T := T) fuel ip off n tot acc).
Proof. revert off tot acc. induction fuel; intros off tot acc; cbn [readi_loop]; keeps_steps. Qed.
Lemma keeps_writei_loop fuel ip src off n tot : keeps same_keys (writei_loop (T := T) fuel ip src off n tot).
Proof. revert off tot. induction fuel; intros off tot; cbn [writei_loop]; keeps_steps. Qed.
#[local] Hint Resolve keeps_readi_loop keeps_writei_loop : keeps.
Lemma keeps_readi ip off n : keeps same_keys (readi devsw ip off n).
Proof. unfold readi. keeps_steps. Qed.
Lemma keeps_writei ip src off n : keeps same_keys (writei devsw ip src off n).
Proof. unfold writei. keeps_steps. Qed.

(** ** References *)

(** A reference: the entry and the inode it was handed out for. *)
Abbreviation iref := (nat * (Z * Z))%type.
Definition nrefs (ip : nat) (refs : list iref) : nat := length (filter (fun r : iref => r.1 = ip) refs).

(** The calls of the processes, in any order; each returns before the next. *)
Inductive cstep : fs T * list iref -> fs T * list iref -> Prop :=
| c_iget s s' refs dev inum ip :
    iget me dev inum s = Ok ip s' -> cstep (s, refs) (s', (ip, (dev, inum)) :: refs)
| c_idup s s' refs ip ip' k :
    (ip, k) ∈ refs -> idup me ip s = Ok ip' s' -> cstep (s, refs) (s', (ip', k) :: refs)
| c_iput s s' refs refs' ip k :
    refs ≡ₚ (ip, k) :: refs' -> iput me pid ip s = Ok tt s' -> cstep (s, refs) (s', refs')
| c_ilock s s' refs ip k :
    (ip, k) ∈ refs -> ilock me pid (Some ip) s = Ok tt s' -> cstep (s, refs) (s', refs)
| c_iunlock s s' refs ip k :
    (ip, k) ∈ refs -> iunlock me pid (Some ip) s = Ok tt s' -> cstep (s, refs) (s', refs)
| c_iupdate s s' refs ip k :
    (ip, k) ∈ refs -> iupdate ip s = Ok tt s' -> cstep (s, refs) (s', refs)
| c_readi s s' refs ip k off n r :
    (ip, k) ∈ refs -> readi devsw ip off n s = Ok r s' -> cstep (s, refs) (s', refs)
| c_writei s s' refs ip k src off n r :
    (ip, k) ∈ refs -> writei devsw ip src off n s = Ok r s' -> cstep (s, refs) (s', refs).

Record cinv (x : fs T * list iref) : Prop := mk_cinv {
  ci_count ip : (ip < NINODE)%nat -> i_ref (f_inode x.1 ip) = Z.of_nat (nrefs ip x.2);
  ci_key ip k : (ip, k) ∈ x.2 -> (ip < NINODE)%nat /\ (i_dev (f_inode x.1 ip), i_inum (f_inode x.1 ip)) = k;
  ci_uniq i j : (i < NINODE)%nat -> (j < NINODE)%nat -> 0 < i_ref (f_inode x.1 i) -> 0 < i_ref (f_inode x.1 j) ->
    i_dev (f_inode x.1 i) = i_dev (f_inode x.1 j) -> i_inum (f_inode x.1 i) = i_inum (f_inode x.1 j) -> i = j
}.

Lemma nrefs_cons ip r refs : nrefs ip (r :: refs) = if decide (r.1 = ip) then S (nrefs ip refs) else nrefs ip refs.
Proof. unfold nrefs. rewrite filter_cons. by case_decide. Qed.
Lemma nrefs_perm ip refs refs' : refs ≡ₚ refs' -> nrefs ip refs = nrefs ip refs'.
Proof. unfold nrefs. by intros ->. Qed.
Lemma nrefs_pos ip k refs : (ip, k) ∈ refs -> (0 < nrefs ip refs)%nat.
Proof.
  intros Hin. unfold nrefs. assert (Hf : (ip, k) ∈ filter (fun r : iref => r.1 = ip) refs) by (by apply list_elem_of_filter).
  apply list_elem_of_lookup_1 in Hf as [i Hi%lookup_lt_Some]. lia.
Qed.

Lemma cinv_keep s s' refs : cinv (s, refs) -> same_keys s s' -> cinv (s', refs).
Proof.
  intros [C1 C2 C3] HK.
  assert (Hk : forall j, i_dev (f_inode s' j) = i_dev (f_inode s j) /\ i_inum (f_inode s' j) = i_inum (f_inode s j) /\
    i_ref (f_inode s' j) = i_ref (f_inode s j)) by (intros j; specialize (HK j); unfold ikey in HK; by simplify_eq).
  split; simpl in *.
  - intros ip Hip. destruct (Hk ip) as (_ & _ & ->). auto.
  - intros ip k Hin. destruct (Hk ip) as (-> & -> & _). auto.
  - intros i j Hi Hj. destruct (Hk i) as (-> & -> & ->), (Hk j) as (-> & -> & ->). auto.
Qed.

(** One more or one fewer reference to [ip]. *)
Definition bumped (ip : nat) (d : Z) s s' : Prop :=
  (forall j, j <> ip -> ikey (f_inode s' j) = ikey (f_inode s j)) /\
  ikey (f_inode s' ip) = (i_dev (f_inode s ip), i_inum (f_inode s ip), i_ref (f_inode s ip) + d).

Lemma cinv_bump s s' refs refs' ip k d :
  cinv (s, refs) -> bumped ip d s s' ->
  (ip < NINODE)%nat -> (i_dev (f_inode s ip), i_inum (f_inode s ip)) = k -> 0 < i_ref (f_inode s ip) ->
  (forall j, Z.of_nat (nrefs j refs') = Z.of_nat (nrefs j refs) + if decide (j = ip) then d else 0) ->
  (forall r, r ∈ refs' -> r = (ip, k) \/ r ∈ refs) -> cinv (s', refs').
Proof.
  intros [C1 C2 C3] [Hj Hip] Hlt Hk Hpos Hn Hin. unfold ikey in *. simpl in *.
  assert (Hkeys : forall j, i_dev (f_inode s' j) = i_dev (f_inode s j) /\ i_inum (f_inode s' j) = i_inum (f_inode s j) /\
    i_ref (f_inode s' j) = i_ref (f_inode s j) + if decide (j = ip) then d else 0).
  { intros j. destruct (decide (j = ip)) as [->|Hne]; [by simplify_eq|]. specialize (Hj j Hne). simplify_eq.
    rewrite Z.add_0_r. done. }
  split; simpl.
  - intros j Hjl. destruct (Hkeys j) as (_ & _ & ->). rewrite Hn, C1 by done. done.
  - intros j kj Hr. destruct (Hkeys j) as (-> & -> & _).
    destruct (Hin _ Hr) as [[= -> ->]|Hr']; [done|by apply C2].
  - intros i j Hi Hjl. destruct (Hkeys i) as (-> & -> & ->), (Hkeys j) as (-> & -> & ->).
    repeat case_decide; subst; try done; intros Hpi Hpj; apply C3; lia || done.
Qed.

(** [iget], [idup] and [iput] change the keys of one entry. *)
Lemma idup_bumps s s' ip ip' : idup me ip s = Ok ip' s' -> ip' = ip /\ bumped ip 1 s s'.
Proof.
  intros Hr. unfold idup in Hr. apply bind_Ok in Hr as ([] & s1 & H1 & Hr).
  apply acquire_Ok in H1 as [_ ->]. apply bind_Ok in Hr as ([] & s2 & [= <-] & Hr).
  apply bind_Ok in Hr as ([] & s3 & ->%release_Ok & [= <- <-]). split; [done|]. split; simpl.
  - intros j Hj. by rewrite fupd_ne.
  - by rewrite fupd_eq.
Qed.

Lemma iput_bumps s s' ip u : iput me pid ip s = Ok u s' -> bumped ip (-1) s s'.
Proof.
  intros Hr.
  assert (Hk : exists m : M (fs T) unit, keeps same_keys m /\
    exists s1, m s = Ok tt s1 /\
      (iset ip (fun i => i_set_ref (i_ref i - 1) i) ;;; unlock_icache me) s1 = Ok u s').
  { unfold iput in Hr. apply bind_Ok in Hr as ([] & s1 & H1 & Hr). apply bind_Ok in Hr as (i & s2 & H2 & Hr).
    apply bind_Ok in Hr as ([] & s3 & H3 & Hr). apply bind_Ok in Hr as ([] & s4 & H4 & Hr).
    apply bind_Ok in Hr as ([] & s5 & H5 & Hr).
    eexists (ip_acquiresleep me pid ip ;;; _ ;;; ip_releasesleep me ip ;;; lock_icache me).
    split; [|exists s5; split; [|exact Hr]].
    2:{ unfold bind. rewrite H1. cbv beta iota. assert (s2 = s1) as -> by (by injection H2). rewrite H3. cbv beta iota. by rewrite H4. }
    keeps_steps; by apply keeps_iset. }
  clear Hr. destruct Hk as (m & Hm & s1 & H1 & Hr). pose proof (post_Ok _ _ _ _ _ _ (Hm s) H1) as HK. cbv beta in HK.
  apply bind_Ok in Hr as ([] & s2 & [= <-] & ->%release_Ok). split; simpl.
  - intros j Hj. rewrite fupd_ne by done. apply HK.
  - rewrite fupd_eq. unfold ikey. simpl. specialize (HK ip). unfold ikey in HK. by injection HK as -> -> ->.
Qed.

Lemma scan_Some test s ip : scan_icache test s = Some ip -> (ip < NINODE)%nat /\ test (f_inode s ip) = true.
Proof.
  unfold scan_icache. intros (Hin & Ht)%first_Some. apply list_elem_of_In, in_seq in Hin. split; [lia|done].
Qed.
Lemma scan_None test s ip : scan_icache test s = None -> (ip < NINODE)%nat -> test (f_inode s ip) = false.
Proof.
  unfold scan_icache. intros Hn Hip. apply (first_None _ _ Hn ip). apply list_elem_of_In, in_seq. lia.
Qed.

Lemma iget_cinv s s' refs dev inum ip :
  cinv (s, refs) -> iget me dev inum s = Ok ip s' -> cinv (s', (ip, (dev, inum)) :: refs).
Proof.
  intros Hc Hr. unfold iget in Hr. apply bind_Ok in Hr as ([] & s1 & H1 & Hr). apply acquire_Ok in H1 as [_ E1].
  assert (Hi : f_inode s1 = f_inode s) by (by subst s1). clear E1.
  apply bind_Ok in Hr as (s2 & s2' & [= <- <-] & Hr). destruct (scan_icache _ s1) as [i|] eqn:Hscan.
  - apply scan_Some in Hscan as [Hlt Hk]. unfold is_inode in Hk. rewrite Hi in Hk.
    apply andb_true_iff in Hk as [[Hp%Z.ltb_lt Hd%Z.eqb_eq]%andb_true_iff Hn%Z.eqb_eq].
    apply bind_Ok in Hr as ([] & s3 & [= <-] & Hr). apply bind_Ok in Hr as ([] & s4 & ->%release_Ok & [= <- <-]).
    eapply (cinv_bump s _ refs _ i (dev, inum) 1); [done| |done|by rewrite Hd, Hn|done| |].
    + split; simpl; [intros j Hj; by rewrite fupd_ne, Hi|by rewrite fupd_eq, Hi].
    + intros j. rewrite nrefs_cons. simpl. destruct (decide (i = j)), (decide (j = i)); subst; lia || done.
    + intros r [->|Hr]%elem_of_cons; auto.
  - destruct (scan_icache (fun i => i_ref i =? 0) s1) as [i|] eqn:Hfree; [|done].
    apply scan_Some in Hfree as [Hlt Hz%Z.eqb_eq]. rewrite Hi in Hz.
    do 3 apply bind_Ok in Hr as ([] & ? & [= <-] & Hr). apply bind_Ok in Hr as ([] & s4 & ->%release_Ok & [= <- <-]).
    assert (Hnew : forall j, (j < NINODE)%nat -> 0 < i_ref (f_inode s j) -> i_dev (f_inode s j) = dev ->
      i_inum (f_inode s j) = inum -> False).
    { intros j Hj Hp Hd Hn. pose proof (scan_None _ _ j Hscan Hj) as Hf. unfold is_inode in Hf. rewrite Hi in Hf.
      rewrite (proj2 (Z.ltb_lt _ _) Hp), (proj2 (Z.eqb_eq _ _) Hd), (proj2 (Z.eqb_eq _ _) Hn) in Hf. done. }
    destruct Hc as [C1 C2 C3]. simpl in *. split; simpl; rewrite ?Hi.
    + intros j Hj. rewrite nrefs_cons. simpl. destruct (decide (i = j)) as [<-|Hne].
      * rewrite !fupd_eq. simpl. specialize (C1 i Hlt). lia.
      * rewrite !fupd_ne by done. auto.
    + intros j k [[= -> ->]|Hin]%elem_of_cons; [by rewrite !fupd_eq|].
      destruct (C2 j k Hin) as [Hj Hk]. destruct (decide (j = i)) as [->|Hne]; [|by rewrite !fupd_ne].
      apply nrefs_pos in Hin. specialize (C1 i Hlt). lia.
    + intros j l Hj Hl.
      destruct (decide (j = i)) as [->|Hji], (decide (l = i)) as [->|Hli];
        rewrite ?fupd_eq, ?fupd_ne by done; simpl; try done; intros Hp1 Hp2 Hd Hn.
      * destruct (Hnew l); done.
      * destruct (Hnew j); done.
      * by apply C3.
Qed.

Lemma cstep_cinv x y : cstep x y -> cinv x -> cinv y.
Proof.
  intros Hs Hc. destruct Hs as [s s' refs dev inum ip Hr|s s' refs ip ip' k Hin Hr|s s' refs refs' ip k Hp Hr
    |s s' refs ip k _ Hr|s s' refs ip k _ Hr|s s' refs ip k _ Hr|s s' refs ip k off n r _ Hr|s s' refs ip k src off n r _ Hr];
    try (apply (cinv_keep s); [done|]).
  - by eapply iget_cinv.
  - apply idup_bumps in Hr as [-> Hb]. destruct (ci_key _ Hc _ _ Hin) as [Hlt Hk].
    eapply (cinv_bump s _ refs _ ip k 1); [done..| | |].
    + rewrite (ci_count _ Hc) by done. apply nrefs_pos in Hin. simpl. lia.
    + intros j. rewrite nrefs_cons. simpl. destruct (decide (ip = j)), (decide (j = ip)); subst; lia || done.
    + intros r [->|Hr]%elem_of_cons; auto.
  - apply iput_bumps in Hr. assert (Hin : (ip, k) ∈ refs) by (rewrite Hp; apply elem_of_cons; by left).
    destruct (ci_key _ Hc _ _ Hin) as [Hlt Hk].
    eapply (cinv_bump s _ refs _ ip k (-1)); [done..| | |].
    + rewrite (ci_count _ Hc) by done. apply nrefs_pos in Hin. simpl. lia.
    + intros j. rewrite (nrefs_perm _ _ _ Hp), nrefs_cons. simpl. destruct (decide (ip = j)), (decide (j = ip)); subst; lia || done.
    + intros r Hr'. right. rewrite Hp. apply elem_of_cons. by right.
  - exact (post_Ok _ _ _ _ _ _ (keeps_ilock (Some ip) s) Hr).
  - exact (post_Ok _ _ _ _ _ _ (keeps_iunlock (Some ip) s) Hr).
  - exact (post_Ok _ _ _ _ _ _ (keeps_iupdate ip s) Hr).
  - exact (post_Ok _ _ _ _ _ _ (keeps_readi ip off n s) Hr).
  - exact (post_Ok _ _ _ _ _ _ (keeps_writei ip src off n s) Hr).
Qed.

(** C13: In every state that the calls of the processes lead to from an empty cache, the
    count of an entry is the number of references handed out and not yet put back; an
    entry with references holds the inode they were handed out for; and all references
    to one inode are to one entry. *)
Theorem icache_sound s0 x :
  (forall ip, i_ref (f_inode s0 ip) = 0) -> rtc cstep (s0, []) x ->
  (forall ip, (ip < NINODE)%nat -> i_ref (f_inode x.1 ip) = Z.of_nat (nrefs ip x.2)) /\
  (forall ip dev inum, (ip, (dev, inum)) ∈ x.2 ->
     i_dev (f_inode x.1 ip) = dev /\ i_inum (f_inode x.1 ip) = inum /\ 0 < i_ref (f_inode x.1 ip)) /\
  (forall ip ip' k, (ip, k) ∈ x.2 -> (ip', k) ∈ x.2 -> ip = ip').
Proof.
  intros H0 Hr. assert (Hc : cinv x).
  { revert Hr. assert (Hc0 : cinv (s0, [])).
    { split; simpl; [by intros|by intros ? ? ?%elem_of_nil|]. intros i j _ _ Hi. rewrite H0 in Hi. lia. }
    generalize (s0, [] : list iref) Hc0. intros y Hy Hr. induction Hr; [done|]. eauto using cstep_cinv. }
  assert (Hpos : forall ip k, (ip, k) ∈ x.2 -> 0 < i_ref (f_inode x.1 ip)).
  { intros ip k Hin. destruct (ci_key _ Hc _ _ Hin) as [Hlt _]. rewrite (ci_count _ Hc) by done.
    apply nrefs_pos in Hin. lia. }
  split_and!; [apply Hc| |].
  - intros ip dev inum Hin. destruct (ci_key _ Hc _ _ Hin) as [_ [= E1 E2]]. eauto.
  - intros ip ip' k Hin Hin'. destruct (ci_key _ Hc _ _ Hin) as [Hlt Hk], (ci_key _ Hc _ _ Hin') as [Hlt' Hk'].
    rewrite <-Hk' in Hk. injection Hk as E1 E2. apply (ci_uniq _ Hc); eauto.
Qed.
End cache.
