(* ===== verification/FsDir.v ===== *)
(** * Directories ([dirlookup], [dirlink] of [fs.c])

    A directory is a file of 16-byte entries.  [dirlookup] returns the first entry in
    use whose name is the one asked for; [dirlink] adds an entry in the first free
    slot, after which [dirlookup] finds it and finds every other name as before. *)

From S2P Require Import Prelude Spinlock Sleeplock Block Disk Layout Format Mem CString Tx Fs FsBlocks FsInode FsRw.

(** ** Names *)

(** The C string in a buffer of [n] bytes. *)
Fixpoint cname (n : nat) (l : list Z) : list Z :=
  match n, l with
  | S k, c :: r => if c =? 0 then [] else c :: cname k r
  | _, _ => []
  end.

Abbreviation bytes := (Forall (fun b => 0 <= b < 256)).

Lemma byte_at_drop l i j : byte_at (drop i l) j = byte_at l (i + j).
Proof. unfold byte_at. by rewrite lookup_drop. Qed.

Lemma cname_byte n l :
  cname (S n) l = if byte_at l 0 =? 0 then [] else byte_at l 0 :: cname n (drop 1 l).
Proof. by destruct l as [|c r]. Qed.

(** The string in memory at [p] is the one of the list whose bytes are there. *)
Lemma cstr_list n m p l :
  (forall i, (i < n)%nat -> m (p + Z.of_nat i) = byte_at l i) -> cstr m p n = cname n l.
Proof.
  revert p l. induction n as [|n IH]; intros p l Hm; [done|]. rewrite cname_byte. cbn [cstr].
  rewrite <-(Hm 0%nat) by lia. rewrite Z.add_0_r. destruct (m p =? 0); [done|]. f_equal. apply IH.
  intros i Hi. rewrite byte_at_drop, <-(Hm (1 + i)%nat) by lia. f_equal. lia.
Qed.

Lemma two_bufs_l s t n : (n <= 256)%nat -> cstr (two_bufs s t) 0 n = cname n s.
Proof.
  intros Hn. apply cstr_list. intros i Hi. unfold two_bufs. rewrite (proj2 (Z.ltb_lt _ _)) by lia.
  f_equal. lia.
Qed.
Lemma two_bufs_r s t n : cstr (two_bufs s t) 256 n = cname n t.
Proof.
  apply cstr_list. intros i Hi. unfold two_bufs. rewrite (proj2 (Z.ltb_ge _ _)) by lia. f_equal. lia.
Qed.
Lemma two_bufs_ok s t : bytes s -> bytes t -> mem_ok (two_bufs s t).
Proof. intros Hs Ht x. unfold two_bufs. destruct (x <? 256); by apply byte_at_range. Qed.

Lemma namecmp_zero s t : bytes s -> bytes t -> namecmp s t = 0 <-> cname DIRSIZ s = cname DIRSIZ t.
Proof.
  intros Hs Ht. unfold namecmp, strncmp. rewrite Nat2Z.id, strncmp_loop_zero by (by apply two_bufs_ok).
  rewrite two_bufs_l, two_bufs_r by (unfold DIRSIZ; lia). done.
Qed.

Lemma length_name_field old name : length (name_field old name) = DIRSIZ.
Proof. unfold name_field. by rewrite length_fmap, length_seq. Qed.

Lemma cname_name_field old name : cname DIRSIZ (name_field old name) = cname DIRSIZ name.
Proof.
  rewrite <-(two_bufs_r old name). rewrite <-(cstr_strncpy DIRSIZ (two_bufs old name) 0 256) by (unfold DIRSIZ; lia).
  symmetry. unfold name_field, strncpy. rewrite Nat2Z.id. apply cstr_list. intros i Hi.
  unfold byte_at. rewrite list_lookup_fmap, lookup_seq_lt by done. done.
Qed.

Lemma bytes_name_field old name : bytes old -> bytes name -> bytes (name_field old name).
Proof.
  intros Ho Hn. unfold name_field. apply Forall_fmap, Forall_true. intros i. simpl.
  apply strncpy_ok. by apply two_bufs_ok.
Qed.

(** ** Entries *)

Definition dent (c : list Z) (i : nat) : list Z := take 16 (drop (16 * i) c).
Definition dmatch (name : list Z) (de : list Z) : bool := negb (de_inum de =? 0) && (namecmp name (de_name de) =? 0).

(** The index of the entry for [name]. *)
Definition dfind (c : list Z) (name : list Z) : option nat :=
  first (fun i => dmatch name (dent c i)) (seq 0 (length c / 16)).
(** The index of the first free entry, or the number of entries. *)
Definition dslot (c : list Z) : nat :=
  default (length c / 16)%nat (first (fun i => de_inum (dent c i) =? 0) (seq 0 (length c / 16))).

Lemma length_mk_dirent name inum : length (mk_dirent name inum) = 16%nat.
Proof. unfold mk_dirent. rewrite length_app, length_name_field. done. Qed.
Lemma bytes_mk_dirent name inum : bytes name -> bytes (mk_dirent name inum).
Proof.
  intros Hn. apply Forall_app. split; [apply bytes16_ok|]. apply bytes_name_field; [|done].
  apply Forall_forall. intros x Hx%list_elem_of_In%repeat_spec. lia.
Qed.
Lemma de_inum_mk name inum : 0 <= inum < 65536 -> de_inum (mk_dirent name inum) = inum.
Proof. intros Hi. unfold de_inum, get16, mk_dirent, byte_at. simpl. unfold u16, u8. zlia. Qed.
Lemma de_name_mk name inum : de_name (mk_dirent name inum) = name_field (repeat 0 DIRSIZ) name.
Proof.
  unfold de_name, mk_dirent. rewrite drop_app_length' by done. apply take_ge. by rewrite length_name_field.
Qed.

Lemma bytes_dent c i : bytes c -> bytes (dent c i).
Proof. intros Hc. by apply Forall_take, Forall_drop. Qed.
Lemma bytes_de_name de : bytes de -> bytes (de_name de).
Proof. intros Hc. by apply Forall_take, Forall_drop. Qed.

Lemma dmatch_iff name de : bytes name -> bytes de ->
  dmatch name de = true <-> de_inum de <> 0 /\ cname DIRSIZ name = cname DIRSIZ (de_name de).
Proof.
  intros Hn Hd. unfold dmatch. rewrite andb_true_iff, negb_true_iff, Z.eqb_neq, Z.eqb_eq.
  by rewrite namecmp_zero by (done || by apply bytes_de_name).
Qed.

(** The entries after a write at entry [i]. *)
Lemma length_splice off d c : (Z.to_nat off <= length c)%nat ->
  length (splice off d c) = Nat.max (length c) (Z.to_nat off + length d).
Proof. intros Ho. unfold splice. rewrite !length_app, length_take, length_drop. lia. Qed.

Lemma dent_splice c e i j :
  length e = 16%nat -> (16 * i <= length c)%nat ->
  dent (splice (16 * Z.of_nat i) e c) j = if decide (j = i) then e else dent c j.
Proof.
  intros He Hi. assert (Hj : (j < i)%nat \/ (i < j)%nat \/ j = i) by lia. unfold splice, dent. replace (Z.to_nat (16 * Z.of_nat i)) with (16 * i)%nat by lia. rewrite He.
  assert (Hlt : length (take (16 * i) c) = (16 * i)%nat) by (rewrite length_take; lia).
  destruct Hj as [Hlt'|[Hgt| ->]].
  - rewrite decide_False by lia. rewrite drop_app_le by lia. rewrite take_app_le by (rewrite length_drop; lia).
    apply list_eq. intros k. destruct (decide (k < 16)%nat) as [Hk|Hk].
    + rewrite !lookup_take_lt by done. rewrite !lookup_drop, lookup_take_lt by lia. done.
    + rewrite !lookup_take_ge by lia. done.
  - rewrite decide_False by lia. rewrite drop_app_ge by lia. rewrite drop_app_ge by lia.
    rewrite drop_drop. do 2 f_equal. lia.
  - rewrite decide_True by done. rewrite drop_app_length' by done. by rewrite take_app_length' by done.
Qed.

Lemma dslot_spec c : (dslot c <= length c / 16)%nat /\
  ((dslot c < length c / 16)%nat -> de_inum (dent c (dslot c)) = 0).
Proof.
  unfold dslot. generalize (length c / 16)%nat as n. intros n.
  destruct (first _ _) as [i|] eqn:Hf; simpl; [|split; [done|intros ?; lia]].
  apply first_Some in Hf as [Hin%list_elem_of_In%in_seq Hz%Z.eqb_eq]. split; [lia|done].
Qed.

(** The directory with an entry for [name] in its first free slot. *)
Lemma dfind_link c name inum :
  let c' := splice (16 * Z.of_nat (dslot c)) (mk_dirent name inum) c in
  bytes c -> bytes name -> (length c mod 16 = 0)%nat -> 0 < inum < 65536 -> dfind c name = None ->
  dfind c' name = Some (dslot c) /\ de_inum (dent c' (dslot c)) = inum /\
  (forall name', bytes name' -> cname DIRSIZ name' <> cname DIRSIZ name -> dfind c' name' = dfind c name').
Proof.
  intros c' Hc Hn Hmod Hinum Hnone. set (i := dslot c) in *. destruct (dslot_spec c) as [Hi Hfree]. fold i in Hi, Hfree.
  pose proof (Nat.div_mod_eq (length c) 16) as Hdm.
  assert (Hle : (16 * i <= length c)%nat) by lia.
  assert (Hd : forall j, dent c' j = if decide (j = i) then mk_dirent name inum else dent c j).
  { intros j. apply dent_splice; [apply length_mk_dirent|done]. }
  assert (Hlen : (length c' / 16)%nat = Nat.max (length c / 16) (S i)).
  { unfold c'. rewrite length_splice, length_mk_dirent by lia.
    replace (Z.to_nat (16 * Z.of_nat i)) with (16 * i)%nat by lia. symmetry.
    apply (Nat.div_unique _ _ _ 0); lia. }
  assert (Hbm : bytes (mk_dirent name inum)) by (by apply bytes_mk_dirent).
  assert (Hm : dmatch name (mk_dirent name inum) = true).
  { apply dmatch_iff; [done..|]. rewrite de_inum_mk by lia. rewrite de_name_mk, cname_name_field. split; [lia|done]. }
  split_and!.
  - unfold dfind. destruct (first _ (seq 0 (length c' / 16))) as [j|] eqn:Hf.
    + apply first_Some in Hf as [Hin%list_elem_of_In%in_seq Hj]. f_equal. rewrite Hd in Hj.
      destruct (decide (j = i)) as [->|Hne]; [done|]. unfold dfind in Hnone.
      rewrite (first_None _ _ Hnone j) in Hj; [done|]. apply list_elem_of_In, in_seq. lia.
    + assert (Hin : i ∈ seq 0 (length c' / 16)) by (apply list_elem_of_In, in_seq; lia).
      pose proof (first_None _ _ Hf i Hin) as Hi'. simpl in Hi'. rewrite Hd, decide_True in Hi' by done. congruence.
  - rewrite Hd, decide_True by done. apply de_inum_mk. lia.
  - intros name' Hb' Hne. unfold dfind.
    assert (Hext : forall j, dmatch name' (dent c' j) = if decide (j = i) then false else dmatch name' (dent c j)).
    { intros j. rewrite Hd. destruct (decide (j = i)) as [->|]; [|done]. apply not_true_iff_false.
      intros [_ E]%dmatch_iff; [|done..]. rewrite de_name_mk, cname_name_field in E. done. }
    rewrite Hlen. destruct (decide (i < length c / 16)%nat) as [Hlt|Hge].
    + replace (Nat.max (length c / 16) (S i)) with (length c / 16)%nat by lia. apply first_ext. intros j Hj.
      rewrite Hext. destruct (decide (j = i)) as [->|]; [|done]. unfold dmatch. by rewrite Hfree.
    + replace (Nat.max (length c / 16) (S i)) with (length c / 16 + 1)%nat by lia. rewrite seq_app.
      replace (0 + length c / 16)%nat with i by lia. change (seq i 1) with [i]. rewrite first_snoc_false by (by rewrite Hext, decide_True).
      apply first_ext. intros j Hj%list_elem_of_In%in_seq. rewrite Hext, decide_False by lia. done.
Qed.

(** ** [dirlookup] *)

Section dir.
Context {T : Type} `{Tx T} (me : nat) (pid : Z) (devsw : Z -> @dev_ops T).
Implicit Types (s : fs T) (a : tabs).

(** What [iget] does to the cache: an entry for the inode, with one more reference. *)
Record got s (dev inum : Z) (ip : nat) s' : Prop := mk_got {
  gt_tx : f_tx s' = f_tx s;
  gt_sb : f_sb s' = f_sb s;
  gt_lock : f_lock s' = f_lock s;
  gt_wakes : f_wakes s' = f_wakes s;
  gt_lt : (ip < NINODE)%nat;
  gt_other j : j <> ip -> f_inode s' j = f_inode s j;
  gt_this : (is_inode dev inum (f_inode s ip) = true /\
             f_inode s' ip = i_set_ref (i_ref (f_inode s ip) + 1) (f_inode s ip)) \/
            ((forall j, (j < NINODE)%nat -> is_inode dev inum (f_inode s j) = false) /\
             i_ref (f_inode s ip) = 0 /\
             f_inode s' ip = i_set_valid false (i_set_ref 1 (i_set_key dev inum (f_inode s ip))))
}.

Lemma got_key s dev inum ip s' : got s dev inum ip s' ->
  i_dev (f_inode s' ip) = dev /\ i_inum (f_inode s' ip) = inum /\ i_ref (f_inode s' ip) = i_ref (f_inode s ip) + 1 /\
  0 <= i_ref (f_inode s ip).
Proof.
  intros [_ _ _ _ _ _ [[Hk ->]|(_ & Hz & ->)]]; simpl; [|rewrite Hz; done].
  unfold is_inode in Hk. apply andb_true_iff in Hk as [[Hp%Z.ltb_lt Hd%Z.eqb_eq]%andb_true_iff Hn%Z.eqb_eq].
  split_and!; [done..|lia].
Qed.

(** An entry in use keeps its inode and its lock. *)
Lemma got_used s dev inum ip s' j : got s dev inum ip s' -> 0 < i_ref (f_inode s j) ->
  i_di (f_inode s' j) = i_di (f_inode s j) /\ i_dev (f_inode s' j) = i_dev (f_inode s j) /\
  i_inum (f_inode s' j) = i_inum (f_inode s j) /\ i_valid (f_inode s' j) = i_valid (f_inode s j) /\
  i_lock (f_inode s' j) = i_lock (f_inode s j).
Proof.
  intros [_ _ _ _ _ Ho Ht] Hp. destruct (decide (j = ip)) as [->|Hj]; [|by rewrite Ho].
  destruct Ht as [[_ ->]|(_ & Hz & _)]; [done|lia].
Qed.

Lemma wpx_iget (P : string -> Prop) s dev inum (Q : nat -> fs T -> Prop) :
  P "iget: no inodes"%string -> f_lock s = initlock ->
  (forall ip s', got s dev inum ip s' -> Q ip s') -> wpx P (iget me dev inum) Q s.
Proof.
  intros HP Hl HQ. unfold iget, lock_icache. apply wpx_bind, wpx_wp, wp_acquire; [done|].
  apply wpx_bind, wpx_get.
  set (s1 := mk_fs _ _ _ _ _). assert (Hi : f_inode s1 = f_inode s) by done.
  destruct (scan_icache (is_inode dev inum) s1) as [ip|] eqn:Hscan.
  - apply first_Some in Hscan as [Hin%list_elem_of_In%in_seq Hk]. rewrite Hi in Hk.
    apply wpx_bind, wpx_modify, wpx_bind, wpx_wp, wp_release; [done|]. apply wpx_ret, HQ.
    split; simpl; try done; [lia|intros j Hj; by rewrite fupd_ne|]. left. by rewrite fupd_eq.
  - assert (Hno : forall j, (j < NINODE)%nat -> is_inode dev inum (f_inode s j) = false).
    { intros j Hj. apply (first_None _ _ Hscan). apply list_elem_of_In, in_seq. lia. }
    destruct (scan_icache (fun i => i_ref i =? 0) s1) as [ip|] eqn:Hfree; [|by apply wpx_panic].
    apply first_Some in Hfree as [Hin%list_elem_of_In%in_seq Hz%Z.eqb_eq]. rewrite Hi in Hz.
    do 3 apply wpx_bind, wpx_modify. apply wpx_bind, wpx_wp, wp_release; [done|]. apply wpx_ret, HQ.
    split; simpl; try done; [lia|intros j Hj; by rewrite !fupd_ne|]. right. split_and!; [done..|]. by rewrite !fupd_eq.
Qed.

Lemma contents_bytes sb v di n :
  sb_ok sb n -> inode_wf sb v di -> (forall b, 0 <= b < n -> block_ok (v b)) -> bytes (contents v di).
Proof.
  intros Hsb Hw Hv. apply Forall_fmap, Forall_forall. intros k Hk%elem_of_seqZ. simpl. unfold fbyte.
  apply byte_at_range, Hv. pose proof (w_size _ _ _ Hw).
  assert (Hb : 0 <= k / 512 < MAXFILE) by (apply blk_range; lia).
  assert (Hne : faddr v di (k / 512) <> 0).
  { apply (w_full _ _ _ Hw); [lia|]. pose proof (Z.mul_div_le k 512). lia. }
  pose proof (data_range _ _ _ _ Hsb (w_addr _ _ _ Hw _ Hb Hne)). pose proof (so_size _ _ Hsb). lia.
Qed.

Lemma length_contents v di : length (contents v di) = Z.to_nat (di_size di).
Proof. apply length_fslice. Qed.

Lemma dent_contents v di i :
  16 * Z.of_nat i + 16 <= di_size di -> dent (contents v di) i = fslice v di (16 * Z.of_nat i) 16.
Proof.
  intros Hi. unfold dent, contents. fold (fslice v di 0 (di_size di)).
  replace (16 * i)%nat with (Z.to_nat (16 * Z.of_nat i)) by lia. rewrite drop_fslice by lia.
  replace (di_size di - 16 * Z.of_nat i) with (16 + (di_size di - 16 * Z.of_nat i - 16)) by lia.
  rewrite fslice_app by lia. apply take_app_length'. by rewrite length_fslice.
Qed.

(** A directory that can be read. *)
Record ready_dir s a (dp : nat) : Prop := mk_ready_dir {
  rd_ip : ready_ip s a dp;
  rd_type : di_type (i_di (f_inode s dp)) = T_DIR;
  rd_size : di_size (i_di (f_inode s dp)) mod 16 = 0;
  rd_cap : (size (t_logged a) < t_cap a)%nat
}.
Lemma ready_dir_tx s a dp t : ready_dir s a dp -> t_rel t a -> ready_dir (with_tx t s) a dp.
Proof. intros [[R1 R2 R3 R4 R5 R6] Hty Hsz Hc] R. by split. Qed.

Definition entries s a (dp : nat) : list Z := contents (t_view a) (i_di (f_inode s dp)).

Lemma wp_read_entry s a dp i (Q : Z * list Z -> fs T -> Prop) :
  ready_dir s a dp -> 16 * Z.of_nat i + 16 <= di_size (i_di (f_inode s dp)) ->
  (forall t, t_rel t a -> Q (16, dent (entries s a dp) i) (with_tx t s)) ->
  wp (readi devsw dp (16 * Z.of_nat i) DESIZE) Q s.
Proof.
  intros [Hr Hty Hsz Hc] Hi HQ. unfold DESIZE. pose proof (w_size _ _ _ (ri_wf _ _ _ Hr)) as Hmax.
  change (MAXFILE * 512) with 71680 in Hmax.
  apply (wp_readi devsw s a); [done|done|by rewrite Hty|lia|lia|unfold W32; lia|].
  rewrite Z.min_l by lia. unfold entries in HQ. rewrite dent_contents in HQ by lia. exact HQ.
Qed.

(** The scan of the entries from number [i] on. *)
Lemma wpx_dirlookup_loop P fuel s a dp name i n (Q : option (nat * Z) -> fs T -> Prop) :
  P "iget: no inodes"%string -> f_lock s = initlock -> ready_dir s a dp ->
  di_size (i_di (f_inode s dp)) = 16 * Z.of_nat (i + n) -> (16 * n < fuel)%nat ->
  (forall t, t_rel t a -> match first (fun j => dmatch name (dent (entries s a dp) j)) (seq i n) with
    | None => Q None (with_tx t s)
    | Some j => forall ip s', got (with_tx t s) t_dev (de_inum (dent (entries s a dp) j)) ip s' ->
        Q (Some (ip, 16 * Z.of_nat j)) s'
    end) ->
  wpx P (dirlookup_loop me devsw fuel dp name (16 * Z.of_nat i)) Q s.
Proof.
  intros HP. revert fuel s i. induction n as [|n IH]; intros fuel s i Hl Hd Hsz Hf HQ.
  - destruct fuel as [|k]; [lia|]. cbn [dirlookup_loop]. unfold iget_field. apply wpx_bind, wpx_gets.
    rewrite (proj2 (Z.ltb_ge _ _)) by lia. apply wpx_ret.
    specialize (HQ (f_tx s) (ri_rel _ _ _ (rd_ip _ _ _ Hd))). simpl in HQ. by destruct s.
  - destruct fuel as [|k]; [lia|]. cbn [dirlookup_loop]. unfold iget_field. apply wpx_bind, wpx_gets.
    rewrite (proj2 (Z.ltb_lt _ _)) by lia. apply wpx_bind, wpx_wp, (wp_read_entry s a); [done|lia|].
    intros t R. cbn [fst snd negb Z.eqb]. cbn [seq first] in HQ. unfold DESIZE. change (negb (16 =? 16)) with false. cbv iota.
    set (e := dent (entries s a dp) i) in *.
    assert (Hnext : dmatch name e = false -> wpx P (dirlookup_loop me devsw k dp name (16 * Z.of_nat i + 16)) Q (with_tx t s)).
    { intros Hm. replace (16 * Z.of_nat i + 16) with (16 * Z.of_nat (S i)) by lia.
      apply IH; [done|by apply ready_dir_tx|cbn [f_inode with_tx]; lia|lia|].
      intros t' R'. specialize (HQ t' R'). by rewrite Hm in HQ. }
    unfold dmatch in Hnext at 1. destruct (de_inum e =? 0) eqn:Hz; [by apply Hnext|].
    destruct (namecmp name (de_name e) =? 0) eqn:Hm; [|by apply Hnext].
    apply wpx_bind, wpx_gets. cbn [f_inode with_tx]. rewrite (ri_dev _ _ _ (rd_ip _ _ _ Hd)).
    apply wpx_bind, wpx_iget; [done..|]. intros ip s' Hg. apply wpx_ret.
    specialize (HQ t R). unfold dmatch in HQ at 1. rewrite Hz, Hm in HQ. by apply HQ.
Qed.

(** [dirlookup] returns the first entry in use with that name. *)
Lemma wpx_dirlookup P s a dp name (Q : option (nat * Z) -> fs T -> Prop) :
  P "iget: no inodes"%string -> f_lock s = initlock -> ready_dir s a dp ->
  (forall t, t_rel t a -> match dfind (entries s a dp) name with
    | None => Q None (with_tx t s)
    | Some j => forall ip s', got (with_tx t s) t_dev (de_inum (dent (entries s a dp) j)) ip s' ->
        Q (Some (ip, 16 * Z.of_nat j)) s'
    end) ->
  wpx P (dirlookup me devsw dp name) Q s.
Proof.
  intros HP Hl Hd HQ. unfold dirlookup, iget_field. apply wpx_bind, wpx_gets. unfold id.
  rewrite (rd_type _ _ _ Hd). change (negb (T_DIR =? T_DIR)) with false. cbv iota.
  pose proof (w_size _ _ _ (ri_wf _ _ _ (rd_ip _ _ _ Hd))) as Hsz. pose proof (rd_size _ _ _ Hd) as Hmod.
  set (sz := di_size (i_di (f_inode s dp))) in *. pose proof (Z.div_mod sz 16 ltac:(lia)) as Hdm.
  assert (0 <= sz / 16) by (apply Z.div_pos; lia).
  assert (Hn : (length (entries s a dp) / 16)%nat = Z.to_nat (sz / 16)).
  { unfold entries. rewrite length_contents. fold sz. symmetry. apply (Nat.div_unique _ _ _ 0); lia. }
  apply (wpx_dirlookup_loop P _ s a dp name 0 (Z.to_nat (sz / 16))); [done..|fold sz; lia|lia|].
  intros t R. specialize (HQ t R). unfold dfind in HQ. by rewrite Hn in HQ.
Qed.

(** ** [dirlink] *)

Lemma wpx_dirlink_scan P fuel s a dp i n (Q : Z -> fs T -> Prop) :
  ready_dir s a dp -> di_size (i_di (f_inode s dp)) = 16 * Z.of_nat (i + n) -> (16 * n < fuel)%nat ->
  (forall t, t_rel t a ->
     Q (16 * Z.of_nat (default (i + n)%nat (first (fun j => de_inum (dent (entries s a dp) j) =? 0) (seq i n)))) (with_tx t s)) ->
  wpx P (dirlink_scan devsw fuel dp (16 * Z.of_nat i)) Q s.
Proof.
  revert fuel s i. induction n as [|n IH]; intros fuel s i Hd Hsz Hf HQ.
  - destruct fuel as [|k]; [lia|]. cbn [dirlink_scan]. unfold iget_field. apply wpx_bind, wpx_gets.
    rewrite (proj2 (Z.ltb_ge _ _)) by lia. apply wpx_ret.
    specialize (HQ (f_tx s) (ri_rel _ _ _ (rd_ip _ _ _ Hd))). simpl in HQ. rewrite Nat.add_0_r in HQ. by destruct s.
  - destruct fuel as [|k]; [lia|]. cbn [dirlink_scan]. unfold iget_field. apply wpx_bind, wpx_gets.
    rewrite (proj2 (Z.ltb_lt _ _)) by lia. apply wpx_bind, wpx_wp, (wp_read_entry s a); [done|lia|].
    intros t R. cbn [fst snd]. unfold DESIZE. change (negb (16 =? 16)) with false. cbv iota.
    cbn [seq first] in HQ. destruct (de_inum (dent (entries s a dp) i) =? 0); [by apply wpx_ret, HQ|].
    replace (16 * Z.of_nat i + 16) with (16 * Z.of_nat (S i)) by lia.
    apply IH; [by apply ready_dir_tx|cbn [f_inode with_tx]; lia|lia|].
    intros t' R'. replace (S i + n)%nat with (i + S n)%nat by lia. exact (HQ t' R').
Qed.

Lemma written_tx s a ip data off L s' a' t : written (with_tx t s) a ip data off L s' a' -> written s a ip data off L s' a'.
Proof. intros [W1 W2 W3 [W4 W5 W6 W7 W8] W9 W10 W11 W12 W13 W14 W15]. by split. Qed.

(** An entry lies in one block. *)
Lemma nblk_entry i : nblk (16 * Z.of_nat i) 16 = 1%nat.
Proof.
  unfold nblk. change (16 <=? 0) with false. cbv iota.
  assert (E : (16 * Z.of_nat i + 16 - 1) / 512 = 16 * Z.of_nat i / 512); [|lia].
  pose proof (Z.div_mod (16 * Z.of_nat i) 512). pose proof (Z.mod_pos_bound (16 * Z.of_nat i) 512).
  symmetry. apply (Z.div_unique_pos _ _ _ ((16 * Z.of_nat i) mod 512 + 15)); [|lia].
  assert (E2 : (16 * Z.of_nat i) mod 512 = 16 * (Z.of_nat i mod 32)) by (by apply (Z.mul_mod_distr_l _ 32 16)).
  pose proof (Z.mod_pos_bound (Z.of_nat i) 32). lia.
Qed.

Lemma wpx_dirlink P s a dp name inum L (Q : Z -> fs T -> Prop) :
  P "iget: no inodes"%string -> P "balloc: out of blocks"%string -> f_lock s = initlock -> ready_dir s a dp ->
  0 <= i_inum (f_inode s dp) < sb_ninodes (f_sb s) -> bytes name -> dfind (entries s a dp) name = None ->
  16 * Z.of_nat (dslot (entries s a dp)) + 16 <= MAXFILE * 512 ->
  bm_set (f_sb s) ⊆ L -> t_logged a ⊆ L -> (size L + 5 <= t_cap a)%nat ->
  (forall s' a', written s a dp (mk_dirent name inum) (16 * Z.of_nat (dslot (entries s a dp))) L s' a' -> Q 0 s') ->
  wpx P (dirlink me pid devsw dp name inum) Q s.
Proof.
  intros HP1 HP2 Hl Hd Hin Hb Hnone Hmax HL Hlog Hc HQ. unfold dirlink.
  apply wpx_bind, (wpx_dirlookup P s a); [done..|]. rewrite Hnone. intros t R.
  unfold iget_field. apply wpx_bind, wpx_gets. cbn [f_inode with_tx].
  pose proof (w_size _ _ _ (ri_wf _ _ _ (rd_ip _ _ _ Hd))) as Hsz. pose proof (rd_size _ _ _ Hd) as Hmod.
  set (sz := di_size (i_di (f_inode s dp))) in *. pose proof (Z.div_mod sz 16 ltac:(lia)) as Hdm.
  assert (0 <= sz / 16) by (apply Z.div_pos; lia).
  assert (Hn : (length (entries s a dp) / 16)%nat = Z.to_nat (sz / 16)).
  { unfold entries. rewrite length_contents. fold sz. symmetry. apply (Nat.div_unique _ _ _ 0); lia. }
  apply wpx_bind, (wpx_dirlink_scan P _ (with_tx t s) a dp 0 (Z.to_nat (sz / 16)));
    [by apply ready_dir_tx|cbn [f_inode with_tx]; fold sz; lia|lia|].
  intros t2 R2. change (entries (with_tx t s) a dp) with (entries s a dp).
  assert (Es : dslot (entries s a dp) = default (0 + Z.to_nat (sz / 16))%nat
    (first (fun j => de_inum (dent (entries s a dp) j) =? 0) (seq 0 (Z.to_nat (sz / 16))))) by (unfold dslot; by rewrite Hn).
  rewrite <-Es. set (i := dslot (entries s a dp)) in *.
  assert (Hi : 16 * Z.of_nat i <= sz) by (destruct (dslot_spec (entries s a dp)) as [Hi _]; fold i in Hi; lia).
  apply wpx_bind. apply (wpx_writei devsw P HP2 (with_tx t2 s) a dp _ _ _ L); cbn [f_inode with_tx f_sb]; try done.
  - apply (ready_dir_tx _ _ _ t2 Hd R2).
  - rewrite (rd_type _ _ _ Hd). done.
  - fold sz. lia.
  - by apply bytes_mk_dirent.
  - unfold DESIZE. rewrite nblk_entry. lia.
  - intros s' a' Hw. change (negb (DESIZE =? DESIZE)) with false. apply wpx_ret. apply written_tx in Hw.
    rewrite take_ge in Hw by (rewrite length_mk_dirent; done). by apply (HQ s' a').
Qed.
End dir.
