(* ===== verification/FsPath.v ===== *)
(** * Path names ([ilock], [iunlock], [iput] and [namex] of [fs.c])

    A path is the list of its elements.  On a file system in which no inode is locked,
    [namei] returns an entry of the inode cache for the inode that the elements lead to
    from the root or the current directory, through the directories on the disk, and
    [nameiparent] one for the directory of the last element together with its name;
    the references taken on the way are all put back, and no block is changed. *)

From S2P Require Import Prelude Spinlock Sleeplock Block Disk Layout Format Mem CString Tx Fs FsBlocks FsInode FsRw FsDir.

(** ** The elements of a path *)

Fixpoint elements (acc path : list Z) : list (list Z) :=
  match path with
  | [] => if decide (acc = []) then [] else [acc]
  | c :: p =>
      if c =? 47 then (if decide (acc = []) then elements [] p else acc :: elements [] p)
      else elements (acc ++ [c]) p
  end.

Lemma elements_slash p : elements [] (47 :: p) = elements [] p.
Proof. done. Qed.

Lemma elements_skip path : elements [] (skip_slashes path) = elements [] path.
Proof.
  induction path as [|c p IH]; [done|]. cbn [skip_slashes]. destruct (Z.eqb_spec c 47) as [->|Hc]; [|done].
  by rewrite IH.
Qed.

Lemma elements_elem acc path : acc ++ path_elem path <> [] ->
  elements acc path = (acc ++ path_elem path) :: elements [] (drop (length (path_elem path)) path).
Proof.
  revert acc. induction path as [|c p IH]; intros acc Hne; simpl in *.
  - rewrite app_nil_r in *. by rewrite decide_False.
  - destruct (c =? 47) eqn:Hc; simpl.
    + rewrite app_nil_r in *. rewrite Hc. by rewrite decide_False.
    + rewrite IH by (by destruct acc). by rewrite <-app_assoc.
Qed.

Lemma skip_slashes_length path : (length (skip_slashes path) <= length path)%nat.
Proof. induction path as [|c p IH]; [done|]. simpl. destruct (c =? 47); simpl; lia. Qed.
Lemma path_elem_length path : (length (path_elem path) <= length path)%nat.
Proof. induction path as [|c p IH]; [done|]. simpl. destruct (c =? 47); simpl; lia. Qed.
Lemma skip_slashes_head path c p : skip_slashes path = c :: p -> path_elem (c :: p) <> [].
Proof.
  induction path as [|d q IH]; [done|]. cbn [skip_slashes]. destruct (d =? 47) eqn:Hd; [done|].
  intros [= <- <-]. simpl. by rewrite Hd.
Qed.

(** A path is a C string. *)
Abbreviation cpath := (Forall (fun b => 0 < b < 256)).
Lemma cpath_skip path : cpath path -> cpath (skip_slashes path).
Proof. induction 1 as [|c p Hc Hp IH]; [done|]. simpl. destruct (c =? 47); [done|by constructor]. Qed.
Lemma cpath_elem path : cpath path -> cpath (path_elem path).
Proof. induction 1 as [|c p Hc Hp IH]; [done|]. simpl. destruct (c =? 47); [done|by constructor]. Qed.

Lemma cname_cpath n l rest : cpath l -> (n <= length l)%nat \/ head rest = Some 0 -> cname n (l ++ rest) = take n l.
Proof.
  intros Hl. revert n. induction Hl as [|c l Hc Hl IH]; intros n Hn.
  - destruct n as [|n]; [done|]. destruct Hn as [Hn|Hn]; [simpl in Hn; lia|].
    destruct rest; simplify_eq/=. done.
  - destruct n as [|n]; [done|]. simpl. rewrite (proj2 (Z.eqb_neq _ _)) by lia. f_equal. apply IH.
    simpl in Hn. destruct Hn; [left; lia|by right].
Qed.

Lemma cname_take n l : cpath l -> cname n l = take n l.
Proof.
  intros Hl. revert n. induction Hl as [|c l Hc Hl IH]; intros n; [by destruct n|]. destruct n as [|n]; [done|].
  simpl. rewrite (proj2 (Z.eqb_neq _ _)) by lia. by rewrite IH.
Qed.

(** [skipelem] takes the elements off one by one. *)
Lemma skipelem_None path name : skipelem path name = None -> elements [] path = [].
Proof. unfold skipelem. rewrite <-elements_skip. by destruct (skip_slashes path). Qed.

Lemma skipelem_Some path name path' name' :
  cpath path -> bytes name -> skipelem path name = Some (path', name') ->
  exists e, elements [] path = e :: elements [] path' /\ cname DIRSIZ name' = take DIRSIZ e /\
    cpath e /\ cpath path' /\ bytes name' /\ (length path' < length path)%nat /\ (elements [] path' = [] -> path' = []).
Proof.
  intros Hp Hn Hs. unfold skipelem in Hs. pose proof (cpath_skip _ Hp) as Hp1. pose proof (skip_slashes_length path) as Hlen.
  rewrite <-(elements_skip path). destruct (skip_slashes path) as [|c p] eqn:Es; [done|].
  pose proof (skip_slashes_head _ _ _ Es) as Hne. set (q := c :: p) in *.
  pose proof (cpath_elem _ Hp1) as Hpe. pose proof (path_elem_length q) as Hle.
  set (e := path_elem q) in *. assert (He0 : (0 < length e)%nat) by (destruct e; simpl; [done|lia]).
  exists e. replace (match q with [] => None | _ :: _ => _ end) with
    (Some (skip_slashes (drop (length e) q), if (DIRSIZ <=? length e)%nat then take DIRSIZ e else e ++ [0] ++ drop (S (length e)) name)) in Hs by done.
  apply (f_equal (default (path', name'))), pair_equal_spec in Hs as [<- <-]. cbv iota. split_and!.
  - rewrite elements_skip. apply (elements_elem [] q). done.
  - destruct (Nat.leb_spec DIRSIZ (length e)) as [Hd|Hd].
    + pose proof (cname_cpath DIRSIZ (take DIRSIZ e) []) as E. rewrite app_nil_r, take_take, Nat.min_id in E.
      apply E; [by apply Forall_take|left; rewrite length_take; lia].
    + apply cname_cpath; [done|by right].
  - done.
  - by apply cpath_skip, Forall_drop.
  - assert (Hb : bytes e) by (eapply Forall_impl; [exact Hpe|]; simpl; lia).
    destruct (DIRSIZ <=? length e)%nat; [by apply Forall_take|].
    apply Forall_app. split; [done|]. apply Forall_app. split; [by constructor; [lia|]|by apply Forall_drop].
  - pose proof (skip_slashes_length (drop (length e) q)) as Hl2. rewrite length_drop in Hl2. lia.
  - destruct (skip_slashes (drop (length e) q)) as [|d r] eqn:Er; [done|].
    pose proof (skip_slashes_head _ _ _ Er) as Hd. by rewrite elements_elem.
Qed.

(** A name is looked up by its first [DIRSIZ] bytes. *)
Lemma dfind_cname c n n' : bytes c -> bytes n -> bytes n' -> cname DIRSIZ n = cname DIRSIZ n' -> dfind c n = dfind c n'.
Proof.
  intros Hc Hn Hn' E. apply first_ext. intros i _. apply eq_iff_eq_true.
  rewrite !dmatch_iff by (done || by apply bytes_dent). by rewrite E.
Qed.

(** ** What a path leads to *)

(** An inode in use on the disk. *)
Definition live sb v (inum : Z) : Prop := 0 < inum < sb_ninodes sb /\ di_type (disk_inode sb v inum) <> 0.

(** The directory entries of inode [inum]. *)
Definition dir_of sb v (inum : Z) : list Z := contents v (disk_inode sb v inum).

Fixpoint resolve sb v (inum : Z) (es : list (list Z)) : option Z :=
  match es with
  | [] => Some inum
  | e :: es =>
      if di_type (disk_inode sb v inum) =? T_DIR then
        match dfind (dir_of sb v inum) e with
        | Some i => resolve sb v (de_inum (dent (dir_of sb v inum) i)) es
        | None => None
        end
      else None
  end.

(** [resolve] for [nameiparent]: the directory that holds the last element. *)
Definition resolve_parent sb v (inum : Z) (es : list (list Z)) : option Z :=
  match last es with
  | None => None
  | Some _ =>
      match resolve sb v inum (removelast es) with
      | Some d => if di_type (disk_inode sb v d) =? T_DIR then Some d else None
      | None => None
      end
  end.

Record tree_ok sb v : Prop := mk_tree_ok {
  tr_wf inum : live sb v inum -> inode_wf sb v (disk_inode sb v inum);
  tr_link inum : live sb v inum -> di_nlink (disk_inode sb v inum) <> 0;
  tr_dir inum : live sb v inum -> di_type (disk_inode sb v inum) = T_DIR -> di_size (disk_inode sb v inum) mod 16 = 0;
  tr_entry inum i : live sb v inum -> di_type (disk_inode sb v inum) = T_DIR ->
    (i < length (dir_of sb v inum) / 16)%nat -> de_inum (dent (dir_of sb v inum) i) <> 0 ->
    live sb v (de_inum (dent (dir_of sb v inum) i))
}.

Section path.
Context {T : Type} `{Tx T} (me : nat) (pid : Z) (devsw : Z -> @dev_ops T).
Implicit Types (s : fs T) (a : tabs).

Definition unlocked (l : sleeplock) : Prop := sl_locked l = 0 /\ sl_lk l = initlock.

(** What holds of an entry between two calls. *)
Record entry_ok sb a (i : inode) : Prop := mk_entry_ok {
  en_ref : 0 <= i_ref i;
  en_lock : unlocked (i_lock i);
  en_valid : 0 < i_ref i -> i_dev i = t_dev -> i_valid i = true -> i_di i = disk_inode sb (t_view a) (i_inum i)
}.

Record quiet_fs s a : Prop := mk_quiet_fs {
  q_rel : t_rel (f_tx s) a;
  q_held : t_held a = ∅;
  q_sb : sb_ok (f_sb s) (t_size a);
  q_meta : meta_used (f_sb s) (t_view a);
  q_cap : (size (t_logged a) < t_cap a)%nat;
  q_tree : tree_ok (f_sb s) (t_view a);
  q_lock : f_lock s = initlock;
  q_entry j : entry_ok (f_sb s) a (f_inode s j)
}.

(** Only entry [ip] has changed, to [x]. *)
Record isat s a (ip : nat) (x : inode) s' : Prop := mk_isat {
  is_rel : t_rel (f_tx s') a;
  is_sb : f_sb s' = f_sb s;
  is_lock : f_lock s' = f_lock s;
  is_inode_eq : f_inode s' = fupd (f_inode s) ip x
}.

Lemma isat_trans s1 s2 s3 a ip x y : isat s1 a ip x s2 -> isat s2 a ip y s3 -> isat s1 a ip y s3.
Proof.
  intros [A1 A2 A3 A4] [B1 B2 B3 B4]. split; [done|congruence|congruence|]. by rewrite B4, A4, fupd_fupd.
Qed.

#[local] Instance ip_lens ip :
  Lens (fun s => i_lock (f_inode s ip)) (fun x s => i_put ip (i_set_lock x (f_inode s ip)) s) (i_wake ip).
Proof.
  split; simpl; intros; rewrite ?fupd_eq; try done.
  - unfold i_put. simpl. by rewrite fupd_fupd.
  - unfold i_put, i_set_lock. destruct s as [t sb l f w]. simpl.
    assert (E : mk_inode (i_dev (f ip)) (i_inum (f ip)) (i_ref (f ip)) (i_lock (f ip)) (i_valid (f ip)) (i_di (f ip)) = f ip)
      by (by destruct (f ip)).
    by rewrite E, fupd_id.
Qed.

Lemma wp_ip_acquire s a ip (Q : unit -> fs T -> Prop) :
  t_rel (f_tx s) a -> unlocked (i_lock (f_inode s ip)) ->
  (forall s', isat s a ip (i_set_lock (held_by pid) (f_inode s ip)) s' -> Q tt s') ->
  wp (ip_acquiresleep me pid ip) Q s.
Proof.
  intros R [Hl Hk] HQ. apply (wp_acquiresleep _ _ _ _ (i_wake ip)).
  - destruct (i_lock (f_inode s ip)). simpl in *. congruence.
  - apply HQ. by split.
Qed.

Lemma wp_ip_release s a ip (Q : unit -> fs T -> Prop) :
  t_rel (f_tx s) a -> sl_lk (i_lock (f_inode s ip)) = initlock ->
  (forall s', isat s a ip (i_set_lock initsleeplock (f_inode s ip)) s' -> Q tt s') ->
  wp (ip_releasesleep me ip) Q s.
Proof.
  intros R Hl HQ. apply (wp_releasesleep _ _ _ _); [done|]. apply HQ. split; try done.
  simpl. by rewrite fupd_eq, fupd_fupd.
Qed.

Lemma wp_ip_holding s ip (Q : bool -> fs T -> Prop) :
  i_lock (f_inode s ip) = held_by pid -> Q true s -> wp (ip_holdingsleep me pid ip) Q s.
Proof.
  intros Hl HQ. apply (wp_holdingsleep _ _ _ _ (i_wake ip)); rewrite Hl; [done|]. simpl. by rewrite Z.eqb_refl.
Qed.

(** *** Locking an inode *)

Lemma wpx_ilock P s a ip (Q : unit -> fs T -> Prop) :
  let i := f_inode s ip in
  quiet_fs s a -> 0 < i_ref i -> i_dev i = t_dev -> live (f_sb s) (t_view a) (i_inum i) ->
  (forall s', isat s a ip (mk_inode (i_dev i) (i_inum i) (i_ref i) (held_by pid) true
                 (disk_inode (f_sb s) (t_view a) (i_inum i))) s' -> Q tt s') ->
  wpx P (ilock me pid (Some ip)) Q s.
Proof.
  intros i [R Hh Hsb Hm Hc Htree Hl Hen] Hp Hdev [Hin Hty] HQ. unfold ilock, iget_field. apply wpx_bind, wpx_gets. fold i.
  rewrite (proj2 (Z.ltb_ge _ _)) by lia. destruct (Hen ip) as [_ Hlk Hval]. fold i in Hlk, Hval.
  apply wpx_bind, wpx_wp, (wp_ip_acquire s a); [done..|]. intros s1 I1. fold i in I1.
  assert (Hi1 : f_inode s1 ip = i_set_lock (held_by pid) i) by (by rewrite (is_inode_eq _ _ _ _ _ I1), fupd_eq).
  apply wpx_bind, wpx_gets. unfold id. rewrite Hi1. cbn [i_valid i_set_lock].
  destruct (i_valid i) eqn:Hv.
  { apply wpx_ret, HQ. rewrite <-(Hval Hp Hdev eq_refl). unfold i_set_lock in I1. by rewrite Hv in I1. }
  apply wpx_bind, wpx_gets. rewrite (is_sb _ _ _ _ _ I1). cbn [i_dev i_inum i_set_lock]. rewrite Hdev.
  destruct (IBLOCK_range _ _ (i_inum i) Hsb ltac:(lia)) as [_ Hb]. set (b := IBLOCK (i_inum i) (f_sb s)) in *.
  assert (Hr : 0 <= b < t_size a).
  { pose proof (so_inode _ _ Hsb). pose proof (dstart_bounds _ _ Hsb). pose proof (so_data _ _ Hsb). pose proof (so_size _ _ Hsb). lia. }
  apply wpx_bind, wpx_wp, (wp_f_bread s1 a); [apply I1|done|by apply held_empty_free|rewrite Hh, map_size_empty; lia|].
  intros k t1 Hk R1. apply wpx_bind, wpx_wp. eapply (wp_f_data (with_tx t1 s1) a k); [exact R1|].
  apply wpx_bind, wpx_modify, wpx_bind, wpx_wp. eapply (wp_f_brelse _ a k); [exact R1|done|]. intros t2 R2.
  apply wpx_bind, wpx_modify, wpx_bind, wpx_gets. cbn [f_inode i_put with_tx]. rewrite fupd_eq.
  cbn [i_di i_set_valid]. rewrite fupd_eq. cbn [i_di i_set_di]. change (get_dinode (t_view a b) (di_off (i_inum i))) with (disk_inode (f_sb s) (t_view a) (i_inum i)).
  rewrite (proj2 (Z.eqb_neq _ _) Hty). apply wpx_ret, HQ. split; cbn [f_tx f_sb f_lock f_inode i_put with_tx].
  - done.
  - apply I1.
  - apply I1.
  - rewrite (is_inode_eq _ _ _ _ _ I1), !fupd_eq, !fupd_fupd. done.
Qed.

Lemma wp_iunlock s a ip (Q : unit -> fs T -> Prop) :
  t_rel (f_tx s) a -> i_lock (f_inode s ip) = held_by pid -> 0 < i_ref (f_inode s ip) ->
  (forall s', isat s a ip (i_set_lock initsleeplock (f_inode s ip)) s' -> Q tt s') ->
  wp (iunlock me pid (Some ip)) Q s.
Proof.
  intros R Hl Hp HQ. unfold iunlock, iget_field. apply wp_bind, wp_ip_holding; [done|]. apply wp_bind, wp_gets.
  rewrite (proj2 (Z.ltb_ge _ _)) by lia. cbn [negb orb]. apply (wp_ip_release s a); [done|by rewrite Hl|done].
Qed.

(** [iput] of an inode that has links, or is not the last reference. *)
Lemma wp_iput s a ip (Q : unit -> fs T -> Prop) :
  t_rel (f_tx s) a -> f_lock s = initlock -> unlocked (i_lock (f_inode s ip)) ->
  di_nlink (i_di (f_inode s ip)) <> 0 \/ i_valid (f_inode s ip) = false ->
  (forall s', isat s a ip (i_set_ref (i_ref (f_inode s ip) - 1) (i_set_lock initsleeplock (f_inode s ip))) s' -> Q tt s') ->
  wp (iput me pid ip) Q s.
Proof.
  intros R Hk Hl Hn HQ. unfold iput, iget_field. apply wp_bind, (wp_ip_acquire s a); [done..|]. intros s1 I1.
  assert (Hi1 : f_inode s1 ip = i_set_lock (held_by pid) (f_inode s ip)) by (by rewrite (is_inode_eq _ _ _ _ _ I1), fupd_eq).
  apply wp_bind, wp_gets. unfold id. rewrite Hi1. cbn [i_valid i_di i_set_lock].
  assert (E : i_valid (f_inode s ip) && (di_nlink (i_di (f_inode s ip)) =? 0) = false).
  { destruct Hn as [Hn| ->]; [|done]. rewrite (proj2 (Z.eqb_neq _ _) Hn). apply andb_false_r. }
  rewrite E. apply wp_bind, wp_ret, wp_bind, (wp_ip_release s1 a); [apply I1|by rewrite Hi1|]. intros s2 I2.
  pose proof (isat_trans _ _ _ _ _ _ _ I1 I2) as [J1 J2 J3 J4]. rewrite Hi1 in J4.
  unfold lock_icache, unlock_icache. apply wp_bind, wp_acquire; [by rewrite J3|].
  apply wp_bind, wp_modify, wp_release; [done|]. apply HQ.
  split; cbn [f_tx f_sb f_lock f_inode i_put]; [done|done|by rewrite Hk|]. by rewrite J4, fupd_eq, fupd_fupd.
Qed.

Lemma wp_iunlockput s a ip (Q : unit -> fs T -> Prop) :
  t_rel (f_tx s) a -> f_lock s = initlock -> i_lock (f_inode s ip) = held_by pid -> 0 < i_ref (f_inode s ip) ->
  di_nlink (i_di (f_inode s ip)) <> 0 ->
  (forall s', isat s a ip (i_set_ref (i_ref (f_inode s ip) - 1) (i_set_lock initsleeplock (f_inode s ip))) s' -> Q tt s') ->
  wp (iunlockput me pid ip) Q s.
Proof.
  intros R Hk Hl Hp Hn HQ. unfold iunlockput. apply wp_bind, (wp_iunlock s a); [done..|]. intros s1 I1.
  assert (Hi1 : f_inode s1 ip = i_set_lock initsleeplock (f_inode s ip)) by (by rewrite (is_inode_eq _ _ _ _ _ I1), fupd_eq).
  apply (wp_iput s1 a); [apply I1|by rewrite (is_lock _ _ _ _ _ I1)|by rewrite Hi1|left; by rewrite Hi1|].
  intros s2 I2. apply HQ. rewrite Hi1 in I2. by eapply isat_trans.
Qed.

(** ** [namex] *)

Definition answer (parent : bool) sb v (inum : Z) (es : list (list Z)) : option Z :=
  if parent then resolve_parent sb v inum es else resolve sb v inum es.

Lemma answer_step parent sb v inum e es :
  parent = false \/ es <> [] ->
  answer parent sb v inum (e :: es) =
  if di_type (disk_inode sb v inum) =? T_DIR then
    match dfind (dir_of sb v inum) e with
    | Some i => answer parent sb v (de_inum (dent (dir_of sb v inum) i)) es
    | None => None
    end
  else None.
Proof.
  intros Hes. unfold answer. destruct parent; [|done]. destruct es as [|e' es]; [by destruct Hes|].
  unfold resolve_parent. rewrite last_cons_cons. 
  assert (Hl : exists x, last (e' :: es) = Some x).
  { destruct (last (e' :: es)) eqn:E; [eauto|]. by apply last_None in E. }
  destruct Hl as [x ->]. change (removelast (e :: e' :: es)) with (e :: removelast (e' :: es)). cbn [resolve].
  destruct (di_type _ =? T_DIR); [|done]. by destruct (dfind _ e).
Qed.

(** What the walk from entry [ip] over the elements [es] leaves behind. *)
Record walked s a (ip : nat) (parent : bool) (es : list (list Z)) s' (r : option nat) (name : list Z) : Prop := mk_walked {
  wk_quiet : quiet_fs s' a;
  wk_sb : f_sb s' = f_sb s;
  wk_refs j : i_ref (f_inode s' j) =
    i_ref (f_inode s j) - (if decide (j = ip) then 1 else 0) + (if decide (r = Some j) then 1 else 0);
  wk_answer :
    match answer parent (f_sb s) (t_view a) (i_inum (f_inode s ip)) es with
    | Some n => exists q, r = Some q /\ i_dev (f_inode s' q) = t_dev /\ i_inum (f_inode s' q) = n
    | None => r = None
    end;
  wk_name : parent = true -> r <> None -> exists e, last es = Some e /\ cname DIRSIZ name = take DIRSIZ e
}.

Lemma quiet_isat s a ip x s' : quiet_fs s a -> isat s a ip x s' -> entry_ok (f_sb s) a x -> quiet_fs s' a.
Proof.
  intros [Q1 Q2 Q3 Q4 Q5 Q6 Q7 Q8] [I1 I2 I3 I4] Hx. split; rewrite ?I2, ?I3; try done.
  intros j. rewrite I4. unfold fupd. destruct (decide (j = ip)); auto.
Qed.

Lemma got_entry_ok sb s a dev inum ip s' j :
  entry_ok sb a (f_inode s j) -> got s dev inum ip s' -> entry_ok sb a (f_inode s' j).
Proof.
  intros Hen Hg. destruct (decide (j = ip)) as [->|Hj]; [|by rewrite (gt_other _ _ _ _ _ Hg)].
  destruct Hen as [E1 E2 E3]. destruct (gt_this _ _ _ _ _ Hg) as [[Hk ->]|(_ & _ & ->)].
  - unfold is_inode in Hk. apply andb_true_iff in Hk as [[Hp%Z.ltb_lt _]%andb_true_iff _]. split; simpl; [lia|done|auto].
  - by split.
Qed.

(** One element that is not a directory entry ends the walk. *)
Lemma walked_none s a ip parent es x s' name :
  quiet_fs s a -> isat s a ip x s' -> entry_ok (f_sb s) a x -> i_ref x = i_ref (f_inode s ip) - 1 ->
  answer parent (f_sb s) (t_view a) (i_inum (f_inode s ip)) es = None -> walked s a ip parent es s' None name.
Proof.
  intros Hq Hi Hx Hr Ha. split; [by eapply quiet_isat|apply Hi| |by rewrite Ha|done].
  intros j. rewrite (is_inode_eq _ _ _ _ _ Hi). unfold fupd. rewrite (decide_False (P := None = Some j)) by done.
  destruct (decide (j = ip)) as [->|]; lia.
Qed.

Lemma walked_some s a ip parent es x s' name :
  quiet_fs s a -> isat s a ip x s' -> entry_ok (f_sb s) a x -> i_ref x = i_ref (f_inode s ip) ->
  i_dev x = t_dev -> i_inum x = i_inum (f_inode s ip) ->
  answer parent (f_sb s) (t_view a) (i_inum (f_inode s ip)) es = Some (i_inum (f_inode s ip)) ->
  (parent = true -> exists e, last es = Some e /\ cname DIRSIZ name = take DIRSIZ e) ->
  walked s a ip parent es s' (Some ip) name.
Proof.
  intros Hq Hi Hx Hr Hd Hn Ha Hname. split; [by eapply quiet_isat|apply Hi| | |intros Hp _; auto].
  - intros j. rewrite (is_inode_eq _ _ _ _ _ Hi). unfold fupd. destruct (decide (j = ip)) as [->|Hj].
    + rewrite decide_True by done. lia.
    + rewrite decide_False by congruence. lia.
  - rewrite Ha. exists ip. split; [done|]. rewrite (is_inode_eq _ _ _ _ _ Hi), fupd_eq. done.
Qed.

(** Going on from the entry found for the first element. *)
Lemma walked_step s a ip parent e es s3 nx s' r name :
  f_sb s3 = f_sb s ->
  answer parent (f_sb s) (t_view a) (i_inum (f_inode s ip)) (e :: es) =
    answer parent (f_sb s) (t_view a) (i_inum (f_inode s3 nx)) es ->
  (forall j, i_ref (f_inode s3 j) =
     i_ref (f_inode s j) - (if decide (j = ip) then 1 else 0) + (if decide (j = nx) then 1 else 0)) ->
  parent = false \/ es <> [] ->
  walked s3 a nx parent es s' r name -> walked s a ip parent (e :: es) s' r name.
Proof.
  intros Hsb Ha Hr Hes [W1 W2 W3 W4 W5]. rewrite Hsb in *. split; [done|done| | |].
  - intros j. rewrite W3, Hr. lia.
  - by rewrite Ha.
  - intros Hp Hn. destruct (W5 Hp Hn) as (x & Hx & Hname). exists x. split; [|done].
    destruct es as [|y es]; [by destruct Hes; congruence|]. by rewrite last_cons_cons.
Qed.

Lemma wpx_namex_loop P fuel s a ip path parent name (Q : option nat * list Z -> fs T -> Prop) :
  P "iget: no inodes"%string -> quiet_fs s a -> 0 < i_ref (f_inode s ip) -> i_dev (f_inode s ip) = t_dev ->
  live (f_sb s) (t_view a) (i_inum (f_inode s ip)) -> cpath path -> bytes name -> (length path < fuel)%nat ->
  (forall s' r name', walked s a ip parent (elements [] path) s' r name' -> Q (r, name') s') ->
  wpx P (namex_loop me pid devsw fuel ip path parent name) Q s.
Proof.
  intros HP. revert s ip path name. induction fuel as [|k IH]; intros s ip path name Hq Hp Hdev Hlive Hpath Hname Hf HQ; [lia|].
  cbn [namex_loop]. pose proof Hq as [R Hh Hsb Hm Hc Htree Hl Hen]. set (i := f_inode s ip) in *. set (inum := i_inum i) in *.
  destruct (Hen ip) as [Er El Ev]. fold i in Er, El, Ev. set (di := disk_inode (f_sb s) (t_view a) inum) in *.
  pose proof (tr_link _ _ Htree _ Hlive) as Hnl. fold inum di in Hnl.
  destruct (skipelem path name) as [[path' name']|] eqn:Hskip.
  2:{ apply skipelem_None in Hskip. rewrite Hskip in HQ. destruct parent.
      - apply wpx_bind, wpx_wp, (wp_iput s a); [done..| |].
        + fold i. destruct (i_valid i) eqn:Hv; [|by right]. left. rewrite Ev by done. done.
        + intros s' Hi. apply wpx_ret, HQ. eapply walked_none; [done|exact Hi| |done|done].
          split; simpl; [fold i; lia|done|]. fold i. intros ? ? ?. apply Ev; [lia|done|done].
      - apply wpx_ret, HQ. apply (walked_some s a ip false [] i); try done. split; try done. by rewrite fupd_id. }
  destruct (skipelem_Some _ _ _ _ Hpath Hname Hskip) as (e & Hes & Hcn & Hce & Hcp & Hbn & Hlen & Hnil).
  rewrite Hes in HQ. set (x := mk_inode (i_dev i) inum (i_ref i) (held_by pid) true di).
  apply wpx_bind, (wpx_ilock P s a); [done..|]. fold i inum di x. intros s1 I1.
  assert (Hi1 : f_inode s1 ip = x) by (by rewrite (is_inode_eq _ _ _ _ _ I1), fupd_eq).
  assert (Hl1 : f_lock s1 = initlock) by (by rewrite (is_lock _ _ _ _ _ I1)).
  set (y := i_set_ref (i_ref i - 1) (i_set_lock initsleeplock x)).
  assert (Hy : entry_ok (f_sb s) a y) by (by split; simpl; [lia|..]).
  (* the walk ends at this element *)
  assert (Hend : forall s2 n, f_lock s2 = initlock -> isat s a ip x s2 ->
    answer parent (f_sb s) (t_view a) inum (e :: elements [] path') = None ->
    wpx P (iunlockput me pid ip ;;; ret (None, n)) Q s2).
  { intros s2 n Hl2 I2 Ha. assert (Hi2 : f_inode s2 ip = x) by (by rewrite (is_inode_eq _ _ _ _ _ I2), fupd_eq).
    apply wpx_bind, wpx_wp, (wp_iunlockput s2 a); rewrite ?Hi2; try done; [apply I2|].
    intros s3 I3. apply wpx_ret, HQ. eapply walked_none; [done|eapply isat_trans; [exact I2|exact I3]|done|done|done]. }
  unfold iget_field. apply wpx_bind, wpx_gets. unfold id. rewrite Hi1. cbn [i_di x].
  assert (Hdir : parent = false \/ elements [] path' <> [] \/ (parent = true /\ path' = [])).
  { destruct parent; [|by left]. right. destruct (elements [] path') eqn:E; [right; auto|by left]. }
  destruct (Z.eqb_spec (di_type di) T_DIR) as [Hty|Hty]; cbn [negb].
  2:{ apply Hend; [done..|]. destruct Hdir as [Hd|[Hd|[-> ->]]].
      - rewrite answer_step by (by left). fold di. by rewrite (proj2 (Z.eqb_neq _ _) Hty).
      - rewrite answer_step by (by right). fold di. by rewrite (proj2 (Z.eqb_neq _ _) Hty).
      - change (elements [] []) with (@nil (list Z)). unfold answer, resolve_parent. cbn [last removelast resolve].
        fold di. by rewrite (proj2 (Z.eqb_neq _ _) Hty). }
  destruct (parent && bool_decide (path' = [])) eqn:Hstop.
  { apply andb_true_iff in Hstop as [-> ->%bool_decide_eq_true]. change (elements [] []) with (@nil (list Z)) in HQ.
    apply wpx_bind, wpx_wp, (wp_iunlock s1 a); rewrite ?Hi1; [apply I1|done..|]. intros s2 I2. apply wpx_ret, HQ.
    apply (walked_some s a ip true [e] (i_set_lock initsleeplock x)); try done.
    - by eapply isat_trans.
    - unfold answer, resolve_parent. cbn [last removelast resolve]. fold i inum di. by rewrite (proj2 (Z.eqb_eq _ _) Hty).
    - intros _. by exists e. }
  assert (Hstep : parent = false \/ elements [] path' <> []).
  { destruct Hdir as [Hd|[Hd|[-> ->]]]; [by left|by right|]. by rewrite bool_decide_true in Hstop. }
  pose proof (tr_wf _ _ Htree _ Hlive) as Hwf. fold di in Hwf.
  assert (Hent : entries s1 a ip = dir_of (f_sb s) (t_view a) inum) by (unfold entries; by rewrite Hi1).
  assert (Hbd : bytes (dir_of (f_sb s) (t_view a) inum)).
  { eapply contents_bytes; [done|exact Hwf|]. intros b Hb. by apply (t_view_ok _ _ _ R). }
  assert (Hfind : dfind (dir_of (f_sb s) (t_view a) inum) name' = dfind (dir_of (f_sb s) (t_view a) inum) e).
  { apply dfind_cname; try done; [eapply Forall_impl; [exact Hce|]; simpl; lia|]. by rewrite Hcn, cname_take. }
  assert (Ha := answer_step parent (f_sb s) (t_view a) inum e _ Hstep). fold di in Ha.
  rewrite (proj2 (Z.eqb_eq _ _) Hty) in Ha.
  assert (Hrd : ready_dir s1 a ip).
  { split; rewrite ?Hi1; try done; [|by apply (tr_dir _ _ Htree)].
    split; rewrite ?Hi1, ?(is_sb _ _ _ _ _ I1); try done. apply I1. }
  apply wpx_bind, (wpx_dirlookup me devsw P s1 a); [done..|]. rewrite Hent, Hfind. intros t Rt.
  destruct (dfind (dir_of (f_sb s) (t_view a) inum) e) as [j|] eqn:Hdf.
  2:{ apply Hend; [done| |by rewrite Ha]. destruct I1 as [J1 J2 J3 J4]. by split. }
  set (n := de_inum (dent (dir_of (f_sb s) (t_view a) inum) j)) in *. intros nx s2 Hg.
  assert (Hnl' : live (f_sb s) (t_view a) n).
  { apply first_Some in Hdf as [Hin%list_elem_of_In%in_seq Hj]. apply (tr_entry _ _ Htree); try done; [lia|].
    unfold dmatch in Hj. by apply andb_true_iff in Hj as [Hj%negb_true_iff%Z.eqb_neq _]. }
  destruct (got_key _ _ _ _ _ Hg) as (G1 & G2 & G3 & G4). cbn [f_inode with_tx] in *.
  destruct (got_used _ _ _ _ _ ip Hg) as (U1 & U2 & U3 & U4 & U5); [cbn [f_inode with_tx]; by rewrite Hi1|].
  cbn [f_inode with_tx] in U1, U2, U3, U4, U5. rewrite Hi1 in U1, U2, U3, U4, U5. cbn [i_di i_dev i_inum i_valid i_lock x] in *.
  assert (Hr2 : i_ref (f_inode s2 ip) = i_ref i + if decide (ip = nx) then 1 else 0).
  { destruct (decide (ip = nx)) as [<-|Hne]; [by rewrite G3, Hi1|].
    rewrite (gt_other _ _ _ _ _ Hg) by done. cbn [f_inode with_tx]. rewrite Hi1. simpl. lia. }
  apply wpx_bind, wpx_wp, (wp_iunlockput s2 a);
    [by rewrite (gt_tx _ _ _ _ _ Hg)|by rewrite (gt_lock _ _ _ _ _ Hg)|done|case_decide; lia|by rewrite U1|].
  intros s3 I3. set (z := i_set_ref _ _) in I3.
  assert (Hsb3 : f_sb s3 = f_sb s) by (rewrite (is_sb _ _ _ _ _ I3), (gt_sb _ _ _ _ _ Hg); apply I1).
  assert (Hin3 : forall j, f_inode s3 j = if decide (j = ip) then z else f_inode s2 j).
  { intros j'. by rewrite (is_inode_eq _ _ _ _ _ I3). }
  assert (Hin1 : forall j, j <> ip -> f_inode s1 j = f_inode s j).
  { intros j' Hj'. by rewrite (is_inode_eq _ _ _ _ _ I1), fupd_ne. }
  assert (Hz : entry_ok (f_sb s) a z).
  { split; unfold z; simpl; [case_decide; lia|done|]. intros _ _ _. by rewrite U1, U3. }
  assert (Hq3 : quiet_fs s3 a).
  { split; rewrite ?Hsb3; try done; [apply I3|by rewrite (is_lock _ _ _ _ _ I3), (gt_lock _ _ _ _ _ Hg)|].
    intros j'. rewrite Hin3. destruct (decide (j' = ip)); [exact Hz|]. eapply got_entry_ok; [|exact Hg]. cbn [f_inode with_tx]. by rewrite Hin1. }
  assert (Hnx3 : i_dev (f_inode s3 nx) = t_dev /\ i_inum (f_inode s3 nx) = n /\ 0 < i_ref (f_inode s3 nx)).
  { rewrite Hin3. destruct (decide (nx = ip)) as [->|Hne]; [|split_and!; [done..|lia]].
    unfold z. simpl. rewrite decide_True in Hr2 by done. split_and!; [done..|lia]. }
  destruct Hnx3 as (N1 & N2 & N3).
  apply IH; [done|done|done|by rewrite Hsb3, N2|done|done|lia|]. intros s' r nm Hw. apply HQ.
  eapply walked_step; [exact Hsb3| | |exact Hstep|exact Hw].
  - fold i inum. by rewrite Ha, N2.
  - intros j'. rewrite Hin3. destruct (decide (j' = ip)) as [->|Hj'].
    + unfold z. simpl. fold i. lia.
    + destruct (decide (j' = nx)) as [->|Hj2]; [rewrite G3|rewrite (gt_other _ _ _ _ _ Hg) by done]; cbn [f_inode with_tx];
        rewrite Hin1 by done; lia.
Qed.

(** What a path name leads to, from inode [start]. *)
Record resolved s a (parent : bool) (start : Z) (path : list Z) (r : option nat) (name : list Z) s' : Prop := mk_resolved {
  rs_quiet : quiet_fs s' a;
  rs_refs j : i_ref (f_inode s' j) = i_ref (f_inode s j) + if decide (r = Some j) then 1 else 0;
  rs_answer :
    match (if parent then resolve_parent else resolve) (f_sb s) (t_view a) start (elements [] path) with
    | Some n => exists q, r = Some q /\ i_dev (f_inode s' q) = t_dev /\ i_inum (f_inode s' q) = n
    | None => r = None
    end;
  rs_name : parent = true -> r <> None ->
    exists e, last (elements [] path) = Some e /\ cname DIRSIZ name = take DIRSIZ e
}.

Definition start_of s (cwd : nat) (path : list Z) : Z :=
  if bool_decide (path !! 0%nat = Some 47) then ROOTINO else i_inum (f_inode s cwd).

Lemma resolved_from s s1 a parent ip path r name s' :
  f_sb s1 = f_sb s ->
  (forall j, i_ref (f_inode s1 j) = i_ref (f_inode s j) + if decide (j = ip) then 1 else 0) ->
  walked s1 a ip parent (elements [] path) s' r name ->
  resolved s a parent (i_inum (f_inode s1 ip)) path r name s'.
Proof.
  intros Hsb Hr [W1 W2 W3 W4 W5]. rewrite Hsb in *. split; [done| |by destruct parent|done].
  intros j. rewrite W3, Hr. lia.
Qed.

(** C11: With no inode locked, a path name leads where its elements lead through the
    directories on the disk, and [namei] and [nameiparent] return a new reference to
    that inode, or 0 if there is none; every other reference taken on the way has been
    put back, and no block has changed.  Only a full inode cache stops them. *)
Theorem namex_resolves s a cwd path parent name :
  quiet_fs s a -> t_dev = ROOTDEV -> live (f_sb s) (t_view a) ROOTINO ->
  0 < i_ref (f_inode s cwd) -> i_dev (f_inode s cwd) = ROOTDEV -> live (f_sb s) (t_view a) (i_inum (f_inode s cwd)) ->
  cpath path -> bytes name ->
  wpx (eq "iget: no inodes"%string) (namex me pid devsw cwd path parent name)
    (fun r s' => resolved s a parent (start_of s cwd path) path (fst r) (snd r) s') s.
Proof.
  intros Hq Hroot Hlr Hp Hdev Hlive Hpath Hname. unfold namex, start_of.
  destruct (bool_decide (path !! 0%nat = Some 47)); apply wpx_bind.
  - apply wpx_iget; [done|apply Hq|]. intros ip s1 Hg. destruct (got_key _ _ _ _ _ Hg) as (G1 & G2 & G3 & G4).
    rewrite <-Hroot in G1.
    assert (Hq1 : quiet_fs s1 a).
    { destruct Hq as [R Hh Hsb Hm Hc Htree Hl Hen]. destruct Hg as [E1 E2 E3 E4 E5 E6 E7] eqn:Eg.
      split; rewrite ?E1, ?E2, ?E3; try done. intros j. by eapply got_entry_ok. }
    pose proof (gt_sb _ _ _ _ _ Hg) as Esb.
    apply (wpx_namex_loop _ _ s1 a); try done; [lia|by rewrite Esb, G2|lia|]. intros s' r nm Hw. simpl.
    pose proof (resolved_from s s1 a parent ip path r nm s') as HR. rewrite G2 in HR. apply HR; [done| |done].
    intros j. destruct (decide (j = ip)) as [->|Hj]; [done|]. rewrite (gt_other _ _ _ _ _ Hg) by done. lia.
  - unfold idup, lock_icache, unlock_icache. apply wpx_wp, wp_bind, wp_acquire; [apply Hq|].
    apply wp_bind, wp_modify, wp_bind, wp_release; [done|]. apply wp_ret.
    set (s1 := mk_fs _ _ _ _ _).
    assert (Hc1 : f_inode s1 cwd = i_set_ref (i_ref (f_inode s cwd) + 1) (f_inode s cwd)) by (unfold s1; simpl; by rewrite fupd_eq).
    assert (Hq1 : quiet_fs s1 a).
    { destruct Hq as [R Hh Hsb Hm Hc Htree Hl Hen]. split; try done. intros j. unfold s1. simpl. unfold fupd.
      destruct (decide (j = cwd)) as [->|]; [|done]. destruct (Hen cwd). split; simpl; [lia|done|auto]. }
    assert (Hn1 : i_inum (f_inode s1 cwd) = i_inum (f_inode s cwd)) by (by rewrite Hc1).
    apply (wpx_namex_loop _ _ s1 a); rewrite ?Hc1; try done; [simpl; lia|simpl; congruence|lia|].
    intros s' r nm Hw. simpl.
    pose proof (resolved_from s s1 a parent cwd path r nm s') as HR. rewrite Hn1 in HR. apply HR; [done| |done].
    intros j. unfold s1. simpl. unfold fupd. destruct (decide (j = cwd)) as [->|]; simpl; lia.
Qed.
End path.
