(* ===== verification/TxIdeal.v ===== *)
(** * The specification of transactions, as a block layer

    The abstract view of [Tx] is itself an implementation of the operations: blocks in
    memory, a table of locked buffers and the set of blocks logged.  The file system
    runs on it as it does on the log, which gives the concrete runs of the theorems
    about it. *)

From S2P Require Import Prelude Spinlock Block Disk Bio Layout Log Tx.

(** A buffer index that is not in use. *)
Definition fresh_buf (h : gmap nat (Z * block)) : nat := S (map_fold (fun i _ n => Nat.max i n) 0%nat h).

Lemma fresh_buf_None h : h !! fresh_buf h = None.
Proof.
  unfold fresh_buf. apply eq_None_not_Some. intros [x Hx].
  assert (Hle : forall i y, h !! i = Some y -> (i <= map_fold (fun i _ n => Nat.max i n) 0 h)%nat).
  { apply (map_fold_weak_ind (fun n h => forall i y, h !! i = Some y -> (i <= n)%nat)); [done|].
    intros j y h' n Hj IH i z. destruct (decide (i = j)) as [->|Hne]; [lia|].
    rewrite lookup_insert_ne by done. intros Hi. specialize (IH i z Hi). lia. }
  specialize (Hle _ _ Hx). lia.
Qed.

Definition ideal_dev : Z := 1.

Definition ideal_free (s : tabs) (b : Z) : bool := forallb (fun x => negb (fst (snd x) =? b)) (map_to_list (t_held s)).

Lemma ideal_free_spec s b : t_free s b -> ideal_free s b = true.
Proof.
  intros Hf. unfold ideal_free. apply forallb_forall. intros [i [b' d]] Hin%list_elem_of_In%elem_of_map_to_list.
  simpl. apply negb_true_iff, Z.eqb_neq. intros ->. by apply (Hf i d).
Qed.

#[export] Instance ideal_ops : TxOps tabs := {|
  t_bread dev b := fun s =>
    if (dev =? ideal_dev) && (0 <=? b) && (b <? t_size s) then
      if ideal_free s b then Ok (fresh_buf (t_held s)) (t_hold (fresh_buf (t_held s)) (b, t_view s b) s) else Blocked s
    else Panic "iderw";
  t_data i s := match t_held s !! i with Some (_, d) => d | None => [] end;
  t_set_data i d s := match t_held s !! i with Some (b, _) => t_hold i (b, d) s | None => s end;
  t_log_write i := fun s =>
    match t_held s !! i with
    | Some (b, _) => if (size (t_logged s) <? t_cap s)%nat then Ok tt (t_log b s) else Panic "too big a transaction"
    | None => Panic "log_write outside of trans"
    end;
  t_brelse i := fun s =>
    match t_held s !! i with Some (b, d) => Ok tt (t_release i b d s) | None => Panic "brelse" end |}.

Record ideal_rel (s a : tabs) : Prop := mk_ideal_rel {
  id_eq : tabs_eq s a;
  id_view b : 0 <= b < t_size a -> block_ok (t_view a b);
  id_held i b d : t_held a !! i = Some (b, d) -> 0 <= b < t_size a /\ block_ok d;
  id_range : t_size a < 2147483648
}.

#[local] Obligation Tactic := idtac.
#[export] Program Instance ideal_tx : Tx tabs := {| t_dev := ideal_dev; t_rel := ideal_rel |}.
Next Obligation.
  intros s a a' [E1 E2 E3 E4 E5] [[F1 F2 F3 F4 F5] Hv Hh Hr]. split; rewrite ?E1, ?E3; try done.
  - split; try (etrans; eassumption). intros x. by rewrite E2.
  - intros b Hb. rewrite E2. auto.
Qed.
Next Obligation.
  intros s a b Q [[F1 F2 F3 F4 F5] Hv Hh Hr] Hb Hf Hc HQ. unfold wp. simpl.
  rewrite (proj2 (Z.leb_le _ _)) by lia. rewrite <-F1, (proj2 (Z.ltb_lt _ _)) by lia. simpl.
  rewrite ideal_free_spec by (unfold t_free in *; by rewrite <-F3). rewrite <-F3.
  apply HQ; [apply fresh_buf_None|]. split; simpl; [split; simpl; try done; by rewrite F2, F3|done| |done].
  intros i b' d. destruct (decide (i = fresh_buf (t_held a))) as [->|Hne].
  - rewrite lookup_insert_eq. intros [= <- <-]. auto.
  - rewrite lookup_insert_ne by done. apply Hh.
Qed.
Next Obligation. intros s a i b d [[F1 F2 F3 F4 F5] Hv Hh Hr] Hi. simpl. by rewrite <-F3, Hi. Qed.
Next Obligation.
  intros s a i b d d' [[F1 F2 F3 F4 F5] Hv Hh Hr] Hi Hok. simpl. rewrite <-F3, Hi.
  split; simpl; [split; simpl; try done; by rewrite F3|done| |done].
  intros j b' e. destruct (decide (j = i)) as [->|Hne].
  - rewrite lookup_insert_eq. intros [= <- <-]. split; [by apply (Hh i b d)|done].
  - rewrite lookup_insert_ne by done. apply Hh.
Qed.
Next Obligation.
  intros s a i b d Q [[F1 F2 F3 F4 F5] Hv Hh Hr] Hi Hc HQ. unfold wp. simpl. rewrite <-F3, Hi.
  rewrite <-F4, <-F5, (proj2 (Nat.ltb_lt _ _)) by done. apply HQ.
  split; simpl; try done. split; simpl; try done. by rewrite F4.
Qed.
Next Obligation.
  intros s a i b d Q [[F1 F2 F3 F4 F5] Hv Hh Hr] Hi Hok HQ. unfold wp. simpl. rewrite <-F3, Hi.
  apply HQ. split; simpl; [split; simpl; try done| | |done].
  - intros x. unfold disk_write. by destruct (x =? _).
  - by rewrite F3.
  - intros x Hx. unfold disk_write. simpl. destruct (x =? b); [by apply (Hh i b d)|auto].
  - intros j b' e Hj. apply lookup_delete_Some in Hj as [_ Hj]. by eapply Hh.
Qed.
Next Obligation. intros s a b [[F1 F2 F3 F4 F5] Hv Hh Hr]. auto. Qed.
Next Obligation. intros s a i b d [[F1 F2 F3 F4 F5] Hv Hh Hr]. apply Hh. Qed.
Next Obligation. intros s a [[F1 F2 F3 F4 F5] Hv Hh Hr]. done. Qed.
Next Obligation. reflexivity. Qed.
