(* ===== verification/FsProps.v ===== *)
(** * The file system: its theorems

    What [balloc], [readi], [writei], [dirlookup] and [dirlink] promise to their callers,
    over any block layer with transactions, and a small file system at which these
    theorems and those on path names and the inode cache are used. *)

From S2P Require Import Prelude Spinlock Sleeplock Block Disk Layout Format Mem CString Tx TxIdeal Fs FsBlocks.
From S2P Require Import FsInode FsRw FsCache FsDir FsPath.

Section fs_theorems.
Context {T : Type} `{Tx T} (me : nat) (pid : Z) (devsw : Z -> @dev_ops T).
Implicit Types (s : fs T) (a : tabs).

(** [balloc] returns a block of the data area that was free; it is now in use and
    filled with zeros, the bitmap and the contents of all other blocks are unchanged.
    It panics only when every block is in use. *)
Theorem balloc_fresh s a :
  t_rel (f_tx s) a -> sb_ok (f_sb s) (t_size a) -> meta_used (f_sb s) (t_view a) -> held_data (f_sb s) a ->
  (size (t_logged a) + size (t_held a) + 1 < t_cap a)%nat ->
  wpx (fun e => e = "balloc: out of blocks"%string /\ forall x, 0 <= x < sb_size (f_sb s) -> used (f_sb s) (t_view a) x = true)
    (balloc t_dev)
    (fun y s' => exists t v', s' = with_tx t s /\ allocated (f_sb s) (t_view a) v' y /\
       t_rel t (t_with v' (t_logged a ∪ {[BBLOCK y (f_sb s)]} ∪ {[y]}) a)) s.
Proof.
  intros R Hsb Hm Hh Hc. apply (wpx_balloc _ s a); try done; [|eauto].
  destruct (decide (Forall (fun x => used (f_sb s) (t_view a) x = true) (seqZ 0 (sb_size (f_sb s))))) as [Hall|Hno].
  - left. split; [done|]. intros x Hx. rewrite Forall_forall in Hall. apply Hall, elem_of_seqZ. lia.
  - right. apply not_Forall_Exists, Exists_exists in Hno as (x & Hx%elem_of_seqZ & Hu); [|apply _].
    exists x. split; [lia|]. by apply not_true_iff_false.
Qed.

(** C10: [readi] returns the bytes of the file from [off] on, at most [n] of them and not
    beyond its end, and -1 when [off] is beyond the end or [off + n] wraps around; it
    changes nothing. *)
Theorem readi_correct s a ip off n :
  let c := contents (t_view a) (i_di (f_inode s ip)) in
  ready_ip s a ip -> (size (t_logged a) < t_cap a)%nat -> di_type (i_di (f_inode s ip)) <> T_DEV ->
  0 <= off < W32 -> 0 <= n < W32 ->
  wp (readi devsw ip off n)
    (fun r s' => exists t, s' = with_tx t s /\ t_rel t a /\
       r = if (off <=? Z.of_nat (length c)) && (off + n <? W32)
           then (Z.min n (Z.of_nat (length c) - off), take (Z.to_nat n) (drop (Z.to_nat off) c))
           else (-1, [])) s.
Proof.
  intros c Hr Hc Hty Ho Hn. assert (Hl : Z.of_nat (length c) = di_size (i_di (f_inode s ip))).
  { unfold c. rewrite length_contents. pose proof (w_size _ _ _ (ri_wf _ _ _ Hr)). lia. }
  rewrite Hl. set (sz := di_size _) in *.
  pose proof (w_size _ _ _ (ri_wf _ _ _ Hr)) as Hsz. fold sz in Hsz. change (MAXFILE * 512) with 71680 in Hsz.
  assert (Hbad : (off <=? sz) && (off + n <? W32) = false -> wp (readi devsw ip off n) (fun r s' => s' = s /\ r = (-1, [])) s).
  { intros Hb. unfold readi, iget_field. wp_steps. unfold id. rewrite (proj2 (Z.eqb_neq _ _) Hty). fold sz.
    assert (E : (sz <? off) || (u32 (off + n) <? off) = true).
    { destruct (Z.leb_spec off sz) as [Hle|Hgt]; [|by rewrite (proj2 (Z.ltb_lt _ _) Hgt)].
      rewrite (proj2 (Z.ltb_ge _ _)) by lia. simpl in *. apply Z.ltb_ge in Hb. apply Z.ltb_lt.
      unfold u32, W32 in *. zlia. }
    by rewrite E. }
  destruct ((off <=? sz) && (off + n <? W32)) eqn:Hok.
  - apply andb_true_iff in Hok as [Hle%Z.leb_le Hlt%Z.ltb_lt].
    apply (wp_readi devsw s a); [done|done|done|fold sz; lia|lia|done|]. intros n' t R. exists t. split_and!; [done..|].
    fold sz in n'. unfold n'. f_equal. unfold c, contents. fold (fslice (t_view a) (i_di (f_inode s ip)) 0 (di_size (i_di (f_inode s ip)))).
    fold sz. rewrite drop_fslice by lia. destruct (Z.le_ge_cases n (sz - off)).
    + rewrite Z.min_l by done. replace (sz - off) with (n + (sz - off - n)) by lia. rewrite fslice_app by lia.
      by rewrite take_app_length' by (by rewrite length_fslice).
    + rewrite Z.min_r by done. rewrite take_ge; [done|]. rewrite length_fslice. lia.
  - eapply wp_mono; [by apply Hbad|]. intros r s' [-> ->]. exists (f_tx s). split_and!; [by destruct s|apply Hr|done].
Qed.

(** C9: [writei] writes the [n] bytes of [src] over the contents of the file at [off], which
    grows if they reach beyond its end; the inode on the disk is up to date, other
    inodes and the contents of files that share no block with it are as before, and at
    most two blocks are logged beside those of the data and the bitmap.  Out of range
    it returns -1 and changes nothing.  It panics only when the disk is full. *)
Theorem writei_correct s a ip src off n L :
  ready_ip s a ip -> di_type (i_di (f_inode s ip)) <> T_DEV -> 0 <= i_inum (f_inode s ip) < sb_ninodes (f_sb s) ->
  0 <= off < W32 -> 0 <= n < W32 -> n <= Z.of_nat (length src) -> bytes src ->
  bm_set (f_sb s) ⊆ L -> t_logged a ⊆ L -> (size L + nblk off n + 4 <= t_cap a)%nat ->
  wpx (eq "balloc: out of blocks"%string) (writei devsw ip src off n)
    (fun r s' =>
       if (off <=? di_size (i_di (f_inode s ip))) && (off + n <=? MAXFILE * 512)
       then r = n /\ exists a', written s a ip (take (Z.to_nat n) src) off L s' a'
       else r = -1 /\ s' = s) s.
Proof.
  intros Hr Hty Hin Ho Hn Hsrc Hb HL Hlog Hc. set (sz := di_size (i_di (f_inode s ip))).
  pose proof (w_size _ _ _ (ri_wf _ _ _ Hr)) as Hsz. fold sz in Hsz.
  destruct ((off <=? sz) && (off + n <=? MAXFILE * 512)) eqn:Hok.
  - apply andb_true_iff in Hok as [Hle%Z.leb_le Hm%Z.leb_le].
    apply (wpx_writei devsw (eq _) eq_refl s a ip src off n L); try done; [fold sz; lia|lia|]. eauto.
  - unfold writei, iget_field. wpx_steps. unfold id. rewrite (proj2 (Z.eqb_neq _ _) Hty). fold sz.
    change (Z.of_nat BSIZE) with 512. change (MAXFILE * 512) with 71680 in *.
    destruct ((sz <? off) || (u32 (off + n) <? off)) eqn:E; [done|].
    apply orb_false_iff in E as [E1%Z.ltb_ge E2%Z.ltb_ge]. rewrite (proj2 (Z.leb_le _ _) E1) in Hok. simpl in Hok.
    apply Z.leb_gt in Hok. by rewrite (proj2 (Z.ltb_lt _ _) Hok).
Qed.

(** [dirlookup] returns the first entry in use that has the name, with a reference to
    its inode and its offset, or 0 if there is none; the directory is not changed. *)
Theorem dirlookup_finds s a dp name :
  f_lock s = initlock -> ready_dir s a dp ->
  wpx (eq "iget: no inodes"%string) (dirlookup me devsw dp name)
    (fun r s' => exists t, t_rel t a /\
       match dfind (entries s a dp) name with
       | None => r = None /\ s' = with_tx t s
       | Some j => exists ip, r = Some (ip, 16 * Z.of_nat j) /\
           got (with_tx t s) t_dev (de_inum (dent (entries s a dp) j)) ip s'
       end) s.
Proof.
  intros Hl Hd. apply (wpx_dirlookup me devsw _ s a); [done..|]. intros t R.
  destruct (dfind (entries s a dp) name); eauto.
Qed.

(** C12: After [dirlink] of a name that was not there the directory holds it with its inode
    number, and every other name is found, or not found, as before. *)
Theorem dirlink_adds s a dp name inum L :
  f_lock s = initlock -> ready_dir s a dp -> 0 <= i_inum (f_inode s dp) < sb_ninodes (f_sb s) ->
  bytes name -> 0 < inum < 65536 -> dfind (entries s a dp) name = None ->
  di_size (i_di (f_inode s dp)) + 16 <= MAXFILE * 512 ->
  bm_set (f_sb s) ⊆ L -> t_logged a ⊆ L -> (size L + 5 <= t_cap a)%nat ->
  wpx (fun e => e = "iget: no inodes"%string \/ e = "balloc: out of blocks"%string) (dirlink me pid devsw dp name inum)
    (fun r s' => r = 0 /\ exists a' i, ready_dir s' a' dp /\
       dfind (entries s' a' dp) name = Some i /\ de_inum (dent (entries s' a' dp) i) = inum /\
       forall name', bytes name' -> cname DIRSIZ name' <> cname DIRSIZ name ->
         dfind (entries s' a' dp) name' = dfind (entries s a dp) name') s.
Proof.
  intros Hl Hd Hin Hb Hinum Hnone Hmax HL Hlog Hc. pose proof Hd as [Hr Hty Hsz Hcap].
  pose proof (w_size _ _ _ (ri_wf _ _ _ Hr)) as Hsize. set (sz := di_size (i_di (f_inode s dp))) in *.
  pose proof (dslot_spec (entries s a dp)) as [Hslot _]. unfold entries in Hslot at 2. rewrite length_contents in Hslot. fold sz in Hslot.
  assert (Hlen : (length (entries s a dp) mod 16 = 0)%nat) 
    by (unfold entries; rewrite length_contents; fold sz; apply Nat2Z.inj; rewrite Nat2Z.inj_mod, Z2Nat.id by lia; exact Hsz).
  pose proof (Nat.Div0.div_mod (Z.to_nat sz) 16).
  apply (wpx_dirlink me pid devsw _ s a dp name inum L); try done; [by left|by right|lia|]. intros s' a' Hw.
  split; [done|]. exists a', (dslot (entries s a dp)).
  assert (Hbytes : bytes (entries s a dp)).
  { eapply contents_bytes; [apply Hr|apply Hr|]. intros b. by apply (t_view_ok _ _ _ (ri_rel _ _ _ Hr)). }
  assert (Hc' : entries s' a' dp = splice (16 * Z.of_nat (dslot (entries s a dp))) (mk_dirent name inum) (entries s a dp)) by apply Hw.
  rewrite Hc'. destruct (dfind_link _ name inum Hbytes Hb Hlen Hinum Hnone) as (D1 & D2 & D3). split_and!; try done.
  split; [apply Hw|by rewrite (wn_type _ _ _ _ _ _ _ _ Hw)| |].
  - rewrite (wn_len _ _ _ _ _ _ _ _ Hw), length_mk_dirent. fold sz.
    destruct (Z.max_spec sz (16 * Z.of_nat (dslot (entries s a dp)) + Z.of_nat 16)) as [[_ ->]|[_ ->]]; [|done]. zlia.
  - pose proof (wn_log _ _ _ _ _ _ _ _ Hw) as Hlg. rewrite length_mk_dirent in Hlg. rewrite (wn_cap _ _ _ _ _ _ _ _ Hw).
    assert (nblk (16 * Z.of_nat (dslot (entries s a dp))) (Z.of_nat 16) = 1%nat); [|lia].
    apply nblk_entry.
Qed.
End fs_theorems.

(** ** A small file system *)

(** 64 blocks: inodes from block 3 on, the bitmap in block 6; the root directory with
    the entries "." and "a" in block 8 and the file "a" in block 9. *)
Definition demo_sb : superblock := mk_superblock 64 57 16 0 2 3 6.
Definition demo_root : dinode := mk_dinode T_DIR 0 0 1 32 (8 :: repeat 0 12).
Definition demo_file : dinode := mk_dinode T_FILE 0 0 1 5 (9 :: repeat 0 12).
Definition zero_block : block := repeat 0 BSIZE.
Definition demo_view (x : Z) : block :=
  if x =? 3 then put_dinode (put_dinode zero_block 64 demo_root) 128 demo_file
  else if x =? 6 then fold_left bit_set [0; 1; 2; 3; 4; 5; 6; 8; 9] zero_block
  else if x =? 8 then list_inserts 0 (mk_dirent [46] 1 ++ mk_dirent [97] 2) zero_block
  else if x =? 9 then list_inserts 0 [104; 101; 108; 108; 111] zero_block
  else zero_block.
Definition demo_abs : tabs := mk_tabs 64 demo_view ∅ ∅ 10.
Definition free_inode : inode := mk_inode 0 0 0 initsleeplock false (mk_dinode 0 0 0 0 0 (repeat 0 13)).
Definition demo_inode (i : nat) : inode :=
  match i with
  | 0%nat => mk_inode ROOTDEV 1 1 initsleeplock true demo_root
  | 1%nat => mk_inode ROOTDEV 2 1 initsleeplock true demo_file
  | _ => free_inode
  end.
Definition demo_fs : fs tabs := mk_fs demo_abs demo_sb initlock demo_inode [].
(** The console and every other device are absent. *)
Definition no_devs (d : Z) : @dev_ops tabs := mk_dev_ops None None.

Lemma bytes_check (l : list Z) : forallb (fun b => (0 <=? b) && (b <? 256)) l = true -> bytes l.
Proof.
  intros Hl. apply Forall_forall. intros x Hx%list_elem_of_In. apply (proj1 (forallb_forall _ _) Hl) in Hx.
  apply andb_true_iff in Hx as [H1%Z.leb_le H2%Z.ltb_lt]. lia.
Qed.

Lemma demo_view_ok x : block_ok (demo_view x).
Proof.
  unfold demo_view. repeat (destruct (x =? _); [split; [by vm_compute|by apply bytes_check; vm_compute]|]).
  apply repeat_zero_ok.
Qed.

Lemma demo_rel : t_rel (f_tx demo_fs) demo_abs.
Proof.
  split; [done|intros; apply demo_view_ok| |done]. intros i b d Hi.
  cbn [demo_abs t_held] in Hi. by rewrite lookup_empty in Hi.
Qed.

Lemma demo_sb_ok : sb_ok demo_sb 64.
Proof. split; vm_compute; intuition congruence. Qed.

Lemma demo_used x : 0 <= x < 64 -> used demo_sb demo_view x = bool_decide (x ∈ [0; 1; 2; 3; 4; 5; 6; 8; 9]).
Proof.
  intros Hx. assert (Hall : forallb (fun x => eqb (used demo_sb demo_view x) (bool_decide (x ∈ [0; 1; 2; 3; 4; 5; 6; 8; 9]))) (seqZ 0 64) = true) by (by vm_compute).
  apply eqb_prop. apply (proj1 (forallb_forall _ _) Hall x), list_elem_of_In, elem_of_seqZ. lia.
Qed.

(** A file of one block. *)
Lemma small_file sb v ty x sz :
  short_ok ty -> 0 < x < W32 -> data_block sb v x -> 0 < sz <= 512 ->
  inode_wf sb v (mk_dinode ty 0 0 1 sz (x :: repeat 0 12)).
Proof.
  intros Hty Hx Hd Hs. set (d := mk_dinode _ _ _ _ _ _).
  assert (Hf : forall bn, 0 <= bn -> faddr v d bn = if bn =? 0 then x else 0).
  { intros bn Hbn. unfold faddr. destruct (Z.ltb_spec bn (Z.of_nat NDIRECT)) as [Hlt|Hge].
    - destruct (Z.eqb_spec bn 0) as [->|Hne]; [done|]. unfold NDIRECT in Hlt.
      assert (bn ∈ seqZ 1 11) as Hin by (apply elem_of_seqZ; lia). simpl di_addrs.
      assert (Hall : forallb (fun b => default 0 ((x :: repeat 0 12) !! Z.to_nat b) =? 0) (seqZ 1 11) = true) by reflexivity.
      apply Z.eqb_eq, (proj1 (forallb_forall _ _) Hall), list_elem_of_In, Hin.
    - rewrite (proj2 (Z.eqb_neq bn 0)) by (unfold NDIRECT in Hge; lia). done. }
  split.
  - split; try done; try (unfold short_ok; simpl; lia).
    + unfold d, W32. simpl. lia.
    + constructor; [lia|]. apply Forall_forall. intros y Hy%list_elem_of_In%repeat_spec. subst y. unfold W32. lia.
  - intros bn Hbn. rewrite Hf by lia. by destruct (bn =? 0).
  - intros Hi. by destruct Hi.
  - intros bn _ Hi. by destruct Hi.
  - intros bn bm Hbn Hbm. rewrite !Hf by lia. destruct (Z.eqb_spec bn 0), (Z.eqb_spec bm 0); subst; try done; lia.
  - unfold d, MAXFILE. simpl. lia.
  - intros bn Hbn Hlt. simpl in Hlt. rewrite Hf by lia. rewrite (proj2 (Z.eqb_eq bn 0)) by lia. lia.
Qed.

Lemma demo_root_wf : inode_wf demo_sb demo_view demo_root.
Proof. apply small_file; [vm_compute; intuition congruence|done|split; by vm_compute|lia]. Qed.
Lemma demo_file_wf : inode_wf demo_sb demo_view demo_file.
Proof. apply small_file; [vm_compute; intuition congruence|done|split; by vm_compute|lia]. Qed.

Lemma demo_meta : meta_used demo_sb demo_view.
Proof.
  intros x Hx. change (dstart demo_sb) with 7 in Hx. rewrite demo_used by lia. apply bool_decide_true.
  assert (x = 0 \/ x = 1 \/ x = 2 \/ x = 3 \/ x = 4 \/ x = 5 \/ x = 6) by lia. set_solver.
Qed.

Lemma demo_ready ip : (ip < 2)%nat -> ready_ip demo_fs demo_abs ip.
Proof.
  intros Hip. split; [apply demo_rel|done|apply demo_sb_ok|apply demo_meta| |].
  - destruct ip as [|[|ip]]; [done|done|lia].
  - destruct ip as [|[|ip]]; [apply demo_root_wf|apply demo_file_wf|lia].
Qed.

Lemma demo_ready_dir : ready_dir demo_fs demo_abs 0.
Proof. split; [by apply demo_ready; lia|done|done|]. vm_compute. lia. Qed.

(** The value that a run returns. *)
Definition value {S A} (r : res S A) : option A := match r with Ok x _ => Some x | _ => None end.

Lemma value_wpx {S A} P (m : M S A) (Q : A -> S -> Prop) s x : value (m s) = Some x -> wpx P m Q s -> exists s', m s = Ok x s' /\ Q x s'.
Proof. unfold value, wpx. destruct (m s) as [y s'| | |]; try done. intros [= ->]. eauto. Qed.

Lemma balloc_fresh_witness : exists s' v', balloc 1 demo_fs = Ok 7 s' /\ allocated demo_sb demo_view v' 7.
Proof.
  assert (Hv : value (balloc 1 demo_fs) = Some 7) by (by vm_compute).
  destruct (value_wpx _ _ _ _ _ Hv (balloc_fresh demo_fs demo_abs demo_rel demo_sb_ok demo_meta
    ltac:(by apply held_empty_data) ltac:(vm_compute; lia))) as (s' & Hr & t & v' & _ & Ha & _).
  by exists s', v'.
Defined.

Lemma readi_correct_witness : value (readi no_devs 1 0 10 demo_fs) = Some (5, [104; 101; 108; 108; 111]).
Proof.
  assert (Hw := readi_correct no_devs demo_fs demo_abs 1 0 10 (demo_ready 1 ltac:(lia)) ltac:(vm_compute; lia)
    ltac:(by vm_compute) ltac:(unfold W32; lia) ltac:(unfold W32; lia)).
  apply wp_ok in Hw as (r & s' & Hr & t & _ & _ & Hv). rewrite Hr, Hv. by vm_compute.
Defined.

Lemma demo_bm : bm_set (f_sb demo_fs) ⊆ {[6]}.
Proof. assert (E : bm_set (f_sb demo_fs) = {[6]}) by (by vm_compute). by rewrite E. Qed.
Lemma demo_logged : t_logged demo_abs ⊆ {[6]}.
Proof. apply empty_subseteq. Qed.

Lemma writei_correct_witness : exists s' a',
  writei no_devs 1 [1; 2; 3] 4 3 demo_fs = Ok 3 s' /\
  contents (t_view a') (i_di (f_inode s' 1)) = [104; 101; 108; 108; 1; 2; 3].
Proof.
  assert (Hv : value (writei no_devs 1 [1; 2; 3] 4 3 demo_fs) = Some 3) by (by vm_compute).
  destruct (value_wpx _ _ _ _ _ Hv (writei_correct no_devs demo_fs demo_abs 1 [1; 2; 3] 4 3 {[6]} (demo_ready 1 ltac:(lia))
    ltac:(by vm_compute) ltac:(simpl; lia) ltac:(unfold W32; lia) ltac:(unfold W32; lia) ltac:(simpl; lia)
    ltac:(by apply bytes_check) demo_bm demo_logged ltac:(vm_compute; lia)))
    as (s' & Hr & _ & a' & Hw).
  exists s', a'. split; [done|]. rewrite (wn_contents _ _ _ _ _ _ _ _ Hw). by vm_compute.
Defined.

Lemma dirlookup_finds_witness : exists s', dirlookup 0 no_devs 0 [97] demo_fs = Ok (Some (1%nat, 16)) s' /\
  i_inum (f_inode s' 1%nat) = 2 /\ i_ref (f_inode s' 1%nat) = 2.
Proof.
  assert (Hv : value (dirlookup 0 no_devs 0 [97] demo_fs) = Some (Some (1%nat, 16))) by (by vm_compute).
  destruct (value_wpx _ _ _ _ _ Hv (dirlookup_finds 0 no_devs demo_fs demo_abs 0 [97] eq_refl demo_ready_dir)) as (s' & Hr & t & R & Hm).
  exists s'. split; [done|].
  assert (Hf : dfind (entries demo_fs demo_abs 0) [97] = Some 1%nat) by (by vm_compute). rewrite Hf in Hm.
  destruct Hm as (ip & [= <-] & Hg). destruct (got_key _ _ _ _ _ Hg) as (_ & -> & -> & _). split; by vm_compute.
Defined.

Lemma dirlink_adds_witness : exists s' a', dirlink 0 1 no_devs 0 [98] 3 demo_fs = Ok 0 s' /\
  dfind (entries s' a' 0) [97] = Some 1%nat.
Proof.
  assert (Hv : value (dirlink 0 1 no_devs 0 [98] 3 demo_fs) = Some 0) by (by vm_compute).
  assert (Hn : dfind (entries demo_fs demo_abs 0) [98] = None) by (by vm_compute).
  assert (Hw := dirlink_adds 0 1 no_devs demo_fs demo_abs 0 [98] 3 {[6]} eq_refl demo_ready_dir
    ltac:(simpl; lia) ltac:(by apply bytes_check) ltac:(lia) Hn ltac:(by vm_compute)
    demo_bm demo_logged ltac:(vm_compute; lia)).
  destruct (value_wpx _ _ _ _ _ Hv Hw) as (s' & Hr & _ & a' & i & _ & _ & _ & Ho).
  exists s', a'. split; [done|]. rewrite Ho; [by vm_compute|by apply bytes_check|by vm_compute].
Defined.

(** The state that a run leaves. *)
Definition after {S A} (m : M S A) (s : S) : S := match m s with Ok _ s' => s' | _ => s end.
Lemma value_after {S A} (m : M S A) s x : value (m s) = Some x -> m s = Ok x (after m s).
Proof. unfold value, after. destruct (m s); try done. by intros [= ->]. Qed.

(** A process opens inode 2, duplicates the reference and drops one. *)
Definition cache0 : fs tabs := mk_fs demo_abs demo_sb initlock (fun _ => free_inode) [].
Definition cache1 : fs tabs := after (iget 0 1 2) cache0.
Definition cache2 : fs tabs := after (idup 0 0) cache1.
Definition cache3 : fs tabs := after (iput 0 1 0) cache2.

Lemma cache1_run : iget 0 1 2 cache0 = Ok 0%nat cache1.
Proof. apply value_after. vm_compute. reflexivity. Qed.
Lemma cache2_run : idup 0 0 cache1 = Ok 0%nat cache2.
Proof. apply value_after. vm_compute. reflexivity. Qed.
Lemma cache3_run : iput 0 1 0 cache2 = Ok tt cache3.
Proof. refine (value_after (iput 0 1 0) cache2 tt _). vm_compute. reflexivity. Qed.
Lemma cache_run : rtc (cstep 0 1 no_devs) (cache0, []) (cache3, [(0%nat, (1, 2))]).
Proof.
  eapply rtc_l; [exact (c_iget 0 1 no_devs _ _ _ _ _ _ cache1_run)|].
  eapply rtc_l; [refine (c_idup 0 1 no_devs _ _ _ _ _ (1, 2) _ cache2_run); by left|].
  eapply rtc_l; [refine (c_iput 0 1 no_devs _ _ _ [(0%nat, (1, 2))] _ (1, 2) _ cache3_run); reflexivity|].
  apply rtc_refl.
Qed.

Lemma icache_sound_witness :
  i_ref (f_inode cache3 0%nat) = 1 /\ i_dev (f_inode cache3 0%nat) = 1 /\ i_inum (f_inode cache3 0%nat) = 2.
Proof.
  generalize cache_run. generalize cache3 as c. intros c Hr.
  destruct (icache_sound 0 1 no_devs ltac:(done) ltac:(done) cache0 _ (fun _ => eq_refl) Hr) as (Hn & Hk & _).
  assert (Hlt : (0 < NINODE)%nat) by (unfold NINODE; lia).
  destruct (Hk 0%nat 1 2 ltac:(apply elem_of_cons; by left)) as (H1 & H2 & _).
  exact (conj (Hn 0%nat Hlt) (conj H1 H2)).
Defined.

Lemma demo_live inum : live demo_sb demo_view inum -> inum = 1 \/ inum = 2.
Proof.
  intros [Hin Hty]. change (sb_ninodes demo_sb) with 16 in Hin.
  assert (Hall : forallb (fun i => (i =? 1) || (i =? 2) || (di_type (disk_inode demo_sb demo_view i) =? 0)) (seqZ 1 15) = true) by (by vm_compute).
  assert (Hin' : inum ∈ seqZ 1 15) by (apply elem_of_seqZ; lia).
  apply list_elem_of_In, (proj1 (forallb_forall _ _) Hall) in Hin'.
  apply orb_true_iff in Hin' as [[H1%Z.eqb_eq|H1%Z.eqb_eq]%orb_true_iff|H1%Z.eqb_eq];
    [left; exact H1|right; exact H1|destruct (Hty H1)].
Qed.
Lemma demo_disk1 : disk_inode demo_sb demo_view 1 = demo_root.
Proof. by vm_compute. Qed.
Lemma demo_disk2 : disk_inode demo_sb demo_view 2 = demo_file.
Proof. by vm_compute. Qed.

Lemma demo_tree : tree_ok demo_sb demo_view.
Proof.
  split.
  - intros inum [-> | ->]%demo_live; [rewrite demo_disk1; apply demo_root_wf|rewrite demo_disk2; apply demo_file_wf].
  - intros inum [-> | ->]%demo_live; by vm_compute.
  - intros inum [-> | ->]%demo_live; by vm_compute.
  - intros inum i [-> | ->]%demo_live Hty Hi Hz; [|by vm_compute in Hty].
    assert (Hl : (length (dir_of demo_sb demo_view 1) / 16)%nat = 2%nat) by (by vm_compute). rewrite Hl in Hi.
    assert (i = 0%nat \/ i = 1%nat) as [-> | ->] by (clear -Hi; lia); clear; by vm_compute.
Qed.

Lemma demo_quiet : quiet_fs demo_fs demo_abs.
Proof.
  split; [apply demo_rel|done|apply demo_sb_ok|apply demo_meta|vm_compute; lia|apply demo_tree|done|].
  intros j. destruct j as [|[|j]]; (split; [by simpl; lia|done|]); simpl; try done; intros _ _ _; by vm_compute.
Qed.

Lemma namex_resolves_witness : exists s' nm,
  namex 0 1 no_devs 0 [47; 97] false (repeat 0 14) demo_fs = Ok (Some 1%nat, nm) s' /\
  i_inum (f_inode s' 1%nat) = 2 /\ i_ref (f_inode s' 1%nat) = 2 /\ i_ref (f_inode s' 0%nat) = 1.
Proof.
  assert (Hl : live demo_sb demo_view 1) by (split; [done|by vm_compute]).
  assert (Hw := namex_resolves 0 1 no_devs demo_fs demo_abs 0 [47; 97] false (repeat 0 14) demo_quiet eq_refl Hl eq_refl eq_refl Hl
    ltac:(repeat constructor; lia) ltac:(by apply bytes_check)).
  assert (Hv : exists nm, value (namex 0 1 no_devs 0 [47; 97] false (repeat 0 14) demo_fs) = Some (Some 1%nat, nm))
    by (eexists; vm_compute; reflexivity).
  destruct Hv as [nm Hv]. destruct (value_wpx _ _ _ _ _ Hv Hw) as (s' & Hr & Hres). exists s', nm.
  destruct Hres as [_ Hrefs Hans _]. split; [done|].
  assert (Ha : resolve demo_sb demo_view (start_of demo_fs 0 [47; 97]) (elements [] [47; 97]) = Some 2) by (by vm_compute).
  change (match resolve demo_sb demo_view (start_of demo_fs 0 [47; 97]) (elements [] [47; 97]) with
    | Some n => exists q, Some 1%nat = Some q /\ i_dev (f_inode s' q) = 1 /\ i_inum (f_inode s' q) = n
    | None => Some 1%nat = None end) in Hans. rewrite Ha in Hans.
  destruct Hans as (q & [= <-] & _ & Hn). split_and!; [done|by rewrite Hrefs|by rewrite Hrefs].
Defined.
