(* ===== verification/Pipe.v ===== *)
(** * Pipes ([src/xv6/pipe.c])

    [pipewrite] and [piperead] as the segments between two calls of [sleep]: a
    segment takes the lock, runs until the routine returns ([inl r]) or sleeps
    ([inr i], with the loop index at which it will go on), and has released the
    lock again.  [pi_wakes] records the channels passed to [wakeup].  The abstract
    specification is a bounded queue; the last part runs any number of readers and
    writers.  [pipealloc] is in [File]. *)

From S2P Require Import Prelude Spinlock.

Definition PIPESIZE : Z := 512.

(** The two channels, [&p->nread] and [&p->nwrite]. *)
Inductive pchan : Type := ChRead | ChWrite.

#[export] Instance pchan_eq_dec : EqDecision pchan.
Proof. solve_decision. Defined.

Record pipe : Type := mk_pipe {
  pi_lock : spinlock;
  pi_data : list Z;
  pi_nread : Z;
  pi_nwrite : Z;
  pi_readopen : bool;
  pi_writeopen : bool;
  pi_wakes : list pchan
}.

Definition pi_set_lock x p := mk_pipe x (pi_data p) (pi_nread p) (pi_nwrite p) (pi_readopen p)
  (pi_writeopen p) (pi_wakes p).
Definition pi_set_readopen x p := mk_pipe (pi_lock p) (pi_data p) (pi_nread p) (pi_nwrite p) x
  (pi_writeopen p) (pi_wakes p).
Definition pi_set_writeopen x p := mk_pipe (pi_lock p) (pi_data p) (pi_nread p) (pi_nwrite p)
  (pi_readopen p) x (pi_wakes p).
Definition pi_wake c p := mk_pipe (pi_lock p) (pi_data p) (pi_nread p) (pi_nwrite p) (pi_readopen p)
  (pi_writeopen p) (pi_wakes p ++ [c]).
(** [p->data[p->nwrite++ % PIPESIZE] = b;] *)
Definition pi_push b p := mk_pipe (pi_lock p) (<[Z.to_nat (pi_nwrite p mod PIPESIZE) := b]> (pi_data p))
  (pi_nread p) (u32 (pi_nwrite p + 1)) (pi_readopen p) (pi_writeopen p) (pi_wakes p).
(** [p->nread++], and the byte at the old position. *)
Definition pi_pop p := mk_pipe (pi_lock p) (pi_data p) (u32 (pi_nread p + 1)) (pi_nwrite p)
  (pi_readopen p) (pi_writeopen p) (pi_wakes p).
Definition pi_next p : Z := default 0 (pi_data p !! Z.to_nat (pi_nread p mod PIPESIZE)).

Section pipe.
Context (me : nat).

Definition pi_acquire : M pipe unit := acquire me pi_lock pi_set_lock.
Definition pi_release : M pipe unit := release me pi_lock pi_set_lock.

(** [true] when the page of the pipe has to be freed by the caller. *)
Definition pipeclose (writable : bool) : M pipe bool :=
  pi_acquire ;;;
  (if writable then modify (pi_set_writeopen false) ;;; modify (pi_wake ChRead)
   else modify (pi_set_readopen false) ;;; modify (pi_wake ChWrite)) ;;;
  let! p := get in
  if negb (pi_readopen p) && negb (pi_writeopen p) then pi_release ;;; ret true
  else pi_release ;;; ret false.

(** The loop of [pipewrite] from index [i], with the bytes [addr[i..n-1]] left. *)
Fixpoint pipewrite_loop (killed : bool) (n i : Z) (addr : list Z) : M pipe (Z + Z) :=
  match addr with
  | [] =>
      modify (pi_wake ChRead) ;;;
      pi_release ;;;
      ret (inl n)
  | b :: addr' =>
      let! p := get in
      if pi_nwrite p =? u32 (pi_nread p + PIPESIZE) then
        if negb (pi_readopen p) || killed then pi_release ;;; ret (inl (-1))
        else
          modify (pi_wake ChRead) ;;;
          pi_release ;;;                      (* sleep(&p->nwrite, &p->lock) *)
          ret (inr i)
      else
        modify (pi_push b) ;;;
        pipewrite_loop killed n (i + 1) addr'
  end.

(** A segment of [pipewrite(p, addr, n)] that starts at index [i]. *)
Definition pipewrite (killed : bool) (addr : list Z) (i : Z) : M pipe (Z + Z) :=
  pi_acquire ;;;
  pipewrite_loop killed (Z.of_nat (length addr)) i (drop (Z.to_nat i) addr).

Fixpoint piperead_loop (n : nat) (acc : list Z) : M pipe (list Z) :=
  match n with
  | O => ret acc
  | S k =>
      let! p := get in
      if pi_nread p =? pi_nwrite p then ret acc
      else modify pi_pop ;;; piperead_loop k (acc ++ [pi_next p])
  end.

(** A segment of [piperead(p, addr, n)]: [inl None] is -1, [inl (Some l)] the bytes
    stored at [addr], [inr tt] a sleep. *)
Definition piperead (killed : bool) (n : nat) : M pipe (option (list Z) + unit) :=
  pi_acquire ;;;
  let! p := get in
  if (pi_nread p =? pi_nwrite p) && pi_writeopen p then
    if killed then pi_release ;;; ret (inl None)
    else pi_release ;;; ret (inr tt)          (* sleep(&p->nread, &p->lock) *)
  else
    let! l := piperead_loop n [] in
    modify (pi_wake ChWrite) ;;;
    pi_release ;;;
    ret (inl (Some l)).
End pipe.

(** ** The bounded queue *)

(** The number of bytes in the buffer; the counters wrap around at 2^32. *)
Definition pcount (p : pipe) : nat := Z.to_nat (u32 (pi_nwrite p - pi_nread p)).

Definition pcontents (p : pipe) : list Z :=
  (fun k => default 0 (pi_data p !! Z.to_nat ((pi_nread p + Z.of_nat k) mod PIPESIZE)))
    <$> seq 0 (pcount p).

Record pipe_ok (p : pipe) : Prop := mk_pipe_ok {
  po_data : length (pi_data p) = 512%nat;
  po_nread : 0 <= pi_nread p < W32;
  po_nwrite : 0 <= pi_nwrite p < W32;
  po_count : (pcount p <= 512)%nat
}.

Lemma pcontents_length p : length (pcontents p) = pcount p.
Proof. unfold pcontents. by rewrite length_fmap, length_seq. Qed.

Lemma full_iff p :
  pipe_ok p -> (pi_nwrite p =? u32 (pi_nread p + PIPESIZE)) = true <-> pcount p = 512%nat.
Proof.
  intros [_ Hr Hw Hc]. rewrite Z.eqb_eq. unfold pcount, u32, W32, PIPESIZE in *.
  split; intros; zlia.
Qed.

Lemma empty_iff p :
  pipe_ok p -> (pi_nread p =? pi_nwrite p) = true <-> pcount p = 0%nat.
Proof.
  intros [_ Hr Hw Hc]. rewrite Z.eqb_eq. unfold pcount, u32, W32 in *. split; intros; zlia.
Qed.

Lemma pcount_push b p : pipe_ok p -> (pcount p < 512)%nat -> pcount (pi_push b p) = S (pcount p).
Proof.
  intros [_ Hr Hw Hc] Hl. unfold pcount in *. simpl in *. unfold u32, W32 in *.
  rewrite Zminus_mod_idemp_l. zlia.
Qed.

Lemma pcount_pop p : pipe_ok p -> (0 < pcount p)%nat -> pcount p = S (pcount (pi_pop p)).
Proof.
  intros [_ Hr Hw Hc] Hl. unfold pcount in *. simpl in *. unfold u32, W32 in *.
  rewrite Zminus_mod_idemp_r. zlia.
Qed.

(** Storing a byte appends it to the queue. *)
Lemma push_contents b p :
  pipe_ok p -> (pcount p < 512)%nat ->
  pipe_ok (pi_push b p) /\ pcontents (pi_push b p) = pcontents p ++ [b].
Proof.
  intros Hok Hl. pose proof Hok as [Hd Hr Hw Hc].
  assert (Hn : pi_nwrite p mod PIPESIZE = (pi_nread p + Z.of_nat (pcount p)) mod PIPESIZE).
  { unfold pcount, u32, W32, PIPESIZE in *. rewrite Z2Nat.id by zlia. zlia. }
  split.
  - split; simpl; [by rewrite length_insert|done|apply u32_range|rewrite pcount_push by done; lia].
  - unfold pcontents. rewrite pcount_push, seq_S, fmap_app by done. simpl. f_equal.
    + apply list_fmap_ext. intros i k Hk. apply lookup_seq in Hk as [-> Hk].
      rewrite list_lookup_insert_ne; [done|]. rewrite Hn. unfold PIPESIZE. zlia.
    + rewrite Hn, list_lookup_insert_eq; [done|]. rewrite Hd. unfold PIPESIZE. zlia.
Qed.

(** Taking a byte removes the head of the queue. *)
Lemma pop_contents p :
  pipe_ok p -> (0 < pcount p)%nat ->
  pipe_ok (pi_pop p) /\ pcontents p = pi_next p :: pcontents (pi_pop p).
Proof.
  intros Hok Hl. pose proof Hok as [Hd Hr Hw Hc]. pose proof (pcount_pop p Hok Hl) as Hp.
  split.
  - split; simpl; [done|apply u32_range|done|lia].
  - unfold pcontents. rewrite Hp. cbn [seq]. rewrite <- fmap_S_seq. cbn [fmap list_fmap].
    f_equal; [unfold pi_next; by rewrite Z.add_0_r|].
    rewrite <- list_fmap_compose. apply list_fmap_ext. intros i k _. simpl. do 3 f_equal.
    unfold u32, PIPESIZE. zlia.
Qed.

(** ** What a segment does *)

Section segments.
Context (me : nat).

Definition room (p : pipe) : nat := (512 - pcount p)%nat.

(** The result of a write segment. *)
Definition write_result (killed : bool) (p : pipe) (n i : Z) (addr : list Z) : Z + Z :=
  if decide (length addr <= room p)%nat then inl n
  else if negb (pi_readopen p) || killed then inl (-1)
  else inr (i + Z.of_nat (room p)).

Definition write_wakes (killed : bool) (p : pipe) (addr : list Z) : list pchan :=
  if decide (length addr <= room p)%nat then [ChRead]
  else if negb (pi_readopen p) || killed then [] else [ChRead].

Lemma wp_pi_release p (Q : unit -> pipe -> Prop) :
  pi_lock p = mk_spinlock 1 (Some me) -> Q tt (pi_set_lock initlock p) -> wp (pi_release me) Q p.
Proof. intros H1 H2. by apply wp_release. Qed.

Lemma wp_write_loop killed n i addr p (Q : Z + Z -> pipe -> Prop) :
  pipe_ok p -> pi_lock p = mk_spinlock 1 (Some me) ->
  (forall p', pipe_ok p' -> pi_lock p' = initlock -> pi_readopen p' = pi_readopen p ->
     pi_writeopen p' = pi_writeopen p -> pcontents p' = pcontents p ++ take (room p) addr ->
     pi_wakes p' = pi_wakes p ++ write_wakes killed p addr ->
     Q (write_result killed p n i addr) p') ->
  wp (pipewrite_loop me killed n i addr) Q p.
Proof.
  revert i p. induction addr as [|b addr IH]; intros i p Hok Hlk HQ; cbn [pipewrite_loop]; wp_steps.
  - apply wp_pi_release; [done|]. wp_steps.
    unfold write_result, write_wakes in HQ. rewrite !decide_True in HQ by (simpl; lia).
    apply HQ; try done; [by destruct Hok|]. by rewrite take_nil, app_nil_r.
  - destruct (Nat.eq_dec (pcount p) 512%nat) as [Hf|Hf].
    + pose proof (proj2 (full_iff p Hok) Hf) as ->.
      assert (Hr : room p = 0%nat) by (unfold room; lia).
      unfold write_result, write_wakes in HQ. rewrite Hr in HQ.
      rewrite !decide_False in HQ by (simpl; lia).
      destruct (negb (pi_readopen p) || killed); wp_steps; (apply wp_pi_release; [done|]); wp_steps.
      * apply HQ; try done; [by destruct Hok|by rewrite app_nil_r..].
      * rewrite Z.add_0_r in HQ. apply HQ; try done; [by destruct Hok|by rewrite app_nil_r].
    + destruct (pi_nwrite p =? u32 (pi_nread p + PIPESIZE)) eqn:E;
        [by apply (full_iff p Hok) in E|].
      assert (Hlt : (pcount p < 512)%nat) by (pose proof (po_count p Hok); lia).
      destruct (push_contents b p Hok Hlt) as [Hok' Hc].
      assert (Hr : room p = S (room (pi_push b p))).
      { unfold room. rewrite pcount_push by done. lia. }
      wp_steps. apply IH; [done|done|]. intros p' P1 P2 P3 P4 P5 P6.
      unfold write_result, write_wakes in *. rewrite Hr in HQ. simpl in HQ.
      replace (i + 1 + Z.of_nat (room (pi_push b p))) with
        (i + Z.of_nat (S (room (pi_push b p)))) by lia.
      destruct (decide (length addr <= room (pi_push b p))%nat) as [Hd|Hd].
      * rewrite !decide_True in HQ by lia. apply HQ; try done. by rewrite P5, Hc, <- app_assoc.
      * rewrite !decide_False in HQ by lia. apply HQ; try done. by rewrite P5, Hc, <- app_assoc.
Qed.

Lemma wp_pipewrite killed addr i p (Q : Z + Z -> pipe -> Prop) :
  pipe_ok p -> pi_lock p = initlock ->
  (forall p', pipe_ok p' -> pi_lock p' = initlock -> pi_readopen p' = pi_readopen p ->
     pi_writeopen p' = pi_writeopen p ->
     pcontents p' = pcontents p ++ take (room p) (drop (Z.to_nat i) addr) ->
     pi_wakes p' = pi_wakes p ++ write_wakes killed p (drop (Z.to_nat i) addr) ->
     Q (write_result killed p (Z.of_nat (length addr)) i (drop (Z.to_nat i) addr)) p') ->
  wp (pipewrite me killed addr i) Q p.
Proof.
  intros Hok Hlk HQ. unfold pipewrite. wp_step. apply wp_acquire; [done|].
  apply wp_write_loop; [by destruct Hok|done|]. exact HQ.
Qed.

Lemma wp_read_loop n acc p (Q : list Z -> pipe -> Prop) :
  pipe_ok p ->
  (forall p', pipe_ok p' -> pi_lock p' = pi_lock p -> pi_readopen p' = pi_readopen p ->
     pi_writeopen p' = pi_writeopen p -> pi_wakes p' = pi_wakes p ->
     pcontents p' = drop n (pcontents p) -> Q (acc ++ take n (pcontents p)) p') ->
  wp (piperead_loop n acc) Q p.
Proof.
  revert acc p. induction n as [|n IH]; intros acc p Hok HQ; cbn [piperead_loop]; wp_steps.
  - rewrite <- (app_nil_r acc). by apply HQ.
  - destruct (Nat.eq_dec (pcount p) 0%nat) as [He|He].
    + pose proof (proj2 (empty_iff p Hok) He) as ->. wp_steps.
      assert (Hc : pcontents p = []) by (apply nil_length_inv; by rewrite pcontents_length).
      rewrite Hc in HQ. simpl in HQ. rewrite app_nil_r in HQ. apply HQ; done.
    + destruct (pi_nread p =? pi_nwrite p) eqn:E; [by apply (empty_iff p Hok) in E|].
      destruct (pop_contents p Hok ltac:(lia)) as [Hok' Hc]. wp_steps. apply IH; [done|].
      intros p' P1 P2 P3 P4 P5 P6. rewrite Hc in HQ. simpl in HQ.
      rewrite <- app_assoc. apply HQ; done.
Qed.

Lemma wp_piperead (killed : bool) n p (Q : option (list Z) + unit -> pipe -> Prop) :
  pipe_ok p -> pi_lock p = initlock ->
  (if decide (pcontents p = []) then pi_writeopen p else false) = false /\
  (forall p', pipe_ok p' -> pi_lock p' = initlock -> pi_readopen p' = pi_readopen p ->
     pi_writeopen p' = pi_writeopen p -> pcontents p' = drop n (pcontents p) ->
     pi_wakes p' = pi_wakes p ++ [ChWrite] -> Q (inl (Some (take n (pcontents p)))) p') \/
  (pcontents p = [] /\ pi_writeopen p = true /\
     Q (if killed then inl None else inr tt) p) ->
  wp (piperead me killed n) Q p.
Proof.
  intros Hok Hlk HQ. unfold piperead. wp_step. apply wp_acquire; [done|]. wp_steps.
  cbn [pi_nread pi_nwrite pi_writeopen pi_set_lock].
  assert (Hemp : (pi_nread p =? pi_nwrite p) = bool_decide (pcontents p = [])).
  { destruct (decide (pcontents p = [])) as [Hd|Hd].
    - rewrite bool_decide_true by done. apply (empty_iff p Hok). by rewrite <- pcontents_length, Hd.
    - rewrite bool_decide_false by done. apply not_true_is_false. rewrite (empty_iff p Hok).
      rewrite <- pcontents_length. intros Hl. by apply nil_length_inv in Hl. }
  rewrite Hemp. destruct HQ as [[Hne HQ]|(He & Hw & HQ)].
  - assert (bool_decide (pcontents p = []) && pi_writeopen p = false) as ->.
    { destruct (decide (pcontents p = [])) as [Hd|Hd].
      - by rewrite bool_decide_true.
      - by rewrite bool_decide_false. }
    wp_steps. apply wp_read_loop; [by destruct Hok|]. intros p' P1 P2 P3 P4 P5 P6. wp_steps.
    apply wp_pi_release; [done|]. wp_steps. apply HQ; try done; [by destruct P1|]. simpl. by rewrite P5.
  - rewrite bool_decide_true, Hw by done. simpl. destruct p as [lk da nr nw ro wo wk]. simpl in *.
    destruct killed; wp_steps; (apply wp_pi_release; [done|]); wp_steps; by subst.
Qed.
End segments.

(** ** Readers and writers *)

(** A process that uses the pipe: idle, about to run a segment, or asleep in one. *)
Inductive puser : Type :=
| PIdle
| PWrite (addr : list Z) (i : Z)       (* in pipewrite, about to go on at index i *)
| PWriteSleep (addr : list Z) (i : Z)  (* asleep on &p->nwrite *)
| PRead (n : nat)
| PReadSleep (n : nat).                (* asleep on &p->nread *)

(** [wakeup] on the channels of the list. *)
Definition pwake (cs : list pchan) (u : puser) : puser :=
  match u with
  | PWriteSleep addr i => if decide (ChWrite ∈ cs) then PWrite addr i else u
  | PReadSleep n => if decide (ChRead ∈ cs) then PRead n else u
  | _ => u
  end.

(** The pipe, its users, and the bytes that entered and left the pipe so far. *)
Record psys : Type := mk_psys {
  sy_pipe : pipe;
  sy_user : nat -> puser;
  sy_in : list Z;
  sy_out : list Z
}.

Definition pi_clear (p : pipe) : pipe :=
  mk_pipe (pi_lock p) (pi_data p) (pi_nread p) (pi_nwrite p) (pi_readopen p) (pi_writeopen p) [].

(** The state after a step of user [j] that leaves it in [u] and the pipe in [p']. *)
Definition after (s : psys) (j : nat) (u : puser) (p' : pipe) (inb outb : list Z) : psys :=
  mk_psys (pi_clear p') (fun k => pwake (pi_wakes p') (fupd (sy_user s) j u k))
    (sy_in s ++ inb) (sy_out s ++ outb).

(** Is the process inside [pipewrite] ([w]) or [piperead]? *)
Definition is_active (w : bool) (u : puser) : bool :=
  match u with
  | PIdle => false
  | PWrite _ _ | PWriteSleep _ _ => w
  | PRead _ | PReadSleep _ => negb w
  end.

(** The users hold a reference to the end they use, so it stays open: [fileclose]
    calls [pipeclose] for the last reference only. *)
Inductive pstep (me : nat) (killed : nat -> bool) (s : psys) : psys -> Prop :=
| ps_start_write j addr :
    sy_user s j = PIdle -> pi_writeopen (sy_pipe s) = true ->
    pstep me killed s (after s j (PWrite addr 0) (sy_pipe s) [] [])
| ps_start_read j n :
    sy_user s j = PIdle -> pi_readopen (sy_pipe s) = true ->
    pstep me killed s (after s j (PRead n) (sy_pipe s) [] [])
| ps_write j addr i r p' :
    sy_user s j = PWrite addr i -> pipewrite me (killed j) addr i (sy_pipe s) = Ok r p' ->
    pstep me killed s
      (after s j (match r with inl _ => PIdle | inr i' => PWriteSleep addr i' end) p'
         (take (pcount p' - pcount (sy_pipe s)) (drop (Z.to_nat i) addr)) [])
| ps_read j n r p' :
    sy_user s j = PRead n -> piperead me (killed j) n (sy_pipe s) = Ok r p' ->
    pstep me killed s
      (after s j (match r with inl _ => PIdle | inr _ => PReadSleep n end) p' []
         (match r with inl (Some l) => l | _ => [] end))
| ps_close w r p' j :
    sy_user s j = PIdle -> (forall k, is_active w (sy_user s k) = false) ->
    pipeclose me w (sy_pipe s) = Ok r p' ->
    pstep me killed s (after s j PIdle p' [] []).

(** A pipe as [pipealloc] leaves it. *)
Definition new_pipe (data : list Z) : pipe := mk_pipe initlock data 0 0 true true [].

Definition pinitial (s : psys) : Prop :=
  (exists data, length data = 512%nat /\ sy_pipe s = new_pipe data) /\
  (forall j, sy_user s j = PIdle) /\ sy_in s = [] /\ sy_out s = [].

Record pinv (s : psys) : Prop := mk_pinv {
  pv_ok : pipe_ok (sy_pipe s);
  pv_lock : pi_lock (sy_pipe s) = initlock;
  pv_wakes : pi_wakes (sy_pipe s) = [];
  pv_fifo : sy_in s = sy_out s ++ pcontents (sy_pipe s)
}.

Lemma pcontents_clear p : pcontents (pi_clear p) = pcontents p.
Proof. done. Qed.

Lemma wp_pipeclose me (w : bool) p (Q : bool -> pipe -> Prop) :
  pi_lock p = initlock ->
  (let p' := if w then pi_wake ChRead (pi_set_writeopen false p)
             else pi_wake ChWrite (pi_set_readopen false p) in
   Q (negb (pi_readopen p') && negb (pi_writeopen p')) p') ->
  wp (pipeclose me w) Q p.
Proof.
  intros Hl HQ. destruct p as [lk da nr nw ro wo wk]. simpl in *. subst lk.
  unfold pipeclose. wp_step. apply wp_acquire; [done|]. wp_step.
  destruct w; wp_steps; cbn [pi_readopen pi_writeopen pi_wake pi_set_lock pi_set_readopen
    pi_set_writeopen] in *; destruct (_ && _) in *; wp_steps;
    (apply wp_release; [done|]); by wp_steps.
Qed.

Lemma pinv_step me killed s s' : pinv s -> pstep me killed s s' -> pinv s'.
Proof.
  intros [Hok Hl Hw Hf] Hs.
  destruct Hs as [j addr Hj _|j n Hj _|j addr i r p' Hj Hr|j n r p' Hj Hr|w r p' j Hj _ Hr].
  - split; simpl; rewrite ?app_nil_r; try done. by destruct Hok.
  - split; simpl; rewrite ?app_nil_r; try done. by destruct Hok.
  - pose proof (wp_pipewrite me (killed j) addr i (sy_pipe s) (fun _ q =>
      pipe_ok q /\ pi_lock q = initlock /\
      pcontents q = pcontents (sy_pipe s) ++ take (room (sy_pipe s)) (drop (Z.to_nat i) addr))
      Hok Hl ltac:(done)) as Hwp.
    apply (wp_elim _ _ _ _ _ Hwp) in Hr as (Hok' & Hl' & Hc).
    split; simpl; [by destruct Hok'|done|done|].
    rewrite app_nil_r, Hf, pcontents_clear, Hc, <- app_assoc. do 2 f_equal.
    pose proof (f_equal length Hc) as Hlen. rewrite length_app, !pcontents_length in Hlen.
    rewrite Hlen, length_take.
    destruct (Nat.le_gt_cases (room (sy_pipe s)) (length (drop (Z.to_nat i) addr))).
    + f_equal. lia.
    + rewrite !take_ge by lia. done.
  - assert (Hwp : wp (piperead me (killed j) n) (fun r q => pipe_ok q /\ pi_lock q = initlock /\
      pcontents (sy_pipe s) = (match r with inl (Some l) => l | _ => [] end) ++ pcontents q) (sy_pipe s)).
    { apply wp_piperead; [done..|].
      destruct (decide (pcontents (sy_pipe s) = [])) as [He|He];
        [destruct (pi_writeopen (sy_pipe s)) eqn:Hwo|].
      - right. split_and!; [done..|]. by destruct (killed j).
      - left. split; [done|]. intros q ? ? _ _ Hc _. by rewrite Hc, He, take_nil, drop_nil.
      - left. split; [done|]. intros q ? ? _ _ Hc _. by rewrite Hc, take_drop. }
    apply (wp_elim _ _ _ _ _ Hwp) in Hr as (Hok' & Hl' & Hc).
    split; simpl; [by destruct Hok'|done|done|].
    by rewrite app_nil_r, Hf, pcontents_clear, Hc, <- app_assoc.
  - assert (Hwp : wp (pipeclose me w) (fun _ q => pipe_ok q /\ pi_lock q = initlock /\
      pcontents q = pcontents (sy_pipe s)) (sy_pipe s)).
    { apply wp_pipeclose; [done|]. destruct Hok. by destruct w. }
    apply (wp_elim _ _ _ _ _ Hwp) in Hr as (Hok' & Hl' & Hc).
    split; simpl; [by destruct Hok'|done|done|]. by rewrite !app_nil_r, Hf, pcontents_clear, Hc.
Qed.

(** Who may be asleep: writers on a full pipe that is still read, readers on an
    empty pipe that is still written. *)
Record sleep_inv (s : psys) : Prop := mk_sleep_inv {
  si_inv : pinv s;
  si_write j addr i : sy_user s j = PWriteSleep addr i ->
    pcount (sy_pipe s) = 512%nat /\ pi_readopen (sy_pipe s) = true;
  si_read j n : sy_user s j = PReadSleep n ->
    pcount (sy_pipe s) = 0%nat /\ pi_writeopen (sy_pipe s) = true;
  si_reader j : is_active false (sy_user s j) = true -> pi_readopen (sy_pipe s) = true;
  si_writer j : is_active true (sy_user s j) = true -> pi_writeopen (sy_pipe s) = true
}.

Lemma pwake_active w cs u : is_active w (pwake cs u) = is_active w u.
Proof. destruct u; simpl; try done; by case_decide. Qed.

Lemma pwake_nil u : pwake [] u = u.
Proof. destruct u; simpl; try done; rewrite decide_False by (by intros ?%elem_of_nil); done. Qed.

Lemma pwake_asleep cs u :
  (forall addr i, pwake cs u = PWriteSleep addr i -> u = PWriteSleep addr i /\ ChWrite ∉ cs) /\
  (forall n, pwake cs u = PReadSleep n -> u = PReadSleep n /\ ChRead ∉ cs).
Proof. destruct u; simpl; split; intros; try done; case_decide; by simplify_eq. Qed.

(** What is left to check after a step of user [j]. *)
Lemma sleep_inv_after s j u p' inb outb :
  sleep_inv s -> pinv (after s j u p' inb outb) ->
  (forall addr i, u = PWriteSleep addr i -> pcount p' = 512%nat /\ pi_readopen p' = true) ->
  (forall n, u = PReadSleep n -> pcount p' = 0%nat /\ pi_writeopen p' = true) ->
  (is_active false u = true -> pi_readopen p' = true) ->
  (is_active true u = true -> pi_writeopen p' = true) ->
  ChWrite ∈ pi_wakes p' \/ (pcount p' = pcount (sy_pipe s) /\ pi_readopen p' = pi_readopen (sy_pipe s)) \/
    (forall k, is_active true (sy_user s k) = false) \/ pcount (sy_pipe s) <> 512%nat \/
    (pcount p' = 512%nat /\ pi_readopen p' = pi_readopen (sy_pipe s)) ->
  ChRead ∈ pi_wakes p' \/ (pcount p' = pcount (sy_pipe s) /\ pi_writeopen p' = pi_writeopen (sy_pipe s)) \/
    (forall k, is_active false (sy_user s k) = false) \/ pcount (sy_pipe s) <> 0%nat ->
  pi_readopen p' = pi_readopen (sy_pipe s) \/ (forall k, is_active false (sy_user s k) = false) ->
  pi_writeopen p' = pi_writeopen (sy_pipe s) \/ (forall k, is_active true (sy_user s k) = false) ->
  sleep_inv (after s j u p' inb outb).
Proof.
  intros [Hi Hws Hrs Hr Hw] Hi' Uw Ur Uar Uaw Cw Cr Or Ow.
  split; [done|..]; simpl; intros k;
    [intros addr i Hk; apply pwake_asleep in Hk as [Hk Hnw]
    |intros n Hk; apply pwake_asleep in Hk as [Hk Hnw]
    |rewrite pwake_active|rewrite pwake_active].
  - destruct (decide (k = j)) as [->|Hne]; [rewrite fupd_eq in Hk; by apply Uw in Hk|].
    rewrite fupd_ne in Hk by done. destruct (Hws _ _ _ Hk) as [H1 H2].
    destruct Cw as [?|[[E1 E2]|[Hno|[?|[E1 E2]]]]]; [done| | |done|].
    + unfold pcount in *. simpl. by rewrite E1, E2.
    + specialize (Hno k). by rewrite Hk in Hno.
    + unfold pcount in *. simpl. by rewrite E2.
  - destruct (decide (k = j)) as [->|Hne]; [rewrite fupd_eq in Hk; by apply Ur in Hk|].
    rewrite fupd_ne in Hk by done. destruct (Hrs _ _ Hk) as [H1 H2].
    destruct Cr as [?|[[E1 E2]|[Hno|?]]]; [done| | |done].
    + unfold pcount in *. simpl. by rewrite E1, E2.
    + specialize (Hno k). by rewrite Hk in Hno.
  - destruct (decide (k = j)) as [->|Hne]; [rewrite fupd_eq; apply Uar|]. rewrite fupd_ne by done.
    intros Hk. destruct Or as [->|Hno]; [by apply (Hr k)|]. by rewrite Hno in Hk.
  - destruct (decide (k = j)) as [->|Hne]; [rewrite fupd_eq; apply Uaw|]. rewrite fupd_ne by done.
    intros Hk. destruct Ow as [->|Hno]; [by apply (Hw k)|]. by rewrite Hno in Hk.
Qed.

Lemma sleep_inv_write me s j addr i r p' :
  sleep_inv s -> sy_user s j = PWrite addr i -> pipewrite me false addr i (sy_pipe s) = Ok r p' ->
  pinv (after s j (match r with inl _ => PIdle | inr i' => PWriteSleep addr i' end) p'
         (take (pcount p' - pcount (sy_pipe s)) (drop (Z.to_nat i) addr)) []) ->
  sleep_inv (after s j (match r with inl _ => PIdle | inr i' => PWriteSleep addr i' end) p'
         (take (pcount p' - pcount (sy_pipe s)) (drop (Z.to_nat i) addr)) []).
Proof.
  intros S Hj Hr Hi'. pose proof S as [[Hok Hl Hw Hf] Hws Hrs Hrd Hwt].
  set (rest := drop (Z.to_nat i) addr) in *.
  assert (Hwo : pi_writeopen (sy_pipe s) = true) by (apply (Hwt j); by rewrite Hj).
  pose proof (wp_pipewrite me false addr i (sy_pipe s) (fun r q =>
    r = write_result false (sy_pipe s) (Z.of_nat (length addr)) i rest /\
    pi_readopen q = pi_readopen (sy_pipe s) /\ pi_writeopen q = pi_writeopen (sy_pipe s) /\
    pcount q = (pcount (sy_pipe s) + min (room (sy_pipe s)) (length rest))%nat /\
    pi_wakes q = write_wakes false (sy_pipe s) rest) Hok Hl) as Hwp.
  apply (wp_elim _ _ _ _ _ (Hwp ltac:(intros q _ _ Q3 Q4 Q5 Q6; rewrite Hw in Q6;
    pose proof (f_equal length Q5) as Q7;
    rewrite length_app, !pcontents_length, length_take in Q7; done))) in Hr.
  clear Hwp. destruct Hr as (-> & E1 & E2 & E3 & E4).
  unfold write_result, write_wakes in *. pose proof (po_count _ Hok) as Hc. unfold room in *.
  destruct (decide (length rest <= 512 - pcount (sy_pipe s))%nat) as [Hfit|Hfit].
  - apply sleep_inv_after; try done; rewrite ?E4; auto.
    + right. destruct (decide (pcount (sy_pipe s) = 512%nat)) as [H512|H512]; [left|auto].
      split; [lia|done].
    + left. apply elem_of_cons; auto.
  - destruct (pi_readopen (sy_pipe s)) eqn:Ero; simpl in *.
    + apply sleep_inv_after; try done; rewrite ?E4; auto.
      * intros a' i' _. split; [lia|done].
      * by rewrite E2.
      * do 4 right. split; [lia|congruence].
      * left. apply elem_of_cons; auto.
      * left. congruence.
    + assert (Hno : forall k, is_active false (sy_user s k) = false).
      { intros k. destruct (is_active false (sy_user s k)) eqn:E; [|done]. by apply Hrd in E. }
      apply sleep_inv_after; try done; auto.
      right. destruct (decide (pcount (sy_pipe s) = 512%nat)); [left|auto]. split; [lia|congruence].
Qed.

Lemma sleep_inv_step me s s' :
  sleep_inv s -> pstep me (fun _ => false) s s' -> sleep_inv s'.
Proof.
  intros S Hs. pose proof (pinv_step _ _ _ _ (si_inv s S) Hs) as Hi'.
  pose proof S as [[Hok Hl Hw Hf] Hws Hrs Hrd Hwt].
  destruct Hs as [j addr Hj Ho|j n Hj Ho|j addr i r p' Hj Hr|j n r p' Hj Hr|w r p' j Hj Hact Hr].
  - apply sleep_inv_after; auto; done.
  - apply sleep_inv_after; auto; done.
  - by eapply sleep_inv_write.
  - assert (Hro : pi_readopen (sy_pipe s) = true) by (apply (Hrd j); by rewrite Hj).
    assert (Hwp : wp (piperead me false n) (fun r q =>
      pi_readopen q = pi_readopen (sy_pipe s) /\ pi_writeopen q = pi_writeopen (sy_pipe s) /\
      match r with
      | inl _ => pi_wakes q = [ChWrite] /\ (pcount q <= pcount (sy_pipe s))%nat
      | inr _ => q = sy_pipe s /\ pcount q = 0%nat /\ pi_writeopen q = true
      end) (sy_pipe s)).
    { apply wp_piperead; [done..|].
      destruct (decide (pcontents (sy_pipe s) = [])) as [He|He];
        [destruct (pi_writeopen (sy_pipe s)) eqn:Hwo|].
      - right. split_and!; try done. by rewrite <- pcontents_length, He.
      - left. split; [done|]. intros q _ _ -> -> Hc Hk. rewrite Hw in Hk. split_and!; try done.
        rewrite <- !pcontents_length, Hc, length_drop. lia.
      - left. split; [done|]. intros q _ _ -> -> Hc Hk. rewrite Hw in Hk. split_and!; try done.
        rewrite <- !pcontents_length, Hc, length_drop. lia. }
    apply (wp_elim _ _ _ _ _ Hwp) in Hr as (E1 & E2 & E3).
    destruct r as [l|[]].
    + destruct E3 as [E3 E4]. apply sleep_inv_after; try done; auto.
      * left. rewrite E3. apply elem_of_cons; auto.
      * right. destruct (decide (pcount (sy_pipe s) = 0%nat)); [left; split; [lia|done]|auto].
    + destruct E3 as (-> & E4 & E5). apply sleep_inv_after; auto; done.
  - assert (Hwp : wp (pipeclose me w) (fun _ q => q =
      if w then pi_wake ChRead (pi_set_writeopen false (sy_pipe s))
      else pi_wake ChWrite (pi_set_readopen false (sy_pipe s))) (sy_pipe s))
      by (by apply wp_pipeclose).
    apply (wp_elim _ _ _ _ _ Hwp) in Hr as ->. clear Hwp.
    destruct w; apply sleep_inv_after; simpl; try done; auto.
    + left. rewrite Hw. apply elem_of_cons; auto.
    + left. rewrite Hw. apply elem_of_cons; auto.
Qed.

Lemma pinv_initial s : pinitial s -> pinv s.
Proof.
  intros ((data & Hd & Hp) & _ & Hin & Hout). split; rewrite ?Hp, ?Hin, ?Hout; try done.
  split; simpl; [done|unfold W32; lia..|]. unfold pcount. simpl. change (u32 (0 - 0)) with 0. simpl. lia.
Qed.

(** ** Properties *)

(** C25: a pipe is a FIFO queue of at most [PIPESIZE] bytes: whatever the
    interleaving of writers and readers, also when they are killed, and however
    often the 32-bit counters wrap around, the bytes read so far followed by the
    bytes in the buffer are exactly the bytes written so far. *)
Theorem pipe_fifo (me : nat) (killed : nat -> bool) (s s' : psys) :
  pinitial s -> rtc (pstep me killed) s s' ->
  sy_in s' = sy_out s' ++ pcontents (sy_pipe s') /\ (pcount (sy_pipe s') <= 512)%nat.
Proof.
  intros H0 Hr.
  pose proof (invariant_rtc _ pinv (pinv_step me killed) s s' (pinv_initial s H0) Hr) as Hi.
  split; apply Hi.
Qed.

(** C27: no wakeup is lost while no writer is killed: a writer is asleep only on a
    full pipe whose read end is open, a reader only on an empty pipe whose write
    end is open. *)
Theorem pipe_no_lost_wakeup (me : nat) (s s' : psys) (j : nat) :
  pinitial s -> rtc (pstep me (fun _ => false)) s s' ->
  (forall addr i, sy_user s' j = PWriteSleep addr i ->
     pcount (sy_pipe s') = 512%nat /\ pi_readopen (sy_pipe s') = true) /\
  (forall n, sy_user s' j = PReadSleep n ->
     pcount (sy_pipe s') = 0%nat /\ pi_writeopen (sy_pipe s') = true).
Proof.
  intros H0 Hr.
  assert (Hi : sleep_inv s').
  { apply (invariant_rtc _ sleep_inv (sleep_inv_step me) s s'); [|done].
    split; [by apply pinv_initial|..]; intros k; by rewrite (proj1 (proj2 H0)). }
  destruct Hi as [_ H1 H2 _ _]. split; [apply H1|apply H2].
Qed.

(** a killed writer can leave a reader asleep on a full pipe: [pipewrite] returns
    -1 from a full pipe without the [wakeup(&p->nread)] that announces the bytes
    it has just stored. *)
Theorem pipewrite_killed_loses_wakeup :
  exists s s', pinitial s /\ rtc (pstep 0 (fun j => bool_decide (j = 1%nat))) s s' /\
    sy_user s' 0%nat = PReadSleep 1 /\ pcount (sy_pipe s') = 512%nat /\
    pi_writeopen (sy_pipe s') = true /\ (forall j, j <> 0%nat -> sy_user s' j = PIdle).
Proof.
  exists (mk_psys (new_pipe (repeat 0 512)) (fun _ => PIdle) [] []).
  eexists. split_and!.
  - split_and!; try done. exists (repeat 0 512). done.
  - eapply rtc_l; [apply (ps_start_read _ _ _ 0 1); done|].
    eapply rtc_l; [eapply (ps_read _ _ _ 0 1); vm_compute; reflexivity|].
    eapply rtc_l; [apply (ps_start_write _ _ _ 1 (repeat 7 513)); reflexivity|].
    eapply rtc_l; [eapply (ps_write _ _ _ 1 (repeat 7 513) 0); vm_compute; reflexivity|].
    apply rtc_refl.
  - vm_compute. reflexivity.
  - vm_compute. reflexivity.
  - vm_compute. reflexivity.
  - intros j Hj. destruct j as [|[|j]]; [done|vm_compute; reflexivity|]. vm_compute. reflexivity.
Qed.

Definition sample_pipe : psys := mk_psys (new_pipe (repeat 0 512)) (fun _ => PIdle) [] [].

Lemma sample_pipe_initial : pinitial sample_pipe.
Proof. split_and!; try done. exists (repeat 0 512). done. Qed.

(** A write of three bytes and a read of two. *)
Lemma pipe_fifo_witness :
  exists s', sy_out s' = [1; 2] /\
    sy_in s' = sy_out s' ++ pcontents (sy_pipe s') /\ (pcount (sy_pipe s') <= 512)%nat.
Proof.
  eexists. split; [|eapply (pipe_fifo 0 (fun _ => false) sample_pipe _ sample_pipe_initial)].
  2:{ eapply rtc_l; [apply (ps_start_write _ _ _ 0 [1; 2; 3]); reflexivity|].
      eapply rtc_l; [eapply (ps_write _ _ _ 0 [1; 2; 3] 0); vm_compute; reflexivity|].
      eapply rtc_l; [apply (ps_start_read _ _ _ 1 2); reflexivity|].
      eapply rtc_l; [eapply (ps_read _ _ _ 1 2); vm_compute; reflexivity|].
      apply rtc_refl. }
  vm_compute. reflexivity.
Defined.

Lemma pipe_no_lost_wakeup_witness :
  exists s', sy_user s' 0%nat = PReadSleep 1 /\
    pcount (sy_pipe s') = 0%nat /\ pi_writeopen (sy_pipe s') = true.
Proof.
  eexists. split.
  2:{ eapply (pipe_no_lost_wakeup 0 sample_pipe _ 0 sample_pipe_initial).
      - eapply rtc_l; [apply (ps_start_read _ _ _ 0 1); reflexivity|].
        eapply rtc_l; [eapply (ps_read _ _ _ 0 1); vm_compute; reflexivity|].
        apply rtc_refl.
      - vm_compute. reflexivity. }
  vm_compute. reflexivity.
Defined.
