(* ===== verification/Proc.v ===== *)
(** * Processes and scheduling ([src/xv6/proc.c])

    The process table, the scheduler and the system calls on processes.  A routine
    runs on CPU [me]; when it gives up the CPU through [sched], its result is
    [Blocked] with the state in which the scheduler of that CPU goes on, holding
    [ptable.lock].  [kont] is the saved context: the routine in which a process that
    is not running will resume.  The other parts of the kernel that these routines
    call are the class [ProcEnv]. *)

From S2P Require Import Prelude Spinlock.

Definition NPROC : nat := 64.
Arguments NPROC : simpl never.
Definition NOFILE : nat := 16.
Definition KSTACKSIZE : Z := 4096.

Inductive procstate : Type := UNUSED | EMBRYO | SLEEPING | RUNNABLE | RUNNING | ZOMBIE.

#[export] Instance procstate_eq_dec : EqDecision procstate.
Proof. solve_decision. Defined.

(** A sleep channel: 0, the address of an entry of the table, or another address. *)
Inductive chan : Type := ChNone | ChProc (i : nat) | ChAddr (a : Z).

#[export] Instance chan_eq_dec : EqDecision chan.
Proof. solve_decision. Defined.

(** [struct trapframe] of x86.h, without the padding. *)
Record trapframe : Type := mk_tf {
  tf_edi : Z; tf_esi : Z; tf_ebp : Z; tf_oesp : Z; tf_ebx : Z; tf_edx : Z; tf_ecx : Z; tf_eax : Z;
  tf_gs : Z; tf_fs : Z; tf_es : Z; tf_ds : Z; tf_trapno : Z;
  tf_err : Z; tf_eip : Z; tf_cs : Z; tf_eflags : Z; tf_esp : Z; tf_ss : Z
}.
Definition zero_tf : trapframe := mk_tf 0 0 0 0 0 0 0 0 0 0 0 0 0 0 0 0 0 0 0.
Definition tf_set_eax (x : Z) (t : trapframe) : trapframe :=
  mk_tf (tf_edi t) (tf_esi t) (tf_ebp t) (tf_oesp t) (tf_ebx t) (tf_edx t) (tf_ecx t) x
    (tf_gs t) (tf_fs t) (tf_es t) (tf_ds t) (tf_trapno t) (tf_err t) (tf_eip t) (tf_cs t)
    (tf_eflags t) (tf_esp t) (tf_ss t).

Definition tf_set_eip (x : Z) (t : trapframe) : trapframe :=
  mk_tf (tf_edi t) (tf_esi t) (tf_ebp t) (tf_oesp t) (tf_ebx t) (tf_edx t) (tf_ecx t) (tf_eax t)
    (tf_gs t) (tf_fs t) (tf_es t) (tf_ds t) (tf_trapno t) (tf_err t) x (tf_cs t)
    (tf_eflags t) (tf_esp t) (tf_ss t).
Definition tf_set_esp (x : Z) (t : trapframe) : trapframe :=
  mk_tf (tf_edi t) (tf_esi t) (tf_ebp t) (tf_oesp t) (tf_ebx t) (tf_edx t) (tf_ecx t) (tf_eax t)
    (tf_gs t) (tf_fs t) (tf_es t) (tf_ds t) (tf_trapno t) (tf_err t) (tf_eip t) (tf_cs t)
    (tf_eflags t) x (tf_ss t).

(** The saved context of a process that is not running, with the value of
    [intena] that [sched] keeps on the process's stack. *)
Inductive kont : Type :=
| KForkret
| KYield (intena : bool)
| KSleep (other_lock : bool) (intena : bool).

Record proc : Type := mk_proc {
  p_sz : Z;
  p_pgdir : Z;
  p_kstack : Z;
  p_state : procstate;
  p_pid : Z;
  p_parent : option nat;
  p_tf : Z;                  (* the address of the trap frame *)
  p_frame : trapframe;       (* and its contents *)
  p_context : Z;             (* the address of the context *)
  p_kont : kont;
  p_chan : chan;
  p_killed : bool;
  p_ofile : list Z;          (* struct file pointers, 0 for none *)
  p_cwd : Z;
  p_name : list Z
}.

Definition p_set_mem pgdir sz p := mk_proc sz pgdir (p_kstack p) (p_state p) (p_pid p) (p_parent p)
  (p_tf p) (p_frame p) (p_context p) (p_kont p) (p_chan p) (p_killed p) (p_ofile p) (p_cwd p) (p_name p).
Definition p_set_kstack x p := mk_proc (p_sz p) (p_pgdir p) x (p_state p) (p_pid p) (p_parent p)
  (p_tf p) (p_frame p) (p_context p) (p_kont p) (p_chan p) (p_killed p) (p_ofile p) (p_cwd p) (p_name p).
Definition p_set_state x p := mk_proc (p_sz p) (p_pgdir p) (p_kstack p) x (p_pid p) (p_parent p)
  (p_tf p) (p_frame p) (p_context p) (p_kont p) (p_chan p) (p_killed p) (p_ofile p) (p_cwd p) (p_name p).
Definition p_set_pid x p := mk_proc (p_sz p) (p_pgdir p) (p_kstack p) (p_state p) x (p_parent p)
  (p_tf p) (p_frame p) (p_context p) (p_kont p) (p_chan p) (p_killed p) (p_ofile p) (p_cwd p) (p_name p).
Definition p_set_parent x p := mk_proc (p_sz p) (p_pgdir p) (p_kstack p) (p_state p) (p_pid p) x
  (p_tf p) (p_frame p) (p_context p) (p_kont p) (p_chan p) (p_killed p) (p_ofile p) (p_cwd p) (p_name p).
Definition p_set_tf a x p := mk_proc (p_sz p) (p_pgdir p) (p_kstack p) (p_state p) (p_pid p) (p_parent p)
  a x (p_context p) (p_kont p) (p_chan p) (p_killed p) (p_ofile p) (p_cwd p) (p_name p).
Definition p_set_context a x p := mk_proc (p_sz p) (p_pgdir p) (p_kstack p) (p_state p) (p_pid p) (p_parent p)
  (p_tf p) (p_frame p) a x (p_chan p) (p_killed p) (p_ofile p) (p_cwd p) (p_name p).
Definition p_set_chan x p := mk_proc (p_sz p) (p_pgdir p) (p_kstack p) (p_state p) (p_pid p) (p_parent p)
  (p_tf p) (p_frame p) (p_context p) (p_kont p) x (p_killed p) (p_ofile p) (p_cwd p) (p_name p).
Definition p_set_killed x p := mk_proc (p_sz p) (p_pgdir p) (p_kstack p) (p_state p) (p_pid p) (p_parent p)
  (p_tf p) (p_frame p) (p_context p) (p_kont p) (p_chan p) x (p_ofile p) (p_cwd p) (p_name p).
Definition p_set_ofile x p := mk_proc (p_sz p) (p_pgdir p) (p_kstack p) (p_state p) (p_pid p) (p_parent p)
  (p_tf p) (p_frame p) (p_context p) (p_kont p) (p_chan p) (p_killed p) x (p_cwd p) (p_name p).
Definition p_set_cwd x p := mk_proc (p_sz p) (p_pgdir p) (p_kstack p) (p_state p) (p_pid p) (p_parent p)
  (p_tf p) (p_frame p) (p_context p) (p_kont p) (p_chan p) (p_killed p) (p_ofile p) x (p_name p).
Definition p_set_name x p := mk_proc (p_sz p) (p_pgdir p) (p_kstack p) (p_state p) (p_pid p) (p_parent p)
  (p_tf p) (p_frame p) (p_context p) (p_kont p) (p_chan p) (p_killed p) (p_ofile p) (p_cwd p) x.

(** A C string in an array: the bytes before the first 0. *)
Fixpoint until_zero (l : list Z) : list Z :=
  match l with [] => [] | x :: l' => if x =? 0 then [] else x :: until_zero l' end.

(** [safestrcpy(dst, src, sizeof(dst))] on the 16-byte name arrays. *)
Definition name_copy (dst src : list Z) : list Z :=
  let s := until_zero (take 15 src) in s ++ [0] ++ drop (S (length s)) dst.

(** The operations of kalloc.c, vm.c, file.c, fs.c and log.c that proc.c calls. *)
Class ProcEnv (E : Type) : Type := {
  e_kalloc : M E Z;
  e_kfree : Z -> M E unit;
  e_setupkvm : M E Z;
  e_inituvm : Z -> list Z -> M E unit;
  e_allocuvm : Z -> Z -> Z -> M E Z;
  e_deallocuvm : Z -> Z -> Z -> M E Z;
  e_copyuvm : Z -> Z -> M E Z;
  e_freevm : Z -> M E unit;
  e_switchuvm : Z -> Z -> M E unit;     (* pgdir, kstack *)
  e_switchkvm : M E unit;
  e_filedup : Z -> M E Z;
  e_fileclose : Z -> M E unit;
  e_idup : Z -> M E Z;
  e_iput : Z -> M E unit;
  e_begin_op : M E unit;
  e_end_op : M E unit;
  e_namei : list Z -> M E Z;
  e_iinit : Z -> M E unit;
  e_initlog : Z -> M E unit
}.

Record pst (E : Type) : Type := mk_pst {
  ps_lock : spinlock;
  ps_proc : nat -> proc;
  ps_init : option nat;
  ps_nextpid : Z;
  ps_cpu : nat -> cpu;
  ps_run : nat -> option nat;     (* c->proc *)
  ps_pos : nat -> nat;            (* p of the scheduler loop, the next entry to look at *)
  ps_first : bool;                (* first of forkret *)
  ps_env : E
}.
Arguments mk_pst {E}.
Arguments ps_lock {E}.
Arguments ps_proc {E}.
Arguments ps_init {E}.
Arguments ps_nextpid {E}.
Arguments ps_cpu {E}.
Arguments ps_run {E}.
Arguments ps_pos {E}.
Arguments ps_first {E}.
Arguments ps_env {E}.

Section setters.
Context {E : Type}.
Implicit Types s : pst E.

Definition s_lock x s := mk_pst x (ps_proc s) (ps_init s) (ps_nextpid s) (ps_cpu s) (ps_run s)
  (ps_pos s) (ps_first s) (ps_env s).
Definition s_proc x s := mk_pst (ps_lock s) x (ps_init s) (ps_nextpid s) (ps_cpu s) (ps_run s)
  (ps_pos s) (ps_first s) (ps_env s).
Definition s_init x s := mk_pst (ps_lock s) (ps_proc s) x (ps_nextpid s) (ps_cpu s) (ps_run s)
  (ps_pos s) (ps_first s) (ps_env s).
Definition s_nextpid x s := mk_pst (ps_lock s) (ps_proc s) (ps_init s) x (ps_cpu s) (ps_run s)
  (ps_pos s) (ps_first s) (ps_env s).
Definition s_cpu c x s := mk_pst (ps_lock s) (ps_proc s) (ps_init s) (ps_nextpid s)
  (fupd (ps_cpu s) c x) (ps_run s) (ps_pos s) (ps_first s) (ps_env s).
Definition s_run c x s := mk_pst (ps_lock s) (ps_proc s) (ps_init s) (ps_nextpid s) (ps_cpu s)
  (fupd (ps_run s) c x) (ps_pos s) (ps_first s) (ps_env s).
Definition s_pos c x s := mk_pst (ps_lock s) (ps_proc s) (ps_init s) (ps_nextpid s) (ps_cpu s)
  (ps_run s) (fupd (ps_pos s) c x) (ps_first s) (ps_env s).
Definition s_first x s := mk_pst (ps_lock s) (ps_proc s) (ps_init s) (ps_nextpid s) (ps_cpu s)
  (ps_run s) (ps_pos s) x (ps_env s).
Definition s_env (x : E) s := mk_pst (ps_lock s) (ps_proc s) (ps_init s) (ps_nextpid s) (ps_cpu s)
  (ps_run s) (ps_pos s) (ps_first s) x.

(** [p->f = ...] for entry [i]. *)
Definition upd (i : nat) (f : proc -> proc) : M (pst E) unit :=
  modify (fun s => s_proc (fupd (ps_proc s) i (f (ps_proc s i))) s).
Definition env {A} (m : M E A) : M (pst E) A := zoom ps_env s_env m.
End setters.

Section proc.
Context {E : Type} `{!ProcEnv E} (me : nat).
Abbreviation PM := (M (pst E)).

(** [acquire(&ptable.lock)] and [release(&ptable.lock)], with their interrupt nesting. *)
Definition pt_acquire : PM unit :=
  modify (fun s => s_cpu me (pushcli (ps_cpu s me)) s) ;;;
  acquire me ps_lock s_lock.
Definition pt_popcli : PM unit := fun s =>
  match popcli (ps_cpu s me) with
  | Ok c _ => Ok tt (s_cpu me c s)
  | Panic m => Panic m
  | _ => OutOfFuel
  end.
Definition pt_release : PM unit := release me ps_lock s_lock ;;; pt_popcli.

Definition pinit : PM unit := modify (s_lock initlock).

(** [myproc()]; its [pushcli]/[popcli] pair leaves the CPU as it was. *)
Definition myproc : PM (option nat) := gets (fun s => ps_run s me).
Definition curproc : PM nat :=
  let! p := myproc in
  match p with Some i => ret i | None => undefined "null process" end.

Definition is_state (st : procstate) (p : proc) : bool := bool_decide (p_state p = st).

(** The first entry of the table that satisfies a test. *)
Definition scan_table (test : proc -> bool) (from : nat) (s : pst E) : option nat :=
  first (fun i => test (ps_proc s i)) (seq from (NPROC - from)).

Definition allocproc : PM (option nat) :=
  pt_acquire ;;;
  let! s := get in
  match scan_table (is_state UNUSED) 0 s with
  | None => pt_release ;;; ret None
  | Some i =>
      upd i (p_set_state EMBRYO) ;;;
      upd i (p_set_pid (ps_nextpid s)) ;;;
      modify (s_nextpid (i32 (ps_nextpid s + 1))) ;;;
      pt_release ;;;
      let! k := env e_kalloc in
      upd i (p_set_kstack k) ;;;
      if k =? 0 then upd i (p_set_state UNUSED) ;;; ret None
      else
        let sp := u32 (k + KSTACKSIZE - 76) in       (* sizeof *p->tf *)
        upd i (fun p => p_set_tf sp (p_frame p) p) ;;;
        let sp := u32 (sp - 4 - 20) in               (* trapret, sizeof *p->context *)
        upd i (p_set_context sp KForkret) ;;;
        ret (Some i)
  end.

(** [initcode] is the linked binary. *)
Definition userinit (initcode : list Z) : PM unit :=
  let! r := allocproc in
  match r with
  | None => undefined "null process"
  | Some p =>
      modify (s_init (Some p)) ;;;
      let! pgdir := env e_setupkvm in
      if pgdir =? 0 then panic "userinit: out of memory?" else
      env (e_inituvm pgdir initcode) ;;;
      upd p (p_set_mem pgdir 4096) ;;;
      upd p (fun q => p_set_tf (p_tf q)
        (mk_tf 0 0 0 0 0 0 0 0 0 0 35 35 0 0 0 27 512 4096 35) q) ;;;
      upd p (fun q => p_set_name
        (name_copy (p_name q) [105; 110; 105; 116; 99; 111; 100; 101; 0]) q) ;;;   (* initcode *)
      let! cwd := env (e_namei [47]) in                                         (* / *)
      upd p (p_set_cwd cwd) ;;;
      pt_acquire ;;;
      upd p (p_set_state RUNNABLE) ;;;
      pt_release
  end.

Definition growproc (n : Z) : PM Z :=
  let! c := curproc in
  let! s := get in
  let sz := p_sz (ps_proc s c) in
  let pgdir := p_pgdir (ps_proc s c) in
  let grown (sz : Z) : PM Z :=
    upd c (p_set_mem pgdir sz) ;;;
    env (e_switchuvm pgdir (p_kstack (ps_proc s c))) ;;;
    ret 0 in
  if 0 <? n then
    let! sz := env (e_allocuvm pgdir sz (u32 (sz + n))) in
    if sz =? 0 then ret (-1) else grown sz
  else if n <? 0 then
    let! sz := env (e_deallocuvm pgdir sz (u32 (sz + n))) in
    if sz =? 0 then ret (-1) else grown sz
  else grown sz.

(** [for(i = 0; i < NOFILE; i++) if(curproc->ofile[i]) np->ofile[i] = filedup(...)] *)
Fixpoint dup_files (np i : nat) (ofile : list Z) : PM unit :=
  match ofile with
  | [] => ret tt
  | f :: rest =>
      (if f =? 0 then ret tt
       else let! g := env (e_filedup f) in upd np (fun p => p_set_ofile (<[i := g]> (p_ofile p)) p)) ;;;
      dup_files np (S i) rest
  end.

(** [fork] after [allocproc] has returned [np]. *)
Definition fork_rest (np : nat) : PM Z :=
  let! c := curproc in
  let! s := get in
  let cur := ps_proc s c in
  let! pgdir := env (e_copyuvm (p_pgdir cur) (p_sz cur)) in
  upd np (fun p => p_set_mem pgdir (p_sz p) p) ;;;
  if pgdir =? 0 then
    let! s := get in
    env (e_kfree (p_kstack (ps_proc s np))) ;;;
    upd np (p_set_kstack 0) ;;;
    upd np (p_set_state UNUSED) ;;;
    ret (-1)
  else
    upd np (p_set_mem pgdir (p_sz cur)) ;;;
    upd np (p_set_parent (Some c)) ;;;
    upd np (fun p => p_set_tf (p_tf p) (p_frame cur) p) ;;;
    upd np (fun p => p_set_tf (p_tf p) (tf_set_eax 0 (p_frame p)) p) ;;;
    dup_files np 0 (take NOFILE (p_ofile cur)) ;;;
    let! cwd := env (e_idup (p_cwd cur)) in
    upd np (p_set_cwd cwd) ;;;
    upd np (fun p => p_set_name (name_copy (p_name p) (p_name cur)) p) ;;;
    let! s := get in
    let pid := p_pid (ps_proc s np) in
    pt_acquire ;;;
    upd np (p_set_state RUNNABLE) ;;;
    pt_release ;;;
    ret pid.

Definition fork : PM Z :=
  let! r := allocproc in
  match r with
  | None => ret (-1)
  | Some np => fork_rest np
  end.

(** [wakeup1] on the table. *)
Definition wake_entry (c : chan) (p : proc) : proc :=
  if bool_decide (p_state p = SLEEPING) && bool_decide (p_chan p = c) then p_set_state RUNNABLE p else p.
Definition wakeup1_table (c : chan) (t : nat -> proc) : nat -> proc := fun i =>
  if (i <? NPROC)%nat then wake_entry c (t i) else t i.
Definition wakeup1 (c : chan) : PM unit := modify (fun s => s_proc (wakeup1_table c (ps_proc s)) s).

Definition wakeup (c : chan) : PM unit := pt_acquire ;;; wakeup1 c ;;; pt_release.

(** The switch of [sched] to the scheduler: [swtch], then [switchkvm] and
    [c->proc = 0] in [scheduler]; the process goes on later. *)
Definition switch_to_scheduler : PM unit :=
  env e_switchkvm ;;;
  modify (s_run me None) ;;;
  waits.

Definition sched (k : bool -> kont) : PM unit :=
  let! p := curproc in
  let! s := get in
  if negb (holding me (ps_lock s)) then panic "sched ptable.lock"
  else if negb (ncli (ps_cpu s me) =? 1) then panic "sched locks"
  else if is_state RUNNING (ps_proc s p) then panic "sched running"
  else if if_flag (ps_cpu s me) then panic "sched interruptible"
  else
    upd p (fun q => p_set_context (p_context q) (k (intena (ps_cpu s me))) q) ;;;
    switch_to_scheduler.

Fixpoint close_files (c i n : nat) : PM unit :=
  match n with
  | O => ret tt
  | S k =>
      let! s := get in
      let f := default 0 (p_ofile (ps_proc s c) !! i) in
      (if f =? 0 then ret tt
       else env (e_fileclose f) ;;; upd c (fun p => p_set_ofile (<[i := 0]> (p_ofile p)) p)) ;;;
      close_files c (S i) k
  end.

(** The loop of [exit] that passes the children of [c] to init. *)
Definition reparent_entry (c : nat) (init : option nat) (t : nat -> proc) (i : nat) : nat -> proc :=
  if bool_decide (p_parent (t i) = Some c) then
    let t' := fupd t i (p_set_parent init (t i)) in
    if bool_decide (p_state (t' i) = ZOMBIE) then
      wakeup1_table (match init with Some j => ChProc j | None => ChNone end) t'
    else t'
  else t.
Definition reparent_table (c : nat) (init : option nat) (t : nat -> proc) : nat -> proc :=
  foldl (reparent_entry c init) t (seq 0 NPROC).

Definition parent_chan (p : proc) : chan :=
  match p_parent p with Some q => ChProc q | None => ChNone end.

Definition exit : PM unit :=
  let! c := curproc in
  let! s := get in
  if bool_decide (ps_init s = Some c) then panic "init exiting" else
  close_files c 0 NOFILE ;;;
  env e_begin_op ;;;
  let! s := get in
  env (e_iput (p_cwd (ps_proc s c))) ;;;
  env e_end_op ;;;
  upd c (p_set_cwd 0) ;;;
  pt_acquire ;;;
  let! s := get in
  wakeup1 (parent_chan (ps_proc s c)) ;;;
  modify (fun s => s_proc (reparent_table c (ps_init s) (ps_proc s)) s) ;;;
  upd c (p_set_state ZOMBIE) ;;;
  sched KYield ;;;
  panic "zombie exit".

(** [sleep(chan, lk)]; [other] says that [lk] is not [ptable.lock]. *)
Definition sleep (c : chan) (other : bool) (lk_release : M E unit) : PM unit :=
  let! p := myproc in
  match p with
  | None => panic "sleep"
  | Some p =>
      (if other then pt_acquire ;;; env lk_release ;;; pt_popcli else ret tt) ;;;
      upd p (p_set_chan c) ;;;
      upd p (p_set_state SLEEPING) ;;;
      sched (KSleep other)
  end.

Definition is_child (c : nat) (p : proc) : bool := bool_decide (p_parent p = Some c).
Definition is_zombie_child (c : nat) (p : proc) : bool := is_child c p && is_state ZOMBIE p.

(** The loop of [wait], with [ptable.lock] held, up to its return or its [sleep]. *)
Definition wait_loop (c : nat) : PM Z :=
  let! s := get in
  match scan_table (is_zombie_child c) 0 s with
  | Some i =>
      let pid := p_pid (ps_proc s i) in
      env (e_kfree (p_kstack (ps_proc s i))) ;;;
      upd i (p_set_kstack 0) ;;;
      env (e_freevm (p_pgdir (ps_proc s i))) ;;;
      upd i (p_set_pid 0) ;;;
      upd i (p_set_parent None) ;;;
      upd i (fun p => p_set_name (<[0%nat := 0]> (p_name p)) p) ;;;
      upd i (p_set_killed false) ;;;
      upd i (p_set_state UNUSED) ;;;
      pt_release ;;;
      ret pid
  | None =>
      let havekids := match scan_table (is_child c) 0 s with Some _ => true | None => false end in
      if negb havekids || p_killed (ps_proc s c) then pt_release ;;; ret (-1)
      else sleep (ChProc c) false (ret tt) ;;; ret 0
  end.

Definition wait : PM Z :=
  let! c := curproc in
  pt_acquire ;;;
  wait_loop c.

Definition yield : PM unit :=
  pt_acquire ;;;
  let! c := curproc in
  upd c (p_set_state RUNNABLE) ;;;
  sched KYield.

(** A fork child's first steps; [rootdev] is ROOTDEV. *)
Definition forkret (rootdev : Z) : PM unit :=
  pt_release ;;;
  let! s := get in
  if ps_first s then
    modify (s_first false) ;;; env (e_iinit rootdev) ;;; env (e_initlog rootdev)
  else ret tt.

(** What a process does when the scheduler switches to it. *)
Definition resume (p : nat) (k : kont) (lk_acquire : M E unit) : PM unit :=
  match k with
  | KForkret => forkret 1
  | KYield ie =>
      modify (fun s => s_cpu me (set_intena ie (ps_cpu s me)) s) ;;;
      pt_release
  | KSleep other ie =>
      modify (fun s => s_cpu me (set_intena ie (ps_cpu s me)) s) ;;;
      upd p (p_set_chan ChNone) ;;;
      if other then pt_release ;;; modify (fun s => s_cpu me (pushcli (ps_cpu s me)) s) ;;; env lk_acquire
      else wait_loop p ;;; ret tt      (* only wait sleeps on ptable.lock *)
  end.

(** The scheduler between two switches: the next RUNNABLE entry from [p] on, or
    the end of the pass over the table. *)
Definition scheduler_next (lk_acquire : M E unit) : PM (option nat) :=
  let! s := get in
  match scan_table (is_state RUNNABLE) (ps_pos s me) s with
  | Some p =>
      modify (s_pos me (S p)) ;;;
      modify (s_run me (Some p)) ;;;
      env (e_switchuvm (p_pgdir (ps_proc s p)) (p_kstack (ps_proc s p))) ;;;
      upd p (p_set_state RUNNING) ;;;
      resume p (p_kont (ps_proc s p)) lk_acquire ;;;
      ret (Some p)
  | None => modify (s_pos me NPROC) ;;; pt_release ;;; ret None
  end.

(** The start of a pass: [sti(); acquire(&ptable.lock); p = ptable.proc]. *)
Definition scheduler_pass : PM unit :=
  modify (fun s => s_cpu me (sti (ps_cpu s me)) s) ;;;
  pt_acquire ;;;
  modify (s_pos me 0%nat).

Definition has_pid (pid : Z) (p : proc) : bool := p_pid p =? pid.

Definition kill (pid : Z) : PM Z :=
  pt_acquire ;;;
  let! s := get in
  match scan_table (has_pid pid) 0 s with
  | Some i =>
      upd i (p_set_killed true) ;;;
      (if is_state SLEEPING (ps_proc s i) then upd i (p_set_state RUNNABLE) else ret tt) ;;;
      pt_release ;;;
      ret 0
  | None => pt_release ;;; ret (-1)
  end.

Definition sys_pscnt : PM Z :=
  gets (fun s => Z.of_nat (length (filter (fun i => p_state (ps_proc s i) <> UNUSED) (seq 0 NPROC)))).

(** [procdump]: the lines printed, as pid, state, name and, for a sleeping
    process, the program counters up to the first 0; [frames] is the kernel
    memory and [ebp] the saved frame pointer of an entry. *)
Definition state_name (st : procstate) : string :=
  match st with
  | UNUSED => "unused" | EMBRYO => "embryo" | SLEEPING => "sleep " | RUNNABLE => "runble"
  | RUNNING => "run   " | ZOMBIE => "zombie"
  end.
Definition dump_line (frames : Z -> Z) (ebp : nat -> Z) (s : pst E) (i : nat)
    : Z * string * list Z * list Z :=
  let p := ps_proc s i in
  (p_pid p, state_name (p_state p), until_zero (p_name p),
   if is_state SLEEPING p then until_zero (getcallerpcs frames (u32 (ebp i + 8))) else []).
Definition procdump (frames : Z -> Z) (ebp : nat -> Z) : PM (list (Z * string * list Z * list Z)) :=
  gets (fun s => dump_line frames ebp s <$>
          filter (fun i => p_state (ps_proc s i) <> UNUSED) (seq 0 NPROC)).
End proc.
