(* ===== verification/ProcSpec.v ===== *)
(** * The life cycle of processes, abstractly

    What [src/xv6/proc.c] promises about processes, as a transition system on the
    entries of the process table (state, pid, parent, channel, killed), the CPUs and
    the forks in progress.  [ProcRefine] shows that the routines of [Proc] make these
    transitions and no others. *)

From S2P Require Import Prelude Proc.

Record ent : Type := mk_ent {
  en_state : procstate;
  en_pid : Z;
  en_parent : option nat;
  en_chan : chan;
  en_killed : bool
}.

Definition set_state x e := mk_ent x (en_pid e) (en_parent e) (en_chan e) (en_killed e).
Definition set_pid x e := mk_ent (en_state e) x (en_parent e) (en_chan e) (en_killed e).
Definition set_parent x e := mk_ent (en_state e) (en_pid e) x (en_chan e) (en_killed e).
Definition set_chan x e := mk_ent (en_state e) (en_pid e) (en_parent e) x (en_killed e).
Definition set_killed x e := mk_ent (en_state e) (en_pid e) (en_parent e) (en_chan e) x.

(** [a_fork p = Some i]: process [p] is in [fork] and [i] is its half-made child. *)
Record ast : Type := mk_ast {
  a_ent : nat -> ent;
  a_run : nat -> option nat;
  a_init : nat;
  a_next : Z;
  a_fork : nat -> option nat
}.

(** A process that has started and not exited. *)
Definition alive (x : procstate) : Prop := x = SLEEPING \/ x = RUNNABLE \/ x = RUNNING.

Definition wake_ent (c : chan) (e : ent) : ent :=
  if bool_decide (en_state e = SLEEPING) && bool_decide (en_chan e = c) then set_state RUNNABLE e else e.

Definition kill_ent (e : ent) : ent :=
  set_killed true (if bool_decide (en_state e = SLEEPING) then set_state RUNNABLE e else e).

(** An entry after process [p] with parent channel [c] has exited: a sleeper on [c]
    is woken, and init too when it adopts a zombie; init adopts the children of [p]. *)
Definition exit_ent (p init : nat) (c : chan) (zombies : bool) (e : ent) : ent :=
  let e := wake_ent c e in
  let e := if zombies then wake_ent (ChProc init) e else e in
  if bool_decide (en_parent e = Some p) then set_parent (Some init) e else e.

Definition chan_of (q : option nat) : chan := match q with Some q => ChProc q | None => ChNone end.

(** What a transition changes. *)
Definition entry_is (a a' : ast) (i : nat) (e : ent) : Prop :=
  a_ent a' i = e /\ forall j, j <> i -> a_ent a' j = a_ent a j.
Definition run_is (a a' : ast) (c : nat) (p : option nat) : Prop :=
  a_run a' c = p /\ forall d, d <> c -> a_run a' d = a_run a d.
Definition fork_is (a a' : ast) (p : nat) (i : option nat) : Prop :=
  a_fork a' p = i /\ forall q, q <> p -> a_fork a' q = a_fork a q.
Definition same_run (a a' : ast) : Prop := forall c, a_run a' c = a_run a c.
Definition same_fork (a a' : ast) : Prop := forall p, a_fork a' p = a_fork a p.

(** The transitions.  [c] is a CPU and [p] the process that runs on it. *)
Inductive change (a a' : ast) : Prop :=
| c_alloc c p i :      (* allocproc succeeds *)
    a_run a c = Some p -> a_fork a p = None -> en_state (a_ent a i) = UNUSED ->
    entry_is a a' i (set_state EMBRYO (set_pid (a_next a) (a_ent a i))) ->
    same_run a a' -> a_next a' = a_next a + 1 -> fork_is a a' p (Some i) -> change a a'
| c_alloc_fail i :     (* allocproc finds no memory for a stack *)
    en_state (a_ent a i) = UNUSED -> entry_is a a' i (set_pid (a_next a) (a_ent a i)) ->
    same_run a a' -> a_next a' = a_next a + 1 -> same_fork a a' -> change a a'
| c_fork_fail p i :
    a_fork a p = Some i -> entry_is a a' i (set_state UNUSED (a_ent a i)) ->
    same_run a a' -> a_next a' = a_next a -> fork_is a a' p None -> change a a'
| c_fork p i :
    a_fork a p = Some i -> entry_is a a' i (set_state RUNNABLE (set_parent (Some p) (a_ent a i))) ->
    same_run a a' -> a_next a' = a_next a -> fork_is a a' p None -> change a a'
| c_exit c p zombies :
    a_run a c = Some p -> p <> a_init a -> a_fork a p = None ->
    (zombies = true <-> exists k, en_parent (a_ent a k) = Some p /\ en_state (a_ent a k) = ZOMBIE) ->
    (let f := exit_ent p (a_init a) (chan_of (en_parent (a_ent a p))) zombies in
     a_ent a' p = set_state ZOMBIE (f (a_ent a p)) /\
     forall j, j <> p -> a_ent a' j = f (a_ent a j)) ->
    run_is a a' c None -> a_next a' = a_next a -> same_fork a a' -> change a a'
| c_reap c p i :       (* wait finds a zombie *)
    a_run a c = Some p -> en_parent (a_ent a i) = Some p -> en_state (a_ent a i) = ZOMBIE ->
    entry_is a a' i (mk_ent UNUSED 0 None (en_chan (a_ent a i)) false) ->
    same_run a a' -> a_next a' = a_next a -> same_fork a a' -> change a a'
| c_wait c p :         (* wait finds none and sleeps *)
    a_run a c = Some p ->
    (forall i, en_parent (a_ent a i) = Some p -> en_state (a_ent a i) <> ZOMBIE) ->
    entry_is a a' p (set_state SLEEPING (set_chan (ChProc p) (a_ent a p))) ->
    run_is a a' c None -> a_next a' = a_next a -> same_fork a a' -> change a a'
| c_sleep c p x :
    a_run a c = Some p -> entry_is a a' p (set_state SLEEPING (set_chan (ChAddr x) (a_ent a p))) ->
    run_is a a' c None -> a_next a' = a_next a -> same_fork a a' -> change a a'
| c_yield c p :
    a_run a c = Some p -> entry_is a a' p (set_state RUNNABLE (a_ent a p)) ->
    run_is a a' c None -> a_next a' = a_next a -> same_fork a a' -> change a a'
| c_wakeup x :
    (forall i, a_ent a' i = wake_ent x (a_ent a i)) ->
    same_run a a' -> a_next a' = a_next a -> same_fork a a' -> change a a'
| c_kill i :
    entry_is a a' i (kill_ent (a_ent a i)) ->
    same_run a a' -> a_next a' = a_next a -> same_fork a a' -> change a a'
| c_run c p :          (* the scheduler switches to p *)
    a_run a c = None -> en_state (a_ent a p) = RUNNABLE ->
    entry_is a a' p (set_state RUNNING (a_ent a p)) ->
    run_is a a' c (Some p) -> a_next a' = a_next a -> same_fork a a' -> change a a'
| c_resume c p :       (* p is back in sleep *)
    a_run a c = Some p -> entry_is a a' p (set_chan ChNone (a_ent a p)) ->
    same_run a a' -> a_next a' = a_next a -> same_fork a a' -> change a a'
| c_none :             (* nothing that the invariant speaks of *)
    (forall i, a_ent a' i = a_ent a i) ->
    same_run a a' -> a_next a' = a_next a -> same_fork a a' -> change a a'.

Definition trans (a a' : ast) : Prop := a_init a' = a_init a /\ change a a'.

(** ** The invariant *)

(** CPUs and RUNNING processes correspond one to one. *)
Record cpu_inv (a : ast) : Prop := mk_cpu_inv {
  i_run c p : a_run a c = Some p -> en_state (a_ent a p) = RUNNING;
  i_run_inj c d p : a_run a c = Some p -> a_run a d = Some p -> c = d;
  i_running p : en_state (a_ent a p) = RUNNING -> exists c, a_run a c = Some p
}.

(** The pids of used entries are positive, below nextpid and distinct. *)
Record pid_inv (a : ast) : Prop := mk_pid_inv {
  i_pid i : en_state (a_ent a i) <> UNUSED -> 0 < en_pid (a_ent a i) < a_next a;
  i_pid_inj i j : en_state (a_ent a i) <> UNUSED -> en_state (a_ent a j) <> UNUSED ->
    en_pid (a_ent a i) = en_pid (a_ent a j) -> i = j;
  i_next : 0 < a_next a
}.

(** Every half-made child belongs to one live process that is in [fork]. *)
Record fork_inv (a : ast) : Prop := mk_fork_inv {
  i_fork p i : a_fork a p = Some i -> alive (en_state (a_ent a p)) /\ en_state (a_ent a i) = EMBRYO;
  i_fork_inj p q i : a_fork a p = Some i -> a_fork a q = Some i -> p = q;
  i_embryo i : en_state (a_ent a i) = EMBRYO -> exists p, a_fork a p = Some i
}.

(** The parent of a started process is another, live process; init has none. *)
Record parent_inv (a : ast) : Prop := mk_parent_inv {
  i_init : alive (en_state (a_ent a (a_init a)));
  i_init_parent : en_parent (a_ent a (a_init a)) = None;
  i_noparent i : en_state (a_ent a i) = UNUSED \/ en_state (a_ent a i) = EMBRYO ->
    en_parent (a_ent a i) = None;
  i_parent i : en_state (a_ent a i) <> UNUSED -> en_state (a_ent a i) <> EMBRYO -> i <> a_init a ->
    exists q, en_parent (a_ent a i) = Some q;
  i_parent_alive i q : en_parent (a_ent a i) = Some q -> q <> i /\ alive (en_state (a_ent a q))
}.

(** A process asleep in [wait] has no zombie child. *)
Definition wait_inv (a : ast) : Prop := forall q r,
  en_state (a_ent a q) = SLEEPING -> en_chan (a_ent a q) = ChProc r ->
  r = q /\ forall i, en_parent (a_ent a i) = Some q -> en_state (a_ent a i) <> ZOMBIE.

Record pinv (a : ast) : Prop := mk_pinv {
  p_cpu : cpu_inv a;
  p_pids : pid_inv a;
  p_fork : fork_inv a;
  p_parents : parent_inv a;
  p_wait : wait_inv a
}.

(** *** What leaves each part alone *)

Section parts.
Context (a a' : ast).

Lemma cpu_inv_same :
  cpu_inv a -> same_run a a' ->
  (forall j, en_state (a_ent a' j) = RUNNING <-> en_state (a_ent a j) = RUNNING) -> cpu_inv a'.
Proof.
  intros [H1 H2 H3] Hr Hs. split.
  - intros c p. rewrite Hr, Hs. apply H1.
  - intros c d p. rewrite !Hr. apply H2.
  - intros p. rewrite Hs. intros H. destruct (H3 p H) as [c Hc]. exists c. by rewrite Hr.
Qed.

(** The process of CPU [c] stops running. *)
Lemma cpu_inv_leave c p :
  cpu_inv a -> a_run a c = Some p -> run_is a a' c None -> en_state (a_ent a' p) <> RUNNING ->
  (forall j, j <> p -> en_state (a_ent a' j) = RUNNING <-> en_state (a_ent a j) = RUNNING) ->
  cpu_inv a'.
Proof.
  intros [H1 H2 H3] Hc [Hc' Hd] Hp Hs.
  assert (Hrun : forall d q, a_run a' d = Some q -> a_run a d = Some q /\ q <> p).
  { intros d q Hq. destruct (decide (d = c)) as [->|Hdc]; [congruence|].
    rewrite Hd in Hq by done. split; [done|]. intros ->. by apply Hdc, (H2 _ _ p). }
  split.
  - intros d q Hq. apply Hrun in Hq as [Hq Hne]. apply Hs; eauto.
  - intros d e q [Hq _]%Hrun [Hq' _]%Hrun. eauto.
  - intros q Hq. destruct (decide (q = p)) as [->|Hne]; [done|].
    apply Hs in Hq; [|done]. destruct (H3 q Hq) as [d Hdq]. exists d.
    rewrite Hd; [done|]. congruence.
Qed.

(** CPU [c] starts to run [p]. *)
Lemma cpu_inv_enter c p :
  cpu_inv a -> a_run a c = None -> run_is a a' c (Some p) -> en_state (a_ent a p) <> RUNNING ->
  en_state (a_ent a' p) = RUNNING ->
  (forall j, j <> p -> en_state (a_ent a' j) = RUNNING <-> en_state (a_ent a j) = RUNNING) ->
  cpu_inv a'.
Proof.
  intros [H1 H2 H3] Hc [Hc' Hd] Hp Hp' Hs.
  assert (Hrun : forall d q, d <> c -> a_run a' d = Some q -> a_run a d = Some q /\ q <> p).
  { intros d q Hdc Hq. rewrite Hd in Hq by done. split; [done|]. intros ->. by apply Hp, (H1 d). }
  split.
  - intros d q Hq. destruct (decide (d = c)) as [->|Hdc].
    + by simplify_eq.
    + apply Hrun in Hq as [Hq Hne]; [|done]. apply Hs; eauto.
  - intros d e q Hq Hq'.
    destruct (decide (d = c)) as [->|Hdc], (decide (e = c)) as [->|Hec]; [done| | |].
    + apply Hrun in Hq'; [|done]. naive_solver.
    + apply Hrun in Hq; [|done]. naive_solver.
    + apply Hrun in Hq, Hq'; [|done..]. naive_solver.
  - intros q Hq. destruct (decide (q = p)) as [->|Hne]; [by exists c|].
    apply Hs in Hq; [|done]. destruct (H3 q Hq) as [d Hdq]. exists d.
    rewrite Hd; [done|]. congruence.
Qed.

Lemma pid_inv_same :
  pid_inv a -> a_next a <= a_next a' ->
  (forall j, en_state (a_ent a' j) <> UNUSED ->
     en_state (a_ent a j) <> UNUSED /\ en_pid (a_ent a' j) = en_pid (a_ent a j)) -> pid_inv a'.
Proof.
  intros [H1 H2 H3] Hn Hs. split; [| |lia].
  - intros i Hi. destruct (Hs i Hi) as [Hi' ->]. specialize (H1 i Hi'). lia.
  - intros i j Hi Hj. destruct (Hs i Hi) as [? ->], (Hs j Hj) as [? ->]. auto.
Qed.

Lemma fork_inv_same :
  fork_inv a -> same_fork a a' ->
  (forall j, en_state (a_ent a' j) = EMBRYO <-> en_state (a_ent a j) = EMBRYO) ->
  (forall j, is_Some (a_fork a j) -> alive (en_state (a_ent a j)) -> alive (en_state (a_ent a' j))) ->
  fork_inv a'.
Proof.
  intros [H1 H2 H3] Hf He Ha. split.
  - intros p i. rewrite Hf, He. intros H. destruct (H1 p i H). split; eauto.
  - intros p q i. rewrite !Hf. apply H2.
  - intros i. rewrite He. intros H. destruct (H3 i H) as [p Hp]. exists p. by rewrite Hf.
Qed.

(** The fork of [p] ends. *)
Lemma fork_inv_end p i :
  fork_inv a -> a_fork a p = Some i -> fork_is a a' p None -> en_state (a_ent a' i) <> EMBRYO ->
  (forall j, j <> i -> en_state (a_ent a' j) = en_state (a_ent a j)) -> fork_inv a'.
Proof.
  intros [H1 H2 H3] Hp [Hp' Hq] Hi Hs.
  assert (Hall : forall q j, a_fork a' q = Some j -> a_fork a q = Some j /\ j <> i).
  { intros q j Hj. destruct (decide (q = p)) as [->|Hne]; [congruence|]. rewrite Hq in Hj by done.
    split; [done|]. intros ->. by apply Hne, (H2 _ _ i). }
  destruct (H1 p i Hp) as [_ Hei]. split.
  - intros q j [Hj Hne]%Hall. destruct (H1 q j Hj) as [Hal Hem]. rewrite !Hs; [done|done|].
    intros ->. destruct Hal as [?|[?|?]]; congruence.
  - intros q r j [? _]%Hall [? _]%Hall. eauto.
  - intros j Hj. destruct (decide (j = i)) as [->|Hne]; [done|]. rewrite Hs in Hj by done.
    destruct (H3 j Hj) as [q Hqj]. exists q. rewrite Hq; [done|]. congruence.
Qed.

Lemma parent_inv_same :
  parent_inv a -> a_init a' = a_init a ->
  (forall j, en_parent (a_ent a' j) = en_parent (a_ent a j)) ->
  (forall j, en_state (a_ent a' j) = UNUSED \/ en_state (a_ent a' j) = EMBRYO <->
             en_state (a_ent a j) = UNUSED \/ en_state (a_ent a j) = EMBRYO) ->
  (forall j, alive (en_state (a_ent a j)) -> alive (en_state (a_ent a' j))) -> parent_inv a'.
Proof.
  intros [H1 H2 H3 H4 H5] Hi Hp Hs Ha. split; rewrite ?Hi, ?Hp; [by apply Ha|done| | |].
  - intros i. rewrite Hs, Hp. apply H3.
  - intros i Hu He Hne. rewrite Hp. apply H4; [| |done]; specialize (Hs i); tauto.
  - intros i q. rewrite Hp. intros H. destruct (H5 i q H) as [? ?]. auto.
Qed.

Lemma wait_inv_same :
  wait_inv a ->
  (forall j r, en_state (a_ent a' j) = SLEEPING -> en_chan (a_ent a' j) = ChProc r ->
     en_state (a_ent a j) = SLEEPING /\ en_chan (a_ent a j) = ChProc r) ->
  (forall j q, en_parent (a_ent a' j) = Some q -> en_state (a_ent a' j) = ZOMBIE ->
     en_parent (a_ent a j) = Some q /\ en_state (a_ent a j) = ZOMBIE) -> wait_inv a'.
Proof.
  intros H Hs Hp q r Hq Hr. destruct (Hs q r Hq Hr) as [Hq' Hr'].
  destruct (H q r Hq' Hr') as [-> Hz]. split; [done|]. intros i Hi Hzi.
  destruct (Hp i q Hi Hzi). by apply (Hz i).
Qed.
End parts.

(** *** The transitions *)

(** A sleeping process may become runnable, nothing else changes state. *)
Definition calm (x y : procstate) : Prop := y = x \/ x = SLEEPING /\ y = RUNNABLE.

Lemma calm_iff x y z : calm x y -> z <> SLEEPING -> z <> RUNNABLE -> y = z <-> x = z.
Proof. unfold calm. naive_solver. Qed.
Lemma calm_alive x y : calm x y -> alive x -> alive y.
Proof. unfold calm, alive. naive_solver. Qed.
Lemma calm_sleeping x y : calm x y -> y = SLEEPING -> x = SLEEPING.
Proof. unfold calm. naive_solver. Qed.
Lemma calm_trans x y z : calm x y -> calm y z -> calm x z.
Proof. unfold calm. intros [->|[-> ->]] [->|[? ->]]; auto; done. Qed.
Lemma wake_ent_calm c e : calm (en_state e) (en_state (wake_ent c e)).
Proof.
  unfold wake_ent, calm. destruct (decide (en_state e = SLEEPING)).
  - rewrite bool_decide_true by done. destruct (bool_decide _); simpl; auto.
  - rewrite bool_decide_false by done. auto.
Qed.
Lemma wake_ent_rest c e :
  en_pid (wake_ent c e) = en_pid e /\ en_parent (wake_ent c e) = en_parent e /\
  en_chan (wake_ent c e) = en_chan e.
Proof. unfold wake_ent. by destruct (_ && _). Qed.
Lemma wake_ent_awake c e : en_state (wake_ent c e) = SLEEPING -> en_chan e <> c.
Proof.
  unfold wake_ent. destruct (decide (en_chan e = c)); [|done].
  rewrite (bool_decide_true (en_chan e = c)), andb_true_r by done.
  case_bool_decide; simpl; [done|]. congruence.
Qed.

(** Wakeups, [kill], and a process that clears its channel while it runs. *)
Lemma pinv_calm a a' :
  pinv a -> a_init a' = a_init a -> a_next a' = a_next a -> same_run a a' -> same_fork a a' ->
  (forall j, calm (en_state (a_ent a j)) (en_state (a_ent a' j)) /\
     en_pid (a_ent a' j) = en_pid (a_ent a j) /\ en_parent (a_ent a' j) = en_parent (a_ent a j) /\
     (en_chan (a_ent a' j) = en_chan (a_ent a j) \/ en_state (a_ent a j) = RUNNING)) ->
  pinv a'.
Proof.
  intros [H1 H2 H3 H4 H5] Hi Hn Hr Hf Hall. split.
  - apply (cpu_inv_same a); [done..|]. intros j. by apply calm_iff; [apply Hall|..].
  - apply (pid_inv_same a); [done|lia|]. intros j Hj. split; [|apply Hall]. intros Hu. apply Hj.
    revert Hu. by apply calm_iff; [apply Hall|..].
  - apply (fork_inv_same a); [done..| |].
    + intros j. by apply calm_iff; [apply Hall|..].
    + intros j _. apply calm_alive, Hall.
  - apply (parent_inv_same a); [done..| | |].
    + intros j. apply Hall.
    + intros j. destruct (Hall j) as [Hc _].
      by rewrite (calm_iff _ _ UNUSED Hc), (calm_iff _ _ EMBRYO Hc).
    + intros j. apply calm_alive, Hall.
  - apply (wait_inv_same a); [done| |].
    + intros j r Hs Hch. destruct (Hall j) as (Hc & _ & _ & Hch').
      pose proof (calm_sleeping _ _ Hc Hs). split; [done|]. destruct Hch'; congruence.
    + intros j q Hp Hz. destruct (Hall j) as (Hc & _ & Hp' & _). split; [congruence|].
      by rewrite (calm_iff _ _ ZOMBIE Hc) in Hz.
Qed.

(** A running process gives up its CPU alive, or a runnable one gets a CPU. *)
Lemma pinv_move a a' p e :
  pinv a -> a_init a' = a_init a -> a_next a' = a_next a -> same_fork a a' -> entry_is a a' p e ->
  alive (en_state (a_ent a p)) -> alive (en_state e) -> en_pid e = en_pid (a_ent a p) ->
  en_parent e = en_parent (a_ent a p) ->
  (forall r, en_state e = SLEEPING -> en_chan e = ChProc r ->
     r = p /\ forall i, en_parent (a_ent a i) = Some p -> en_state (a_ent a i) <> ZOMBIE) ->
  cpu_inv a' -> pinv a'.
Proof.
  intros [H1 H2 H3 H4 H5] Hi Hn Hf [He Hne] Ha Ha' Hpid Hpar Hw Hcpu.
  assert (Hcase : forall j, a_ent a' j = a_ent a j \/ j = p /\ a_ent a' j = e).
  { intros j. destruct (decide (j = p)) as [->|]; auto. }
  assert (Hal : forall x, alive x -> x <> UNUSED /\ x <> EMBRYO /\ x <> ZOMBIE) by (unfold alive; naive_solver).
  assert (Hparent : forall j, en_parent (a_ent a' j) = en_parent (a_ent a j)).
  { intros j. destruct (Hcase j) as [->|[-> ->]]; done. }
  assert (Hdead : forall x j, x = UNUSED \/ x = EMBRYO \/ x = ZOMBIE ->
            en_state (a_ent a' j) = x <-> en_state (a_ent a j) = x).
  { intros x j Hx. destruct (Hcase j) as [->|[-> ->]]; [done|].
    apply Hal in Ha, Ha'. naive_solver. }
  split; [done| | | |].
  - apply (pid_inv_same a); [done|lia|]. intros j Hj. rewrite Hdead in Hj by auto. split; [done|].
    destruct (Hcase j) as [->|[-> ->]]; done.
  - apply (fork_inv_same a); [done|done| |].
    + intros j. apply Hdead. auto.
    + intros j _ Haj. destruct (Hcase j) as [->|[-> ->]]; done.
  - apply (parent_inv_same a); [done..| |].
    + intros j. by rewrite !Hdead by auto.
    + intros j Haj. destruct (Hcase j) as [->|[-> ->]]; done.
  - intros q r Hq Hr. destruct (Hcase q) as [Eq|[-> Eq]]; rewrite Eq in *.
    + destruct (H5 q r Hq Hr) as [-> Hz]. split; [done|]. intros i. rewrite Hparent.
      rewrite Hdead by auto. apply Hz.
    + destruct (Hw r Hq Hr) as [-> Hz]. split; [done|]. intros i. rewrite Hparent.
      rewrite Hdead by auto. apply Hz.
Qed.

Section changes.
Context (a a' : ast) (Hinv : pinv a) (Hi : a_init a' = a_init a).

Lemma pinv_alloc c p i :
  a_run a c = Some p -> a_fork a p = None -> en_state (a_ent a i) = UNUSED ->
  entry_is a a' i (set_state EMBRYO (set_pid (a_next a) (a_ent a i))) ->
  same_run a a' -> a_next a' = a_next a + 1 -> fork_is a a' p (Some i) -> pinv a'.
Proof.
  intros Hrun Hfork Hst [He Hne] Hr Hn [Hf Hfne].
  destruct Hinv as [H1 [P1 P2 P3] [F1 F2 F3] H4 H5].
  assert (Hcase : forall j, a_ent a' j = a_ent a j /\ j <> i \/
            j = i /\ a_ent a' j = set_state EMBRYO (set_pid (a_next a) (a_ent a i))).
  { intros j. destruct (decide (j = i)) as [->|]; auto. }
  assert (Hall : forall j, en_parent (a_ent a' j) = en_parent (a_ent a j) /\
            (forall x, x <> UNUSED -> x <> EMBRYO -> en_state (a_ent a' j) = x <-> en_state (a_ent a j) = x)).
  { intros j. destruct (Hcase j) as [[-> _]|[-> ->]]; simpl; [done|]. rewrite Hst. naive_solver. }
  assert (Halive : forall j, alive (en_state (a_ent a j)) -> alive (en_state (a_ent a' j))).
  { intros j. destruct (Hcase j) as [[-> _]|[-> _]]; [done|]. rewrite Hst. unfold alive. naive_solver. }
  split.
  - apply (cpu_inv_same a); [done..|]. intros j. by apply Hall.
  - split; [| |lia].
    + intros j. rewrite Hn. destruct (Hcase j) as [[-> _]|[-> ->]]; simpl; [|lia].
      intros Hj. specialize (P1 j Hj). lia.
    + intros j k. destruct (Hcase j) as [[-> _]|[-> ->]], (Hcase k) as [[-> _]|[-> ->]]; simpl;
        intros Hj Hk; [by apply P2| | |done].
      * specialize (P1 j Hj). lia.
      * specialize (P1 k Hk). lia.
  - split.
    + intros q j Hq. destruct (decide (q = p)) as [->|Hqp].
      * rewrite Hf in Hq. injection Hq as <-. rewrite He. split; [|done].
        apply Halive. right; right. by apply (i_run a H1 c).
      * rewrite Hfne in Hq by done. destruct (F1 q j Hq) as [Hal Hem].
        split; [by apply Halive|]. destruct (Hcase j) as [[-> _]|[-> ->]]; done.
    + assert (Hnew : forall q j, q <> p -> a_fork a' q = Some j -> a_fork a q = Some j /\ j <> i).
      { intros q j Hqp Hq. rewrite Hfne in Hq by done. split; [done|]. intros ->.
        destruct (F1 q i Hq). congruence. }
      intros q r j Hq Hrj. destruct (decide (q = p)) as [->|Hqp], (decide (r = p)) as [->|Hrp]; [done| | |].
      * apply Hnew in Hrj; [|done]. naive_solver.
      * apply Hnew in Hq; [|done]. naive_solver.
      * apply Hnew in Hq, Hrj; [|done..]. naive_solver.
    + intros j. destruct (Hcase j) as [[-> _]|[-> _]]; [|by exists p].
      intros [q Hq]%F3. exists q. rewrite Hfne; [done|]. congruence.
  - apply (parent_inv_same a); [done|done| | |done].
    + intros j. apply Hall.
    + intros j. destruct (Hcase j) as [[-> _]|[-> ->]]; simpl; [done|]. rewrite Hst. naive_solver.
  - apply (wait_inv_same a); [done| |].
    + intros j r. destruct (Hcase j) as [[-> _]|[-> ->]]; simpl; [done|]. done.
    + intros j q. destruct (Hcase j) as [[-> _]|[-> ->]]; simpl; done.
Qed.

Lemma pinv_alloc_fail i :
  en_state (a_ent a i) = UNUSED -> entry_is a a' i (set_pid (a_next a) (a_ent a i)) ->
  same_run a a' -> a_next a' = a_next a + 1 -> same_fork a a' -> pinv a'.
Proof.
  intros Hst [He Hne] Hr Hn Hf. destruct Hinv as [H1 H2 H3 H4 H5].
  assert (Hall : forall j, en_state (a_ent a' j) = en_state (a_ent a j) /\
            en_parent (a_ent a' j) = en_parent (a_ent a j) /\ en_chan (a_ent a' j) = en_chan (a_ent a j)).
  { intros j. destruct (decide (j = i)) as [->|]; [by rewrite He|by rewrite Hne]. }
  split.
  - apply (cpu_inv_same a); [done..|]. intros j. by rewrite (proj1 (Hall j)).
  - apply (pid_inv_same a); [done|lia|]. intros j. rewrite (proj1 (Hall j)). intros Hj. split; [done|].
    rewrite Hne; [done|]. congruence.
  - apply (fork_inv_same a); [done|done| |]; intros j; by rewrite (proj1 (Hall j)).
  - apply (parent_inv_same a); [done|done| | |]; intros j; [apply Hall|..]; by rewrite (proj1 (Hall j)).
  - apply (wait_inv_same a); [done| |]; intros j q; destruct (Hall j) as (E1 & E2 & E3); by rewrite ?E1, ?E2, ?E3.
Qed.

Lemma pinv_fork_fail p i :
  a_fork a p = Some i -> entry_is a a' i (set_state UNUSED (a_ent a i)) ->
  same_run a a' -> a_next a' = a_next a -> fork_is a a' p None -> pinv a'.
Proof.
  intros Hp [He Hne] Hr Hn Hf. destruct Hinv as [H1 H2 H3 H4 H5].
  destruct (i_fork a H3 p i Hp) as [_ Hem].
  assert (Hcase : forall j, a_ent a' j = a_ent a j \/ j = i /\ a_ent a' j = set_state UNUSED (a_ent a i)).
  { intros j. destruct (decide (j = i)) as [->|]; auto. }
  split.
  - apply (cpu_inv_same a); [done..|]. intros j. destruct (Hcase j) as [->|[-> ->]]; simpl; [done|]. rewrite Hem. naive_solver.
  - apply (pid_inv_same a); [done|lia|]. intros j. destruct (Hcase j) as [->|[-> ->]]; done.
  - apply (fork_inv_end a a' p i); [done..|by rewrite He|]. intros j Hj. by rewrite Hne.
  - apply (parent_inv_same a); [done|done| | |]; intros j; destruct (Hcase j) as [->|[-> ->]]; simpl; try done.
    + rewrite Hem. naive_solver.
    + rewrite Hem. unfold alive. naive_solver.
  - apply (wait_inv_same a); [done| |]; intros j q; destruct (Hcase j) as [->|[-> ->]]; done.
Qed.

Lemma pinv_fork p i :
  a_fork a p = Some i -> entry_is a a' i (set_state RUNNABLE (set_parent (Some p) (a_ent a i))) ->
  same_run a a' -> a_next a' = a_next a -> fork_is a a' p None -> pinv a'.
Proof.
  intros Hp [He Hne] Hr Hn Hf. destruct Hinv as [H1 H2 H3 [A1 A2 A3 A4 A5] H5].
  destruct (i_fork a H3 p i Hp) as [Hal Hem].
  assert (Hcase : forall j, a_ent a' j = a_ent a j /\ j <> i \/
            j = i /\ a_ent a' j = set_state RUNNABLE (set_parent (Some p) (a_ent a i))).
  { intros j. destruct (decide (j = i)) as [->|]; auto. }
  assert (Halive : forall j, alive (en_state (a_ent a j)) -> alive (en_state (a_ent a' j))).
  { intros j. destruct (Hcase j) as [[-> _]|[-> ->]]; [done|]. unfold alive; simpl; auto. }
  assert (Hii : i <> a_init a). { intros ->. rewrite Hem in A1. unfold alive in A1. naive_solver. }
  split.
  - apply (cpu_inv_same a); [done..|]. intros j.
    destruct (Hcase j) as [[-> _]|[-> ->]]; simpl; [done|]. rewrite Hem. naive_solver.
  - apply (pid_inv_same a); [done|lia|]. intros j.
    destruct (Hcase j) as [[-> _]|[-> ->]]; simpl; [done|]. by rewrite Hem.
  - apply (fork_inv_end a a' p i); [done..|by rewrite He|]. intros j Hj. by rewrite Hne.
  - split; rewrite ?Hi.
    + by apply Halive.
    + by rewrite Hne.
    + intros j. destruct (Hcase j) as [[-> _]|[-> ->]]; [apply A3|]. simpl. naive_solver.
    + intros j. destruct (Hcase j) as [[-> _]|[-> ->]]; [apply A4|]. simpl. eauto.
    + intros j q. destruct (Hcase j) as [[-> _]|[-> ->]]; simpl.
      * intros [? ?]%A5. split; [done|]. by apply Halive.
      * intros [= <-]. split; [|by apply Halive]. intros ->. rewrite Hem in Hal. unfold alive in Hal. naive_solver.
  - apply (wait_inv_same a); [done| |]; intros j q; destruct (Hcase j) as [[-> _]|[-> ->]]; done.
Qed.

Lemma pinv_reap c p i :
  a_run a c = Some p -> en_parent (a_ent a i) = Some p -> en_state (a_ent a i) = ZOMBIE ->
  entry_is a a' i (mk_ent UNUSED 0 None (en_chan (a_ent a i)) false) ->
  same_run a a' -> a_next a' = a_next a -> same_fork a a' -> pinv a'.
Proof.
  intros Hc Hpar Hst [He Hne] Hr Hn Hf. destruct Hinv as [H1 H2 H3 [A1 A2 A3 A4 A5] H5].
  assert (Hcase : forall j, a_ent a' j = a_ent a j \/
            j = i /\ a_ent a' j = mk_ent UNUSED 0 None (en_chan (a_ent a i)) false).
  { intros j. destruct (decide (j = i)) as [->|]; auto. }
  assert (Halive : forall j, alive (en_state (a_ent a j)) -> alive (en_state (a_ent a' j))).
  { intros j. destruct (Hcase j) as [->|[-> _]]; [done|]. rewrite Hst. unfold alive. naive_solver. }
  split.
  - apply (cpu_inv_same a); [done..|]. intros j. destruct (Hcase j) as [->|[-> ->]]; simpl; [done|]. rewrite Hst. naive_solver.
  - apply (pid_inv_same a); [done|lia|]. intros j. destruct (Hcase j) as [->|[-> ->]]; done.
  - apply (fork_inv_same a); [done|done| |by auto]. intros j.
    destruct (Hcase j) as [->|[-> ->]]; simpl; [done|]. rewrite Hst. naive_solver.
  - split; rewrite ?Hi.
    + by apply Halive.
    + destruct (Hcase (a_init a)) as [->|[_ ->]]; done.
    + intros j. destruct (Hcase j) as [->|[-> ->]]; [apply A3|done].
    + intros j. destruct (Hcase j) as [->|[-> ->]]; [apply A4|done].
    + intros j q. destruct (Hcase j) as [->|[-> ->]]; [|done].
      intros [? ?]%A5. split; [done|]. by apply Halive.
  - apply (wait_inv_same a); [done| |]; intros j q; destruct (Hcase j) as [->|[-> ->]]; done.
Qed.

Lemma exit_ent_spec p init c z e :
  let e' := exit_ent p init c z e in
  calm (en_state e) (en_state e') /\ en_pid e' = en_pid e /\ en_chan e' = en_chan e /\
  en_parent e' = (if decide (en_parent e = Some p) then Some init else en_parent e) /\
  (en_state e' = SLEEPING -> en_chan e <> c) /\
  (z = true -> en_state e' = SLEEPING -> en_chan e <> ChProc init).
Proof.
  unfold exit_ent. set (e1 := wake_ent c e). set (e2 := if z then _ else _).
  assert (H1 : calm (en_state e) (en_state e1)) by apply wake_ent_calm.
  destruct (wake_ent_rest c e) as (P1 & Q1 & R1). fold e1 in P1, Q1, R1.
  assert (H2 : calm (en_state e) (en_state e2) /\ en_pid e2 = en_pid e /\ en_parent e2 = en_parent e /\
               en_chan e2 = en_chan e).
  { unfold e2. destruct z; [|done]. destruct (wake_ent_rest (ChProc init) e1) as (-> & -> & ->).
    split; [|done]. eapply calm_trans; [done|apply wake_ent_calm]. }
  destruct H2 as (H2 & P2 & Q2 & R2).
  assert (Hs1 : en_state e2 = SLEEPING -> en_state e1 = SLEEPING).
  { unfold e2. destruct z; [|done]. apply calm_sleeping, wake_ent_calm. }
  assert (Hz : z = true -> en_state e2 = SLEEPING -> en_chan e <> ChProc init).
  { unfold e2. intros ->. rewrite <-R1. apply wake_ent_awake. }
  rewrite Q2. destruct (decide (en_parent e = Some p)).
  - rewrite bool_decide_true by done. simpl. repeat split; auto.
    intros H. by apply wake_ent_awake, Hs1.
  - rewrite bool_decide_false by done. repeat split; auto.
    intros H. by apply wake_ent_awake, Hs1.
Qed.

Lemma pinv_exit c p z :
  a_run a c = Some p -> p <> a_init a -> a_fork a p = None ->
  (z = true <-> exists k, en_parent (a_ent a k) = Some p /\ en_state (a_ent a k) = ZOMBIE) ->
  (let f := exit_ent p (a_init a) (chan_of (en_parent (a_ent a p))) z in
   a_ent a' p = set_state ZOMBIE (f (a_ent a p)) /\ forall j, j <> p -> a_ent a' j = f (a_ent a j)) ->
  run_is a a' c None -> a_next a' = a_next a -> same_fork a a' -> pinv a'.
Proof.
  intros Hrun Hpi Hfp Hz [Hp Hj] Hr Hn Hf. destruct Hinv as [H1 H2 H3 [A1 A2 A3 A4 A5] H5].
  set (f := exit_ent _ _ _ _) in *.
  pose proof (i_run a H1 c p Hrun) as Hstp.
  assert (Hst : forall j, j <> p -> calm (en_state (a_ent a j)) (en_state (a_ent a' j))).
  { intros j Hjp. rewrite Hj by done. apply exit_ent_spec. }
  assert (Hrest : forall j, en_pid (a_ent a' j) = en_pid (a_ent a j) /\ en_chan (a_ent a' j) = en_chan (a_ent a j) /\
            en_parent (a_ent a' j) = (if decide (en_parent (a_ent a j) = Some p) then Some (a_init a)
                                      else en_parent (a_ent a j))).
  { intros j. destruct (decide (j = p)) as [->|Hne].
    - rewrite Hp. simpl. repeat split; apply exit_ent_spec.
    - rewrite Hj by done. repeat split; apply exit_ent_spec. }
  assert (Hpz : en_state (a_ent a' p) = ZOMBIE) by by rewrite Hp.
  assert (Halive : forall j, j <> p -> alive (en_state (a_ent a j)) -> alive (en_state (a_ent a' j))).
  { intros j Hne. by apply calm_alive, Hst. }
  assert (Hiff : forall j x, j <> p -> x <> SLEEPING -> x <> RUNNABLE ->
            en_state (a_ent a' j) = x <-> en_state (a_ent a j) = x).
  { intros j x Hne. apply calm_iff. by apply Hst. }
  assert (Hiff2 : forall j x, x = UNUSED \/ x = EMBRYO -> en_state (a_ent a' j) = x <-> en_state (a_ent a j) = x).
  { intros j x Hx. destruct (decide (j = p)) as [->|].
    - rewrite Hpz, Hstp. by destruct Hx as [->| ->].
    - by apply Hiff; [|destruct Hx as [->| ->]..]. }
  split.
  - apply (cpu_inv_leave a a' c p); [done..|by rewrite Hpz|]. intros j Hne. by apply Hiff.
  - apply (pid_inv_same a); [done|lia|]. intros j. rewrite Hiff2 by auto. split; [done|apply Hrest].
  - apply (fork_inv_same a); [done|done| |].
    + intros j. apply Hiff2. auto.
    + intros j [k Hk]. apply Halive. congruence.
  - split; rewrite ?Hi.
    + by apply Halive.
    + destruct (Hrest (a_init a)) as (_ & _ & ->). by rewrite A2.
    + intros j Hs. rewrite !Hiff2 in Hs by auto. destruct (Hrest j) as (_ & _ & ->). by rewrite (A3 j Hs).
    + intros j Hu He Hne. rewrite Hiff2 in Hu, He by auto. destruct (Hrest j) as (_ & _ & ->).
      case_decide; eauto.
    + intros j q. destruct (Hrest j) as (_ & _ & ->). case_decide as Hd.
      * intros [= <-]. split; [|by apply Halive]. intros <-. congruence.
      * intros Hq. destruct (A5 j q Hq) as [? ?]. split; [done|]. apply Halive; congruence.
  - intros q r Hq Hch. assert (Hqp : q <> p) by congruence.
    rewrite (proj1 (proj2 (Hrest q))) in Hch.
    pose proof (calm_sleeping _ _ (Hst q Hqp) Hq) as Hq0.
    destruct (H5 q r Hq0 Hch) as [-> Hzq]. split; [done|]. intros i.
    destruct (Hrest i) as (_ & _ & ->). rewrite Hj in Hq by done.
    pose proof (exit_ent_spec p (a_init a) (chan_of (en_parent (a_ent a p))) z (a_ent a q)) as
      (_ & _ & _ & _ & Hc1 & Hc2). fold f in Hc1, Hc2. specialize (Hc1 Hq).
    case_decide as Hd.
    + intros [= <-] Hzi. assert (Hip : i <> p). { intros ->. destruct (A5 p p Hd). done. }
      rewrite Hiff in Hzi by done.
      assert (Hzt : z = true) by (apply Hz; eauto). by apply (Hc2 Hzt Hq).
    + intros Hiq Hzi. destruct (decide (i = p)) as [->|Hip].
      * apply Hc1. by rewrite Hiq, Hch.
      * rewrite Hiff in Hzi by done. by apply (Hzq i).
Qed.
End changes.

Lemma pinv_trans a a' : pinv a -> trans a a' -> pinv a'.
Proof.
  intros H [Hi Hc].
  assert (Hrun : forall c p, a_run a c = Some p -> en_state (a_ent a p) = RUNNING)
    by (apply i_run, H).
  assert (Hleave : forall c p e, a_run a c = Some p -> entry_is a a' p e -> run_is a a' c None ->
            en_state e <> RUNNING -> cpu_inv a').
  { intros c p e Hc' [He Hne] Hr Hs. apply (cpu_inv_leave a a' c p); [apply H|done|done|by rewrite He|].
    intros j Hj. by rewrite Hne. }
  destruct Hc as [c p i|i|p i|p i|c p z|c p i|c p|c p x|c p|x|i|c p|c p|].
  - by apply (pinv_alloc a a' H Hi c p i).
  - by apply (pinv_alloc_fail a a' H Hi i).
  - by apply (pinv_fork_fail a a' H Hi p i).
  - by apply (pinv_fork a a' H Hi p i).
  - by apply (pinv_exit a a' H Hi c p z).
  - by apply (pinv_reap a a' H Hi c p i).
  - eapply (pinv_move a a' p); try done; [unfold alive; eauto..| |by eapply Hleave].
    simpl. intros r _ [= ->]. done.
  - eapply (pinv_move a a' p); try done; [unfold alive; eauto..|by eapply Hleave].
  - eapply (pinv_move a a' p); try done; [unfold alive; eauto..|by eapply Hleave].
  - apply (pinv_calm a); [done..|]. intros j. match goal with E : forall i, a_ent a' i = _ |- _ => rewrite E end.
    destruct (wake_ent_rest x (a_ent a j)) as (-> & -> & ->). split; [apply wake_ent_calm|auto].
  - apply (pinv_calm a); [done..|]. intros j. match goal with E : entry_is _ _ _ _ |- _ => destruct E as [He Hne] end.
    destruct (decide (j = i)) as [->|Hj]; [rewrite He|rewrite Hne by done].
    + unfold kill_ent, calm. case_bool_decide; simpl; auto.
    + unfold calm. auto.
  - match goal with E : entry_is _ _ _ _ |- _ => destruct E as [He Hne] end.
    eapply (pinv_move a a' p); try done; [unfold alive; eauto..|].
    apply (cpu_inv_enter a a' c p); try done; [apply H|congruence|by rewrite He|].
    intros j Hj. by rewrite Hne.
  - apply (pinv_calm a); [done..|]. intros j. match goal with E : entry_is _ _ _ _ |- _ => destruct E as [He Hne] end.
    destruct (decide (j = p)) as [->|Hj]; [rewrite He|rewrite Hne by done]; unfold calm; simpl; eauto 8.
  - apply (pinv_calm a); [done..|]. intros j. match goal with E : forall i, a_ent a' i = _ |- _ => rewrite E end.
    unfold calm. auto.
Qed.
