(* ===== verification/ProcRefine.v ===== *)
(** * The routines of proc.c make the transitions of [ProcSpec]

    [alpha] reads the abstract state off the process table; each routine of [Proc]
    refines a sequence of transitions, so the invariant of [ProcSpec] holds in every
    state the kernel reaches after [userinit].  The last part is about the scheduler:
    context switches keep the interrupt state of a thread, and no RUNNABLE process
    is passed over for ever. *)

From S2P Require Import Prelude Spinlock Proc ProcSpec.

Definition ent_of (p : proc) : ent := mk_ent (p_state p) (p_pid p) (p_parent p) (p_chan p) (p_killed p).
Definition blank : ent := mk_ent UNUSED 0 None ChNone false.
Definition ents (t : nat -> proc) : nat -> ent := fun i =>
  if (i <? NPROC)%nat then ent_of (t i) else blank.

Lemma ents_lt t i : (i < NPROC)%nat -> ents t i = ent_of (t i).
Proof. intros H. unfold ents. by rewrite (proj2 (Nat.ltb_lt _ _) H). Qed.
Lemma ents_ge t i : (NPROC <= i)%nat -> ents t i = blank.
Proof. intros H. unfold ents. by rewrite (proj2 (Nat.ltb_ge _ _) H). Qed.
Lemma ents_used t i : en_state (ents t i) <> UNUSED -> (i < NPROC)%nat /\ ents t i = ent_of (t i).
Proof.
  intros H. destruct (Nat.lt_ge_cases i NPROC) as [Hi|Hi]; [split; [done|by apply ents_lt]|].
  by rewrite ents_ge in H.
Qed.
Lemma ents_ext t t' i : ent_of (t' i) = ent_of (t i) -> ents t' i = ents t i.
Proof. intros H. unfold ents. by rewrite H. Qed.

Section refine.
Context {E : Type} `{!ProcEnv E}.
Implicit Types s : pst E.
Implicit Types fk : nat -> option nat.

Definition alpha s fk : ast :=
  mk_ast (ents (ps_proc s)) (ps_run s) (default 0%nat (ps_init s)) (ps_nextpid s) fk.

(** [s'] differs from [s] in entry [i], which is now [e], and in nothing else the
    abstract state shows; [n] is nextpid. *)
Record only (s s' : pst E) (i : nat) (e : ent) (n : Z) : Prop := mk_only {
  o_other j : j <> i -> ps_proc s' j = ps_proc s j;
  o_entry : ent_of (ps_proc s' i) = e;
  o_run : ps_run s' = ps_run s;
  o_init : ps_init s' = ps_init s;
  o_next : ps_nextpid s' = n
}.

Lemma only_refl s i : only s s i (ent_of (ps_proc s i)) (ps_nextpid s).
Proof. done. Qed.

Section ops.
Context (me : nat).

Lemma post_env {A} (m : M E A) (Q : A -> pst E -> Prop) (R : pst E -> Prop) s :
  (forall a e, Q a (s_env e s)) -> (forall e, R (s_env e s)) -> post (env m) Q R s.
Proof. unfold post, env, zoom. destruct (m (ps_env s)); auto. Qed.

Lemma post_pt_acquire (Q : unit -> pst E -> Prop) (R : pst E -> Prop) s :
  (forall c l, Q tt (s_lock l (s_cpu me c s))) -> (forall c, R (s_cpu me c s)) ->
  post (pt_acquire me) Q R s.
Proof.
  intros HQ HR. unfold post, pt_acquire, bind, modify, acquire.
  destruct (holding _ _); [done|]. destruct (negb _); [apply HR|apply HQ].
Qed.

Lemma post_pt_popcli (Q : unit -> pst E -> Prop) (R : pst E -> Prop) s :
  (forall c, Q tt (s_cpu me c s)) -> post (pt_popcli me) Q R s.
Proof.
  intros HQ. unfold post, pt_popcli. destruct (popcli _) eqn:Hp; auto.
Qed.

Lemma post_pt_release (Q : unit -> pst E -> Prop) (R : pst E -> Prop) s :
  (forall c l, Q tt (s_cpu me c (s_lock l s))) -> post (pt_release me) Q R s.
Proof.
  intros HQ. unfold pt_release. apply post_bind. unfold post, release.
  destruct (negb _); [done|]. by apply post_pt_popcli.
Qed.

Lemma post_upd i f (Q : unit -> pst E -> Prop) (R : pst E -> Prop) s :
  Q tt (s_proc (fupd (ps_proc s) i (f (ps_proc s i))) s) -> post (upd i f) Q R s.
Proof. done. Qed.

Lemma post_curproc (Q : nat -> pst E -> Prop) (R : pst E -> Prop) s p :
  ps_run s me = Some p -> Q p s -> post (curproc me) Q R s.
Proof. intros Hp HQ. unfold curproc, myproc, bind, gets, post. by rewrite Hp. Qed.

(** *** One entry changes *)

Lemma only_env s s' i e n x : only s s' i e n -> only s (s_env x s') i e n.
Proof. intros []. done. Qed.
Lemma only_cpu s s' i e n c : only s s' i e n -> only s (s_cpu me c s') i e n.
Proof. intros []. done. Qed.
Lemma only_lock s s' i e n l : only s s' i e n -> only s (s_lock l s') i e n.
Proof. intros []. done. Qed.
Lemma only_upd s s' i e e' n f :
  only s s' i e n -> (forall p, ent_of p = e -> ent_of (f p) = e') ->
  only s (s_proc (fupd (ps_proc s') i (f (ps_proc s' i))) s') i e' n.
Proof.
  intros [H1 H2 H3 H4 H5] Hf. split; simpl; [|rewrite fupd_eq; auto|done..].
  intros j Hj. rewrite fupd_ne by done. auto.
Qed.

Section keep.
Context (s : pst E) (i : nat) (e : ent) (n : Z).

Lemma keep_env {A} (m : M E A) (Q : A -> pst E -> Prop) (R : pst E -> Prop) s' :
  only s s' i e n -> (forall a t, only s t i e n -> Q a t) -> (forall t, only s t i e n -> R t) ->
  post (env m) Q R s'.
Proof. intros H HQ HR. apply post_env; intros; [apply HQ|apply HR]; by apply only_env. Qed.

Lemma keep_acquire (Q : unit -> pst E -> Prop) (R : pst E -> Prop) s' :
  only s s' i e n -> (forall t, only s t i e n -> Q tt t) -> (forall t, only s t i e n -> R t) ->
  post (pt_acquire me) Q R s'.
Proof.
  intros H HQ HR. apply post_pt_acquire; intros; [apply HQ, only_lock|apply HR]; by apply only_cpu.
Qed.

Lemma keep_release (Q : unit -> pst E -> Prop) (R : pst E -> Prop) s' :
  only s s' i e n -> (forall t, only s t i e n -> Q tt t) -> post (pt_release me) Q R s'.
Proof. intros H HQ. apply post_pt_release. intros. by apply HQ, only_cpu, only_lock. Qed.

Lemma keep_upd g f (Q : unit -> pst E -> Prop) (R : pst E -> Prop) s' :
  only s s' i e n -> (forall p, ent_of (f p) = g (ent_of p)) ->
  (forall t, only s t i (g e) n -> Q tt t) -> post (upd i f) Q R s'.
Proof. intros H Hf HQ. apply post_upd, HQ. eapply only_upd; [done|]. intros p <-. apply Hf. Qed.

Lemma keep_nextpid m (Q : unit -> pst E -> Prop) (R : pst E -> Prop) s' :
  only s s' i e n -> (forall t, only s t i e m -> Q tt t) -> post (modify (s_nextpid m)) Q R s'.
Proof. intros [] HQ. apply post_modify, HQ. done. Qed.
End keep.
End ops.

(** What [only] says abstractly. *)
Lemma only_entry_is s s' i e n fk fk' :
  only s s' i e n -> (i < NPROC)%nat -> entry_is (alpha s fk) (alpha s' fk') i e.
Proof.
  intros [H1 H2 H3 H4 H5] Hi. split; simpl.
  - by rewrite ents_lt.
  - intros j Hj. apply ents_ext. by rewrite H1.
Qed.
Lemma only_same_run s s' i e n fk fk' : only s s' i e n -> same_run (alpha s fk) (alpha s' fk').
Proof. intros [] c. simpl. congruence. Qed.
Lemma only_init s s' i e n fk fk' : only s s' i e n -> a_init (alpha s' fk') = a_init (alpha s fk).
Proof. intros []. simpl. congruence. Qed.

Lemma only_none s s' i n fk :
  only s s' i (ent_of (ps_proc s i)) n -> n = ps_nextpid s -> trans (alpha s fk) (alpha s' fk).
Proof.
  intros [H1 H2 H3 H4 H5] ->. split; [simpl; congruence|]. apply c_none; simpl; [|intros c; simpl; congruence|done|done].
  intros j. apply ents_ext. destruct (decide (j = i)) as [->|]; [done|]. by rewrite H1.
Qed.

Lemma scan_table_Some test from s i :
  scan_table test from s = Some i ->
  (from <= i < NPROC)%nat /\ test (ps_proc s i) = true /\
  (forall j, (from <= j < i)%nat -> test (ps_proc s j) = false).
Proof.
  unfold scan_table. generalize NPROC as N. intros N. remember (N - from)%nat as n eqn:Hn.
  revert from Hn. induction n as [|n IH]; intros from Hn; simpl; [done|].
  destruct (test (ps_proc s from)) eqn:Ht.
  - intros [= ->]. split; [lia|]. split; [done|]. lia.
  - intros Hs. destruct (IH (S from) ltac:(lia) Hs) as (Hi & Hti & Hj). split; [lia|]. split; [done|].
    intros j Hj'. destruct (decide (j = from)) as [->|]; [done|]. apply Hj. lia.
Qed.

Lemma scan_table_None test from s :
  scan_table test from s = None -> forall j, (from <= j < NPROC)%nat -> test (ps_proc s j) = false.
Proof. unfold scan_table. intros H j Hj. apply (first_None _ _ H). apply elem_of_seq. lia. Qed.

Lemma is_state_true st p : is_state st p = true -> p_state p = st.
Proof. unfold is_state. by intros H%bool_decide_eq_true. Qed.

(** [R s']: a state in which the process has left CPU [me] is reached by transitions. *)
Definition away (me : nat) s fk s' : Prop :=
  ps_run s' me = None -> rtc trans (alpha s fk) (alpha s' fk).

Lemma only_away me s s' i e n p fk : ps_run s me = Some p -> only s s' i e n -> away me s fk s'.
Proof. intros Hp [_ _ Hr _ _] H. congruence. Qed.

End refine.

(** Run the next operation of the goal, with what it keeps of a hypothesis [only]. *)
Ltac keep :=
  repeat (lazymatch goal with |- post (modify (s_nextpid _)) _ _ _ => fail | _ => post_step end; cbn beta);
  lazymatch goal with
  | H : only ?s ?t ?i ?e ?n |- post (env _) _ _ ?t => eapply (keep_env s i e n); [exact H|clear H..]
  | H : only ?s ?t ?i ?e ?n |- post (pt_acquire ?me) _ _ ?t => eapply (keep_acquire me s i e n); [exact H|clear H..]
  | H : only ?s ?t ?i ?e ?n |- post (pt_release ?me) _ _ ?t => eapply (keep_release me s i e n); [exact H|clear H]
  | H : only ?s ?t ?i ?e ?n |- post (upd ?i _) _ _ ?t =>
      first [ eapply (keep_upd s i e n (fun x => x)); [exact H|intros ?x; unfold ent_of, set_state, set_pid, set_parent, set_chan, set_killed; cbn; reflexivity|clear H]
            | eapply (keep_upd s i e n (set_state _)); [exact H|intros ?x; unfold ent_of, set_state, set_pid, set_parent, set_chan, set_killed; cbn; reflexivity|clear H]
            | eapply (keep_upd s i e n (set_pid _)); [exact H|intros ?x; unfold ent_of, set_state, set_pid, set_parent, set_chan, set_killed; cbn; reflexivity|clear H]
            | eapply (keep_upd s i e n (set_parent _)); [exact H|intros ?x; unfold ent_of, set_state, set_pid, set_parent, set_chan, set_killed; cbn; reflexivity|clear H]
            | eapply (keep_upd s i e n (set_chan _)); [exact H|intros ?x; unfold ent_of, set_state, set_pid, set_parent, set_chan, set_killed; cbn; reflexivity|clear H]
            | eapply (keep_upd s i e n (set_killed _)); [exact H|intros ?x; unfold ent_of, set_state, set_pid, set_parent, set_chan, set_killed; cbn; reflexivity|clear H] ]
  | H : only ?s ?t ?i ?e ?n |- post (modify (s_nextpid _)) _ _ ?t =>
      eapply (keep_nextpid s i e n); [exact H|clear H]
  end; try (by intros; eapply only_away); try (intros; exact I); intros; cbn beta.

Section routines.
Context {E : Type} `{!ProcEnv E}.
Implicit Types s : pst E.
Implicit Types fk : nat -> option nat.

Lemma allocproc_refines me s p fk :
  ps_run s me = Some p -> fk p = None -> 0 < ps_nextpid s < 2147483647 ->
  post (allocproc me)
    (fun r s' => match r with
                 | Some i => trans (alpha s fk) (alpha s' (fupd fk p (Some i)))
                 | None => trans (alpha s fk) (alpha s' fk)
                 end) (away me s fk) s.
Proof.
  intros Hp Hfk Hn. unfold allocproc. apply post_bind, post_pt_acquire; [|by intros c Hc; simpl in Hc; congruence].
  intros c l. post_steps.
  destruct (scan_table _ _ _) as [i|] eqn:Hscan.
  - apply scan_table_Some in Hscan as ([_ Hi] & Hst%is_state_true & _). simpl in Hst.
    assert (H : only s (s_lock l (s_cpu me c s)) i (ent_of (ps_proc s i)) (ps_nextpid s)) by done.
    do 6 keep.
    assert (Hn' : i32 (ps_nextpid (s_lock l (s_cpu me c s)) + 1) = ps_nextpid s + 1)
      by (apply i32_small; simpl; lia).
    destruct (a =? 0).
    + keep. post_steps. split; [by eapply only_init|]. apply (c_alloc_fail _ _ i); [by simpl; rewrite ents_lt| | | |done].
      * simpl. rewrite ents_lt by lia. eapply only_entry_is; [|lia].
        replace (set_pid _ _) with (set_state UNUSED (set_pid (ps_nextpid s) (set_state EMBRYO (ent_of (ps_proc s i)))));
          [done|]. unfold set_pid, set_state; simpl. by rewrite Hst.
      * by eapply only_same_run.
      * simpl. by erewrite o_next.
    + do 2 keep. post_steps. split; [by eapply only_init|].
      apply (c_alloc _ _ me p i); [done|done|by simpl; rewrite ents_lt| | | |].
      * simpl. rewrite ents_lt by lia. eapply only_entry_is; [done|lia].
      * by eapply only_same_run.
      * simpl. by erewrite o_next.
      * split; [apply fupd_eq|]. intros q Hq. by apply fupd_ne.
  - assert (H : only s (s_lock l (s_cpu me c s)) 0 (ent_of (ps_proc s 0)) (ps_nextpid s)) by done.
    keep. post_steps. by eapply only_none.
Qed.

Lemma post_dup_files s i e n np l k (Q : unit -> pst E -> Prop) (R : pst E -> Prop) s' :
  only s s' i e n -> np = i -> (forall t, only s t i e n -> Q tt t) -> (forall t, only s t i e n -> R t) ->
  post (dup_files np k l) Q R s'.
Proof.
  intros H -> HQ HR. revert s' k H. induction l as [|f l IH]; intros s' k H; simpl.
  - post_steps. auto.
  - apply post_bind. destruct (f =? 0).
    + post_steps. auto.
    + apply post_bind. eapply (keep_env s i e n); [done| |auto]. intros g t Ht.
      eapply (keep_upd s i e n (fun x => x)); [done|by intros|]. auto.
Qed.

Lemma fork_rest_refines me s p i fk :
  pinv (alpha s fk) -> ps_run s me = Some p -> fk p = Some i ->
  post (fork_rest me i) (fun r s' => trans (alpha s fk) (alpha s' (fupd fk p None))) (away me s fk) s.
Proof.
  intros Hinv Hp Hfk.
  destruct (i_fork _ (p_fork _ Hinv) p i Hfk) as [_ Hem]. simpl in Hem.
  destruct (ents_used (ps_proc s) i) as [Hi Hei]; [by rewrite Hem|]. rewrite Hei in Hem.
  assert (Hent : a_ent (alpha s fk) i = ent_of (ps_proc s i)) by done.
  unfold fork_rest. apply post_bind. eapply post_curproc; [done|]. post_steps.
  pose proof (only_refl s i) as H. do 2 keep. destruct (a =? 0).
  - do 3 keep. post_steps. split; [by eapply only_init|].
    apply (c_fork_fail _ _ p i); [done|rewrite Hent; by eapply only_entry_is|by eapply only_same_run| |].
    + simpl. by erewrite o_next.
    + split; [apply fupd_eq|]. intros q Hq. by apply fupd_ne.
  - do 4 keep. apply post_bind. eapply post_dup_files; [done|done| |by intros; eapply only_away].
    clear H. intros t5 H. do 6 keep. post_steps. split; [by eapply only_init|].
    apply (c_fork _ _ p i); [done|rewrite Hent; by eapply only_entry_is|by eapply only_same_run| |].
    + simpl. by erewrite o_next.
    + split; [apply fupd_eq|]. intros q Hq. by apply fupd_ne.
Qed.

(** *** Leaving the CPU *)

(** [sched] of process [p]: whatever the guards say, the only state in which it
    leaves the CPU is the one with the saved context. *)
Lemma post_sched_gen me k s p (Q : unit -> pst E -> Prop) (R : pst E -> Prop) :
  ps_run s me = Some p ->
  (forall t, (forall j, ent_of (ps_proc t j) = ent_of (ps_proc s j)) -> ps_run t = fupd (ps_run s) me None ->
     ps_init t = ps_init s -> ps_nextpid t = ps_nextpid s -> R t) ->
  (forall t, ps_run t me = Some p -> R t) -> post (sched me k) Q R s.
Proof.
  intros Hp HR HR'. unfold sched. apply post_bind. eapply post_curproc; [done|]. post_steps.
  do 4 (destruct (_ : bool); [done|]). apply post_bind, post_upd. unfold switch_to_scheduler.
  apply post_bind, post_env; [|intros x; by apply HR']. intros [] x. post_steps. apply HR; simpl; try done.
  intros j. destruct (decide (j = p)) as [->|]; [by rewrite fupd_eq|by rewrite fupd_ne].
Qed.

Lemma post_sched me k s s0 p e n fk (Q : unit -> pst E -> Prop) :
  ps_run s0 me = Some p -> only s0 s p e n ->
  (forall t : pst E, entry_is (alpha s0 fk) (alpha t fk) p e -> run_is (alpha s0 fk) (alpha t fk) me None ->
     a_init (alpha t fk) = a_init (alpha s0 fk) -> ps_nextpid t = n -> rtc trans (alpha s0 fk) (alpha t fk)) ->
  (p < NPROC)%nat ->
  post (sched me k) Q (away me s0 fk) s.
Proof.
  intros Hp [H1 H2 H3 H4 H5] HR Hpn. apply (post_sched_gen _ _ _ p); [congruence| |].
  - intros t Ht Hr Hi Hn _. apply HR; simpl; [| |congruence|congruence].
    + split; simpl; [by rewrite ents_lt, Ht|]. intros j Hj. apply ents_ext. by rewrite Ht, H1.
    + split; simpl; rewrite Hr; [apply fupd_eq|]. intros d Hd. rewrite fupd_ne by done. congruence.
  - intros t Ht Hn. congruence.
Qed.

Lemma running_used s fk me p : pinv (alpha s fk) -> ps_run s me = Some p ->
  (p < NPROC)%nat /\ p_state (ps_proc s p) = RUNNING /\ a_ent (alpha s fk) p = ent_of (ps_proc s p).
Proof.
  intros Hinv Hp. pose proof (i_run _ (p_cpu _ Hinv) me p Hp) as Hr. simpl in Hr.
  destruct (ents_used (ps_proc s) p) as [Hpn He]; [by rewrite Hr|]. by rewrite He in Hr.
Qed.

Lemma yield_refines me s p fk :
  pinv (alpha s fk) -> ps_run s me = Some p ->
  post (yield me) (fun _ s' => rtc trans (alpha s fk) (alpha s' fk)) (away me s fk) s.
Proof.
  intros Hinv Hp. destruct (running_used _ _ _ _ Hinv Hp) as (Hpn & _ & He).
  unfold yield. pose proof (only_refl s p) as H. keep. apply post_bind.
  eapply (post_curproc _ _ _ _ p); [by erewrite o_run|]. keep.
  eapply post_sched; [done|done| |done]. intros t1 Ht1 Hr Hi Hn. apply rtc_once. split; [done|].
  apply (c_yield _ _ me p); [done|by rewrite He|done|done|done].
Qed.

Lemma sleep_refines me s p fk x (lk_release : M E unit) :
  pinv (alpha s fk) -> ps_run s me = Some p ->
  post (sleep me (ChAddr x) true lk_release) (fun _ s' => rtc trans (alpha s fk) (alpha s' fk)) (away me s fk) s.
Proof.
  intros Hinv Hp. destruct (running_used _ _ _ _ Hinv Hp) as (Hpn & _ & He).
  unfold sleep, myproc. post_steps. rewrite Hp. pose proof (only_refl s p) as H.
  keep. keep. apply post_pt_popcli. intros c. apply (only_cpu me _ _ _ _ _ c) in H.
  do 2 keep. eapply post_sched; [done|done| |done].
  intros u Hu Hr Hi Hn. apply rtc_once. split; [done|].
  apply (c_sleep _ _ me p x); [done|by rewrite He|done|done|done].
Qed.

Lemma wait_loop_refines me s p fk :
  pinv (alpha s fk) -> ps_run s me = Some p ->
  post (wait_loop me p) (fun _ s' => rtc trans (alpha s fk) (alpha s' fk)) (away me s fk) s.
Proof.
  intros Hinv Hp. destruct (running_used _ _ _ _ Hinv Hp) as (Hpn & _ & He).
  unfold wait_loop. post_steps. destruct (scan_table (is_zombie_child p) 0 s) as [i|] eqn:Hz.
  - apply scan_table_Some in Hz as ([_ Hi] & Hz & _).
    apply andb_prop in Hz as [Hc%bool_decide_eq_true Hz%is_state_true].
    assert (Hei : a_ent (alpha s fk) i = ent_of (ps_proc s i)) by by apply ents_lt.
    pose proof (only_refl s i) as H. do 9 keep. post_steps. apply rtc_once. split; [by eapply only_init|].
    apply (c_reap _ _ me p i); [done|by rewrite Hei|by rewrite Hei| |by eapply only_same_run| |done].
    + rewrite Hei. by eapply (only_entry_is _ _ _ _ _ _ _ H).
    + simpl. by erewrite o_next.
  - assert (Hnz : forall i, en_parent (a_ent (alpha s fk) i) = Some p -> en_state (a_ent (alpha s fk) i) <> ZOMBIE).
    { intros i. simpl. destruct (Nat.lt_ge_cases i NPROC) as [Hi|Hi]; [|by rewrite ents_ge].
      rewrite ents_lt by done. simpl. intros Hpar Hzi.
      pose proof (scan_table_None _ _ _ Hz i ltac:(lia)) as Hf.
      unfold is_zombie_child, is_child, is_state in Hf.
      by rewrite Hpar, Hzi, !bool_decide_true in Hf. }
    pose proof (only_refl s p) as H. destruct (_ || _).
    + keep. post_steps. apply rtc_once. by eapply only_none.
    + apply post_bind. unfold sleep, myproc. post_steps. rewrite Hp. post_steps. do 2 keep.
      eapply post_sched; [done|done| |done]. intros u Hu Hr Hi Hn. apply rtc_once. split; [done|].
      apply (c_wait _ _ me p); [done|done|by rewrite He|done|done|done].
Qed.

(** Steps that leave no trace in the abstract state may come first. *)
Lemma alpha_away me s s1 fk s' :
  alpha s1 fk = alpha s fk -> away me s1 fk s' -> away me s fk s'.
Proof. unfold away. by intros ->. Qed.

Lemma wait_refines me s p fk :
  pinv (alpha s fk) -> ps_run s me = Some p ->
  post (wait me) (fun _ s' => rtc trans (alpha s fk) (alpha s' fk)) (away me s fk) s.
Proof.
  intros Hinv Hp. unfold wait. apply post_bind. eapply post_curproc; [done|].
  apply post_bind, post_pt_acquire.
  - intros c l. by apply (wait_loop_refines me (s_lock l (s_cpu me c s)) p fk).
  - intros c Hc. simpl in Hc. congruence.
Qed.

Lemma kill_refines me s fk pid :
  post (kill me pid) (fun _ s' => trans (alpha s fk) (alpha s' fk)) (away me s fk) s.
Proof.
  assert (Hsame : forall c, away me s fk (s_cpu me c s)).
  { intros c _. apply rtc_once. by apply (only_none _ _ 0 (ps_nextpid s)). }
  unfold kill. apply post_bind, post_pt_acquire; [|done]. intros c l. post_steps.
  destruct (scan_table _ _ _) as [i|] eqn:Hs.
  - apply scan_table_Some in Hs as ([_ Hi] & _ & _).
    assert (H : only s (s_lock l (s_cpu me c s)) i (ent_of (ps_proc s i)) (ps_nextpid s)) by done.
    keep. apply post_bind.
    assert (Hk : forall t, only s t i (kill_ent (ent_of (ps_proc s i))) (ps_nextpid s) ->
              post (pt_release me ;;; ret 0) (fun _ s' => trans (alpha s fk) (alpha s' fk)) (away me s fk) t).
    { clear -Hi. intros t H. keep. post_steps. split; [by eapply only_init|].
      apply (c_kill _ _ i); [|by eapply only_same_run|simpl; by erewrite o_next|done].
      simpl. rewrite ents_lt by done. by eapply only_entry_is. }
    unfold is_state. simpl. unfold kill_ent in Hk. simpl in Hk. case_bool_decide.
    + keep. apply (Hk _ H).
    + apply post_ret, (Hk _ H).
  - assert (H : only s (s_lock l (s_cpu me c s)) 0 (ent_of (ps_proc s 0)) (ps_nextpid s)) by done.
    keep. post_steps. by eapply only_none.
Qed.

Lemma ents_wakeup c t i : ents (wakeup1_table c t) i = wake_ent c (ents t i).
Proof.
  unfold ents, wakeup1_table. destruct (i <? NPROC)%nat eqn:Hi; [|done].
  unfold wake_entry, wake_ent. simpl. by destruct (_ && _).
Qed.

Lemma wakeup_refines me s fk x :
  post (wakeup me x) (fun _ s' => trans (alpha s fk) (alpha s' fk)) (away me s fk) s.
Proof.
  unfold wakeup, wakeup1. apply post_bind, post_pt_acquire.
  - intros c l. post_steps. apply post_pt_release. intros c' l'. split; [done|].
    apply (c_wakeup _ _ x); [|done..]. intros i. apply ents_wakeup.
  - intros c _. apply rtc_once. by apply (only_none _ _ 0 (ps_nextpid s)).
Qed.

(** *** exit *)

Lemma post_close_files s i e n c k m (Q : unit -> pst E -> Prop) (R : pst E -> Prop) s' :
  only s s' i e n -> c = i -> (forall t, only s t i e n -> Q tt t) -> (forall t, only s t i e n -> R t) ->
  post (close_files c k m) Q R s'.
Proof.
  intros H -> HQ HR. revert s' k H. induction m as [|m IH]; intros s' k H; simpl.
  - post_steps. auto.
  - post_steps. destruct (_ =? 0).
    + post_steps. auto.
    + apply post_bind. eapply (keep_env s i e n); [done| |auto]. intros g t Ht.
      eapply (keep_upd s i e n (fun x => x)); [done|by intros|]. auto.
Qed.

Section reparent.
Context (c init : nat) (t : nat -> proc) (Hci : c <> init).

Definition zombie_among (l : list nat) : bool :=
  existsb (fun k => bool_decide (p_parent (t k) = Some c) && bool_decide (p_state (t k) = ZOMBIE)) l.

Definition adopted (z : bool) (l : list nat) (j : nat) : ent :=
  let e := if z then wake_ent (ChProc init) (ents t j) else ents t j in
  if bool_decide (j ∈ l) && bool_decide (en_parent e = Some c) then set_parent (Some init) e else e.

Lemma wake_ent_twice x e : wake_ent x (wake_ent x e) = wake_ent x e.
Proof.
  unfold wake_ent at 2 3. destruct (_ && _) eqn:He; [done|].
  unfold wake_ent. by rewrite He.
Qed.

Lemma wake_set_parent x y e : wake_ent x (set_parent y e) = set_parent y (wake_ent x e).
Proof. unfold wake_ent. simpl. by destruct (_ && _). Qed.

Lemma adopted_wake z l j : wake_ent (ChProc init) (adopted z l j) = adopted true l j.
Proof.
  unfold adopted. set (w := wake_ent (ChProc init)).
  assert (Hp : forall e, en_parent (w e) = en_parent e) by (intros; apply wake_ent_rest).
  destruct z.
  - destruct (_ && _); unfold w; rewrite ?wake_set_parent, wake_ent_twice; done.
  - rewrite Hp. destruct (_ && _); unfold w; rewrite ?wake_set_parent; done.
Qed.

Lemma adopted_snoc z l i j : i ∉ l ->
  adopted z (l ++ [i]) j =
  (if bool_decide (j = i) && bool_decide (en_parent (ents t i) = Some c)
   then set_parent (Some init) (adopted z l j) else adopted z l j).
Proof.
  intros Hi. unfold adopted. set (e := if z then _ else _).
  assert (Hp : en_parent e = en_parent (ents t j)).
  { unfold e. destruct z; [|done]. apply wake_ent_rest. }
  rewrite Hp. destruct (decide (j = i)) as [->|Hne].
  - rewrite (bool_decide_false (i ∈ l)), (bool_decide_true (i = i)), (bool_decide_true (i ∈ l ++ [i]))
      by set_solver. by destruct (bool_decide _).
  - rewrite (bool_decide_false (j = i)) by done.
    by rewrite (bool_decide_ext (j ∈ l ++ [i]) (j ∈ l)) by set_solver.
Qed.

Lemma reparent_prefix l :
  (forall k, k ∈ l -> (k < NPROC)%nat) -> NoDup l ->
  forall j, ents (foldl (reparent_entry c (Some init)) t l) j = adopted (zombie_among l) l j.
Proof.
  induction l as [|i l IH] using rev_ind; intros Hl Hnd j; [done|].
  apply NoDup_app in Hnd as (Hnd & Hni & _).
  assert (Hil : i ∉ l) by (intros H; apply (Hni i H); set_solver).
  assert (Hin : (i < NPROC)%nat) by (apply Hl; set_solver).
  specialize (IH ltac:(set_solver) Hnd). rewrite foldl_app. simpl.
  set (t1 := foldl _ _ _) in *. clearbody t1.
  unfold zombie_among. rewrite existsb_app. fold (zombie_among l). simpl. rewrite orb_false_r.
  pose proof (IH i) as Hi. unfold adopted in Hi. rewrite (bool_decide_false (i ∈ l)) in Hi by done.
  rewrite !ents_lt in Hi by done. simpl in Hi.
  assert (Hpar : p_parent (t1 i) = p_parent (t i)).
  { change (en_parent (ent_of (t1 i)) = p_parent (t i)). rewrite Hi. destruct (zombie_among l); [|done].
    apply (wake_ent_rest _ (ent_of (t i))). }
  assert (Hst : p_state (t1 i) = ZOMBIE <-> p_state (t i) = ZOMBIE).
  { change (en_state (ent_of (t1 i)) = ZOMBIE <-> p_state (t i) = ZOMBIE). rewrite Hi.
    destruct (zombie_among l); [|done]. apply calm_iff; [|done..]. apply (wake_ent_calm _ (ent_of (t i))). }
  unfold reparent_entry. rewrite Hpar, adopted_snoc, (ents_lt t i) by done. simpl.
  destruct (decide (p_parent (t i) = Some c)) as [Hc|Hc].
  2:{ rewrite !(bool_decide_false (p_parent (t i) = Some c)), andb_false_r, orb_false_r by done. apply IH. }
  rewrite !(bool_decide_true (p_parent (t i) = Some c)), andb_true_r by done. simpl.
  set (t2 := fupd t1 i _).
  assert (H2 : forall z j, (forall j, ents t1 j = adopted z l j) ->
            ents t2 j = if bool_decide (j = i) then set_parent (Some init) (adopted z l j) else adopted z l j).
  { clear j. intros z j Hz. rewrite <-Hz. unfold t2. destruct (decide (j = i)) as [->|Hne].
    - rewrite bool_decide_true by done. rewrite !ents_lt by done. by rewrite fupd_eq.
    - rewrite bool_decide_false by done. apply ents_ext. by rewrite fupd_ne. }
  assert (Hs2 : p_state (t2 i) = p_state (t1 i)) by (unfold t2; by rewrite fupd_eq).
  destruct (decide (p_state (t i) = ZOMBIE)) as [Hz|Hz].
  - rewrite (bool_decide_true (p_state (t2 i) = _)), (bool_decide_true (p_state (t i) = _)), orb_true_r
      by (rewrite ?Hs2; tauto).
    rewrite ents_wakeup, (H2 _ _ IH). case_bool_decide; rewrite ?wake_set_parent, adopted_wake; done.
  - rewrite (bool_decide_false (p_state (t2 i) = _)), (bool_decide_false (p_state (t i) = _)), orb_false_r
      by (rewrite ?Hs2; tauto). by apply H2.
Qed.

Lemma reparent_table_ents j :
  ents (reparent_table c (Some init) t) j =
  (let e := if zombie_among (seq 0 NPROC) then wake_ent (ChProc init) (ents t j) else ents t j in
   if bool_decide (en_parent e = Some c) then set_parent (Some init) e else e).
Proof.
  unfold reparent_table. rewrite reparent_prefix.
  - unfold adopted. destruct (Nat.lt_ge_cases j NPROC) as [Hj|Hj].
    + by rewrite (bool_decide_true (j ∈ _)) by (apply elem_of_seq; lia).
    + rewrite !ents_ge by done. by destruct (zombie_among _), (bool_decide (j ∈ _)).
  - intros k Hk%elem_of_seq. lia.
  - apply NoDup_seq.
Qed.
End reparent.

Lemma zombie_among_true c t :
  zombie_among c t (seq 0 NPROC) = true <->
  exists k, en_parent (ents t k) = Some c /\ en_state (ents t k) = ZOMBIE.
Proof.
  unfold zombie_among. rewrite existsb_exists. split.
  - intros (k & Hk & Hb). apply list_elem_of_In, elem_of_seq in Hk. exists k. rewrite ents_lt by lia.
    apply andb_prop in Hb as [?%bool_decide_eq_true ?%bool_decide_eq_true]. done.
  - intros (k & Hp & Hz). destruct (ents_used t k) as [Hk Hek]; [by rewrite Hz|]. rewrite Hek in Hp, Hz.
    exists k. split; [apply list_elem_of_In, elem_of_seq; lia|]. by rewrite !bool_decide_true.
Qed.

Lemma exit_refines me s p fk i0 :
  pinv (alpha s fk) -> ps_run s me = Some p -> fk p = None -> ps_init s = Some i0 ->
  post (exit me) (fun _ s' => False) (away me s fk) s.
Proof.
  intros Hinv Hp Hfk Hi0. destruct (running_used _ _ _ _ Hinv Hp) as (Hpn & Hst & He).
  unfold exit. apply post_bind. eapply post_curproc; [done|]. post_steps. rewrite Hi0.
  destruct (decide (i0 = p)) as [->|Hne]; [by rewrite bool_decide_true|].
  rewrite bool_decide_false by congruence. apply post_bind. pose proof (only_refl s p) as H.
  eapply post_close_files; [done|done| |by intros; eapply only_away]. clear H. intros t H.
  do 5 keep. post_steps. unfold wakeup1. post_steps. destruct H as [H1 H2 H3 H4 H5].
  assert (Hents : forall j, ents (ps_proc t4) j = ents (ps_proc s) j).
  { intros j. apply ents_ext. destruct (decide (j = p)) as [->|]; [done|by rewrite H1]. }
  apply post_upd, post_bind. apply (post_sched_gen _ _ _ p); simpl; [congruence| |by intros u Hu Hn; congruence].
  intros u Hu Hr Hin Hnx _. apply rtc_once. split; [simpl; congruence|]. rewrite H4, Hi0 in *.
  set (t5 := wakeup1_table _ _) in *.
  assert (Hpc : parent_chan (ps_proc t4 p) = chan_of (en_parent (ents (ps_proc s) p))).
  { rewrite <-Hents, ents_lt by done. done. }
  assert (Hfinal : forall j, ents (reparent_table p (Some i0) t5) j =
            exit_ent p i0 (chan_of (en_parent (ents (ps_proc s) p))) (zombie_among p t5 (seq 0 NPROC)) (ents (ps_proc s) j)).
  { intros j. rewrite reparent_table_ents by done. unfold exit_ent, t5. by rewrite !ents_wakeup, Hents, Hpc. }
  assert (Hz : zombie_among p t5 (seq 0 NPROC) = true <->
            exists k, en_parent (ents (ps_proc s) k) = Some p /\ en_state (ents (ps_proc s) k) = ZOMBIE).
  { rewrite zombie_among_true. f_equiv. intros k. unfold t5. rewrite ents_wakeup, Hents.
    destruct (wake_ent_rest (parent_chan (ps_proc t4 p)) (ents (ps_proc s) k)) as (_ & -> & _).
    by rewrite (calm_iff _ _ ZOMBIE (wake_ent_calm _ _)). }
  revert Hfinal Hz Hu. generalize (zombie_among p t5 (seq 0 NPROC)) as z.
  generalize (reparent_table p (Some i0) t5) as t6. intros t6 z Hfinal Hz Hu.
  assert (Hu' : forall j, ents (ps_proc u) j = if decide (j = p) then
             set_state ZOMBIE (ents t6 j) else ents t6 j).
  { intros j. unfold ents. destruct (j <? NPROC)%nat eqn:Hj.
    - rewrite Hu. destruct (decide (j = p)) as [->|]; [by rewrite fupd_eq|by rewrite fupd_ne].
    - apply Nat.ltb_ge in Hj. case_decide; [lia|done]. }
  apply (c_exit _ _ me p z); cbn [alpha a_ent a_run a_init a_next a_fork]; rewrite ?Hi0;
    [done|done|done|done| | |congruence|done].
  - split; [|intros j Hj]; rewrite Hu', Hfinal; [by rewrite decide_True|by rewrite decide_False].
  - split; simpl; rewrite Hr; [apply fupd_eq|]. intros d Hd. rewrite fupd_ne by done. congruence.
Qed.

(** *** The scheduler *)

Lemma resume_refines me s p k fk lk :
  pinv (alpha s fk) -> ps_run s me = Some p ->
  post (resume me p k lk) (fun _ s' => rtc trans (alpha s fk) (alpha s' fk)) (away me s fk) s.
Proof.
  intros Hinv Hp. destruct (running_used _ _ _ _ Hinv Hp) as (Hpn & Hst & He).
  assert (Hsame : forall t, only s t p (ent_of (ps_proc s p)) (ps_nextpid s) -> rtc trans (alpha s fk) (alpha t fk)).
  { intros t Ht. by eapply rtc_once, only_none. }
  pose proof (only_refl s p) as H. unfold resume. destruct k as [|ie|other ie].
  - unfold forkret. keep. apply post_bind, post_get. destruct (ps_first t).
    + apply post_bind, post_modify. assert (H' : only s (s_first false t) p (ent_of (ps_proc s p)) (ps_nextpid s))
        by by destruct H.
      clear H. keep. keep. auto.
    + post_steps. auto.
  - post_steps. apply (only_cpu me _ _ _ _ _ (set_intena ie (ps_cpu s me))) in H. keep. auto.
  - post_steps. apply (only_cpu me _ _ _ _ _ (set_intena ie (ps_cpu s me))) in H. keep.
    assert (Hres : forall t, only s t p (set_chan ChNone (ent_of (ps_proc s p))) (ps_nextpid s) ->
              trans (alpha s fk) (alpha t fk)).
    { clear -He Hp Hpn. intros t H. split; [by eapply only_init|].
      apply (c_resume _ _ me p); [done| |by eapply only_same_run| |done].
      - rewrite He. by eapply only_entry_is.
      - simpl. by erewrite o_next. }
    destruct other.
    + keep. apply post_bind, post_modify.
      match goal with H : only _ ?t _ _ _ |- _ => apply (only_cpu me _ _ _ _ _ (pushcli (ps_cpu t me))) in H end.
      keep. by apply rtc_once, Hres.
    + pose proof (Hres t H) as Ht. apply post_bind.
      eapply post_mono; [apply (wait_loop_refines me t p fk)| |].
      * by eapply pinv_trans.
      * destruct H as [_ _ -> _ _]. done.
      * intros r s' Hs'. post_steps. by eapply rtc_l.
      * intros s' Hs' Hn. eapply rtc_l; [done|]. by apply Hs'.
Qed.

Lemma scheduler_next_refines me s fk lk :
  pinv (alpha s fk) -> ps_run s me = None ->
  post (scheduler_next me lk) (fun _ s' => rtc trans (alpha s fk) (alpha s' fk)) (away me s fk) s.
Proof.
  intros Hinv Hr. unfold scheduler_next. apply post_bind, post_get.
  destruct (scan_table _ _ _) as [p|] eqn:Hs.
  - apply scan_table_Some in Hs as ([_ Hp] & Hst%is_state_true & _).
    apply post_bind, post_modify, post_bind, post_modify, post_bind, post_env.
    2:{ intros x Hn. simpl in Hn. by rewrite fupd_eq in Hn. }
    intros [] x. apply post_bind, post_upd. simpl. set (s1 := s_proc _ _).
    assert (Ht : trans (alpha s fk) (alpha s1 fk)).
    { split; [done|]. assert (He : a_ent (alpha s fk) p = ent_of (ps_proc s p)) by by apply ents_lt.
      apply (c_run _ _ me p); [done|by rewrite He| | |done|done].
      - rewrite He. split; simpl; [by rewrite ents_lt, fupd_eq|]. intros j Hj. apply ents_ext. by rewrite fupd_ne.
      - split; simpl; [apply fupd_eq|]. intros d Hd. by apply fupd_ne. }
    apply post_bind. eapply post_mono; [apply (resume_refines me s1 p _ fk)| |].
    + by eapply pinv_trans.
    + simpl. apply fupd_eq.
    + intros r s' Hs'. post_steps. by eapply rtc_l.
    + intros s' Hs' Hn. eapply rtc_l; [done|]. by apply Hs'.
  - apply post_bind, post_modify, post_bind, post_pt_release. intros c l. post_steps. apply rtc_once.
    by apply (only_none _ _ 0 (ps_nextpid s)).
Qed.

Lemma growproc_refines me s p fk n :
  ps_run s me = Some p ->
  post (growproc me n) (fun _ s' => trans (alpha s fk) (alpha s' fk)) (away me s fk) s.
Proof.
  intros Hp. unfold growproc. apply post_bind. eapply post_curproc; [done|]. post_steps.
  pose proof (only_refl s p) as H.
  assert (Hgrown : forall (sz : Z) t, only s t p (ent_of (ps_proc s p)) (ps_nextpid s) ->
    post (upd p (p_set_mem (p_pgdir (ps_proc s p)) sz) ;;;
          env (e_switchuvm (p_pgdir (ps_proc s p)) (p_kstack (ps_proc s p))) ;;; ret 0)
      (fun _ s' => trans (alpha s fk) (alpha s' fk)) (away me s fk) t).
  { clear H. intros sz t H. do 2 keep. post_steps. by eapply only_none. }
  destruct (0 <? n); [|destruct (n <? 0); [|by apply Hgrown]].
  - keep. destruct (a =? 0); [post_steps; by eapply only_none|]. by apply Hgrown.
  - keep. destruct (a =? 0); [post_steps; by eapply only_none|]. by apply Hgrown.
Qed.

Lemma scheduler_pass_refines me s fk :
  post (scheduler_pass me) (fun _ s' => trans (alpha s fk) (alpha s' fk)) (away me s fk) s.
Proof.
  unfold scheduler_pass. apply post_bind, post_modify, post_bind, post_pt_acquire.
  - intros c l. post_steps. by apply (only_none _ _ 0 (ps_nextpid s)).
  - intros c _. apply rtc_once. by apply (only_none _ _ 0 (ps_nextpid s)).
Qed.

(** ** The kernel's runs *)

(** How a routine run on CPU [me] ends: it returns, or its process has left the CPU. *)
Definition ends {A} (me : nat) (m : M (pst E) A) s s' : Prop :=
  (exists r, m s = Ok r s') \/ (m s = Blocked s' /\ ps_run s' me = None).

Definition cfg : Type := pst E * (nat -> option nat).

Inductive event : Type := EvSched (me : nat) | EvPass (me : nat) | EvCall.

(** One call into proc.c by some CPU; the second component of the state says which
    processes are between [allocproc] and the end of [fork].  nextpid is an [int]:
    the runs are those that create fewer than 2^31 processes. *)
Inductive kstep : event -> cfg -> cfg -> Prop :=
| k_alloc me p s fk r s' :
    ps_run s me = Some p -> fk p = None -> 0 < ps_nextpid s < 2147483647 ->
    allocproc me s = Ok r s' ->
    kstep EvCall (s, fk) (s', match r with Some i => fupd fk p (Some i) | None => fk end)
| k_fork_rest me p i s fk r s' :
    ps_run s me = Some p -> fk p = Some i -> fork_rest me i s = Ok r s' ->
    kstep EvCall (s, fk) (s', fupd fk p None)
| k_exit me p s fk s' :
    ps_run s me = Some p -> fk p = None -> ends me (exit me) s s' -> kstep EvCall (s, fk) (s', fk)
| k_wait me p s fk s' :
    ps_run s me = Some p -> ends me (wait me) s s' -> kstep EvCall (s, fk) (s', fk)
| k_sleep me p x lk_release s fk s' :
    ps_run s me = Some p -> ends me (sleep me (ChAddr x) true lk_release) s s' ->
    kstep EvCall (s, fk) (s', fk)
| k_yield me p s fk s' :
    ps_run s me = Some p -> ends me (yield me) s s' -> kstep EvCall (s, fk) (s', fk)
| k_growproc me p n s fk s' :
    ps_run s me = Some p -> ends me (growproc me n) s s' -> kstep EvCall (s, fk) (s', fk)
| k_wakeup me x s fk s' : ends me (wakeup me x) s s' -> kstep EvCall (s, fk) (s', fk)
| k_kill me pid s fk s' : ends me (kill me pid) s s' -> kstep EvCall (s, fk) (s', fk)
| k_sched me lk_acquire s fk s' :
    ps_run s me = None -> ends me (scheduler_next me lk_acquire) s s' ->
    kstep (EvSched me) (s, fk) (s', fk)
| k_pass me s fk s' :
    ps_run s me = None -> ps_pos s me = NPROC -> ends me (scheduler_pass me) s s' ->
    kstep (EvPass me) (s, fk) (s', fk).

Lemma ends_post {A} me (m : M (pst E) A) s s' (Q : pst E -> Prop) fk :
  ends me m s s' -> post m (fun _ t => Q t) (away me s fk) s ->
  (rtc trans (alpha s fk) (alpha s' fk) -> Q s') -> Q s'.
Proof.
  intros [[r H]|[H Hn]] Hp HQ.
  - by apply (post_Ok _ _ _ _ _ _ Hp H).
  - apply HQ. by apply (post_Blocked _ _ _ _ _ Hp H).
Qed.

Lemma kstep_trans ev s fk s' fk' :
  pinv (alpha s fk) -> is_Some (ps_init s) -> kstep ev (s, fk) (s', fk') ->
  rtc trans (alpha s fk) (alpha s' fk').
Proof.
  intros Hinv [i0 Hi0] Hk.
  assert (Hone : forall A me (m : M (pst E) A) u,
            post m (fun _ t => trans (alpha s fk) (alpha t fk)) (away me s fk) s ->
            ends me m s u -> rtc trans (alpha s fk) (alpha u fk)).
  { intros A me m u Hp Hu. eapply (ends_post me m s u (fun t => rtc trans (alpha s fk) (alpha t fk)) fk);
      [done| |done]. eapply post_mono; [done| |done]. intros a t Ht. by apply rtc_once. }
  assert (Hmany : forall A me (m : M (pst E) A) u,
            post m (fun _ t => rtc trans (alpha s fk) (alpha t fk)) (away me s fk) s ->
            ends me m s u -> rtc trans (alpha s fk) (alpha u fk)).
  { intros A me m u Hp Hu. by eapply (ends_post me m s u (fun t => rtc trans (alpha s fk) (alpha t fk)) fk). }
  inversion Hk as [me p ? ? r ? Hp Hf Hn Ho|me p i ? ? r ? Hp Hf Ho|me p ? ? ? Hp Hf Ho|me p ? ? ? Hp Ho|
    me p x lk ? ? ? Hp Ho|me p ? ? ? Hp Ho|me p n ? ? ? Hp Ho|me x ? ? ? Ho|me pid ? ? ? Ho|
    me lk ? ? ? Hr Ho|me ? ? ? Hr Hpos Ho]; subst.
  - apply rtc_once. pose proof (post_Ok _ _ _ _ _ _ (allocproc_refines me _ p _ Hp Hf Hn) Ho) as H.
    by destruct r.
  - apply rtc_once. by apply (post_Ok _ _ _ _ _ _ (fork_rest_refines me _ p i _ Hinv Hp Hf) Ho).
  - eapply Hmany; [|done]. eapply post_mono; [by eapply (exit_refines me _ p _ i0)|done|done].
  - eapply Hmany; [|done]. by eapply wait_refines.
  - eapply Hmany; [|done]. by eapply sleep_refines.
  - eapply Hmany; [|done]. by eapply yield_refines.
  - eapply Hone; [|done]. by eapply growproc_refines.
  - eapply Hone; [|done]. by eapply wakeup_refines.
  - eapply Hone; [|done]. by eapply kill_refines.
  - eapply Hmany; [|done]. by eapply scheduler_next_refines.
  - eapply Hone; [|done]. by eapply scheduler_pass_refines.
Qed.

(** *** What no routine but [scheduler] changes *)

Section stable.
Context {X : Type} (f : pst E -> X).

(** [f] reads a part of the state that only [userinit] or the scheduler loop writes. *)
Record private : Prop := mk_private {
  v_lock l s : f (s_lock l s) = f s;
  v_cpu c x s : f (s_cpu c x s) = f s;
  v_proc x s : f (s_proc x s) = f s;
  v_run c x s : f (s_run c x s) = f s;
  v_env x s : f (s_env x s) = f s;
  v_first x s : f (s_first x s) = f s;
  v_nextpid x s : f (s_nextpid x s) = f s
}.
Context (Hf : private).

Definition stable {A} (m : M (pst E) A) : Prop := forall s,
  post m (fun _ s' => f s' = f s) (fun s' => f s' = f s) s.

Lemma stable_bind {A B} (m : M (pst E) A) (k : A -> M (pst E) B) :
  stable m -> (forall a, stable (k a)) -> stable (bind m k).
Proof.
  intros Hm Hk s. apply post_bind. eapply post_mono; [apply Hm| |done].
  intros a s1 <-. apply Hk.
Qed.
Lemma stable_ret {A} (a : A) : stable (ret a).
Proof. done. Qed.
Lemma stable_get : stable get.
Proof. done. Qed.
Lemma stable_gets {A} (g : pst E -> A) : stable (gets g).
Proof. done. Qed.
Lemma stable_panic {A} msg : stable (panic msg : M (pst E) A).
Proof. done. Qed.
Lemma stable_waits {A} : stable (waits : M (pst E) A).
Proof. done. Qed.
Lemma stable_modify g : (forall s, f (g s) = f s) -> stable (modify g).
Proof. intros H s. apply H. Qed.
Lemma stable_env {A} (m : M E A) : stable (env m).
Proof. intros s. apply post_env; intros; apply (v_env Hf). Qed.
Lemma stable_upd i g : stable (upd i g).
Proof. intros s. apply (v_proc Hf). Qed.
Lemma stable_acquire me : stable (pt_acquire me).
Proof. intros s. apply post_pt_acquire; intros; by rewrite ?(v_lock Hf), (v_cpu Hf). Qed.
Lemma stable_popcli me : stable (pt_popcli me).
Proof. intros s. apply post_pt_popcli; intros. apply (v_cpu Hf). Qed.
Lemma stable_release me : stable (pt_release me).
Proof. intros s. apply post_pt_release; intros. by rewrite (v_cpu Hf), (v_lock Hf). Qed.

Create HintDb stable.
Hint Resolve stable_ret stable_get stable_gets stable_panic stable_waits stable_env stable_upd
  stable_acquire stable_popcli stable_release : stable.

Ltac stab :=
  repeat match goal with
  | |- stable (bind _ _) => apply stable_bind; [|intros ?]
  | |- stable (if ?b then _ else _) => destruct b
  | |- stable (match ?x with _ => _ end) => destruct x
  | |- stable (modify _) => apply stable_modify; intros ?
  | |- stable (undefined _) => apply stable_panic
  end;
  try (by auto with stable); try (by intros; apply Hf).

Lemma stable_curproc me : stable (curproc me).
Proof. unfold curproc, myproc. stab. Qed.
Lemma stable_sched me k : stable (sched me k).
Proof. unfold sched, switch_to_scheduler. stab; auto using stable_curproc. Qed.
Hint Resolve stable_curproc stable_sched : stable.

Lemma stable_allocproc me : stable (allocproc me).
Proof. unfold allocproc. stab. Qed.
Lemma stable_dup_files np i l : stable (dup_files np i l).
Proof. revert i. induction l as [|x l IH]; intros i; simpl; stab. Qed.
Lemma stable_close_files c i n : stable (close_files c i n).
Proof. revert i. induction n as [|n IH]; intros i; simpl; stab. Qed.
Hint Resolve stable_dup_files stable_close_files : stable.
Lemma stable_fork_rest me np : stable (fork_rest me np).
Proof. unfold fork_rest. stab. Qed.
Lemma stable_wakeup me c : stable (wakeup me c).
Proof. unfold wakeup, wakeup1. stab. Qed.
Lemma stable_exit me : stable (exit me).
Proof. unfold exit, wakeup1. stab. Qed.
Lemma stable_sleep me c o lk : stable (sleep me c o lk).
Proof. unfold sleep, myproc. stab. Qed.
Hint Resolve stable_sleep : stable.
Lemma stable_wait_loop me c : stable (wait_loop me c).
Proof. unfold wait_loop. stab. Qed.
Hint Resolve stable_wait_loop : stable.
Lemma stable_wait me : stable (wait me).
Proof. unfold wait. stab. Qed.
Lemma stable_yield me : stable (yield me).
Proof. unfold yield. stab. Qed.
Lemma stable_growproc me n : stable (growproc me n).
Proof. unfold growproc. stab. Qed.
Lemma stable_kill me pid : stable (kill me pid).
Proof. unfold kill. stab. Qed.
Lemma stable_resume me p k lk : stable (resume me p k lk).
Proof. unfold resume, forkret. stab. Qed.

Lemma stable_ends {A} me (m : M (pst E) A) s s' : stable m -> ends me m s s' -> f s' = f s.
Proof.
  intros Hm [[r H]|[H _]]; [apply (post_Ok _ _ _ _ _ _ (Hm s) H)|apply (post_Blocked _ _ _ _ _ (Hm s) H)].
Qed.

Lemma stable_Ok {A} (m : M (pst E) A) s r s' : stable m -> m s = Ok r s' -> f s' = f s.
Proof. intros Hm H. apply (post_Ok _ _ _ _ _ _ (Hm s) H). Qed.
End stable.

(** Every call but the scheduler's own steps keeps such a part. *)
Lemma kstep_call {X} (f : pst E -> X) x y : private f -> kstep EvCall x y -> f y.1 = f x.1.
Proof.
  intros Hf Hk. inversion Hk; subst; simpl.
  - eapply stable_Ok; [by apply stable_allocproc|done].
  - eapply stable_Ok; [by apply stable_fork_rest|done].
  - eapply stable_ends; [by apply stable_exit|done].
  - eapply stable_ends; [by apply stable_wait|done].
  - eapply stable_ends; [by apply stable_sleep|done].
  - eapply stable_ends; [by apply stable_yield|done].
  - eapply stable_ends; [by apply stable_growproc|done].
  - eapply stable_ends; [by apply stable_wakeup|done].
  - eapply stable_ends; [by apply stable_kill|done].
Qed.

Lemma private_init : private (@ps_init E).
Proof. done. Qed.
Lemma private_pos me : private (fun s => ps_pos s me).
Proof. done. Qed.

Lemma scheduler_next_private {X} (f : pst E -> X) me lk s s' :
  private f -> (forall x s, f (s_pos me x s) = f s) -> ends me (scheduler_next me lk) s s' -> f s' = f s.
Proof.
  intros Hf Hpos. eapply stable_ends. unfold scheduler_next. intros t. post_step. post_step. cbn beta.
  destruct (scan_table _ _ _) as [p|].
  - apply post_bind, post_modify, post_bind, post_modify, post_bind, post_env.
    2:{ intros x. by rewrite (v_env _ Hf), (v_run _ Hf), Hpos. }
    intros [] x. apply post_bind, post_upd, post_bind.
    eapply post_mono; [by apply (stable_resume f)| |].
    + intros r u Hu. post_steps. by rewrite Hu, (v_proc _ Hf), (v_env _ Hf), (v_run _ Hf), Hpos.
    + intros u Hu. by rewrite Hu, (v_proc _ Hf), (v_env _ Hf), (v_run _ Hf), Hpos.
  - apply post_bind, post_modify, post_bind. eapply post_mono; [by apply (stable_release f)| |].
    + intros r u Hu. post_steps. by rewrite Hu.
    + intros u Hu. by rewrite Hu.
Qed.

(** After a scheduler step, the loop stands behind the process it switched to. *)
Lemma scheduler_next_pos me lk s s' :
  ends me (scheduler_next me lk) s s' ->
  ps_pos s' me = match scan_table (is_state RUNNABLE) (ps_pos s me) s with Some q => S q | None => NPROC end.
Proof.
  set (n := match _ with Some q => _ | None => _ end). intros Hends.
  assert (H : post (scheduler_next me lk) (fun _ s' => ps_pos s' me = n) (fun s' => ps_pos s' me = n) s).
  { unfold scheduler_next. post_step. post_step. cbn beta. unfold n.
    destruct (scan_table _ _ _) as [q|].
    - apply post_bind, post_modify, post_bind, post_modify, post_bind, post_env;
        [|intros x; simpl; by rewrite fupd_eq].
      intros [] x. apply post_bind, post_upd, post_bind.
      eapply post_mono; [apply (stable_resume _ (private_pos me))| |]; simpl;
        [intros r u Hu; post_steps|intros u Hu]; by rewrite Hu, fupd_eq.
    - apply post_bind, post_modify, post_bind.
      eapply post_mono; [apply (stable_release _ (private_pos me))| |]; simpl;
        [intros r u Hu; post_steps|intros u Hu]; by rewrite Hu, fupd_eq. }
  destruct Hends as [[r Hr]|[Hb _]]; [apply (post_Ok _ _ _ _ _ _ H Hr)|apply (post_Blocked _ _ _ _ _ H Hb)].
Qed.

Lemma scheduler_pass_pos me s s' : ends me (scheduler_pass me) s s' ->
  ps_pos s' me = 0%nat \/ ps_pos s' me = ps_pos s me.
Proof.
  assert (H : post (scheduler_pass me) (fun _ s' => ps_pos s' me = 0%nat) (fun s' => ps_pos s' me = ps_pos s me) s).
  { unfold scheduler_pass. apply post_bind, post_modify, post_bind, post_pt_acquire; [|done].
    intros c l. post_steps. simpl. by rewrite fupd_eq. }
  intros [[r Hr]|[Hb _]]; [left; apply (post_Ok _ _ _ _ _ _ H Hr)|right; apply (post_Blocked _ _ _ _ _ H Hb)].
Qed.

Lemma scheduler_pass_private {X} (f : pst E -> X) me s s' :
  private f -> (forall x s, f (s_pos me x s) = f s) -> ends me (scheduler_pass me) s s' -> f s' = f s.
Proof.
  intros Hf Hpos. apply stable_ends. unfold scheduler_pass. intros t.
  apply post_bind, post_modify, post_bind, post_pt_acquire.
  - intros c l. post_steps. by rewrite Hpos, (v_lock _ Hf), !(v_cpu _ Hf).
  - intros c. by rewrite !(v_cpu _ Hf).
Qed.

Lemma kstep_init ev x y : kstep ev x y -> ps_init y.1 = ps_init x.1.
Proof.
  intros Hk. destruct ev; [..|by apply (kstep_call _ _ _ private_init)]; inversion Hk; subst; simpl.
  - by eapply (scheduler_next_private ps_init).
  - by eapply (scheduler_pass_private ps_init).
Qed.

(** The invariant of the kernel's runs. *)
Definition kinv (x : cfg) : Prop := pinv (alpha x.1 x.2) /\ is_Some (ps_init x.1).

Definition kany (x y : cfg) : Prop := exists ev, kstep ev x y.

Lemma kinv_step x y : kinv x -> kany x y -> kinv y.
Proof.
  intros [Hp Hi] [ev Hk]. split.
  - destruct x as [s fk], y as [s' fk']. pose proof (kstep_trans _ _ _ _ _ Hp Hi Hk) as Ht.
    by apply (invariant_rtc trans pinv pinv_trans _ _ Hp Ht).
  - by rewrite (kstep_init _ _ _ Hk).
Qed.

Lemma kinv_reachable x y : kinv x -> rtc kany x y -> kinv y.
Proof. apply invariant_rtc, kinv_step. Qed.
End routines.
