(* ===== verification/ProcProps.v ===== *)
(** * Properties of processes and scheduling

    The theorems about [src/xv6/proc.c] that the refinement of [ProcRefine] gives,
    for every run of the kernel that starts with [userinit], with runs of a small
    concrete environment as examples. *)

From S2P Require Import Prelude Spinlock Proc ProcSpec ProcRefine.

Definition zero_proc : proc :=
  mk_proc 0 0 0 UNUSED 0 None 0 zero_tf 0 KForkret ChNone false (repeat 0 NOFILE) 0 (repeat 0 16).

(** The zero-initialised globals of proc.c, on CPUs that have interrupts off. *)
Definition boot_pst {E} (e : E) : pst E :=
  mk_pst initlock (fun _ => zero_proc) None 1 (fun _ => mk_cpu 0 0 false false) (fun _ => None)
    (fun _ => NPROC) true e.

Section props.
Context {E : Type} `{!ProcEnv E}.
Implicit Types s : pst E.

Definition no_forks : nat -> option nat := fun _ => None.

(** A state in which [userinit] has just returned. *)
Definition booted (x : @cfg E) : Prop :=
  exists me e code, userinit me code (boot_pst e) = Ok tt x.1 /\ x.2 = no_forks.

Lemma ents_boot e j : ents (ps_proc (boot_pst (E := E) e)) j = blank.
Proof. unfold ents. by destruct (j <? NPROC)%nat. Qed.

(** The table with one RUNNABLE process, init. *)
Definition first_ent : ent := mk_ent RUNNABLE 1 None ChNone false.

Lemma pinv_first s :
  ps_init s = Some 0%nat -> (forall c, ps_run s c = None) -> ps_nextpid s = 2 ->
  (forall j, ents (ps_proc s) j = if decide (j = 0%nat) then first_ent else blank) ->
  pinv (alpha s no_forks).
Proof.
  intros Hi Hr Hn He.
  assert (Hst : forall j, en_state (ents (ps_proc s) j) <> UNUSED ->
            j = 0%nat /\ en_state (ents (ps_proc s) j) = RUNNABLE /\ en_pid (ents (ps_proc s) j) = 1).
  { intros j. rewrite He. case_decide; [done|]. by intros []. }
  assert (Hpar : forall j, en_parent (ents (ps_proc s) j) = None).
  { intros j. rewrite He. by case_decide. }
  split.
  - split; simpl.
    + intros c p. by rewrite Hr.
    + intros c d p. by rewrite Hr.
    + intros p Hp. destruct (Hst p) as (_ & H & _); congruence.
  - split; simpl.
    + intros i H. destruct (Hst i H) as (_ & _ & ->). lia.
    + intros i j H H' _. destruct (Hst i H) as [-> _], (Hst j H') as [-> _]. done.
    + lia.
  - split; simpl; [done|done|]. intros i H. destruct (Hst i) as (_ & H' & _); congruence.
  - split; cbn [alpha a_ent a_init]; rewrite ?Hi.
    + rewrite He, decide_True by done. unfold alive. simpl. auto.
    + apply Hpar.
    + intros i _. apply Hpar.
    + intros i H _ Hne. destruct (Hst i H) as [-> _]. done.
    + intros i q. by rewrite Hpar.
  - intros q r H. destruct (Hst q) as (_ & H' & _); simpl in *; congruence.
Qed.

Lemma boot_scan e c l me :
  scan_table (is_state UNUSED) 0 (s_lock l (s_cpu me c (boot_pst (E := E) e))) = Some 0%nat.
Proof. done. Qed.

Lemma kinv_booted x : booted x -> kinv x.
Proof.
  destruct x as [s' fk]. intros (me & e & code & H & Hfk). simpl in H, Hfk. subst fk.
  assert (Hp : post (userinit me code) (fun _ s' => kinv (s', no_forks)) (fun _ => True) (boot_pst e)).
  { set (s := boot_pst e). unfold userinit, allocproc.
    apply post_bind, post_bind, post_pt_acquire; [|done]. intros c l. apply post_bind, post_get.
    unfold s at 1. rewrite boot_scan.
    assert (H0 : only s (s_lock l (s_cpu me c s)) 0 (ent_of (ps_proc s 0)) 1) by done.
    do 6 keep. destruct (a =? 0); [keep; post_steps; exact I|]. do 2 keep. post_steps.
    match goal with H : only _ ?t _ ?e _ |- _ =>
      assert (H1 : only (s_init (Some 0%nat) s) (s_init (Some 0%nat) t) 0 e 2)
        by (destruct H; split; simpl; done); clear H end.
    keep. destruct (_ =? 0); [exact I|]. do 9 keep.
    match goal with H : only _ _ _ _ _ |- _ => destruct H as [H1 H2 H3 H4 H5] end.
    split; [|simpl; by rewrite H4]. apply pinv_first; [done|by intros d; simpl; rewrite H3|done|]; simpl.
    intros j. case_decide as Hj.
    - subst j. by rewrite ents_lt, H2 by (unfold NPROC; lia).
    - rewrite <-(ents_boot e j). apply ents_ext. by rewrite H1. }
  by apply (post_Ok _ _ _ _ _ _ Hp H).
Qed.

(** ** What holds in every run *)

(** C8: Every call into proc.c, from every state the kernel reaches after [userinit],
    is a sequence of transitions of the abstract process machine: the table scans,
    wakeups and reparenting loops of the code do exactly what [ProcSpec.change] says,
    and nothing else about states, pids, parents, channels, CPUs. *)
Theorem proc_refines_spec (x0 x y : @cfg E) (ev : event) :
  booted x0 -> rtc kany x0 x -> kstep ev x y -> rtc trans (alpha x.1 x.2) (alpha y.1 y.2).
Proof.
  intros H0 Hx Hk. destruct (kinv_reachable x0 x (kinv_booted x0 H0) Hx) as [Hp Hi].
  destruct x, y. by eapply kstep_trans.
Qed.

(** C15: In every reachable state a CPU's current process is RUNNING, no process runs
    on two CPUs, every RUNNING process is on a CPU, and the pids of the used table
    entries are positive and pairwise distinct. *)
Theorem process_cpus_pids (x0 x : @cfg E) :
  booted x0 -> rtc kany x0 x ->
  (forall c p, ps_run x.1 c = Some p -> (p < NPROC)%nat /\ p_state (ps_proc x.1 p) = RUNNING) /\
  (forall c d p, ps_run x.1 c = Some p -> ps_run x.1 d = Some p -> c = d) /\
  (forall p, (p < NPROC)%nat -> p_state (ps_proc x.1 p) = RUNNING -> exists c, ps_run x.1 c = Some p) /\
  (forall i, (i < NPROC)%nat -> p_state (ps_proc x.1 i) <> UNUSED -> 0 < p_pid (ps_proc x.1 i)) /\
  (forall i j, (i < NPROC)%nat -> (j < NPROC)%nat -> p_state (ps_proc x.1 i) <> UNUSED ->
     p_state (ps_proc x.1 j) <> UNUSED -> p_pid (ps_proc x.1 i) = p_pid (ps_proc x.1 j) -> i = j).
Proof.
  intros H0 Hx. destruct (kinv_reachable x0 x (kinv_booted x0 H0) Hx) as [[[C1 C2 C3] [P1 P2 _] _ _ _] _].
  simpl in *. split; [|split; [done|split; [|split]]].
  - intros c p Hc. pose proof (C1 c p Hc) as Hst. destruct (ents_used (ps_proc x.1) p) as [Hp He]; [by rewrite Hst|].
    by rewrite He in Hst.
  - intros p Hp Hst. apply C3. by rewrite ents_lt.
  - intros i Hi Hst. specialize (P1 i). rewrite ents_lt in P1 by done. simpl in P1. by apply P1.
  - intros i j Hi Hj. specialize (P2 i j). by rewrite !ents_lt in P2 by done.
Qed.

(** C16: No exit is lost.  In every reachable state each started process other than
    init has a parent that is alive, so somebody can [wait] for it, also after its
    parent has exited; and a process that sleeps in [wait] has no zombie child. *)
Theorem no_lost_exit (x0 x : @cfg E) (i : nat) :
  booted x0 -> rtc kany x0 x -> (i < NPROC)%nat ->
  (p_state (ps_proc x.1 i) <> UNUSED -> p_state (ps_proc x.1 i) <> EMBRYO -> ps_init x.1 <> Some i ->
   exists q, p_parent (ps_proc x.1 i) = Some q /\ (q < NPROC)%nat /\ q <> i /\
             alive (p_state (ps_proc x.1 q))) /\
  (p_state (ps_proc x.1 i) = ZOMBIE -> forall q, p_parent (ps_proc x.1 i) = Some q ->
   ~ (p_state (ps_proc x.1 q) = SLEEPING /\ p_chan (ps_proc x.1 q) = ChProc q)).
Proof.
  intros H0 Hx Hi. destruct (kinv_reachable x0 x (kinv_booted x0 H0) Hx) as [[_ _ _ [A1 A2 A3 A4 A5] W] [i0 Hi0]].
  simpl in *. rewrite Hi0 in *. simpl in *.
  assert (Hal : forall q, p_parent (ps_proc x.1 i) = Some q -> q <> i /\ (q < NPROC)%nat /\ alive (p_state (ps_proc x.1 q))).
  { intros q Hq. specialize (A5 i q). rewrite ents_lt in A5 by done. destruct (A5 Hq) as [Hne Ha].
    split; [done|]. destruct (ents_used (ps_proc x.1) q) as [Hqn He].
    - intros Hu. rewrite Hu in Ha. by destruct Ha as [?|[?|?]].
    - by rewrite He in Ha. }
  split.
  - intros Hu He Hne. specialize (A4 i). rewrite ents_lt in A4 by done.
    destruct (A4 Hu He ltac:(congruence)) as [q Hq]. exists q. split; [done|]. destruct (Hal q Hq) as (? & ? & ?). done.
  - intros Hz q Hq [Hs Hc]. destruct (Hal q Hq) as (_ & Hqn & _).
    destruct (W q q) as [_ Hnz]; [by simpl; rewrite ents_lt..|]. apply (Hnz i); simpl; by rewrite ents_lt.
Qed.

(** ** Fairness of the scheduler *)

(** [picks me p x n y]: a run from [x] to [y] in which process [p] is RUNNABLE whenever
    the scheduler of CPU [me] looks for a process, and in which that scheduler has
    switched [n] times, never to [p]. *)
Inductive picks (me p : nat) : @cfg E -> nat -> @cfg E -> Prop :=
| picks_nil x : picks me p x 0 x
| picks_sched x y z n q :
    p_state (ps_proc x.1 p) = RUNNABLE -> kstep (EvSched me) x y ->
    scan_table (is_state RUNNABLE) (ps_pos x.1 me) x.1 = Some q -> q <> p ->
    picks me p y n z -> picks me p x (S n) z
| picks_end x y z n :
    p_state (ps_proc x.1 p) = RUNNABLE -> kstep (EvSched me) x y ->
    scan_table (is_state RUNNABLE) (ps_pos x.1 me) x.1 = None ->
    picks me p y n z -> picks me p x n z
| picks_other x y z n ev :
    ev <> EvSched me -> kstep ev x y -> picks me p y n z -> picks me p x n z.

(** How many entries the scheduler loop looks at before it comes to [p]. *)
Definition distance (pos p : nat) : nat :=
  if (pos <=? p)%nat then (p - pos)%nat else (NPROC - pos + 1 + p)%nat.

Lemma distance_cases pos p :
  ((pos <= p /\ distance pos p = p - pos) \/ (p < pos /\ distance pos p = NPROC - pos + 1 + p))%nat.
Proof. unfold distance. destruct (Nat.leb_spec pos p); lia. Qed.

Lemma kstep_pos_other me ev x y :
  ev <> EvSched me -> kstep ev x y ->
  ps_pos y.1 me = ps_pos x.1 me \/ ps_pos x.1 me = NPROC /\ ps_pos y.1 me = 0%nat.
Proof.
  intros Hne Hk. destruct ev as [d|d|].
  - left. inversion Hk; subst; simpl. eapply (scheduler_next_private (fun s => ps_pos s me)); [done| |done].
    intros n u. apply fupd_ne. congruence.
  - destruct (decide (d = me)) as [->|Hd].
    + inversion Hk as [| | | | | | | | | |? ? ? ? _ Hpos He]; subst; simpl.
      destruct (scheduler_pass_pos _ _ _ He); auto.
    + left. inversion Hk; subst; simpl. eapply (scheduler_pass_private (fun s => ps_pos s me)); [done| |done].
      intros n u. apply fupd_ne. congruence.
  - left. by apply (kstep_call _ _ _ (private_pos me)).
Qed.

Lemma picks_distance me p x n y :
  (p < NPROC)%nat -> picks me p x n y -> (ps_pos x.1 me <= NPROC)%nat ->
  (n <= distance (ps_pos x.1 me) p)%nat.
Proof.
  intros Hp H. induction H as [x|x y z n q Hr Hk Hs Hq H IH|x y z n Hr Hk Hs H IH|x y z n ev Hev Hk H IH]; intros Hpos.
  - lia.
  - inversion Hk as [| | | | | | | | |? lk s fk s' _ He|]; subst. simpl in *.
    pose proof (scheduler_next_pos _ _ _ _ He) as Hn. rewrite Hs in Hn. rewrite Hn in IH.
    apply scan_table_Some in Hs as (Hqn & _ & Hbefore). specialize (IH ltac:(lia)).
    assert (~ (ps_pos s me <= p < q)%nat).
    { intros Hpq. specialize (Hbefore p Hpq). unfold is_state in Hbefore.
      by rewrite Hr, bool_decide_true in Hbefore. }
    pose proof (distance_cases (ps_pos s me) p). pose proof (distance_cases (S q) p). lia.
  - inversion Hk as [| | | | | | | | |? lk s fk s' _ He|]; subst. simpl in *.
    pose proof (scheduler_next_pos _ _ _ _ He) as Hn. rewrite Hs in Hn. rewrite Hn in IH. specialize (IH ltac:(lia)).
    assert (~ (ps_pos s me <= p)%nat).
    { intros Hpq. pose proof (scan_table_None _ _ _ Hs p ltac:(lia)) as Hf. unfold is_state in Hf.
      by rewrite Hr, bool_decide_true in Hf. }
    pose proof (distance_cases (ps_pos s me) p). pose proof (distance_cases NPROC p). lia.
  - destruct (kstep_pos_other me ev x y Hev Hk) as [E1|[E1 E2]].
    + rewrite E1 in IH. by apply IH.
    + rewrite E2 in IH. specialize (IH ltac:(lia)). rewrite E1.
      pose proof (distance_cases NPROC p). pose proof (distance_cases 0 p). lia.
Qed.

(** C29: The scheduler starves nobody: while process [p] is RUNNABLE, the scheduler of a
    CPU switches at most NPROC times before it switches to [p], whatever the other
    CPUs and the processes do in between. *)
Theorem scheduler_fair (me p n : nat) (x y : @cfg E) :
  (p < NPROC)%nat -> (ps_pos x.1 me <= NPROC)%nat -> picks me p x n y -> (n <= NPROC)%nat.
Proof.
  intros Hp Hpos H. pose proof (picks_distance me p x n y Hp H Hpos) as Hd.
  pose proof (distance_cases (ps_pos x.1 me) p). lia.
Qed.

(** ** Context switches *)

Lemma pt_acquire_free me s : ps_lock s = initlock ->
  pt_acquire me s = Ok tt (s_lock (mk_spinlock 1 (Some me)) (s_cpu me (pushcli (ps_cpu s me)) s)).
Proof. intros Hl. unfold pt_acquire, bind, modify, acquire. simpl. by rewrite Hl. Qed.

Lemma pt_release_held me s : ps_lock s = mk_spinlock 1 (Some me) -> ncli (ps_cpu s me) = 1 ->
  if_flag (ps_cpu s me) = false ->
  exists c, pt_release me s = Ok tt (s_cpu me c (s_lock initlock s)) /\
    ncli c = 0 /\ if_flag c = intena (ps_cpu s me).
Proof.
  intros Hl Hn Hi. unfold pt_release, bind, release. rewrite Hl. unfold holding. simpl.
  rewrite bool_decide_true by done. simpl. unfold pt_popcli, popcli. simpl. rewrite Hi, Hn. simpl.
  destruct (intena (ps_cpu s me)) eqn:Hie; eexists; split_and!; try reflexivity; simpl; done.
Qed.

(** A process that gives up CPU [me] in [yield] leaves [ptable.lock] held for the
    scheduler with interrupts off, and when a scheduler resumes it, on any CPU [d], it
    goes on without the lock and with interrupts as they were on [me] before. *)
Theorem yield_resume_interrupts (me d p : nat) (s : pst E) (e : E) :
  ps_run s me = Some p -> ps_lock s = initlock -> ncli (ps_cpu s me) = 0 ->
  e_switchkvm (ps_env s) = Ok tt e ->
  exists s', yield me s = Blocked s' /\
    ps_lock s' = mk_spinlock 1 (Some me) /\ ps_run s' me = None /\
    ncli (ps_cpu s' me) = 1 /\ if_flag (ps_cpu s' me) = false /\
    p_state (ps_proc s' p) = RUNNABLE /\
    forall (u : pst E) lk, ps_lock u = mk_spinlock 1 (Some d) -> ncli (ps_cpu u d) = 1 ->
      if_flag (ps_cpu u d) = false ->
      exists u', resume d p (p_kont (ps_proc s' p)) lk u = Ok tt u' /\
        ps_lock u' = initlock /\ ncli (ps_cpu u' d) = 0 /\
        if_flag (ps_cpu u' d) = if_flag (ps_cpu s me) /\ ps_proc u' = ps_proc u.
Proof.
  intros Hp Hl Hn Hsw.
  assert (Hpush : pushcli (ps_cpu s me) =
            mk_cpu (apicid (ps_cpu s me)) 1 (if_flag (ps_cpu s me)) false).
  { unfold pushcli. simpl. rewrite Hn. unfold set_ncli. simpl. by rewrite Hn. }
  eexists. split.
  { unfold yield, bind at 1. rewrite (pt_acquire_free me s Hl), Hpush.
    unfold sched, curproc, myproc, switch_to_scheduler, env, zoom, bind, gets, get, upd, modify, ret, waits, holding.
    simpl. rewrite Hp. simpl. rewrite Hp. simpl.
    rewrite bool_decide_true by done. rewrite !fupd_eq. simpl. rewrite Hsw. reflexivity. }
  simpl. rewrite !fupd_eq. simpl. split_and!; try done. intros u lk Hlu Hnu Hiu.
  unfold bind, modify.
  destruct (pt_release_held d (s_cpu d (set_intena (if_flag (ps_cpu s me)) (ps_cpu u d)) u)) as (c & Hc & H1 & H2);
    simpl; rewrite ?fupd_eq; [done..|].
  exists (s_cpu d c (s_lock initlock (s_cpu d (set_intena (if_flag (ps_cpu s me)) (ps_cpu u d)) u))).
  simpl in *. rewrite !fupd_eq in *. done.
Qed.

(** ** A stale killed flag *)

Lemma pushcli_zero c : ncli c = 0 -> ncli (pushcli c) = 1 /\ if_flag (pushcli c) = false.
Proof. intros H. split; [by rewrite pushcli_ncli, H|apply pushcli_if]. Qed.

Lemma wp_pt_acquire me s (Q : unit -> pst E -> Prop) : ps_lock s = initlock ->
  Q tt (s_lock (mk_spinlock 1 (Some me)) (s_cpu me (pushcli (ps_cpu s me)) s)) -> wp (pt_acquire me) Q s.
Proof. intros Hl HQ. unfold wp. by rewrite pt_acquire_free. Qed.

Lemma wp_pt_release me s (Q : unit -> pst E -> Prop) :
  ps_lock s = mk_spinlock 1 (Some me) -> ncli (ps_cpu s me) = 1 -> if_flag (ps_cpu s me) = false ->
  (forall c, ncli c = 0 -> Q tt (s_cpu me c (s_lock initlock s))) -> wp (pt_release me) Q s.
Proof.
  intros Hl Hn Hi HQ. destruct (pt_release_held me s Hl Hn Hi) as (c & Hc & Hnc & _).
  unfold wp. rewrite Hc. auto.
Qed.

Lemma wp_upd i f (Q : unit -> pst E -> Prop) s :
  Q tt (s_proc (fupd (ps_proc s) i (f (ps_proc s i))) s) -> wp (upd i f) Q s.
Proof. done. Qed.

Lemma scan_table_ext test from (s s' : pst E) :
  (forall j, test (ps_proc s j) = test (ps_proc s' j)) -> scan_table test from s = scan_table test from s'.
Proof.
  intros H. unfold scan_table. generalize (seq from (NPROC - from)) as l.
  induction l as [|j l IH]; simpl; [done|]. by rewrite H, IH.
Qed.

(** [allocproc] from a CPU that holds no lock, with memory for a stack. *)
Lemma wp_allocproc me s i k e :
  ps_lock s = initlock -> ncli (ps_cpu s me) = 0 -> scan_table (is_state UNUSED) 0 s = Some i ->
  e_kalloc (ps_env s) = Ok k e -> k <> 0 ->
  wp (allocproc me) (fun r s' => r = Some i /\ p_killed (ps_proc s' i) = p_killed (ps_proc s i)) s.
Proof.
  intros Hl Hn Hst He Hk. destruct (pushcli_zero _ Hn) as [H1 H2].
  unfold allocproc. apply wp_bind, wp_pt_acquire; [done|]. apply wp_bind, wp_get.
  rewrite (scan_table_ext _ _ _ s), Hst by done.
  apply wp_bind, wp_upd, wp_bind, wp_upd, wp_bind, wp_modify, wp_bind, wp_pt_release;
    [done|simpl; by rewrite fupd_eq..|].
  intros c Hc. apply wp_bind, wp_zoom. unfold wp at 1. simpl. rewrite He.
  apply wp_bind, wp_upd. destruct (Z.eqb_spec k 0); [done|].
  apply wp_bind, wp_upd, wp_bind, wp_upd, wp_ret. split; [done|]. simpl. by rewrite !fupd_eq.
Qed.

(** [kill(0)] finds the first table entry that was never used or was reaped, reports
    success and sets its killed flag; [allocproc] does not clear it, so the next
    process that gets this entry is born killed. *)
Theorem kill_zero_marks_free_entry (me i : nat) (s : pst E) (k : Z) (e : E) :
  ps_lock s = initlock -> ncli (ps_cpu s me) = 0 ->
  scan_table (has_pid 0) 0 s = Some i -> scan_table (is_state UNUSED) 0 s = Some i ->
  e_kalloc (ps_env s) = Ok k e -> k <> 0 ->
  exists s1 s2, kill me 0 s = Ok 0 s1 /\ allocproc me s1 = Ok (Some i) s2 /\
    p_killed (ps_proc s2 i) = true.
Proof.
  intros Hl Hn Hpid Hst He Hk. destruct (pushcli_zero _ Hn) as [H1 H2].
  destruct (scan_table_Some _ _ _ _ Hst) as (_ & Hun%is_state_true & _).
  assert (Hkill : wp (kill me 0) (fun r s1 => r = 0 /\
            wp (allocproc me) (fun r s2 => r = Some i /\ p_killed (ps_proc s2 i) = true) s1) s).
  { unfold kill. apply wp_bind, wp_pt_acquire; [done|]. apply wp_bind, wp_get.
    rewrite (scan_table_ext _ _ _ s), Hpid by done.
    apply wp_bind, wp_upd, wp_bind. unfold is_state at 1. simpl. rewrite Hun. apply wp_ret.
    apply wp_bind, wp_pt_release; [done|simpl; by rewrite fupd_eq..|]. intros c Hc. apply wp_ret. split; [done|].
    eapply wp_mono; [eapply (wp_allocproc me _ i k e)|]; simpl.
    - done.
    - by rewrite fupd_eq.
    - erewrite scan_table_ext; [done|]. intros j. simpl.
      destruct (decide (j = i)) as [->|]; [by rewrite fupd_eq|by rewrite fupd_ne].
    - done.
    - done.
    - intros r s2 [-> ->]. rewrite fupd_eq. done. }
  apply wp_ok in Hkill as (r & s1 & Hr & -> & Hal).
  apply wp_ok in Hal as (r & s2 & Hr2 & -> & Hkd). by exists s1, s2.
Qed.
End props.

(** ** Runs of a small environment *)

(** Memory that never runs out and files that do nothing. *)
#[local] Instance demo_env : ProcEnv unit := {|
  e_kalloc := ret 4096; e_kfree _ := ret tt; e_setupkvm := ret 8192; e_inituvm _ _ := ret tt;
  e_allocuvm _ _ n := ret n; e_deallocuvm _ _ n := ret n; e_copyuvm _ _ := ret 12288;
  e_freevm _ := ret tt; e_switchuvm _ _ := ret tt; e_switchkvm := ret tt;
  e_filedup f := ret f; e_fileclose _ := ret tt; e_idup i := ret i; e_iput _ := ret tt;
  e_begin_op := ret tt; e_end_op := ret tt; e_namei _ := ret 16384; e_iinit _ := ret tt; e_initlog _ := ret tt |}.

(** The state in which a routine ends. *)
Definition final {A} (m : M (pst unit) A) (s : pst unit) : pst unit :=
  match m s with Ok _ t => t | Blocked t => t | _ => s end.

Lemma final_Ok {A} (m : M (pst unit) A) s :
  match m s with Ok _ _ => true | _ => false end = true -> exists r, m s = Ok r (final m s).
Proof. unfold final. destruct (m s); [eauto|done..]. Qed.
Lemma final_ends {A} me (m : M (pst unit) A) s :
  match m s with
  | Ok _ _ => true
  | Blocked t => match ps_run t me with None => true | Some _ => false end
  | _ => false
  end = true -> ends me m s (final m s).
Proof.
  unfold final, ends. destruct (m s) as [r t| |t|]; try done; [left; eauto|].
  destruct (ps_run t me); [done|auto].
Qed.

Strategy 1000 [final].

(** init starts on CPU 0 and forks; CPU 1 picks the child; init waits; the child exits. *)
Definition d0 := final (userinit 0 []) (boot_pst tt).
Definition d1 := final (scheduler_pass 0) d0.
Definition d2 := final (scheduler_next 0 (ret tt)) d1.
Definition d3 := final (allocproc 0) d2.
Definition d4 := final (fork_rest 0 1) d3.
Definition d5 := final (scheduler_pass 1) d4.
Definition d6 := final (scheduler_next 1 (ret tt)) d5.
Definition d7 := final (wait 0) d6.
Definition d8 := final (scheduler_next 0 (ret tt)) d7.
Definition d9 := final (exit 1) d8.

Definition forking : nat -> option nat := fupd no_forks 0 (Some 1%nat).
Definition forked : nat -> option nat := fupd forking 0 None.

Lemma demo_booted : booted (d0, no_forks).
Proof.
  exists 0%nat, tt, []. split; [|done]. destruct (final_Ok (userinit 0 []) (boot_pst tt)) as [[] Hr]; [by vm_compute|].
  exact Hr.
Qed.

(** The routine [m] takes state [s] to the state defined as its [final]. *)
Ltac demo me m s := exact (final_ends me m s ltac:(vm_compute; reflexivity)).
Ltac calc := vm_compute; first [reflexivity|split; reflexivity].

Lemma demo_alloc : allocproc 0 d2 = Ok (Some 1%nat) d3.
Proof.
  destruct (final_Ok (allocproc 0) d2) as [r Hr]; [calc|].
  assert (Hc : match allocproc 0 d2 with Ok r _ => r | _ => None end = Some 1%nat) by calc.
  rewrite Hr in Hc. rewrite Hr, Hc. reflexivity.
Qed.

Lemma demo_step3 : kstep EvCall (d2, no_forks) (d3, forking).
Proof. refine (k_alloc 0 0 d2 no_forks (Some 1%nat) d3 _ _ _ demo_alloc); calc. Qed.

Lemma demo_step4 : kstep EvCall (d3, forking) (d4, forked).
Proof.
  destruct (final_Ok (fork_rest 0 1) d3) as [r Hr]; [calc|].
  refine (k_fork_rest 0 0 1 d3 forking r d4 _ _ Hr); calc.
Qed.

Lemma demo_run : rtc kany (d0, no_forks) (d8, forked).
Proof.
  eapply rtc_l; [exists (EvPass 0); refine (k_pass 0 d0 no_forks d1 _ _ _); [calc|calc|demo 0%nat (scheduler_pass (E := unit) 0) d0]|].
  eapply rtc_l; [exists (EvSched 0); refine (k_sched 0 (ret tt) d1 no_forks d2 _ _); [calc|demo 0%nat (scheduler_next 0 (ret tt)) d1]|].
  eapply rtc_l; [exists EvCall; exact demo_step3|].
  eapply rtc_l; [exists EvCall; exact demo_step4|].
  eapply rtc_l; [exists (EvPass 1); refine (k_pass 1 d4 forked d5 _ _ _); [calc|calc|demo 1%nat (scheduler_pass (E := unit) 1) d4]|].
  eapply rtc_l; [exists (EvSched 1); refine (k_sched 1 (ret tt) d5 forked d6 _ _); [calc|demo 1%nat (scheduler_next 1 (ret tt)) d5]|].
  eapply rtc_l; [exists EvCall; refine (k_wait 0 0 d6 forked d7 _ _); [calc|demo 0%nat (wait 0) d6]|].
  eapply rtc_l; [exists (EvSched 0); refine (k_sched 0 (ret tt) d7 forked d8 _ _); [calc|demo 0%nat (scheduler_next 0 (ret tt)) d7]|].
  apply rtc_refl.
Qed.

Lemma demo_exit : kstep EvCall (d8, forked) (d9, forked).
Proof. refine (k_exit 1 1 d8 forked d9 _ _ _); [calc|calc|demo 1%nat (exit 1) d8]. Qed.

Lemma proc_refines_spec_witness : rtc trans (alpha d8 forked) (alpha d9 forked).
Proof. exact (proc_refines_spec (d0, no_forks) (d8, forked) (d9, forked) EvCall demo_booted demo_run demo_exit). Defined.

Lemma process_cpus_pids_witness :
  ps_run d8 1 = Some 1%nat /\ p_state (ps_proc d8 1) = RUNNING /\
  (forall d, ps_run d8 d = Some 1%nat -> d = 1%nat).
Proof.
  pose proof (process_cpus_pids (d0, no_forks) (d8, forked) demo_booted demo_run) as (H1 & H2 & _).
  assert (Hr : ps_run d8 1 = Some 1%nat) by calc.
  split; [exact Hr|]. split; [exact (proj2 (H1 1%nat 1%nat Hr))|].
  intros d Hd. exact (H2 d 1%nat 1%nat Hd Hr).
Defined.

(** The child is a zombie now; its parent, which slept in [wait], no longer does. *)
Lemma no_lost_exit_witness :
  p_state (ps_proc d8 0) = SLEEPING /\ p_state (ps_proc d9 1) = ZOMBIE /\
  ~ (p_state (ps_proc d9 0) = SLEEPING /\ p_chan (ps_proc d9 0) = ChProc 0).
Proof.
  split; [calc|]. split; [calc|].
  refine (proj2 (no_lost_exit (d0, no_forks) (d9, forked) 1 demo_booted _ _) _ 0%nat _);
    [|unfold NPROC; lia|calc|calc].
  eapply rtc_r; [exact demo_run|]. exists EvCall. exact demo_exit.
Defined.

(** init yields on CPU 0; the scheduler goes on behind it and takes the child first. *)
Definition y1 := final (yield 0) d4.
Definition y2 := final (scheduler_next 0 (ret tt)) y1.

Lemma scheduler_fair_witness : picks 0 0 (y1, forked) 1 (y2, forked) /\ (1 <= NPROC)%nat.
Proof.
  assert (H : picks 0 0 (y1, forked) 1 (y2, forked)).
  { refine (picks_sched 0 0 (y1, forked) (y2, forked) (y2, forked) 0 1 _ _ _ _ _).
    - calc.
    - refine (k_sched 0 (ret tt) y1 forked y2 _ _); [calc|demo 0%nat (scheduler_next 0 (ret tt)) y1].
    - calc.
    - discriminate.
    - apply picks_nil. }
  split; [exact H|]. refine (scheduler_fair 0 0 1 (y1, forked) (y2, forked) _ _ H).
  - unfold NPROC. lia.
  - apply Nat.leb_le. calc.
Defined.

Lemma yield_resume_interrupts_witness :
  exists s', yield 0 d4 = Blocked s' /\ ps_lock s' = mk_spinlock 1 (Some 0%nat).
Proof.
  destruct (yield_resume_interrupts 0 1 0 d4 tt) as (s' & H1 & H2 & _); [calc..|]. exists s'. split; [exact H1|exact H2].
Defined.

Lemma kill_zero_marks_free_entry_witness :
  exists s1 s2, kill 0 0 d2 = Ok 0 s1 /\ allocproc 0 s1 = Ok (Some 1%nat) s2 /\
    p_killed (ps_proc s2 1) = true.
Proof. apply (kill_zero_marks_free_entry 0 1 d2 4096 tt); [calc..|lia]. Defined.
