(* ===== verification/File.v ===== *)
(** * Open files ([src/xv6/file.c], and [pipealloc] of [src/xv6/pipe.c])

    The file table, over the allocator, the file system and the pipes.  A [struct file]
    pointer is an index into [ftable.file], a pipe is known by the address of its page.
    [k_pipe] is the contents of those pages.  A routine that fills a buffer of its caller
    returns the bytes it stores.  Where a routine sleeps, its result is [Blocked]. *)

From S2P Require Import Prelude Mem Spinlock Sleeplock Kalloc Block Disk Bio Layout Format Log Tx Fs Pipe Vm Seg.

Definition NFILE : nat := 100.
Arguments NFILE : simpl never.

(** [begin_op], [end_op] and [initlog], for the block layers that have them. *)
Class TxTop (T : Type) : Type := { t_begin_op : M T unit; t_end_op : M T unit; t_initlog : Z -> M T unit }.

(** The log has them. *)
Section log_top.
Context {S : Type} `{!CacheOps S} (me : nat).
#[export] Instance log_top : TxTop (lstate S) := {|
  t_begin_op := begin_op me; t_end_op := end_op me; t_initlog dev := initlog dev |}.
End log_top.

Inductive fdtype : Type := FD_NONE | FD_PIPE | FD_INODE.

#[export] Instance fdtype_eq_dec : EqDecision fdtype.
Proof. solve_decision. Defined.

Record file : Type := mk_file {
  fl_type : fdtype;
  fl_ref : Z;
  fl_readable : bool;
  fl_writable : bool;
  fl_pipe : Z;
  fl_ip : option nat;
  fl_off : Z
}.
Definition fl_set_type x f := mk_file x (fl_ref f) (fl_readable f) (fl_writable f) (fl_pipe f) (fl_ip f) (fl_off f).
Definition fl_set_ref x f := mk_file (fl_type f) x (fl_readable f) (fl_writable f) (fl_pipe f) (fl_ip f) (fl_off f).
Definition fl_set_readable x f := mk_file (fl_type f) (fl_ref f) x (fl_writable f) (fl_pipe f) (fl_ip f) (fl_off f).
Definition fl_set_writable x f := mk_file (fl_type f) (fl_ref f) (fl_readable f) x (fl_pipe f) (fl_ip f) (fl_off f).
Definition fl_set_pipe x f := mk_file (fl_type f) (fl_ref f) (fl_readable f) (fl_writable f) x (fl_ip f) (fl_off f).
Definition fl_set_ip x f := mk_file (fl_type f) (fl_ref f) (fl_readable f) (fl_writable f) (fl_pipe f) x (fl_off f).
Definition fl_set_off x f := mk_file (fl_type f) (fl_ref f) (fl_readable f) (fl_writable f) (fl_pipe f) (fl_ip f) x.

(** A line that the kernel prints: the format and the arguments of [cprintf]. *)
Inductive parg : Type := PInt (x : Z) | PStr (x : list Z) | PName (x : string).

(** [ticks] and [tickslock] of trap.c, [trace] of sysproc.c and what was printed. *)
Record misc : Type := mk_misc {
  x_ticks : Z;
  x_tickslock : spinlock;
  x_trace : Z;
  x_out : list (string * list parg)
}.
Definition x_set_ticks x m := mk_misc x (x_tickslock m) (x_trace m) (x_out m).
Definition x_set_tickslock x m := mk_misc (x_ticks m) x (x_trace m) (x_out m).
Definition x_set_trace x m := mk_misc (x_ticks m) (x_tickslock m) x (x_out m).
Definition x_print fmt args m := mk_misc (x_ticks m) (x_tickslock m) (x_trace m) (x_out m ++ [(fmt, args)]).

(** The state of the kernel below the process table. *)
Record kenv (T : Type) : Type := mk_kenv {
  k_km : kmem;
  k_fs : fs T;
  k_flock : spinlock;          (* ftable.lock *)
  k_file : nat -> file;        (* ftable.file *)
  k_pipe : Z -> pipe;
  k_mach : mach;
  k_misc : misc
}.
Arguments mk_kenv {T}.
Arguments k_km {T}.
Arguments k_fs {T}.
Arguments k_flock {T}.
Arguments k_file {T}.
Arguments k_pipe {T}.
Arguments k_mach {T}.
Arguments k_misc {T}.

Section file.
Context {T : Type} `{!TxOps T} `{!TxTop T} (kend : Z) (me : nat) (pid : Z) (devsw : Z -> dev_ops (T := T)).
Abbreviation KM := (M (kenv T)).

(** The parts of the state. *)
Definition on_km {A} (m : M kmem A) : KM A :=
  zoom k_km (fun x s => mk_kenv x (k_fs s) (k_flock s) (k_file s) (k_pipe s) (k_mach s) (k_misc s)) m.
Definition on_fs {A} (m : M (fs T) A) : KM A :=
  zoom k_fs (fun x s => mk_kenv (k_km s) x (k_flock s) (k_file s) (k_pipe s) (k_mach s) (k_misc s)) m.
Definition k_put_pipe (p : Z) (x : pipe) (s : kenv T) : kenv T :=
  mk_kenv (k_km s) (k_fs s) (k_flock s) (k_file s) (fun q => if q =? p then x else k_pipe s q) (k_mach s) (k_misc s).
Definition on_pipe {A} (p : Z) (m : M pipe A) : KM A := zoom (fun s => k_pipe s p) (k_put_pipe p) m.
Definition on_mach {A} (m : M mach A) : KM A :=
  zoom k_mach (fun x s => mk_kenv (k_km s) (k_fs s) (k_flock s) (k_file s) (k_pipe s) x (k_misc s)) m.
Definition on_misc {A} (m : M misc A) : KM A :=
  zoom k_misc (fun x s => mk_kenv (k_km s) (k_fs s) (k_flock s) (k_file s) (k_pipe s) (k_mach s) x) m.
Definition k_begin_op : KM unit := on_fs (tx t_begin_op).
Definition k_end_op : KM unit := on_fs (tx t_end_op).

Definition ft_set_lock (x : spinlock) (s : kenv T) : kenv T := mk_kenv (k_km s) (k_fs s) x (k_file s) (k_pipe s) (k_mach s) (k_misc s).
Definition lock_ftable : KM unit := acquire me k_flock ft_set_lock.
Definition unlock_ftable : KM unit := release me k_flock ft_set_lock.

(** [f->...], and assignments to the fields of [f]. *)
Definition fget (f : nat) : KM file := gets (fun s => k_file s f).
Definition fset (f : nat) (g : file -> file) : KM unit :=
  modify (fun s => mk_kenv (k_km s) (k_fs s) (k_flock s) (fupd (k_file s) f (g (k_file s f))) (k_pipe s) (k_mach s) (k_misc s)).

Definition fileinit : KM unit := modify (ft_set_lock initlock).

Definition filealloc : KM (option nat) :=
  lock_ftable ;;;
  let! s := get in
  match first (fun f => fl_ref (k_file s f) =? 0) (seq 0 NFILE) with
  | Some f => fset f (fl_set_ref 1) ;;; unlock_ftable ;;; ret (Some f)
  | None => unlock_ftable ;;; ret None
  end.

Definition filedup (f : nat) : KM nat :=
  lock_ftable ;;;
  let! x := fget f in
  if fl_ref x <? 1 then panic "filedup" else
  fset f (fl_set_ref (i32 (fl_ref x + 1))) ;;;
  unlock_ftable ;;;
  ret f.

Definition inode_of (x : file) : KM nat :=
  match fl_ip x with Some ip => ret ip | None => undefined "null inode" end.

(** [pipeclose(p, writable)], which frees the page of the pipe after both ends. *)
Definition close_pipe (p : Z) (writable : bool) : KM unit :=
  let! last := on_pipe p (pipeclose me writable) in
  if last then on_km (kfree kend me p) else ret tt.

Definition fileclose (f : nat) : KM unit :=
  lock_ftable ;;;
  let! x := fget f in
  if fl_ref x <? 1 then panic "fileclose" else
  fset f (fl_set_ref (fl_ref x - 1)) ;;;
  if 0 <? fl_ref x - 1 then unlock_ftable else
  let! ff := fget f in
  fset f (fl_set_ref 0) ;;;
  fset f (fl_set_type FD_NONE) ;;;
  unlock_ftable ;;;
  match fl_type ff with
  | FD_PIPE => close_pipe (fl_pipe ff) (fl_writable ff)
  | FD_INODE =>
      k_begin_op ;;;
      let! ip := inode_of ff in
      on_fs (iput me pid ip) ;;;
      k_end_op
  | FD_NONE => ret tt
  end.

Definition filestat (f : nat) : KM (option stat) :=
  let! x := fget f in
  match fl_type x with
  | FD_INODE =>
      on_fs (ilock me pid (fl_ip x)) ;;;
      let! ip := inode_of x in
      let! st := on_fs (stati ip) in
      on_fs (iunlock me pid (Some ip)) ;;;
      ret (Some st)
  | _ => ret None
  end.

(** [piperead(f->pipe, addr, n)] and [pipewrite(f->pipe, addr, n)] of a process that
    sleeps in them at most once. *)
Definition read_pipe (killed : bool) (p n : Z) : KM (Z * list Z) :=
  let! r := on_pipe p (piperead me killed (Z.to_nat n)) in
  match r with
  | inl (Some l) => ret (Z.of_nat (length l), l)
  | inl None => ret (-1, [])
  | inr _ => waits
  end.
Definition write_pipe (killed : bool) (p : Z) (src : list Z) : KM Z :=
  let! r := on_pipe p (pipewrite me killed src 0) in
  match r with inl n => ret n | inr _ => waits end.

Definition fileread (killed : bool) (f : nat) (n : Z) : KM (Z * list Z) :=
  let! x := fget f in
  if negb (fl_readable x) then ret (-1, []) else
  match fl_type x with
  | FD_PIPE => read_pipe killed (fl_pipe x) n
  | FD_INODE =>
      on_fs (ilock me pid (fl_ip x)) ;;;
      let! ip := inode_of x in
      let! r := on_fs (readi devsw ip (fl_off x) (u32 n)) in
      (if 0 <? fst r then fset f (fl_set_off (u32 (fl_off x + fst r))) else ret tt) ;;;
      on_fs (iunlock me pid (Some ip)) ;;;
      ret r
  | FD_NONE => panic "fileread"
  end.

(** A transaction writes at most this many bytes. *)
Definition WRITEMAX : Z := ((MAXOPBLOCKS - 1 - 1 - 2) / 2) * 512.

(** [while(i < n)], with the bytes of the buffer [addr]. *)
Fixpoint filewrite_loop (fuel : nat) (f : nat) (src : list Z) (n i : Z) : KM Z :=
  if i <? n then
    match fuel with
    | O => fun _ => OutOfFuel
    | S k =>
        let n1 := Z.min (n - i) WRITEMAX in
        k_begin_op ;;;
        let! x := fget f in
        on_fs (ilock me pid (fl_ip x)) ;;;
        let! ip := inode_of x in
        let! r := on_fs (writei devsw ip (take (Z.to_nat n1) (drop (Z.to_nat i) src)) (fl_off x) n1) in
        (if 0 <? r then fset f (fl_set_off (u32 (fl_off x + r))) else ret tt) ;;;
        on_fs (iunlock me pid (Some ip)) ;;;
        k_end_op ;;;
        if r <? 0 then ret i
        else if negb (r =? n1) then panic "short filewrite"
        else filewrite_loop k f src n (i + r)
    end
  else ret i.

Definition filewrite (killed : bool) (f : nat) (src : list Z) (n : Z) : KM Z :=
  let! x := fget f in
  if negb (fl_writable x) then ret (-1) else
  match fl_type x with
  | FD_PIPE => write_pipe killed (fl_pipe x) (take (Z.to_nat n) src)
  | FD_INODE =>
      let! i := filewrite_loop (Z.to_nat n) f src n 0 in
      ret (if i =? n then n else -1)
  | FD_NONE => panic "filewrite"
  end.

(** ** [pipealloc] *)

Definition pipealloc_bad (p : Z) (f0 f1 : option nat) : KM (option (nat * nat)) :=
  (if p =? 0 then ret tt else on_km (kfree kend me p)) ;;;
  (match f0 with Some f => fileclose f | None => ret tt end) ;;;
  (match f1 with Some f => fileclose f | None => ret tt end) ;;;
  ret None.

(** The buffer of a new pipe holds the bytes of the page, which are never read before they
    are written. *)
Definition pipealloc : KM (option (nat * nat)) :=
  let! f0 := filealloc in
  match f0 with
  | None => pipealloc_bad 0 None None
  | Some f0 =>
      let! f1 := filealloc in
      match f1 with
      | None => pipealloc_bad 0 (Some f0) None
      | Some f1 =>
          let! p := on_km (kalloc me) in
          if p =? 0 then pipealloc_bad 0 (Some f0) (Some f1) else
          modify (fun s => k_put_pipe p (new_pipe (pi_data (k_pipe s p))) s) ;;;
          fset f0 (fl_set_type FD_PIPE) ;;;
          fset f0 (fl_set_readable true) ;;;
          fset f0 (fl_set_writable false) ;;;
          fset f0 (fl_set_pipe p) ;;;
          fset f1 (fl_set_type FD_PIPE) ;;;
          fset f1 (fl_set_readable false) ;;;
          fset f1 (fl_set_writable true) ;;;
          fset f1 (fl_set_pipe p) ;;;
          ret (Some (f0, f1))
      end
  end.
End file.
