(* ===== verification/Kern.v ===== *)
(** * The kernel

    The state of the whole kernel is the process table of [Proc] over the state [kenv] of
    the memory, the file system, the open files and the pipes.  This file gives the
    operations that proc.c calls on that state (the instance [kernel_env] of [ProcEnv]),
    the user memory of the current process, which the kernel reads and writes through its
    page table, and the routines of [src/xv6/syscall.c] that fetch arguments. *)

From S2P Require Import Prelude Mem CString Mmu Spinlock Sleeplock Kalloc Vm Seg Block Disk Layout Format Log Tx Fs Pipe File Proc.

(** A pointer to entry [i] of the file table or of the inode cache, as proc.c keeps it. *)
Definition ptr (i : nat) : Z := Z.of_nat i + 1.
Definition of_ptr (p : Z) : option nat := if p =? 0 then None else Some (Z.to_nat (p - 1)).

(** What the linker and the drivers fix: the symbols [end] and [data], the addresses of the
    descriptor tables, and the device table. *)
Record board (T : Type) : Type := mk_board {
  b_end : Z;
  b_data : Z;
  b_gdt : nat -> Z;
  b_ts : nat -> Z;
  b_devsw : Z -> dev_ops (T := T)
}.
Arguments b_end {T}.
Arguments b_data {T}.
Arguments b_gdt {T}.
Arguments b_ts {T}.
Arguments b_devsw {T}.

Section kern.
Context {T : Type} `{!TxOps T} `{!TxTop T} (B : board T) (me : nat).
Abbreviation KM := (M (kenv T)).

Definition deref {A} (p : Z) (f : nat -> KM A) : KM A :=
  match of_ptr p with Some i => f i | None => undefined "null pointer" end.

(** The operations on the kernel state that [proc.c] calls, for the process [pid]. *)
#[local] Instance kernel_env (pid : Z) : ProcEnv (kenv T) := {|
  e_kalloc := on_km (kalloc me);
  e_kfree p := on_km (kfree (b_end B) me p);
  e_setupkvm := on_km (setupkvm (b_end B) (b_data B) me);
  e_inituvm pgdir init := on_km (inituvm me pgdir init);
  e_allocuvm pgdir oldsz newsz := on_km (allocuvm (b_end B) me pgdir oldsz newsz);
  e_deallocuvm pgdir oldsz newsz := on_km (deallocuvm (b_end B) me pgdir oldsz newsz);
  e_copyuvm pgdir sz := on_km (copyuvm (b_end B) (b_data B) me pgdir sz);
  e_freevm pgdir := on_km (freevm (b_end B) me pgdir);
  e_switchuvm pgdir kstack := on_mach (switchuvm me (b_ts B) pgdir kstack);
  e_switchkvm := on_mach (switchkvm me);
  e_filedup f := deref f (fun i => let! r := filedup me i in ret (ptr r));
  e_fileclose f := deref f (fileclose (b_end B) me pid);
  e_idup ip := deref ip (fun i => let! r := on_fs (idup me i) in ret (ptr r));
  e_iput ip := deref ip (fun i => on_fs (iput me pid i));
  e_begin_op := k_begin_op;
  e_end_op := k_end_op;
  e_namei path :=
    (* the path is absolute where proc.c uses it, so the current directory does not matter *)
    let! r := on_fs (namei me pid (b_devsw B) 0 path (repeat 0 DIRSIZ)) in
    ret (match r with Some i => ptr i | None => 0 end);
  e_iinit dev := on_fs (iinit dev);
  e_initlog dev := on_fs (tx (t_initlog dev))
|}.

(** [kvmalloc] of vm.c. *)
Definition kvmalloc : KM unit :=
  let! pgdir := on_km (setupkvm (b_end B) (b_data B) me) in
  on_mach (modify (fun m => mk_mach (m_hw m) pgdir)) ;;;
  on_mach (switchkvm me).

(** ** User memory *)

(** The kernel address at which the processor finds the byte [va] of the address space
    [pgdir]; a store also needs the entry to be writable. *)
Definition translate (m : mem) (pgdir va : Z) (store : bool) : option Z :=
  let pde := load32 m (pgdir + 4 * PDX va) in
  if has_bit pde PTE_P then
    let pte := load32 m (P2V (PTE_ADDR pde) + 4 * PTX va) in
    if has_bit pte PTE_P && (negb store || has_bit pte PTE_W) then Some (P2V (PTE_ADDR pte) + va mod 4096) else None
  else None.

(** An access that faults in the kernel ends in the panic of trap.c. *)
Definition u_load8 (pgdir va : Z) : M kmem Z :=
  let! s := get in
  match translate (km_mem s) pgdir va false with
  | Some a => ret (km_mem s a)
  | None => panic "trap"
  end.
Definition u_store8 (pgdir va x : Z) : M kmem unit :=
  let! s := get in
  match translate (km_mem s) pgdir va true with
  | Some a => modify (fun s => km_set_mem (store8 (km_mem s) a x) s)
  | None => panic "trap"
  end.
Fixpoint u_load (pgdir va : Z) (n : nat) : M kmem (list Z) :=
  match n with
  | O => ret []
  | S k => let! x := u_load8 pgdir va in let! l := u_load pgdir (u32 (va + 1)) k in ret (x :: l)
  end.
Fixpoint u_store (pgdir va : Z) (l : list Z) : M kmem unit :=
  match l with
  | [] => ret tt
  | x :: l => u_store8 pgdir va x ;;; u_store pgdir (u32 (va + 1)) l
  end.

Definition word_of (l : list Z) : Z :=
  match l with [a; b; c; d] => a + 256 * b + 65536 * c + 16777216 * d | _ => 0 end.

(** ** Fetching arguments *)

Abbreviation SM := (M (pst (kenv T))).

(** A field of [*myproc()]. *)
Definition cur {A} (f : proc -> A) : SM A :=
  let! c := curproc me in gets (fun s => f (ps_proc s c)).
Definition umem {A} (f : Z -> M kmem A) : SM A :=
  let! pgdir := cur p_pgdir in env (on_km (f pgdir)).

(** [*ip] on success. *)
Definition fetchint (addr : Z) : SM (option Z) :=
  let! sz := cur p_sz in
  if (sz <=? addr) || (sz <? u32 (addr + 4)) then ret None
  else let! l := umem (fun pgdir => u_load pgdir addr 4) in ret (Some (i32 (word_of l))).

(** The string at [s], if its end comes before [ep]. *)
Fixpoint fetchstr_loop (n : nat) (pgdir s : Z) : M kmem (option (list Z)) :=
  match n with
  | O => ret None
  | S k =>
      let! c := u_load8 pgdir s in
      if c =? 0 then ret (Some [])
      else let! r := fetchstr_loop k pgdir (s + 1) in ret (cons c <$> r)
  end.
(** The bytes of the string, whose number is the value that [fetchstr] returns. *)
Definition fetchstr (addr : Z) : SM (option (list Z)) :=
  let! sz := cur p_sz in
  if sz <=? addr then ret None
  else umem (fun pgdir => fetchstr_loop (Z.to_nat (sz - addr)) pgdir addr).

Definition argint (n : Z) : SM (option Z) :=
  let! tf := cur p_frame in fetchint (u32 (tf_esp tf + 4 + 4 * n)).

Definition argptr (n size : Z) : SM (option Z) :=
  let! r := argint n in
  match r with
  | None => ret None
  | Some i =>
      let! sz := cur p_sz in
      if (size <? 0) || (sz <=? u32 i) || (sz <? u32 (u32 i + size)) then ret None
      else ret (Some (u32 i))
  end.

Definition argstr (n : Z) : SM (option (list Z)) :=
  let! r := argint n in
  match r with None => ret None | Some addr => fetchstr (u32 addr) end.
End kern.
