(* ===== verification/Sysfile.v ===== *)
(** * The file-system calls ([src/xv6/sysfile.c])

    Each call fetches its arguments from the user stack, and runs on the file table and
    the file system; its result is the value that the call returns.  What a call does
    between [begin_op] and [end_op] is a definition of its own on the file system state.
    [junk] is the content of an uninitialised name buffer on the kernel stack. *)

From S2P Require Import Prelude Mem CString Mmu Spinlock Sleeplock Kalloc Vm Seg Block Disk Layout Format Log Tx Fs Pipe File Proc Kern.

Definition O_RDONLY : Z := 0x000.
Definition O_WRONLY : Z := 0x001.
Definition O_RDWR : Z := 0x002.
Definition O_CREATE : Z := 0x200.

(** The names [.] and [..] as C strings. *)
Definition DOT : list Z := [46; 0].
Definition DOTDOT : list Z := [46; 46; 0].

Section sysfs.
Context {T : Type} `{!TxOps T} (me : nat) (pid : Z) (devsw : Z -> dev_ops (T := T)) (cwd : nat) (junk : list Z).
Abbreviation FM := (M (fs T)).

(** [sys_link] between [begin_op] and [end_op]. *)
Definition link_bad (ip : nat) : FM Z :=
  ilock me pid (Some ip) ;;;
  di_set ip (fun d => set_nlink (i16 (di_nlink d - 1)) d) ;;;
  iupdate ip ;;;
  iunlockput me pid ip ;;;
  ret (-1).
Definition link_tx (old new : list Z) : FM Z :=
  let! r := namei me pid devsw cwd old junk in
  match r with
  | None => ret (-1)
  | Some ip =>
      ilock me pid (Some ip) ;;;
      let! i := iget_field ip id in
      if di_type (i_di i) =? T_DIR then iunlockput me pid ip ;;; ret (-1) else
      di_set ip (fun d => set_nlink (i16 (di_nlink d + 1)) d) ;;;
      iupdate ip ;;;
      iunlock me pid (Some ip) ;;;
      let! r := nameiparent me pid devsw cwd new junk in
      match r with
      | (None, _) => link_bad ip
      | (Some dp, name) =>
          ilock me pid (Some dp) ;;;
          let! i := iget_field ip id in
          let! d := iget_field dp id in
          let! bad := (if negb (i_dev d =? i_dev i) then ret true
                       else let! r := dirlink me pid devsw dp name (i_inum i) in ret (r <? 0)) in
          if bad then iunlockput me pid dp ;;; link_bad ip
          else iunlockput me pid dp ;;; iput me pid ip ;;; ret 0
      end
  end.

(** [for(off=2*sizeof(de); off<dp->size; off+=sizeof(de))] *)
Fixpoint isdirempty_loop (fuel : nat) (dp : nat) (off : Z) : FM bool :=
  match fuel with
  | O => fun _ => OutOfFuel
  | S k =>
      let! sz := iget_field dp (fun i => di_size (i_di i)) in
      if off <? sz then
        let! r := readi devsw dp off DESIZE in
        if negb (fst r =? DESIZE) then panic "isdirempty: readi" else
        if negb (de_inum (snd r) =? 0) then ret false else isdirempty_loop k dp (off + DESIZE)
      else ret true
  end.
Definition isdirempty (dp : nat) : FM bool :=
  let! sz := iget_field dp (fun i => di_size (i_di i)) in isdirempty_loop (S (Z.to_nat sz)) dp (2 * DESIZE).

(** [sys_unlink] between [begin_op] and [end_op]. *)
Definition unlink_bad (dp : nat) : FM Z := iunlockput me pid dp ;;; ret (-1).
Definition unlink_tx (path : list Z) : FM Z :=
  let! r := nameiparent me pid devsw cwd path junk in
  match r with
  | (None, _) => ret (-1)
  | (Some dp, name) =>
      ilock me pid (Some dp) ;;;
      if (namecmp name DOT =? 0) || (namecmp name DOTDOT =? 0) then unlink_bad dp else
      let! r := dirlookup me devsw dp name in
      match r with
      | None => unlink_bad dp
      | Some (ip, off) =>
          ilock me pid (Some ip) ;;;
          let! i := iget_field ip id in
          if di_nlink (i_di i) <? 1 then panic "unlink: nlink < 1" else
          let! full := (if di_type (i_di i) =? T_DIR then let! e := isdirempty ip in ret (negb e) else ret false) in
          if full then iunlockput me pid ip ;;; unlink_bad dp else
          let! r := writei devsw dp (repeat 0 16) off DESIZE in
          if negb (r =? DESIZE) then panic "unlink: writei" else
          let! i := iget_field ip id in
          (if di_type (i_di i) =? T_DIR then
             di_set dp (fun d => set_nlink (i16 (di_nlink d - 1)) d) ;;; iupdate dp
           else ret tt) ;;;
          iunlockput me pid dp ;;;
          di_set ip (fun d => set_nlink (i16 (di_nlink d - 1)) d) ;;;
          iupdate ip ;;;
          iunlockput me pid ip ;;;
          ret 0
      end
  end.

(** [create]: the new inode, locked. *)
Definition create (path : list Z) (type major minor : Z) : FM (option nat) :=
  let! r := nameiparent me pid devsw cwd path junk in
  match r with
  | (None, _) => ret None
  | (Some dp, name) =>
      ilock me pid (Some dp) ;;;
      let! r := dirlookup me devsw dp name in
      match r with
      | Some (ip, _) =>
          iunlockput me pid dp ;;;
          ilock me pid (Some ip) ;;;
          let! i := iget_field ip id in
          if (type =? T_FILE) && (di_type (i_di i) =? T_FILE) then ret (Some ip)
          else iunlockput me pid ip ;;; ret None
      | None =>
          let! d := iget_field dp id in
          let! ip := ialloc me (i_dev d) type in
          ilock me pid (Some ip) ;;;
          di_set ip (set_dev (i16 major) (i16 minor)) ;;;
          di_set ip (set_nlink 1) ;;;
          iupdate ip ;;;
          (if type =? T_DIR then
             di_set dp (fun d => set_nlink (i16 (di_nlink d + 1)) d) ;;;
             iupdate dp ;;;
             let! i := iget_field ip id in
             let! r := dirlink me pid devsw ip DOT (i_inum i) in
             if r <? 0 then panic "create dots" else
             let! r := dirlink me pid devsw ip DOTDOT (i_inum d) in
             if r <? 0 then panic "create dots" else ret tt
           else ret tt) ;;;
          let! i := iget_field ip id in
          let! r := dirlink me pid devsw dp name (i_inum i) in
          if r <? 0 then panic "create: dirlink" else
          iunlockput me pid dp ;;;
          ret (Some ip)
      end
  end.

(** [sys_open] up to the allocation of the file: the inode, locked. *)
Definition open_tx (path : list Z) (omode : Z) : FM (option nat) :=
  if has_bit omode O_CREATE then create path T_FILE 0 0
  else
    let! r := namei me pid devsw cwd path junk in
    match r with
    | None => ret None
    | Some ip =>
        ilock me pid (Some ip) ;;;
        let! i := iget_field ip id in
        if (di_type (i_di i) =? T_DIR) && negb (omode =? O_RDONLY) then iunlockput me pid ip ;;; ret None
        else ret (Some ip)
    end.
End sysfs.

Section sysfile.
Context {T : Type} `{!TxOps T} `{!TxTop T} (B : board T) (me : nat) (junk : list Z).
Abbreviation SM := (M (pst (kenv T))).

(** A routine of fs.c for the current process. *)
Definition sys_fs {A} (m : Z -> M (fs T) A) : SM A := let! pid := cur me p_pid in env (on_fs (m pid)).
(** [myproc()->cwd] *)
Definition cur_cwd : SM nat :=
  let! p := cur me p_cwd in match of_ptr p with Some i => ret i | None => undefined "null cwd" end.

Definition argfd (n : Z) : SM (option (Z * nat)) :=
  let! r := argint me n in
  match r with
  | None => ret None
  | Some fd =>
      if (fd <? 0) || (Z.of_nat NOFILE <=? fd) then ret None else
      let! f := cur me (fun p => default 0 (p_ofile p !! Z.to_nat fd)) in
      match of_ptr f with Some f => ret (Some (fd, f)) | None => ret None end
  end.

Definition set_ofile (fd : nat) (f : Z) : SM unit :=
  let! c := curproc me in upd c (fun p => p_set_ofile (<[fd := f]> (p_ofile p)) p).

Definition fdalloc (f : nat) : SM Z :=
  let! ofile := cur me p_ofile in
  match first (fun fd => default 0 (ofile !! fd) =? 0) (seq 0 NOFILE) with
  | Some fd => set_ofile fd (ptr f) ;;; ret (Z.of_nat fd)
  | None => ret (-1)
  end.

Definition sys_dup : SM Z :=
  let! r := argfd 0 in
  match r with
  | None => ret (-1)
  | Some (_, f) =>
      let! fd := fdalloc f in
      if fd <? 0 then ret (-1) else env (filedup me f) ;;; ret fd
  end.

(** The arguments of [read] and [write]: file, pointer and count. *)
Definition rw_args : SM (option (nat * Z * Z)) :=
  let! r := argfd 0 in
  match r with
  | None => ret None
  | Some (_, f) =>
      let! r := argint me 2 in
      match r with
      | None => ret None
      | Some n =>
          let! r := argptr me 1 n in
          match r with None => ret None | Some p => ret (Some (f, p, n)) end
      end
  end.

Definition sys_read : SM Z :=
  let! r := rw_args in
  match r with
  | None => ret (-1)
  | Some (f, p, n) =>
      let! pid := cur me p_pid in
      let! killed := cur me p_killed in
      let! r := env (fileread me pid (b_devsw B) killed f n) in
      umem me (fun pgdir => u_store pgdir p (snd r)) ;;;
      ret (fst r)
  end.

Definition sys_write : SM Z :=
  let! r := rw_args in
  match r with
  | None => ret (-1)
  | Some (f, p, n) =>
      let! pid := cur me p_pid in
      let! killed := cur me p_killed in
      let! src := umem me (fun pgdir => u_load pgdir p (Z.to_nat n)) in
      env (filewrite me pid (b_devsw B) killed f src n)
  end.

Definition sys_close : SM Z :=
  let! r := argfd 0 in
  match r with
  | None => ret (-1)
  | Some (fd, f) =>
      set_ofile (Z.to_nat fd) 0 ;;;
      let! pid := cur me p_pid in
      env (fileclose (b_end B) me pid f) ;;;
      ret 0
  end.

(** The five assignments of [stati] to a [struct stat] at [st]; the two gaps of two bytes
    between the fields keep what they hold. *)
Definition put_stat (st : Z) (x : stat) (pgdir : Z) : M kmem unit :=
  u_store pgdir (u32 (st + 4)) (bytes32 (u32 (st_dev x))) ;;;
  u_store pgdir (u32 (st + 8)) (bytes32 (st_ino x)) ;;;
  u_store pgdir st (bytes16 (u16 (st_type x))) ;;;
  u_store pgdir (u32 (st + 12)) (bytes16 (u16 (st_nlink x))) ;;;
  u_store pgdir (u32 (st + 16)) (bytes32 (st_size x)).

Definition sys_fstat : SM Z :=
  let! r := argfd 0 in
  match r with
  | None => ret (-1)
  | Some (_, f) =>
      let! r := argptr me 1 20 in
      match r with
      | None => ret (-1)
      | Some st =>
          let! pid := cur me p_pid in
          let! r := env (filestat me pid f) in
          match r with
          | None => ret (-1)
          | Some x => umem me (put_stat st x) ;;; ret 0
          end
      end
  end.

Definition sys_link : SM Z :=
  let! r := argstr me 0 in
  match r with
  | None => ret (-1)
  | Some old =>
      let! r := argstr me 1 in
      match r with
      | None => ret (-1)
      | Some new =>
          env k_begin_op ;;;
          let! cwd := cur_cwd in
          let! r := sys_fs (fun pid => link_tx me pid (b_devsw B) cwd junk old new) in
          env k_end_op ;;;
          ret r
      end
  end.

Definition sys_unlink : SM Z :=
  let! r := argstr me 0 in
  match r with
  | None => ret (-1)
  | Some path =>
      env k_begin_op ;;;
      let! cwd := cur_cwd in
      let! r := sys_fs (fun pid => unlink_tx me pid (b_devsw B) cwd junk path) in
      env k_end_op ;;;
      ret r
  end.

(** The assignments to the new file. *)
Definition open_file (f ip : nat) (omode : Z) : M (kenv T) unit :=
  fset f (fl_set_type FD_INODE) ;;;
  fset f (fl_set_ip (Some ip)) ;;;
  fset f (fl_set_off 0) ;;;
  fset f (fl_set_readable (negb (has_bit omode O_WRONLY))) ;;;
  fset f (fl_set_writable (has_bit omode O_WRONLY || has_bit omode O_RDWR)).

(** The failure of [filealloc] or [fdalloc]. *)
Definition open_fail (f : option nat) (ip : nat) : SM Z :=
  let! pid := cur me p_pid in
  (match f with Some f => env (fileclose (b_end B) me pid f) | None => ret tt end) ;;;
  sys_fs (fun pid => iunlockput me pid ip) ;;;
  env k_end_op ;;;
  ret (-1).

Definition sys_open : SM Z :=
  let! r := argstr me 0 in
  match r with
  | None => ret (-1)
  | Some path =>
      let! r := argint me 1 in
      match r with
      | None => ret (-1)
      | Some omode =>
          env k_begin_op ;;;
          let! cwd := cur_cwd in
          let! r := sys_fs (fun pid => open_tx me pid (b_devsw B) cwd junk path omode) in
          match r with
          | None => env k_end_op ;;; ret (-1)
          | Some ip =>
              let! f := env (filealloc me) in
              match f with
              | None => open_fail None ip
              | Some f =>
                  let! fd := fdalloc f in
                  if fd <? 0 then open_fail (Some f) ip else
                  sys_fs (fun pid => iunlock me pid (Some ip)) ;;;
                  env k_end_op ;;;
                  env (open_file f ip omode) ;;;
                  ret fd
              end
          end
      end
  end.

(** The common end of [sys_mkdir] and [sys_mknod]. *)
Definition create_end (r : option nat) : SM Z :=
  match r with
  | None => env k_end_op ;;; ret (-1)
  | Some ip =>
      sys_fs (fun pid => iunlockput me pid ip) ;;;
      env k_end_op ;;;
      ret 0
  end.

Definition sys_mkdir : SM Z :=
  env k_begin_op ;;;
  let! r := argstr me 0 in
  match r with
  | None => create_end None
  | Some path =>
      let! cwd := cur_cwd in
      let! r := sys_fs (fun pid => create me pid (b_devsw B) cwd junk path T_DIR 0 0) in
      create_end r
  end.

Definition sys_mknod : SM Z :=
  env k_begin_op ;;;
  let! path := argstr me 0 in
  match path with
  | None => create_end None
  | Some path =>
      let! major := argint me 1 in
      match major with
      | None => create_end None
      | Some major =>
          let! minor := argint me 2 in
          match minor with
          | None => create_end None
          | Some minor =>
              let! cwd := cur_cwd in
              let! r := sys_fs (fun pid => create me pid (b_devsw B) cwd junk path T_DEV (i16 major) (i16 minor)) in
              create_end r
          end
      end
  end.

Definition sys_chdir : SM Z :=
  env k_begin_op ;;;
  let! path := argstr me 0 in
  match path with
  | None => env k_end_op ;;; ret (-1)
  | Some path =>
      let! cwd := cur_cwd in
      let! r := sys_fs (fun pid => namei me pid (b_devsw B) cwd path junk) in
      match r with
      | None => env k_end_op ;;; ret (-1)
      | Some ip =>
          sys_fs (fun pid => ilock me pid (Some ip)) ;;;
          let! i := env (on_fs (iget_field ip id)) in
          if negb (di_type (i_di i) =? T_DIR) then
            sys_fs (fun pid => iunlockput me pid ip) ;;; env k_end_op ;;; ret (-1)
          else
            sys_fs (fun pid => iunlock me pid (Some ip)) ;;;
            sys_fs (fun pid => iput me pid cwd) ;;;
            env k_end_op ;;;
            let! c := curproc me in
            upd c (p_set_cwd (ptr ip)) ;;;
            ret 0
      end
  end.

Definition sys_pipe : SM Z :=
  let! r := argptr me 0 8 in
  match r with
  | None => ret (-1)
  | Some fd =>
      let! pid := cur me p_pid in
      let! r := env (pipealloc (b_end B) me pid) in
      match r with
      | None => ret (-1)
      | Some (rf, wf) =>
          let fail := env (fileclose (b_end B) me pid rf) ;;; env (fileclose (b_end B) me pid wf) ;;; ret (-1) in
          let! fd0 := fdalloc rf in
          if fd0 <? 0 then fail else
          let! fd1 := fdalloc wf in
          if fd1 <? 0 then set_ofile (Z.to_nat fd0) 0 ;;; fail else
          umem me (fun pgdir => u_store pgdir fd (bytes32 (u32 fd0))) ;;;
          umem me (fun pgdir => u_store pgdir (u32 (fd + 4)) (bytes32 (u32 fd1))) ;;;
          ret 0
      end
  end.
End sysfile.
