(* ===== verification/Elf.v ===== *)
(** * The format of executable files ([src/xv6/elf.h])

    The headers are read from the bytes of a file by the boot loader and by [exec]. *)

From S2P Require Import Prelude Block.

Definition ELF_MAGIC : Z := 0x464C457F.
Definition ELF_PROG_LOAD : Z := 1.

(** [struct elfhdr] and [struct proghdr], and the contents of one in a buffer. *)
Record elfhdr : Type := mk_elfhdr {
  elf_magic : Z; elf_elf : list Z; elf_type : Z; elf_machine : Z; elf_version : Z; elf_entry : Z;
  elf_phoff : Z; elf_shoff : Z; elf_flags : Z; elf_ehsize : Z; elf_phentsize : Z; elf_phnum : Z;
  elf_shentsize : Z; elf_shnum : Z; elf_shstrndx : Z
}.
Definition ELFHDR : Z := 52.
Definition get_elfhdr (b : list Z) : elfhdr :=
  mk_elfhdr (get32 b 0) (take 12 (drop 4 b)) (get16 b 16) (get16 b 18) (get32 b 20) (get32 b 24)
    (get32 b 28) (get32 b 32) (get32 b 36) (get16 b 40) (get16 b 42) (get16 b 44)
    (get16 b 46) (get16 b 48) (get16 b 50).
Record proghdr : Type := mk_proghdr {
  ph_type : Z; ph_off : Z; ph_vaddr : Z; ph_paddr : Z; ph_filesz : Z; ph_memsz : Z; ph_flags : Z; ph_align : Z
}.
Definition PROGHDR : Z := 32.
Definition get_proghdr (b : list Z) : proghdr :=
  mk_proghdr (get32 b 0) (get32 b 4) (get32 b 8) (get32 b 12) (get32 b 16) (get32 b 20) (get32 b 24) (get32 b 28).
