(* ===== verification/Exec.v ===== *)
(** * Loading programs ([src/xv6/exec.c], [loaduvm] of [src/xv6/vm.c], [sys_exec] of
    [src/xv6/sysfile.c])

    The arguments are the strings that the user pointers lead to.  A [goto bad] is the result
    [None] of the part of [exec] that fails, and the cleanup is [exec_bad]. *)

From S2P Require Import Prelude Mem CString Mmu Spinlock Sleeplock Kalloc Vm Seg Block Disk Layout Format Log Tx Fs Pipe File Proc Kern Sysfile Elf.

Definition MAXARG : nat := 32.

(** What follows the last slash of the path, by the loop that sets [last]. *)
Fixpoint last_elem (last s : list Z) : list Z :=
  match s with [] => last | c :: s' => last_elem (if c =? 47 then s' else last) s' end.

Section exec.
Context {T : Type} `{!TxOps T} `{!TxTop T} (B : board T) (me : nat) (junk : list Z).
Abbreviation KM := (M (kenv T)).
Abbreviation SM := (M (pst (kenv T))).

(** [loaduvm] *)
Fixpoint loaduvm_loop (fuel : nat) (pgdir addr : Z) (ip : nat) (offset sz i : Z) : KM Z :=
  if i <? sz then
    match fuel with
    | O => fun _ => OutOfFuel
    | S k =>
        let! pte := on_km (walkpgdir me pgdir (u32 (addr + i)) false) in
        if pte =? 0 then panic "loaduvm: address should exist" else
        let! e := on_km (ld pte) in
        let pa := PTE_ADDR e in
        let n := if sz - i <? PGSIZE then sz - i else PGSIZE in
        let! r := on_fs (readi (b_devsw B) ip (u32 (offset + i)) n) in
        on_km (modify (fun s => km_set_mem (store_bytes (km_mem s) (P2V pa) (snd r)) s)) ;;;
        if negb (u32 (fst r) =? n) then ret (-1)
        else loaduvm_loop k pgdir addr ip offset sz (u32 (i + PGSIZE))
    end
  else ret 0.
Definition loaduvm (pgdir addr : Z) (ip : nat) (offset sz : Z) : KM Z :=
  if negb (addr mod PGSIZE =? 0) then panic "loaduvm: addr must be page aligned"
  else loaduvm_loop (Z.to_nat (sz / PGSIZE + 1)) pgdir addr ip offset sz 0.

(** The loop over the program headers: the new size, or [None]. *)
Fixpoint load_segments (n : nat) (pgdir : Z) (ip : nat) (off sz : Z) : KM (option Z) :=
  match n with
  | O => ret (Some sz)
  | S k =>
      let! r := on_fs (readi (b_devsw B) ip (u32 off) PROGHDR) in
      if negb (fst r =? PROGHDR) then ret None else
      let ph := get_proghdr (snd r) in
      if negb (ph_type ph =? ELF_PROG_LOAD) then load_segments k pgdir ip (i32 (off + PROGHDR)) sz
      else if ph_memsz ph <? ph_filesz ph then ret None
      else if u32 (ph_vaddr ph + ph_memsz ph) <? ph_vaddr ph then ret None
      else
        let! sz := on_km (allocuvm (b_end B) me pgdir sz (u32 (ph_vaddr ph + ph_memsz ph))) in
        if sz =? 0 then ret None
        else if negb (ph_vaddr ph mod PGSIZE =? 0) then ret None
        else
          let! r := loaduvm pgdir (ph_vaddr ph) ip (ph_off ph) (ph_filesz ph) in
          if r <? 0 then ret None else load_segments k pgdir ip (i32 (off + PROGHDR)) sz
  end.

(** The argument strings, pushed one after the other: the stack pointer and the pointers. *)
Fixpoint push_args (pgdir : Z) (argv : list (list Z)) (argc : nat) (sp : Z) : KM (option (Z * list Z)) :=
  match argv with
  | [] => ret (Some (sp, []))
  | s :: argv =>
      if (MAXARG <=? argc)%nat then ret None else
      let sp := Z.land (u32 (sp - (Z.of_nat (length s) + 1))) 0xFFFFFFFC in
      let! r := on_km (copyout me pgdir sp (s ++ [0])) in
      if r <? 0 then ret None else
      let! rest := push_args pgdir argv (S argc) sp in
      ret ((fun x => (fst x, sp :: snd x)) <$> rest)
  end.

Definition words (l : list Z) : list Z := mjoin (bytes32 <$> l).

(** Two pages for the stack, the argument strings and the argument vector: size and stack
    pointer. *)
Definition build_stack (pgdir sz : Z) (argv : list (list Z)) : KM (option (Z * Z)) :=
  let sz := PGROUNDUP sz in
  let! sz := on_km (allocuvm (b_end B) me pgdir sz (u32 (sz + 2 * PGSIZE))) in
  if sz =? 0 then ret None else
  on_km (clearpteu me pgdir (u32 (sz - 2 * PGSIZE))) ;;;
  let! r := push_args pgdir argv 0 sz in
  match r with
  | None => ret None
  | Some (sp, ptrs) =>
      let argc := Z.of_nat (length argv) in
      let ustack := [0xffffffff; argc; u32 (sp - (argc + 1) * 4)] ++ ptrs ++ [0] in
      let sp := u32 (sp - (3 + argc + 1) * 4) in
      let! r := on_km (copyout me pgdir sp (words ustack)) in
      if r <? 0 then ret None else ret (Some (sz, sp))
  end.

(** [bad:], with [ip] while the file is still open. *)
Definition exec_bad (pgdir : Z) (ip : option nat) : SM Z :=
  (if pgdir =? 0 then ret tt else env (on_km (freevm (b_end B) me pgdir))) ;;;
  (match ip with
   | Some ip => sys_fs me (fun pid => iunlockput me pid ip) ;;; env k_end_op
   | None => ret tt
   end) ;;;
  ret (-1).

(** From the ELF header on, with the file locked: the entry point, the page directory and
    the size; or the page directory to free. *)
Definition load_image (ip : nat) : KM (Z + Z * Z * Z) :=
  let! r := on_fs (readi (b_devsw B) ip 0 ELFHDR) in
  if negb (fst r =? ELFHDR) then ret (inl 0) else
  let elf := get_elfhdr (snd r) in
  if negb (elf_magic elf =? ELF_MAGIC) then ret (inl 0) else
  let! pgdir := on_km (setupkvm (b_end B) (b_data B) me) in
  if pgdir =? 0 then ret (inl 0) else
  let! sz := load_segments (Z.to_nat (elf_phnum elf)) pgdir ip (i32 (elf_phoff elf)) 0 in
  match sz with
  | None => ret (inl pgdir)
  | Some sz => ret (inr (elf_entry elf, pgdir, sz))
  end.

(** The commit to the new image. *)
Definition commit_image (path : list Z) (entry pgdir sz sp : Z) : SM Z :=
  let! c := curproc me in
  upd c (fun p => p_set_name (name_copy (p_name p) (last_elem path path ++ [0])) p) ;;;
  let! oldpgdir := cur me p_pgdir in
  upd c (p_set_mem pgdir sz) ;;;
  upd c (fun p => p_set_tf (p_tf p) (tf_set_eip entry (p_frame p)) p) ;;;
  upd c (fun p => p_set_tf (p_tf p) (tf_set_esp sp (p_frame p)) p) ;;;
  let! kstack := cur me p_kstack in
  env (on_mach (switchuvm me (b_ts B) pgdir kstack)) ;;;
  env (on_km (freevm (b_end B) me oldpgdir)) ;;;
  ret 0.

Definition exec (path : list Z) (argv : list (list Z)) : SM Z :=
  env k_begin_op ;;;
  let! cwd := cur_cwd me in
  let! r := sys_fs me (fun pid => namei me pid (b_devsw B) cwd path junk) in
  match r with
  | None =>
      env k_end_op ;;;
      env (on_misc (modify (x_print "exec: fail\n" []))) ;;;
      ret (-1)
  | Some ip =>
      sys_fs me (fun pid => ilock me pid (Some ip)) ;;;
      let! r := env (load_image ip) in
      match r with
      | inl pgdir => exec_bad pgdir (Some ip)
      | inr (entry, pgdir, sz) =>
          sys_fs me (fun pid => iunlockput me pid ip) ;;;
          env k_end_op ;;;
          let! r := env (build_stack pgdir sz argv) in
          match r with
          | None => exec_bad pgdir None
          | Some (sz, sp) => commit_image path entry pgdir sz sp
          end
      end
  end.

(** [for(i=0;; i++)] of [sys_exec], [n] more entries. *)
Fixpoint fetch_argv (n : nat) (uargv : Z) : SM (option (list (list Z))) :=
  match n with
  | O => ret None
  | S k =>
      let! uarg := fetchint me uargv in
      match uarg with
      | None => ret None
      | Some uarg =>
          if uarg =? 0 then ret (Some []) else
          let! s := fetchstr me (u32 uarg) in
          match s with
          | None => ret None
          | Some s => let! rest := fetch_argv k (u32 (uargv + 4)) in ret (cons s <$> rest)
          end
      end
  end.

Definition sys_exec : SM Z :=
  let! path := argstr me 0 in
  match path with
  | None => ret (-1)
  | Some path =>
      let! uargv := argint me 1 in
      match uargv with
      | None => ret (-1)
      | Some uargv =>
          let! argv := fetch_argv MAXARG (u32 uargv) in
          match argv with
          | None => ret (-1)
          | Some argv => exec path argv
          end
      end
  end.
End exec.
