(* ===== verification/Sysproc.v ===== *)
(** * The process calls, the dispatch of system calls and traps
    ([src/xv6/sysproc.c], [src/xv6/syscall.c], [src/xv6/trap.c])

    A call that gives up the CPU ends in [Blocked].  The interrupt handlers of the devices
    are the record [irqs], and the routines of proc.c run on the kernel state through
    [Kern.kernel_env]. *)

From S2P Require Import Prelude Mem CString Mmu Spinlock Sleeplock Kalloc Vm Seg Block Disk Layout Format Log Tx Fs Pipe File Proc Kern Sysfile Exec.

Section sysproc.
Context {T : Type} `{!TxOps T} `{!TxTop T} (B : board T) (me : nat) (junk : list Z).
Abbreviation KM := (M (kenv T)).
Abbreviation SM := (M (pst (kenv T))).

(** A routine of proc.c, for the current process. *)
Definition sys_proc {A} (m : ProcEnv (kenv T) -> SM A) : SM A :=
  let! pid := cur me p_pid in m (kernel_env B me pid).

Definition sys_fork : SM Z := sys_proc (fun E => fork (ProcEnv0 := E) me).
Definition sys_exit : SM Z := sys_proc (fun E => exit (ProcEnv0 := E) me) ;;; ret 0.
Definition sys_wait : SM Z := sys_proc (fun E => wait (ProcEnv0 := E) me).

Definition sys_kill : SM Z :=
  let! pid := argint me 0 in
  match pid with None => ret (-1) | Some pid => kill me pid end.

Definition sys_getpid : SM Z := cur me p_pid.
Definition sys_getppid : SM Z :=
  let! p := cur me p_parent in
  match p with
  | Some i => gets (fun s => p_pid (ps_proc s i))
  | None => undefined "null parent"
  end.

Definition sys_sbrk : SM Z :=
  let! n := argint me 0 in
  match n with
  | None => ret (-1)
  | Some n =>
      let! addr := cur me p_sz in
      let! r := sys_proc (fun E => growproc (ProcEnv0 := E) me n) in
      if r <? 0 then ret (-1) else ret (i32 addr)
  end.

(** [acquire(&tickslock)] and [release(&tickslock)], with their interrupt nesting. *)
Definition ticks_acquire : SM unit :=
  modify (fun s => s_cpu me (pushcli (ps_cpu s me)) s) ;;;
  env (on_misc (acquire me x_tickslock x_set_tickslock)).
Definition ticks_unlock : KM unit := on_misc (release me x_tickslock x_set_tickslock).
Definition ticks_release : SM unit := env ticks_unlock ;;; pt_popcli me.

(** The channel [&ticks]. *)
Definition TICKS : chan := ChAddr 0.

(** [while (ticks - ticks0 < n)], with [tickslock] held, up to its end or a sleep. *)
Definition sleep_loop (ticks0 n : Z) : SM Z :=
  let! ticks := env (on_misc (gets x_ticks)) in
  if u32 (ticks - ticks0) <? u32 n then
    let! killed := cur me p_killed in
    if killed then ticks_release ;;; ret (-1)
    else sys_proc (fun E => sleep (ProcEnv0 := E) me TICKS true ticks_unlock) ;;; ret 0
  else ticks_release ;;; ret 0.
Definition sys_sleep : SM Z :=
  let! n := argint me 0 in
  match n with
  | None => ret (-1)
  | Some n =>
      ticks_acquire ;;;
      let! ticks0 := env (on_misc (gets x_ticks)) in
      sleep_loop ticks0 n
  end.

Definition sys_uptime : SM Z :=
  ticks_acquire ;;;
  let! xticks := env (on_misc (gets x_ticks)) in
  ticks_release ;;;
  ret (i32 xticks).

Definition sys_trace : SM Z :=
  let! n := argint me 0 in
  match n with
  | None => ret (-1)
  | Some n => env (on_misc (modify (x_set_trace n))) ;;; ret 0
  end.

Definition sys_answer : SM Z := ret 42.

(** [sys_pgcnt]: the loop over the page directory and, inside it, over a page table. *)
Definition pgcnt_flag : Z := Z.lor PTE_P PTE_U.
Definition pgcnt_table (m : mem) (pte : Z) (cnt : Z) : Z :=
  foldl (fun cnt j => if Z.land (load32 m (pte + 4 * j)) pgcnt_flag =? pgcnt_flag then i32 (cnt + 1) else cnt)
    cnt (seqZ 0 NPTENTRIES).
Definition pgcnt (m : mem) (pgdir : Z) : Z :=
  foldl (fun cnt i =>
      let pde := load32 m (pgdir + 4 * i) in
      if has_bit pde PTE_P then pgcnt_table m (P2V (PTE_ADDR pde)) cnt else cnt)
    0 (seqZ 0 NPDENTRIES).
Definition sys_pgcnt : SM Z :=
  let! pgdir := cur me p_pgdir in env (on_km (gets (fun s => pgcnt (km_mem s) pgdir))).

(** ** The dispatch *)

(** [syscalls], by the numbers of syscall.h, and [syscalls_names]. *)
Definition syscalls : list (option (SM Z)) :=
  [None; Some sys_fork; Some sys_exit; Some sys_wait; Some (sys_pipe B me); Some (sys_read B me);
   Some sys_kill; Some (sys_exec B me junk); Some (sys_fstat me); Some (sys_chdir B me junk); Some (sys_dup me);
   Some sys_getpid; Some sys_sbrk; Some sys_sleep; Some sys_uptime; Some (sys_open B me junk);
   Some (sys_write B me); Some (sys_mknod B me junk); Some (sys_unlink B me junk); Some (sys_link B me junk);
   Some (sys_mkdir B me junk); Some (sys_close B me); Some sys_trace; Some sys_answer; Some sys_getppid;
   Some sys_pscnt; Some sys_pgcnt].
Definition syscalls_names : list string :=
  [EmptyString; "sys_fork"; "sys_exit"; "sys_wait"; "sys_pipe"; "sys_read"; "sys_kill"; "sys_exec"; "sys_fstat";
   "sys_chdir"; "sys_dup"; "sys_getpid"; "sys_sbrk"; "sys_sleep"; "sys_uptime"; "sys_open"; "sys_write";
   "sys_mknod"; "sys_unlink"; "sys_link"; "sys_mkdir"; "sys_close"; "sys_trace"; "sys_answer"; "sys_getppid";
   "sys_pscnt"; "sys_pgcnt"].

Definition print (fmt : string) (args : list parg) : SM unit := env (on_misc (modify (x_print fmt args))).

(** [curproc->tf->eax = x] *)
Definition set_eax (c : nat) (x : Z) : SM unit :=
  upd c (fun p => p_set_tf (p_tf p) (tf_set_eax (u32 x) (p_frame p)) p).

Definition syscall : SM unit :=
  let! c := curproc me in
  let! eax := cur me (fun p => tf_eax (p_frame p)) in
  let num := i32 eax in
  match (if (0 <? num) && (num <? Z.of_nat (length syscalls)) then mjoin (syscalls !! Z.to_nat num) else None) with
  | Some call =>
      let! r := call in
      set_eax c r ;;;
      let! trace := env (on_misc (gets x_trace)) in
      if 0 <? trace then
        let! eax := gets (fun s => tf_eax (p_frame (ps_proc s c))) in
        print "[%d] %s: %d\n" [PInt num; PName (default EmptyString (syscalls_names !! Z.to_nat num)); PInt (i32 eax)]
      else ret tt
  | None =>
      let! p := gets (fun s => ps_proc s c) in
      print "%d %s: unknown sys call %d\n" [PInt (p_pid p); PStr (until_zero (p_name p)); PInt num] ;;;
      set_eax c (-1)
  end.

(** ** Traps *)

Definition T_IRQ0 : Z := 32.
Definition IRQ_TIMER : Z := 0.
Definition IRQ_KBD : Z := 1.
Definition IRQ_COM1 : Z := 4.
Definition IRQ_IDE : Z := 14.
Definition IRQ_SPURIOUS : Z := 31.

(** The handlers of the device drivers, and the fault address [rcr2()]. *)
Record irqs : Type := mk_irqs { q_ide : SM unit; q_kbd : SM unit; q_uart : SM unit; q_eoi : SM unit; q_cr2 : Z }.

Definition is_user (tf : trapframe) : bool := Z.land (tf_cs tf) 3 =? DPL_USER.

(** [if(myproc() && myproc()->killed && (tf->cs&3) == DPL_USER) exit();] *)
Definition exit_if_killed (tf : trapframe) : SM unit :=
  let! p := myproc me in
  match p with
  | Some i =>
      let! killed := gets (fun s => p_killed (ps_proc s i)) in
      if killed && is_user tf then sys_proc (fun E => exit (ProcEnv0 := E) me) else ret tt
  | None => ret tt
  end.

(** The clock tick of CPU 0. *)
Definition tick : SM unit :=
  ticks_acquire ;;;
  env (on_misc (modify (fun m => x_set_ticks (u32 (x_ticks m + 1)) m))) ;;;
  wakeup me TICKS ;;;
  ticks_release.

Definition trap_switch (q : irqs) (tf : trapframe) : SM unit :=
  let t := tf_trapno tf in
  if t =? T_IRQ0 + IRQ_TIMER then (if (me =? 0)%nat then tick else ret tt) ;;; q_eoi q
  else if t =? T_IRQ0 + IRQ_IDE then q_ide q ;;; q_eoi q
  else if t =? T_IRQ0 + IRQ_IDE + 1 then ret tt
  else if t =? T_IRQ0 + IRQ_KBD then q_kbd q ;;; q_eoi q
  else if t =? T_IRQ0 + IRQ_COM1 then q_uart q ;;; q_eoi q
  else if (t =? T_IRQ0 + 7) || (t =? T_IRQ0 + IRQ_SPURIOUS) then
    print "cpu%d: spurious interrupt at %x:%x\n" [PInt (Z.of_nat me); PInt (tf_cs tf); PInt (tf_eip tf)] ;;; q_eoi q
  else
    let! p := myproc me in
    match p with
    | Some i =>
        if Z.land (tf_cs tf) 3 =? 0 then
          print "unexpected trap %d from cpu %d eip %x (cr2=0x%x)\n" [PInt t; PInt (Z.of_nat me); PInt (tf_eip tf); PInt (q_cr2 q)] ;;;
          panic "trap"
        else
          let! p := gets (fun s => ps_proc s i) in
          print "pid %d %s: trap %d err %d on cpu %d eip 0x%x addr 0x%x--kill proc\n"
            [PInt (p_pid p); PStr (until_zero (p_name p)); PInt t; PInt (tf_err tf); PInt (Z.of_nat me); PInt (tf_eip tf); PInt (q_cr2 q)] ;;;
          upd i (p_set_killed true)
    | None =>
        print "unexpected trap %d from cpu %d eip %x (cr2=0x%x)\n" [PInt t; PInt (Z.of_nat me); PInt (tf_eip tf); PInt (q_cr2 q)] ;;;
        panic "trap"
    end.

(** [trap(tf)]; [a] is the address of the trap frame. *)
Definition trap (q : irqs) (a : Z) (tf : trapframe) : SM unit :=
  if tf_trapno tf =? T_SYSCALL then
    let! killed := cur me p_killed in
    (if killed then sys_proc (fun E => exit (ProcEnv0 := E) me) else ret tt) ;;;
    let! c := curproc me in
    upd c (p_set_tf a tf) ;;;
    syscall ;;;
    let! killed := cur me p_killed in
    if killed then sys_proc (fun E => exit (ProcEnv0 := E) me) else ret tt
  else
    trap_switch q tf ;;;
    exit_if_killed tf ;;;
    let! p := myproc me in
    (match p with
     | Some i =>
         let! st := gets (fun s => p_state (ps_proc s i)) in
         if bool_decide (st = RUNNING) && (tf_trapno tf =? T_IRQ0 + IRQ_TIMER) then sys_proc (fun E => yield (ProcEnv0 := E) me) else ret tt
     | None => ret tt
     end) ;;;
    exit_if_killed tf.
End sysproc.
