(* ===== verification/KernProps.v ===== *)
(** * Properties of the system calls

    The arguments that the kernel takes from user memory lie inside the process, and
    [sys_pgcnt] counts the pages of the process. *)

From S2P Require Import Prelude Mem CString Mmu Spinlock Sleeplock Kalloc Vm VmSpec VmOps VmProps Seg Block Disk Layout Format Log Tx Fs Pipe File Proc Kern Sysfile Exec Sysproc.

(** ** [sys_pgcnt] *)

Lemma land_low e f : 0 <= f < 8 -> Z.land e f = Z.land (e mod 8) f.
Proof.
  intros Hf. change 8 with (2 ^ 3). rewrite <-Z.land_ones by lia. rewrite <-Z.land_assoc. f_equal. change (Z.ones 3) with 7.
  assert (f = 0 \/ f = 1 \/ f = 2 \/ f = 3 \/ f = 4 \/ f = 5 \/ f = 6 \/ f = 7) as Hc by lia. by repeat destruct Hc as [->|Hc]; subst.
Qed.

Lemma flag_bits e : (Z.land e pgcnt_flag =? pgcnt_flag) = has_bit e PTE_P && has_bit e PTE_U.
Proof.
  unfold has_bit. change pgcnt_flag with 5. rewrite (land_low e 5), (land_low e PTE_P), (land_low e PTE_U) by (unfold PTE_P, PTE_U; lia).
  pose proof (Z.mod_pos_bound e 8 ltac:(lia)) as Hm. generalize dependent (e mod 8). intros x Hx.
  assert (x = 0 \/ x = 1 \/ x = 2 \/ x = 3 \/ x = 4 \/ x = 5 \/ x = 6 \/ x = 7) as Hc by lia. by repeat destruct Hc as [->|Hc]; subst.
Qed.

(** Counting with a 32-bit counter. *)
Lemma foldl_count (P : Z -> bool) l c : 0 <= c -> c + Z.of_nat (length l) < 2147483648 ->
  foldl (fun cnt j => if P j then i32 (cnt + 1) else cnt) c l = c + Z.of_nat (length (List.filter P l)).
Proof.
  revert c. induction l as [|x l IH]; intros c Hc Hl; simpl in *; [lia|]. destruct (P x); simpl; [|apply IH; lia].
  rewrite i32_small by lia. rewrite IH by lia. lia.
Qed.

Lemma filter_fmap_length {A B} (f : A -> B) (P : B -> bool) l : length (List.filter P (f <$> l)) = length (List.filter (fun x => P (f x)) l).
Proof. induction l as [|x l IH]; simpl; [done|]. destruct (P (f x)); simpl; [f_equal|]; exact IH. Qed.

Lemma filter_ext_in {A} (P Q : A -> bool) l : (forall x, x ∈ l -> P x = Q x) -> List.filter P l = List.filter Q l.
Proof.
  intros H. induction l as [|x l IH]; [done|]. simpl. rewrite (H x) by (apply elem_of_cons; by left).
  rewrite IH; [done|]. intros y Hy. apply H. apply elem_of_cons. by right.
Qed.

Section count.
Context (m : mem) (pd : Z) (tabs us ks : gmap Z Z) (kend : Z).
Context (Hrep : pgrep m pd tabs us ks) (Hok : Forall (page_ok kend) (tpages tabs)).

(** Page [n] is mapped for the user. *)
Definition user_mapped (n : Z) : bool := match (us ∪ ks) !! n with Some e => has_bit e PTE_U | None => false end.

Lemma pgcnt_table_counts i c : 0 <= i < 1024 -> 0 <= c -> c + 1024 < 2147483648 ->
  (let pde := load32 m (pd + 4 * i) in if has_bit pde PTE_P then pgcnt_table m (P2V (PTE_ADDR pde)) c else c) =
  c + Z.of_nat (length (List.filter user_mapped (seqZ (1024 * i) 1024))).
Proof.
  intros Hi Hc Hb. cbv zeta. rewrite (pr_pd _ _ _ _ _ Hrep) by done.
  assert (Eseq : seqZ (1024 * i) 1024 = Z.add (1024 * i) <$> seqZ 0 1024).
  { rewrite <-(Z.add_0_r (1024 * i)) at 1. by rewrite fmap_add_seqZ. }
  rewrite Eseq, filter_fmap_length. destruct (tabs !! i) as [t|] eqn:Ht.
  - rewrite Forall_forall in Hok. pose proof (Hok _ (elem_tpages _ _ _ Ht)) as Htok.
    destruct (pde_page kend t Htok) as (_ & Hp & Ha & _). unfold page_of in Ha. rewrite Hp, Ha.
    unfold pgcnt_table. rewrite foldl_count by (rewrite ?length_seqZ; unfold NPTENTRIES; lia).
    do 2 f_equal. f_equal. apply filter_ext_in. intros j Hj%elem_of_seqZ. unfold NPTENTRIES in Hj. rewrite flag_bits.
    rewrite (pr_pt _ _ _ _ _ Hrep i t j Ht) by lia. unfold user_mapped. destruct ((us ∪ ks) !! (1024 * i + j)) as [e|] eqn:E; [|done].
    simpl. destruct (pr_entry _ _ _ _ _ Hrep _ _ E) as (_ & _ & Hb'). unfold id. by rewrite Hb'.
  - change (has_bit 0 PTE_P) with false. cbv iota. rewrite (filter_ext_in _ (fun _ => false)).
    + assert (Hnil : forall l : list Z, List.filter (fun _ => false) l = []) by (induction l; done). rewrite Hnil. simpl. lia.
    + intros j Hj%elem_of_seqZ. unfold user_mapped. destruct ((us ∪ ks) !! (1024 * i + j)) as [e|] eqn:E; [|done].
      destruct (pr_entry _ _ _ _ _ Hrep _ _ E) as ([t Ht'] & _). replace ((1024 * i + j) / 1024) with i in Ht' by zlia. congruence.
Qed.

Lemma pgcnt_upto k : (k <= 1024)%nat ->
  foldl (fun cnt i => let pde := load32 m (pd + 4 * i) in if has_bit pde PTE_P then pgcnt_table m (P2V (PTE_ADDR pde)) cnt else cnt)
    0 (seqZ 0 (Z.of_nat k)) = Z.of_nat (length (List.filter user_mapped (seqZ 0 (1024 * Z.of_nat k)))).
Proof.
  induction k as [|k IH]; intros Hk; [done|]. replace (Z.of_nat (S k)) with (Z.of_nat k + 1) by lia.
  rewrite seqZ_app, foldl_app, IH by lia. rewrite Z.add_0_l. rewrite (seqZ_cons (Z.of_nat k) 1) by lia. change (seqZ (Z.succ (Z.of_nat k)) (Z.pred 1)) with (@nil Z).
  cbn [foldl]. rewrite pgcnt_table_counts; [|lia|lia|].
  - replace (1024 * (Z.of_nat k + 1)) with (1024 * Z.of_nat k + 1024) by lia. rewrite (seqZ_app 0) by lia.
    rewrite List.filter_app, length_app, Z.add_0_l. lia.
  - pose proof (List.filter_length_le user_mapped (seqZ 0 (1024 * Z.of_nat k))) as Hl. rewrite length_seqZ in Hl. lia.
Qed.

Lemma pgcnt_total : pgcnt m pd = Z.of_nat (length (List.filter user_mapped (seqZ 0 1048576))).
Proof. unfold pgcnt. exact (pgcnt_upto 1024 ltac:(lia)). Qed.
End count.

(** ** Reading the user's arguments *)

Section args.
Context {T : Type} `{!TxOps T} `{!TxTop T} (me : nat).

(** The memory of the kernel, and the byte of a user address. *)
Definition kmem_of (s : pst (kenv T)) : kmem := k_km (ps_env s).
Definition uread (s : pst (kenv T)) (pgdir a : Z) : option Z :=
  (fun x => km_mem (kmem_of s) x) <$> translate (km_mem (kmem_of s)) pgdir a false.

Lemma post_cur {A} (f : proc -> A) c s Q R : ps_run s me = Some c -> Q (f (ps_proc s c)) s -> post (cur (T := T) me f) Q R s.
Proof. intros Hc HQ. unfold cur, curproc, myproc. post_steps. rewrite Hc. by post_steps. Qed.

(** An operation on the pages that changes nothing. *)
Lemma post_kmem {A} (m : M kmem A) s Q R : post m (fun a k => k = kmem_of s /\ Q a s) (fun _ => False) (kmem_of s) ->
  post (env (on_km (T := T) m)) Q R s.
Proof.
  unfold post, env, on_km, zoom. fold (kmem_of s). destruct (m (kmem_of s)) as [a k| | |]; try done.
  intros [-> HQ]. unfold kmem_of, s_env. destruct s as [? ? ? ? ? ? ? ? e]. by destruct e.
Qed.

Lemma post_umem {A} (f : Z -> M kmem A) c s Q R : ps_run s me = Some c ->
  post (f (p_pgdir (ps_proc s c))) (fun a k => k = kmem_of s /\ Q a s) (fun _ => False) (kmem_of s) ->
  post (umem (T := T) me f) Q R s.
Proof. intros Hc Hf. unfold umem. post_step. apply (post_cur _ c); [done|]. by apply post_kmem. Qed.

Lemma post_uload8 pgdir a k (Q : Z -> kmem -> Prop) :
  (forall x, translate (km_mem k) pgdir a false = Some x -> Q (km_mem k x) k) -> post (u_load8 pgdir a) Q (fun _ => False) k.
Proof. intros HQ. unfold u_load8. post_steps. destruct (translate _ _ _ _) eqn:E; post_steps. by apply HQ. Qed.

Lemma post_uload pgdir n : forall a k, post (u_load pgdir a n) (fun _ k' => k' = k) (fun _ => False) k.
Proof.
  induction n as [|n IH]; intros a k; cbn [u_load]; post_steps; [done|]. apply post_uload8. intros x _. post_step.
  eapply post_mono; [apply IH| |done]. intros l k' ->. by post_steps.
Qed.

Lemma post_argint n c s (Q : option Z -> pst (kenv T) -> Prop) R :
  ps_run s me = Some c -> (forall r, Q r s) -> post (argint me n) Q R s.
Proof.
  intros Hc HQ. unfold argint, fetchint. post_step. apply (post_cur _ c); [done|]. post_step. apply (post_cur _ c); [done|].
  destruct (_ || _); post_steps; [apply HQ|]. apply (post_umem _ c); [done|].
  eapply post_mono; [apply post_uload| |done]. intros l k ->. split; [done|]. by post_steps.
Qed.

(** The bytes of a string in user memory. *)
Definition ustring (s : pst (kenv T)) (pgdir a : Z) (str : list Z) : Prop :=
  0 ∉ str /\ forall k b, (str ++ [0]) !! k = Some b -> uread s pgdir (a + Z.of_nat k) = Some b.

Lemma post_fetchstr_loop s pgdir n : forall a, post (fetchstr_loop n pgdir a) (fun r k => k = kmem_of s /\
  match r with Some str => (length str < n)%nat /\ ustring s pgdir a str | None => True end) (fun _ => False) (kmem_of s).
Proof.
  induction n as [|n IH]; intros a; cbn [fetchstr_loop]; post_steps; [done|]. apply post_uload8. intros x Hx.
  assert (Hu : uread s pgdir a = Some (km_mem (kmem_of s) x)) by (unfold uread; by rewrite Hx).
  destruct (Z.eqb_spec (km_mem (kmem_of s) x) 0) as [E|E]; post_steps.
  - split; [done|]. split; [simpl; lia|]. split; [set_solver|]. intros [|k] b Hb; simpl in Hb; [|done].
    injection Hb as <-. replace (a + Z.of_nat 0) with a by lia. by rewrite Hu, E.
  - eapply post_mono; [apply IH| |done]. intros [str|] k [-> Hs]; post_steps; simpl; [|done].
    destruct Hs as (Hl & Hz & Hb). split; [done|]. split; [lia|]. split; [rewrite elem_of_cons; intros [?|?]; [congruence|done]|].
    intros [|k] b Hk; simpl in Hk.
    + injection Hk as <-. by replace (a + Z.of_nat 0) with a by lia.
    + replace (a + Z.of_nat (S k)) with (a + 1 + Z.of_nat k) by lia. by apply Hb.
Qed.

(** C20: Whatever the user passes, a pointer argument that the kernel accepts spans bytes of the
    process only, a string argument is the bytes at some address of the process up to a 0
    inside it, and fetching them changes nothing. *)
Theorem args_in_process (s : pst (kenv T)) (c : nat) (n size : Z) :
  ps_run s me = Some c -> 0 <= p_sz (ps_proc s c) <= KERNBASE -> size < 2147483648 ->
  post (argptr me n size) (fun r s' => s' = s /\ forall p, r = Some p -> 0 <= p /\ 0 <= size /\ p + size <= p_sz (ps_proc s c))
    (fun _ => False) s /\
  post (argstr me n) (fun r s' => s' = s /\ forall str, r = Some str -> exists a, 0 <= a /\
      a + Z.of_nat (length str) < p_sz (ps_proc s c) /\ ustring s (p_pgdir (ps_proc s c)) a str) (fun _ => False) s.
Proof.
  intros Hc Hsz Hsize. unfold KERNBASE in Hsz. split.
  - unfold argptr. post_step. apply (post_argint _ c); [done|]. intros [i|]; [|by post_steps]. post_step. apply (post_cur _ c); [done|].
    pose proof (u32_range i) as Hi. destruct (Z.ltb_spec size 0), (Z.leb_spec (p_sz (ps_proc s c)) (u32 i)),
      (Z.ltb_spec (p_sz (ps_proc s c)) (u32 (u32 i + size))); cbn [orb]; post_steps; split; try done.
    intros p [= <-]. rewrite u32_small in * by (unfold W32 in *; lia). lia.
  - unfold argstr. post_step. apply (post_argint _ c); [done|]. intros [i|]; [|by post_steps]. unfold fetchstr. post_step.
    apply (post_cur _ c); [done|]. pose proof (u32_range i) as Hi. destruct (Z.leb_spec (p_sz (ps_proc s c)) (u32 i)); [by post_steps|].
    apply (post_umem _ c); [done|]. eapply post_mono; [apply (post_fetchstr_loop s)| |done]. intros r k [-> Hr]. split; [done|].
    split; [done|]. intros str ->. destruct Hr as [Hl Hu]. exists (u32 i). split_and!; [lia|lia|done].
Qed.

(** [sys_pgcnt] returns the number of pages that the process can use, and changes nothing. *)
Theorem pgcnt_counts (s : pst (kenv T)) (c : nat) (kend : Z) (tabs us ks : gmap Z Z) :
  ps_run s me = Some c -> pgrep (km_mem (kmem_of s)) (p_pgdir (ps_proc s c)) tabs us ks ->
  Forall (page_ok kend) (tpages tabs) -> (forall n e, ks !! n = Some e -> has_bit e PTE_U = false) ->
  wp (sys_pgcnt me) (fun r s' => s' = s /\ r = Z.of_nat (size (filter (fun ne => has_bit ne.2 PTE_U = true) us))) s.
Proof.
  intros Hc Hrep Hok Hks. unfold sys_pgcnt, cur, curproc, myproc. wp_steps. rewrite Hc. wp_steps. unfold env, on_km. wp_steps.
  split; [destruct s as [? ? ? ? ? ? ? ? e]; by destruct e|]. fold (kmem_of s).
  rewrite (pgcnt_total _ _ _ _ _ _ Hrep Hok). f_equal. rewrite <-size_dom.
  rewrite <-(length_fmap id), list_fmap_id, <-(size_list_to_set (C := gset Z)).
  - f_equal. apply set_eq. intros n. rewrite elem_of_list_to_set, list_elem_of_In, List.filter_In, <-list_elem_of_In, elem_of_seqZ, elem_of_dom.
    unfold is_Some. setoid_rewrite map_lookup_filter_Some. unfold user_mapped. simpl. split.
    + intros [Hn Hu]. destruct ((us ∪ ks) !! n) as [e|] eqn:E; [|done]. exists e. split; [|done].
      apply lookup_union_Some_raw in E as [E|[_ E]]; [done|]. apply Hks in E. congruence.
    + intros (e & He & Hu). rewrite (lookup_union_Some_l _ _ _ _ He). pose proof (pr_us _ _ _ _ _ Hrep _ _ He) as Hn. unfold UPN in Hn. split; [lia|done].
  - apply NoDup_ListNoDup, List.NoDup_filter, NoDup_ListNoDup, NoDup_seqZ.
Qed.
End args.

(** ** A small kernel: one process with the address space of [VmProps] *)

Definition demo_tabs_tx : Tx.tabs := mk_tabs 0 (fun _ => []) ∅ ∅ 0.
Definition demo_kenv : kenv Tx.tabs :=
  mk_kenv demo_kmem (mk_fs demo_tabs_tx (mk_superblock 0 0 0 0 0 0 0) initlock (fun _ => mk_inode 0 0 0 initsleeplock false (mk_dinode 0 0 0 0 0 [])) [])
    initlock (fun _ => mk_file FD_NONE 0 false false 0 None 0) (fun _ => new_pipe []) (mk_mach (fun _ => mk_hw [] (mk_ts 0 0 0) None None 0 0) 0)
    (mk_misc 0 initlock 0 []).
Definition demo_proc : proc :=
  mk_proc 4096 (pg 0) 0 RUNNING 1 None 0 (tf_set_esp 4064 zero_tf) 0 KForkret ChNone false (repeat 0 16) 0 (repeat 0 16).
Definition demo_pst : pst (kenv Tx.tabs) :=
  mk_pst initlock (fun _ => demo_proc) None 2 (fun _ => mk_cpu 0 0 false false) (fun _ => Some 0%nat) (fun _ => 0%nat) false demo_kenv.

Lemma args_in_process_witness :
  post (argptr 0 0 8) (fun r s' => s' = demo_pst /\ forall p, r = Some p -> 0 <= p /\ p + 8 <= 4096) (fun _ => False) demo_pst.
Proof.
  pose proof (args_in_process 0 demo_pst 0 0 8 eq_refl ltac:(unfold KERNBASE; cbn; lia) ltac:(lia)) as [H _].
  eapply post_mono; [exact H| |intros s' []].
  intros r s' [-> Hp]. split; [reflexivity|]. intros p Hr. destruct (Hp p Hr) as (H1 & _ & H2). split; [exact H1|exact H2].
Defined.

Lemma pgcnt_counts_witness : wp (sys_pgcnt 0) (fun r s' => s' = demo_pst /\ r = 1) demo_pst.
Proof.
  eapply wp_mono.
  - apply (pgcnt_counts 0 demo_pst 0 demo_kend demo_tabs demo_us ∅); [reflexivity|exact demo_rep| |].
    + exact (proj1 (proj1 (Forall_app _ _ _) (proj2 (proj1 (Forall_cons _ _ _) (ot_ok _ _ _ _ _ _ _ (proj1 (vrep_other _ _ _ _ _ _ _ _ demo_vrep))))))).
    + intros n e He. by rewrite lookup_empty in He.
  - intros r s' [-> ->]. split; reflexivity.
Defined.
