(* ===== verification/FileProps.v ===== *)
(** * The life of open files and pipes

    References to open files are handed out by [filealloc], [filedup] and [pipealloc] and
    given back with [fileclose].  Over any sequence of such calls, and of reads and writes,
    the reference counts are the numbers of references handed out, and the page of a pipe
    is in use exactly as long as a file for one of its ends is open. *)

From S2P Require Import Prelude Mem Spinlock Sleeplock Kalloc VmSpec VmOps VmProps Block Disk Bio Layout Format Log Tx TxIdeal Fs Pipe Vm Seg File Proc Kern Sysfile KernProps.

Definition refcount (f : nat) (refs : list nat) : Z := Z.of_nat (count_occ Nat.eq_dec refs f).

Lemma refcount_cons f g refs : refcount f (g :: refs) = refcount f refs + (if decide (g = f) then 1 else 0).
Proof.
  unfold refcount. destruct (decide (g = f)) as [->|Hne]; [rewrite count_occ_cons_eq by done|rewrite count_occ_cons_neq by done]; lia.
Qed.
Lemma refcount_perm f r r' : r ≡ₚ r' -> refcount f r = refcount f r'.
Proof. intros Hp. unfold refcount. by rewrite (proj1 (Permutation_count_occ Nat.eq_dec r r') Hp f). Qed.
Lemma refcount_nonneg f r : 0 <= refcount f r <= Z.of_nat (length r).
Proof. unfold refcount. pose proof (count_occ_bound Nat.eq_dec f r). lia. Qed.
Lemma refcount_in f r : f ∈ r <-> 0 < refcount f r.
Proof. unfold refcount. rewrite list_elem_of_In, (count_occ_In Nat.eq_dec). lia. Qed.

Section fileprops.
Context {T : Type} `{!TxOps T} `{!TxTop T} (kend : Z) (me : nat) (pid : Z).

(** File [f] is the read or the write end of the pipe [p]. *)
Record is_end (s : kenv T) (f : nat) (p : Z) (writable : bool) : Prop := mk_is_end {
  ie_type : fl_type (k_file s f) = FD_PIPE;
  ie_pipe : fl_pipe (k_file s f) = p;
  ie_writable : fl_writable (k_file s f) = writable
}.

(** The files of the two ends of each pipe in use. *)
Abbreviation ends := (gmap Z (option nat * option nat))%type.

Definition end_of (e : option nat * option nat) (writable : bool) : option nat := if writable then snd e else fst e.

Record pipe_inv (s : kenv T) (refs : list nat) (p : Z) (e : option nat * option nat) : Prop := mk_pipe_inv {
  pv_lock : pi_lock (k_pipe s p) = initlock;
  pv_open : pi_readopen (k_pipe s p) = bool_decide (is_Some (fst e)) /\ pi_writeopen (k_pipe s p) = bool_decide (is_Some (snd e));
  pv_used : is_Some (fst e) \/ is_Some (snd e);
  pv_end w f : end_of e w = Some f -> f ∈ refs /\ is_end s f p w
}.

Definition pipe_pages (es : ends) : list Z := (map_to_list es).*1.

Record finv (h : list Z) (s : kenv T) (refs : list nat) (es : ends) (l : list Z) : Prop := mk_finv {
  fi_lock : k_flock s = initlock;
  fi_range f : f ∈ refs -> (f < NFILE)%nat;
  fi_count f : (f < NFILE)%nat -> fl_ref (k_file s f) = refcount f refs;
  fi_free f : (f < NFILE)%nat -> f ∉ refs -> fl_type (k_file s f) = FD_NONE;
  fi_pipe p e : es !! p = Some e -> pipe_inv s refs p e;
  fi_end f : f ∈ refs -> fl_type (k_file s f) = FD_PIPE ->
    exists e, es !! fl_pipe (k_file s f) = Some e /\ end_of e (fl_writable (k_file s f)) = Some f;
  fi_pages : krep kend (k_km s) (h ++ pipe_pages es) l
}.

(** ** Changes that do not matter *)

(** [s'] differs from [s] only in the file system, the machine and in fields of files that
    are not their reference count, type or pipe end. *)
Record same_files (s s' : kenv T) : Prop := mk_same_files {
  sf_km : k_km s' = k_km s;
  sf_lock : k_flock s' = k_flock s;
  sf_pipe p : pi_lock (k_pipe s p) = initlock -> pi_lock (k_pipe s' p) = initlock /\
    pi_readopen (k_pipe s' p) = pi_readopen (k_pipe s p) /\ pi_writeopen (k_pipe s' p) = pi_writeopen (k_pipe s p);
  sf_file f : fl_ref (k_file s' f) = fl_ref (k_file s f) /\ fl_type (k_file s' f) = fl_type (k_file s f) /\
    fl_pipe (k_file s' f) = fl_pipe (k_file s f) /\ fl_writable (k_file s' f) = fl_writable (k_file s f)
}.

#[local] Instance same_files_pre : PreOrder same_files.
Proof.
  split; [by split|]. intros s1 s2 s3 [A1 A2 A3 A4] [B1 B2 B3 B4]. split; try congruence.
  - intros p Hl. destruct (A3 p Hl) as (L & R & W). destruct (B3 p L) as (L' & R' & W'). split_and!; congruence.
  - intros f. destruct (A4 f) as (? & ? & ? & ?), (B4 f) as (? & ? & ? & ?). split_and!; congruence.
Qed.

Lemma is_end_same s s' f p w : same_files s s' -> is_end s f p w -> is_end s' f p w.
Proof. intros [_ _ _ Hf] [E1 E2 E3]. destruct (Hf f) as (_ & Ht & Hp & Hw). split; congruence. Qed.

Lemma finv_same h s s' refs es l : same_files s s' -> finv h s refs es l -> finv h s' refs es l.
Proof.
  intros Hs [F1 F2 F3 F4 F5 F6 F7]. pose proof Hs as [S1 S2 S3 S4]. split; try congruence; try done.
  - intros f Hf. destruct (S4 f) as (-> & _). auto.
  - intros f Hf Hn. destruct (S4 f) as (_ & -> & _). auto.
  - intros p e He. destruct (F5 p e He) as [P1 [P2 P3] P4 P5]. destruct (S3 p P1) as (L & R & W).
    split; [done|by rewrite R, W|done|]. intros w f Hf. destruct (P5 w f Hf) as [? ?]. split; [done|]. by eapply is_end_same.
  - intros f Hf. destruct (S4 f) as (_ & -> & -> & ->). auto.
Qed.

(** The operations of the file system. *)
Lemma same_files_fs {A} (m : M (fs T) A) : keeps same_files (on_fs m).
Proof. apply keeps_zoom. intros t s. by split. Qed.

Lemma same_files_fset f g : (forall x, fl_ref (g x) = fl_ref x /\ fl_type (g x) = fl_type x /\ fl_pipe (g x) = fl_pipe x /\
  fl_writable (g x) = fl_writable x) -> keeps same_files (fset (T := T) f g).
Proof.
  intros Hg. apply (keeps_modify _). intros s. split; try done. intros i. simpl.
  destruct (decide (i = f)) as [->|Hne]; [rewrite fupd_eq; apply Hg|by rewrite fupd_ne].
Qed.

(** Reading and writing a pipe keeps its ends and gives its lock back. *)
Definition same_ends (p p' : pipe) : Prop :=
  pi_lock p' = initlock /\ pi_readopen p' = pi_readopen p /\ pi_writeopen p' = pi_writeopen p.
Definition held_pipe (p : pipe) : Prop := pi_lock p = mk_spinlock 1 (Some me).

Lemma post_piperead_loop n : forall acc p, held_pipe p -> post (piperead_loop n acc)
  (fun _ p' => held_pipe p' /\ pi_readopen p' = pi_readopen p /\ pi_writeopen p' = pi_writeopen p) (fun _ => False) p.
Proof.
  induction n as [|n IH]; intros acc p Hp; cbn [piperead_loop]; post_steps; [done|]. destruct (_ =? _); post_steps; [done|].
  apply (IH _ (pi_pop p)). done.
Qed.
Lemma post_piperead killed n p : pi_lock p = initlock -> post (piperead me killed n) (fun _ => same_ends p) (same_ends p) p.
Proof.
  intros Hp. unfold piperead. post_step. apply post_acquire; [done|]. post_steps. destruct (_ && _).
  - destruct killed; post_steps; (apply post_release; [done|]); by post_steps.
  - post_steps. eapply post_mono; [by apply post_piperead_loop| |done]. intros l p' (Hh & Hr & Hw). post_steps.
    apply post_release; [done|]. by post_steps.
Qed.
Lemma post_pipewrite killed addr i p : pi_lock p = initlock -> post (pipewrite me killed addr i) (fun _ => same_ends p) (same_ends p) p.
Proof.
  intros Hp. unfold pipewrite. post_step. apply post_acquire; [done|]. generalize (Z.of_nat (length addr)), (drop (Z.to_nat i) addr).
  intros n l. set (p1 := pi_set_lock _ p).
  assert (Hh : held_pipe p1) by done. assert (He : pi_readopen p1 = pi_readopen p /\ pi_writeopen p1 = pi_writeopen p) by done.
  clearbody p1. revert i p1 Hh He. induction l as [|b l IH]; intros i p1 Hh He; cbn [pipewrite_loop]; post_steps.
  - apply post_release; [done|]. by post_steps.
  - destruct (_ =? _); post_steps; [|by apply IH]. destruct (_ || _); post_steps; (apply post_release; [done|]); by post_steps.
Qed.

(** An operation on one pipe. *)
Lemma same_files_pipe {A} p (m : M pipe A) s : pi_lock (k_pipe s p) = initlock ->
  post m (fun _ => same_ends (k_pipe s p)) (same_ends (k_pipe s p)) (k_pipe s p) ->
  post (on_pipe p m) (fun _ => same_files s) (same_files s) s.
Proof.
  intros Hl. unfold post, on_pipe, zoom.
  assert (Hk : forall x, same_ends (k_pipe s p) x -> same_files s (k_put_pipe p x s)).
  { intros x (L & R & W). split; try done. intros q Hq. simpl. by destruct (Z.eqb_spec q p) as [->|]. }
  destruct (m (k_pipe s p)); auto.
Qed.

(** Reads and writes by the holder of a reference. *)
Lemma post_fileread (devsw : Z -> dev_ops (T := T)) killed f n h s refs es l : finv h s refs es l -> f ∈ refs ->
  post (fileread me pid devsw killed f n) (fun _ => same_files s) (same_files s) s.
Proof.
  intros F Hf. unfold fileread, fget. post_steps. destruct (negb _); [by post_steps|]. destruct (fl_type (k_file s f)) eqn:Ht; [by post_steps| |].
  - unfold read_pipe. post_step. destruct (fi_end _ _ _ _ _ F f Hf Ht) as (e & He & _). destruct (fi_pipe _ _ _ _ _ F _ _ He) as [Hl _ _ _].
    eapply post_mono; [apply same_files_pipe; [exact Hl|by apply post_piperead]| |done].
    intros [[r|]|r] s' Hs'; post_steps; done.
  - refine ((_ : keeps same_files _) s). unfold inode_of. keeps_steps; try apply same_files_fs; by apply same_files_fset.
Qed.
Lemma post_filewrite (devsw : Z -> dev_ops (T := T)) killed f src n h s refs es l : finv h s refs es l -> f ∈ refs ->
  post (filewrite me pid devsw killed f src n) (fun _ => same_files s) (same_files s) s.
Proof.
  intros F Hf. unfold filewrite, fget. post_steps. destruct (negb _); [by post_steps|]. destruct (fl_type (k_file s f)) eqn:Ht; [by post_steps| |].
  - unfold write_pipe. post_step. destruct (fi_end _ _ _ _ _ F f Hf Ht) as (e & He & _). destruct (fi_pipe _ _ _ _ _ F _ _ He) as [Hl _ _ _].
    eapply post_mono; [apply same_files_pipe; [exact Hl|by apply post_pipewrite]| |done].
    intros [r|r] s' Hs'; post_steps; done.
  - refine ((_ : keeps same_files _) s). keeps_steps. generalize (Z.to_nat n). intros fuel. generalize 0.
    induction fuel as [|fuel IH]; intros i; cbn [filewrite_loop]; unfold k_begin_op, k_end_op, inode_of, fget; keeps_steps;
      try apply same_files_fs; try (by apply same_files_fset); apply IH.
Qed.

(** ** Allocation and release of references *)

Definition put_file (f : nat) (g : file -> file) (s : kenv T) : kenv T :=
  mk_kenv (k_km s) (k_fs s) (k_flock s) (fupd (k_file s) f (g (k_file s f))) (k_pipe s) (k_mach s) (k_misc s).

Lemma post_fset f g s (Q : unit -> kenv T -> Prop) R : Q tt (put_file f g s) -> post (fset f g) Q R s.
Proof. done. Qed.
Lemma put_file_put_file f g h s : put_file f h (put_file f g s) = put_file f (fun x => h (g x)) s.
Proof. unfold put_file. cbn [k_km k_fs k_flock k_file k_pipe k_mach k_misc]. by rewrite fupd_fupd, fupd_eq. Qed.

Lemma wp_filealloc s (Q : option nat -> kenv T -> Prop) : k_flock s = initlock ->
  (forall f, (f < NFILE)%nat -> fl_ref (k_file s f) = 0 -> Q (Some f) (put_file f (fl_set_ref 1) s)) -> Q None s ->
  wp (filealloc me) Q s.
Proof.
  intros Hl Hok Hnone. unfold filealloc, lock_ftable, unlock_ftable. wp_step. apply wp_acquire; [done|]. wp_steps.
  destruct (first _ _) as [f|] eqn:E.
  - apply first_Some in E as [Hin Hf]. simpl in Hf. apply Z.eqb_eq in Hf. apply list_elem_of_In, in_seq in Hin. unfold fset. wp_steps.
    apply wp_release; [done|]. wp_steps. pose proof (Hok f ltac:(lia) Hf) as HQ.
    destruct s; simpl in *; subst; exact HQ.
  - wp_steps. apply wp_release; [done|]. wp_steps. destruct s; simpl in *; subst; exact Hnone.
Qed.

Lemma wp_filedup f s (Q : nat -> kenv T -> Prop) : k_flock s = initlock -> 1 <= fl_ref (k_file s f) ->
  Q f (put_file f (fl_set_ref (i32 (fl_ref (k_file s f) + 1))) s) -> wp (filedup me f) Q s.
Proof.
  intros Hl Hr HQ. unfold filedup, lock_ftable, unlock_ftable, fget, fset. wp_step. apply wp_acquire; [done|]. wp_steps.
  simpl. destruct (Z.ltb_spec (fl_ref (k_file s f)) 1); [lia|]. wp_steps. apply wp_release; [done|]. wp_steps.
  destruct s; simpl in *; subst; exact HQ.
Qed.

(** [fileclose] up to the release of the lock. *)
Lemma post_fileclose f s (Q : unit -> kenv T -> Prop) R : k_flock s = initlock -> 1 <= fl_ref (k_file s f) ->
  (1 < fl_ref (k_file s f) -> Q tt (put_file f (fl_set_ref (fl_ref (k_file s f) - 1)) s)) ->
  (fl_ref (k_file s f) = 1 ->
     let s1 := put_file f (fun x => fl_set_type FD_NONE (fl_set_ref 0 x)) s in
     post (match fl_type (k_file s f) with
           | FD_PIPE => close_pipe kend me (fl_pipe (k_file s f)) (fl_writable (k_file s f))
           | FD_INODE => k_begin_op ;;; let! ip := inode_of (fl_set_ref 0 (k_file s f)) in on_fs (iput me pid ip) ;;; k_end_op
           | FD_NONE => ret tt
           end) Q R s1) ->
  post (fileclose kend me pid f) Q R s.
Proof.
  intros Hl Hr Hmore Hlast. unfold fileclose, lock_ftable, unlock_ftable, fget, fset. post_step. apply post_acquire; [done|].
  post_steps. cbn [k_file ft_set_lock]. destruct (Z.ltb_spec (fl_ref (k_file s f)) 1); [lia|]. post_steps.
  destruct (Z.ltb_spec 0 (fl_ref (k_file s f) - 1)).
  - apply post_release; [done|]. pose proof (Hmore ltac:(lia)) as HQ. destruct s; simpl in *; subst; exact HQ.
  - post_steps. apply post_release; [done|]. pose proof (Hlast ltac:(lia)) as HQ. cbv zeta in HQ.
    destruct s as [km fs lk fl pi ma mi]; unfold put_file, ft_set_lock in *; cbn [k_file k_km k_fs k_flock k_pipe k_mach k_misc] in *. subst lk.
    rewrite !fupd_fupd, !fupd_eq. destruct (fl f) as [ty rf rd wr pp ip o] eqn:Ef. cbn in *. exact HQ.
Qed.

(** The reference count of [f] changes with the references to it. *)
Lemma finv_refs h s refs refs' es l f r : finv h s refs es l -> (f < NFILE)%nat -> f ∈ refs' ->
  (forall g, g <> f -> refcount g refs' = refcount g refs) -> r = refcount f refs' ->
  f ∈ refs \/ fl_type (k_file s f) = FD_NONE -> finv h (put_file f (fl_set_ref r) s) refs' es l.
Proof.
  intros [F1 F2 F3 F4 F5 F6 F7] Hf Hin Hoth -> Hty.
  assert (Hmem : forall g, g <> f -> g ∈ refs' <-> g ∈ refs) by (intros g Hg; by rewrite !refcount_in, Hoth).
  assert (Hfile : forall g, g <> f -> k_file (put_file f (fl_set_ref (refcount f refs')) s) g = k_file s g) by (intros g Hg; simpl; by rewrite fupd_ne).
  assert (Hself : k_file (put_file f (fl_set_ref (refcount f refs')) s) f = fl_set_ref (refcount f refs') (k_file s f)) by (simpl; by rewrite fupd_eq).
  split; [done| | | | | |done].
  - intros g Hg. destruct (decide (g = f)) as [->|Hne]; [done|]. apply F2. by apply Hmem.
  - intros g Hg. destruct (decide (g = f)) as [->|Hne]; [by rewrite Hself|]. rewrite Hfile, Hoth by done. auto.
  - intros g Hg Hn. destruct (decide (g = f)) as [->|Hne]; [done|]. rewrite Hfile by done. apply F4; [done|]. by rewrite <-Hmem.
  - intros p e He. destruct (F5 p e He) as [P1 P2 P3 P4]. split; try done. intros w g Hg. destruct (P4 w g Hg) as [Hr [E1 E2 E3]].
    destruct (decide (g = f)) as [->|Hne]; (split; [by auto || by apply Hmem|]); split; rewrite ?Hself, ?Hfile by done; done.
  - intros g Hg. destruct (decide (g = f)) as [->|Hne]; rewrite ?Hself, ?Hfile by done; cbn [fl_type fl_pipe fl_writable fl_set_ref].
    + intros Ht. destruct Hty as [Hr|Hr]; [by apply F6|congruence].
    + apply F6. by apply Hmem.
Qed.

(** The last reference to a file that is not a pipe end goes. *)
Definition clear_file (f : nat) (s : kenv T) : kenv T := put_file f (fun x => fl_set_type FD_NONE (fl_set_ref 0 x)) s.

Lemma clear_file_ne f g s : g <> f -> k_file (clear_file f s) g = k_file s g.
Proof. intros Hne. simpl. by rewrite fupd_ne. Qed.

Lemma finv_clear h s s1 refs refs1 es es' l l' f : finv h s refs es l -> refs ≡ₚ f :: refs1 -> f ∉ refs1 ->
  k_flock s1 = initlock -> (forall g, k_file s1 g = k_file (clear_file f s) g) ->
  (forall p e', es' !! p = Some e' -> exists e, es !! p = Some e /\ pi_lock (k_pipe s1 p) = initlock /\
     pi_readopen (k_pipe s1 p) = bool_decide (is_Some (fst e')) /\ pi_writeopen (k_pipe s1 p) = bool_decide (is_Some (snd e')) /\
     (is_Some (fst e') \/ is_Some (snd e')) /\ forall w g, end_of e' w = Some g <-> end_of e w = Some g /\ g <> f) ->
  (forall p e w g, es !! p = Some e -> end_of e w = Some g -> g <> f -> is_Some (es' !! p)) ->
  krep kend (k_km s1) (h ++ pipe_pages es') l' -> finv h s1 refs1 es' l'.
Proof.
  intros [F1 F2 F3 F4 F5 F6 F7] Hp Hn Hl Hfl Hes Hes2 Hk.
  assert (Hself : k_file s1 f = fl_set_type FD_NONE (fl_set_ref 0 (k_file s f))) by (rewrite Hfl; simpl; by rewrite fupd_eq).
  assert (Hne : forall g, g ∈ refs1 -> g <> f /\ k_file s1 g = k_file s g /\ g ∈ refs).
  { intros g Hg. assert (g <> f) by congruence. rewrite Hfl, clear_file_ne by done. split_and!; [done..|]. rewrite Hp. apply elem_of_cons. by right. }
  split; [done| | | | | |done].
  - intros g Hg. destruct (Hne g Hg) as (_ & _ & ?). auto.
  - intros g Hg. destruct (decide (g = f)) as [->|Hd].
    + rewrite Hself. simpl. pose proof (refcount_nonneg f refs1). rewrite refcount_in in Hn. lia.
    + rewrite Hfl, clear_file_ne, F3 by done. rewrite (refcount_perm _ _ _ Hp), refcount_cons, decide_False by congruence. lia.
  - intros g Hg Hnin. destruct (decide (g = f)) as [->|Hd]; [by rewrite Hself|]. rewrite Hfl, clear_file_ne by done. apply F4; [done|].
    rewrite Hp, elem_of_cons. tauto.
  - intros p e' He'. destruct (Hes p e' He') as (e & He & L & R & W & U & Hends). split; try done. intros w g Hg.
    apply Hends in Hg as [Hg Hd]. destruct (pv_end _ _ _ _ (F5 p e He) w g Hg) as [Hr [E1 E2 E3]]. split.
    + rewrite Hp, elem_of_cons in Hr. tauto.
    + split; rewrite Hfl, clear_file_ne by done; done.
  - intros g Hg Ht. destruct (Hne g Hg) as (Hd & Hf & Hr). rewrite Hf in *. destruct (F6 g Hr Ht) as (e & He & Hend).
    destruct (Hes2 _ _ _ _ He Hend Hd) as [e' He']. exists e'. split; [done|]. destruct (Hes _ _ He') as (e2 & He2 & _ & _ & _ & _ & Hends).
    assert (e2 = e) as -> by congruence. by apply Hends.
Qed.

Lemma krep_perm s h h' l : h ≡ₚ h' -> krep kend s h l -> krep kend s h' l.
Proof. intros Hp [K1 K2 K3]. split; [done|by rewrite <-Hp|by rewrite <-Hp]. Qed.

Lemma pipe_pages_delete (es : ends) p e : es !! p = Some e -> pipe_pages es ≡ₚ p :: pipe_pages (delete p es).
Proof.
  intros He. unfold pipe_pages. rewrite <-(insert_delete_id es p e He) at 1. rewrite map_to_list_insert by apply lookup_delete_eq. done.
Qed.
Lemma pipe_pages_update (es : ends) p e e' : es !! p = Some e -> pipe_pages (<[p := e']> es) ≡ₚ pipe_pages es.
Proof.
  intros He. rewrite (pipe_pages_delete es p e He), (pipe_pages_delete (<[p := e']> es) p e') by apply lookup_insert_eq.
  by rewrite delete_insert_eq.
Qed.

(** A file is an end of one pipe only, and one end of it only. *)
Lemma end_unique h s refs es l f p p' e e' w w' : finv h s refs es l -> es !! p = Some e -> es !! p' = Some e' ->
  end_of e w = Some f -> end_of e' w' = Some f -> p = p' /\ w = w'.
Proof.
  intros F He He' Hf Hf'. destruct (pv_end _ _ _ _ (fi_pipe _ _ _ _ _ F _ _ He) _ _ Hf) as [_ [_ E1 E2]].
  destruct (pv_end _ _ _ _ (fi_pipe _ _ _ _ _ F _ _ He') _ _ Hf') as [_ [_ E3 E4]]. split; congruence.
Qed.

(** The two ends without the one that is closed. *)
Definition close_end (e : option nat * option nat) (w : bool) : option nat * option nat :=
  if w then (fst e, None) else (None, snd e).

Lemma close_end_of e w w' : end_of (close_end e w) w' = if decide (w' = w) then None else end_of e w'.
Proof. by destruct w, w'. Qed.

Lemma close_ends h s refs es l f p e w q e2 : finv h s refs es l -> es !! p = Some e -> end_of e w = Some f ->
  <[p := close_end e w]> es !! q = Some e2 ->
  exists e1, es !! q = Some e1 /\ forall w' g, end_of e2 w' = Some g <-> end_of e1 w' = Some g /\ g <> f.
Proof.
  intros F He Hf Hq. destruct (decide (q = p)) as [->|Hne].
  - rewrite lookup_insert_eq in Hq. injection Hq as <-. exists e. split; [done|]. intros w' g. rewrite close_end_of.
    destruct (decide (w' = w)) as [->|Hw]; [split; [done|]; intros [Hg Hd]; congruence|]. split; [|tauto]. intros Hg. split; [done|].
    intros ->. by destruct (end_unique _ _ _ _ _ _ _ _ _ _ _ _ F He He Hf Hg) as [_ ?].
  - rewrite lookup_insert_ne in Hq by done. exists e2. split; [done|]. intros w' g. split; [|tauto]. intros Hg. split; [done|].
    intros ->. by destruct (end_unique _ _ _ _ _ _ _ _ _ _ _ _ F He Hq Hf Hg) as [? _].
Qed.

Lemma wp_close_pipe h s refs refs1 es l f : finv h s refs es l -> refs ≡ₚ f :: refs1 -> f ∉ refs1 -> fl_type (k_file s f) = FD_PIPE ->
  wp (close_pipe kend me (fl_pipe (k_file s f)) (fl_writable (k_file s f)))
    (fun _ s' => exists es' l', finv h s' refs1 es' l' /\ l' ++ pipe_pages es' ≡ₚ l ++ pipe_pages es) (clear_file f s).
Proof.
  intros F Hp Hn Ht. assert (Hin : f ∈ refs) by (rewrite Hp; apply elem_of_cons; by left).
  destruct (fi_end _ _ _ _ _ F f Hin Ht) as (e & He & Hend). set (p := fl_pipe (k_file s f)) in *. set (w := fl_writable (k_file s f)) in *.
  destruct (fi_pipe _ _ _ _ _ F p e He) as [Pl [Pr Pw] Pu Pe]. unfold close_pipe. wp_step. unfold on_pipe. wp_step.
  apply wp_pipeclose; [exact Pl|]. cbn [k_pipe clear_file put_file].
  set (x := if w then _ else _). cbv zeta. set (s1 := k_put_pipe p x (clear_file f s)).
  assert (Hx : pi_lock x = initlock /\ pi_readopen x = bool_decide (is_Some (fst (close_end e w))) /\
               pi_writeopen x = bool_decide (is_Some (snd (close_end e w)))).
  { unfold x, close_end. destruct w; simpl; rewrite ?Pr, ?Pw; split_and!; try done; by rewrite bool_decide_false by (intros [? ?]; done). }
  destruct Hx as (Xl & Xr & Xw).
  assert (Hpipe : forall q, k_pipe s1 q = if q =? p then x else k_pipe s q) by done.
  assert (Hcl : forall es2 l2 km, (forall q e2, es2 !! q = Some e2 -> <[p := close_end e w]> es !! q = Some e2 /\ (is_Some (fst e2) \/ is_Some (snd e2))) ->
    (forall q e1 w' g, es !! q = Some e1 -> end_of e1 w' = Some g -> g <> f -> is_Some (es2 !! q)) ->
    krep kend km (h ++ pipe_pages es2) l2 -> finv h (mk_kenv km (k_fs s1) (k_flock s1) (k_file s1) (k_pipe s1) (k_mach s1) (k_misc s1)) refs1 es2 l2).
  { intros es2 l2 km Hsub Hsup Hk. apply (finv_clear h s _ refs _ es _ l _ f F Hp Hn); [apply F|done| |done|done].
    intros q e2 Hq. destruct (Hsub q e2 Hq) as [Hq' Hused]. destruct (close_ends _ _ _ _ _ _ _ _ _ _ _ F He Hend Hq') as (e1 & He1 & Hends).
    exists e1. split; [done|]. cbn [k_pipe]. rewrite Hpipe. destruct (Z.eqb_spec q p) as [->|Hne].
    - rewrite lookup_insert_eq in Hq'. injection Hq' as <-. done.
    - rewrite lookup_insert_ne in Hq' by done. assert (e2 = e1) as -> by congruence. destruct (fi_pipe _ _ _ _ _ F q e1 He1) as [? [? ?] ? ?]. done. }
  destruct (decide (close_end e w = (None, None))) as [Hnone|Hsome].
  - rewrite Xr, Xw, Hnone. cbn. unfold on_km. wp_step.
    pose proof (fi_pages _ _ _ _ _ F) as Hk. eapply krep_perm in Hk; [|rewrite (pipe_pages_delete es p e He); reflexivity].
    apply (wp_kfree_k kend me _ _ _ _ _ _ Hk). intros km Hk' _. exists (delete p es), (p :: l).
    split; [|rewrite (pipe_pages_delete es p e He); simpl; by rewrite Permutation_middle]. apply Hcl; [| |exact Hk'].
    + intros q e2 Hq. apply lookup_delete_Some in Hq as [Hne Hq]. rewrite lookup_insert_ne by done. split; [done|].
      by apply (pv_used _ _ _ _ (fi_pipe _ _ _ _ _ F q e2 Hq)).
    + intros q e1 w' g He1 Hg Hd. destruct (decide (q = p)) as [->|Hne]; [|by rewrite lookup_delete_ne].
      assert (e1 = e) as -> by congruence. pose proof (close_end_of e w w') as Hc. rewrite Hnone in Hc. destruct (decide (w' = w)) as [->|]; [congruence|].
      rewrite Hg in Hc. by destruct w'.
  - assert (Hu : is_Some (fst (close_end e w)) \/ is_Some (snd (close_end e w))).
    { destruct (close_end e w) as [[a|] [b|]]; eauto. done. }
    rewrite Xr, Xw. assert (negb (bool_decide (is_Some (fst (close_end e w)))) && negb (bool_decide (is_Some (snd (close_end e w)))) = false) as ->.
    { destruct Hu as [Hu|Hu]; rewrite (bool_decide_true _ Hu); [done|]. by rewrite andb_false_r. }
    wp_step. exists (<[p := close_end e w]> es), l. split; [|by rewrite (pipe_pages_update es p e)].
    assert (Es : s1 = mk_kenv (k_km s1) (k_fs s1) (k_flock s1) (k_file s1) (k_pipe s1) (k_mach s1) (k_misc s1)) by done.
    rewrite Es. apply Hcl.
    + intros q e2 Hq. split; [done|]. destruct (decide (q = p)) as [->|Hne].
      * rewrite lookup_insert_eq in Hq. by injection Hq as <-.
      * rewrite lookup_insert_ne in Hq by done. by apply (pv_used _ _ _ _ (fi_pipe _ _ _ _ _ F q e2 Hq)).
    + intros q e1 w' g He1 _ _. destruct (decide (q = p)) as [->|Hne]; [by rewrite lookup_insert_eq|rewrite lookup_insert_ne by done; eauto].
    + eapply krep_perm; [|exact (fi_pages _ _ _ _ _ F)]. f_equiv. symmetry. by apply (pipe_pages_update es p e).
Qed.

(** ** Each call keeps the invariant *)

(** After a call, with the pages it has moved between the free list and the pipes. *)
Definition after_call (h : list Z) (es : ends) (l : list Z) (refs' : list nat) (s' : kenv T) : Prop :=
  exists es' l', finv h s' refs' es' l' /\ l' ++ pipe_pages es' ≡ₚ l ++ pipe_pages es.

Lemma finv_alloc h s refs es l f : finv h s refs es l -> (f < NFILE)%nat -> fl_ref (k_file s f) = 0 ->
  f ∉ refs /\ finv h (put_file f (fl_set_ref 1) s) (f :: refs) es l.
Proof.
  intros F Hf H0. rewrite (fi_count _ _ _ _ _ F f Hf) in H0. assert (Hn : f ∉ refs) by (rewrite refcount_in; lia). split; [done|].
  apply (finv_refs h s refs); try done; [apply elem_of_cons; by left| | |right; by apply (fi_free _ _ _ _ _ F)].
  - intros g Hg. rewrite refcount_cons, decide_False by congruence. lia.
  - rewrite refcount_cons, decide_True by done. lia.
Qed.

Lemma post_filealloc_inv h s refs es l (R : kenv T -> Prop) : finv h s refs es l ->
  post (filealloc me) (fun r s' => match r with
    | Some f => f ∉ refs /\ (f < NFILE)%nat /\ fl_type (k_file s' f) = FD_NONE /\ finv h s' (f :: refs) es l /\ forall g, g <> f -> k_file s' g = k_file s g
    | None => s' = s
    end) R s.
Proof.
  intros F. apply wp_post, wp_filealloc; [apply F| |done]. intros f Hf H0. destruct (finv_alloc _ _ _ _ _ _ F Hf H0) as [Hn F'].
  split_and!; try done; [simpl; rewrite fupd_eq; by apply (fi_free _ _ _ _ _ F)|]. intros g Hg. simpl. by rewrite fupd_ne.
Qed.

Lemma post_filedup_inv h s refs es l f (R : kenv T -> Prop) : finv h s refs es l -> f ∈ refs -> Z.of_nat (length refs) < 2147483647 ->
  post (filedup me f) (fun _ s' => finv h s' (f :: refs) es l) R s.
Proof.
  intros F Hf Hlen. pose proof (refcount_nonneg f refs) as Hr. pose proof Hf as Hf'. rewrite refcount_in in Hf'.
  pose proof (fi_count _ _ _ _ _ F f (fi_range _ _ _ _ _ F f Hf)) as Hc. apply wp_post, wp_filedup; [apply F|lia|].
  apply (finv_refs h s refs); try done; [by apply (fi_range _ _ _ _ _ F)|apply elem_of_cons; by left| | |by left].
  - intros g Hg. rewrite refcount_cons, decide_False by congruence. lia.
  - rewrite refcount_cons, decide_True, i32_small by (done || lia). lia.
Qed.

Lemma post_fileclose_inv h s refs refs1 es l f : finv h s refs es l -> refs ≡ₚ f :: refs1 ->
  post (fileclose kend me pid f) (fun _ s' => after_call h es l refs1 s') (fun s' => after_call h es l refs1 s') s.
Proof.
  intros F Hp. assert (Hin : f ∈ refs) by (rewrite Hp; apply elem_of_cons; by left). pose proof (fi_range _ _ _ _ _ F f Hin) as Hf.
  pose proof (fi_count _ _ _ _ _ F f Hf) as Hc. rewrite (refcount_perm _ _ _ Hp), refcount_cons, decide_True in Hc by done.
  pose proof (refcount_nonneg f refs1) as Hr. apply post_fileclose; [apply F|lia| |].
  - intros Hmore. exists es, l. split; [|done]. assert (Hin1 : f ∈ refs1) by (rewrite refcount_in; lia).
    apply (finv_refs h s refs); try done; [|lia|by left]. intros g Hg. rewrite (refcount_perm g _ _ Hp), refcount_cons, decide_False by congruence. lia.
  - intros Hlast s1. assert (Hn : f ∉ refs1) by (rewrite refcount_in; lia).
    assert (Hother : fl_type (k_file s f) <> FD_PIPE -> after_call h es l refs1 s1).
    { intros Ht. exists es, l. split; [|done]. assert (Hnot : forall q e w g, es !! q = Some e -> end_of e w = Some g -> g <> f).
      { intros q e w g He Hg ->. by destruct (pv_end _ _ _ _ (fi_pipe _ _ _ _ _ F q e He) w f Hg) as [_ [? _ _]]. }
      apply (finv_clear h s _ refs _ es _ l _ f F Hp Hn); [apply F|done| |by eauto|apply F].
      intros q e He. destruct (fi_pipe _ _ _ _ _ F q e He) as [? [? ?] ? ?]. exists e. split_and!; try done.
      intros w g. split; [|tauto]. intros Hg. split; [done|]. by eapply Hnot. }
    destruct (fl_type (k_file s f)) eqn:Ht.
    + post_steps. by apply Hother.
    + eapply wp_post, wp_close_pipe; done.
    + specialize (Hother ltac:(done)). eapply (post_mono _ (fun _ => same_files s1) _ (same_files s1)).
      * refine ((_ : keeps same_files _) s1). unfold k_begin_op, k_end_op, inode_of. keeps_steps; apply same_files_fs.
      * intros _ s' Hs'. destruct Hother as (es' & l' & F' & Hpg). exists es', l'. split; [|done]. by eapply finv_same.
      * intros s' Hs'. destruct Hother as (es' & l' & F' & Hpg). exists es', l'. split; [|done]. by eapply finv_same.
Qed.

(** A permutation of the references. *)
Lemma finv_perm h s refs refs' es l : refs ≡ₚ refs' -> finv h s refs es l -> finv h s refs' es l.
Proof.
  intros Hp [F1 F2 F3 F4 F5 F6 F7]. split; try done.
  - intros f. rewrite <-Hp. auto.
  - intros f Hf. rewrite <-(refcount_perm f _ _ Hp). auto.
  - intros f Hf. rewrite <-Hp. auto.
  - intros p e He. destruct (F5 p e He) as [P1 P2 P3 P4]. split; try done. intros w f Hf. rewrite <-Hp. auto.
  - intros f. rewrite <-Hp. auto.
Qed.

Lemma post_kalloc_k s h l (Q : Z -> kmem -> Prop) R : krep kend s h l ->
  (l = [] -> Q 0 s) -> (forall p l' s', l = p :: l' -> p <> 0 -> krep kend s' (p :: h) l' -> Q p s') -> post (kalloc me) Q R s.
Proof.
  intros [Hk Hn Ho] H0 HQ. apply wp_post, (kalloc_spec kend me s l _ Hk). destruct l as [|p l']; [auto|]. intros s' Hk' _ _.
  rewrite <-Permutation_middle in Hn, Ho. apply (HQ p l'); [done| |by split]. apply Forall_cons in Ho as [(Hp & _) _]. lia.
Qed.

(** The two ends of a new pipe. *)
Definition pipe_ends (f0 f1 : nat) (p : Z) (s : kenv T) : kenv T :=
  put_file f1 (fun x => fl_set_pipe p (fl_set_writable true (fl_set_readable false (fl_set_type FD_PIPE x))))
    (put_file f0 (fun x => fl_set_pipe p (fl_set_writable false (fl_set_readable true (fl_set_type FD_PIPE x))))
      (k_put_pipe p (new_pipe (pi_data (k_pipe s p))) s)).

Lemma finv_pipe h s refs es l f0 f1 p km l' : finv h s (f1 :: f0 :: refs) es l -> f0 ∉ refs -> f1 ∉ f0 :: refs -> (f0 < NFILE)%nat -> (f1 < NFILE)%nat ->
  fl_type (k_file s f0) = FD_NONE -> fl_type (k_file s f1) = FD_NONE -> es !! p = None -> krep kend km (p :: h ++ pipe_pages es) l' ->
  finv h (pipe_ends f0 f1 p (mk_kenv km (k_fs s) (k_flock s) (k_file s) (k_pipe s) (k_mach s) (k_misc s))) (f0 :: f1 :: refs) (<[p := (Some f0, Some f1)]> es) l'.
Proof.
  intros F Hn0 Hn1 Hf0 Hf1 Ht0 Ht1 Hp Hk. rewrite not_elem_of_cons in Hn1. destruct Hn1 as [Hne Hn1].
  apply (finv_perm _ _ _ (f0 :: f1 :: refs)) in F; [|apply perm_swap]. destruct F as [F1 F2 F3 F4 F5 F6 F7].
  set (s' := pipe_ends _ _ _ _).
  assert (E0 : k_file s' f0 = fl_set_pipe p (fl_set_writable false (fl_set_readable true (fl_set_type FD_PIPE (k_file s f0))))).
  { simpl. rewrite fupd_ne by done. by rewrite fupd_eq. }
  assert (E1 : k_file s' f1 = fl_set_pipe p (fl_set_writable true (fl_set_readable false (fl_set_type FD_PIPE (k_file s f1))))).
  { simpl. rewrite fupd_eq. by rewrite fupd_ne. }
  assert (Eo : forall g, g <> f0 -> g <> f1 -> k_file s' g = k_file s g) by (intros g H0 H1; simpl; by rewrite !fupd_ne).
  assert (Hold : forall q e w g, es !! q = Some e -> end_of e w = Some g -> g <> f0 /\ g <> f1).
  { intros q e w g He Hg. destruct (pv_end _ _ _ _ (F5 q e He) w g Hg) as [_ [Hty _ _]]. split; congruence. }
  split; [done|done| | | | |].
  - intros g Hg. rewrite <-F3 by done. destruct (decide (g = f0)) as [->|]; [by rewrite E0|]. destruct (decide (g = f1)) as [->|]; [by rewrite E1|]. by rewrite Eo.
  - intros g Hg Hn. rewrite !not_elem_of_cons in Hn. destruct Hn as (? & ? & ?). rewrite Eo by done. apply F4; [done|]. rewrite !not_elem_of_cons. done.
  - intros q e. destruct (decide (q = p)) as [->|Hq].
    + rewrite lookup_insert_eq. intros [= <-]. split; [simpl; by rewrite Z.eqb_refl|simpl; by rewrite Z.eqb_refl|left; eauto|].
      intros w g Hg. destruct w; simpl in Hg; injection Hg as <-; (split; [rewrite !elem_of_cons; tauto|]); split; rewrite ?E0, ?E1; done.
    + rewrite lookup_insert_ne by done. intros He. destruct (F5 q e He) as [P1 P2 P3 P4].
      assert (Hpq : k_pipe s' q = k_pipe s q) by (simpl; by destruct (Z.eqb_spec q p)). split; rewrite ?Hpq; try done.
      intros w g Hg. destruct (P4 w g Hg) as [Hr [E2 E3 E4]]. destruct (Hold _ _ _ _ He Hg) as [Hg0 Hg1]. split; [done|]. split; by rewrite Eo.
  - intros g Hg. destruct (decide (g = f0)) as [->|Hd0].
    { rewrite E0. intros _. exists (Some f0, Some f1). cbn [fl_pipe fl_set_pipe]. rewrite lookup_insert_eq. done. }
    destruct (decide (g = f1)) as [->|Hd1].
    { rewrite E1. intros _. exists (Some f0, Some f1). cbn [fl_pipe fl_set_pipe]. rewrite lookup_insert_eq. done. }
    rewrite Eo by done. intros Ht. destruct (F6 g Hg Ht) as (e & He & Hend). exists e. split; [|done]. rewrite lookup_insert_ne; [done|]. congruence.
  - eapply krep_perm; [|exact Hk]. unfold pipe_pages. rewrite map_to_list_insert by done. simpl. by rewrite Permutation_middle.
Qed.

(** Closing a file that [filealloc] has just returned. *)
Lemma post_close_new h s refs es l f (Q : unit -> kenv T -> Prop) R : finv h s (f :: refs) es l -> f ∉ refs -> fl_type (k_file s f) = FD_NONE ->
  (finv h (clear_file f s) refs es l -> Q tt (clear_file f s)) -> post (fileclose kend me pid f) Q R s.
Proof.
  intros F Hn Ht HQ. assert (Hf : (f < NFILE)%nat) by (apply (fi_range _ _ _ _ _ F), elem_of_cons; by left).
  assert (Hc : fl_ref (k_file s f) = 1).
  { rewrite (fi_count _ _ _ _ _ F f Hf), refcount_cons, decide_True by done. rewrite refcount_in in Hn. pose proof (refcount_nonneg f refs). lia. }
  apply post_fileclose; [apply F|lia|lia|]. intros _ s1. rewrite Ht. post_steps. apply HQ.
  assert (Hnot : forall q e w g, es !! q = Some e -> end_of e w = Some g -> g <> f).
  { intros q e w g He Hg ->. destruct (pv_end _ _ _ _ (fi_pipe _ _ _ _ _ F q e He) w f Hg) as [_ [? _ _]]. congruence. }
  apply (finv_clear h s _ (f :: refs) _ es _ l _ f F); [done|done|apply F|done| |by eauto|apply F].
  intros q e He. destruct (fi_pipe _ _ _ _ _ F q e He) as [? [? ?] ? ?]. exists e. split_and!; try done.
  intros w g. split; [|tauto]. intros Hg. split; [done|]. by eapply Hnot.
Qed.

Lemma post_pipealloc_inv h s refs es l (R : kenv T -> Prop) : finv h s refs es l ->
  post (pipealloc kend me pid) (fun r s' => match r with
    | Some (f0, f1) => f0 ∉ refs /\ f1 ∉ refs /\ f0 <> f1 /\ after_call h es l (f0 :: f1 :: refs) s' /\
        exists p, is_end s' f0 p false /\ is_end s' f1 p true /\ pi_readopen (k_pipe s' p) = true /\ pi_writeopen (k_pipe s' p) = true
    | None => after_call h es l refs s'
    end) R s.
Proof.
  intros F. unfold pipealloc. post_step. eapply post_mono; [exact (post_filealloc_inv h s refs es l (fun _ => False) F)| |done].
  intros [f0|] s0; [|intros ->; unfold pipealloc_bad; post_steps; by exists es, l].
  intros (Hn0 & Hf0 & Ht0 & F0 & _). post_step. eapply post_mono; [exact (post_filealloc_inv h s0 _ es l (fun _ => False) F0)| |done].
  intros [f1|] s1.
  - intros (Hn1 & Hf1 & Ht1 & F1 & Hsame). pose proof Hn1 as Hn1'. rewrite not_elem_of_cons in Hn1'. destruct Hn1' as [Hne Hn1'].
    rewrite <-(Hsame f0) in Ht0 by done. unfold on_km. post_step. apply post_zoom.
    apply (post_kalloc_k _ _ _ _ _ (fi_pages _ _ _ _ _ F1)).
    + intros ->. cbn [Z.eqb]. replace (mk_kenv _ _ _ _ _ _ _) with s1 by (by destruct s1). unfold pipealloc_bad. cbn [Z.eqb]. post_steps.
      apply (finv_perm _ _ _ (f0 :: f1 :: refs)) in F1; [|apply perm_swap].
      apply (post_close_new h s1 (f1 :: refs) es [] f0); [done|by apply not_elem_of_cons|done|]. intros F'. post_steps.
      apply (post_close_new h _ refs es [] f1); [done..|by rewrite clear_file_ne|]. intros F''. post_steps. by exists es, [].
    + intros p l' km -> Hp Hk. rewrite (proj2 (Z.eqb_neq p 0) Hp). post_step. apply post_modify.
      do 8 (post_step; apply post_fset). rewrite !put_file_put_file. post_step.
      assert (Hnew : es !! p = None). { destruct (es !! p) eqn:He; [|done]. exfalso. pose proof (kr_nodup _ _ _ _ Hk) as Hnd.
        simpl in Hnd. apply NoDup_cons in Hnd as [Hnd _]. apply Hnd. rewrite !elem_of_app. left. right. by rewrite (pipe_pages_delete es p _ He), elem_of_cons; left. }
      split_and!; try done.
      * exists (<[p := (Some f0, Some f1)]> es), l'. split; [by apply (finv_pipe h s1 refs es (p :: l') f0 f1 p km l')|].
        unfold pipe_pages. rewrite map_to_list_insert by done. simpl. by rewrite Permutation_middle.
      * exists p. split_and!; [split; cbn; rewrite ?fupd_eq, ?fupd_ne, ?fupd_eq by done; done..|cbn; by rewrite Z.eqb_refl|cbn; by rewrite Z.eqb_refl].
  - intros ->. unfold pipealloc_bad. cbn [Z.eqb]. post_steps. apply (post_close_new h s0 refs es l f0); [done..|]. intros F'. post_steps. by exists es, l.
Qed.

(** [sys_open] sets up the file it holds. *)
Lemma post_open_file_inv h s refs es l f ip omode (R : kenv T -> Prop) : finv h s refs es l -> f ∈ refs -> fl_type (k_file s f) = FD_NONE ->
  post (open_file f ip omode) (fun _ s' => finv h s' refs es l /\ fl_type (k_file s' f) = FD_INODE) R s.
Proof.
  intros F Hf Ht. unfold open_file. do 4 (post_step; apply post_fset). apply post_fset. rewrite !put_file_put_file.
  set (g := fun x => _). set (s' := put_file f g s).
  assert (Es : k_file s' f = g (k_file s f)) by (simpl; by rewrite fupd_eq). assert (Eo : forall i, i <> f -> k_file s' i = k_file s i) by (intros i Hi; simpl; by rewrite fupd_ne).
  destruct F as [F1 F2 F3 F4 F5 F6 F7]. split; [|by rewrite Es]. split; try done.
  - intros i Hi. rewrite <-F3 by done. destruct (decide (i = f)) as [->|]; [by rewrite Es|by rewrite Eo].
  - intros i Hi Hn. rewrite Eo by congruence. auto.
  - intros p e He. destruct (F5 p e He) as [P1 P2 P3 P4]. split; try done. intros w i Hw. destruct (P4 w i Hw) as [Hr [E1 E2 E3]].
    assert (i <> f) by congruence. split; [done|]. split; by rewrite Eo.
  - intros i Hi. destruct (decide (i = f)) as [->|]; [by rewrite Es|]. rewrite Eo by done. auto.
Qed.
End fileprops.

(** ** Every sequence of calls *)

Section ftable.
Context {T : Type} `{!TxOps T} `{!TxTop T} (kend : Z).

(** The kernel, the references to files that are held, and the pages in use for other
    purposes than pipes.  A call may be made on any processor by any process. *)
Record fconf : Type := mk_fconf { fc_env : kenv T; fc_refs : list nat; fc_pages : list Z }.

Definition runs_to {A} (m : M (kenv T) A) (s s' : kenv T) : Prop := (exists a, m s = Ok a s') \/ m s = Blocked s'.

Inductive fstep : fconf -> fconf -> Prop :=
| fs_alloc me s refs h f s' : filealloc me s = Ok (Some f) s' -> fstep (mk_fconf s refs h) (mk_fconf s' (f :: refs) h)
| fs_alloc_none me s refs h s' : filealloc me s = Ok None s' -> fstep (mk_fconf s refs h) (mk_fconf s' refs h)
| fs_dup me s refs h f g s' : f ∈ refs -> Z.of_nat (length refs) < 2147483647 -> filedup me f s = Ok g s' ->
    fstep (mk_fconf s refs h) (mk_fconf s' (f :: refs) h)
| fs_close me pid s refs refs' h f s' : refs ≡ₚ f :: refs' -> runs_to (fileclose kend me pid f) s s' ->
    fstep (mk_fconf s refs h) (mk_fconf s' refs' h)
| fs_pipe me pid s refs h f0 f1 s' : pipealloc kend me pid s = Ok (Some (f0, f1)) s' ->
    fstep (mk_fconf s refs h) (mk_fconf s' (f0 :: f1 :: refs) h)
| fs_pipe_none me pid s refs h s' : pipealloc kend me pid s = Ok None s' -> fstep (mk_fconf s refs h) (mk_fconf s' refs h)
| fs_open u s refs h f ip omode s' : f ∈ refs -> fl_type (k_file s f) = FD_NONE ->
    open_file (T := T) f ip omode s = Ok u s' -> fstep (mk_fconf s refs h) (mk_fconf s' refs h)
| fs_read me pid devsw killed s refs h f n s' : f ∈ refs -> runs_to (fileread me pid devsw killed f n) s s' ->
    fstep (mk_fconf s refs h) (mk_fconf s' refs h)
| fs_write me pid devsw killed s refs h f src n s' : f ∈ refs -> runs_to (filewrite me pid devsw killed f src n) s s' ->
    fstep (mk_fconf s refs h) (mk_fconf s' refs h)
| fs_fs {A} (m : M (fs T) A) s refs h s' : runs_to (on_fs m) s s' -> fstep (mk_fconf s refs h) (mk_fconf s' refs h)
| fs_kalloc me s refs h p s' : on_km (kalloc me) s = Ok p s' -> fstep (mk_fconf s refs h) (mk_fconf s' refs (if p =? 0 then h else p :: h))
| fs_kfree me s refs h1 h2 p s' : on_km (kfree kend me p) s = Ok tt s' ->
    fstep (mk_fconf s refs (h1 ++ p :: h2)) (mk_fconf s' refs (h1 ++ h2)).

Definition fsound (pool : list Z) (c : fconf) : Prop :=
  exists es l, finv kend (fc_pages c) (fc_env c) (fc_refs c) es l /\ l ++ fc_pages c ++ pipe_pages es ≡ₚ pool.

Lemma post_runs {A} (m : M (kenv T) A) s s' (P : kenv T -> Prop) : post m (fun _ => P) P s -> runs_to m s s' -> P s'.
Proof. intros H [[a E]|E]; [exact (post_Ok _ _ _ _ _ _ H E)|exact (post_Blocked _ _ _ _ _ H E)]. Qed.

Lemma fsound_after pool h es l refs s : l ++ h ++ pipe_pages es ≡ₚ pool -> after_call kend h es l refs s -> fsound pool (mk_fconf s refs h).
Proof.
  intros Hp (es' & l' & F & E). exists es', l'. split; [done|]. simpl. rewrite <-Hp, (Permutation_app_comm h), app_assoc, E, <-app_assoc.
  by rewrite (Permutation_app_comm h).
Qed.

Lemma fsound_same pool s s' refs h es l : finv kend h s refs es l -> l ++ h ++ pipe_pages es ≡ₚ pool -> same_files s s' ->
  fsound pool (mk_fconf s' refs h).
Proof. intros F Hp Hs. exists es, l. split; [by eapply finv_same|done]. Qed.

(** Other parts of the kernel take and return pages. *)
Lemma finv_km (s : kenv T) refs h h' es l l' km : finv kend h s refs es l -> krep kend km (h' ++ pipe_pages es) l' ->
  finv kend h' (mk_kenv km (k_fs s) (k_flock s) (k_file s) (k_pipe s) (k_mach s) (k_misc s)) refs es l'.
Proof.
  intros [F1 F2 F3 F4 F5 F6 F7] Hk. split; try done.
  intros p e He. destruct (F5 p e He) as [P1 P2 P3 P4]. split; try done.
  intros w f Hf. destruct (P4 w f Hf) as [Hr []]. split; [done|by split].
Qed.

Lemma fstep_sound pool c c' : fsound pool c -> fstep c c' -> fsound pool c'.
Proof.
  intros (es & l & F & Hp) Hs. destruct Hs; cbn [fc_env fc_refs fc_pages] in *.
  - eapply (post_filealloc_inv kend me _ _ _ _ _ (fun _ => False)), post_Ok in F; [|done]. simpl in F. destruct F as (_ & _ & _ & F & _).
    by exists es, l.
  - eapply (post_filealloc_inv kend me _ _ _ _ _ (fun _ => False)) in F as F'. eapply post_Ok in F'; [|done]. simpl in F'. subst. by exists es, l.
  - eapply (post_filedup_inv kend me _ _ _ _ _ f (fun _ => False)), post_Ok in F; [by exists es, l|done..].
  - eapply fsound_after; [done|]. eapply post_runs; [by eapply post_fileclose_inv|done].
  - eapply (post_pipealloc_inv kend me pid _ _ _ _ _ (fun _ => False)), post_Ok in F; [|done]. eapply fsound_after; [done|]. apply F.
  - eapply (post_pipealloc_inv kend me pid _ _ _ _ _ (fun _ => False)), post_Ok in F; [|done]. eapply fsound_after; [done|]. apply F.
  - eapply (post_open_file_inv kend _ _ _ _ _ f ip omode (fun _ => False)), post_Ok in F; [|done..]. destruct F as [F _]. by exists es, l.
  - eapply fsound_same; [done..|]. eapply post_runs; [by eapply post_fileread|done].
  - eapply fsound_same; [done..|]. eapply post_runs; [by eapply post_filewrite|done].
  - eapply fsound_same; [done..|]. eapply post_runs; [|done]. apply same_files_fs.
  - eapply (post_Ok _ (fun p s' => fsound pool (mk_fconf s' refs (if p =? 0 then h else p :: h))) (fun _ => False)); [|done].
    apply post_zoom, (post_kalloc_k _ _ _ _ _ _ _ (fi_pages _ _ _ _ _ _ F)).
    + intros ->. simpl. exists es, []. split; [|done]. eapply finv_km; [done|]. apply F.
    + intros q l' km -> Hq Hk. rewrite (proj2 (Z.eqb_neq q 0) Hq). exists es, l'. split; [by eapply finv_km|]. simpl in *. rewrite <-Hp.
      by rewrite <-Permutation_middle.
  - eapply (post_Ok _ (fun _ s' => fsound pool (mk_fconf s' refs (h1 ++ h2))) (fun _ => False)); [|done].
    pose proof (fi_pages _ _ _ _ _ _ F) as Hk. rewrite <-app_assoc in Hk. simpl in Hk.
    apply post_zoom, wp_post, (wp_kfree_k _ _ _ _ _ _ _ _ Hk). intros km Hk' _. exists es, (p :: l). split; [|].
    + eapply finv_km; [done|]. cbn [fc_pages]. by rewrite <-app_assoc.
    + simpl. rewrite <-Hp. clear. solve_Permutation.
Qed.

(** No file open, no pipe, and the pages [h] in use. *)
Record finitial (s : kenv T) (h l : list Z) : Prop := mk_finitial {
  fn_lock : k_flock s = initlock;
  fn_file f : (f < NFILE)%nat -> fl_ref (k_file s f) = 0 /\ fl_type (k_file s f) = FD_NONE;
  fn_pages : krep kend (k_km s) h l
}.

Lemma finitial_sound s h l : finitial s h l -> fsound (l ++ h) (mk_fconf s [] h).
Proof.
  intros [I1 I2 I3]. exists ∅, l. unfold pipe_pages. rewrite map_to_list_empty. simpl. rewrite app_nil_r. split; [|done]. split; try done.
  - intros f Hf. by apply elem_of_nil in Hf.
  - intros f Hf. by destruct (I2 f Hf).
  - intros f Hf _. by destruct (I2 f Hf).
  - intros f Hf. by apply elem_of_nil in Hf.
  - unfold pipe_pages. rewrite map_to_list_empty. simpl. by rewrite app_nil_r.
Qed.

(** Whether a held file is the given end of a pipe. *)
Definition end_held (c : fconf) (p : Z) (w : bool) : Prop := exists f, f ∈ fc_refs c /\ is_end (fc_env c) f p w.

Lemma end_held_iff pool c es l p e w : finv kend (fc_pages c) (fc_env c) (fc_refs c) es l -> l ++ fc_pages c ++ pipe_pages es ≡ₚ pool ->
  es !! p = Some e -> end_held c p w <-> is_Some (end_of e w).
Proof.
  intros F _ He. split.
  - intros (f & Hf & [Ht Hp Hw]). destruct (fi_end _ _ _ _ _ _ F f Hf Ht) as (e' & He' & Hend). rewrite Hp, He in He'. injection He' as <-.
    rewrite Hw in Hend. eauto.
  - intros [f Hf]. exists f. by apply (pv_end _ _ _ _ (fi_pipe _ _ _ _ _ _ F p e He)).
Qed.

(** C22: Whatever calls on files and pipes have been made since the table was empty, the
    reference count of a file is the number of references held, so that a held file can be
    duplicated; a pipe has a page exactly as long as a file for one of its ends is held, and
    its flags say which ends are; and every page is either free, or in use elsewhere, or
    that of one pipe. *)
Theorem ftable_sound s0 h0 l0 c : finitial s0 h0 l0 -> rtc fstep (mk_fconf s0 [] h0) c ->
  (forall f, (f < NFILE)%nat -> fl_ref (k_file (fc_env c) f) = refcount f (fc_refs c)) /\
  (forall me f, f ∈ fc_refs c -> exists s', filedup me f (fc_env c) = Ok f s') /\
  exists pipes l,
    krep kend (k_km (fc_env c)) (fc_pages c ++ pipes) l /\ l ++ fc_pages c ++ pipes ≡ₚ l0 ++ h0 /\
    forall p, (p ∈ pipes <-> end_held c p false \/ end_held c p true) /\
      (p ∈ pipes -> pi_lock (k_pipe (fc_env c) p) = initlock /\
        (pi_readopen (k_pipe (fc_env c) p) = true <-> end_held c p false) /\
        (pi_writeopen (k_pipe (fc_env c) p) = true <-> end_held c p true)).
Proof.
  intros Hi Hr. assert (Hs : fsound (l0 ++ h0) c).
  { apply finitial_sound in Hi. revert Hi. induction Hr; [done|]. eauto using fstep_sound. }
  destruct Hs as (es & l & F & Hp). split; [apply F|]. split.
  { intros me f Hf. pose proof (fi_range _ _ _ _ _ _ F f Hf) as Hn. pose proof (proj1 (refcount_in _ _) Hf).
    assert (Hw : wp (filedup me f) (fun r _ => r = f) (fc_env c)).
    { apply wp_filedup; [apply F| |done]. rewrite (fi_count _ _ _ _ _ _ F f Hn). lia. }
    apply wp_ok in Hw as (r & s' & E & ->). eauto. }
  exists (pipe_pages es), l. split_and!; [apply F|done|]. intros p.
  assert (Hin : p ∈ pipe_pages es <-> is_Some (es !! p)).
  { unfold pipe_pages. rewrite list_elem_of_fmap. split; [intros ((q & e) & -> & He); apply elem_of_map_to_list in He; eauto|].
    intros [e He]. exists (p, e). split; [done|]. by apply elem_of_map_to_list. }
  split.
  - rewrite Hin. split.
    + intros [e He]. rewrite !(end_held_iff _ _ _ _ _ _ _ F Hp He). apply (pv_used _ _ _ _ (fi_pipe _ _ _ _ _ _ F p e He)).
    + intros [(f & Hf & [Ht <- _])|(f & Hf & [Ht <- _])]; destruct (fi_end _ _ _ _ _ _ F f Hf Ht) as (e & He & _); eauto.
  - rewrite Hin. intros [e He]. destruct (fi_pipe _ _ _ _ _ _ F p e He) as [P1 [P2 P3] _ _].
    rewrite P2, P3, !(end_held_iff _ _ _ _ _ _ _ F Hp He), !bool_decide_eq_true. done.
Qed.
End ftable.

(** ** A pipe is opened and its read end closed *)

(** A transaction over blocks that do not fail. *)
#[local] Instance demo_top : TxTop Tx.tabs := {|
  t_begin_op := modify (fun a => t_with (t_view a) ∅ a); t_end_op := modify (fun a => t_with (t_view a) ∅ a); t_initlog _ := ret tt |}.

Definition end_state {S A} (m : M S A) (s : S) : S := match m s with Ok _ s' => s' | _ => s end.
Lemma end_state_ok {S A} (m : M S A) (s : S) a : wp m (fun r _ => r = a) s -> m s = Ok a (end_state m s).
Proof. unfold wp, end_state. destruct (m s); [by intros ->|done..]. Qed.

Definition demo_piped : kenv Tx.tabs := end_state (pipealloc demo_kend 0 1) demo_kenv.
Definition demo_closed : kenv Tx.tabs := end_state (fileclose demo_kend 0 1 0) demo_piped.

Lemma demo_piped_ok : pipealloc demo_kend 0 1 demo_kenv = Ok (Some (0, 1)%nat) demo_piped.
Proof. unfold demo_piped. refine (end_state_ok (pipealloc demo_kend 0 1) demo_kenv (Some (0, 1)%nat) _). vm_compute. reflexivity. Qed.
Lemma demo_closed_ok : fileclose demo_kend 0 1 0 demo_piped = Ok tt demo_closed.
Proof. unfold demo_closed. refine (end_state_ok (fileclose demo_kend 0 1 0) demo_piped tt _). vm_compute. reflexivity. Qed.

Lemma demo_finitial : finitial demo_kend demo_kenv (pg <$> [0; 1; 2]) (pg <$> [3; 4]).
Proof. split; [reflexivity|intros f _; split; reflexivity|]. exact (vrep_krep _ _ _ _ _ _ _ _ demo_vrep). Qed.

Definition demo_conf : fconf := mk_fconf demo_closed [1%nat] (pg <$> [0; 1; 2]).

Lemma demo_conf_reached : rtc (fstep demo_kend) (mk_fconf demo_kenv [] (pg <$> [0; 1; 2])) demo_conf.
Proof.
  eapply rtc_l; [exact (fs_pipe _ _ _ _ _ _ _ _ _ demo_piped_ok)|]. apply rtc_once.
  exact (fs_close _ _ _ _ [0; 1]%nat [1%nat] _ 0 _ (reflexivity _) (or_introl (ex_intro _ tt demo_closed_ok))).
Qed.

Lemma demo_end_held : end_held demo_conf (pg 3) true.
Proof. exists 1%nat. split; [apply elem_of_cons; by left|]. split; vm_compute; reflexivity. Qed.

Lemma ftable_sound_witness : exists pipes l,
  krep demo_kend (k_km (fc_env demo_conf)) (fc_pages demo_conf ++ pipes) l /\ pg 3 ∈ pipes.
Proof.
  pose proof (ftable_sound demo_kend demo_kenv (pg <$> [0; 1; 2]) (pg <$> [3; 4]) demo_conf demo_finitial demo_conf_reached) as H.
  destruct H as [_ [_ [pipes [l [Hk [_ Hp]]]]]].
  exists pipes, l. split; [exact Hk|]. exact (proj2 (proj1 (Hp (pg 3))) (or_intror demo_end_held)).
Defined.
