(* ===== verification/Ulib.v ===== *)
(** * The user library ([src/xv6/ulib.c] and [src/xv6/printf.c])

    User programs call the system through the class [OS], whose state is the rest of the
    machine as the program sees it.  [exit] ends the program: its result is [Blocked], the
    state in which the program stops.  A C string that is only read is the list of its bytes
    without the final NUL; where a routine stores, it works on the memory of [Mem.v]. *)

From S2P Require Import Prelude Mem CString.

(** ** System calls *)

(** A call that fills a buffer returns the bytes it stores along with its result.  A program
    is followed in one process: [os_fork] returns what it returns there, and an [os_exec]
    that succeeds does not return. *)
Class OS (S : Type) : Type := {
  os_read : Z -> Z -> M S (Z * list Z);
  os_write : Z -> list Z -> M S Z;
  os_open : list Z -> Z -> M S Z;
  os_close : Z -> M S Z;
  os_fstat : Z -> M S (Z * list Z);
  os_dup : Z -> M S Z;
  os_mknod : list Z -> Z -> Z -> M S Z;
  os_mkdir : list Z -> M S Z;
  os_chdir : list Z -> M S Z;
  os_link : list Z -> list Z -> M S Z;
  os_unlink : list Z -> M S Z;
  os_fork : M S Z;
  os_exec : list Z -> list (list Z) -> M S Z;
  os_wait : M S Z;
  os_kill : Z -> M S Z;
  os_sleep : Z -> M S Z
}.

(** The bytes of a string constant of the source. *)
Definition bytes (s : string) : list Z := (fun c => Z.of_N (Ascii.N_of_ascii c)) <$> String.list_ascii_of_string s.
Definition NL : Z := 10.
Definition line (s : string) : list Z := bytes s ++ [NL].

Section ulib.
Context {S : Type} `{!OS S}.

Definition exit {A} : M S A := waits.

(** ** Strings *)

Fixpoint strcpy (m : mem) (s : Z) (t : list Z) : mem :=
  match t with
  | [] => store8 m s 0
  | c :: t => strcpy (store8 m s c) (s + 1) t
  end.

Fixpoint strcmp (p q : list Z) : Z :=
  match p, q with
  | [], [] => 0
  | [], d :: _ => u8 0 - u8 d
  | c :: _, [] => u8 c - u8 0
  | c :: p, d :: q => if c =? d then strcmp p q else u8 c - u8 d
  end.

(** The suffix of [s] that starts at the first [c]. *)
Fixpoint strchr (s : list Z) (c : Z) : option (list Z) :=
  match s with
  | [] => None
  | d :: s' => if d =? c then Some s else strchr s' c
  end.

Fixpoint atoi_loop (s : list Z) (n : Z) : Z :=
  match s with
  | c :: s => if (48 <=? i8 c) && (i8 c <=? 57) then atoi_loop s (i32 (n * 10 + i8 c - 48)) else n
  | [] => n
  end.
Definition atoi (s : list Z) : Z := atoi_loop s 0.

(** [memmove] of the user library copies upwards only. *)
Definition umemmove (m : mem) (vdst vsrc n : Z) : mem := copy_forward m vdst vsrc (Z.to_nat n).

Definition umemset (m : mem) (dst c n : Z) : mem := stosb m dst c (Z.to_nat n).

Fixpoint gets_loop (k : nat) (buf : list Z) : M S (list Z) :=
  match k with
  | O => ret buf
  | Datatypes.S k =>
      let! r := os_read 0 1 in
      if fst r <? 1 then ret buf else
      let c := default 0 (snd r !! 0%nat) in
      let buf := buf ++ [c] in
      if (c =? 10) || (c =? 13) then ret buf else gets_loop k buf
  end.
(** The bytes stored before the NUL; [max - 1] is the number of turns of the loop. *)
Definition ulib_gets (max : Z) : M S (list Z) := gets_loop (Z.to_nat (max - 1)) [].

Definition stat (n : list Z) : M S (Z * list Z) :=
  let! fd := os_open n 0 in
  if fd <? 0 then ret (-1, []) else
  let! r := os_fstat fd in
  os_close fd ;;;
  ret r.

(** ** [printf] *)

Definition putc (fd c : Z) : M S unit := os_write fd [u8 c] ;;; ret tt.

Definition digits : list Z := bytes "0123456789ABCDEF".

(** [buf[i++] = c] in the buffer of 16 bytes. *)
Definition push (buf : list Z) (c : Z) : M S (list Z) :=
  if (length buf <? 16)%nat then ret (buf ++ [c]) else undefined "printint: buf".

Fixpoint digits_loop (fuel : nat) (x base : Z) (buf : list Z) : M S (list Z) :=
  match fuel with
  | O => fun _ => OutOfFuel
  | Datatypes.S k =>
      let! buf := push buf (default 0 (digits !! Z.to_nat (x mod base))) in
      let x := x / base in
      if x =? 0 then ret buf else digits_loop k x base buf
  end.

Fixpoint put_back (fd : Z) (buf : list Z) : M S unit :=
  match buf with
  | [] => ret tt
  | c :: buf => put_back fd buf ;;; putc fd c
  end.

Definition printint (fd xx base : Z) (sgn : bool) : M S unit :=
  let neg := sgn && (xx <? 0) in
  let x := if neg then u32 (- xx) else u32 xx in
  let! buf := digits_loop 32 x base [] in
  let! buf := (if neg then push buf 45 else ret buf) in
  put_back fd buf.

(** The words after the format: numbers, and pointers to strings, null or not. *)
Inductive arg : Type := AInt (x : Z) | AStr (s : option (list Z)).

Fixpoint put_str (fd : Z) (s : list Z) : M S unit :=
  match s with
  | [] => ret tt
  | c :: s => putc fd c ;;; put_str fd s
  end.

Definition with_int (ap : list arg) (k : Z -> list arg -> M S unit) : M S unit :=
  match ap with AInt x :: ap => k x ap | _ => undefined "printf: argument" end.
Definition with_str (ap : list arg) (k : list Z -> list arg -> M S unit) : M S unit :=
  match ap with AStr s :: ap => k (default (bytes "(null)") s) ap | _ => undefined "printf: argument" end.

(** [state] tells whether the previous character was an unquoted percent sign. *)
Fixpoint printf_loop (fd : Z) (fmt : list Z) (state : bool) (ap : list arg) : M S unit :=
  match fmt with
  | [] => ret tt
  | c :: fmt =>
      let c := Z.land c 255 in
      if negb state then
        if c =? 37 then printf_loop fd fmt true ap
        else putc fd c ;;; printf_loop fd fmt false ap
      else if c =? 100 then with_int ap (fun x ap => printint fd (i32 x) 10 true ;;; printf_loop fd fmt false ap)
      else if (c =? 120) || (c =? 112) then with_int ap (fun x ap => printint fd (i32 x) 16 false ;;; printf_loop fd fmt false ap)
      else if c =? 115 then with_str ap (fun s ap => put_str fd s ;;; printf_loop fd fmt false ap)
      else if c =? 99 then with_int ap (fun x ap => putc fd x ;;; printf_loop fd fmt false ap)
      else if c =? 37 then putc fd c ;;; printf_loop fd fmt false ap
      else putc fd 37 ;;; putc fd c ;;; printf_loop fd fmt false ap
  end.
Definition printf (fd : Z) (fmt : list Z) (ap : list arg) : M S unit := printf_loop fd fmt false ap.
End ulib.

(** ** Numbers *)

(** The number whose digits, lowest first, are [ds]. *)
Definition value (base : Z) (ds : list Z) : Z := foldr (fun d n => d + base * n) 0 ds.

(** The character of a digit. *)
Definition digit (d : Z) : Z := default 0 (digits !! Z.to_nat d).

Lemma value_snoc base ds d : value base (ds ++ [d]) = value base ds + base ^ Z.of_nat (length ds) * d.
Proof.
  induction ds as [|x ds IH]; [cbn; lia|]. cbn [app value foldr length] in *. fold (value base (ds ++ [d])). fold (value base ds).
  rewrite IH, Nat2Z.inj_succ, Z.pow_succ_r by lia. lia.
Qed.

Section numbers.
Context {S : Type} `{!OS S}.

Lemma bind_bind {A B C} (m : M S A) (f : A -> M S B) (g : B -> M S C) s :
  bind (bind m f) g s = bind m (fun x => bind (f x) g) s.
Proof. unfold bind. by destruct (m s). Qed.
Lemma bind_ext {A B} (m : M S A) (f g : A -> M S B) s : (forall a s', f a s' = g a s') -> bind m f s = bind m g s.
Proof. intros H. unfold bind. by destruct (m s). Qed.

Lemma put_str_app fd l l' (s : S) : put_str fd (l ++ l') s = bind (put_str fd l) (fun _ => put_str fd l') s.
Proof.
  revert s. induction l as [|c l IH]; intros s; [done|]. cbn [app put_str]. rewrite bind_bind. apply bind_ext. intros _ s'. apply IH.
Qed.
Lemma put_back_rev fd l (s : S) : put_back fd l s = put_str fd (rev l) s.
Proof.
  revert s. induction l as [|c l IH]; intros s; [done|]. cbn [put_back rev]. rewrite put_str_app. unfold bind at 1 2. rewrite IH.
  destruct (put_str fd (rev l) s) as [[] s'| | |]; try done. cbn [put_str]. unfold bind. destruct (putc fd c s') as [[] s2| | |]; done.
Qed.

(** The loop produces the digits of [x], at most [n] of them. *)
Lemma digits_loop_ok base n : 2 <= base <= 16 -> forall k x buf (s : S), 0 <= x < base ^ Z.of_nat (Datatypes.S n) ->
  (n < k)%nat -> (length buf + n < 16)%nat ->
  exists ds, digits_loop k x base buf s = Ok (buf ++ (digit <$> ds)) s /\ (1 <= length ds <= Datatypes.S n)%nat /\
    Forall (fun d => 0 <= d < base) ds /\ value base ds = x /\ (forall d, last ds = Some d -> d = 0 -> ds = [0]).
Proof.
  intros Hb. induction n as [|n IH]; intros k x buf s Hx Hk Hl; (destruct k as [|k]; [lia|]); cbn [digits_loop];
    unfold push; rewrite (proj2 (Nat.ltb_lt _ _)) by lia; unfold bind, ret; fold (digit (x mod base)); pose proof (Z.mod_pos_bound x base ltac:(lia)) as Hm;
    pose proof (Z.div_mod x base ltac:(lia)) as Hd.
  - rewrite Z.pow_1_r in Hx. rewrite Z.div_small, Z.mod_small by lia. cbn [Z.eqb]. exists [x].
    split; [done|]. split; [simpl; lia|]. split; [by apply Forall_singleton|]. split; [cbn; lia|]. intros d [= ->] ->. done.
  - assert (Hq : 0 <= x / base < base ^ Z.of_nat (Datatypes.S n)).
    { rewrite Nat2Z.inj_succ, Z.pow_succ_r in Hx by lia. split; [apply Z.div_pos; lia|]. apply Z.div_lt_upper_bound; lia. }
    destruct (Z.eqb_spec (x / base) 0) as [H0|H0].
    + exists [x mod base]. split; [done|]. split; [simpl; lia|]. split; [by apply Forall_singleton|]. split; [cbn; lia|].
      intros d [= <-] ->. done.
    + destruct (IH k (x / base) (buf ++ [digit (x mod base)]) s Hq) as (ds & E & Hlen & Hf & Hv & Hlast); [lia|rewrite length_app; simpl; lia|].
      exists (x mod base :: ds). split; [rewrite E; f_equal; by rewrite <-app_assoc|]. split; [simpl; lia|]. split; [by constructor|].
      split; [cbn; unfold value in Hv; rewrite Hv; lia|]. intros d Hld ->. destruct ds as [|d' ds]; [simpl in Hlen; lia|].
      rewrite last_cons_cons in Hld. specialize (Hlast 0 Hld eq_refl). rewrite Hlast in Hv. cbn in Hv. lia.
Qed.

Lemma i32_step n d : i32 (i32 n * 10 + d) = i32 (n * 10 + d).
Proof. unfold i32. repeat zcase; zlia. Qed.

(** [atoi] reads the digits, highest first, modulo the width of an [int]. *)
Lemma atoi_digits ds : Forall (fun d => 0 <= d < 10) ds -> atoi (rev (digit <$> ds)) = i32 (value 10 ds).
Proof.
  assert (Hc : forall d, 0 <= d < 10 -> i8 (digit d) = 48 + d).
  { intros d Hd. assert (d = 0 \/ d = 1 \/ d = 2 \/ d = 3 \/ d = 4 \/ d = 5 \/ d = 6 \/ d = 7 \/ d = 8 \/ d = 9) as H by lia.
    repeat destruct H as [->|H]; try reflexivity. by subst. }
  assert (Hl : forall es l, Forall (fun d => 0 <= d < 10) es -> forall n, atoi_loop ((digit <$> es) ++ l) (i32 n) = atoi_loop l (i32 (fold_left (fun n d => n * 10 + d) es n))).
  { induction es as [|d es IH]; intros l Hf n; [done|]. apply Forall_cons in Hf as [Hd Hf]. cbn [fmap list_fmap app atoi_loop fold_left].
    rewrite (Hc d Hd). rewrite (proj2 (Z.leb_le _ _)), (proj2 (Z.leb_le _ _)) by lia. cbn [andb]. rewrite <-IH by done. f_equal.
    replace (i32 n * 10 + (48 + d) - 48) with (i32 n * 10 + d) by lia. apply i32_step. }
  intros Hf. unfold atoi. change (digit <$> ds) with (map digit ds). rewrite <-(map_rev digit ds). change (map digit (rev ds)) with (digit <$> rev ds). rewrite <-(app_nil_r (_ <$> _)). change 0 with (i32 0). rewrite Hl by (by apply List.Forall_rev).
  cbn [atoi_loop]. f_equal. clear. induction ds as [|d ds IH]; [done|]. cbn [rev]. rewrite fold_left_app. cbn [fold_left]. rewrite IH.
  cbn [value foldr]. fold (value 10 ds). lia.
Qed.

Lemma printint_ok fd xx base sgn n (s : S) : 10 <= base <= 16 -> -2147483648 <= xx < 2147483648 ->
  4294967296 <= base ^ Z.of_nat (Datatypes.S n) -> (n < 15)%nat -> let neg := sgn && (xx <? 0) in exists ds,
  printint fd xx base sgn s = put_str fd ((if neg then [45] else []) ++ rev (digit <$> ds)) s /\
  (1 <= length ds <= Datatypes.S n)%nat /\ Forall (fun d => 0 <= d < base) ds /\ value base ds = (if neg then - xx else u32 xx) /\
  (forall d, last ds = Some d -> d = 0 -> ds = [0]).
Proof.
  intros Hb Hx Hn Hlt neg. set (x := if neg then - xx else u32 xx). pose proof (u32_range xx) as Hr. unfold W32 in Hr.
  assert (Ha : (if neg then u32 (- xx) else u32 xx) = x /\ 0 <= x < 4294967296).
  { unfold x, neg. destruct sgn; [|done]. cbn [andb]. zcase; [|done]. rewrite u32_small by (unfold W32; lia). lia. }
  destruct Ha as [Ha Hx']. clearbody x.
  destruct (digits_loop_ok base n ltac:(lia) 32 x [] s ltac:(lia) ltac:(lia) ltac:(simpl; lia)) as (ds & E & Hlen & Hf & Hv & Hlast).
  exists ds. split; [|done]. unfold printint. fold neg. rewrite Ha. unfold bind at 1. rewrite E. cbn [app].
  destruct neg; [|apply put_back_rev]. unfold push. rewrite length_fmap, (proj2 (Nat.ltb_lt _ _)) by lia.
  etransitivity; [apply put_back_rev|]. by rewrite rev_app_distr.
Qed.

(** What [printf] prints for a number under [%d] is read back by [atoi] (after the sign of a
    negative one), and under [%x] it is the hexadecimal digits of the word; its buffer of
    16 bytes is never overrun. *)
Theorem printf_numbers fd x (s : S) : 0 <= x < 4294967296 ->
  (exists l, printf fd (bytes "%d") [AInt x] s = put_str fd l s /\ (1 <= length l <= 11)%nat /\
     (0 <= i32 x -> atoi l = i32 x) /\ (i32 x < 0 -> exists l', l = 45 :: l' /\ i32 (- atoi l') = i32 x)) /\
  (exists ds, printf fd (bytes "%x") [AInt x] s = put_str fd (rev (digit <$> ds)) s /\ (1 <= length ds <= 8)%nat /\
     Forall (fun d => 0 <= d < 16) ds /\ value 16 ds = x).
Proof.
  intros Hx. pose proof (i32_range x) as Hr.
  assert (Hret : forall (m : M S unit), bind m (fun _ => ret tt) s = m s) by (intros m; unfold bind, ret; by destruct (m s) as [[] ?| | |]).
  split.
  - destruct (printint_ok fd (i32 x) 10 true 9 s ltac:(lia) Hr ltac:(lia) ltac:(lia)) as (ds & E & Hlen & Hf & Hv & _). cbn [andb] in *.
    exists ((if i32 x <? 0 then [45] else []) ++ rev (digit <$> ds)). split; [etransitivity; [apply Hret|exact E]|].
    split; [rewrite length_app, length_rev, length_fmap; destruct (_ <? _); simpl; lia|].
    pose proof (atoi_digits ds Hf) as Ha. rewrite Hv in Ha. destruct (Z.ltb_spec (i32 x) 0); (split; [intros H'|intros H']); try lia.
    + eexists. split; [done|]. rewrite Ha. unfold i32 in *. repeat zcase; zlia.
    + cbn [app]. rewrite Ha. unfold i32, u32 in *. repeat zcase; zlia.
  - destruct (printint_ok fd (i32 x) 16 false 7 s ltac:(lia) Hr ltac:(lia) ltac:(lia)) as (ds & E & Hlen & Hf & Hv & _). cbn [andb app] in *.
    exists ds. split; [etransitivity; [apply Hret|exact E]|]. split; [lia|]. split; [done|]. rewrite Hv. unfold i32, u32. repeat zcase; zlia.
Qed.
End numbers.
