(* ===== verification/Textprogs.v ===== *)
(** * The text programs ([src/xv6/cat.c], [src/xv6/wc.c], [src/xv6/echo.c])

    The programs are written against the system calls of [Ulib.OS].  What they rely on of
    the files they read and write is the class [Files]: reads return the bytes of the file in
    order, possibly fewer than asked for, and writes to the standard output append to it. *)

From S2P Require Import Prelude Mem CString Ulib.

(** ** Files as byte streams *)

(** [f_rest s fd] is what is left to read from [fd] and [f_out s] what the standard output has
    received.  When [f_full s fd], reads from [fd] return all the bytes asked for, up to the
    end of the file, as those of a disk file do. *)
Class Files (S : Type) `{!OS S} : Type := {
  f_rest : S -> Z -> list Z;
  f_full : S -> Z -> Prop;
  f_out : S -> list Z;
  f_read s fd n : 0 <= n -> wp (os_read fd n) (fun r s' => exists k : nat,
    r = (Z.of_nat k, take k (f_rest s fd)) /\ Z.of_nat k <= n /\ (k <= length (f_rest s fd))%nat /\
    (k = 0%nat -> n = 0 \/ f_rest s fd = []) /\ f_rest s' fd = drop k (f_rest s fd) /\ f_out s' = f_out s /\
    (f_full s fd -> (Z.of_nat k = n \/ k = length (f_rest s fd)) /\ f_full s' fd)) s;
  f_write s l : wp (os_write 1 l) (fun r s' => r = Z.of_nat (length l) /\ f_out s' = f_out s ++ l /\
    forall fd, f_rest s' fd = f_rest s fd /\ (f_full s fd -> f_full s' fd)) s
}.

(** ** Programs *)

Section progs.
Context {S : Type} `{!OS S}.

(** A program with file arguments: without any it works on the standard input. *)
Fixpoint each_file (name : string) (work : Z -> list Z -> M S unit) (argv : list (list Z)) : M S unit :=
  match argv with
  | [] => exit
  | a :: argv =>
      let! fd := os_open a 0 in
      if fd <? 0 then printf 1 (line (name ++ ": cannot open %s")) [AStr (Some a)] ;;; exit else
      work fd a ;;; os_close fd ;;; each_file name work argv
  end.
Definition files_main (name : string) (work : Z -> list Z -> M S unit) (argv : list (list Z)) : M S unit :=
  match argv with
  | [] | [_] => work 0 [] ;;; exit
  | _ :: files => each_file name work files
  end.

Definition BUFSIZE : Z := 512.

Fixpoint cat_loop (fuel : nat) (fd : Z) : M S Z :=
  match fuel with
  | O => fun _ => OutOfFuel
  | Datatypes.S k =>
      let! r := os_read fd BUFSIZE in
      let n := fst r in
      if 0 <? n then
        let! w := os_write 1 (take (Z.to_nat n) (snd r)) in
        if negb (w =? n) then printf 1 (line "cat: write error") [] ;;; exit else cat_loop k fd
      else ret n
  end.
Definition cat (fuel : nat) (fd : Z) : M S unit :=
  let! n := cat_loop fuel fd in
  if n <? 0 then printf 1 (line "cat: read error") [] ;;; exit else ret tt.
Definition cat_main (fuel : nat) (argv : list (list Z)) : M S unit := files_main "cat" (fun fd _ => cat fuel fd) argv.

(** [l], [w], [c] and [inword] of [wc]. *)
Record counts : Type := mk_counts { wc_l : Z; wc_w : Z; wc_c : Z; wc_in : bool }.

Definition blanks : list Z := [32; 13; 9; 10; 11].

Definition count_byte (x : counts) (b : Z) : counts :=
  let c := i32 (wc_c x + 1) in
  let l := if b =? 10 then i32 (wc_l x + 1) else wc_l x in
  if strchr blanks b is Some _ then mk_counts l (wc_w x) c false
  else if negb (wc_in x) then mk_counts l (i32 (wc_w x + 1)) c true
  else mk_counts l (wc_w x) c (wc_in x).

Fixpoint wc_loop (fuel : nat) (fd : Z) (x : counts) : M S (Z * counts) :=
  match fuel with
  | O => fun _ => OutOfFuel
  | Datatypes.S k =>
      let! r := os_read fd BUFSIZE in
      let n := fst r in
      if 0 <? n then wc_loop k fd (foldl count_byte x (take (Z.to_nat n) (snd r))) else ret (n, x)
  end.
Definition wc (fuel : nat) (fd : Z) (name : list Z) : M S unit :=
  let! r := wc_loop fuel fd (mk_counts 0 0 0 false) in
  if fst r <? 0 then printf 1 (line "wc: read error") [] ;;; exit else
  printf 1 (line "%d %d %d %s") [AInt (u32 (wc_l (snd r))); AInt (u32 (wc_w (snd r))); AInt (u32 (wc_c (snd r))); AStr (Some name)].
Definition wc_main (fuel : nat) (argv : list (list Z)) : M S unit := files_main "wc" (wc fuel) argv.

Fixpoint echo_loop (argv : list (list Z)) : M S unit :=
  match argv with
  | [] => ret tt
  | a :: argv =>
      printf 1 (bytes "%s%s") [AStr (Some a); AStr (Some (match argv with [] => [NL] | _ => bytes " " end))] ;;; echo_loop argv
  end.
Definition echo_main (argv : list (list Z)) : M S unit := echo_loop (tail argv) ;;; exit.
End progs.

(** ** Correctness *)

Section props.
Context {S : Type} `{!OS S} `{!Files S}.

Lemma wp_put_str s l (Q : unit -> S -> Prop) : Forall (fun c => 0 <= c < 256) l ->
  (forall s', f_out s' = f_out s ++ l -> (forall fd, f_rest s' fd = f_rest s fd /\ (f_full s fd -> f_full s' fd)) -> Q tt s') ->
  wp (put_str 1 l) Q s.
Proof.
  revert s. induction l as [|c l IH]; intros s Hl HQ; cbn [put_str]; wp_steps; [apply HQ; [by rewrite app_nil_r|done]|].
  apply Forall_cons in Hl as [Hc Hl]. unfold putc. wp_steps. eapply wp_mono; [apply f_write|]. intros r s1 (_ & Ho & Hr). wp_steps.
  apply IH; [done|]. intros s' Ho' Hr'. apply HQ.
  - rewrite Ho', Ho, u8_small by done. by rewrite <-app_assoc.
  - intros fd. destruct (Hr fd) as [E1 E2], (Hr' fd) as [E3 E4]. split; [congruence|auto].
Qed.

(** [cat] copies the whole file, in whatever pieces the reads return it. *)
Theorem cat_copies s fd fuel : (length (f_rest s fd) < fuel)%nat ->
  wp (cat fuel fd) (fun _ s' => f_out s' = f_out s ++ f_rest s fd /\ f_rest s' fd = []) s.
Proof.
  intros Hf. unfold cat. wp_step.
  apply (wp_mono _ (fun n s' => n = 0 /\ f_out s' = f_out s ++ f_rest s fd /\ f_rest s' fd = [])).
  - revert s Hf. induction fuel as [|fuel IH]; intros s Hf; [lia|]. cbn [cat_loop]. wp_step.
    eapply wp_mono; [apply f_read; unfold BUFSIZE; lia|]. intros r s1 (k & -> & Hk & Hlen & Hz & Hr & Ho & _). cbn [fst snd].
    destruct (Z.ltb_spec 0 (Z.of_nat k)) as [Hp|Hp].
    + wp_step. eapply wp_mono; [apply f_write|]. intros w s2 (-> & Ho2 & Hr2). destruct (Hr2 fd) as [Hr2' _].
      rewrite Nat2Z.id, take_take, Nat.min_id in Ho2 |- *. rewrite length_take_le, Z.eqb_refl by done. cbn [negb].
      eapply wp_mono; [apply IH; rewrite Hr2', Hr, length_drop; lia|]. intros n s' (-> & Ho' & Hr'). split_and!; [done| |done].
      by rewrite Ho', Ho2, Ho, Hr2', Hr, <-app_assoc, take_drop.
    + wp_step. assert (k = 0)%nat as -> by lia. destruct (Hz eq_refl) as [?|Hn]; [unfold BUFSIZE in *; lia|].
      rewrite Hr, Ho, Hn, app_nil_r. done.
  - intros n s' (-> & H). wp_steps. done.
Qed.

(** The pieces of a text between blanks. *)
Definition blank (b : Z) : bool := if strchr blanks b is Some _ then true else false.
Fixpoint split_blank (l : list Z) : list (list Z) :=
  match l with
  | [] => [[]]
  | b :: l => if blank b then [] :: split_blank l else
      match split_blank l with w :: ws => (b :: w) :: ws | [] => [[b]] end
  end.
Definition words (l : list Z) : list (list Z) := filter (fun w => w <> []) (split_blank l).

Lemma split_blank_cons l : exists w ws, split_blank l = w :: ws.
Proof. induction l as [|b l (w & ws & IH)]; simpl; [eauto|]. rewrite IH. destruct (blank b); eauto. Qed.

Lemma words_length l : (length (words l) <= length l)%nat.
Proof.
  unfold words. induction l as [|b l IH]; [done|]. destruct (split_blank_cons l) as (w & ws & E). cbn [split_blank]. rewrite E in *.
  destruct (blank b); [rewrite (filter_cons_False _ []) by (intros H; by apply H); cbn [length]; lia|].
  rewrite filter_cons_True by done. cbn [length]. rewrite filter_cons in IH. destruct (decide _) in IH; cbn [length] in IH; lia.
Qed.

Lemma i32_succ a : i32 (i32 a + 1) = i32 (a + 1).
Proof. unfold i32. repeat zcase; zlia. Qed.

(** The counters, before they are cut to the width of an [int]. *)
Lemma wc_fold l : forall nl w c (b : bool), foldl count_byte (mk_counts (i32 nl) (i32 w) (i32 c) b) l =
  mk_counts (i32 (nl + Z.of_nat (length (filter (fun x => x = 10) l))))
    (i32 (w + Z.of_nat (length (words l)) - (if b && bool_decide (head (split_blank l) <> Some []) then 1 else 0)))
    (i32 (c + Z.of_nat (length l))) (if l is [] then b else match last l with Some x => negb (blank x) | None => b end).
Proof.
  induction l as [|x l IH]; intros nl w c b.
  { cbn. rewrite andb_false_r, Z.sub_0_r, !Z.add_0_r. done. }
  destruct (split_blank_cons l) as (p & ps & Ep). cbn [foldl]. unfold count_byte at 2. cbn [wc_l wc_w wc_c wc_in].
  rewrite !i32_succ. set (nl' := if x =? 10 then nl + 1 else nl).
  assert (En : (if x =? 10 then i32 (nl + 1) else i32 nl) = i32 nl') by (unfold nl'; by destruct (x =? 10)). rewrite En.
  assert (Enl : nl' + Z.of_nat (length (filter (fun x => x = 10) l)) = nl + Z.of_nat (length (filter (fun x => x = 10) (x :: l)))).
  { unfold nl'. destruct (Z.eqb_spec x 10) as [->|Hx]; [rewrite filter_cons_True by done; simpl; lia|by rewrite filter_cons_False]. }
  assert (Ec : c + 1 + Z.of_nat (length l) = c + Z.of_nat (length (x :: l))) by (simpl; lia).
  assert (Elast : forall b', (b' = negb (blank x)) -> (if l is [] then b' else match last l with Some x => negb (blank x) | None => b' end) =
     match last (x :: l) with Some x => negb (blank x) | None => b end).
  { intros b' ->. destruct l as [|y l]; [done|]. rewrite last_cons_cons. destruct (last (y :: l)) eqn:E; [done|]. by apply last_None in E. }
  unfold words. cbn [split_blank]. rewrite Ep. unfold blank in *. destruct (strchr blanks x) eqn:Eb.
  - rewrite IH, Enl, Ec. unfold words. rewrite Ep. f_equal; [|by apply Elast]. rewrite (filter_cons_False _ []) by (intros H; by apply H). cbn. by rewrite andb_false_r.
  - rewrite (filter_cons_True _ (x :: p)) by done. destruct b; cbn [negb]; rewrite IH, Enl, Ec; unfold words; rewrite Ep; (f_equal; [|by apply Elast]); f_equal; cbn [head andb length];
      try rewrite (bool_decide_true (Some (x :: p) <> Some [])) by done.
    + destruct p as [|y p]; [rewrite filter_cons_False, bool_decide_false by (intros H; by apply H)|rewrite filter_cons_True, bool_decide_true by done; cbn [length]]; lia.
    + destruct p as [|y p]; [rewrite filter_cons_False, bool_decide_false by (intros H; by apply H)|rewrite filter_cons_True, bool_decide_true by done; cbn [length]]; lia.
Qed.

Lemma digit_byte d : 0 <= d < 16 -> 0 <= digit d < 256.
Proof.
  intros Hd. assert (Hc : forallb (fun c => (0 <=? c) && (c <? 256)) digits = true) by reflexivity. rewrite forallb_forall in Hc.
  unfold digit. destruct (digits !! Z.to_nat d) as [c|] eqn:E; [|cbn; lia]. cbn. apply list_elem_of_lookup_2, list_elem_of_In, Hc, andb_prop in E. lia.
Qed.

Lemma wp_putc c s (Q : unit -> S -> Prop) : 0 <= c < 256 -> (forall s', f_out s' = f_out s ++ [c] -> Q tt s') -> wp (putc 1 c) Q s.
Proof. intros Hc HQ. unfold putc. wp_step. eapply wp_mono; [apply f_write|]. intros r s' (_ & Ho & _). wp_step. apply HQ. by rewrite Ho, u8_small. Qed.

(** A printed count is read back by [atoi]. *)
Lemma wp_print_count x s (Q : unit -> S -> Prop) : 0 <= x < 2147483648 ->
  (forall l s', atoi l = x -> f_out s' = f_out s ++ l -> (forall fd, f_rest s' fd = f_rest s fd /\ (f_full s fd -> f_full s' fd)) -> Q tt s') ->
  wp (printint 1 (i32 (u32 x)) 10 true) Q s.
Proof.
  intros Hx HQ. rewrite u32_small, i32_small by (unfold W32; lia).
  destruct (printint_ok 1 x 10 true 9 s ltac:(lia) ltac:(lia) ltac:(lia) ltac:(lia)) as (ds & E & _ & Hf & Hv & _). cbn [andb] in *.
  rewrite (proj2 (Z.ltb_ge x 0)) in * by lia. cbn [app] in E. unfold wp. rewrite E. apply (wp_put_str s).
  - apply List.Forall_rev, Forall_fmap. eapply Forall_impl; [exact Hf|]. intros d Hd. cbn beta in Hd. apply digit_byte. lia.
  - intros s' Ho Hr. apply (HQ (rev (digit <$> ds))); [|done|done]. rewrite (atoi_digits ds Hf), Hv, u32_small, i32_small by (unfold W32; lia). done.
Qed.

(** [wc] prints the numbers of newlines, of words (the maximal runs of non-blank bytes) and of
    bytes of the file, in whatever pieces the reads return it. *)
Theorem wc_counts s fd name fuel : Z.of_nat (length (f_rest s fd)) < 2147483648 -> (length (f_rest s fd) < fuel)%nat ->
  Forall (fun c => 0 <= c < 256) name -> let text := f_rest s fd in
  wp (wc fuel fd name) (fun _ s' => exists l w c, f_out s' = f_out s ++ l ++ [32] ++ w ++ [32] ++ c ++ [32] ++ name ++ [10] /\
    atoi l = Z.of_nat (length (filter (fun b => b = 10) text)) /\ atoi w = Z.of_nat (length (words text)) /\ atoi c = Z.of_nat (length text)) s.
Proof.
  intros Hlen Hf Hname text. unfold wc. wp_step.
  apply (wp_mono _ (fun r s' => r = (0, foldl count_byte (mk_counts 0 0 0 false) text) /\ f_out s' = f_out s)).
  { unfold text. clear Hlen text. generalize (mk_counts 0 0 0 false). revert s Hf. induction fuel as [|fuel IH]; intros s Hf x; [lia|]. cbn [wc_loop]. wp_step.
    eapply wp_mono; [apply f_read; unfold BUFSIZE; lia|]. intros r s1 (k & -> & Hk & Hl & Hz & Hr & Ho & _). cbn [fst snd].
    destruct (Z.ltb_spec 0 (Z.of_nat k)) as [Hp|Hp].
    - rewrite Nat2Z.id, take_take, Nat.min_id. eapply wp_mono; [apply IH; rewrite Hr, length_drop; lia|]. intros r s' [-> Ho'].
      rewrite Ho', Ho, Hr. split; [|done]. by rewrite <-foldl_app, take_drop.
    - wp_step. assert (k = 0)%nat as -> by lia. destruct (Hz eq_refl) as [?|Hn]; [unfold BUFSIZE in *; lia|]. by rewrite Hn, Ho. }
  intros r s1 [-> Ho]. change (mk_counts 0 0 0 false) with (mk_counts (i32 0) (i32 0) (i32 0) false). rewrite wc_fold. cbn [fst snd wc_l wc_w wc_c andb Z.ltb Z.compare].
  pose proof (length_filter (fun b => b = 10) text) as Hlines.
  pose proof (words_length text) as Hwords.
  fold text in Hlen. clearbody text. rewrite !Z.add_0_l, Z.sub_0_r, !i32_small by lia. generalize dependent (length (filter (fun b => b = 10) text)).
  generalize dependent (length (words text)). generalize dependent (length text). intros n3 H3 n2 H2 n1 H1.
  change (printf _ _ _) with (printint (S := S) 1 (i32 (u32 (Z.of_nat n1))) 10 true ;;; putc 1 32 ;;; printint 1 (i32 (u32 (Z.of_nat n2))) 10 true ;;; putc 1 32 ;;;
    printint 1 (i32 (u32 (Z.of_nat n3))) 10 true ;;; putc 1 32 ;;; put_str 1 name ;;; putc 1 10 ;;; ret tt).
  rewrite <-Ho. clear Ho Hf. wp_step. apply wp_print_count; [lia|]. intros l s2 Hl E2 _. wp_step. apply wp_putc; [lia|]. intros s3 E3.
  wp_step. apply wp_print_count; [lia|]. intros w s4 Hw E4 _. wp_step. apply wp_putc; [lia|]. intros s5 E5.
  wp_step. apply wp_print_count; [lia|]. intros c s6 Hc E6 _. wp_step. apply wp_putc; [lia|]. intros s7 E7.
  wp_step. apply wp_put_str; [done|]. intros s8 E8 _. wp_step. apply wp_putc; [lia|]. intros s9 E9. wp_step.
  exists l, w, c. split; [|done]. rewrite E9, E8, E7, E6, E5, E4, E3, E2, <-!app_assoc. done.
Qed.
End props.

(** ** Files whose reads end at given places *)

(** What is left of each descriptor, in the pieces in which it arrives (a disk file is one
    piece, a pipe or the console may have several), and the standard output. *)
Record tio : Type := mk_tio { tio_in : Z -> list (list Z); tio_out : list Z }.

Fixpoint read_piece (n : nat) (cs : list (list Z)) : list Z * list (list Z) :=
  match cs with
  | [] => ([], [])
  | [] :: cs => read_piece n cs
  | c :: cs => (take n c, drop n c :: cs)
  end.

#[export] Instance tio_os : OS tio := {|
  os_read fd n := fun s =>
    let (l, cs) := read_piece (Z.to_nat n) (tio_in s fd) in
    Ok (Z.of_nat (length l), l) (mk_tio (fun fd' => if fd' =? fd then cs else tio_in s fd') (tio_out s));
  os_write fd l := fun s => Ok (Z.of_nat (length l)) (if fd =? 1 then mk_tio (tio_in s) (tio_out s ++ l) else s);
  os_open _ _ := ret (-1);
  os_close _ := ret 0;
  os_fstat _ := ret (-1, []);
  os_dup _ := ret (-1); os_mknod _ _ _ := ret (-1); os_mkdir _ := ret (-1); os_chdir _ := ret (-1); os_link _ _ := ret (-1);
  os_unlink _ := ret (-1); os_fork := ret (-1); os_exec _ _ := ret (-1); os_wait := ret (-1); os_kill _ := ret (-1); os_sleep _ := ret 0 |}.

Lemma read_piece_spec n cs : let (l, cs') := read_piece n cs in
  exists k, l = take k (concat cs) /\ (k <= n)%nat /\ (k <= length (concat cs))%nat /\ (k = 0%nat -> n = 0%nat \/ concat cs = []) /\
    concat cs' = drop k (concat cs) /\
    ((length (filter (fun c => c <> []) cs) <= 1)%nat -> (k = n \/ k = length (concat cs)) /\ (length (filter (fun c => c <> []) cs') <= 1)%nat).
Proof.
  induction cs as [|[|b c] cs IH]; [by exists 0%nat; naive_solver lia|exact IH|]. cbn [read_piece].
  exists (Nat.min n (length (b :: c))). cbn [concat]. rewrite filter_cons_True by done. split_and!.
  - rewrite take_app_le by lia. destruct (Nat.min_spec n (length (b :: c))) as [[? ->]|[? ->]]; [done|]. by rewrite !take_ge by lia.
  - lia.
  - rewrite length_app. lia.
  - cbn [length]. lia.
  - rewrite drop_app_le by lia. f_equal. destruct (Nat.min_spec n (length (b :: c))) as [[? ->]|[? ->]]; [done|]. by rewrite !drop_ge by lia.
  - cbn [length]. intros Hf. assert (Hn : filter (fun c => c <> []) cs = []) by (apply nil_length_inv; lia).
    assert (Hc : concat cs = []).
    { clear -Hn. induction cs as [|[|x c] cs IH]; [done| |].
      - apply IH. by rewrite (filter_cons_False _ []) in Hn by (intros H; by apply H).
      - by rewrite filter_cons_True in Hn by done. }
    rewrite Hc, app_nil_r. cbn [length] in *. split; [lia|]. rewrite filter_cons. destruct (decide _); rewrite Hn; simpl; lia.
Qed.

#[export] Program Instance tio_files : Files tio := {|
  f_rest s fd := concat (tio_in s fd);
  f_full s fd := (length (filter (fun c => c <> []) (tio_in s fd)) <= 1)%nat;
  f_out := tio_out |}.
Next Obligation.
  intros s fd n Hn. pose proof (read_piece_spec (Z.to_nat n) (tio_in s fd)) as H. unfold wp, os_read, tio_os.
  destruct (read_piece (Z.to_nat n) (tio_in s fd)) as [l cs']. destruct H as (k & -> & H1 & H2 & H3 & H4 & H5). exists k. cbn.
  rewrite Z.eqb_refl, length_take_le by done. split_and!; [done|lia|done| |done|done|].
  - intros ->. destruct (H3 eq_refl); [left; lia|by right].
  - intros Hf. destruct (H5 Hf) as [[->| ->] H6]; (split; [|done]); [left; lia|by right].
Qed.
Next Obligation. intros s l. cbn. done. Qed.

Definition demo_tio : tio := mk_tio (fun _ => [bytes "one two"; line " three"; bytes "four"]) [].

Lemma cat_copies_witness : wp (cat 100 3) (fun _ s' => tio_out s' = bytes "one two three" ++ [10] ++ bytes "four") demo_tio.
Proof. eapply wp_mono; [apply (cat_copies demo_tio 3 100); vm_compute; lia|]. intros _ s' [H _]. exact H. Defined.

Lemma wc_counts_witness : wp (wc 100 3 (bytes "f")) (fun _ s' => exists l w c,
  tio_out s' = l ++ [32] ++ w ++ [32] ++ c ++ [32] ++ bytes "f" ++ [10] /\ atoi l = 1 /\ atoi w = 4 /\ atoi c = 18) demo_tio.
Proof.
  eapply wp_mono; [apply (wc_counts demo_tio 3 (bytes "f") 100); [vm_compute; reflexivity|vm_compute; lia|apply Forall_singleton; vm_compute; split; congruence]|].
  intros _ s' (l & w & c & Ho & Hl & Hw & Hc). exists l, w, c. split; [exact Ho|]. split; [exact Hl|]. split; [exact Hw|exact Hc].
Defined.

Lemma printf_numbers_witness : exists l, printf 1 (bytes "%d") [AInt 4294967254] demo_tio = put_str 1 l demo_tio /\ exists l', l = 45 :: l' /\ i32 (- atoi l') = -42.
Proof.
  destruct (printf_numbers 1 4294967254 demo_tio ltac:(lia)) as [(l & E & _ & _ & H) _]. exists l. split; [exact E|]. apply H. vm_compute. reflexivity.
Defined.
