(* ===== verification/Userprogs.v ===== *)
(** * Programs on files and processes ([src/xv6/ls.c], [src/xv6/rm.c], [src/xv6/mkdir.c],
      [src/xv6/ln.c], [src/xv6/kill.c], [src/xv6/init.c])

    The programs are written against the system calls of [Ulib.OS].  Strings are lists of
    bytes; [struct stat] and [struct dirent] are the bytes that the calls return.  What the
    theorems rely on of the calls is the class [Tree]: the files that exist by name, the open
    descriptors and the standard output. *)

From S2P Require Import Prelude Mem CString Block Format Ulib.

Definition O_RDWR : Z := 2.

Section progs.
Context {S : Type} `{!OS S}.

(** ** [ls] *)

(** The part of a path behind its last slash. *)
Fixpoint basename (path : list Z) : list Z :=
  match path with
  | [] => []
  | c :: rest => if existsb (Z.eqb 47) rest then basename rest else if c =? 47 then rest else path
  end.
Definition fmtname (path : list Z) : list Z :=
  let p := basename path in
  if (DIRSIZ <=? length p)%nat then p else p ++ replicate (DIRSIZ - length p) 32.

(** The fields of [struct stat] that are printed. *)
Definition stat_type (st : list Z) : Z := i16 (get16 st 0).
Definition stat_ino (st : list Z) : Z := get32 st 8.
Definition stat_size (st : list Z) : Z := get32 st 16.

Fixpoint until_nul (l : list Z) : list Z := match l with [] => [] | c :: l => if c =? 0 then [] else c :: until_nul l end.
Definition dirent_inum (de : list Z) : Z := get16 de 0.
Definition dirent_name (de : list Z) : list Z := until_nul (take DIRSIZ (drop 2 de)).

Definition ls_print (path st : list Z) : M S unit :=
  printf 1 (line "%s %d %d %d") [AStr (Some (fmtname path)); AInt (u32 (stat_type st)); AInt (stat_ino st); AInt (stat_size st)].

Fixpoint ls_entries (fuel : nat) (fd : Z) (path : list Z) : M S unit :=
  match fuel with
  | O => fun _ => OutOfFuel
  | Datatypes.S k =>
      let! r := os_read fd 16 in
      if negb (fst r =? 16) then ret tt else
      let de := snd r in
      if dirent_inum de =? 0 then ls_entries k fd path else
      let buf := path ++ [47] ++ dirent_name de in
      let! r := stat buf in
      (if fst r <? 0 then printf 1 (line "ls: cannot stat %s") [AStr (Some buf)] else ls_print buf (snd r)) ;;;
      ls_entries k fd path
  end.
Definition ls (fuel : nat) (path : list Z) : M S unit :=
  let! fd := os_open path 0 in
  if fd <? 0 then printf 2 (line "ls: cannot open %s") [AStr (Some path)] else
  let! r := os_fstat fd in
  if fst r <? 0 then printf 2 (line "ls: cannot stat %s") [AStr (Some path)] ;;; os_close fd ;;; ret tt else
  let st := snd r in
  (if stat_type st =? T_FILE then ls_print path st
   else if stat_type st =? T_DIR then
     if (512 <? length path + 1 + DIRSIZ + 1)%nat then printf 1 (line "ls: path too long") []
     else ls_entries fuel fd path
   else ret tt) ;;;
  os_close fd ;;; ret tt.
Fixpoint ls_args (fuel : nat) (argv : list (list Z)) : M S unit :=
  match argv with [] => exit | a :: argv => ls fuel a ;;; ls_args fuel argv end.
Definition ls_main (fuel : nat) (argv : list (list Z)) : M S unit :=
  match argv with
  | [] | [_] => ls fuel (bytes ".") ;;; exit
  | _ :: files => ls_args fuel files
  end.

(** ** [rm], [mkdir], [ln], [kill] *)

Fixpoint rm_loop (files : list (list Z)) : M S unit :=
  match files with
  | [] => ret tt
  | f :: files =>
      let! r := os_unlink f in
      if r <? 0 then printf 2 (line "rm: %s failed to delete") [AStr (Some f)] else rm_loop files
  end.
Definition rm_main (argv : list (list Z)) : M S unit :=
  match argv with
  | [] | [_] => printf 2 (line "Usage: rm files...") [] ;;; exit
  | _ :: files => rm_loop files ;;; exit
  end.

Fixpoint mkdir_loop (files : list (list Z)) : M S unit :=
  match files with
  | [] => ret tt
  | f :: files =>
      let! r := os_mkdir f in
      if r <? 0 then printf 2 (line "mkdir: %s failed to create") [AStr (Some f)] else mkdir_loop files
  end.
Definition mkdir_main (argv : list (list Z)) : M S unit :=
  match argv with
  | [] | [_] => printf 2 (line "Usage: mkdir files...") [] ;;; exit
  | _ :: files => mkdir_loop files ;;; exit
  end.

Definition ln_main (argv : list (list Z)) : M S unit :=
  match argv with
  | [_; old; new] =>
      let! r := os_link old new in
      (if r <? 0 then printf 2 (line "link %s %s: failed") [AStr (Some old); AStr (Some new)] else ret tt) ;;;
      exit
  | _ => printf 2 (line "Usage: ln old new") [] ;;; exit
  end.

Fixpoint kill_loop (pids : list (list Z)) : M S unit :=
  match pids with [] => ret tt | p :: pids => os_kill (atoi p) ;;; kill_loop pids end.
Definition kill_main (argv : list (list Z)) : M S unit :=
  match argv with
  | [] | [_] => printf 2 (line "usage: kill pid...") [] ;;; exit
  | _ :: pids => kill_loop pids ;;; exit
  end.

(** ** [init] *)

(** The wait for the shell, which also collects the children that [init] inherits. *)
Fixpoint reap (fuel : nat) (pid : Z) : M S unit :=
  match fuel with
  | O => fun _ => OutOfFuel
  | Datatypes.S k =>
      let! wpid := os_wait in
      if (0 <=? wpid) && negb (wpid =? pid) then printf 1 (line "zombie!") [] ;;; reap k pid else ret tt
  end.
Definition start_sh : M S Z :=
  printf 1 (line "init: starting sh") [] ;;;
  let! pid := os_fork in
  if pid <? 0 then printf 1 (line "init: fork failed") [] ;;; exit else
  if pid =? 0 then
    os_exec (bytes "sh") [bytes "sh"] ;;;
    printf 1 (line "init: exec sh failed") [] ;;;
    exit
  else ret pid.
(** [turns] of the endless loop. *)
Fixpoint init_loop (turns fuel : nat) : M S unit :=
  match turns with O => ret tt | Datatypes.S k => let! pid := start_sh in reap fuel pid ;;; init_loop k fuel end.
Definition init_main (turns fuel : nat) : M S unit :=
  let! fd := os_open (bytes "console") O_RDWR in
  (if fd <? 0 then os_mknod (bytes "console") 1 1 ;;; os_open (bytes "console") O_RDWR ;;; ret tt else ret tt) ;;;
  os_dup 0 ;;;
  os_dup 0 ;;;
  init_loop turns fuel.
End progs.

(** ** Files by name *)

Record node : Type := mk_node { nd_stat : list Z; nd_bytes : list Z }.
(** The files, the open descriptors with what is left to read, and the standard output. *)
Record view : Type := mk_view { v_nodes : gmap (list Z) node; v_fds : gmap Z (node * list Z); v_out : list Z }.
Definition v_print (l : list Z) (v : view) : view := mk_view (v_nodes v) (v_fds v) (v_out v ++ l).
Definition v_set_fds x (v : view) : view := mk_view (v_nodes v) x (v_out v).

Class Tree (S : Type) `{!OS S} : Type := {
  v_of : S -> view;
  t_open s p : wp (os_open p 0) (fun fd s' =>
    match v_nodes (v_of s) !! p with
    | None => fd = -1 /\ v_of s' = v_of s
    | Some nd => 0 <= fd /\ v_fds (v_of s) !! fd = None /\ v_of s' = v_set_fds (<[fd := (nd, nd_bytes nd)]> (v_fds (v_of s))) (v_of s)
    end) s;
  t_fstat s fd x : v_fds (v_of s) !! fd = Some x -> wp (os_fstat fd) (fun r s' => r = (0, nd_stat (fst x)) /\ v_of s' = v_of s) s;
  t_read s fd x n : 0 <= n -> v_fds (v_of s) !! fd = Some x -> wp (os_read fd n) (fun r s' =>
    r = (Z.of_nat (length (take (Z.to_nat n) (snd x))), take (Z.to_nat n) (snd x)) /\
    v_of s' = v_set_fds (<[fd := (fst x, drop (Z.to_nat n) (snd x))]> (v_fds (v_of s))) (v_of s)) s;
  t_close s fd x : v_fds (v_of s) !! fd = Some x -> wp (os_close fd) (fun r s' => v_of s' = v_set_fds (delete fd (v_fds (v_of s))) (v_of s)) s;
  t_write s l : wp (os_write 1 l) (fun r s' => v_of s' = v_print l (v_of s)) s
}.

(** ** What [ls] prints *)

Section ls_props.
Context {S : Type} `{!OS S} `{!Tree S}.

Lemma wp_tree_str l s (Q : unit -> S -> Prop) : Forall (fun c => 0 <= c < 256) l ->
  (forall s', v_of s' = v_print l (v_of s) -> Q tt s') -> wp (put_str 1 l) Q s.
Proof.
  intros Hl. revert s Q. induction l as [|c l IH]; intros s Q HQ; cbn [put_str]; wp_steps.
  - apply HQ. unfold v_print. rewrite app_nil_r. by destruct (v_of s).
  - apply Forall_cons in Hl as [Hc Hl]. unfold putc. wp_step. eapply wp_mono; [apply t_write|]. intros r s1 E1. wp_step.
    apply (IH Hl). intros s2 E2. apply HQ. rewrite E2, E1, u8_small by done. unfold v_print. cbn [v_nodes v_fds v_out]. by rewrite <- app_assoc.
Qed.

(** The text of a number, which [atoi] reads back. *)
Definition numeral (l : list Z) (x : Z) : Prop := atoi l = x /\ Forall (fun c => 0 <= c < 256) l.
Lemma printint_numeral x (s : S) : 0 <= x < 2147483648 -> exists l, numeral l x /\ printint 1 x 10 true s = put_str 1 l s.
Proof.
  intros Hx. destruct (printint_ok 1 x 10 true 9 s ltac:(lia) ltac:(lia) ltac:(lia) ltac:(lia)) as (ds & E & _ & Hf & Hv & _). cbn [andb] in *.
  rewrite (proj2 (Z.ltb_ge x 0)) in * by lia. cbn [app] in E. exists (rev (digit <$> ds)). split; [|done]. split.
  - rewrite (atoi_digits ds Hf), Hv, u32_small, i32_small by (unfold W32; lia). done.
  - apply List.Forall_rev, Forall_fmap. eapply Forall_impl; [exact Hf|]. intros d Hd. cbn beta in Hd.
    assert (Hc : forallb (fun c => (0 <=? c) && (c <? 256)) digits = true) by reflexivity. rewrite forallb_forall in Hc. cbn. unfold digit.
    destruct (digits !! Z.to_nat d) as [c|] eqn:Ec; [|cbn; lia]. cbn. apply list_elem_of_lookup_2, list_elem_of_In, Hc, andb_prop in Ec. lia.
Qed.
Lemma wp_printint x s (Q : unit -> S -> Prop) : 0 <= x < 2147483648 ->
  (forall l s', numeral l x -> v_of s' = v_print l (v_of s) -> Q tt s') -> wp (printint 1 x 10 true) Q s.
Proof.
  intros Hx HQ. destruct (printint_numeral x s Hx) as (l & Hl & E). unfold wp. rewrite E. apply (wp_tree_str l s); [apply Hl|]. intros s' Hs'. by apply (HQ l).
Qed.

(** A [struct stat] with numbers that [printf] shows without a sign. *)
Record stat_ok (st : list Z) : Prop := mk_stat_ok {
  so_type : 0 <= stat_type st; so_ino : 0 <= stat_ino st < 2147483648; so_size : 0 <= stat_size st < 2147483648
}.
(** The line for a file. *)
Definition ls_line (path st out : list Z) : Prop := exists t i n, numeral t (stat_type st) /\ numeral i (stat_ino st) /\ numeral n (stat_size st) /\
  out = fmtname path ++ [32] ++ t ++ [32] ++ i ++ [32] ++ n ++ [10].
(** What is printed for a directory entry, by the files that exist. *)
Definition entry_shown (nodes : gmap (list Z) node) (path de out : list Z) : Prop :=
  let p := path ++ [47] ++ dirent_name de in
  match nodes !! p with
  | Some nd => ls_line p (nd_stat nd) out
  | None => out = bytes "ls: cannot stat " ++ p ++ [10]
  end.

Lemma basename_bytes p : Forall (fun c => 0 <= c < 256) p -> Forall (fun c => 0 <= c < 256) (basename p).
Proof. induction 1 as [|c p Hc Hp IH]; cbn [basename]; [constructor|]. destruct (existsb _ p); [done|]. destruct (c =? 47); [done|by constructor]. Qed.
Lemma fmtname_bytes p : Forall (fun c => 0 <= c < 256) p -> Forall (fun c => 0 <= c < 256) (fmtname p).
Proof.
  intros H. unfold fmtname. pose proof (basename_bytes p H). destruct (_ <=? _)%nat; [done|]. apply Forall_app. split; [done|]. apply Forall_replicate. lia.
Qed.

Lemma wp_tree_putc c s (Q : unit -> S -> Prop) : 0 <= c < 256 -> (forall s', v_of s' = v_print [c] (v_of s) -> Q tt s') -> wp (putc 1 c) Q s.
Proof. intros Hc HQ. unfold putc. wp_step. eapply wp_mono; [apply t_write|]. intros r s1 E1. wp_step. apply HQ. by rewrite E1, u8_small. Qed.
Lemma v_print_print l l' v : v_print l' (v_print l v) = v_print (l ++ l') v.
Proof. unfold v_print. cbn. by rewrite app_assoc. Qed.

(** The literal part of a format. *)
Lemma wp_printf_text l fmt ap s (Q : unit -> S -> Prop) : forallb (fun c => (0 <=? c) && (c <? 256) && negb (c =? 37)) l = true ->
  (forall s', v_of s' = v_print l (v_of s) -> wp (printf_loop 1 fmt false ap) Q s') -> wp (printf_loop 1 (l ++ fmt) false ap) Q s.
Proof.
  revert s. induction l as [|c l IH]; intros s Hl HQ; cbn [app printf_loop negb].
  - apply HQ. unfold v_print. rewrite app_nil_r. by destruct (v_of s).
  - cbn [forallb] in Hl. apply andb_prop in Hl as [Hc Hl]. assert (0 <= c < 256 /\ c <> 37) as [Hc1 Hc2] by (destruct (Z.eqb_spec c 37); cbn [negb] in Hc; lia).
    assert (Hland : Z.land c 255 = c) by (change 255 with (Z.ones 8); rewrite Z.land_ones by lia; apply Z.mod_small; lia).
    rewrite Hland, (proj2 (Z.eqb_neq _ _) Hc2). cbv zeta. wp_step. apply wp_tree_putc; [done|]. intros s1 E1. apply IH; [done|]. intros s2 E2. apply HQ.
    by rewrite E2, E1, v_print_print.
Qed.

Lemma stat_type_range st : stat_type st < 32768.
Proof. unfold stat_type, i16. zcase; zlia. Qed.
Lemma wp_ls_print path st s (Q : unit -> S -> Prop) : Forall (fun c => 0 <= c < 256) path -> stat_ok st ->
  (forall out s', ls_line path st out -> v_of s' = v_print out (v_of s) -> Q tt s') -> wp (ls_print path st) Q s.
Proof.
  intros Hp [H1 H2 H3] HQ. unfold ls_print. pose proof (stat_type_range st).
  change (printf _ _ _) with (put_str (S := S) 1 (fmtname path) ;;; putc 1 32 ;;; printint 1 (i32 (u32 (stat_type st))) 10 true ;;; putc 1 32 ;;;
    printint 1 (i32 (stat_ino st)) 10 true ;;; putc 1 32 ;;; printint 1 (i32 (stat_size st)) 10 true ;;; putc 1 10 ;;; ret tt).
  rewrite u32_small, !i32_small by (unfold W32; lia).
  wp_step. apply wp_tree_str; [by apply fmtname_bytes|]. intros s1 E1. wp_step. apply wp_tree_putc; [lia|]. intros s2 E2.
  wp_step. apply wp_printint; [lia|]. intros t s3 Ht E3. wp_step. apply wp_tree_putc; [lia|]. intros s4 E4.
  wp_step. apply wp_printint; [lia|]. intros i s5 Hi E5. wp_step. apply wp_tree_putc; [lia|]. intros s6 E6.
  wp_step. apply wp_printint; [lia|]. intros n s7 Hn E7. wp_step. apply wp_tree_putc; [lia|]. intros s8 E8. wp_step.
  eapply HQ; [exists t, i, n; split_and!; [done|done|done|reflexivity]|]. rewrite E8, E7, E6, E5, E4, E3, E2, E1, !v_print_print, <- ?app_assoc. done.
Qed.

(** [stat] leaves no descriptor open. *)
Lemma wp_stat p s (Q : Z * list Z -> S -> Prop) :
  (forall r s', match v_nodes (v_of s) !! p with Some nd => r = (0, nd_stat nd) | None => fst r = -1 end -> v_of s' = v_of s -> Q r s') -> wp (stat p) Q s.
Proof.
  intros HQ. unfold stat. wp_step. eapply wp_mono; [apply t_open|]. intros fd s1. destruct (v_nodes (v_of s) !! p) as [nd|].
  - intros (Hfd & Hfree & E1). rewrite (proj2 (Z.ltb_ge fd 0)) by lia. wp_step.
    assert (Hl : v_fds (v_of s1) !! fd = Some (nd, nd_bytes nd)) by (rewrite E1; apply lookup_insert_eq).
    eapply wp_mono; [by apply t_fstat|]. intros r s2 [-> E2]. wp_step. rewrite <- E2 in Hl. eapply wp_mono; [by apply (t_close _ _ _ Hl)|]. intros c s3 E3. wp_step.
    apply HQ; [done|]. rewrite E3, E2, E1. unfold v_set_fds. cbn [v_nodes v_fds v_out]. rewrite delete_insert_id by done. by destruct (v_of s).
  - intros [-> E1]. change (-1 <? 0) with true. cbv iota. wp_step. by apply HQ.
Qed.

Lemma until_nul_bytes l : Forall (fun c => 0 <= c < 256) l -> Forall (fun c => 0 <= c < 256) (until_nul l).
Proof. induction 1 as [|c l Hc Hl IH]; cbn [until_nul]; [constructor|]. destruct (c =? 0); [constructor|by constructor]. Qed.
Lemma dirent_name_bytes de : Forall (fun c => 0 <= c < 256) de -> Forall (fun c => 0 <= c < 256) (dirent_name de).
Proof. intros H. apply until_nul_bytes, Forall_take, Forall_drop, H. Qed.

(** A directory as the list of its entries. *)
Record dir_ok (nodes : gmap (list Z) node) (path : list Z) (des : list (list Z)) : Prop := mk_dir_ok {
  do_path : Forall (fun c => 0 <= c < 256) path;
  do_len : Forall (fun de => length de = 16%nat) des;
  do_bytes : Forall (Forall (fun c => 0 <= c < 256)) des;
  do_stat : forall de nd, de ∈ des -> nodes !! (path ++ [47] ++ dirent_name de) = Some nd -> stat_ok (nd_stat nd)
}.
Definition used (de : list Z) : Prop := dirent_inum de <> 0.
#[global] Instance used_dec de : Decision (used de).
Proof. unfold used. apply _. Defined.

Lemma wp_ls_entries fuel fd path nd des s (Q : unit -> S -> Prop) :
  dir_ok (v_nodes (v_of s)) path des -> (length des < fuel)%nat -> v_fds (v_of s) !! fd = Some (nd, concat des) ->
  (forall outs s', Forall2 (entry_shown (v_nodes (v_of s)) path) (filter used des) outs ->
     v_of s' = v_print (concat outs) (v_set_fds (<[fd := (nd, [])]> (v_fds (v_of s))) (v_of s)) -> Q tt s') ->
  wp (ls_entries fuel fd path) Q s.
Proof.
  revert fuel s Q. induction des as [|de des IH]; intros fuel s Q [D1 D2 D3 D4] Hf Hfd HQ; (destruct fuel as [|fuel]; [cbn in Hf; lia|]); cbn [ls_entries]; wp_step;
    (eapply wp_mono; [apply (t_read s fd _ 16 ltac:(lia) Hfd)|]); intros r s1 [-> E1]; cbn [fst snd concat] in *.
  { rewrite take_nil. change (negb (Z.of_nat (length (A := Z) []) =? 16)) with true. cbv iota. wp_step. apply (HQ []); [constructor|].
    rewrite E1, drop_nil. unfold v_print, v_set_fds. cbn [v_nodes v_fds v_out concat]. by rewrite app_nil_r. }
  apply Forall_cons in D2 as [L16 D2]. apply Forall_cons in D3 as [B D3]. change (Z.to_nat 16) with 16%nat in *.
  rewrite take_app_length' in * by done. rewrite drop_app_length' in E1 by done. rewrite L16. change (negb (Z.of_nat 16 =? 16)) with false. cbv iota zeta.
  assert (Hd : dir_ok (v_nodes (v_of s)) path des) by (split; [done..|]; intros d n Hi; apply D4; by right).
  destruct (Z.eqb_spec (dirent_inum de) 0) as [H0|H0].
  - apply IH; [rewrite E1; exact Hd|cbn in Hf; lia|rewrite E1; apply lookup_insert_eq|]. intros outs s' Ho E'. apply (HQ outs).
    + rewrite filter_cons_False by (unfold used; lia). rewrite E1 in Ho. done.
    + rewrite E', E1. unfold v_set_fds. cbn [v_nodes v_fds v_out]. by rewrite insert_insert_eq.
  - wp_step. apply wp_stat. intros r s2 Hr E2. wp_step.
    assert (K : forall out s3, entry_shown (v_nodes (v_of s)) path de out -> v_of s3 = v_print out (v_of s2) -> wp (ls_entries fuel fd path) Q s3).
    { intros out s3 Hout E3. apply IH; [rewrite E3, E2, E1; exact Hd|cbn in Hf; lia|rewrite E3, E2, E1; apply lookup_insert_eq|].
      intros outs s' Ho E'. apply (HQ (out :: outs)).
      + rewrite filter_cons_True by done. rewrite E3, E2, E1 in Ho. by constructor.
      + rewrite E', E3, E2, E1. unfold v_print, v_set_fds. cbn [v_nodes v_fds v_out concat]. by rewrite insert_insert_eq, <- app_assoc. }
    rewrite E1 in Hr. cbn [v_set_fds v_nodes] in Hr. unfold entry_shown in K.
    assert (Hp : Forall (fun c => 0 <= c < 256) (path ++ [47] ++ dirent_name de)) by (apply Forall_app; split; [done|]; constructor; [lia|by apply dirent_name_bytes]).
    destruct (v_nodes (v_of s) !! (path ++ [47] ++ dirent_name de)) as [nd'|] eqn:En.
    + subst r. cbn [fst snd]. change (0 <? 0) with false. cbv iota. apply wp_ls_print; [done|by apply (D4 de); [left|]|]. intros out s3 Hout E3. by apply (K out).
    + rewrite Hr. change (-1 <? 0) with true. cbv iota. unfold printf. change (line "ls: cannot stat %s") with (bytes "ls: cannot stat " ++ [37; 115; 10]).
      apply wp_printf_text; [reflexivity|]. intros s3 E3.
      change (printf_loop 1 [37; 115; 10] false ?a) with (put_str (S := S) 1 (path ++ [47] ++ dirent_name de) ;;; putc 1 10 ;;; ret tt).
      wp_step. apply wp_tree_str; [done|]. intros s4 E4. wp_step. apply wp_tree_putc; [lia|]. intros s5 E5. wp_step.
      eapply K; [reflexivity|]. rewrite E5, E4, E3, !v_print_print, <- ?app_assoc. done.
Qed.

(** [ls] of a directory prints one line for every entry in use, in the order of the directory:
    its name padded to 14 bytes and the type, inode number and size of the file that the entry
    leads to, or an error when that file cannot be looked at; it leaves no descriptor open and
    changes no file. *)
Theorem ls_directory fuel path nd des s :
  v_nodes (v_of s) !! path = Some nd -> stat_type (nd_stat nd) = T_DIR -> nd_bytes nd = concat des ->
  dir_ok (v_nodes (v_of s)) path des -> (length des < fuel)%nat -> (length path + 16 <= 512)%nat ->
  wp (ls fuel path) (fun _ s' => exists outs, Forall2 (entry_shown (v_nodes (v_of s)) path) (filter used des) outs /\ v_of s' = v_print (concat outs) (v_of s)) s.
Proof.
  intros Hn Ht Hb Hd Hf Hl. unfold ls. wp_step. eapply wp_mono; [apply t_open|]. intros fd s1. rewrite Hn, Hb. intros (Hfd & Hfree & E1).
  rewrite (proj2 (Z.ltb_ge fd 0)) by lia. wp_step.
  assert (Hl1 : v_fds (v_of s1) !! fd = Some (nd, concat des)) by (rewrite E1; apply lookup_insert_eq).
  eapply wp_mono; [by apply t_fstat|]. intros r s2 [-> E2]. cbn [fst snd]. change (0 <? 0) with false. cbv iota zeta. rewrite Ht. change (T_DIR =? T_FILE) with false. change (T_DIR =? T_DIR) with true. cbv iota.
  rewrite (proj2 (Nat.ltb_ge 512 _)) by (unfold DIRSIZ; lia). wp_step. rewrite <- E2 in Hl1, E1.
  eapply wp_ls_entries; [rewrite E1; exact Hd|done|exact Hl1|]. intros outs s3 Ho E3. wp_step.
  assert (Hl3 : v_fds (v_of s3) !! fd = Some (nd, [])) by (rewrite E3; apply lookup_insert_eq).
  eapply wp_mono; [by apply (t_close _ _ _ Hl3)|]. intros c s4 E4. wp_step. exists outs. rewrite E1 in Ho. split; [done|].
  rewrite E4, E3, E1. unfold v_print, v_set_fds. cbn [v_nodes v_fds v_out]. by rewrite !insert_insert_eq, delete_insert_id by done.
Qed.
End ls_props.

(** ** Removing files *)

Definition v_remove (l : list (list Z)) (v : view) : view := mk_view (foldr delete (v_nodes v) (rev l)) (v_fds v) (v_out v).

(** [unlink] removes the names that can be removed; messages go elsewhere. *)
Class Names (S : Type) `{!OS S, !Tree S} : Type := {
  removable : S -> list Z -> bool;
  n_unlink s p : wp (os_unlink p) (fun r s' => if removable s p then r = 0 /\ v_of s' = v_remove [p] (v_of s) else r = -1 /\ v_of s' = v_of s /\ removable s' p = false) s;
  n_error s l : wp (os_write 2 l) (fun _ s' => v_of s' = v_of s /\ forall p, removable s' p = removable s p) s
}.

Section rm_props.
Context {S : Type} `{!OS S, !Tree S, !Names S}.

Lemma wp_error_str l s (Q : unit -> S -> Prop) : (forall s', v_of s' = v_of s -> (forall p, removable s' p = removable s p) -> Q tt s') -> wp (put_str 2 l) Q s.
Proof.
  revert s. induction l as [|c l IH]; intros s HQ; cbn [put_str]; wp_steps; [by apply HQ|]. unfold putc. wp_step. eapply wp_mono; [apply n_error|]. intros r s1 [E1 R1]. wp_step.
  apply IH. intros s2 E2 R2. apply HQ; [congruence|]. intros p. by rewrite R2, R1.
Qed.
Lemma wp_error_text l fmt ap s (Q : unit -> S -> Prop) : forallb (fun c => negb (Z.land c 255 =? 37)) l = true ->
  (forall s', v_of s' = v_of s -> (forall p, removable s' p = removable s p) -> wp (printf_loop 2 fmt false ap) Q s') -> wp (printf_loop 2 (l ++ fmt) false ap) Q s.
Proof.
  revert s. induction l as [|c l IH]; intros s Hl HQ; cbn [app printf_loop negb]; [by apply HQ|]. cbn [forallb] in Hl. apply andb_prop in Hl as [Hc Hl].
  apply negb_true_iff in Hc. cbv zeta. rewrite Hc. unfold putc. wp_step. wp_step. eapply wp_mono; [apply n_error|]. intros r s1 [E1 R1]. wp_step.
  apply IH; [done|]. intros s2 E2 R2. apply HQ; [congruence|]. intros p. by rewrite R2, R1.
Qed.

Lemma printf_str fd fmt f ap : printf_loop (S := S) fd (37 :: 115 :: fmt) false (AStr (Some f) :: ap) = (put_str fd f ;;; printf_loop fd fmt false ap).
Proof. reflexivity. Qed.

(** [rm] removes its arguments in order up to the first one that cannot be removed, and
    touches neither that one nor those behind it. *)
Theorem rm_removes files s : wp (rm_loop files) (fun _ s' => exists gone rest, files = gone ++ rest /\ v_of s' = v_remove gone (v_of s) /\
  match rest with [] => True | f :: _ => removable s' f = false end) s.
Proof.
  revert s. induction files as [|f files IH]; intros s; cbn [rm_loop]; wp_step.
  - exists [], []. split_and!; [done| |done]. by destruct (v_of s).
  - eapply wp_mono; [apply n_unlink|]. intros r s1. destruct (removable s f) eqn:Hr.
    + intros [-> E1]. change (0 <? 0) with false. cbv iota. eapply wp_mono; [apply IH|]. intros _ s' (gone & rest & -> & E' & Hs'). exists (f :: gone), rest. split_and!; [done| |done].
      rewrite E', E1. unfold v_remove. cbn [v_nodes v_fds v_out rev app foldr]. by rewrite foldr_app.
    + intros (-> & E1 & R1). change (-1 <? 0) with true. cbv iota. unfold printf. change (line "rm: %s failed to delete") with (bytes "rm: " ++ 37 :: 115 :: (line " failed to delete" ++ [])).
      apply wp_error_text; [reflexivity|]. intros s2 E2 R2.
      rewrite printf_str.
      wp_step. apply wp_error_str. intros s3 E3 R3. apply wp_error_text; [reflexivity|]. intros s4 E4 R4. cbn [printf_loop]. wp_step.
      exists [], (f :: files). split_and!; [done| |by rewrite R4, R3, R2]. rewrite E4, E3, E2, E1. by destruct (v_of s).
Qed.
End rm_props.

(** ** A file system of given files *)

Definition next_fd (m : gmap Z (node * list Z)) : Z := map_fold (fun k _ x => Z.max (k + 1) x) 3 m.
Lemma next_fd_fresh m : 3 <= next_fd m /\ forall k x, m !! k = Some x -> k < next_fd m.
Proof.
  unfold next_fd. apply (map_fold_weak_ind (fun r m => 3 <= r /\ forall k x, m !! k = Some x -> k < r)); [split; [lia|]; intros k x Hk; by rewrite lookup_empty in Hk|].
  intros i x m' r Hi [H1 H2]. split; [lia|]. intros k y Hk. apply lookup_insert_Some in Hk as [[<- _]|[_ Hk]]; [lia|]. specialize (H2 k y Hk). lia.
Qed.

#[export] Instance view_os : OS view := {|
  os_read fd n := fun v => match v_fds v !! fd with
    | Some x => let l := take (Z.to_nat n) (snd x) in Ok (Z.of_nat (length l), l) (v_set_fds (<[fd := (fst x, drop (Z.to_nat n) (snd x))]> (v_fds v)) v)
    | None => Ok (-1, []) v end;
  os_write fd l := fun v => Ok (Z.of_nat (length l)) (if fd =? 1 then v_print l v else v);
  os_open p _ := fun v => match v_nodes v !! p with
    | Some nd => let fd := next_fd (v_fds v) in Ok fd (v_set_fds (<[fd := (nd, nd_bytes nd)]> (v_fds v)) v)
    | None => Ok (-1) v end;
  os_close fd := fun v => Ok 0 (v_set_fds (delete fd (v_fds v)) v);
  os_fstat fd := fun v => match v_fds v !! fd with Some x => Ok (0, nd_stat (fst x)) v | None => Ok (-1, []) v end;
  os_unlink p := fun v => match v_nodes v !! p with
    | Some nd => if stat_type (nd_stat nd) =? T_FILE then Ok 0 (v_remove [p] v) else Ok (-1) v
    | None => Ok (-1) v end;
  os_dup _ := ret (-1); os_mknod _ _ _ := ret (-1); os_mkdir _ := ret (-1); os_chdir _ := ret (-1); os_link _ _ := ret (-1);
  os_fork := ret (-1); os_exec _ _ := ret (-1); os_wait := ret (-1); os_kill _ := ret (-1); os_sleep _ := ret 0 |}.
#[export, refine] Instance view_tree : Tree view := {| v_of v := v |}.
Proof.
  - intros v p. unfold wp. cbn. destruct (v_nodes v !! p) as [nd|]; [|done]. destruct (next_fd_fresh (v_fds v)) as [H1 H2]. split_and!; [lia| |done].
    destruct (v_fds v !! next_fd (v_fds v)) as [x|] eqn:E; [|done]. specialize (H2 _ _ E). lia.
  - intros v fd x Hx. unfold wp. cbn. by rewrite Hx.
  - intros v fd x n Hn Hx. unfold wp. cbn. by rewrite Hx.
  - intros v fd x Hx. done.
  - intros v l. done.
Defined.
#[export, refine] Instance view_names : Names view := {| removable v p := match v_nodes v !! p with Some nd => stat_type (nd_stat nd) =? T_FILE | None => false end |}.
Proof.
  - intros v p. unfold wp. cbn. destruct (v_nodes v !! p) as [nd|] eqn:E; [|by rewrite E]. destruct (_ =? _) eqn:E'; [done|]. split_and!; [done|done|]. by rewrite E.
  - intros v l. done.
Defined.

(** The directory [d] with an entry [a], a free entry and an entry [b] whose file is missing. *)
Definition stat_bytes (type ino size : Z) : list Z := bytes16 type ++ [0; 0] ++ bytes32 1 ++ bytes32 ino ++ bytes16 1 ++ [0; 0] ++ bytes32 size.
Definition demo_entry (ino : Z) (name : string) : list Z := bytes16 ino ++ bytes name ++ replicate (14 - length (bytes name)) 0.
Definition demo_des : list (list Z) := [demo_entry 7 "a"; demo_entry 0 "x"; demo_entry 9 "b"].
Definition demo_view : view := mk_view
  {[ bytes "d" := mk_node (stat_bytes 1 2 48) (concat demo_des); bytes "d/a" := mk_node (stat_bytes 2 7 123) (bytes "hello") ]} ∅ [].
Lemma demo_nodes : v_nodes demo_view !! bytes "d" = Some (mk_node (stat_bytes 1 2 48) (concat demo_des)) /\
  v_nodes demo_view !! bytes "d/a" = Some (mk_node (stat_bytes 2 7 123) (bytes "hello")) /\ v_nodes demo_view !! bytes "d/b" = None.
Proof. vm_compute. split_and!; reflexivity. Qed.
Lemma demo_dir_ok : dir_ok (v_nodes demo_view) (bytes "d") demo_des.
Proof.
  assert (Hb : forall l, forallb (fun c => (0 <=? c) && (c <? 256)) l = true -> Forall (fun c => 0 <= c < 256) l).
  { intros l Hl. rewrite forallb_forall in Hl. apply Forall_forall. intros c Hc. apply list_elem_of_In, Hl, andb_prop in Hc. lia. }
  split; [apply Hb; reflexivity|by repeat constructor|repeat (apply Forall_cons; split; [apply Hb; reflexivity|]); by apply Forall_nil|].
  intros de nd Hde Hn. destruct demo_nodes as (_ & Na & Nb). unfold demo_des in Hde. rewrite !elem_of_cons in Hde. destruct Hde as [->|[->|[->|He]]]; [..|by apply not_elem_of_nil in He].
  - change (bytes "d" ++ [47] ++ dirent_name (demo_entry 7 "a")) with (bytes "d/a") in Hn. rewrite Na in Hn. injection Hn as <-. split; vm_compute; try split; congruence.
  - assert (E : v_nodes demo_view !! (bytes "d" ++ [47] ++ dirent_name (demo_entry 0 "x")) = None) by (vm_compute; reflexivity). by rewrite E in Hn.
  - change (bytes "d" ++ [47] ++ dirent_name (demo_entry 9 "b")) with (bytes "d/b") in Hn. by rewrite Nb in Hn.
Qed.
Lemma ls_directory_witness : wp (ls 4 (bytes "d")) (fun _ v => exists outs,
  Forall2 (entry_shown (v_nodes demo_view) (bytes "d")) (filter used demo_des) outs /\ length outs = 2%nat /\ v_out v = concat outs) demo_view.
Proof.
  eapply wp_mono; [apply (ls_directory (S := view) 4 (bytes "d") (mk_node (stat_bytes 1 2 48) (concat demo_des)) demo_des demo_view); [exact (proj1 demo_nodes)|reflexivity|reflexivity|exact demo_dir_ok|cbn; lia|cbn; lia]|].
  intros _ v (outs & Ho & E). exists outs. split; [done|]. split; [by apply Forall2_length in Ho|]. change (v = v_print (concat outs) demo_view) in E. by rewrite E.
Defined.
(** What it prints. *)
Lemma ls_demo : match ls 4 (bytes "d") demo_view with Ok _ v => v_out v = line "a              2 7 123" ++ line "ls: cannot stat d/b" | _ => False end.
Proof. vm_compute. reflexivity. Qed.
