(* ===== verification/Grep.v ===== *)
(** * The pattern search ([src/xv6/grep.c])

    The matcher works on C strings, which are lists of bytes here.  [grep] reads the file
    into a buffer, in which it cuts the lines; the buffer is a memory of its own, at address 0. *)

From S2P Require Import Prelude Mem CString Ulib Textprogs.

(** ** The matcher *)

(** The loop of [matchstar]; [here] is [matchhere] of the pattern after the star. *)
Fixpoint matchstar (c : Z) (here : list Z -> bool) (text : list Z) : bool :=
  if here text then true else
  match text with
  | [] => false
  | t :: text => if (t =? c) || (c =? 46) then matchstar c here text else false
  end.

Fixpoint matchhere (re text : list Z) : bool :=
  match re with
  | [] => true
  | c :: re1 =>
      match re1 with
      | d :: re2 =>
          if d =? 42 then matchstar c (matchhere re2) text else
          match text with
          | t :: text => if (c =? 46) || (c =? t) then matchhere re1 text else false
          | [] => false
          end
      | [] =>
          if c =? 36 then match text with [] => true | _ => false end else
          match text with
          | t :: text => if (c =? 46) || (c =? t) then matchhere re1 text else false
          | [] => false
          end
      end
  end.

Fixpoint match_loop (re text : list Z) : bool :=
  if matchhere re text then true else
  match text with
  | [] => false
  | _ :: text => match_loop re text
  end.
Definition match_ (re text : list Z) : bool :=
  match re with
  | c :: re' => if c =? 94 then matchhere re' text else match_loop re text
  | [] => match_loop re text
  end.

(** ** What a pattern means *)

(** A pattern is a sequence of items, a byte (or any byte, for a dot) once or any number of
    times, with an optional end mark. *)
Inductive item : Type := One (c : Z) | Many (c : Z).

Definition fits (c t : Z) : Prop := c = 46 \/ c = t.

Fixpoint items (re : list Z) : list item * bool :=
  match re with
  | [] => ([], false)
  | c :: re1 =>
      match re1 with
      | d :: re2 =>
          if d =? 42 then let (its, e) := items re2 in (Many c :: its, e)
          else let (its, e) := items re1 in (One c :: its, e)
      | [] => if c =? 36 then ([], true) else ([One c], false)
      end
  end.

Inductive denotes : list item -> list Z -> Prop :=
| den_nil : denotes [] []
| den_one c its t l : fits c t -> denotes its l -> denotes (One c :: its) (t :: l)
| den_many0 c its l : denotes its l -> denotes (Many c :: its) l
| den_many c its t l : fits c t -> denotes (Many c :: its) l -> denotes (Many c :: its) (t :: l).

(** The text has a prefix that the pattern denotes, the whole of it for a pattern with the
    end mark. *)
Definition prefix_matches (re text : list Z) : Prop :=
  let (its, e) := items re in exists l r, text = l ++ r /\ denotes its l /\ (e = true -> r = []).

(** ** The program *)

Section grep.
Context {S : Type} `{!OS S}.

(** [strchr(p, c)] in the buffer. *)
Fixpoint strchr_at (fuel : nat) (b : mem) (p c : Z) : option Z :=
  match fuel with
  | O => None
  | Datatypes.S k => if b p =? 0 then None else if b p =? c then Some p else strchr_at k b (p + 1) c
  end.

Definition GREPBUF : Z := 1024.

Definition buf_bytes (b : mem) (p : Z) (n : nat) : list Z := (fun i => b (p + Z.of_nat i)) <$> seq 0 n.

(** The loop over the lines in the buffer: the buffer and [p] after it. *)
Fixpoint grep_lines (fuel : nat) (pattern : list Z) (b : mem) (p : Z) : M S (mem * Z) :=
  match fuel with
  | O => fun _ => OutOfFuel
  | Datatypes.S k =>
      match strchr_at (Z.to_nat GREPBUF) b p NL with
      | None => ret (b, p)
      | Some q =>
          let b := store8 b q 0 in
          if match_ pattern (cstr b p (Z.to_nat GREPBUF)) then
            let b := store8 b q NL in
            os_write 1 (buf_bytes b p (Z.to_nat (q + 1 - p))) ;;;
            grep_lines k pattern b (q + 1)
          else grep_lines k pattern b (q + 1)
      end
  end.

Fixpoint grep (fuel : nat) (pattern : list Z) (fd : Z) (b : mem) (m : Z) : M S unit :=
  match fuel with
  | O => fun _ => OutOfFuel
  | Datatypes.S k =>
      let! r := os_read fd (GREPBUF - m - 1) in
      if 0 <? fst r then
        let b := store_bytes b m (snd r) in
        let m := m + fst r in
        let b := store8 b m 0 in
        let! bp := grep_lines (Z.to_nat GREPBUF) pattern b 0 in
        let '(b, p) := bp in
        let m := if p =? 0 then 0 else m in
        if 0 <? m then
          let m := m - p in
          grep k pattern fd (umemmove b 0 p m) m
        else grep k pattern fd b m
      else ret tt
  end.

(** [buf] is zero at the start of the program. *)
Definition grep_main (fuel : nat) (argv : list (list Z)) : M S unit :=
  match argv with
  | [] | [_] => printf 2 (line "usage: grep pattern [file ...]") [] ;;; exit
  | [_; pattern] => grep fuel pattern 0 (fun _ => 0) 0 ;;; exit
  | _ :: pattern :: files => each_file "grep" (fun fd _ => grep fuel pattern fd (fun _ => 0) 0) files
  end.
End grep.

(** ** The matcher finds what the pattern denotes *)

Lemma matchstar_iff c here (P : list Z -> Prop) : (forall text, here text = true <-> P text) ->
  forall text, matchstar c here text = true <-> exists l r, text = l ++ r /\ Forall (fits c) l /\ P r.
Proof.
  intros HP. induction text as [|t text IH]; cbn [matchstar]; destruct (here _) eqn:E.
  - split; [|done]. intros _. exists [], []. split_and!; [done|done|by apply HP].
  - split; [done|]. intros (l & r & Hl & _ & Hr). symmetry in Hl. apply app_eq_nil in Hl as [-> ->]. apply HP in Hr. congruence.
  - split; [|done]. intros _. exists [], (t :: text). split_and!; [done|done|by apply HP].
  - assert (Hfit : (t =? c) || (c =? 46) = true <-> fits c t) by (unfold fits; rewrite orb_true_iff, !Z.eqb_eq; intuition congruence).
    destruct ((t =? c) || (c =? 46)) eqn:Ef.
    + rewrite IH. split.
      * intros (l & r & -> & Hl & Hr). exists (t :: l), r. split_and!; [done|constructor; [by apply Hfit|done]|done].
      * intros ([|t' l] & r & Hl & Hf & Hr); simpl in Hl; [subst; apply HP in Hr; congruence|]. injection Hl as -> ->.
        apply Forall_cons in Hf as [_ Hf]. by exists l, r.
    + split; [done|]. intros ([|t' l] & r & Hl & Hf & Hr); simpl in Hl; [subst; apply HP in Hr; congruence|]. injection Hl as <- _.
      apply Forall_cons in Hf as [Hf _]. apply Hfit in Hf. congruence.
Qed.

Lemma denotes_many c its l : denotes (Many c :: its) l <-> exists l1 l2, l = l1 ++ l2 /\ Forall (fits c) l1 /\ denotes its l2.
Proof.
  split.
  - remember (Many c :: its) as its' eqn:E. intros H. revert E. induction H as [| |? ? l Hd _|? ? t l Hf _ IH]; intros [= -> ->].
    + by exists [], l.
    + destruct (IH eq_refl) as (l1 & l2 & -> & H1 & H2). exists (t :: l1), l2. split_and!; [done|by constructor|done].
  - intros (l1 & l2 & -> & Hf & Hd). induction Hf as [|t l1 Ht _ IH]; [by apply den_many0|by apply den_many].
Qed.

Lemma matchhere_iff n : forall re text, (length re <= n)%nat -> matchhere re text = true <-> prefix_matches re text.
Proof.
  induction n as [|n IH]; intros re text Hn.
  { destruct re; simpl in *; [|lia]. split; [|done]. intros _. exists [], text. split_and!; [done|constructor|done]. }
  destruct re as [|c [|d re2]].
  - split; [|done]. intros _. exists [], text. split_and!; [done|constructor|done].
  - unfold prefix_matches. cbn [matchhere items]. destruct (Z.eqb_spec c 36) as [->|Hc].
    + destruct text as [|t text]; [split; [|done]; intros _; exists [], []; split_and!; [done|constructor|done]|]. split; [done|].
      intros (l & r & Hl & Hd & Hr). inversion Hd; subst. rewrite Hr in Hl by done. done.
    + destruct text as [|t text].
      * split; [done|]. intros (l & r & Hl & Hd & _). inversion Hd; subst. done.
      * assert (Hfit : (c =? 46) || (c =? t) = true <-> fits c t) by (unfold fits; by rewrite orb_true_iff, !Z.eqb_eq).
        destruct ((c =? 46) || (c =? t)).
        -- split; [|done]. intros _. exists [t], text. split_and!; [done| |done]. constructor; [by apply Hfit|constructor].
        -- split; [done|]. intros (l & r & Hl & Hd & _). inversion Hd as [|? ? t' l' Hf _| |]; subst. simpl in Hl. injection Hl as <- _. by apply Hfit.
  - assert (Ei : items (c :: d :: re2) = if d =? 42 then let (its, e) := items re2 in (Many c :: its, e) else let (its, e) := items (d :: re2) in (One c :: its, e)) by done.
    assert (Em : matchhere (c :: d :: re2) text = if d =? 42 then matchstar c (matchhere re2) text else
      match text with t :: text => if (c =? 46) || (c =? t) then matchhere (d :: re2) text else false | [] => false end) by done.
    set (re1 := d :: re2) in *. assert (H1 := fun t => IH re1 t ltac:(simpl in *; lia)). assert (H2 := fun t => IH re2 t ltac:(simpl in *; lia)).
    unfold prefix_matches. rewrite Ei, Em. clear Ei Em. destruct (Z.eqb_spec d 42) as [->|Hd].
    + rewrite (matchstar_iff c (matchhere re2) (prefix_matches re2) H2). unfold prefix_matches. destruct (items re2) as [its e]. cbv beta iota. split.
      * intros (l1 & r & -> & Hl1 & l2 & r' & -> & Hd & He). exists (l1 ++ l2), r'. split_and!; [by rewrite app_assoc| |done].
        apply denotes_many. by exists l1, l2.
      * intros (l & r & -> & Hd & He). apply denotes_many in Hd as (l1 & l2 & -> & Hl1 & Hd). exists l1, (l2 ++ r).
        split_and!; [by rewrite app_assoc|done|]. by exists l2, r.
    + unfold prefix_matches in H1. destruct (items re1) as [its e]. cbv beta iota in *. destruct text as [|t text].
      * split; [done|]. intros (l & r & Hl & Hden & _). inversion Hden; subst. done.
      * assert (Hfit : (c =? 46) || (c =? t) = true <-> fits c t) by (unfold fits; by rewrite orb_true_iff, !Z.eqb_eq).
        destruct ((c =? 46) || (c =? t)).
        -- rewrite H1. split.
           ++ intros (l & r & -> & Hden & He). exists (t :: l), r. split_and!; [done| |done]. constructor; [by apply Hfit|done].
           ++ intros (l & r & Hl & Hden & He). inversion Hden as [|? ? t' l' Hf Hden'| |]; subst. simpl in Hl. injection Hl as -> ->. by exists l', r.
        -- split; [done|]. intros (l & r & Hl & Hden & _). inversion Hden as [|? ? t' l' Hf _| |]; subst. simpl in Hl. injection Hl as <- _. by apply Hfit.
Qed.

(** The text that [match] accepts for a pattern: the pattern matches at its start, for a
    pattern that begins with a circumflex, or at some place of it. *)
Definition matches (re text : list Z) : Prop :=
  match re with
  | 94 :: re' => prefix_matches re' text
  | _ => exists l r, text = l ++ r /\ prefix_matches re r
  end.

Lemma match_loop_iff re text : match_loop re text = true <-> exists l r, text = l ++ r /\ prefix_matches re r.
Proof.
  induction text as [|t text IH]; cbn [match_loop]; destruct (matchhere _ _) eqn:E.
  - split; [|done]. intros _. exists [], []. split; [done|]. by eapply matchhere_iff.
  - split; [done|]. intros (l & r & Hl & Hr). symmetry in Hl. apply app_eq_nil in Hl as [-> ->]. eapply matchhere_iff in Hr; [congruence|done].
  - split; [|done]. intros _. exists [], (t :: text). split; [done|]. by eapply matchhere_iff.
  - rewrite IH. split; [intros (l & r & -> & Hr); by exists (t :: l), r|]. intros ([|t' l] & r & Hl & Hr); simpl in Hl.
    + subst. eapply matchhere_iff in Hr; [congruence|done].
    + injection Hl as -> ->. by exists l, r.
Qed.

(** [match] accepts exactly the texts that the pattern denotes. *)
Theorem match_correct re text : match_ re text = true <-> matches re text.
Proof.
  destruct re as [|c re]; [apply match_loop_iff|]. cbn [match_ matches]. destruct (Z.eqb_spec c 94) as [->|Hc]; [by eapply matchhere_iff|].
  rewrite match_loop_iff. destruct c as [|p|p]; try done. do 7 (destruct p as [p|p|]; try done).
Qed.

(** ** [grep] prints the matching lines *)

(** The lines of a text that end in a newline, and what follows the last newline. *)
Fixpoint lines (l : list Z) : list (list Z) * list Z :=
  match l with
  | [] => ([], [])
  | c :: l =>
      let (ls, r) := lines l in
      if c =? NL then ([] :: ls, r) else
      match ls with [] => ([], c :: r) | x :: ls => ((c :: x) :: ls, r) end
  end.

Lemma lines_cut x l : NL ∉ x -> lines (x ++ NL :: l) = (x :: fst (lines l), snd (lines l)).
Proof.
  intros Hx. induction x as [|c x IH]; simpl; [by destruct (lines l)|]. rewrite not_elem_of_cons in Hx. destruct Hx as [Hc Hx].
  rewrite IH by done. destruct (Z.eqb_spec c NL); [congruence|done].
Qed.
Lemma lines_none x : NL ∉ x -> lines x = ([], x).
Proof.
  intros Hx. induction x as [|c x IH]; simpl; [done|]. rewrite not_elem_of_cons in Hx. destruct Hx as [Hc Hx].
  rewrite IH by done. destruct (Z.eqb_spec c NL); [congruence|done].
Qed.
(** A text is without newlines or has a first line. *)
Lemma first_line l : NL ∉ l \/ exists x l', l = x ++ NL :: l' /\ NL ∉ x.
Proof.
  induction l as [|c l [IH|(x & l' & -> & IH)]]; [left; by apply not_elem_of_nil| |];
    (destruct (decide (c = NL)) as [->|Hc]; [right; exists []; eexists; split; [done|by apply not_elem_of_nil]|]).
  - left. apply not_elem_of_cons. naive_solver.
  - right. exists (c :: x), l'. split; [done|]. apply not_elem_of_cons. naive_solver.
Qed.
Lemma lines_rest l : NL ∉ snd (lines l).
Proof.
  induction l as [|c l IH]; simpl; [by apply not_elem_of_nil|]. destruct (lines l) as [ls r]. simpl in IH. destruct (Z.eqb_spec c NL); [done|].
  destruct ls; [|done]. apply not_elem_of_cons. naive_solver.
Qed.
(** The lines of a text that arrives in two parts. *)
Lemma lines_app l l' : lines (l ++ l') = (fst (lines l) ++ fst (lines (snd (lines l) ++ l')), snd (lines (snd (lines l) ++ l'))).
Proof.
  remember (length l) as n eqn:Hn. revert l Hn. induction n as [n IH] using lt_wf_ind. intros l ->. destruct (first_line l) as [Hl|(x & l1 & -> & Hx)].
  - rewrite (lines_none l Hl). cbn [fst snd app]. by destruct (lines (l ++ l')).
  - rewrite <-app_assoc. cbn [app]. rewrite !lines_cut by done. cbn [fst snd].
    rewrite (IH (length l1)) by (rewrite ?length_app; simpl; lia || done). done.
Qed.

Lemma strchr_at_none b p l n : str_at b p l -> NL ∉ l -> strchr_at n b p NL = None.
Proof.
  revert p l. induction n as [|n IH]; intros p l H Hl; [done|]. destruct l as [|c l]; cbn [strchr_at str_at] in *; [by rewrite H|].
  destruct H as (-> & Hc & H). rewrite not_elem_of_cons in Hl. destruct Hl as [Hl1 Hl2]. destruct (Z.eqb_spec c 0); [done|].
  destruct (Z.eqb_spec c NL); [congruence|]. by eapply IH.
Qed.
Lemma strchr_at_some b p x l n : str_at b p (x ++ NL :: l) -> NL ∉ x -> (length x < n)%nat -> strchr_at n b p NL = Some (p + Z.of_nat (length x)).
Proof.
  revert p n. induction x as [|c x IH]; intros p n H Hx Hn; (destruct n as [|n]; [simpl in Hn; lia|]); cbn [strchr_at app str_at length] in *.
  - destruct H as (-> & _ & _). cbn. f_equal. lia.
  - destruct H as (-> & Hc & H). rewrite not_elem_of_cons in Hx. destruct Hx as [Hx1 Hx2]. destruct (Z.eqb_spec c 0); [done|].
    destruct (Z.eqb_spec c NL); [congruence|]. rewrite IH by (done || lia). f_equal. lia.
Qed.

Lemma str_at_cut b p x l : str_at b p (x ++ NL :: l) -> let q := p + Z.of_nat (length x) in
  str_at (store8 b q 0) p x /\ (forall v, str_at (store8 b q v) (q + 1) l) /\
  buf_bytes (store8 (store8 b q 0) q NL) p (length x + 1) = x ++ [NL].
Proof.
  intros H q. apply str_at_app in H as [[Hx Hb] Hl]. fold q in Hl. cbn [str_at] in Hl. destruct Hl as (Hq & _ & Hl). split_and!.
  - rewrite <-(app_nil_r x). apply str_at_app. split_and!; [done| |by apply store8_eq]. intros i c Hi. rewrite store8_ne; [by apply Hb|].
    apply lookup_lt_Some in Hi. unfold q. lia.
  - intros v. eapply str_at_ext; [exact Hl|]. intros y Hy. apply store8_ne. lia.
  - apply list_eq. intros i. unfold buf_bytes. rewrite list_lookup_fmap. destruct (decide (i < length x + 1)%nat) as [Hi|Hi].
    + rewrite lookup_seq_lt by done. cbn [fmap option_fmap option_map]. rewrite Nat.add_0_l. destruct (decide (i = length x)) as [->|Hne].
      * fold q. rewrite store8_eq, lookup_app_r, Nat.sub_diag by done. done.
      * destruct (lookup_lt_is_Some_2 x i ltac:(lia)) as [c Hc]. rewrite lookup_app_l, Hc by lia.
        rewrite !store8_ne by (unfold q; lia). f_equal. by apply Hb.
    + rewrite lookup_seq_ge by lia. rewrite lookup_ge_None_2; [done|]. rewrite length_app. simpl. lia.
Qed.

Section props.
Context {S : Type} `{!OS S} `{!Files S}.

(** The output of [grep] on given lines. *)
Definition hits (pattern : list Z) (ls : list (list Z)) : list Z :=
  concat ((fun x => x ++ [NL]) <$> filter (fun x => match_ pattern x = true) ls).

Lemma wp_grep_lines pattern fuel : forall X b p s (Q : mem * Z -> S -> Prop), str_at b p X -> (length X < 1024)%nat -> (length X < fuel)%nat ->
  (forall b' s', let r := snd (lines X) in let p' := p + Z.of_nat (length X) - Z.of_nat (length r) in
     str_at b' p' r -> f_out s' = f_out s ++ hits pattern (fst (lines X)) -> (forall fd, f_rest s' fd = f_rest s fd /\ (f_full s fd -> f_full s' fd)) ->
     Q (b', p') s') ->
  wp (grep_lines fuel pattern b p) Q s.
Proof.
  induction fuel as [|fuel IH]; intros X b p s Q Hs Hx Hf HQ; [lia|]. cbn [grep_lines]. destruct (first_line X) as [Hn|(x & l & -> & Hn)].
  - rewrite (strchr_at_none _ _ _ _ Hs Hn). wp_step. rewrite (lines_none X Hn) in HQ. cbn [fst snd] in HQ.
    specialize (HQ b s). rewrite Z.add_simpl_r in HQ. apply HQ; [done| |done]. unfold hits. by rewrite app_nil_r.
  - rewrite length_app in Hx, Hf. cbn [length] in Hx, Hf. change (Z.to_nat GREPBUF) with 1024%nat.
    rewrite (strchr_at_some _ _ _ _ _ Hs Hn) by lia. set (q := p + Z.of_nat (length x)). destruct (str_at_cut _ _ _ _ Hs) as (H1 & H2 & H3). fold q in H1, H2, H3.
    cbv zeta. rewrite (cstr_str_at _ _ x _ H1) by lia. rewrite lines_cut in HQ by done. cbn [fst snd] in HQ.
    assert (Ep : forall r, p + Z.of_nat (length (x ++ NL :: l)) - r = q + 1 + Z.of_nat (length l) - r) by (intros r; rewrite length_app; cbn [length]; unfold q; lia).
    rewrite Ep in HQ. cbv zeta in HQ. unfold hits in HQ. destruct (match_ pattern x) eqn:Em.
    + rewrite filter_cons_True in HQ by done. wp_step. replace (Z.to_nat (q + 1 - p)) with (length x + 1)%nat by (unfold q; lia). rewrite H3.
      eapply wp_mono; [apply f_write|]. intros w s1 (_ & Ho & Hr). apply (IH l); [| |lia|].
      * eapply str_at_ext; [apply (H2 0)|]. intros y Hy. by rewrite (store8_ne _ _ _ y) by lia.
      * lia.
      * intros b' s' r p' Hr' Ho' Hfd. apply HQ; [done| |].
        -- rewrite Ho', Ho, fmap_cons. cbn [concat]. unfold hits. by rewrite <-!app_assoc.
        -- intros fd. destruct (Hr fd), (Hfd fd). split; [congruence|auto].
    + rewrite filter_cons_False in HQ by congruence. apply (IH l); [apply (H2 0)|lia|lia|]. intros b' s' r p' Hr' Ho' Hfd. by apply HQ.
Qed.

Lemma hits_app pattern l l' : hits pattern (l ++ l') = hits pattern l ++ hits pattern l'.
Proof. unfold hits. by rewrite filter_app, fmap_app, concat_app. Qed.

Lemma lines_rest_length l : (length (snd (lines l)) <= length l)%nat /\ (length (snd (lines l)) = length l -> NL ∉ l).
Proof.
  remember (length l) as n eqn:Hn. revert l Hn. induction n as [n IH] using lt_wf_ind. intros l ->. destruct (first_line l) as [Hl|(x & l1 & -> & Hx)].
  - by rewrite (lines_none l Hl).
  - rewrite lines_cut by done. cbn [snd]. rewrite length_app. cbn [length].
    destruct (IH (length l1)) with (l := l1) as [H _]; [rewrite length_app; simpl; lia|done|]. lia.
Qed.

(** A start of 1023 bytes without a newline is the start of the last, incomplete line. *)
Lemma long_line c r : NL ∉ c -> (1023 <= length c)%nat -> Forall (fun x => (length x < 1023)%nat) (fst (lines (c ++ r))) -> NL ∉ r.
Proof.
  intros Hc Hlen Hf. destruct (first_line r) as [Hr|(x & l & -> & Hx)]; [done|]. rewrite app_assoc, lines_cut in Hf.
  - cbn [fst] in Hf. apply Forall_cons in Hf as [Hf _]. rewrite length_app in Hf. lia.
  - rewrite not_elem_of_app. done.
Qed.
Lemma lines_nonl c : NL ∉ c -> fst (lines c) = [].
Proof. intros H. by rewrite lines_none. Qed.

(** What is in the buffer after a read. *)
Lemma filled_buffer b (carry l : list Z) : (forall i c, carry !! i = Some c -> b (Z.of_nat i) = c) -> Forall (fun c => c <> 0) (carry ++ l) ->
  str_at (store8 (store_bytes b (Z.of_nat (length carry)) l) (Z.of_nat (length carry) + Z.of_nat (length l)) 0) 0 (carry ++ l).
Proof.
  intros Hb Hn. rewrite <-(app_nil_r (carry ++ l)). apply str_at_app. split_and!; [done| |].
  - intros i c Hi. pose proof (lookup_lt_Some _ _ _ Hi) as Hlt. rewrite length_app in Hlt. rewrite Z.add_0_l, store8_ne by lia. unfold store_bytes.
    destruct (decide (i < length carry)%nat) as [Hc|Hc].
    + rewrite (proj2 (Z.leb_gt _ _)) by lia. cbn [andb]. rewrite lookup_app_l in Hi by done. by apply Hb.
    + rewrite (proj2 (Z.leb_le _ _)), (proj2 (Z.ltb_lt _ _)) by lia. cbn [andb]. rewrite lookup_app_r in Hi by lia.
      replace (Z.to_nat (Z.of_nat i - Z.of_nat (length carry))) with (i - length carry)%nat by lia. by rewrite Hi.
  - rewrite Z.add_0_l, length_app. cbn [str_at]. rewrite Nat2Z.inj_add. apply store8_eq.
Qed.

Lemma wp_grep pattern fd fuel : forall carry b s, (length carry <= 1023)%nat -> (forall i c, carry !! i = Some c -> b (Z.of_nat i) = c) ->
  NL ∉ carry -> f_full s fd -> Forall (fun c => c <> 0) (carry ++ f_rest s fd) ->
  Forall (fun x => (length x < 1023)%nat) (fst (lines (carry ++ f_rest s fd))) -> (length (f_rest s fd) < fuel)%nat ->
  wp (grep fuel pattern fd b (Z.of_nat (length carry))) (fun _ s' => f_out s' = f_out s ++ hits pattern (fst (lines (carry ++ f_rest s fd)))) s.
Proof.
  induction fuel as [|fuel IH]; intros carry b s Hlen Hb Hnl Hfull Hnz Hshort Hf; [lia|]. cbn [grep]. set (T := f_rest s fd) in *.
  wp_step. eapply wp_mono; [apply f_read; unfold GREPBUF; lia|]. fold T. intros r s1 (k & -> & Hk & Hkl & Hz & Hr & Ho & Hfu). cbn [fst snd].
  destruct (Hfu Hfull) as [Hfk Hfull1]. unfold GREPBUF in Hk, Hz, Hfk. destruct (Z.ltb_spec 0 (Z.of_nat k)) as [Hp|Hp].
  2:{ wp_step. assert (k = 0)%nat as -> by lia. rewrite Ho. assert (E : fst (lines (carry ++ T)) = []); [|by rewrite E, app_nil_r].
      apply lines_nonl, not_elem_of_app. split; [done|]. destruct (Hz eq_refl) as [H0|H0]; [|rewrite H0; by apply not_elem_of_nil].
      eapply long_line; [exact Hnl|lia|exact Hshort]. }
  set (X := carry ++ take k T). assert (HX : carry ++ T = X ++ drop k T) by (unfold X; by rewrite <-app_assoc, take_drop).
  assert (Hlt : length (take k T) = k) by (by rewrite length_take_le). assert (HlX : length X = (length carry + k)%nat) by (unfold X; rewrite length_app; lia).
  rewrite HX in Hnz, Hshort |- *. apply Forall_app in Hnz as [HnX HnD].
  pose proof (filled_buffer b carry (take k T) Hb HnX) as Hbuf. rewrite Hlt in Hbuf. fold X in Hbuf.
  wp_step. eapply wp_grep_lines; [exact Hbuf|lia|change (Z.to_nat GREPBUF) with 1024%nat; lia|]. cbv zeta. rewrite Z.add_0_l. set (R := snd (lines X)).
  intros b' s2 Hs2 Ho2 Hr2. destruct (Hr2 fd) as [Hr2' Hfull2]. specialize (Hfull2 Hfull1). rewrite Hr in Hr2'.
  destruct (lines_rest_length X) as [HRl HRe]. fold R in HRl, HRe. destruct (Z.eqb_spec (Z.of_nat (length X) - Z.of_nat (length R)) 0) as [E0|E0].
  - assert (HnX' : NL ∉ X) by (apply HRe; lia). change (0 <? 0) with false. cbv iota.
    assert (HnD' : NL ∉ drop k T).
    { destruct Hfk as [Hfk|Hfk]; [eapply long_line; [exact HnX'|lia|exact Hshort]|]. rewrite drop_ge by lia. by apply not_elem_of_nil. }
    eapply wp_mono; [apply (IH [] b' s2); cbn [app]; rewrite ?Hr2'|].
    + simpl. lia.
    + intros i c Hi. done.
    + by apply not_elem_of_nil.
    + done.
    + done.
    + by rewrite lines_nonl.
    + rewrite length_drop. lia.
    + intros u s' Ho'. cbn beta in Ho'. cbn [app] in Ho'. rewrite Ho', Ho2, Ho, Hr2', (lines_nonl (drop k T)), (lines_nonl X), (lines_nonl (X ++ drop k T)); try done.
      * unfold hits. by rewrite !app_nil_r.
      * by apply not_elem_of_app.
  - rewrite (proj2 (Z.ltb_lt _ _)) by lia.
    replace (Z.of_nat (length carry) + Z.of_nat k - (Z.of_nat (length X) - Z.of_nat (length R))) with (Z.of_nat (length R)) by lia.
    rewrite lines_app in Hshort |- *. cbn [fst] in Hshort |- *. apply Forall_app in Hshort as [Hsh1 Hsh2]. fold R in Hsh2 |- *.
    rewrite <-(app_nil_r R) in Hs2. apply str_at_app in Hs2 as [[HR1 HR2] _]. rewrite app_nil_r in HR2.
    eapply wp_mono; [apply (IH R _ s2); rewrite ?Hr2'|].
    + lia.
    + intros i c Hi. unfold umemmove. rewrite Nat2Z.id, copy_forward_lookup by lia. pose proof (lookup_lt_Some _ _ _ Hi).
      rewrite (proj2 (Z.leb_le _ _)), (proj2 (Z.ltb_lt _ _)) by lia. cbn [andb]. rewrite Z.sub_0_r. by apply HR2.
    + apply lines_rest.
    + done.
    + by apply Forall_app.
    + done.
    + rewrite length_drop. lia.
    + intros u s' Ho'. cbn beta in Ho'. rewrite Ho', Ho2, Ho, Hr2', hits_app, <-app_assoc. done.
Qed.

(** On a file whose reads are complete and whose lines fit the buffer, [grep] prints exactly
    the lines that the pattern matches, in order; a last line without newline is not looked at. *)
Theorem grep_prints pattern fd fuel s : let text := f_rest s fd in
  f_full s fd -> Forall (fun c => c <> 0) text -> Forall (fun x => (length x < 1023)%nat) (fst (lines text)) -> (length text < fuel)%nat ->
  wp (grep fuel pattern fd (fun _ => 0) 0) (fun _ s' =>
    f_out s' = f_out s ++ concat ((fun x => x ++ [NL]) <$> filter (fun x => match_ pattern x = true) (fst (lines text)))) s.
Proof.
  intros text Hfull Hnz Hshort Hf. apply (wp_grep pattern fd fuel [] (fun _ => 0) s); try done.
  - simpl. lia.
  - by apply not_elem_of_nil.
Qed.
End props.

Definition demo_text : tio := mk_tio (fun _ => [line "hello" ++ line "world" ++ line "yellow" ++ bytes "jello"]) [].

Lemma grep_prints_witness : wp (grep 100 (bytes "el*o") 3 (fun _ => 0) 0) (fun _ s' => tio_out s' = line "hello" ++ line "yellow") demo_text.
Proof.
  eapply wp_mono; [apply (grep_prints (bytes "el*o") 3 100 demo_text)|].
  - vm_compute. lia.
  - apply (bool_decide_unpack _). vm_compute. exact I.
  - apply (bool_decide_unpack _). vm_compute. exact I.
  - vm_compute. lia.
  - intros u s' Ho. etransitivity; [exact Ho|]. vm_compute. reflexivity.
Defined.

(** When a line arrives in two reads, as from a pipe or the console, its first part is
    dropped: [grep hello] prints nothing on a text that consists of the line [hello]. *)
Theorem grep_drops_part_of_line :
  let s := mk_tio (fun _ => [bytes "hel"; line "lo"]) [] in
  fst (lines (f_rest s 0)) = [bytes "hello"] /\ match_ (bytes "hello") (bytes "hello") = true /\
  wp (grep 10 (bytes "hello") 0 (fun _ => 0) 0) (fun _ s' => tio_out s' = [] /\ f_rest s' 0 = []) s.
Proof. vm_compute. done. Qed.
