(* ===== verification/Sh.v ===== *)
(** * The shell ([src/xv6/sh.c])

    The parser works on the line in the memory [b], between [ps] and [es]; its state is the
    pointer [*ps], and a syntax error is a [Panic] with the message of the source.  The
    parsed command is the tree of the records of the source; their strings are pointers into
    the line, cut at their ends by [nulterminate].  [malloc] is taken not to fail.

    [parseexec] fills the [execcmd] it has allocated while the redirections it meets are
    already wrapped around it.  The model keeps the two apart, the arguments and the list of
    redirections, and wraps the latter around the finished record. *)

From S2P Require Import Prelude Mem CString Ulib Sysfile.

Definition MAXARGS : nat := 10.

(** A parsed command, over the type of its strings. *)
Section cmd.
Context {W : Type}.

Record redir : Type := mk_redir { rd_file : W; rd_mode : Z; rd_fd : Z }.

Inductive cmd : Type :=
| EXEC (argv : list W)
| REDIR (c : cmd) (r : redir)
| PIPE (left right : cmd)
| LIST (left right : cmd)
| BACK (c : cmd).

Definition redirs (c : cmd) (rs : list redir) : cmd := foldl REDIR c rs.
End cmd.
Arguments redir : clear implicits.
Arguments cmd : clear implicits.

(** ** Tokens *)

(** What the parser uses of the line: the next token with its string, and whether the next
    token begins with one of the given characters. *)
Class Lexer (St W : Type) : Type := {
  gettoken : M St (Z * W);
  peek : list Z -> M St bool
}.

Definition whitespace : list Z := [32; 9; 13; 10; 11].
Definition symbols : list Z := bytes "<|>&;()".
Definition has (s : list Z) (c : Z) : bool := match strchr s c with Some _ => true | None => false end.
Definition word_byte (c : Z) : bool := negb (has whitespace c) && negb (has symbols c).

(** A string in the line: its first byte and the byte after it. *)
Definition slice : Type := Z * Z.

Section line_lexer.
Context (b : mem) (es : Z).

(** [while(s < es && f( *s )) s++;] *)
Fixpoint skip_loop (n : nat) (f : Z -> bool) (s : Z) : Z :=
  match n with
  | O => s
  | S k => if f (b s) then skip_loop k f (s + 1) else s
  end.
Definition skip (f : Z -> bool) (s : Z) : Z := skip_loop (Z.to_nat (es - s)) f s.

(** The token, its slice and the pointer after it and the blanks. *)
Definition line_token (s : Z) : Z * slice * Z :=
  let s := skip (has whitespace) s in
  let q := s in
  let c := b s in
  let '(tok, s) :=
    if c =? 0 then (c, s)
    else if has (bytes "|();&<") c then (c, s + 1)
    else if c =? 62 then
      let s := s + 1 in
      if b s =? 62 then (43, s + 1) else (c, s)
    else (97, skip word_byte s) in
  (tok, (q, s), skip (has whitespace) s).

Definition line_gettoken : M Z (Z * slice) := fun s =>
  let '(r, s) := line_token s in Ok r s.

Definition line_peek (toks : list Z) : M Z bool := fun s =>
  let s := skip (has whitespace) s in
  Ok (negb (b s =? 0) && has toks (b s)) s.

#[local] Instance line_lexer : Lexer Z slice := {| gettoken := line_gettoken; peek := line_peek |}.
End line_lexer.

(** ** Commands *)

Section parser.
Context {St W : Type} `{!Lexer St W}.

Fixpoint parseredirs (fuel : nat) : M St (list (redir W)) :=
  match fuel with
  | O => fun _ => OutOfFuel
  | S k =>
      let! p := peek (bytes "<>") in
      if negb p then ret [] else
      let! t := gettoken in
      let! f := gettoken in
      if negb (fst f =? 97) then panic "missing file for redirection" else
      let! rs := parseredirs k in
      if fst t =? 60 then ret (mk_redir (snd f) O_RDONLY 0 :: rs)
      else ret (mk_redir (snd f) (Z.lor O_WRONLY O_CREATE) 1 :: rs)
  end.

(** The loop of [parseexec] over the arguments. *)
Fixpoint parseargs (fuel : nat) (argv : list W) (rs : list (redir W)) : M St (list W * list (redir W)) :=
  match fuel with
  | O => fun _ => OutOfFuel
  | S k =>
      let! p := peek (bytes "|)&;") in
      if p then ret (argv, rs) else
      let! t := gettoken in
      if fst t =? 0 then ret (argv, rs) else
      if negb (fst t =? 97) then panic "syntax" else
      let argv := argv ++ [snd t] in
      if (MAXARGS <=? length argv)%nat then panic "too many args" else
      let! rs' := parseredirs k in
      parseargs k argv (rs ++ rs')
  end.

(** The loop of [parseline] over the ampersands. *)
Fixpoint parsebacks (fuel : nat) (c : cmd W) : M St (cmd W) :=
  match fuel with
  | O => fun _ => OutOfFuel
  | S k =>
      let! p := peek (bytes "&") in
      if p then gettoken ;;; parsebacks k (BACK c) else ret c
  end.

Fixpoint parseline (fuel : nat) : M St (cmd W) :=
  match fuel with
  | O => fun _ => OutOfFuel
  | S k =>
      let! c := parsepipe k in
      let! c := parsebacks k c in
      let! p := peek (bytes ";") in
      if p then
        gettoken ;;;
        let! c' := parseline k in
        ret (LIST c c')
      else ret c
  end
with parsepipe (fuel : nat) : M St (cmd W) :=
  match fuel with
  | O => fun _ => OutOfFuel
  | S k =>
      let! c := parseexec k in
      let! p := peek (bytes "|") in
      if p then
        gettoken ;;;
        let! c' := parsepipe k in
        ret (PIPE c c')
      else ret c
  end
with parseexec (fuel : nat) : M St (cmd W) :=
  match fuel with
  | O => fun _ => OutOfFuel
  | S k =>
      let! p := peek (bytes "(") in
      if p then parseblock k else
      let! rs := parseredirs k in
      let! r := parseargs k [] rs in
      ret (redirs (EXEC (fst r)) (snd r))
  end
with parseblock (fuel : nat) : M St (cmd W) :=
  match fuel with
  | O => fun _ => OutOfFuel
  | S k =>
      let! p := peek (bytes "(") in
      if negb p then panic "parseblock" else
      gettoken ;;;
      let! c := parseline k in
      let! p := peek (bytes ")") in
      if negb p then panic "syntax - missing )" else
      gettoken ;;;
      let! rs := parseredirs k in
      ret (redirs c rs)
  end.
End parser.

(** [*p = 0] at the end of every string. *)
Fixpoint nulterminate (b : mem) (c : cmd slice) : mem :=
  match c with
  | EXEC argv => foldl (fun b a => store8 b (snd a) 0) b argv
  | REDIR c r => store8 (nulterminate b c) (snd (rd_file r)) 0
  | PIPE l r | LIST l r => nulterminate (nulterminate b l) r
  | BACK c => nulterminate b c
  end.

(** The length of the line, at most that of the buffer of [main]. *)
Definition SHBUF : Z := 100.
Definition line_length (b : mem) (s : Z) : nat := length (cstr b s (Z.to_nat SHBUF)).

(** The command and the line with its strings cut; [None] when something is left over at the
    pointer in the state. *)
Definition parsecmd (b : mem) (s : Z) : res Z (option (cmd slice * mem)) :=
  let n := line_length b s in
  let es := s + Z.of_nat n in
  let L := line_lexer b es in
  (let! c := parseline (4 * n + 4) in
   peek [] ;;;
   let! s := get in
   if negb (s =? es) then ret None else ret (Some (c, nulterminate b c))) s.

(** ** Running commands *)

Section run.
Context {S : Type} `{!OS S}.

Definition sh_string (b : mem) (a : slice) : list Z := cstr b (fst a) (Z.to_nat SHBUF).

(** [str] reads a string of the command. *)
Fixpoint runcmd {W} (str : W -> list Z) (c : cmd W) : M S unit :=
  match c with
  | EXEC argv =>
      match argv with
      | [] => exit
      | a :: _ => os_exec (str a) (str <$> argv) ;;; exit
      end
  | REDIR c r =>
      os_close (rd_fd r) ;;;
      os_open (str (rd_file r)) (rd_mode r) ;;;
      runcmd str c
  | LIST l _ => printf 2 (line "list not implemented") [] ;;; runcmd str l
  | PIPE l _ => printf 2 (line "pipe not implemented") [] ;;; runcmd str l
  | BACK c => printf 2 (line "background not implemented") [] ;;; runcmd str c
  end.

Definition sh_panic {A} (msg : string) : M S A := printf 2 (line "%s") [AStr (Some (bytes msg))] ;;; exit.

Definition fork1 : M S Z :=
  let! pid := os_fork in
  if pid =? -1 then sh_panic "fork" else ret pid.

(** The line in [buf], which [memset] has cleared, and whether there was one. *)
Definition getcmd : M S (bool * mem) :=
  printf 2 (bytes "$ ") [] ;;;
  let! l := ulib_gets SHBUF in
  let b := store_bytes (fun _ => 0) 0 l in
  ret (negb (b 0 =? 0), b).

Definition is_cd (b : mem) : bool := (b 0 =? 99) && (b 1 =? 100) && (b 2 =? 32).

Definition run_line (b : mem) : M S unit :=
  match parsecmd b 0 with
  | Ok (Some (c, b)) _ => runcmd (sh_string b) c
  | Ok None s => printf 2 (line "leftovers: %s") [AStr (Some (cstr b s (Z.to_nat SHBUF)))] ;;; sh_panic "syntax"
  | Panic msg => sh_panic msg
  | Blocked _ | OutOfFuel => fun _ => OutOfFuel
  end.

Fixpoint sh_open (fuel : nat) : M S unit :=
  match fuel with
  | O => fun _ => OutOfFuel
  | Datatypes.S k =>
      let! fd := os_open (bytes "console") O_RDWR in
      if 0 <=? fd then if 3 <=? fd then os_close fd ;;; ret tt else sh_open k else ret tt
  end.

Fixpoint sh_loop (fuel : nat) : M S unit :=
  match fuel with
  | O => fun _ => OutOfFuel
  | Datatypes.S k =>
      let! r := getcmd in
      let '(more, b) := r in
      if negb more then exit else
      if is_cd b then
        let b := store8 b (Z.of_nat (line_length b 0) - 1) 0 in
        let path := cstr b 3 (Z.to_nat SHBUF) in
        let! r := os_chdir path in
        (if r <? 0 then printf 2 (line "cannot cd %s") [AStr (Some path)] else ret tt) ;;;
        sh_loop k
      else
        let! pid := fork1 in
        if pid =? 0 then run_line b else os_wait ;;; sh_loop k
  end.

Definition sh_main (fuel : nat) : M S unit := sh_open fuel ;;; sh_loop fuel.
End run.
