(* ===== verification/ShProps.v ===== *)
(** * The shell parser against its grammar

    The parser is followed on the list of tokens of the line: over it, it is an instance of
    the same code, and the two runs agree ([parse_sim]).  On lists of tokens the parser
    accepts exactly what the grammar [Line] derives, and needs no more fuel than it is given. *)

From S2P Require Import Prelude Mem CString Ulib Textprogs Sysfile Sh.

(** ** Tokens of a line *)

Inductive token : Type := TWord (w : list Z) | TSym (c : Z) | TApp.

Fixpoint lex (l : list Z) : list token :=
  match l with
  | [] => []
  | c :: l1 =>
      if has whitespace c then lex l1
      else if c =? 62 then
        match l1 with
        | d :: l2 => if d =? 62 then TApp :: lex l2 else TSym c :: lex l1
        | [] => [TSym c]
        end
      else if has symbols c then TSym c :: lex l1
      else
        match l1 with
        | d :: _ =>
            if word_byte d then match lex l1 with TWord w :: ts => TWord (c :: w) :: ts | ts => TWord [c] :: ts end
            else TWord [c] :: lex l1
        | [] => [TWord [c]]
        end
  end.

Definition tcode (t : token) : Z := match t with TWord _ => 97 | TSym c => c | TApp => 43 end.
Definition tfirst (t : token) : Z := match t with TWord w => default 0 (head w) | TSym c => c | TApp => 62 end.
Definition tword (t : token) : list Z := match t with TWord w => w | _ => [] end.

(** The parser on a list of tokens. *)
#[export] Instance token_lexer : Lexer (list token) (list Z) := {|
  gettoken := fun ts => match ts with [] => Ok (0, []) [] | t :: ts => Ok (tcode t, tword t) ts end;
  peek toks := fun ts => Ok (match ts with [] => false | t :: _ => has toks (tfirst t) end) ts |}.

Fixpoint drop_while (f : Z -> bool) (l : list Z) : list Z :=
  match l with [] => [] | c :: l' => if f c then drop_while f l' else l end.

Lemma drop_while_split f l : exists w, l = w ++ drop_while f l /\ Forall (fun c => f c = true) w /\
  (forall c l', drop_while f l = c :: l' -> f c = false).
Proof.
  induction l as [|c l (w & E & Hw & Hd)]; simpl; [by exists []|]. destruct (f c) eqn:Ef.
  - exists (c :: w). split; [by rewrite E at 1|]. split; [by constructor|done].
  - exists []. split_and!; [done|done|]. by intros ? ? [= -> ->].
Qed.

Lemma lex_blanks l : lex (drop_while (has whitespace) l) = lex l.
Proof. induction l as [|c l IH]; [done|]. cbn [drop_while]. destruct (has whitespace c) eqn:E; [|done]. rewrite IH. cbn [lex]. by rewrite E. Qed.

Lemma word_byte_spec c : word_byte c = true <-> has whitespace c = false /\ has symbols c = false.
Proof. unfold word_byte. by rewrite andb_true_iff, !negb_true_iff. Qed.

Lemma lex_word w l : w <> [] -> Forall (fun c => word_byte c = true) w -> (forall c l', l = c :: l' -> word_byte c = false) ->
  lex (w ++ l) = TWord w :: lex l.
Proof.
  intros Hne Hw Hl. induction w as [|c w IH]; [done|]. apply Forall_cons in Hw as [Hc Hw]. pose proof Hc as Hc'. apply word_byte_spec in Hc' as [H1 H2].
  assert (Hgt : c =? 62 = false). { destruct (Z.eqb_spec c 62) as [->|]; [by vm_compute in H2|done]. }
  assert (E : forall l1, lex (c :: l1) = match l1 with
    | d :: _ => if word_byte d then match lex l1 with TWord w :: ts => TWord (c :: w) :: ts | ts => TWord [c] :: ts end else TWord [c] :: lex l1
    | [] => [TWord [c]] end) by (intros l1; cbn [lex]; by rewrite H1, Hgt, H2).
  cbn [app]. rewrite E. destruct w as [|d w].
  - cbn [app]. destruct l as [|d l]; [done|]. by rewrite (Hl d l eq_refl).
  - rewrite (IH ltac:(done) Hw). apply Forall_cons in Hw as [Hd Hw]. cbn [app]. by rewrite Hd.
Qed.

(** ** The lexer of the line *)

Section line.
Context (b : mem) (lo es : Z).

(** The bytes [l] are left of the line, which starts at [lo], at [s]. *)
Definition left_at (s : Z) (l : list Z) : Prop := str_at b s l /\ s + Z.of_nat (length l) = es /\ lo <= s.

Lemma left_at_drop s w l : left_at s (w ++ l) -> left_at (s + Z.of_nat (length w)) l.
Proof. intros (H & E & Hlo). apply str_at_app in H as [_ H]. split; [done|]. rewrite length_app in E. lia. Qed.

Lemma left_at_head s c l : left_at s (c :: l) -> b s = c /\ c <> 0 /\ left_at (s + 1) l.
Proof. intros ((H1 & H2 & H3) & E & Hlo). cbn [length] in E. split_and!; [done|done|]. split; [done|lia]. Qed.

Lemma left_at_nil s : left_at s [] -> b s = 0 /\ s = es.
Proof. intros (H & E & _). simpl in E. split; [done|lia]. Qed.

Lemma skip_at f s l : left_at s l -> left_at (skip b es f s) (drop_while f l) /\
  skip b es f s = s + Z.of_nat (length l) - Z.of_nat (length (drop_while f l)).
Proof.
  intros Hl. unfold skip. replace (Z.to_nat (es - s)) with (length l) by (destruct Hl as (_ & ? & _); lia). revert s Hl.
  induction l as [|c l IH]; intros s Hl; cbn [skip_loop drop_while length]; [split; [done|simpl; lia]|].
  destruct (left_at_head _ _ _ Hl) as (-> & _ & Hl1). destruct (f c); [|split; [done|cbn [length]; lia]].
  destruct (IH _ Hl1) as [H1 H2]. split; [done|]. rewrite H2. lia.
Qed.

(** The word [w] of the line, whose slice is [a]. *)
Record word_at (a : slice) (w : list Z) : Prop := mk_word_at {
  wa_end : snd a = fst a + Z.of_nat (length w);
  wa_ne : w <> [];
  wa_bytes : Forall (fun c => c <> 0 /\ word_byte c = true) w;
  wa_mem i c : w !! i = Some c -> b (fst a + Z.of_nat i) = c;
  wa_stop : b (snd a) = 0 \/ word_byte (b (snd a)) = false;
  wa_in : lo <= fst a /\ snd a <= es
}.

Definition at_tokens (s : Z) (ts : list token) : Prop := exists l, left_at s l /\ lex l = ts.

Lemma has_symbols c : has symbols c = has (bytes "|();&<") c || (c =? 62).
Proof.
  unfold has, symbols. change (bytes "<|>&;()") with [60; 124; 62; 38; 59; 40; 41]. change (bytes "|();&<") with [124; 40; 41; 59; 38; 60].
  cbn [strchr]. repeat match goal with |- context [?d =? c] => destruct (Z.eqb_spec d c) as [<-|]; [reflexivity|] end.
  by rewrite (proj2 (Z.eqb_neq c 62)) by congruence.
Qed.

(** The next token, its slice, and what is left. *)
Lemma line_token_at s l : left_at s l ->
  match lex l with
  | [] => exists a s', line_token b es s = (0, a, s') /\ left_at s' []
  | t :: ts => exists a s', line_token b es s = (tcode t, a, s') /\ at_tokens s' ts /\ (tcode t = 97 -> word_at a (tword t))
  end.
Proof.
  intros Hl. rewrite <-lex_blanks. destruct (skip_at (has whitespace) s l Hl) as [Hs _]. unfold line_token. set (s1 := skip b es (has whitespace) s) in *.
  destruct (drop_while_split (has whitespace) l) as (_ & _ & _ & Hw). set (l1 := drop_while (has whitespace) l) in *. clearbody l1 s1. clear l Hl.
  assert (Hend : forall p l2, left_at p l2 -> at_tokens (skip b es (has whitespace) p) (lex l2)).
  { intros p l2 H2. destruct (skip_at (has whitespace) p l2 H2) as [H3 _]. eexists. split; [exact H3|]. apply lex_blanks. }
  destruct l1 as [|c l1].
  { destruct (left_at_nil _ Hs) as [-> ->]. cbn. exists (es, es), (skip b es (has whitespace) es). split; [done|].
    by destruct (skip_at (has whitespace) es [] Hs) as [H _]. }
  specialize (Hw c l1 eq_refl). destruct (left_at_head _ _ _ Hs) as (-> & Hc0 & Hl1). rewrite (proj2 (Z.eqb_neq c 0) Hc0).
  pose proof (has_symbols c) as Hsym. destruct (has (bytes "|();&<") c) eqn:Es.
  - cbn [orb] in Hsym. assert (Hn62 : c =? 62 = false) by (destruct (Z.eqb_spec c 62) as [->|]; [by vm_compute in Es|done]).
    assert (E : lex (c :: l1) = TSym c :: lex l1) by (cbn [lex]; by rewrite Hw, Hn62, Hsym). rewrite E. eexists _, _. split; [done|].
    split; [by apply Hend|]. cbn [tcode]. intros ->. by vm_compute in Es.
  - cbn [orb] in Hsym. destruct (Z.eqb_spec c 62) as [->|Hc].
    + assert (E : lex (62 :: l1) = match l1 with d :: l2 => if d =? 62 then TApp :: lex l2 else TSym 62 :: lex l1 | [] => [TSym 62] end) by done.
      rewrite E. destruct l1 as [|d l2].
      * destruct (left_at_nil _ Hl1) as [-> _]. cbn [Z.eqb]. eexists _, _. split; [done|]. split; [apply (Hend _ [] Hl1)|done].
      * destruct (left_at_head _ _ _ Hl1) as (-> & _ & Hl2). destruct (d =? 62); (eexists _, _; split; [done|]; split; [by apply Hend|done]).
    + assert (Hwc : word_byte c = true) by (by apply word_byte_spec). destruct (drop_while_split word_byte (c :: l1)) as (w & Ew & Hfw & Hd).
      assert (Hne : w <> []). { intros ->. specialize (Hd c l1 (eq_sym Ew)). congruence. }
      destruct (skip_at word_byte s1 _ Hs) as [Hs2 Es2]. set (r := drop_while word_byte (c :: l1)) in *. clearbody r.
      assert (E : lex (c :: l1) = TWord w :: lex r) by (rewrite Ew; by apply lex_word). rewrite E. eexists _, _. split; [done|].
      split; [by apply Hend|]. intros _. cbn [tword].
      assert (Elen : length (c :: l1) = (length w + length r)%nat) by (rewrite Ew; by rewrite length_app).
      pose proof (proj1 Hs) as Hstr. rewrite Ew in Hstr. apply str_at_app in Hstr as [[Hnz Hb] _].
      split; cbn [fst snd]; [rewrite Es2; lia|done| |done| |].
      * apply Forall_and. split; [done|done].
      * destruct r as [|d l2]; [left; by apply (left_at_nil _ Hs2)|right].
        destruct (left_at_head _ _ _ Hs2) as (-> & _). by apply (Hd d l2).
      * destruct Hs as (_ & ? & ?), Hs2 as (_ & ? & ?). lia.
Qed.

Lemma lex_first c l : has whitespace c = false -> exists t ts, lex (c :: l) = t :: ts /\ tfirst t = c.
Proof.
  intros Hw. cbn [lex]. rewrite Hw. destruct (Z.eqb_spec c 62) as [->|Hc].
  - destruct l as [|d l]; [by exists (TSym 62), []|]. destruct (d =? 62); [by exists TApp, (lex l)|by exists (TSym 62), (lex (d :: l))].
  - destruct (has symbols c); [by exists (TSym c), (lex l)|]. destruct l as [|d l]; [by exists (TWord [c]), []|].
    destruct (word_byte d); [|by exists (TWord [c]), (lex (d :: l))].
    destruct (lex (d :: l)) as [|[w| |] ts]; [by exists (TWord [c]), []|by exists (TWord (c :: w)), ts| |];
      eexists (TWord [c]), _; split; done.
Qed.

Lemma line_peek_at toks s l : left_at s l -> exists s', line_peek b es toks s =
  Ok (match lex l with [] => false | t :: _ => has toks (tfirst t) end) s' /\ at_tokens s' (lex l) /\ (lex l = [] -> s' = es).
Proof.
  intros Hl. destruct (skip_at (has whitespace) s l Hl) as [Hs _]. rewrite <-lex_blanks. unfold line_peek.
  destruct (drop_while_split (has whitespace) l) as (_ & _ & _ & Hw). set (l1 := drop_while (has whitespace) l) in *.
  set (s1 := skip b es (has whitespace) s) in *. clearbody l1 s1. exists s1. destruct l1 as [|c l1].
  - destruct (left_at_nil _ Hs) as [-> ->]. split_and!; [done|by exists []|done].
  - destruct (left_at_head _ _ _ Hs) as (-> & H0 & _). destruct (lex_first c l1 (Hw c l1 eq_refl)) as (t & ts & E & Ht).
    assert (Hn : at_tokens s1 (lex (c :: l1))) by (by exists (c :: l1)). rewrite E in *. rewrite Ht, (proj2 (Z.eqb_neq c 0) H0). done.
Qed.

(** ** The two runs of the parser *)

Definition sim {A B} (R : A -> B -> Prop) (m1 : M Z A) (m2 : M (list token) B) : Prop :=
  forall s ts, at_tokens s ts ->
    match m1 s, m2 ts with
    | Ok a s', Ok a' ts' => R a a' /\ at_tokens s' ts'
    | Panic e, Panic e' => e = e'
    | OutOfFuel, OutOfFuel => True
    | _, _ => False
    end.

Lemma sim_ret {A B} (R : A -> B -> Prop) a a' : R a a' -> sim R (ret a) (ret a').
Proof. intros H s ts Hs. done. Qed.
Lemma sim_panic {A B} (R : A -> B -> Prop) e : sim R (panic e) (panic e).
Proof. intros s ts Hs. done. Qed.
Lemma sim_fuel {A B} (R : A -> B -> Prop) : sim R (fun _ => OutOfFuel) (fun _ => OutOfFuel).
Proof. intros s ts Hs. done. Qed.
Lemma sim_bind {A B A' B'} (R : A -> A' -> Prop) (R' : B -> B' -> Prop) m1 m2 k1 k2 :
  sim R m1 m2 -> (forall a a', R a a' -> sim R' (k1 a) (k2 a')) -> sim R' (bind m1 k1) (bind m2 k2).
Proof.
  intros Hm Hk s ts Hs. specialize (Hm s ts Hs). unfold bind. destruct (m1 s) as [a s'| | |], (m2 ts) as [a' ts'| | |]; try done.
  destruct Hm as [HR Hs']. exact (Hk a a' HR s' ts' Hs').
Qed.

#[local] Instance the_line : Lexer Z slice := line_lexer b es.

(** The same token, with its word. *)
Definition same_token (x : Z * slice) (y : Z * list Z) : Prop := fst x = fst y /\ (fst x = 97 -> word_at (snd x) (snd y)).

Lemma sim_gettoken : sim same_token gettoken gettoken.
Proof.
  intros s ts (l & Hl & <-). pose proof (line_token_at s l Hl) as H. unfold gettoken, the_line, line_lexer, line_gettoken, token_lexer.
  destruct (lex l) as [|t ts'].
  - destruct H as (a & s' & -> & Hs'). split; [by split|]. by exists [].
  - destruct H as (a & s' & -> & Hs' & Hw). done.
Qed.
Lemma sim_peek toks : sim eq (peek toks) (peek toks).
Proof.
  intros s ts (l & Hl & <-). destruct (line_peek_at toks s l Hl) as (s' & E & Hs' & _). unfold peek, the_line, line_lexer, token_lexer. rewrite E. done.
Qed.

Definition same_redir (r : redir slice) (r' : redir (list Z)) : Prop :=
  word_at (rd_file r) (rd_file r') /\ rd_mode r = rd_mode r' /\ rd_fd r = rd_fd r'.

(** The command with slices stands for the one with words. *)
Inductive means : cmd slice -> cmd (list Z) -> Prop :=
| me_exec argv argv' : Forall2 word_at argv argv' -> means (EXEC argv) (EXEC argv')
| me_redir c c' r r' : means c c' -> same_redir r r' -> means (REDIR c r) (REDIR c' r')
| me_pipe l l' r r' : means l l' -> means r r' -> means (PIPE l r) (PIPE l' r')
| me_list l l' r r' : means l l' -> means r r' -> means (LIST l r) (LIST l' r')
| me_back c c' : means c c' -> means (BACK c) (BACK c').

Lemma means_redirs rs rs' : Forall2 same_redir rs rs' -> forall c c', means c c' -> means (redirs c rs) (redirs c' rs').
Proof. induction 1 as [|r r' rs rs' Hr _ IH]; intros c c' Hc; [done|]. apply IH. by constructor. Qed.

Ltac sim_bind R := eapply (sim_bind R); [|intros ? ? ?].

Lemma sim_redirs fuel : sim (Forall2 same_redir) (parseredirs fuel) (parseredirs fuel).
Proof.
  induction fuel as [|fuel IH]; cbn [parseredirs]; [apply sim_fuel|]. sim_bind (@eq bool); [apply sim_peek|subst].
  destruct (negb _); [by apply sim_ret|]. sim_bind same_token; [apply sim_gettoken|]. sim_bind same_token; [apply sim_gettoken|].
  destruct H as [-> _], H0 as [-> Hw]. destruct (Z.eqb_spec (fst a'1) 97); [|apply sim_panic]. cbn [negb]. sim_bind (Forall2 same_redir); [exact IH|].
  destruct (_ =? _); apply sim_ret; constructor; try done; split; auto.
Qed.

Lemma sim_args fuel : forall argv argv' rs rs', Forall2 word_at argv argv' -> Forall2 same_redir rs rs' ->
  sim (fun x y => Forall2 word_at (fst x) (fst y) /\ Forall2 same_redir (snd x) (snd y)) (parseargs fuel argv rs) (parseargs fuel argv' rs').
Proof.
  induction fuel as [|fuel IH]; intros argv argv' rs rs' Ha Hr; cbn [parseargs]; [apply sim_fuel|]. sim_bind (@eq bool); [apply sim_peek|subst].
  destruct a'; [by apply sim_ret|]. sim_bind same_token; [apply sim_gettoken|]. destruct H as [-> Hw]. destruct (_ =? 0); [by apply sim_ret|].
  destruct (Z.eqb_spec (fst a') 97) as [E|]; [|apply sim_panic]. cbn [negb]. cbv zeta.
  assert (Ha' : Forall2 word_at (argv ++ [snd a]) (argv' ++ [snd a'])) by (apply Forall2_app; [done|]; constructor; [auto|constructor]).
  rewrite (Forall2_length _ _ _ Ha'). destruct (_ <=? _)%nat; [apply sim_panic|]. sim_bind (Forall2 same_redir); [apply sim_redirs|].
  apply IH; [done|by apply Forall2_app].
Qed.

Lemma sim_backs fuel : forall c c', means c c' -> sim means (parsebacks fuel c) (parsebacks fuel c').
Proof.
  induction fuel as [|fuel IH]; intros c c' Hc; cbn [parsebacks]; [apply sim_fuel|]. sim_bind (@eq bool); [apply sim_peek|subst].
  destruct a'; [|by apply sim_ret]. sim_bind same_token; [apply sim_gettoken|]. apply IH. by constructor.
Qed.

Lemma parse_sim fuel : sim means (parseline fuel) (parseline fuel) /\ sim means (parsepipe fuel) (parsepipe fuel) /\
  sim means (parseexec fuel) (parseexec fuel) /\ sim means (parseblock fuel) (parseblock fuel).
Proof.
  induction fuel as [|fuel (IHl & IHp & IHe & IHb)]; [split_and!; apply sim_fuel|]. split_and!; cbn [parseline parsepipe parseexec parseblock].
  - sim_bind means; [exact IHp|]. sim_bind means; [by apply sim_backs|]. sim_bind (@eq bool); [apply sim_peek|subst].
    destruct a'1; [|by apply sim_ret]. sim_bind same_token; [apply sim_gettoken|]. sim_bind means; [exact IHl|]. apply sim_ret. by constructor.
  - sim_bind means; [exact IHe|]. sim_bind (@eq bool); [apply sim_peek|subst].
    destruct a'0; [|by apply sim_ret]. sim_bind same_token; [apply sim_gettoken|]. sim_bind means; [exact IHp|]. apply sim_ret. by constructor.
  - sim_bind (@eq bool); [apply sim_peek|subst]. destruct a'; [exact IHb|]. sim_bind (Forall2 same_redir); [apply sim_redirs|].
    eapply sim_bind; [by apply sim_args|]. intros x y [Ha Hr]. apply sim_ret, means_redirs; [done|]. by constructor.
  - sim_bind (@eq bool); [apply sim_peek|subst]. destruct a'; [|apply sim_panic]. sim_bind same_token; [apply sim_gettoken|].
    sim_bind means; [exact IHl|]. sim_bind (@eq bool); [apply sim_peek|subst]. destruct a'1; [|apply sim_panic].
    sim_bind same_token; [apply sim_gettoken|]. sim_bind (Forall2 same_redir); [apply sim_redirs|]. apply sim_ret. by apply means_redirs.
Qed.
End line.

(** ** The strings after [nulterminate] *)

Fixpoint slices (c : cmd slice) : list slice :=
  match c with
  | EXEC argv => argv
  | REDIR c r => slices c ++ [rd_file r]
  | PIPE l r | LIST l r => slices l ++ slices r
  | BACK c => slices c
  end.

Lemma nulterminate_lookup c : forall b x, nulterminate b c x = if bool_decide (x ∈ snd <$> slices c) then 0 else b x.
Proof.
  assert (Hl : forall l b x, foldl (fun b a => store8 b (snd a) 0) b l x = if bool_decide (x ∈ (snd : slice -> Z) <$> l) then 0 else b x).
  { induction l as [|a l IH]; intros b x; [done|]. cbn [foldl]. rewrite IH, fmap_cons. destruct (decide (x = snd a)) as [->|Hne].
    - rewrite (bool_decide_true (snd a ∈ snd a :: _)) by (apply elem_of_cons; by left). rewrite store8_eq. by destruct (bool_decide _).
    - rewrite store8_ne by done. erewrite bool_decide_ext; [done|]. rewrite elem_of_cons. tauto. }
  assert (Happ : forall l1 l2 b x, (if bool_decide (x ∈ (snd : slice -> Z) <$> l2) then 0 else if bool_decide (x ∈ snd <$> l1) then 0 else b x) =
                   if bool_decide (x ∈ (snd : slice -> Z) <$> l1 ++ l2) then 0 else (b x : Z)).
  { intros l1 l2 b x. rewrite fmap_app. repeat case_bool_decide; try done; rewrite elem_of_app in *; tauto. }
  induction c as [argv|c IH r|l IHl r IHr|l IHl r IHr|c IH]; intros b x; cbn [nulterminate slices].
  - apply Hl.
  - rewrite <-Happ, <-IH. unfold store8. change (snd <$> [rd_file r]) with [snd (rd_file r)]. destruct (Z.eqb_spec x (snd (rd_file r))) as [->|Hne].
    + rewrite bool_decide_true; [done|by apply list_elem_of_singleton].
    + rewrite bool_decide_false; [done|by rewrite list_elem_of_singleton].
  - rewrite IHr, <-Happ. by rewrite IHl.
  - rewrite IHr, <-Happ. by rewrite IHl.
  - apply IH.
Qed.

(** Each slice of a parsed command is a word. *)
Lemma means_slices b lo es c c' : means b lo es c c' -> Forall (fun a => exists w, word_at b lo es a w) (slices c).
Proof.
  induction 1 as [argv argv' Ha|c c' r r' _ IH [Hr _]|l l' r r' _ IHl _ IHr|l l' r r' _ IHl _ IHr|c c' _ IH]; cbn [slices]; try done; try (by apply Forall_app).
  - induction Ha; constructor; eauto.
  - apply Forall_app. split; [done|]. apply Forall_singleton. eauto.
Qed.

Lemma cstr_after b lo es b' a w n : word_at b lo es a w -> (length w < n)%nat -> (forall i, (i < length w)%nat -> b' (fst a + Z.of_nat i) = b (fst a + Z.of_nat i)) -> b' (snd a) = 0 ->
  cstr b' (fst a) n = w.
Proof.
  intros [We _ Wb Wm _ _] Hn Hk H0. apply cstr_str_at; [|done]. rewrite <-(app_nil_r w). apply str_at_app. split_and!.
  - eapply Forall_impl; [exact Wb|]. by intros c [].
  - intros i c Hi. rewrite Hk by (by eapply lookup_lt_Some). by apply Wm.
  - by rewrite <-We.
Qed.

Lemma nulterminate_strings b lo es c c' a w : means b lo es c c' -> a ∈ slices c -> word_at b lo es a w -> (length w < 100)%nat -> sh_string (nulterminate b c) a = w.
Proof.
  intros Hm Ha Hw Hn. pose proof (means_slices b lo es c c' Hm) as Hall. rewrite Forall_forall in Hall.
  assert (Hin : forall x, x ∈ snd <$> slices c -> b x = 0 \/ word_byte (b x) = false).
  { intros x Hx. apply list_elem_of_fmap in Hx as (a' & -> & Ha'). destruct (Hall a' Ha') as [w' Hw']. apply Hw'. }
  apply (cstr_after b lo es _ a w _ Hw Hn).
  - intros i Hi. rewrite nulterminate_lookup. destruct Hw as [_ _ Wb Wm _ _]. destruct (lookup_lt_is_Some_2 w i Hi) as [d Hd]. specialize (Wm i d Hd).
    rewrite Forall_lookup in Wb. destruct (Wb i d Hd) as [Hd0 Hd1]. case_bool_decide as Hx; [|done]. destruct (Hin _ Hx); congruence.
  - rewrite nulterminate_lookup, bool_decide_true; [done|]. apply list_elem_of_fmap. eauto.
Qed.

(** Running the command on the cut line is running it on its words. *)
Lemma runcmd_means {S} `{!OS S} b lo es c c' (str : slice -> list Z) : means b lo es c c' -> (forall a w, a ∈ slices c -> word_at b lo es a w -> str a = w) ->
  forall s : S, runcmd str c s = runcmd id c' s.
Proof.
  intros Hm. induction Hm as [argv argv' Ha|c c' r r' Hm IH [Hr [Em Ef]]|l l' r r' _ IHl _ IHr|l l' r r' _ IHl _ IHr|c c' _ IH]; intros Hstr s; cbn [runcmd slices] in *.
  - assert (E : str <$> argv = id <$> argv').
    { clear s. induction Ha as [|a w argv argv' Hw _ IH]; [done|]. rewrite !fmap_cons. f_equal; [apply Hstr; [apply elem_of_cons; by left|done]|].
      apply IH. intros a' w' Ha'. apply Hstr. apply elem_of_cons. by right. }
    destruct Ha as [|a w argv argv' Hw _]; [done|]. rewrite E. rewrite !fmap_cons in E. injection E as -> _. done.
  - rewrite Em, Ef. rewrite (Hstr (rd_file r) (rd_file r')) by (try done; apply elem_of_app; right; by apply list_elem_of_singleton).
    unfold bind. destruct (os_close _ s) as [? s1| | |]; try done. destruct (os_open _ _ s1) as [? s2| | |]; try done.
    apply IH. intros x w Hx. apply Hstr. apply elem_of_app. by left.
  - unfold bind. destruct (printf _ _ _ s) as [? s1| | |]; try done. apply IHl. intros x w Hx. apply Hstr. apply elem_of_app. by left.
  - unfold bind. destruct (printf _ _ _ s) as [? s1| | |]; try done. apply IHl. intros x w Hx. apply Hstr. apply elem_of_app. by left.
  - unfold bind. destruct (printf _ _ _ s) as [? s1| | |]; try done. by apply IH.
Qed.

(** ** The parser on tokens takes no more fuel than it is given *)

Definition bounded {A} (n : nat) (m : M (list token) A) (ts : list token) : Prop := wpx (fun _ => True) m (fun _ ts' => (length ts' <= n)%nat) ts.

Lemma bounded_peek {A} toks (k : bool -> M (list token) A) n ts :
  (match ts with [] => bounded n (k false) ts | t :: _ => bounded n (k (has toks (tfirst t))) ts end) -> bounded n (bind (peek toks) k) ts.
Proof. unfold bounded. intros H. apply wpx_bind. unfold wpx at 1. simpl. by destruct ts. Qed.
Lemma bounded_token {A} (k : Z * list Z -> M (list token) A) n ts :
  (match ts with [] => bounded n (k (0, [])) [] | t :: ts => bounded n (k (tcode t, tword t)) ts end) -> bounded n (bind gettoken k) ts.
Proof. unfold bounded. intros H. apply wpx_bind. unfold wpx at 1. simpl. by destruct ts. Qed.
Lemma bounded_bind {A B} (m : M (list token) A) (k : A -> M (list token) B) n ts :
  bounded (length ts) m ts -> (forall a ts', (length ts' <= length ts)%nat -> bounded n (k a) ts') -> bounded n (bind m k) ts.
Proof. unfold bounded. intros Hm Hk. apply wpx_bind. eapply wpx_mono; [exact Hm|]. auto. Qed.
Lemma bounded_le {A} (m : M (list token) A) n n' ts : bounded n m ts -> (n <= n')%nat -> bounded n' m ts.
Proof. unfold bounded. intros Hm Hn. eapply wpx_mono; [exact Hm|]. simpl. lia. Qed.

Lemma redirs_total fuel : forall ts, (length ts < fuel)%nat -> bounded (length ts) (parseredirs fuel) ts.
Proof.
  induction fuel as [|fuel IH]; intros ts Hf; [lia|]. cbn [parseredirs]. apply bounded_peek.
  destruct ts as [|t ts]; [apply wpx_ret; simpl; lia|]. destruct (negb _); [apply wpx_ret; simpl; lia|]. cbn [length] in *.
  apply bounded_token. apply bounded_token. destruct ts as [|t' ts]; [by apply wpx_panic|]. cbn [length] in *. destruct (negb _); [by apply wpx_panic|].
  apply bounded_bind; [apply IH; lia|]. intros a ts' Hts. destruct (_ =? _); apply wpx_ret; lia.
Qed.
Lemma args_total fuel : forall ts argv rs, (length ts < fuel)%nat -> bounded (length ts) (parseargs fuel argv rs) ts.
Proof.
  induction fuel as [|fuel IH]; intros ts argv rs Hf; [lia|]. cbn [parseargs]. apply bounded_peek.
  destruct ts as [|t ts]; [apply bounded_token; apply wpx_ret; simpl; lia|]. destruct (has _ _); [apply wpx_ret; simpl; lia|]. cbn [length] in *.
  apply bounded_token. destruct (_ =? 0); [apply wpx_ret; lia|]. destruct (negb _); [by apply wpx_panic|]. cbv zeta.
  destruct (_ <=? _)%nat; [by apply wpx_panic|]. apply bounded_bind; [apply redirs_total; lia|]. intros a ts' Hts. eapply bounded_le; [apply IH; lia|lia].
Qed.
Lemma backs_total fuel : forall ts c, (length ts < fuel)%nat -> bounded (length ts) (parsebacks fuel c) ts.
Proof.
  induction fuel as [|fuel IH]; intros ts c Hf; [lia|]. cbn [parsebacks]. apply bounded_peek.
  destruct ts as [|t ts]; [apply wpx_ret; simpl; lia|]. destruct (has _ _); [|apply wpx_ret; simpl; lia]. cbn [length] in *.
  apply bounded_token. eapply bounded_le; [apply IH; lia|lia].
Qed.

Lemma parse_total fuel : forall ts,
  ((4 * length ts + 4 <= fuel)%nat -> bounded (length ts) (parseline fuel) ts) /\ ((4 * length ts + 3 <= fuel)%nat -> bounded (length ts) (parsepipe fuel) ts) /\
  ((4 * length ts + 2 <= fuel)%nat -> bounded (length ts) (parseexec fuel) ts) /\ ((4 * length ts + 1 <= fuel)%nat -> bounded (length ts) (parseblock fuel) ts).
Proof.
  induction fuel as [|fuel IH]; intros ts; [split_and!; intros; lia|]. split_and!; intros Hf; cbn [parseline parsepipe parseexec parseblock].
  - apply bounded_bind; [apply IH; lia|]. intros c ts1 H1. eapply bounded_le; [apply bounded_bind; [apply backs_total; lia|]|exact H1]. intros c' ts2 H2.
    apply bounded_peek. destruct ts2 as [|t ts2]; [apply wpx_ret; simpl; lia|]. cbn [length] in *. destruct (has _ _); [|apply wpx_ret; simpl; lia].
    apply bounded_token. eapply bounded_le; [apply bounded_bind; [apply IH; lia|]|]; [|instantiate (1 := length ts2); lia]. intros c2 ts3 H3. apply wpx_ret. lia.
  - apply bounded_bind; [apply IH; lia|]. intros c ts1 H1.
    apply bounded_peek. destruct ts1 as [|t ts1]; [apply wpx_ret; simpl; lia|]. cbn [length] in *. destruct (has _ _); [|apply wpx_ret; simpl; lia].
    apply bounded_token. eapply bounded_le; [apply bounded_bind; [apply IH; lia|]|]; [|instantiate (1 := length ts1); lia]. intros c2 ts3 H3. apply wpx_ret. lia.
  - apply bounded_peek. assert (Hx : bounded (length ts) (let! rs := parseredirs fuel in let! r := parseargs fuel [] rs in ret (redirs (EXEC r.1) r.2)) ts).
    { apply bounded_bind; [apply redirs_total; lia|]. intros rs ts1 H1. eapply bounded_le; [apply bounded_bind; [apply args_total; lia|]|exact H1].
      intros r ts2 H2. apply wpx_ret. lia. }
    destruct ts as [|t ts]; [exact Hx|]. destruct (has _ _); [apply IH; lia|exact Hx].
  - apply bounded_peek. destruct ts as [|t ts]; [by apply wpx_panic|]. cbn [length] in *. destruct (negb _); [by apply wpx_panic|].
    apply bounded_token. eapply bounded_le; [apply bounded_bind; [apply IH; lia|]|]; [|instantiate (1 := length ts); lia]. intros c ts1 H1.
    apply bounded_peek. destruct ts1 as [|t' ts1]; [by apply wpx_panic|]. cbn [length] in *. destruct (negb _); [by apply wpx_panic|].
    apply bounded_token. eapply bounded_le; [apply bounded_bind; [apply redirs_total; lia|]|]; [|instantiate (1 := length ts1); lia]. intros rs ts2 H2. apply wpx_ret. lia.
Qed.

(** ** The grammar *)

Definition redir_of (t : token) (f : list Z) : option (redir (list Z)) :=
  match t with
  | TSym c => if c =? 60 then Some (mk_redir f O_RDONLY 0) else if c =? 62 then Some (mk_redir f (Z.lor O_WRONLY O_CREATE) 1) else None
  | TApp => Some (mk_redir f (Z.lor O_WRONLY O_CREATE) 1)
  | TWord _ => None
  end.

Inductive Redirs : list token -> list (redir (list Z)) -> Prop :=
| Rs_nil : Redirs [] []
| Rs_cons t f r ts rs : redir_of t f = Some r -> Redirs ts rs -> Redirs (t :: TWord f :: ts) (r :: rs).

(** Arguments and redirections in any order. *)
Inductive Args : list token -> list (list Z) -> list (redir (list Z)) -> Prop :=
| Ar_nil : Args [] [] []
| Ar_word w ts a rs : Args ts a rs -> Args (TWord w :: ts) (w :: a) rs
| Ar_redir t f r ts a rs : redir_of t f = Some r -> Args ts a rs -> Args (t :: TWord f :: ts) a (r :: rs).

Fixpoint backs {W} (n : nat) (c : cmd W) : cmd W := match n with O => c | S k => backs k (BACK c) end.

Inductive Line : list token -> cmd (list Z) -> Prop :=
| Ln ts c n : Pipe ts c -> Line (ts ++ replicate n (TSym 38)) (backs n c)
| Ln_list ts c n ts' c' : Pipe ts c -> Line ts' c' -> Line (ts ++ replicate n (TSym 38) ++ TSym 59 :: ts') (LIST (backs n c) c')
with Pipe : list token -> cmd (list Z) -> Prop :=
| Pp ts c : Exec ts c -> Pipe ts c
| Pp_pipe ts c ts' c' : Exec ts c -> Pipe ts' c' -> Pipe (ts ++ TSym 124 :: ts') (PIPE c c')
with Exec : list token -> cmd (list Z) -> Prop :=
| Ex ts a rs : Args ts a rs -> (length a < MAXARGS)%nat -> Exec ts (redirs (EXEC a) rs)
| Ex_block ts c ts' rs : Line ts c -> Redirs ts' rs -> Exec (TSym 40 :: ts ++ TSym 41 :: ts') (redirs c rs).

Scheme Line_mut := Minimality for Line Sort Prop
with Pipe_mut := Minimality for Pipe Sort Prop
with Exec_mut := Minimality for Exec Sort Prop.
Combined Scheme grammar_ind from Line_mut, Pipe_mut, Exec_mut.

(** The tokens that [lex] produces. *)
Definition tok_ok (t : token) : Prop :=
  match t with
  | TWord w => w <> [] /\ Forall (fun c => word_byte c = true) w
  | TSym c => has symbols c = true
  | TApp => True
  end.

Lemma lex_ok l : Forall tok_ok (lex l).
Proof.
  remember (length l) as n eqn:Hn. revert l Hn. induction n as [n IH] using lt_wf_ind. intros l ->. destruct l as [|c l]; [done|].
  assert (H1 : Forall tok_ok (lex l)) by (by apply (IH (length l)); [simpl; lia|]). cbn [lex]. destruct (has whitespace c) eqn:Ew; [done|].
  destruct (Z.eqb_spec c 62) as [->|Hc].
  - destruct l as [|d l]; [by apply Forall_singleton|]. destruct (d =? 62); [constructor; [done|]; by apply (IH (length l)); [simpl; lia|]|by constructor].
  - destruct (has symbols c) eqn:Es; [by constructor|].
    assert (Hwc : tok_ok (TWord [c])) by (split; [done|]; apply Forall_singleton; by apply word_byte_spec).
    destruct l as [|d l]; [by apply Forall_singleton|]. destruct (word_byte d); [|by constructor].
    destruct (lex (d :: l)) as [|[w|c'|] ts]; [by constructor| |by constructor|by constructor].
    apply Forall_cons in H1 as [[_ Hw] H1]. constructor; [|done]. split; [done|]. constructor; [by apply word_byte_spec|done].
Qed.

(** A symbol of a list of symbols begins the next token exactly when that token is the symbol. *)
Lemma has_sub toks c : Forall (fun d => has symbols d = true) toks -> has toks c = true -> has symbols c = true.
Proof.
  intros Hs. unfold has at 1. induction Hs as [|d toks Hd _ IH]; [done|]. cbn [strchr]. destruct (Z.eqb_spec d c) as [->|]; [done|exact IH].
Qed.
Lemma has_word toks w : Forall (fun d => has symbols d = true) toks -> tok_ok (TWord w) -> has toks (tfirst (TWord w)) = false.
Proof.
  intros Hs [Hne Hw]. destruct w as [|c w]; [done|]. apply Forall_cons in Hw as [Hc _]. apply word_byte_spec in Hc as [_ Hc].
  destruct (has toks c) eqn:E; [|cbn; by rewrite E]. apply (has_sub toks c Hs) in E. congruence.
Qed.
Lemma tcode_word t : tok_ok t -> tcode t = 97 -> exists w, t = TWord w.
Proof. destruct t as [w|c|]; [eauto| |done]. cbn. intros Hs ->. by vm_compute in Hs. Qed.
Lemma tcode_nonzero t : tok_ok t -> tcode t <> 0.
Proof. destruct t as [w|c|]; [done| |done]. cbn. intros Hs ->. by vm_compute in Hs. Qed.

Ltac syms := repeat (apply Forall_cons; split; [reflexivity|]); apply Forall_nil_2.

Lemma peek_redir t : tok_ok t -> has (bytes "<>") (tfirst t) = match redir_of t [] with Some _ => true | None => false end.
Proof.
  intros Ht. destruct t as [w|c|]; [apply has_word; [syms|done]| |done]. cbn [tfirst redir_of]. unfold has. change (bytes "<>") with [60; 62]. cbn [strchr].
  rewrite !(Z.eqb_sym _ c). destruct (c =? 60); [done|]. by destruct (c =? 62).
Qed.
Lemma redir_of_file t f r : redir_of t f = Some r -> is_Some (redir_of t []) /\ tcode t <> 97.
Proof. destruct t as [w|c|]; cbn; [done| |by eauto]. destruct (Z.eqb_spec c 60) as [->|]; [by eauto|]. destruct (Z.eqb_spec c 62) as [->|]; [by eauto|done]. Qed.
Lemma redir_of_code t f : is_Some (redir_of t []) ->
  redir_of t f = Some (if tcode t =? 60 then mk_redir f O_RDONLY 0 else mk_redir f (Z.lor O_WRONLY O_CREATE) 1).
Proof. intros [r Hr]. destruct t as [w|c|]; cbn in *; [done| |done]. destruct (c =? 60); [done|]. by destruct (c =? 62). Qed.

(** ** What the parser accepts is derived by the grammar *)

(** The tokens up to what is left are derived as the result. *)
Definition derives {A} (G : list token -> A -> Prop) (m : M (list token) A) : Prop :=
  forall ts, Forall tok_ok ts -> post m (fun a rest => exists ts1, ts = ts1 ++ rest /\ G ts1 a) (fun _ => False) ts.

Lemma post_peek {A} toks (k : bool -> M (list token) A) Q R ts :
  post (k (match ts with [] => false | t :: _ => has toks (tfirst t) end)) Q R ts -> post (bind (peek toks) k) Q R ts.
Proof. done. Qed.
Lemma post_token {A} (k : Z * list Z -> M (list token) A) Q R t ts :
  post (k (tcode t, tword t)) Q R ts -> post (bind gettoken k) Q R (t :: ts).
Proof. done. Qed.

Lemma post_derives {A B} G (m : M (list token) A) (k : A -> M (list token) B) (Q : B -> list token -> Prop) ts :
  derives G m -> Forall tok_ok ts -> (forall a ts1 rest, ts = ts1 ++ rest -> Forall tok_ok rest -> G ts1 a -> post (k a) Q (fun _ => False) rest) ->
  post (bind m k) Q (fun _ => False) ts.
Proof.
  intros Hm Hts Hk. apply post_bind. eapply post_mono; [by apply Hm| |done]. intros a rest (ts1 & -> & HG). apply Forall_app in Hts as [_ Hr]. by eapply Hk.
Qed.

(** A symbol that was seen. *)
Lemma has_one c t : has symbols c = true -> tok_ok t -> has [c] (tfirst t) = true -> t = TSym c \/ (c = 62 /\ t = TApp).
Proof.
  intros Hc Ht H. destruct t as [w|d|].
  - rewrite has_word in H; [done| |done]. by apply Forall_singleton.
  - cbn in H. unfold has in H. cbn [strchr] in H. destruct (Z.eqb_spec c d) as [->|]; [by left|done].
  - right. unfold has in H. cbn [strchr tfirst] in H. destruct (Z.eqb_spec c 62) as [->|]; done.
Qed.

Lemma redirs_sound fuel : derives Redirs (parseredirs fuel).
Proof.
  induction fuel as [|fuel IH]; intros ts Hts; [done|]. cbn [parseredirs]. apply post_peek. destruct ts as [|t ts].
  { apply post_ret. exists []. split; [done|constructor]. }
  apply Forall_cons in Hts as [Ht Hts]. rewrite peek_redir by done. destruct (redir_of t []) as [r|] eqn:Er; cbn [negb].
  2:{ apply post_ret. exists []. split; [done|constructor]. }
  apply post_token. destruct ts as [|t' ts]; [exact I|]. apply post_token. apply Forall_cons in Hts as [Ht' Hts]. cbn [fst snd].
  destruct (Z.eqb_spec (tcode t') 97) as [E97|]; [|apply post_panic]. destruct (tcode_word t' Ht' E97) as [f ->]. cbn [negb].
  eapply post_derives; [exact IH|done|]. intros rs ts1 rest -> _ Hrs. pose proof (redir_of_code t f ltac:(by rewrite Er)) as Hrf.
  destruct (tcode t =? 60); apply post_ret; exists (t :: TWord f :: ts1); (split; [done|by constructor]).
Qed.

Lemma args_redirs ts rs ts' a rs' : Redirs ts rs -> Args ts' a rs' -> Args (ts ++ ts') a (rs ++ rs').
Proof. induction 1; intros; [done|]. cbn. constructor; auto. Qed.

Lemma args_sound fuel : forall argv rs, (length argv < MAXARGS)%nat -> derives (fun ts r => exists a rs', r = (argv ++ a, rs ++ rs') /\
  (length (argv ++ a) < MAXARGS)%nat /\ Args ts a rs') (parseargs fuel argv rs).
Proof.
  induction fuel as [|fuel IH]; intros argv rs Hlen ts Hts; [done|]. cbn [parseargs]. apply post_peek.
  assert (Hend : exists ts1, ts = ts1 ++ ts /\ exists a rs', (argv, rs) = (argv ++ a, rs ++ rs') /\ (length (argv ++ a) < MAXARGS)%nat /\ Args ts1 a rs').
  { exists []. split; [done|]. exists [], []. rewrite !app_nil_r. split_and!; [done|done|constructor]. }
  destruct ts as [|t ts]; [exact Hend|]. destruct (has _ _); [by apply post_ret|].
  apply Forall_cons in Hts as [Ht Hts]. apply post_token. cbn [fst snd]. rewrite (proj2 (Z.eqb_neq _ _) (tcode_nonzero t Ht)).
  destruct (Z.eqb_spec (tcode t) 97) as [E97|]; [|apply post_panic]. destruct (tcode_word t Ht E97) as [w ->]. cbn [negb tword]. cbv zeta.
  destruct (Nat.leb_spec MAXARGS (length (argv ++ [w]))) as [|Hlt]; [apply post_panic|].
  eapply post_derives; [apply redirs_sound|done|]. intros rs1 ts1 rest -> Hrest Hrs.
  eapply post_mono; [by apply IH| |done]. intros r rest' (ts2 & -> & a & rs' & -> & Hl & Ha).
  exists (TWord w :: ts1 ++ ts2). split; [cbn; by rewrite app_assoc|]. exists (w :: a), (rs1 ++ rs'). rewrite <-!app_assoc in *. cbn [app] in *. split_and!; [done|done|].
  constructor. by apply args_redirs.
Qed.

Lemma backs_sound fuel : forall c, derives (fun ts c' => exists n, ts = replicate n (TSym 38) /\ c' = backs n c) (parsebacks fuel c).
Proof.
  induction fuel as [|fuel IH]; intros c ts Hts; [done|]. cbn [parsebacks]. apply post_peek. destruct ts as [|t ts].
  { apply post_ret. exists []. split; [done|]. by exists 0%nat. }
  apply Forall_cons in Hts as [Ht Hts]. destruct (has _ _) eqn:E; [|apply post_ret; exists []; split; [done|]; by exists 0%nat].
  apply has_one in E as [->|[[=] _]]; [|done|done]. apply post_token. eapply post_mono; [by apply IH| |done].
  intros c' rest (ts1 & -> & n & -> & ->). exists (replicate (S n) (TSym 38)). split; [done|]. by exists (S n).
Qed.

Lemma parse_sound fuel : derives Line (parseline fuel) /\ derives Pipe (parsepipe fuel) /\ derives Exec (parseexec fuel) /\ derives Exec (parseblock fuel).
Proof.
  induction fuel as [|fuel (IHl & IHp & IHe & IHb)]; [done|]. split_and!; intros ts Hts; cbn [parseline parsepipe parseexec parseblock].
  - eapply post_derives; [exact IHp|done|]. intros c ts1 rest -> Hr Hc. eapply post_derives; [apply backs_sound|done|].
    intros c2 ts2 rest2 -> Hr2 (n & -> & ->). apply post_peek.
    assert (Hend : exists ts3, ts1 ++ replicate n (TSym 38) ++ rest2 = ts3 ++ rest2 /\ Line ts3 (backs n c)).
    { eexists. split; [apply app_assoc|]. by apply Ln. }
    destruct rest2 as [|t rest2]; [by apply post_ret|]. apply Forall_cons in Hr2 as [Ht Hr2]. destruct (has _ _) eqn:E; [|by apply post_ret].
    apply has_one in E as [->|[[=] _]]; [|done|done]. apply post_token. eapply post_derives; [exact IHl|done|]. intros c' ts3 rest3 -> _ Hc'.
    apply post_ret. exists (ts1 ++ replicate n (TSym 38) ++ TSym 59 :: ts3). split; [by rewrite <-!app_assoc|by apply Ln_list].
  - eapply post_derives; [exact IHe|done|]. intros c ts1 rest -> Hr Hc. apply post_peek.
    assert (Hend : exists ts3, ts1 ++ rest = ts3 ++ rest /\ Pipe ts3 c) by (exists ts1; split; [done|by apply Pp]).
    destruct rest as [|t rest]; [by apply post_ret|]. apply Forall_cons in Hr as [Ht Hr]. destruct (has _ _) eqn:E; [|by apply post_ret].
    apply has_one in E as [->|[[=] _]]; [|done|done]. apply post_token. eapply post_derives; [exact IHp|done|]. intros c' ts3 rest3 -> _ Hc'.
    apply post_ret. exists (ts1 ++ TSym 124 :: ts3). split; [by rewrite <-!app_assoc|by apply Pp_pipe].
  - apply post_peek. destruct (match ts with [] => false | t :: _ => _ end); [by apply IHb|].
    eapply post_derives; [apply redirs_sound|done|]. intros rs ts1 rest -> Hr Hrs. eapply post_derives; [apply args_sound; simpl; unfold MAXARGS; lia|done|].
    intros r ts2 rest2 -> Hr2 (a & rs' & -> & Hlen & Ha). cbn [app fst snd] in *. apply post_ret. exists (ts1 ++ ts2). split; [apply app_assoc|].
    apply Ex; [by apply args_redirs|done].
  - apply post_peek. destruct ts as [|t ts]; [apply post_panic|]. apply Forall_cons in Hts as [Ht Hts]. destruct (has _ _) eqn:E; [|apply post_panic]. cbn [negb].
    apply has_one in E as [->|[[=] _]]; [|done|done]. apply post_token. eapply post_derives; [exact IHl|done|]. intros c ts1 rest -> Hr Hc. apply post_peek.
    destruct rest as [|t rest]; [apply post_panic|]. apply Forall_cons in Hr as [Ht' Hr]. destruct (has _ _) eqn:E; [|apply post_panic]. cbn [negb].
    apply has_one in E as [->|[[=] _]]; [|done|done]. apply post_token. eapply post_derives; [apply redirs_sound|done|]. intros rs ts2 rest2 -> _ Hrs.
    apply post_ret. exists (TSym 40 :: ts1 ++ TSym 41 :: ts2). split; [cbn; by rewrite <-!app_assoc|by apply Ex_block].
Qed.

(** ** What the grammar derives is accepted *)

(** Unless it runs out of fuel, [m] takes the tokens [ts] off and returns [a]. *)
Definition takes {A} (m : M (list token) A) (ts rest : list token) (a : A) : Prop :=
  m (ts ++ rest) = Ok a rest \/ m (ts ++ rest) = OutOfFuel.

(** Nothing is left, or one of the symbols [cs]. *)
Definition stops (cs : list Z) (rest : list token) : Prop := rest = [] \/ exists c r, rest = TSym c :: r /\ c ∈ cs.

Lemma takes_bind {A B} (m : M (list token) A) (k : A -> M (list token) B) ts1 ts2 rest a b :
  takes m ts1 (ts2 ++ rest) a -> takes (k a) ts2 rest b -> takes (bind m k) (ts1 ++ ts2) rest b.
Proof. unfold takes, bind. rewrite <-app_assoc. intros [->| ->]; [done|by right]. Qed.
Lemma takes_ret {A} (a : A) rest : takes (ret a) [] rest a.
Proof. by left. Qed.
Lemma takes_peek {A} toks (k : bool -> M (list token) A) ts rest a v :
  match ts ++ rest with [] => false | t :: _ => has toks (tfirst t) end = v -> takes (k v) ts rest a -> takes (bind (peek toks) k) ts rest a.
Proof. intros <-. done. Qed.
Lemma takes_token {A} (k : Z * list Z -> M (list token) A) t ts rest a : takes (k (tcode t, tword t)) ts rest a -> takes (bind gettoken k) (t :: ts) rest a.
Proof. done. Qed.

(** Looking for [toks] at a symbol of [cs] or at the end. *)
Lemma peek_stops toks cs rest : stops cs rest -> forallb (fun c => negb (has toks c)) cs = true ->
  match rest with [] => false | t :: _ => has toks (tfirst t) end = false.
Proof.
  intros [->|(c & r & -> & Hc)] Hf; [done|]. rewrite forallb_forall in Hf. apply list_elem_of_In, Hf in Hc. by apply negb_true_iff in Hc.
Qed.

Lemma redirs_takes ts rs : Redirs ts rs -> Forall tok_ok ts -> forall fuel rest cs, stops cs rest \/ (exists w r, rest = TWord w :: r /\ tok_ok (TWord w)) ->
  forallb (fun c => negb (has (bytes "<>") c)) cs = true -> takes (parseredirs fuel) ts rest rs.
Proof.
  induction 1 as [|t f r ts rs Hr _ IH]; intros Hok fuel rest cs Hst Hcs; (destruct fuel as [|fuel]; [by right|]); cbn [parseredirs].
  - eapply (takes_peek _ _ _ _ _ false); [|apply takes_ret]. cbn [app]. destruct Hst as [Hst|(w & r & -> & Hw)]; [by apply (peek_stops _ cs)|]. apply has_word; [syms|done].
  - apply Forall_cons in Hok as [Ht Hok]. apply Forall_cons in Hok as [_ Hok]. destruct (redir_of_file t f r Hr) as [Hs _].
    eapply (takes_peek _ _ _ _ _ true); [cbn [app]; rewrite peek_redir by done; by destruct Hs as [? ->]|]. cbn [negb].
    apply takes_token, takes_token. cbn [tcode tword fst snd Z.eqb negb]. rewrite <-(app_nil_r ts). eapply takes_bind; [by eapply IH|].
    rewrite (redir_of_code t f Hs) in Hr. destruct (tcode t =? 60); injection Hr as <-; apply takes_ret.
Qed.

(** A run of redirections, then the first argument. *)
Lemma args_split ts a rs : Args ts a rs -> exists ts0 rs0, Redirs ts0 rs0 /\
  ((ts = ts0 /\ a = [] /\ rs = rs0) \/ exists w ts1 a1 rs1, ts = ts0 ++ TWord w :: ts1 /\ a = w :: a1 /\ rs = rs0 ++ rs1 /\ Args ts1 a1 rs1).
Proof.
  induction 1 as [|w ts a rs Ha _|t f r ts a rs Hr Ha (ts0 & rs0 & H0 & IH)].
  - exists [], []. split; [constructor|by left].
  - exists [], []. split; [constructor|]. right. by exists w, ts, a, rs.
  - exists (t :: TWord f :: ts0), (r :: rs0). split; [by constructor|]. destruct IH as [(-> & -> & ->)|(w & ts1 & a1 & rs1 & -> & -> & -> & H1)]; [by left|].
    right. by exists w, ts1, a1, rs1.
Qed.

Definition after_exec : list Z := bytes "|)&;".

Lemma args_takes_none ts rs rest fuel argv rs0 : Redirs ts rs -> Forall tok_ok ts -> stops after_exec rest ->
  takes (let! rs1 := parseredirs fuel in parseargs fuel argv (rs0 ++ rs1)) ts rest (argv, rs0 ++ rs).
Proof.
  intros Hr Hok Hst. rewrite <-(app_nil_r ts). eapply takes_bind; [eapply redirs_takes; [done|done|by left|done]|].
  destruct fuel as [|fuel]; [by right|]. cbn [parseargs]. destruct Hst as [->|(c & r & -> & Hc)]; [by left|].
  apply (takes_peek _ _ _ _ _ true); [|apply takes_ret]. cbn [app tfirst]. unfold after_exec in Hc. change (bytes "|)&;") with [124; 41; 38; 59] in *.
  rewrite !elem_of_cons, elem_of_nil in Hc. destruct Hc as [->|[->|[->|[->|[]]]]]; done.
Qed.

(** The rest of the arguments, after the redirections before the first. *)
Lemma args_takes n : forall ts a rs, (length a <= n)%nat -> Args ts a rs -> Forall tok_ok ts -> forall fuel rest, stops after_exec rest -> forall argv rs0,
  (length (argv ++ a) < MAXARGS)%nat ->
  takes (let! rs1 := parseredirs fuel in parseargs fuel argv (rs0 ++ rs1)) ts rest (argv ++ a, rs0 ++ rs).
Proof.
  induction n as [|n IH]; intros ts a rs Hn Ha Hok fuel rest Hst argv rs0 Hlen; destruct (args_split ts a rs Ha) as (ts0 & rs1 & Hr & Hcase);
    (destruct Hcase as [(-> & -> & ->)|(w & ts1 & a1 & rs2 & -> & -> & -> & Ha1)]; [rewrite app_nil_r; by apply args_takes_none|cbn [length] in Hn]).
  - lia.
  - apply Forall_app in Hok as [Hok0 Hok1]. apply Forall_cons in Hok1 as [Hw Hok1]. eapply (takes_bind _ _ _ _ _ rs1).
    + apply (redirs_takes _ _ Hr Hok0 _ _ []); [|done]. right. by exists w, (ts1 ++ rest).
    + destruct fuel as [|fuel]; [by right|]. cbn [parseargs]. eapply (takes_peek _ _ _ _ _ false); [cbn [app]; apply has_word; [syms|done]|].
      apply takes_token. cbn [tcode tword fst snd Z.eqb negb]. cbv zeta. rewrite length_app in Hlen. cbn [length] in Hlen.
      assert (Hmax : (MAXARGS <=? length (argv ++ [w]))%nat = false) by (apply Nat.leb_gt; rewrite length_app; cbn [length]; lia). rewrite Hmax.
      replace (argv ++ w :: a1) with ((argv ++ [w]) ++ a1) by (by rewrite <-app_assoc). rewrite (app_assoc rs0).
      apply IH; [lia|done|done|done|]. rewrite !length_app. cbn [length]. lia.
Qed.

Lemma stops_sub cs cs' rest : stops cs rest -> forallb (fun c => bool_decide (c ∈ cs')) cs = true -> stops cs' rest.
Proof.
  intros [->|(c & r & -> & Hc)] Hf; [by left|]. right. exists c, r. split; [done|]. rewrite forallb_forall in Hf. apply list_elem_of_In, Hf in Hc. by apply bool_decide_eq_true in Hc.
Qed.
Lemma stops_sym c r cs : bool_decide (c ∈ cs) = true -> stops cs (TSym c :: r).
Proof. intros H. apply bool_decide_eq_true in H. right. eauto. Qed.

Lemma backs_takes n : forall c fuel rest, stops (bytes ";)") rest -> takes (parsebacks fuel c) (replicate n (TSym 38)) rest (backs n c).
Proof.
  induction n as [|n IH]; intros c fuel rest Hst; (destruct fuel as [|fuel]; [by right|]); cbn [parsebacks replicate backs].
  - eapply (takes_peek _ _ _ _ _ false); [|apply takes_ret]. cbn [app]. by apply (peek_stops _ (bytes ";)")).
  - eapply (takes_peek _ _ _ _ _ true); [done|]. apply takes_token. by apply IH.
Qed.

Lemma args_head ts a rs rest : Args ts a rs -> Forall tok_ok ts -> stops after_exec rest ->
  match ts ++ rest with [] => false | t :: _ => has (bytes "(") (tfirst t) end = false.
Proof.
  intros Ha Hok Hst. destruct Ha as [|w ts a rs _|t f r ts a rs Hr _]; cbn [app].
  - by apply (peek_stops _ after_exec).
  - apply Forall_cons in Hok as [Hw _]. apply has_word; [syms|done].
  - destruct t as [w|c|]; [done| |done]. cbn in *. destruct (Z.eqb_spec c 60) as [->|]; [done|]. by destruct (Z.eqb_spec c 62) as [->|].
Qed.

Lemma parse_complete :
  (forall ts c, Line ts c -> Forall tok_ok ts -> forall fuel rest, stops (bytes ")") rest -> takes (parseline fuel) ts rest c) /\
  (forall ts c, Pipe ts c -> Forall tok_ok ts -> forall fuel rest, stops (bytes "&;)") rest -> takes (parsepipe fuel) ts rest c) /\
  (forall ts c, Exec ts c -> Forall tok_ok ts -> forall fuel rest, stops after_exec rest -> takes (parseexec fuel) ts rest c).
Proof.
  assert (Hb : forall n cs rest, stops cs rest -> forallb (fun c => bool_decide (c ∈ bytes "&;)")) cs = true -> stops (bytes "&;)") (replicate n (TSym 38) ++ rest)).
  { intros [|n] cs rest Hst Hcs; [by eapply stops_sub|]. by apply stops_sym. }
  apply grammar_ind.
  - intros ts c n Hc IH Hok fuel rest Hst. destruct fuel as [|fuel]; [by right|]. apply Forall_app in Hok as [Hok _]. cbn [parseline].
    eapply takes_bind; [apply IH; [done|by eapply Hb]|]. rewrite <-(app_nil_r (replicate _ _)). eapply takes_bind; [apply backs_takes; by eapply stops_sub|].
    eapply (takes_peek _ _ _ _ _ false); [|apply takes_ret]. cbn [app]. by apply (peek_stops _ (bytes ")")).
  - intros ts c n ts' c' Hc IH Hc' IH' Hok fuel rest Hst. destruct fuel as [|fuel]; [by right|]. apply Forall_app in Hok as [Hok Hok'].
    apply Forall_app in Hok' as [_ Hok']. apply Forall_cons in Hok' as [_ Hok']. cbn [parseline].
    eapply takes_bind; [apply IH; [done|]|]. { rewrite <-app_assoc. eapply (Hb n (bytes ";")); [by apply stops_sym|done]. }
    eapply takes_bind; [apply backs_takes; by apply stops_sym|]. eapply (takes_peek _ _ _ _ _ true); [done|]. apply takes_token.
    rewrite <-(app_nil_r ts'). eapply takes_bind; [by apply IH'|apply takes_ret].
  - intros ts c Hc IH Hok fuel rest Hst. destruct fuel as [|fuel]; [by right|]. cbn [parsepipe]. rewrite <-(app_nil_r ts).
    eapply takes_bind; [apply IH; [done|by eapply stops_sub]|]. eapply (takes_peek _ _ _ _ _ false); [|apply takes_ret]. cbn [app]. by apply (peek_stops _ (bytes "&;)")).
  - intros ts c ts' c' Hc IH Hc' IH' Hok fuel rest Hst. destruct fuel as [|fuel]; [by right|]. apply Forall_app in Hok as [Hok Hok'].
    apply Forall_cons in Hok' as [_ Hok']. cbn [parsepipe]. eapply takes_bind; [apply IH; [done|by apply stops_sym]|].
    eapply (takes_peek _ _ _ _ _ true); [done|]. apply takes_token. rewrite <-(app_nil_r ts'). eapply takes_bind; [by apply IH'|apply takes_ret].
  - intros ts a rs Ha Hlen Hok fuel rest Hst. destruct fuel as [|fuel]; [by right|]. cbn [parseexec]. eapply (takes_peek _ _ _ _ _ false); [by eapply args_head|].
    pose proof (args_takes (length a) ts a rs (le_n _) Ha Hok fuel rest Hst [] [] Hlen) as H. unfold takes, bind in H |- *. cbn [app] in H.
    destruct (parseredirs fuel (ts ++ rest)) as [rs1 ts1| | |]; [|by destruct H as [H|H]..|by right]. destruct H as [->| ->]; [by left|by right].
  - intros ts c ts' rs Hc IH Hrs Hok fuel rest Hst. destruct fuel as [|[|fuel]]; [by right|by right|]. apply Forall_cons in Hok as [_ Hok].
    apply Forall_app in Hok as [Hok Hok']. apply Forall_cons in Hok' as [_ Hok']. cbn [parseexec parseblock].
    eapply (takes_peek _ _ _ _ _ true); [done|]. eapply (takes_peek _ _ _ _ _ true); [done|]. cbn [negb]. apply takes_token.
    eapply takes_bind; [apply IH; [done|by apply stops_sym]|]. eapply (takes_peek _ _ _ _ _ true); [done|]. cbn [negb]. apply takes_token.
    rewrite <-(app_nil_r ts'). eapply takes_bind; [eapply redirs_takes; [done|done|left; exact Hst|done]|apply takes_ret].
Qed.

(** ** The whole line *)

Lemma lex_length l : (length (lex l) <= length l)%nat.
Proof.
  remember (length l) as n eqn:Hn. revert l Hn. induction n as [n IH] using lt_wf_ind. intros l ->. destruct l as [|c l]; [done|].
  assert (H1 : (length (lex l) <= length l)%nat) by (by apply (IH (length l)); [simpl; lia|]). cbn [lex length]. destruct (has whitespace c); [lia|].
  destruct (c =? 62).
  - destruct l as [|d l]; [simpl; lia|]. destruct (d =? 62); cbn [length] in *; [|lia].
    assert (H2 : (length (lex l) <= length l)%nat) by (by apply (IH (length l)); [simpl; lia|]). lia.
  - destruct (has symbols c); [cbn [length]; lia|]. destruct l as [|d l]; [simpl; lia|]. destruct (word_byte d); [|cbn [length] in *; lia].
    destruct (lex (d :: l)) as [|[w|c'|] ts]; cbn [length] in *; lia.
Qed.

(** What [parsecmd] returns on the line [l]: the command of the grammar, or nothing with
    something left over, or a syntax error. *)
Lemma parsecmd_cases b s l : str_at b s l -> (length l < 100)%nat -> let es := s + Z.of_nat (length l) in
  (exists c c' s', parsecmd b s = Ok (Some (c, nulterminate b c)) s' /\ means b s es c c' /\ Line (lex l) c') \/
  ((forall c', ~ Line (lex l) c') /\ ((exists s', parsecmd b s = Ok None s') \/ exists e, parsecmd b s = Panic e)).
Proof.
  intros Hs Hlen es. set (fuel := (4 * length l + 4)%nat).
  assert (Ht : at_tokens b s es s (lex l)) by (exists l; split; [split; [done|split; [done|lia]]|done]).
  pose proof (proj1 (parse_sim b s es fuel) s (lex l) Ht) as Hsim.
  pose proof (proj1 (parse_total fuel (lex l)) ltac:(pose proof (lex_length l); unfold fuel; lia)) as Htot. unfold bounded, wpx in Htot.
  pose proof (proj1 (parse_sound fuel) (lex l) (lex_ok l)) as Hsnd. unfold post in Hsnd.
  assert (Hcomp : forall c', Line (lex l) c' -> parseline fuel (lex l) = Ok c' []).
  { intros c' Hc. destruct (proj1 parse_complete (lex l) c' Hc (lex_ok l) fuel []) as [E|E]; [by left|by rewrite app_nil_r in E|].
    rewrite app_nil_r in E. by rewrite E in Htot. }
  unfold parsecmd, line_length. rewrite (cstr_str_at b s l) by done. fold es. fold fuel. unfold bind.
  destruct (parseline fuel (lex l)) as [c' rest|e| |] eqn:E'; [| |done..].
  - destruct (parseline fuel s) as [c s'| | |] eqn:E in Hsim; [|done..]. destruct Hsim as [Hm (l' & Hl' & Hlex)]. unfold the_line in E. rewrite E.
    destruct (line_peek_at b s es [] s' l' Hl') as (s2 & Ep & (l2 & Hl2 & Hlex2) & Hend). unfold peek, line_lexer. rewrite Ep. unfold get.
    destruct Hsnd as (ts1 & Ets & HL). rewrite Hlex in *. destruct rest as [|t rest].
    + rewrite (Hend eq_refl), Z.eqb_refl. cbn. left. exists c, c', es. split_and!; [done|done|]. by rewrite Ets, app_nil_r.
    + assert (Hne : s2 <> es). { intros ->. destruct Hl2 as (_ & H2 & _). destruct l2; [done|]. simpl in H2. lia. }
      rewrite (proj2 (Z.eqb_neq _ _) Hne). right. split; [|by left; exists s2]. intros c2 Hc2. apply Hcomp in Hc2. congruence.
  - destruct (parseline fuel s) as [|e'| |] eqn:E in Hsim; [done| |done..]. unfold the_line in E. rewrite E. right.
    split; [|by right; exists e'; congruence]. intros c2 Hc2. apply Hcomp in Hc2. congruence.
Qed.

(** C24: The parser returns on every line that fits the buffer: it needs no more calls than the
    fuel it is given.  It stores nothing but NULs at the ends of the words it returns, all of
    which lie in the line. *)
Theorem parsecmd_terminates b s l : str_at b s l -> (length l < 100)%nat ->
  (exists e, parsecmd b s = Panic e) \/
  (exists r s', parsecmd b s = Ok r s' /\ forall c b', r = Some (c, b') ->
     (forall a, a ∈ slices c -> s <= fst a < snd a /\ snd a <= s + Z.of_nat (length l)) /\
     (forall x, b' x = b x \/ (b' x = 0 /\ exists a, a ∈ slices c /\ x = snd a))).
Proof.
  intros Hs Hlen. destruct (parsecmd_cases b s l Hs Hlen) as [(c & c' & s' & E & Hm & _)|(_ & [(s' & E)|(e & E)])].
  - right. exists (Some (c, nulterminate b c)), s'. split; [done|]. intros c2 b' [= <- <-]. split.
    + intros a Ha. pose proof (means_slices _ _ _ _ _ Hm) as Hf. rewrite Forall_forall in Hf. destruct (Hf a Ha) as [w [We Wn _ _ _ [W1 W2]]].
      destruct w; [done|]. cbn [length] in We. lia.
    + intros x. rewrite nulterminate_lookup. case_bool_decide as Hx; [|by left]. right. split; [done|]. apply list_elem_of_fmap in Hx as (a & -> & Ha). eauto.
  - right. exists None, s'. by split.
  - left. eauto.
Qed.

(** C23: The parser accepts exactly the lines that the grammar derives, and the shell then runs the
    derived command, with the words of the line as its strings. *)
Theorem shell_runs_grammar {S} `{!OS S} b l (s : S) : str_at b 0 l -> (length l < 100)%nat ->
  (forall c, Line (lex l) c -> run_line b s = runcmd id c s) /\
  ((forall c, ~ Line (lex l) c) -> exists msg left, run_line b s =
     (match left with Some r => printf 2 (line "leftovers: %s") [AStr (Some r)] | None => ret tt end ;;; sh_panic msg) s).
Proof.
  intros Hs Hlen. destruct (parsecmd_cases b 0 l Hs Hlen) as [(c & c' & s' & E & Hm & HL)|(Hn & Hcase)]; unfold run_line.
  - rewrite E. split; [|intros H; by destruct (H c')]. intros c2 Hc2.
    assert (c2 = c') as ->.
    { pose proof (proj1 parse_complete (lex l)) as Hc. pose proof (proj1 (parse_total (4 * length l + 4) (lex l)) ltac:(pose proof (lex_length l); lia)) as Htot.
      unfold bounded, wpx in Htot. destruct (Hc c2 Hc2 (lex_ok l) (4 * length l + 4)%nat []) as [E1|E1]; [by left| |by rewrite app_nil_r in E1; rewrite E1 in Htot].
      destruct (Hc c' HL (lex_ok l) (4 * length l + 4)%nat []) as [E2|E2]; [by left| |by rewrite app_nil_r in E2; rewrite E2 in Htot]. congruence. }
    apply (runcmd_means b 0 (0 + Z.of_nat (length l)) c c' _ Hm). intros a w Ha Hw. eapply nulterminate_strings; [done|done|done|].
    destruct Hw as [We _ _ _ _ [W1 W2]]. lia.
  - split; [intros c Hc; by destruct (Hn c)|]. intros _. destruct Hcase as [(s' & E)|(e & E)]; rewrite E.
    + by exists "syntax", (Some (cstr b s' (Z.to_nat SHBUF))).
    + by exists e, None.
Qed.

(** ** A line *)

Definition demo_line : list Z := line "wc < in | (a;b)&".
Definition demo_cmd : cmd (list Z) :=
  BACK (PIPE (REDIR (EXEC [bytes "wc"]) (mk_redir (bytes "in") O_RDONLY 0)) (LIST (EXEC [bytes "a"]) (EXEC [bytes "b"]))).

Lemma demo_line_at : str_at (store_bytes (fun _ => 0) 0 demo_line) 0 demo_line.
Proof. vm_compute. repeat (split; [reflexivity|split; [discriminate|]]). reflexivity. Qed.

Lemma demo_line_derived : Line (lex demo_line) demo_cmd.
Proof.
  change (lex demo_line) with (([TWord (bytes "wc"); TSym 60; TWord (bytes "in")] ++ TSym 124 :: (TSym 40 :: ([TWord (bytes "a")] ++ replicate 0 (TSym 38) ++ TSym 59 :: ([TWord (bytes "b")] ++ replicate 0 (TSym 38))) ++ TSym 41 :: [])) ++ replicate 1 (TSym 38)).
  assert (Hw : forall w, Pipe [TWord w] (EXEC [w])).
  { intros w. apply Pp, (Ex [TWord w] [w] []); [repeat constructor|simpl; unfold MAXARGS; lia]. }
  apply (Ln _ (PIPE _ _) 1), Pp_pipe.
  - apply (Ex _ [bytes "wc"] [mk_redir (bytes "in") O_RDONLY 0]); [|simpl; unfold MAXARGS; lia]. apply Ar_word, Ar_redir; [reflexivity|constructor].
  - apply Pp, (Ex_block _ (LIST _ _) [] []); [|constructor]. apply (Ln_list _ (EXEC _) 0), (Ln _ (EXEC _) 0); apply Hw.
Qed.

Lemma parsecmd_terminates_witness : let b := store_bytes (fun _ => 0) 0 demo_line in
  (exists e, parsecmd b 0 = Panic e) \/ exists r s', parsecmd b 0 = Ok r s'.
Proof.
  intros b. destruct (parsecmd_terminates b 0 demo_line demo_line_at ltac:(vm_compute; lia)) as [H|(r & s' & E & _)]; [left; exact H|right; exists r, s'; exact E].
Defined.

Lemma shell_runs_grammar_witness : run_line (store_bytes (fun _ => 0) 0 demo_line) demo_tio = runcmd id demo_cmd demo_tio.
Proof. exact (proj1 (shell_runs_grammar _ demo_line demo_tio demo_line_at ltac:(vm_compute; lia)) demo_cmd demo_line_derived). Defined.
