(* ===== verification/LabSh.v ===== *)
(** * The shell of the laboratory ([src/lab-02/sh.c], and the same file as [src/lab-05/sh.c])

    It runs on the host system, behind the class [Host].  The line is a C string, and the
    parser's pointer into it is the rest of the line; words are copied out of it ([mkcopy]).
    An [exit] of the parser is the [Panic] of its message.  A command whose [argv] is filled
    while redirections already point to it is built when its parts are complete. *)

From S2P Require Import Prelude Ulib.

Definition MAXARGS : nat := 10.
Definition O_RDONLY : Z := 0.
(** [O_WRONLY | O_CREAT | O_TRUNC] of the host. *)
Definition O_OUTPUT : Z := Z.lor (Z.lor 1 64) 512.

Inductive cmd : Type :=
| EXEC (argv : list (list Z))
| REDIR (c : cmd) (file : list Z) (mode fd : Z)
| PIPE (left right : cmd).

Definition redircmd (c : cmd) (file : list Z) (type : Z) : cmd :=
  REDIR c file (if type =? 60 then O_RDONLY else O_OUTPUT) (if type =? 60 then 0 else 1).

(** ** Parsing *)

Definition whitespace : list Z := [32; 9; 13; 10; 11].
Definition symbols : list Z := [60; 124; 62].
Definition has (l : list Z) (c : Z) : bool := existsb (fun d => d =? c) l.
Definition word_byte (c : Z) : bool := negb (has whitespace c) && negb (has symbols c).

Fixpoint skip (s : list Z) : list Z := match s with c :: s' => if has whitespace c then skip s' else s | [] => [] end.
(** The word at the start of a string, and what follows it. *)
Fixpoint word (s : list Z) : list Z * list Z :=
  match s with c :: s' => if word_byte c then let '(w, r) := word s' in (c :: w, r) else ([], s) | [] => ([], []) end.

#[local] Abbreviation PM := (M (list Z)).

(** The kind of the token and its text. *)
Definition gettoken : PM (Z * list Z) := fun s =>
  match skip s with
  | [] => Ok (0, []) []
  | c :: r => if has symbols c then Ok (c, [c]) (skip r) else let '(w, r) := word (c :: r) in Ok (97, w) (skip r)
  end.
Definition peek (toks : list Z) : PM bool := fun s =>
  let s := skip s in Ok (match s with c :: _ => has toks c | [] => false end) s.

Definition redir : Type := list Z * Z.
(** The redirections at the pointer, with their files and kinds. *)
Fixpoint parseredirs (fuel : nat) : PM (list redir) :=
  match fuel with
  | O => fun _ => OutOfFuel
  | S k =>
      let! p := peek [60; 62] in
      if negb p then ret [] else
      let! t := gettoken in
      let! w := gettoken in
      if negb (fst w =? 97) then panic "missing file for redirection" else
      let! rs := parseredirs k in
      ret ((snd w, fst t) :: rs)
  end.

Fixpoint parseargs (fuel : nat) (argv : list (list Z)) (rs : list redir) : PM (list (list Z) * list redir) :=
  match fuel with
  | O => fun _ => OutOfFuel
  | S k =>
      let! p := peek [124] in
      if p then ret (argv, rs) else
      let! t := gettoken in
      if fst t =? 0 then ret (argv, rs) else
      if negb (fst t =? 97) then panic "syntax error" else
      let argv := argv ++ [snd t] in
      if (MAXARGS <=? length argv)%nat then panic "too many args" else
      let! more := parseredirs k in
      parseargs k argv (rs ++ more)
  end.

Definition wrap (c : cmd) (rs : list redir) : cmd := foldl (fun c r => redircmd c (fst r) (snd r)) c rs.
Definition parseexec (fuel : nat) : PM cmd :=
  let! rs := parseredirs fuel in
  let! r := parseargs fuel [] rs in
  ret (wrap (EXEC (fst r)) (snd r)).

Fixpoint parsepipe (fuel : nat) : PM cmd :=
  match fuel with
  | O => fun _ => OutOfFuel
  | S k =>
      let! c := parseexec k in
      let! p := peek [124] in
      if p then gettoken ;;; let! d := parsepipe k in ret (PIPE c d) else ret c
  end.
Definition parseline (fuel : nat) : PM cmd := parsepipe fuel.

Definition parsecmd (s : list Z) : res (list Z) cmd :=
  (let! c := parseline (2 * length s + 3) in
   let! _ := peek [] in
   let! s := get in
   match s with [] => ret c | _ => panic "leftovers" end) s.

(** ** Running *)

(** A call of [h_execvp] returns only when it fails, and [h_exit] does not return. *)
Class Host (S : Type) : Type := {
  h_execvp : list (list Z) -> M S unit;
  h_open : list Z -> Z -> M S Z;
  h_dup2 : Z -> Z -> M S Z;
  h_close : Z -> M S unit;
  h_exit : Z -> M S unit;
  h_err : list Z -> M S unit;
  h_fork : M S Z;
  h_wait : M S unit;
  h_chdir : list Z -> M S Z;
  h_fgets : Z -> M S (list Z);
  h_isatty : M S bool;
  h_out : list Z -> M S unit
}.

Section run.
Context {S : Type} `{!Host S}.

Fixpoint runcmd (c : cmd) : M S unit :=
  match c with
  | EXEC [] => h_exit 0
  | EXEC (a :: args) =>
      h_execvp (a :: args) ;;;
      h_err (bytes "exec fallo") ;;;
      h_exit (-1)
  | REDIR c file mode fd =>
      (* rcmd->type is REDIR, never '<' *)
      let! f := h_open file mode in
      if f <? 0 then h_err (bytes "fallo en el open") ;;; h_exit (-1) else
      let! r := h_dup2 f fd in
      if r <? 0 then h_err (bytes "Fallo en el duplicado") ;;; h_close f ;;; h_exit (-1) else
      h_close f ;;;
      runcmd c ;;;
      h_exit 0
  | PIPE l _ =>
      h_err (bytes "pipe not implemented") ;;;
      runcmd l ;;;
      h_exit 0
  end.

Definition fork1 : M S Z :=
  let! pid := h_fork in
  (if pid =? -1 then h_err (bytes "fork") else ret tt) ;;;
  ret pid.

(** The line, which is empty at the end of the input. *)
Definition getcmd (nbuf : Z) : M S (list Z) :=
  let! tty := h_isatty in
  (if tty then h_out (bytes "$ ") else ret tt) ;;;
  h_fgets nbuf.

Definition run_line (buf : list Z) : M S unit :=
  match parsecmd buf with
  | Ok c _ => runcmd c
  | Panic msg => h_err (bytes msg) ;;; h_exit (-1)
  | Blocked _ | OutOfFuel => fun _ => OutOfFuel
  end.

Fixpoint sh_loop (fuel : nat) : M S unit :=
  match fuel with
  | O => fun _ => OutOfFuel
  | Datatypes.S k =>
      let! buf := getcmd 100 in
      match buf with
      | [] => h_exit 0
      | _ =>
          if (default 0 (buf !! 0%nat) =? 99) && (default 0 (buf !! 1%nat) =? 100) && (default 0 (buf !! 2%nat) =? 32) then
            let dir := drop 3 (removelast buf) in
            let! r := h_chdir dir in
            (if r <? 0 then h_err (bytes "cannot cd " ++ dir) else ret tt) ;;;
            sh_loop k
          else
            let! pid := fork1 in
            (if pid =? 0 then run_line buf else ret tt) ;;;
            h_wait ;;;
            sh_loop k
      end
  end.
End run.

(** ** Printing and parsing *)

Inductive token : Type := Word (w : list Z) | Sym (c : Z).
Definition show_token (t : token) : list Z := match t with Word w => 32 :: w | Sym c => [32; c] end.
Definition show (ts : list token) : list Z := flat_map show_token ts.

(** A command of a pipeline: the words and then the redirections. *)
Record simple : Type := mk_simple { si_argv : list (list Z); si_redirs : list redir }.
Definition redir_tokens (rs : list redir) : list token := flat_map (fun r => [Sym (snd r); Word (fst r)]) rs.
Definition simple_tokens (c : simple) : list token := (Word <$> si_argv c) ++ redir_tokens (si_redirs c).
Fixpoint tokens (c : simple) (cs : list simple) : list token :=
  simple_tokens c ++ match cs with [] => [] | d :: cs => Sym 124 :: tokens d cs end.
Fixpoint built (c : simple) (cs : list simple) : cmd :=
  let x := wrap (EXEC (si_argv c)) (si_redirs c) in match cs with [] => x | d :: cs => PIPE x (built d cs) end.

Definition word_ok (w : list Z) : Prop := w <> [] /\ Forall (fun c => word_byte c = true) w.
Definition simple_ok (c : simple) : Prop :=
  Forall word_ok (si_argv c) /\ (length (si_argv c) < MAXARGS)%nat /\
  Forall (fun r => word_ok (fst r) /\ (snd r = 60 \/ snd r = 62)) (si_redirs c).

(** Between tokens the parser stands before the next one. *)
Definition token_ok (t : token) : Prop := match t with Word w => word_ok w | Sym c => c = 60 \/ c = 62 \/ c = 124 end.
Definition stand (ts : list token) : list Z := skip (show ts).
Definition starts (toks : list Z) (ts : list token) : bool := match ts with Sym c :: _ => has toks c | _ => false end.

Lemma word_byte_split c : word_byte c = true -> has whitespace c = false /\ has symbols c = false.
Proof. unfold word_byte. intros [H1%negb_true_iff H2%negb_true_iff]%andb_true_iff. done. Qed.
Lemma skip_skip s : skip (skip s) = skip s.
Proof. induction s as [|c s IH]; cbn [skip]; [done|]. destruct (has whitespace c) eqn:E; [done|]. cbn [skip]. by rewrite E. Qed.
Lemma stand_word w ts : word_ok w -> stand (Word w :: ts) = w ++ show ts.
Proof.
  intros [Hne Hw]. unfold stand, show. cbn [flat_map show_token app skip]. change (has whitespace 32) with true. cbn iota. destruct w as [|c w]; [done|].
  apply Forall_cons in Hw as [Hc _]. apply word_byte_split in Hc as [Hc _]. cbn [app skip]. by rewrite Hc.
Qed.
Lemma stand_sym c ts : c = 60 \/ c = 62 \/ c = 124 -> stand (Sym c :: ts) = c :: show ts.
Proof. intros [-> |[-> | ->]]; reflexivity. Qed.
Lemma word_app w ts : Forall (fun c => word_byte c = true) w -> word (w ++ show ts) = (w, show ts).
Proof.
  induction 1 as [|c w Hc _ IH]; cbn [app word].
  - destruct ts as [|[x|x] ts]; [done|..]; reflexivity.
  - by rewrite Hc, IH.
Qed.

Lemma run_gettoken s ts : skip s = stand ts -> Forall token_ok ts -> gettoken s =
  match ts with [] => Ok (0, []) [] | Word w :: ts => Ok (97, w) (stand ts) | Sym c :: ts => Ok (c, [c]) (stand ts) end.
Proof.
  intros Hs Ht. unfold gettoken. rewrite Hs. destruct ts as [|[w|c] ts]; [done|..]; apply Forall_cons in Ht as [Ht _].
  - rewrite stand_word by done. destruct Ht as [Hne Hw]. destruct w as [|c w]; [done|]. cbn [app]. pose proof Hw as Hw'. apply Forall_cons in Hw' as [Hc _]. apply word_byte_split in Hc as [_ ->].
    change (c :: w ++ show ts) with ((c :: w) ++ show ts). by rewrite word_app.
  - cbn in Ht. rewrite stand_sym by done. assert (has symbols c = true) as -> by (by destruct Ht as [-> |[-> | ->]]). done.
Qed.
Lemma run_peek toks s ts : skip s = stand ts -> Forall token_ok ts -> (forall c, has toks c = true -> has symbols c = true) -> peek toks s = Ok (starts toks ts) (stand ts).
Proof.
  intros Hs Ht Hsym. unfold peek. rewrite Hs. cbv zeta. f_equal. destruct ts as [|[w|c] ts]; [done|..]; apply Forall_cons in Ht as [Ht _].
  - rewrite stand_word by done. destruct Ht as [Hne Hw]. destruct w as [|c w]; [done|]. cbn [app starts]. apply Forall_cons in Hw as [Hc _]. apply word_byte_split in Hc as [_ Hc]. apply not_true_iff_false. intros E. by rewrite (Hsym _ E) in Hc.
  - by rewrite stand_sym.
Qed.
Lemma peek_symbols toks : toks = [60; 62] \/ toks = [124] \/ toks = [] -> forall c, has toks c = true -> has symbols c = true.
Proof.
  intros Ht c. unfold has, symbols. destruct Ht as [-> |[-> | ->]]; cbn [existsb]; rewrite ?orb_true_iff; rewrite !Z.eqb_eq; intuition.
Qed.

Lemma stand_stand ts : skip (stand ts) = stand ts.
Proof. apply skip_skip. Qed.

Section parse.
Implicit Types (rest : list token).

Lemma run_parseredirs rs : forall fuel s rest, skip s = stand (redir_tokens rs ++ rest) -> Forall token_ok (redir_tokens rs ++ rest) -> Forall (fun r => snd r = 60 \/ snd r = 62) rs ->
  starts [60; 62] rest = false -> (length rs < fuel)%nat -> parseredirs fuel s = Ok rs (stand rest).
Proof.
  induction rs as [|[f k] rs IH]; intros fuel s rest Hs Ht Hk Hrest Hf; (destruct fuel as [|fuel]; [lia|]); cbn [parseredirs]; unfold bind at 1.
  - rewrite (run_peek _ _ _ Hs Ht) by (apply peek_symbols; auto). cbn [redir_tokens flat_map app]. by rewrite Hrest.
  - rewrite (run_peek _ _ _ Hs Ht) by (apply peek_symbols; auto). apply Forall_cons in Hk as [Hk Hks]. cbn [redir_tokens flat_map app starts fst snd] in *.
    assert (has [60; 62] k = true) as -> by (by destruct Hk as [-> | ->]). cbn [negb]. unfold bind at 1. rewrite (run_gettoken _ _ (stand_stand _) Ht). apply Forall_cons in Ht as [_ Ht].
    unfold bind at 1. rewrite (run_gettoken _ _ (stand_stand _) Ht). apply Forall_cons in Ht as [_ Ht]. cbn [fst snd Z.eqb Pos.eqb negb]. unfold bind. fold (redir_tokens rs) in *.
    rewrite (IH fuel _ rest (stand_stand _)); [done|done|done|done|cbn in Hf; lia].
Qed.

Lemma run_no_redirs fuel w rest : Forall token_ok (Word w :: rest) -> (0 < fuel)%nat -> parseredirs fuel (stand (Word w :: rest)) = Ok [] (stand (Word w :: rest)).
Proof. intros Ht Hf. by apply (run_parseredirs []); [apply stand_stand|..]. Qed.

(** What may follow a command. *)
Definition ends rest : Prop := rest = [] \/ exists rest', rest = Sym 124 :: rest'.

Lemma run_parseargs_end fuel s rest argv rs : skip s = stand rest -> Forall token_ok rest -> ends rest -> parseargs (S fuel) argv rs s = Ok (argv, rs) (stand rest).
Proof.
  intros Hs Ht He. cbn [parseargs]. unfold bind at 1. rewrite (run_peek _ _ _ Hs Ht) by (apply peek_symbols; auto). destruct He as [-> |[r ->]]; [|done]. cbn [starts]. unfold bind at 1. by rewrite (run_gettoken _ _ (stand_stand _) Ht).
Qed.

Lemma run_parseargs args : forall fuel s a argv rs0 rs rest, skip s = stand (Word a :: (Word <$> args) ++ redir_tokens rs ++ rest) -> Forall token_ok (Word a :: (Word <$> args) ++ redir_tokens rs ++ rest) ->
  Forall (fun r => snd r = 60 \/ snd r = 62) rs -> ends rest -> (length argv + length (a :: args) < MAXARGS)%nat -> (length (a :: args) + length rs + 1 < fuel)%nat ->
  parseargs fuel argv rs0 s = Ok (argv ++ a :: args, rs0 ++ rs) (stand rest).
Proof.
  induction args as [|b args IH]; intros fuel s a argv rs0 rs rest Hs Ht Hk He Hmax Hf; (destruct fuel as [|fuel]; [lia|]); cbn [parseargs]; unfold bind at 1;
    rewrite (run_peek _ _ _ Hs Ht) by (apply peek_symbols; auto); cbn [starts]; unfold bind at 1; rewrite (run_gettoken _ _ (stand_stand _) Ht); cbn [fmap list_fmap app fst snd Z.eqb Pos.eqb negb] in *;
    apply Forall_cons in Ht as [_ Ht]; rewrite (proj2 (Nat.leb_gt MAXARGS _)) by (rewrite length_app; cbn in *; lia); unfold bind.
  - assert (Hno : starts [60; 62] rest = false) by (destruct He as [-> |[r ->]]; done).
    rewrite (run_parseredirs rs fuel _ rest (stand_stand _) Ht Hk Hno) by (cbn in Hf; lia). destruct fuel as [|fuel]; [cbn in Hf; lia|].
    apply Forall_app in Ht as [_ Ht]. by rewrite (run_parseargs_end fuel _ rest _ _ (stand_stand _) Ht He).
  - rewrite run_no_redirs by (done || (cbn in Hf; lia)). rewrite app_nil_r.
    rewrite (IH fuel _ b (argv ++ [a]) rs0 rs rest (stand_stand _)); [by rewrite <-app_assoc|done|done|done|rewrite length_app; cbn in *; lia|cbn in *; lia].
Qed.

Lemma token_ok_simple c : simple_ok c -> Forall token_ok (simple_tokens c).
Proof.
  intros (H1 & _ & H2). apply Forall_app. split; [by apply Forall_fmap|]. induction H2 as [|[f k] rs [Hf Hk] _ IH]; [constructor|]. cbn [redir_tokens flat_map]. constructor; [cbn in *; intuition|]. by constructor.
Qed.
Lemma token_ok_tokens cs : forall c, simple_ok c -> Forall simple_ok cs -> Forall token_ok (tokens c cs).
Proof.
  induction cs as [|d cs IH]; intros c Hc Hcs; cbn [tokens]; apply Forall_app; (split; [by apply token_ok_simple|]); [constructor|].
  apply Forall_cons in Hcs as [Hd Hcs]. constructor; [cbn; auto|by apply IH].
Qed.

Lemma run_parseexec fuel s c rest : simple_ok c -> skip s = stand (simple_tokens c ++ rest) -> Forall token_ok rest -> ends rest -> (length (simple_tokens c) + 1 < fuel)%nat ->
  parseexec fuel s = Ok (wrap (EXEC (si_argv c)) (si_redirs c)) (stand rest).
Proof.
  intros Hc Hs Hr He Hf. pose proof (token_ok_simple c Hc) as Ht. destruct Hc as (_ & Hlen & Hk). assert (Hk' : Forall (fun r => snd r = 60 \/ snd r = 62) (si_redirs c)) by (eapply Forall_impl; [exact Hk|]; by intros r [_ H]).
  assert (Hrl : (length (si_argv c) + length (si_redirs c) <= length (simple_tokens c))%nat).
  { unfold simple_tokens. rewrite length_app, length_fmap. assert (length (si_redirs c) <= length (redir_tokens (si_redirs c)))%nat; [|lia]. clear. induction (si_redirs c) as [|r rs IH]; cbn [length redir_tokens flat_map app]; [lia|]. fold (redir_tokens rs). lia. }
  assert (Htr : Forall token_ok (simple_tokens c ++ rest)) by (by apply Forall_app). unfold parseexec, simple_tokens in *. rewrite <-app_assoc in Hs, Htr. destruct c as [argv rs]. cbn [si_argv si_redirs] in *.
  assert (Hno : starts [60; 62] rest = false) by (destruct He as [-> |[r ->]]; done). unfold bind at 1. destruct argv as [|a args].
  - rewrite (run_parseredirs rs fuel s rest Hs Htr Hk' Hno) by (cbn in *; lia). unfold bind. destruct fuel as [|fuel]; [lia|]. by rewrite (run_parseargs_end fuel _ rest [] rs (stand_stand _) Hr He).
  - cbn [fmap list_fmap app] in Hs, Htr. rewrite (run_parseredirs [] fuel s _ Hs Htr) by (done || (cbn [length]; lia)). unfold bind. by rewrite (run_parseargs args fuel _ a [] [] rs rest (stand_stand _) Htr Hk' He) by (cbn [length] in *; lia).
Qed.

Lemma run_parsepipe cs : forall c fuel s, simple_ok c -> Forall simple_ok cs -> skip s = stand (tokens c cs) -> (length (tokens c cs) + 2 < fuel)%nat -> parsepipe fuel s = Ok (built c cs) [].
Proof.
  induction cs as [|d cs IH]; intros c fuel s Hc Hcs Hs Hf; (destruct fuel as [|fuel]; [lia|]); cbn [parsepipe tokens built] in *; unfold bind at 1; rewrite length_app in Hf.
  - rewrite (run_parseexec fuel s c [] Hc Hs) by ((by apply Forall_nil) || (by left) || lia). done.
  - apply Forall_cons in Hcs as [Hd Hcs]. pose proof (token_ok_tokens cs d Hd Hcs) as Ht. assert (Ht' : Forall token_ok (Sym 124 :: tokens d cs)) by (constructor; [cbn; auto|done]). cbn [length] in Hf.
    rewrite (run_parseexec fuel s c (Sym 124 :: tokens d cs) Hc Hs Ht') by (lia || (right; by eexists)). unfold bind at 1. rewrite (run_peek _ _ _ (stand_stand _) Ht') by (apply peek_symbols; auto). cbn [starts]. change (has [124] 124) with true. cbn iota.
    unfold bind at 1. rewrite (run_gettoken _ _ (stand_stand _) Ht'). unfold bind. by rewrite (IH d fuel _ Hd Hcs (stand_stand _)) by lia.
Qed.
End parse.

(** Commands are parsed as they are printed: a pipeline of commands with at most nine words
    and any redirections, printed with spaces between its tokens, is parsed to its tree. *)
Theorem parse_printed c cs : simple_ok c -> Forall simple_ok cs -> parsecmd (show (tokens c cs)) = Ok (built c cs) [].
Proof.
  intros Hc Hcs. unfold parsecmd. assert (Hlen : forall ts, Forall token_ok ts -> (2 * length ts <= length (show ts))%nat).
  { induction 1 as [|t ts Ht _ IH]; [done|]. cbn [show flat_map]. fold (show ts). rewrite length_app. destruct t as [w|x]; cbn [show_token length]; [destruct Ht as [Hne _]; destruct w; [done|cbn]|]; lia. }
  specialize (Hlen _ (token_ok_tokens cs c Hc Hcs)). unfold bind at 1, parseline. rewrite (run_parsepipe cs c) by (done || lia). done.
Qed.

Lemma parse_printed_witness : parsecmd (bytes " a b < c | d > e") = Ok (PIPE (REDIR (EXEC [[97]; [98]]) [99] 0 0) (REDIR (EXEC [[100]]) [101] 577 1)) [].
Proof.
  apply (parse_printed (mk_simple [[97]; [98]] [([99], 60)]) [mk_simple [[100]] [([101], 62)]]).
  - split_and!; [by repeat constructor|cbn; unfold MAXARGS; lia|]. constructor; [|constructor]. split; [by repeat constructor|by left].
  - constructor; [|constructor]. split_and!; [by repeat constructor|cbn; unfold MAXARGS; lia|]. constructor; [|constructor]. split; [by repeat constructor|by right].
Defined.
