(* ===== verification/BoundedBuffer.v ===== *)
(** * The bounded buffer of the laboratory ([src/lab-05/buf.c])

    A producer and a consumer share a circular buffer, with the semaphores [vacios] and
    [llenos] and a mutex.  A thread makes one step per statement; [sem_wait] and
    [pthread_mutex_lock] have no step while they would block.  The two threads interleave in
    any order.  [usleep] is a pause between steps. *)

From S2P Require Import Prelude.

(** Where a thread is in the body of its loop. *)
Inductive pc : Type := Wait | Lock | Access | Advance | Unlock | Post.

#[export] Instance pc_eq_dec : EqDecision pc.
Proof. solve_decision. Defined.

Record params : Type := mk_params { items : Z; size : Z }.

Record state : Type := mk_state {
  buf : list Z;
  entrada : Z;
  salida : Z;
  vacios : Z;
  llenos : Z;
  mutex : bool;                 (* locked *)
  p_pc : pc; p_i : Z;           (* the producer *)
  c_pc : pc; c_i : Z;           (* the consumer *)
  reader_results : list Z
}.

(** [main], up to the creation of the threads; [junk] is what [malloc] returns. *)
Definition init (P : params) (junk : list Z) : state := mk_state junk 0 0 (size P) 0 false Wait 0 Wait 0 [].

Section steps.
Context (P : params).

(** One statement of [producer]; [None] when it blocks or has ended. *)
Definition producer (s : state) : option state :=
  let '(mk_state b e o v l m pp i cp j r) := s in
  if negb (i <? items P) then None else
  match pp with
  | Wait => if 0 <? v then Some (mk_state b e o (v - 1) l m Lock i cp j r) else None
  | Lock => if m then None else Some (mk_state b e o v l true Access i cp j r)
  | Access => Some (mk_state (<[Z.to_nat e := i]> b) e o v l m Advance i cp j r)
  | Advance => Some (mk_state b (Z.rem (e + 1) (size P)) o v l m Unlock i cp j r)
  | Unlock => Some (mk_state b e o v l false Post i cp j r)
  | Post => Some (mk_state b e o v (l + 1) m Wait (i + 1) cp j r)
  end.

Definition consumer (s : state) : option state :=
  let '(mk_state b e o v l m pp i cp j r) := s in
  if negb (j <? items P) then None else
  match cp with
  | Wait => if 0 <? l then Some (mk_state b e o v (l - 1) m pp i Lock j r) else None
  | Lock => if m then None else Some (mk_state b e o v l true pp i Access j r)
  | Access => Some (mk_state b e o v l m pp i Advance j (r ++ [default 0 (b !! Z.to_nat o)]))
  | Advance => Some (mk_state b e (Z.rem (o + 1) (size P)) v l m pp i Unlock j r)
  | Unlock => Some (mk_state b e o v l false pp i Post j r)
  | Post => Some (mk_state b e o (v + 1) l m pp i Wait (j + 1) r)
  end.

Inductive step (s s' : state) : Prop :=
| by_producer : producer s = Some s' -> step s s'
| by_consumer : consumer s = Some s' -> step s s'.

Definition finished (s : state) : Prop := items P <= p_i s /\ items P <= c_i s.
End steps.

(** ** The invariant *)

Definition crit (p : pc) : bool := match p with Access | Advance | Unlock => true | _ => false end.
(** What the thread has done of its turn: taken a unit of its semaphore, used its slot, moved
    its index; and the number of its steps. *)
Definition took (p : pc) : Z := match p with Wait => 0 | _ => 1 end.
Definition used (p : pc) : Z := match p with Advance | Unlock | Post => 1 | _ => 0 end.
Definition moved (p : pc) : Z := match p with Unlock | Post => 1 | _ => 0 end.
Definition rank (p : pc) : Z := match p with Wait => 0 | Lock => 1 | Access => 2 | Advance => 3 | Unlock => 4 | Post => 5 end.

Record inv (P : params) (s : state) : Prop := mk_inv {
  bi_len : Z.of_nat (length (buf s)) = size P;
  bi_i : 0 <= p_i s <= items P /\ (p_i s = items P -> p_pc s = Wait);
  bi_j : 0 <= c_i s <= items P /\ (c_i s = items P -> c_pc s = Wait);
  bi_vacios : vacios s = size P + c_i s - p_i s - took (p_pc s) /\ 0 <= vacios s;
  bi_llenos : llenos s = p_i s - c_i s - took (c_pc s) /\ 0 <= llenos s;
  bi_entrada : entrada s = (p_i s + moved (p_pc s)) mod size P;
  bi_salida : salida s = (c_i s + moved (c_pc s)) mod size P;
  bi_mutex : mutex s = crit (p_pc s) || crit (c_pc s) /\ (crit (p_pc s) && crit (c_pc s) = false);
  bi_buf k : c_i s <= k < p_i s + used (p_pc s) -> buf s !! Z.to_nat (k mod size P) = Some k;
  bi_results : reader_results s = seqZ 0 (c_i s + used (c_pc s))
}.

Section proofs.
Context (P : params) (Hsize : 0 < size P).

Lemma next_index k : Z.rem (k mod size P + 1) (size P) = (k + 1) mod size P.
Proof.
  pose proof (Z.mod_pos_bound k (size P) Hsize). rewrite Z.rem_mod_nonneg by lia. by rewrite Z.add_mod_idemp_l by lia.
Qed.

(** Distinct items less than a buffer apart have distinct slots. *)
Lemma slot_ne k k' : k < k' -> k' - k < size P -> Z.to_nat (k mod size P) <> Z.to_nat (k' mod size P).
Proof.
  intros H1 H2 E. pose proof (Z.mod_pos_bound k (size P) Hsize). pose proof (Z.mod_pos_bound k' (size P) Hsize).
  assert (Em : k mod size P = k' mod size P) by (apply Z2Nat.inj in E; lia).
  assert (Hd : (k' - k) mod size P = 0) by (rewrite Zminus_mod, Em, Z.sub_diag; apply Z.mod_0_l; clear -Hsize; lia).
  rewrite Z.mod_small in Hd by lia. lia.
Qed.

Ltac fields := cbn [buf entrada salida vacios llenos mutex p_pc p_i c_pc c_i reader_results took used moved crit rank orb andb] in *.

Lemma producer_inv s s' : inv P s -> producer P s = Some s' -> inv P s'.
Proof.
  destruct s as [b e o v l m pp i cp j r]. intros [I1 I2 I3 I4 I5 I6 I7 I8 I9 I10] E. fields. unfold producer in E.
  destruct (Z.ltb_spec i (items P)); [|done]. cbn [negb] in E. destruct pp.
  - destruct (Z.ltb_spec 0 v); [|done]. injection E as <-. split; fields; auto; lia.
  - destruct m; [done|]. injection E as <-. destruct (crit cp) eqn:Ec; [by destruct I8|]. split; fields; rewrite ?Ec; auto; lia.
  - injection E as <-. rewrite Z.add_0_r in I6. split; fields; auto; try lia.
    + by rewrite length_insert.
    + by rewrite Z.add_0_r.
    + intros k Hk. subst e. destruct (decide (k = i)) as [->|Hne].
      * apply list_lookup_insert_eq. pose proof (Z.mod_pos_bound i (size P) Hsize). lia.
      * rewrite list_lookup_insert_ne by (apply not_eq_sym, slot_ne; lia). apply I9. lia.
  - injection E as <-. rewrite Z.add_0_r in I6. subst e. split; fields; auto; try lia. by rewrite next_index.
  - injection E as <-. destruct (crit cp) eqn:Ec; [by destruct I8|]. split; fields; rewrite ?Ec; auto; lia.
  - injection E as <-. split; fields; auto; try lia. + split; [lia|done]. + by rewrite Z.add_0_r. + intros k Hk. apply I9. lia.
Qed.

Lemma consumer_inv s s' : inv P s -> consumer P s = Some s' -> inv P s'.
Proof.
  destruct s as [b e o v l m pp i cp j r]. intros [I1 I2 I3 I4 I5 I6 I7 I8 I9 I10] E. fields. unfold consumer in E.
  destruct (Z.ltb_spec j (items P)); [|done]. cbn [negb] in E. destruct cp.
  - destruct (Z.ltb_spec 0 l); [|done]. injection E as <-. split; fields; auto; lia.
  - destruct m; [done|]. injection E as <-. destruct (crit pp) eqn:Ec; [by destruct I8|]. split; fields; rewrite ?Ec; auto; lia.
  - injection E as <-. rewrite Z.add_0_r in I7, I10. subst o r. split; fields; auto; try lia.
    + by rewrite Z.add_0_r.
    + rewrite I9 by (destruct pp; cbn in *; lia). cbn. rewrite seqZ_app by lia. done.
  - injection E as <-. rewrite Z.add_0_r in I7. subst o. split; fields; auto; try lia. by rewrite next_index.
  - injection E as <-. destruct (crit pp) eqn:Ec; [by destruct I8|]. split; fields; rewrite ?Ec; auto; lia.
  - injection E as <-. split; fields; auto; try lia. + split; [lia|done]. + by rewrite Z.add_0_r. + intros k Hk. apply I9. lia. + by rewrite Z.add_0_r.
Qed.

Lemma init_inv junk : 0 <= items P -> Z.of_nat (length junk) = size P -> inv P (init P junk).
Proof.
  intros Hk Hl. split; cbn; try done; try lia; try (symmetry; apply Z.mod_0_l; lia).
Qed.

(** While a thread has work to do, one of the two can make a step. *)
Lemma progress s : inv P s -> finished P s \/ exists s', step P s s'.
Proof.
  destruct s as [b e o v l m pp i cp j r]. intros [I1 I2 I3 I4 I5 I6 I7 I8 I9 I10]. fields. unfold finished. fields.
  assert (Hc : j < items P -> (cp <> Wait \/ 0 < l) -> (cp <> Lock \/ m = false) -> exists s', consumer P (mk_state b e o v l m pp i cp j r) = Some s').
  { intros Hj Hw Hl. unfold consumer. rewrite (proj2 (Z.ltb_lt _ _) Hj). cbn [negb]. destruct cp; eauto.
    - rewrite (proj2 (Z.ltb_lt 0 l)); [eauto|]. naive_solver.
    - assert (m = false) as -> by naive_solver. eauto. }
  assert (Hp : i < items P -> (pp <> Wait \/ 0 < v) -> (pp <> Lock \/ m = false) -> exists s', producer P (mk_state b e o v l m pp i cp j r) = Some s').
  { intros Hj Hw Hl. unfold producer. rewrite (proj2 (Z.ltb_lt _ _) Hj). cbn [negb]. destruct pp; eauto.
    - rewrite (proj2 (Z.ltb_lt 0 v)); [eauto|]. naive_solver.
    - assert (m = false) as -> by naive_solver. eauto. }
  assert (Hstep : (exists s', consumer P (mk_state b e o v l m pp i cp j r) = Some s') \/ (exists s', producer P (mk_state b e o v l m pp i cp j r) = Some s') ->
    exists s', step P (mk_state b e o v l m pp i cp j r) s').
  { intros [[s' H]|[s' H]]; exists s'; [by apply by_consumer|by apply by_producer]. }
  destruct (decide (items P <= i /\ items P <= j)) as [|Hn]; [by left|right]. apply Hstep. clear Hstep.
  destruct (decide (cp = Wait)) as [->|Hcw].
  - cbn in *. destruct (decide (0 < l /\ j < items P)) as [[Hl Hj]|Hl]; [left; apply Hc; auto|].
    right. assert (Hi : i < items P) by lia. apply Hp; [done| |].
    + destruct (decide (pp = Wait)) as [->|]; [right; cbn in *; lia|by left].
    + destruct (decide (pp = Lock)) as [->|]; [right; by destruct I8|by left].
  - assert (Hj : j < items P) by (destruct I3 as [[_ H3] H4]; destruct (decide (j = items P)) as [E|]; [by apply H4 in E|lia]).
    destruct (decide (cp = Lock /\ m = true)) as [[-> ->]|Hcl]; [|left; apply Hc; [done|by left|destruct m; [left; naive_solver|by right]]].
    right. destruct I8 as [Hm _]. cbn in Hm. rewrite orb_false_r in Hm.
    assert (Hi : i < items P) by (destruct I2 as [[_ H3] H4]; destruct (decide (i = items P)) as [E|]; [apply H4 in E; by subst pp|lia]).
    apply Hp; [done|left; by intros ->|left; by intros ->].
Qed.

(** The steps made so far: each is one of the six of a turn. *)
Definition made (s : state) : Z := 6 * p_i s + rank (p_pc s) + 6 * c_i s + rank (c_pc s).

Lemma step_count s s' : step P s s' -> made s' = made s + 1.
Proof.
  unfold made.
  destruct s as [b e o v l m pp i cp j r]. intros [E|E]; [unfold producer in E|unfold consumer in E].
  - destruct (negb _); [done|]. destruct pp; try (destruct (0 <? v)); try (destruct m); try done; injection E as <-; fields; lia.
  - destruct (negb _); [done|]. destruct cp; try (destruct (0 <? l)); try (destruct m); try done; injection E as <-; fields; lia.
Qed.

Lemma run_inv n s0 s : inv P s0 -> nsteps (step P) n s0 s -> inv P s /\ made s = made s0 + Z.of_nat n.
Proof.
  intros I0 Hn. induction Hn as [s|n s0 s1 s2 Hs _ IH]; [split; [done|simpl; lia]|]. destruct IH as [I2 E2].
  - destruct Hs as [Hs|Hs]; [by eapply producer_inv|by eapply consumer_inv].
  - split; [done|]. rewrite E2, (step_count _ _ Hs). lia.
Qed.

(** C32: However the two threads interleave: the consumer gets the items in the order in which they
    were produced, none lost or twice; the mutex keeps their accesses apart and the semaphores
    stay within the buffer; the threads never deadlock, and end after at most twelve steps per
    item, when all items have been consumed. *)
Theorem bounded_buffer_correct junk n s : 0 <= items P -> Z.of_nat (length junk) = size P -> nsteps (step P) n (init P junk) s ->
  reader_results s = seqZ 0 (Z.of_nat (length (reader_results s))) /\
  (0 <= vacios s /\ 0 <= llenos s /\ vacios s + llenos s <= size P) /\ crit (p_pc s) && crit (c_pc s) = false /\
  Z.of_nat n <= 12 * items P /\ (finished P s \/ exists s', step P s s') /\
  (finished P s -> reader_results s = seqZ 0 (items P)).
Proof.
  intros Hk Hl Hn. destruct (run_inv _ _ _ (init_inv junk Hk Hl) Hn) as [I Hc]. unfold made in Hc. cbn in Hc. pose proof I as [I1 I2 I3 I4 I5 I6 I7 I8 I9 I10].
  assert (Hused : 0 <= used (c_pc s) <= 1) by (destruct (c_pc s); cbn; lia). assert (Htook : 0 <= took (p_pc s) <= 1 /\ 0 <= took (c_pc s) <= 1) by (destruct (p_pc s), (c_pc s); cbn; lia).
  split_and!; [by rewrite I10, length_seqZ, Z2Nat.id by lia|lia..|by destruct I8| |by apply progress|].
  - destruct I2 as [I2 I2'], I3 as [I3 I3'].
    assert (rank (p_pc s) <= 6 * (items P - p_i s)) by (destruct (decide (p_i s = items P)) as [E|]; [rewrite (I2' E); cbn; lia|destruct (p_pc s); cbn; lia]).
    assert (rank (c_pc s) <= 6 * (items P - c_i s)) by (destruct (decide (c_i s = items P)) as [E|]; [rewrite (I3' E); cbn; lia|destruct (c_pc s); cbn; lia]). lia.
  - intros [F1 F2]. rewrite I10. destruct I3 as [I3 I3']. assert (E : c_i s = items P) by lia. rewrite (I3' E), E. cbn. f_equal. lia.
Qed.
End proofs.

(** ** A run *)

(** The threads in the order of the list, the producer for [true]. *)
Fixpoint schedule (P : params) (l : list bool) (s : state) : option state :=
  match l with
  | [] => Some s
  | p :: l => match (if p then producer P s else consumer P s) with Some s => schedule P l s | None => None end
  end.

Lemma schedule_steps P l : forall s s', schedule P l s = Some s' -> nsteps (step P) (length l) s s'.
Proof.
  induction l as [|p l IH]; intros s s' E; cbn in E; [injection E as <-; constructor|]. destruct (if p then _ else _) as [s1|] eqn:E1; [|done].
  econstructor; [|by apply IH]. destruct p; [by apply by_producer|by apply by_consumer].
Qed.

Definition demo_params : params := mk_params 2 1.
Definition demo_order : list bool := replicate 6 true ++ replicate 6 false ++ replicate 6 true ++ replicate 6 false.
Definition demo_end : state := default (init demo_params [7]) (schedule demo_params demo_order (init demo_params [7])).

Lemma bounded_buffer_correct_witness : nsteps (step demo_params) 24 (init demo_params [7]) demo_end /\ reader_results demo_end = [0; 1].
Proof.
  assert (H : nsteps (step demo_params) 24 (init demo_params [7]) demo_end) by (apply (schedule_steps demo_params demo_order); vm_compute; reflexivity).
  split; [exact H|].
  destruct (bounded_buffer_correct demo_params ltac:(cbn; lia) [7] 24 demo_end ltac:(cbn; lia) eq_refl H) as (_ & _ & _ & _ & _ & Hf).
  apply Hf. split; vm_compute; congruence.
Defined.
