(* ===== verification/Glob.v ===== *)
(** * Two threads and a counter without a lock ([src/lab-04/glob.c])

    Both threads execute [increment_glob]; a thread makes one step per statement of the loop
    body, and the threads interleave in any order.  Without a lock increments get lost: what
    the program prints lies between two and the number of increments, and both happen. *)

From S2P Require Import Prelude.

(** The statements [loc = glob], [loc++] and [glob = loc]. *)
Inductive pc : Type := Load | Inc | Store.
Record thread : Type := mk_thread { t_j : Z; t_pc : pc; t_loc : Z }.
Record state : Type := mk_state { glob : Z; hilo1 : thread; hilo2 : thread }.

Definition init : state := mk_state 0 (mk_thread 0 Load 0) (mk_thread 0 Load 0).

Section steps.
Context (loops : Z).

(** A statement of [increment_glob]; [None] when the loop has ended. *)
Definition increment_glob (g : Z) (t : thread) : option (Z * thread) :=
  let '(mk_thread j p loc) := t in
  if negb (j <? loops) then None else
  match p with
  | Load => Some (g, mk_thread j Inc (i32 g))
  | Inc => Some (g, mk_thread j Store (loc + 1))
  | Store => Some (loc, mk_thread (j + 1) Load loc)
  end.

Definition move1 (s : state) : option state := match increment_glob (glob s) (hilo1 s) with Some (g, t) => Some (mk_state g t (hilo2 s)) | None => None end.
Definition move2 (s : state) : option state := match increment_glob (glob s) (hilo2 s) with Some (g, t) => Some (mk_state g (hilo1 s) t) | None => None end.
Inductive step (s s' : state) : Prop :=
| step1 : move1 s = Some s' -> step s s'
| step2 : move2 s = Some s' -> step s s'.

(** Both threads have been joined. *)
Definition finished (s : state) : Prop := loops <= t_j (hilo1 s) /\ loops <= t_j (hilo2 s).

(** ** Bounds of the result *)

(** Increments that a thread has made or is about to store. *)
Definition made (t : thread) : Z := t_j t + match t_pc t with Store => 1 | _ => 0 end.

(** A value that a thread carries: between what it must have seen and the increments so far. *)
Definition carried (s : state) (t : thread) : Prop :=
  0 <= t_j t <= loops /\
  match t_pc t with
  | Load => True
  | Inc => (0 < t_j t -> 1 <= t_loc t) /\ 0 <= t_loc t <= t_j (hilo1 s) + t_j (hilo2 s)
  | Store => (0 < t_j t -> 2 <= t_loc t) /\ 1 <= t_loc t <= t_j (hilo1 s) + t_j (hilo2 s) + 1
  end.

Record inv (s : state) : Prop := mk_inv {
  gi_1 : carried s (hilo1 s);
  gi_2 : carried s (hilo2 s);
  gi_glob : 0 <= glob s <= t_j (hilo1 s) + t_j (hilo2 s);
  gi_some : 0 < t_j (hilo1 s) + t_j (hilo2 s) -> 1 <= glob s;
  gi_end : finished s -> 2 <= glob s
}.

Lemma glob_init_inv : 2 <= loops -> inv init.
Proof. intros Hl. split; cbn; try lia. - split; [cbn; lia|done]. - split; [cbn; lia|done]. - unfold finished. cbn. lia. Qed.

Ltac fields := unfold carried, finished, made in *; cbn [glob hilo1 hilo2 t_j t_pc t_loc] in *.

Lemma step_inv s s' : 2 <= loops < 2 ^ 30 -> step s s' -> inv s -> inv s'.
Proof.
  intros Hl Hst [I1 I2 I3 I4 I5]. destruct s as [g [j1 p1 l1] [j2 p2 l2]]. fields. assert (Hg : i32 g = g) by (apply i32_small; lia).
  destruct Hst as [H|H]; [unfold move1 in H|unfold move2 in H]; cbn [glob hilo1 hilo2 increment_glob] in H.
  - destruct (Z.ltb_spec j1 loops); cbn [negb] in H; [|done]. destruct p1; injection H as <-; rewrite ?Hg; split; fields; destruct p2; lia.
  - destruct (Z.ltb_spec j2 loops); cbn [negb] in H; [|done]. destruct p2; injection H as <-; rewrite ?Hg; split; fields; destruct p1; lia.
Qed.

(** What the program prints: with at least two increments per thread (and few enough for an
    [int]), the final value is at least two and at most the number of increments, however the threads interleave. *)
Theorem glob_bounds s : 2 <= loops < 2 ^ 30 -> rtc step init s -> finished s -> 2 <= glob s <= 2 * loops.
Proof.
  intros Hl Hr Hf. assert (Hi : inv s).
  { clear Hf. revert s Hr. apply rtc_ind_r; [apply glob_init_inv; lia|]. intros x y _ Hst IH. by eapply step_inv. }
  destruct Hi as [I1 I2 I3 I4 I5]. specialize (I5 Hf). destruct I1 as [I1 _], I2 as [I2 _]. lia.
Qed.

(** A run by a list of moves: [true] for the first thread. *)
Fixpoint play (moves : list bool) (s : state) : option state :=
  match moves with
  | [] => Some s
  | m :: moves => match (if m then move1 s else move2 s) with Some s' => play moves s' | None => None end
  end.
Lemma play_rtc moves : forall s s', play moves s = Some s' -> rtc step s s'.
Proof.
  induction moves as [|m moves IH]; intros s s' H; cbn [play] in H; [injection H as ->; apply rtc_refl|].
  destruct m; [destruct (move1 s) as [s1|] eqn:E|destruct (move2 s) as [s1|] eqn:E]; try done; (eapply rtc_l; [|by apply IH]); [by left|by right].
Qed.
End steps.

(** The lower bound is reached: the first thread loads 0 and sleeps, the second one makes all
    but its last increment, the first one stores 1, the second one loads 1, the first one
    finishes, and the second one stores 2. *)
Definition lost_updates : list bool := [true; true] ++ replicate 6 false ++ [true] ++ [false; false] ++ replicate 6 true ++ [false].
Lemma glob_loses_updates : exists s, rtc (step 3) init s /\ finished 3 s /\ glob s = 2.
Proof.
  destruct (play 3 lost_updates init) as [s|] eqn:E; [|by vm_compute in E]. exists s. split; [by eapply play_rtc|]. vm_compute in E. injection E as <-. unfold finished. cbn. lia.
Qed.
Lemma glob_bounds_witness : exists s, rtc (step 3) init s /\ 2 <= glob s <= 6.
Proof.
  destruct (play 3 lost_updates init) as [s|] eqn:E; [|by vm_compute in E]. exists s. assert (Hr : rtc (step 3) init s) by (by eapply play_rtc). split; [exact Hr|].
  apply (glob_bounds 3 s); [lia|exact Hr|]. vm_compute in E. injection E as <-. unfold finished. cbn. lia.
Defined.
