(* ===== verification/SchedThreads.v ===== *)
(** * Threads that fill a buffer without a lock ([src/lab-04/sched-threads.c])

    Every thread executes [write_buffer]: [items] times it writes its number many times at the
    shared position and then advances the position.  A thread makes one step per access to the
    shared variables, and the threads interleave in any order, whatever the scheduling policy.
    The number of repetitions (0xFFFFFF in the source) is the variable [reps]. *)

From S2P Require Import Prelude.

(** Where a thread is: before the test of the inner loop, holding the index for
    [buf[pos] = id], before [pos = pos + 1], holding the value of [pos] in it. *)
Inductive pc : Type := Test | Put (p : Z) | Advance | Bump (p : Z).
Record thread : Type := mk_thread { t_i : nat; t_j : nat; t_pc : pc }.
Record state : Type := mk_state { pos : Z; buf : list Z; threads : list thread }.

Inductive move : Type := Ended | Fault | Moved (pos : Z) (buf : list Z) (t : thread).

Section steps.
Context (count items reps : nat).

(** One access of [write_buffer]; a write outside of [buf] is a [Fault]. *)
Definition write_buffer (id : Z) (ps : Z) (b : list Z) (t : thread) : move :=
  let '(mk_thread i j p) := t in
  if negb (i <? items)%nat then Ended else
  match p with
  | Test => if (j <? reps)%nat then Moved ps b (mk_thread i j (Put ps)) else Moved ps b (mk_thread i j Advance)
  | Put q => if (0 <=? q) && (q <? Z.of_nat (length b)) then Moved ps (<[Z.to_nat q := id]> b) (mk_thread i (S j) Test) else Fault
  | Advance => Moved ps b (mk_thread i j (Bump ps))
  | Bump q => Moved (i32 (q + 1)) b (mk_thread (S i) 0 Test)
  end.

(** The buffer is zeroed and the threads are created; their numbers are their indices. *)
Definition start : state := mk_state 0 (replicate (count * items) 0) (replicate count (mk_thread 0 0 Test)).

Definition run_thread (k : nat) (s : state) : option state :=
  match threads s !! k with
  | None => None
  | Some t => match write_buffer (Z.of_nat k) (pos s) (buf s) t with Moved ps b t' => Some (mk_state ps b (<[k := t']> (threads s))) | _ => None end
  end.
Inductive step (s s' : state) : Prop := step_thread k : run_thread k s = Some s' -> step s s'.

(** ** No write outside of the buffer *)

Fixpoint advanced (l : list thread) : nat := match l with [] => 0 | t :: l => t_i t + advanced l end.

Lemma advanced_insert k t t' l : l !! k = Some t -> (advanced (<[k := t']> l) + t_i t = advanced l + t_i t')%nat.
Proof.
  revert k. induction l as [|x l IH]; intros [|k] H; try done; [injection H as ->; cbn; lia|]. specialize (IH k H). change (<[S k := t']> (x :: l)) with (x :: <[k := t']> l). cbn [advanced]. lia.
Qed.
Lemma advanced_le l : Forall (fun t => (t_i t <= items)%nat) l -> (advanced l <= length l * items)%nat.
Proof. induction 1; cbn [advanced length]; lia. Qed.
Lemma advanced_lt l k t : Forall (fun t => (t_i t <= items)%nat) l -> l !! k = Some t -> (t_i t < items)%nat -> (advanced l < length l * items)%nat.
Proof.
  intros Hl. revert k. induction Hl as [|x l Hx Hl IH]; intros [|k] Hk Ht; cbn in Hk; cbn [advanced length]; try done.
  - injection Hk as ->. pose proof (advanced_le l Hl). lia.
  - specialize (IH _ Hk Ht). lia.
Qed.

(** The position that a thread holds was the shared one at some time. *)
Definition held (n : Z) (t : thread) : Prop := match t_pc t with Put p | Bump p => 0 <= p <= n | _ => True end.

Record inv (s : state) : Prop := mk_inv {
  si_count : length (threads s) = count;
  si_buf : length (buf s) = (count * items)%nat;
  si_pos : 0 <= pos s <= Z.of_nat (advanced (threads s));
  si_i : Forall (fun t => (t_i t <= items)%nat) (threads s);
  si_held : Forall (held (Z.of_nat (advanced (threads s)))) (threads s)
}.

Lemma advanced_start n : advanced (replicate n (mk_thread 0 0 Test)) = 0%nat.
Proof. induction n; cbn; lia. Qed.
Lemma sched_start_inv : inv start.
Proof.
  split; cbn [threads buf pos start]; rewrite ?length_replicate, ?advanced_start; try done; apply Forall_replicate; cbn; [lia|done].
Qed.
Lemma held_mono n m t : n <= m -> held n t -> held m t.
Proof. unfold held. destruct (t_pc t); lia. Qed.

(** The invariant after a thread has moved on by [t_i t' - t_i t] items. *)
Lemma inv_move s k t ps b t' : inv s -> threads s !! k = Some t -> length b = length (buf s) -> (t_i t <= t_i t' <= items)%nat ->
  0 <= ps <= Z.of_nat (advanced (<[k := t']> (threads s))) -> held (Z.of_nat (advanced (<[k := t']> (threads s)))) t' -> inv (mk_state ps b (<[k := t']> (threads s))).
Proof.
  intros [I1 I2 I3 I4 I5] Hk Hb Hi Hp Hh. pose proof (advanced_insert k t t' _ Hk) as E. split; cbn [threads buf pos]; [by rewrite length_insert|lia|done| |].
  - apply Forall_insert; [done|lia].
  - apply Forall_insert; [|done]. eapply Forall_impl; [exact I5|]. intros x. apply held_mono. lia.
Qed.

Lemma sched_step_inv s s' : Z.of_nat (count * items) < 2 ^ 31 -> step s s' -> inv s -> inv s'.
Proof.
  intros Hc [k H] Hi. unfold run_thread in H. destruct (threads s !! k) as [t|] eqn:Hk; [|done]. pose proof (Hi) as [I1 I2 I3 I4 I5].
  pose proof (Forall_lookup_1 _ _ _ _ I5 Hk) as Hh. pose proof (Forall_lookup_1 _ _ _ _ I4 Hk) as Hle. pose proof (advanced_lt _ _ _ I4 Hk) as Hlt.
  destruct t as [i j p]. unfold held in Hh. cbn [t_i t_j t_pc write_buffer] in *. destruct (Nat.ltb_spec i items); cbn [negb] in H; [|done]. specialize (Hlt ltac:(done)). rewrite I1 in Hlt.
  assert (E : forall i' j' p', (advanced (<[k := mk_thread i' j' p']> (threads s)) + i = advanced (threads s) + i')%nat) by (intros; apply (advanced_insert k _ (mk_thread i' j' p') _ Hk)).
  destruct p as [|q| |q].
  - destruct (_ <? _)%nat; injection H as <-; [specialize (E i j (Put (pos s)))|specialize (E i j Advance)]; (eapply inv_move; [done|done|done|cbn; lia|lia|]); unfold held; cbn [t_pc]; [lia|done].
  - destruct (_ && _); [|done]. injection H as <-. specialize (E i (S j) Test). eapply inv_move; [done|done|by rewrite length_insert|cbn; lia|lia|done].
  - injection H as <-. specialize (E i j (Bump (pos s))). eapply inv_move; [done|done|done|cbn; lia|lia|]. unfold held; cbn [t_pc]. lia.
  - injection H as <-. specialize (E (S i) 0%nat Test). eapply inv_move; [done|done|done|cbn; lia|rewrite i32_small by lia; lia|done].
Qed.

Lemma sched_reachable_inv s : Z.of_nat (count * items) < 2 ^ 31 -> rtc step start s -> inv s.
Proof. intros Hc. revert s. apply rtc_ind_r; [apply sched_start_inv|]. intros x y _ Hst IH. by eapply sched_step_inv. Qed.

(** Although the threads race on [pos], no interleaving lets one of them write outside of the
    buffer, and the position never passes its end: updates get lost, never added. *)
Theorem sched_in_bounds s k t : Z.of_nat (count * items) < 2 ^ 31 -> rtc step start s -> threads s !! k = Some t ->
  write_buffer (Z.of_nat k) (pos s) (buf s) t <> Fault /\ 0 <= pos s <= Z.of_nat (count * items).
Proof.
  intros Hc Hr Hk. destruct (sched_reachable_inv s Hc Hr) as [I1 I2 I3 I4 I5]. pose proof (advanced_le _ I4) as Hle. rewrite I1 in Hle. split; [|lia].
  pose proof (Forall_lookup_1 _ _ _ _ I5 Hk) as Hh. pose proof (advanced_lt _ _ _ I4 Hk) as Hlt. destruct t as [i j p]. unfold held in Hh. cbn [t_i t_pc write_buffer] in *.
  destruct (Nat.ltb_spec i items); cbn [negb]; [|done]. specialize (Hlt ltac:(done)). rewrite I1 in Hlt. destruct p as [|q| |q]; [by destruct (_ <? _)%nat| |done|done].
  rewrite I2. rewrite (proj2 (Z.leb_le 0 q)), (proj2 (Z.ltb_lt q _)) by lia. done.
Qed.

(** A run by a list of thread numbers. *)
Fixpoint play (ks : list nat) (s : state) : option state :=
  match ks with [] => Some s | k :: ks => match run_thread k s with Some s' => play ks s' | None => None end end.
Lemma sched_play_rtc ks : forall s s', play ks s = Some s' -> rtc step s s'.
Proof.
  induction ks as [|k ks IH]; intros s s' H; cbn [play] in H; [injection H as ->; apply rtc_refl|]. destruct (run_thread k s) as [s1|] eqn:E; [|done]. eapply rtc_l; [by exists k|by apply IH].
Qed.
End steps.

(** Two threads that both read the position 0: one update is lost, and so is the number of the
    first thread. *)
Definition racing : list nat := [0; 0; 0; 0; 1; 1; 1; 1; 0; 1]%nat.
Lemma sched_loses_items : exists s, rtc (step 1 1) (start 2 1) s /\ pos s = 1 /\ buf s = [1; 0].
Proof. destruct (play 1 1 racing (start 2 1)) as [s|] eqn:E; [|by vm_compute in E]. exists s. split; [by eapply sched_play_rtc|]. vm_compute in E. injection E as <-. done. Qed.
