(* ===== verification/Wordstack.v ===== *)
(** * The shared stack of words ([src/lab-05/wordheap.c])

    Processes share a stack of words in a memory segment, with a mutex and the semaphores
    [full] and [empty].  Every run of the program is a process that makes one step per
    statement; [sem_wait] and [pthread_mutex_lock] have no step while they would block.  Any
    number of processes interleave in any order.  Strings are lists of bytes without zero. *)

From S2P Require Import Prelude.

Definition ITEMS : Z := 15.
Definition MAX_WORD : nat := 50.

Record wordstack : Type := mk_wordstack {
  free : Z;
  heap : list (list Z);
  mutex : bool;                  (* locked *)
  full : Z;
  empty : Z
}.

(** Option [-c]; [junk] is what the segment holds. *)
Definition create (junk : list (list Z)) : wordstack := mk_wordstack 0 junk false 0 ITEMS.

(** What [main] does with its arguments. *)
Inductive command : Type := Usage (status : Z) | Create | Write (word : list Z) | Remove | PrintAll | Delete | Unknown (option : Z).
Definition command_of (argv : list (list Z)) : command :=
  match argv with
  | _ :: a :: rest =>
      if negb (default 0 (a !! 0%nat) =? 45) then Usage 1 else
      let o := default 0 (a !! 1%nat) in
      if o =? 99 then Create
      else if o =? 119 then match rest with [w] => Write w | _ => Usage 1 end
      else if o =? 114 then Remove
      else if o =? 112 then PrintAll
      else if o =? 100 then Delete
      else if o =? 104 then Usage 0
      else Unknown o
  | _ => Usage 1
  end.

(** The string in a buffer, and the bytes that [strncpy(_, src, n)] writes. *)
Fixpoint cstr (l : list Z) : list Z := match l with [] => [] | c :: l => if c =? 0 then [] else c :: cstr l end.
Definition strncpy (n : nat) (src : list Z) : list Z := let s := take n (cstr src) in s ++ repeat 0 (n - length s).

(** Where a process is. *)
Inductive wpc : Type := WWait | WLock | WCopy | WTerm | WInc | WUnlock | WPost | WDone.
Inductive rpc : Type := RWait | RLock | RDec | RCopy | RUnlock | RPost | RDone.
Inductive ppc : Type := PLock | PLine (i : Z) | PUnlock | PDone.
Inductive proc : Type := Writer (w : list Z) (pc : wpc) | Remover (pc : rpc) (word : list Z) | Printer (pc : ppc).

(** What a step shows of itself. *)
Inductive label : Type := Tau | Push (w : list Z) | Pop (w : list Z) | Line (i : Z) (w : list Z).

Definition set_free x (s : wordstack) := mk_wordstack x (heap s) (mutex s) (full s) (empty s).
Definition set_heap x (s : wordstack) := mk_wordstack (free s) x (mutex s) (full s) (empty s).
Definition set_mutex x (s : wordstack) := mk_wordstack (free s) (heap s) x (full s) (empty s).
Definition set_full x (s : wordstack) := mk_wordstack (free s) (heap s) (mutex s) x (empty s).
Definition set_empty x (s : wordstack) : wordstack := mk_wordstack (free s) (heap s) (mutex s) (full s) x.

(** [stack->heap[i]] *)
Definition row (s : wordstack) (i : Z) : list Z := default [] (heap s !! Z.to_nat i).

Definition writer (w : list Z) (pc : wpc) (s : wordstack) : option (wpc * wordstack * label) :=
  match pc with
  | WWait => if 0 <? empty s then Some (WLock, set_empty (empty s - 1) s, Tau) else None
  | WLock => if mutex s then None else Some (WCopy, set_mutex true s, Tau)
  | WCopy => Some (WTerm, set_heap (<[Z.to_nat (free s) := strncpy (MAX_WORD - 1) w ++ drop (MAX_WORD - 1) (row s (free s))]> (heap s)) s, Tau)
  | WTerm => Some (WInc, set_heap (<[Z.to_nat (free s) := <[(MAX_WORD - 1)%nat := 0]> (row s (free s))]> (heap s)) s, Tau)
  | WInc => Some (WUnlock, set_free (free s + 1) s, Push (take (MAX_WORD - 1) w))
  | WUnlock => Some (WPost, set_mutex false s, Tau)
  | WPost => Some (WDone, set_full (full s + 1) s, Tau)
  | WDone => None
  end.

Definition remover (pc : rpc) (word : list Z) (s : wordstack) : option (rpc * list Z * wordstack * label) :=
  match pc with
  | RWait => if 0 <? full s then Some (RLock, word, set_full (full s - 1) s, Tau) else None
  | RLock => if mutex s then None else Some (RDec, word, set_mutex true s, Tau)
  | RDec => Some (RCopy, word, set_free (free s - 1) s, Tau)
  | RCopy => let word := strncpy MAX_WORD (row s (free s)) in Some (RUnlock, word, s, Pop (cstr word))
  | RUnlock => Some (RPost, word, set_mutex false s, Tau)
  | RPost => Some (RDone, word, set_empty (empty s + 1) s, Tau)
  | RDone => None
  end.

Definition printer (pc : ppc) (s : wordstack) : option (ppc * wordstack * label) :=
  match pc with
  | PLock => if mutex s then None else Some (PLine 0, set_mutex true s, Tau)
  | PLine i => if i <? free s then Some (PLine (i + 1), s, Line i (cstr (row s i))) else Some (PUnlock, s, Tau)
  | PUnlock => Some (PDone, set_mutex false s, Tau)
  | PDone => None
  end.

Definition exec (p : proc) (s : wordstack) : option (proc * wordstack * label) :=
  match p with
  | Writer w pc => match writer w pc s with Some (pc, s, l) => Some (Writer w pc, s, l) | None => None end
  | Remover pc x => match remover pc x s with Some (pc, x, s, l) => Some (Remover pc x, s, l) | None => None end
  | Printer pc => match printer pc s with Some (pc, s, l) => Some (Printer pc, s, l) | None => None end
  end.

(** The system: the segment and the processes. *)
Abbreviation system := (wordstack * list proc)%type.
Inductive step : system -> label -> system -> Prop :=
| step_proc s ps i p p' s' l : ps !! i = Some p -> exec p s = Some (p', s', l) -> step (s, ps) l (s', <[i := p']> ps).
Inductive steps : system -> list label -> system -> Prop :=
| steps_nil x : steps x [] x
| steps_snoc x ls y l z : steps x ls y -> step y l z -> steps x (ls ++ [l]) z.

(** A process before its first statement. *)
Definition fresh (p : proc) : Prop :=
  match p with
  | Writer w WWait => Forall (fun c => c <> 0) w
  | Remover RWait _ => True
  | Printer PLock => True
  | _ => False
  end.

(** ** The stack that the processes see *)

Inductive astep : list (list Z) -> label -> list (list Z) -> Prop :=
| a_tau S : astep S Tau S
| a_push S w : Z.of_nat (length S) < ITEMS -> astep S (Push w) (S ++ [w])
| a_pop S w : astep (S ++ [w]) (Pop w) S
| a_line S i w : 0 <= i -> S !! Z.to_nat i = Some w -> astep S (Line i w) S.
Inductive asteps : list (list Z) -> list label -> list (list Z) -> Prop :=
| as_nil S : asteps S [] S
| as_snoc S ls S' l S'' : asteps S ls S' -> astep S' l S'' -> asteps S (ls ++ [l]) S''.

(** ** The invariant *)

(** Sums over the processes. *)
Fixpoint total (f : proc -> Z) (ps : list proc) : Z := match ps with [] => 0 | p :: ps => f p + total f ps end.

Lemma total_delete f ps i p : ps !! i = Some p -> total f ps = f p + total f (delete i ps).
Proof.
  revert i. induction ps as [|q ps IH]; intros [|i] H; try done; [by injection H as ->|]. change (delete (S i) (q :: ps)) with (q :: delete i ps). cbn [total]. rewrite (IH i H). lia.
Qed.
Lemma wtotal_insert f ps i p p' : ps !! i = Some p -> total f (<[i := p']> ps) = total f ps - f p + f p'.
Proof.
  revert i. induction ps as [|q ps IH]; intros [|i] H; try done; [injection H as ->; change (<[0%nat := p']> (p :: ps)) with (p' :: ps); cbn [total]; lia|].
  change (<[S i := p']> (q :: ps)) with (q :: <[i := p']> ps). cbn [total]. rewrite (IH i H). lia.
Qed.
Lemma total_le f g ps : (forall p, f p <= g p) -> total f ps <= total g ps.
Proof. intros H. induction ps as [|p ps IH]; cbn [total]; [lia|]. specialize (H p). lia. Qed.
Lemma wtotal_nonneg f ps : (forall p, 0 <= f p) -> 0 <= total f ps.
Proof. intros H. induction ps as [|p ps IH]; cbn [total]; [lia|]. specialize (H p). lia. Qed.

(** In the critical section; a unit of [full] taken whose word is still there, or a word
    that is not yet posted; the same for [empty]; and a word being removed. *)
Definition crit (p : proc) : Z :=
  match p with
  | Writer _ (WCopy | WTerm | WInc | WUnlock) | Remover (RDec | RCopy | RUnlock) _ | Printer (PLine _ | PUnlock) => 1
  | _ => 0
  end.
Definition owes_full (p : proc) : Z := match p with Remover (RLock | RDec) _ | Writer _ (WUnlock | WPost) => 1 | _ => 0 end.
Definition owes_empty (p : proc) : Z := match p with Writer _ (WLock | WCopy | WTerm | WInc) | Remover (RCopy | RUnlock | RPost) _ => 1 | _ => 0 end.
Definition taking (p : proc) : Z := match p with Remover RCopy _ => 1 | _ => 0 end.

(** The fifty bytes of a word. *)
Definition frame (w : list Z) : list Z := w ++ repeat 0 (MAX_WORD - length w).
Definition word_ok (w : list Z) : Prop := (length w < MAX_WORD)%nat /\ Forall (fun c => c <> 0) w.

Definition self_ok (p : proc) : Prop := match p with Writer w _ => Forall (fun c => c <> 0) w | Printer (PLine i) => 0 <= i | _ => True end.
Definition mid_ok (s : wordstack) (p : proc) : Prop :=
  match p with
  | Writer w WTerm => take (MAX_WORD - 1) (row s (free s)) = strncpy (MAX_WORD - 1) w
  | Writer w WInc => row s (free s) = frame (take (MAX_WORD - 1) w)
  | _ => True
  end.
Definition bit (b : bool) : Z := if b then 1 else 0.

Record inv (x : system) (S : list (list Z)) : Prop := mk_inv {
  iv_len : Z.of_nat (length (heap (fst x))) = ITEMS;
  iv_rows : Forall (fun r => length r = MAX_WORD) (heap (fst x));
  iv_self : Forall self_ok (snd x);
  iv_mid : Forall (mid_ok (fst x)) (snd x);
  iv_mutex : total crit (snd x) = bit (mutex (fst x));
  iv_full : free (fst x) = full (fst x) + total owes_full (snd x) /\ 0 <= full (fst x);
  iv_empty : ITEMS - free (fst x) = empty (fst x) + total owes_empty (snd x) /\ 0 <= empty (fst x);
  iv_size : Z.of_nat (length S) = free (fst x) + total taking (snd x);
  iv_words : Forall word_ok S;
  iv_stack j w : S !! j = Some w -> heap (fst x) !! j = Some (frame w)
}.

Lemma crit_bit p : 0 <= crit p <= 1.
Proof. destruct p as [w []|[] x|[]]; cbn; lia. Qed.
Lemma owes_bits p : 0 <= owes_full p /\ 0 <= owes_empty p /\ 0 <= taking p <= crit p.
Proof. destruct p as [w []|[] x|[]]; cbn; lia. Qed.

(** The process in the critical section is alone there. *)
Lemma alone s ps S i p : inv (s, ps) S -> ps !! i = Some p -> crit p = 1 -> mutex s = true /\ total taking ps = taking p /\ forall j q, j <> i -> ps !! j = Some q -> crit q = 0.
Proof.
  intros [] Hi Hc. cbn [fst snd] in *. rewrite (total_delete _ _ _ _ Hi) in iv_mutex0. pose proof (wtotal_nonneg crit (delete i ps) (fun q => proj1 (crit_bit q))) as Hn.
  assert (Hm : mutex s = true) by (destruct (mutex s); cbn in iv_mutex0; [done|lia]). rewrite Hm in iv_mutex0. cbn in iv_mutex0. split; [done|]. split.
  - rewrite (total_delete _ _ _ _ Hi). pose proof (total_le taking crit (delete i ps) ltac:(intros q; apply owes_bits)). pose proof (wtotal_nonneg taking (delete i ps) ltac:(intros q; apply owes_bits)). lia.
  - intros j q Hj Hq. assert (Hd : exists k, delete i ps !! k = Some q).
    { destruct (decide (j < i)%nat); [exists j; by rewrite list_lookup_delete_lt|]. exists (j - 1)%nat. rewrite list_lookup_delete_ge by lia. by replace (Datatypes.S (j - 1)) with j by lia. }
    destruct Hd as [k Hk]. rewrite (total_delete _ _ _ _ Hk) in iv_mutex0. pose proof (wtotal_nonneg crit (delete k (delete i ps)) (fun q => proj1 (crit_bit q))). pose proof (crit_bit q).
    rewrite (total_delete crit (delete i ps) _ _ Hk) in Hn. lia.
Qed.

(** A step of process [i] that keeps the counts right. *)
Lemma inv_update s ps S i p p' s' S' : inv (s, ps) S -> ps !! i = Some p ->
  crit p' - crit p = bit (mutex s') - bit (mutex s) -> owes_full p' - owes_full p = (free s' - full s') - (free s - full s) -> 0 <= full s' ->
  owes_empty p' - owes_empty p = (free s + empty s) - (free s' + empty s') -> 0 <= empty s' ->
  Z.of_nat (length S') - Z.of_nat (length S) = free s' - free s + taking p' - taking p ->
  Z.of_nat (length (heap s')) = ITEMS -> Forall (fun r => length r = MAX_WORD) (heap s') -> self_ok p' -> mid_ok s' p' -> Forall word_ok S' ->
  (forall j w, S' !! j = Some w -> heap s' !! j = Some (frame w)) -> (heap s' = heap s /\ free s' = free s) \/ crit p = 1 -> inv (s', <[i := p']> ps) S'.
Proof.
  intros Hinv Hi Hc Hf Hf0 He He0 HS Hl Hr Hse Hmi Hw Hst Hother. pose proof Hinv as []. cbn [fst snd] in *. split; cbn [fst snd]; rewrite ?(wtotal_insert _ _ _ _ _ Hi); try done; try lia.
  - by apply Forall_insert.
  - apply Forall_lookup. intros j q Hq. destruct (decide (j = i)) as [->|Hne]; [rewrite list_lookup_insert_eq in Hq by (by eapply lookup_lt_Some); by injection Hq as <-|].
    rewrite list_lookup_insert_ne in Hq by done. pose proof (Forall_lookup_1 _ _ _ _ iv_mid0 Hq) as Hm. cbn in Hm. destruct Hother as [[E1 E2]|Hc1].
    + unfold mid_ok, row in *. by rewrite E1, E2.
    + destruct (alone s ps S i p Hinv Hi Hc1) as (_ & _ & Hno). specialize (Hno j q Hne Hq). destruct q as [w []|[] x|[]]; cbn in *; done || lia.
Qed.

Lemma bounds s ps S : inv (s, ps) S -> 0 <= free s <= ITEMS.
Proof.
  intros []. cbn [fst snd] in *. pose proof (wtotal_nonneg owes_full ps ltac:(intros q; apply owes_bits)). pose proof (wtotal_nonneg owes_empty ps ltac:(intros q; apply owes_bits)). lia.
Qed.
Lemma room s ps S i p : inv (s, ps) S -> ps !! i = Some p -> owes_full p <= free s /\ free s + owes_empty p <= ITEMS.
Proof.
  intros [] Hi. cbn [fst snd] in *. rewrite (total_delete owes_full _ _ _ Hi) in iv_full0. rewrite (total_delete owes_empty _ _ _ Hi) in iv_empty0.
  pose proof (wtotal_nonneg owes_full (delete i ps) ltac:(intros q; apply owes_bits)). pose proof (wtotal_nonneg owes_empty (delete i ps) ltac:(intros q; apply owes_bits)). lia.
Qed.

(** ** Words and their bytes *)

Lemma cstr_id w : Forall (fun c => c <> 0) w -> cstr w = w.
Proof. induction 1 as [|c w Hc _ IH]; cbn [cstr]; [done|]. rewrite (proj2 (Z.eqb_neq _ _)) by done. by rewrite IH. Qed.
Lemma cstr_frame w : word_ok w -> cstr (frame w) = w.
Proof.
  intros [Hl Hw]. unfold frame. destruct (MAX_WORD - length w)%nat as [|n] eqn:E; [unfold MAX_WORD in *; lia|]. clear -Hw. cbn [repeat]. induction Hw as [|c w Hc _ IH]; cbn [cstr app]; [done|].
  rewrite (proj2 (Z.eqb_neq _ _)) by done. by rewrite IH.
Qed.
Lemma length_frame w : word_ok w -> length (frame w) = MAX_WORD.
Proof. intros [Hl _]. unfold frame. rewrite length_app, repeat_length. lia. Qed.
Lemma wstrncpy_frame w : word_ok w -> strncpy MAX_WORD (frame w) = frame w.
Proof. intros Hw. unfold strncpy. rewrite cstr_frame by done. rewrite take_ge; [done|]. destruct Hw. lia. Qed.
Lemma length_strncpy n w : length (strncpy n w) = n.
Proof. unfold strncpy. rewrite length_app, repeat_length, length_take. lia. Qed.
Lemma word_ok_take w : Forall (fun c => c <> 0) w -> word_ok (take (MAX_WORD - 1) w).
Proof. intros Hw. split; [rewrite length_take; unfold MAX_WORD; lia|by apply Forall_take]. Qed.
Lemma frame_strncpy w : Forall (fun c => c <> 0) w -> frame (take (MAX_WORD - 1) w) = strncpy (MAX_WORD - 1) w ++ [0].
Proof.
  intros Hw. unfold frame, strncpy. rewrite cstr_id by done. cbv zeta. rewrite <-app_assoc. f_equal. set (n := length _). assert (Hn : (n <= 49)%nat) by (unfold n; rewrite length_take; unfold MAX_WORD; lia).
  change [0] with (repeat 0 1). rewrite <-repeat_app. f_equal. unfold MAX_WORD. lia.
Qed.

Lemma row_lookup s j r : heap s !! Z.to_nat j = Some r -> row s j = r.
Proof. intros H. unfold row. by rewrite H. Qed.
Lemma row_length s i : Forall (fun r => length r = MAX_WORD) (heap s) -> (Z.to_nat i < length (heap s))%nat -> length (row s i) = MAX_WORD.
Proof. intros Hr Hi. destruct (lookup_lt_is_Some_2 _ _ Hi) as [r Hl]. rewrite (row_lookup _ _ _ Hl). exact (Forall_lookup_1 _ _ _ _ Hr Hl). Qed.
Lemma row_insert s i r : (Z.to_nat i < length (heap s))%nat -> row (set_heap (<[Z.to_nat i := r]> (heap s)) s) i = r.
Proof. intros Hi. apply row_lookup. cbn [heap set_heap]. by apply list_lookup_insert_eq. Qed.
(** A change of row [free] is not seen by the stack. *)
Lemma stack_insert (S : list (list Z)) (h : list (list Z)) n r : (forall j w, S !! j = Some w -> h !! j = Some (frame w)) -> Z.of_nat (length S) <= n -> forall j w, S !! j = Some w -> <[Z.to_nat n := r]> h !! j = Some (frame w).
Proof. intros H Hn j w Hj. rewrite list_lookup_insert_ne; [by apply H|]. apply lookup_lt_Some in Hj. lia. Qed.

(** ** Every step is a step of the stack *)

Ltac update := eapply inv_update; [eassumption|eassumption|..]; cbn [crit owes_full owes_empty taking self_ok mid_ok free heap mutex full empty set_free set_heap set_mutex set_full set_empty bit]; try done; try lia; try (by left); try (by right).

Lemma writer_step s ps S i w pc pc' s' l : inv (s, ps) S -> ps !! i = Some (Writer w pc) -> writer w pc s = Some (pc', s', l) ->
  exists S', astep S l S' /\ inv (s', <[i := Writer w pc']> ps) S'.
Proof.
  intros Hinv Hi E. pose proof (room _ _ _ _ _ Hinv Hi) as Hroom. pose proof Hinv as []. cbn [fst snd] in *. pose proof (Forall_lookup_1 _ _ _ _ iv_self0 Hi) as Hw. cbn in Hw.
  pose proof (Forall_lookup_1 _ _ _ _ iv_mid0 Hi) as Hmid. pose proof (bounds _ _ _ Hinv) as Hb.
  destruct pc; cbn [writer] in E; cbn [owes_full owes_empty] in Hroom; try discriminate.
  - destruct (Z.ltb_spec 0 (empty s)); [|done]. injection E as <- <- <-. exists S. split; [constructor|]. update.
  - destruct (mutex s) eqn:Em; [done|]. injection E as <- <- <-. exists S. split; [constructor|]. update. rewrite Em. cbn. lia.
  - injection E as <- <- <-. destruct (alone _ _ _ _ _ Hinv Hi eq_refl) as (_ & Ht & _). cbn in Ht. exists S. split; [constructor|]. update.
    + by rewrite length_insert.
    + apply Forall_insert; [done|]. rewrite length_app, length_strncpy, length_drop, row_length by (done || lia). done.
    + rewrite row_insert by lia. rewrite take_app_length'; [done|]. symmetry. apply length_strncpy.
    + apply stack_insert; [done|lia].
  - injection E as <- <- <-. destruct (alone _ _ _ _ _ Hinv Hi eq_refl) as (_ & Ht & _). cbn in Ht. cbn [mid_ok] in Hmid. exists S. split; [constructor|]. update.
    + by rewrite length_insert.
    + apply Forall_insert; [done|]. rewrite length_insert, row_length by (done || lia). done.
    + rewrite row_insert by lia. rewrite frame_strncpy by done. rewrite <-Hmid.
      pose proof (row_length s (free s) iv_rows0 ltac:(lia)) as Hlen. rewrite <-(take_drop (MAX_WORD - 1) (row s (free s))) at 1. rewrite insert_app_r_alt by (rewrite length_take, Hlen; unfold MAX_WORD; lia).
      f_equal. rewrite length_take, Hlen. destruct (drop (MAX_WORD - 1) (row s (free s))) as [|x [|y r]] eqn:Ed; [..|done| ]; apply (f_equal length) in Ed; rewrite length_drop, Hlen in Ed; cbn in Ed; unfold MAX_WORD in Ed; lia.
    + apply stack_insert; [done|lia].
  - injection E as <- <- <-. destruct (alone _ _ _ _ _ Hinv Hi eq_refl) as (_ & Ht & _). cbn in Ht. cbn [mid_ok] in Hmid. exists (S ++ [take (MAX_WORD - 1) w]). split; [constructor; unfold ITEMS in *; lia|]. update.
    + rewrite length_app. cbn. lia.
    + apply Forall_app. split; [done|]. constructor; [by apply word_ok_take|constructor].
    + intros j x Hx. apply lookup_app_Some in Hx as [Hx|[Hge Hx]]; [by apply iv_stack0|]. apply list_lookup_singleton_Some in Hx as [Ej <-]. assert (j = Z.to_nat (free s)) as -> by lia.
      rewrite <-Hmid. unfold row. destruct (lookup_lt_is_Some_2 (heap s) (Z.to_nat (free s))) as [r Hr]; [lia|]. by rewrite Hr.
  - injection E as <- <- <-. destruct (alone _ _ _ _ _ Hinv Hi eq_refl) as (Em & Ht & _). exists S. split; [constructor|]. update. rewrite Em. done.
  - injection E as <- <- <-. exists S. split; [constructor|]. update.
Qed.

Lemma remover_step s ps S i x pc pc' x' s' l : inv (s, ps) S -> ps !! i = Some (Remover pc x) -> remover pc x s = Some (pc', x', s', l) ->
  exists S', astep S l S' /\ inv (s', <[i := Remover pc' x']> ps) S'.
Proof.
  intros Hinv Hi E. pose proof (room _ _ _ _ _ Hinv Hi) as Hroom. pose proof Hinv as []. cbn [fst snd] in *. pose proof (bounds _ _ _ Hinv) as Hb.
  destruct pc; cbn [remover] in E; cbn [owes_full owes_empty] in Hroom; try discriminate.
  - destruct (Z.ltb_spec 0 (full s)); [|done]. injection E as <- <- <- <-. exists S. split; [constructor|]. update.
  - destruct (mutex s) eqn:Em; [done|]. injection E as <- <- <- <-. exists S. split; [constructor|]. update. rewrite Em. cbn. lia.
  - injection E as <- <- <- <-. exists S. split; [constructor|]. update.
  - injection E as <- <- <- <-. destruct (alone _ _ _ _ _ Hinv Hi eq_refl) as (_ & Ht & _). cbn in Ht. destruct S as [|w S _] using rev_ind; [cbn in iv_size0; lia|]. rewrite length_app in iv_size0. cbn in iv_size0.
    apply Forall_app in iv_words0 as [Hws Hw]. apply Forall_cons in Hw as [Hw _]. assert (Hrow : row s (free s) = frame w).
    { apply row_lookup, iv_stack0. rewrite lookup_app_r by lia. replace (Z.to_nat (free s) - length S)%nat with 0%nat by lia. done. }
    exists S. rewrite Hrow, wstrncpy_frame, cstr_frame by done. split; [constructor|]. update; [rewrite length_app; cbn; lia|]. intros j y Hy. apply iv_stack0. by apply lookup_app_l_Some.
  - injection E as <- <- <- <-. destruct (alone _ _ _ _ _ Hinv Hi eq_refl) as (Em & _). exists S. split; [constructor|]. update. rewrite Em. done.
  - injection E as <- <- <- <-. exists S. split; [constructor|]. update.
Qed.

Lemma printer_step s ps S i pc pc' s' l : inv (s, ps) S -> ps !! i = Some (Printer pc) -> printer pc s = Some (pc', s', l) ->
  exists S', astep S l S' /\ inv (s', <[i := Printer pc']> ps) S'.
Proof.
  intros Hinv Hi E. pose proof Hinv as []. cbn [fst snd] in *. pose proof (bounds _ _ _ Hinv) as Hb. pose proof (Forall_lookup_1 _ _ _ _ iv_self0 Hi) as Hself.
  destruct pc as [|n| |]; cbn [printer] in E; try discriminate.
  - destruct (mutex s) eqn:Em; [done|]. injection E as <- <- <-. exists S. split; [constructor|]. update. rewrite Em. cbn. lia.
  - cbn in Hself. destruct (alone _ _ _ _ _ Hinv Hi eq_refl) as (_ & Ht & _). cbn in Ht. destruct (Z.ltb_spec n (free s)) as [Hlt|Hge]; injection E as <- <- <-.
    + destruct (lookup_lt_is_Some_2 S (Z.to_nat n)) as [w Hw]; [lia|]. exists S. split; [|update]. rewrite (row_lookup _ _ _ (iv_stack0 _ _ Hw)), cstr_frame; [by constructor|]. exact (Forall_lookup_1 _ _ _ _ iv_words0 Hw).
    + exists S. split; [constructor|]. update.
  - injection E as <- <- <-. destruct (alone _ _ _ _ _ Hinv Hi eq_refl) as (Em & _). exists S. split; [constructor|]. update. rewrite Em. done.
Qed.

Lemma step_refines x l y S : step x l y -> inv x S -> exists S', astep S l S' /\ inv y S'.
Proof.
  intros [s ps i p p' s' l' Hi E] Hinv. destruct p as [w pc|pc w|pc]; cbn [exec] in E.
  - destruct (writer w pc s) as [[[pc1 s1] l1]|] eqn:Ew; [|done]. injection E as <- <- <-. by eapply writer_step.
  - destruct (remover pc w s) as [[[[pc1 w1] s1] l1]|] eqn:Ew; [|done]. injection E as <- <- <-. by eapply remover_step.
  - destruct (printer pc s) as [[[pc1 s1] l1]|] eqn:Ew; [|done]. injection E as <- <- <-. by eapply printer_step.
Qed.

Lemma inv_create junk ps : Z.of_nat (length junk) = ITEMS -> Forall (fun r => length r = MAX_WORD) junk -> Forall fresh ps -> inv (create junk, ps) [].
Proof.
  intros Hl Hr Hf. assert (H0 : total crit ps = 0 /\ total owes_full ps = 0 /\ total owes_empty ps = 0 /\ total taking ps = 0 /\ Forall self_ok ps /\ Forall (mid_ok (create junk)) ps).
  { clear Hl Hr. induction Hf as [|p ps Hp _ IH]; [done|]. destruct IH as (I1 & I2 & I3 & I4 & I5 & I6). cbn [total]. rewrite I1, I2, I3, I4. destruct p as [w []|[] x|[]]; cbn in Hp; try done; split_and!; try done; by constructor. }
  destruct H0 as (Z1 & Z2 & Z3 & Z4 & Z5 & Z6). split; cbn [fst snd create heap free mutex full empty length]; rewrite ?Z1, ?Z2, ?Z3, ?Z4; done.
Qed.

(** C28: The processes share a stack: however any number of processes that write, remove and
    print interleave, what they do is a sequence of pushes and pops of one stack of at most
    fifteen words.  A word is cut to its first 49 bytes when it is pushed, a process that
    removes gets the word that was pushed last and not yet removed, whole, a process that
    prints shows the words that are in the stack, and [free] stays in the table. *)
Theorem wordstack_linearizes junk ps ls s ps' : Z.of_nat (length junk) = ITEMS -> Forall (fun r => length r = MAX_WORD) junk -> Forall fresh ps ->
  steps (create junk, ps) ls (s, ps') -> exists S, asteps [] ls S /\ 0 <= free s <= ITEMS /\ total crit ps' <= 1 /\ Z.of_nat (length S) = free s + total taking ps'.
Proof.
  intros Hl Hr Hf Hs. assert (Hex : exists S, asteps [] ls S /\ inv (s, ps') S).
  { remember (create junk, ps) as x eqn:Ex. remember (s, ps') as y eqn:Ey. clear Ey. induction Hs as [x|x ls y l z _ IH Hst]; subst x.
    - exists []. split; [constructor|by apply inv_create].
    - destruct (IH eq_refl) as (S & Ha & Hi). destruct (step_refines _ _ _ _ Hst Hi) as (S' & Ha' & Hi'). exists S'. split; [by econstructor|done]. }
  destruct Hex as (S & Ha & Hinv). exists S. pose proof (bounds _ _ _ Hinv). pose proof Hinv as []. cbn [fst snd] in *. split_and!; try done; try lia. rewrite iv_mutex0. destruct (mutex s); cbn; lia.
Qed.

(** One process pushes a word, another one removes it. *)
Definition demo_junk : list (list Z) := replicate 15 (replicate 50 7).
Definition demo_procs : list proc := [Writer [104; 105] WWait; Remover RWait []].
(** The run in which the processes move in a given order. *)
Fixpoint run_order (order : list nat) (x : system) (ls : list label) : system * list label :=
  match order with
  | [] => (x, ls)
  | k :: order =>
      match snd x !! k with
      | Some p => match exec p (fst x) with Some (p', s', l) => run_order order (s', <[k := p']> (snd x)) (ls ++ [l]) | None => (x, ls) end
      | None => (x, ls)
      end
  end.
Lemma run_order_steps order : forall x0 l0 x, steps x0 l0 x -> steps x0 (snd (run_order order x l0)) (fst (run_order order x l0)).
Proof.
  induction order as [|k order IH]; intros x0 l0 x Hs; cbn [run_order]; [done|]. destruct (snd x !! k) as [p|] eqn:Ep; [|done]. destruct (exec p (fst x)) as [[[p' s'] l]|] eqn:Ee; [|done].
  apply IH. eapply steps_snoc; [exact Hs|]. destruct x as [s ps]. by eapply step_proc.
Qed.

Definition demo_end : system * list label := run_order (replicate 7 0%nat ++ replicate 6 1%nat) (create demo_junk, demo_procs) [].
Lemma demo_labels : snd demo_end = [Tau; Tau; Tau; Tau; Push [104; 105]; Tau; Tau; Tau; Tau; Tau; Pop [104; 105]; Tau; Tau].
Proof. vm_compute. reflexivity. Qed.
Lemma wordstack_linearizes_witness : exists S, asteps [] [Tau; Tau; Tau; Tau; Push [104; 105]; Tau; Tau; Tau; Tau; Tau; Pop [104; 105]; Tau; Tau] S /\ 0 <= free (fst (fst demo_end)) <= ITEMS.
Proof.
  destruct (wordstack_linearizes demo_junk demo_procs (snd demo_end) (fst (fst demo_end)) (snd (fst demo_end))) as (S & Ha & Hb & _).
  - reflexivity.
  - by apply Forall_replicate.
  - repeat constructor; done.
  - rewrite <-surjective_pairing. apply run_order_steps. constructor.
  - rewrite demo_labels in Ha. exists S. split; [exact Ha|exact Hb].
Defined.
