(* ===== verification/Msgbox.v ===== *)
(** * Message boxes ([src/lab-05/msgbox.c])

    The message queues of the system are a map from names to queues; all messages are sent with
    the same priority, so that a queue is first in, first out.  A queue opened without
    [O_NONBLOCK], as all are here, makes [mq_send] wait while it is full and [mq_receive] while
    it is empty: the outcome [Waits].  The struct [msg_t] on the stack is a list of bytes that
    may be uninitialised ([None]); a string without a terminator in it is [Undefined]
    behaviour.  The contents of [username] after [getlogin_r] are the variable [username];
    messages on the standard error are left out. *)

From stdpp Require Import pretty.
From S2P Require Import Prelude Ulib Wordstack.

Definition USERNAME_MAXSIZE : nat := 15.
Definition TXT_SIZE : nat := 100.
Definition MAX_MENSAJES : nat := 10.
Definition MSG_SIZE : nat := USERNAME_MAXSIZE + TXT_SIZE.

Record queue : Type := mk_queue { mq_maxmsg : nat; mq_msgsize : nat; mq_msgs : list (list Z) }.
Abbreviation queues := (gmap (list Z) queue).

Inductive outcome : Type := Exit (status : Z) | Waits | Undefined.
(** What a command does: how it ends, what it printed, and the queues. *)
Abbreviation result := (outcome * list Z * gmap (list Z) queue)%type.
Definition EXIT_SUCCESS : outcome := Exit 0.
Definition EXIT_FAILURE : outcome := Exit 1.

(** The string at the beginning of a buffer. *)
Fixpoint c_string (b : list (option Z)) : option (list Z) :=
  match b with
  | Some c :: b => if c =? 0 then Some [] else (fun s => c :: s) <$> c_string b
  | _ => None
  end.

(** [printf("Mensaje de %s: %s\n", msg.sender, msg.text)]: the strings may run to the end of
    the struct, not past it. *)
Definition print_msg (msg : list (option Z)) : option (list Z) :=
  match c_string msg, c_string (drop USERNAME_MAXSIZE msg) with
  | Some sender, Some text => Some (bytes "Mensaje de " ++ sender ++ bytes ": " ++ text ++ [10])
  | _, _ => None
  end.

(** [mq_receive] into [msg]: a buffer smaller than the messages of the queue is an error. *)
Definition too_small (q : queue) : bool := (MSG_SIZE <? mq_msgsize q)%nat.
Definition store_msg (m : list Z) (msg : list (option Z)) : list (option Z) := (Some <$> m) ++ drop (length m) msg.
Definition with_msgs (ms : list (list Z)) (q : queue) : queue := mk_queue (mq_maxmsg q) (mq_msgsize q) ms.

Definition fresh_msg : list (option Z) := replicate MSG_SIZE None.

Definition create_queue (name : list Z) (qs : queues) : result :=
  match qs !! name with
  | Some _ => (EXIT_SUCCESS, [], qs)
  | None => (EXIT_SUCCESS, [], <[name := mk_queue MAX_MENSAJES MSG_SIZE []]> qs)
  end.

Section user.
Context (username : list Z).

Definition send_message (name text : list Z) (qs : queues) : result :=
  let msg := strncpy USERNAME_MAXSIZE username ++ strncpy TXT_SIZE text in
  match qs !! name with
  | None => (EXIT_FAILURE, [], qs)
  | Some q =>
      if (mq_msgsize q <? MSG_SIZE)%nat then (EXIT_FAILURE, [], qs) else
      if (mq_maxmsg q <=? length (mq_msgs q))%nat then (Waits, [], qs) else
      (EXIT_SUCCESS, [], <[name := with_msgs (mq_msgs q ++ [msg]) q]> qs)
  end.

Definition receive_message (name : list Z) (qs : queues) : result :=
  match qs !! name with
  | None => (EXIT_FAILURE, [], qs)
  | Some q =>
      if too_small q then (EXIT_FAILURE, [], qs) else
      match mq_msgs q with
      | [] => (Waits, [], qs)
      | m :: ms => match print_msg (store_msg m fresh_msg) with Some out => (EXIT_SUCCESS, out, <[name := with_msgs ms q]> qs) | None => (Undefined, [], <[name := with_msgs ms q]> qs) end
      end
  end.

(** The loop of [print_all_messages] and that of [listen_messages], on the messages [ms] of a
    queue: without [O_NONBLOCK] an empty queue never fails with [EAGAIN], so that both wait. *)
Fixpoint receive_loop (ms : list (list Z)) (msg : list (option Z)) (out : list Z) : outcome * list Z * list (list Z) :=
  match ms with
  | [] => (Waits, out, [])
  | m :: ms => let msg := store_msg m msg in match print_msg msg with Some line => receive_loop ms msg (out ++ line) | None => (Undefined, out, ms) end
  end.
Definition print_all_messages (name : list Z) (qs : queues) : result :=
  match qs !! name with
  | None => (EXIT_FAILURE, [], qs)
  | Some q => if too_small q then (EXIT_FAILURE, [], qs) else let '(r, out, ms) := receive_loop (mq_msgs q) fresh_msg [] in (r, out, <[name := with_msgs ms q]> qs)
  end.
Definition listen_messages (name : list Z) (qs : queues) : result :=
  match qs !! name with
  | None => (EXIT_FAILURE, [], qs)
  | Some q => if too_small q then (EXIT_FAILURE, [], qs) else let '(r, out, ms) := receive_loop (mq_msgs q) fresh_msg [] in (r, out, <[name := with_msgs ms q]> qs)
  end.

Definition eliminar_cola (name : list Z) (qs : queues) : result :=
  match qs !! name with None => (EXIT_FAILURE, [], qs) | Some _ => (EXIT_SUCCESS, [], delete name qs) end.

Definition print_queue_info (name : list Z) (qs : queues) : result :=
  match qs !! name with
  | None => (EXIT_FAILURE, [], qs)
  | Some q =>
      (EXIT_SUCCESS,
       bytes "Información de la cola de mensajes " ++ name ++ bytes ":" ++ [10] ++
       bytes "Máximo número de mensajes: " ++ bytes (pretty (mq_maxmsg q)) ++ [10] ++
       bytes "Tamaño de los mensajes: " ++ bytes (pretty (mq_msgsize q)) ++ [10] ++
       bytes "Número actual de mensajes: " ++ bytes (pretty (length (mq_msgs q))) ++ [10], qs)
  end.

(** [main]; a missing argument is a null pointer. *)
Definition msgbox_main (argv : list (list Z)) (qs : queues) : result :=
  match argv with
  | [] | [_] => (EXIT_FAILURE, [], qs)
  | _ :: o :: rest =>
      match o !! 0%nat with
      | None => (Undefined, [], qs)
      | Some _ =>
          let option := default 0 (o !! 1%nat) in
          let on_queue (f : list Z -> queues -> result) := match rest with name :: _ => f name qs | [] => (Undefined, [], qs) end in
          if option =? 115 then match rest with name :: text :: _ => send_message name text qs | _ => (Undefined, [], qs) end
          else if option =? 114 then on_queue receive_message
          else if option =? 97 then on_queue print_all_messages
          else if option =? 108 then on_queue listen_messages
          else if option =? 99 then on_queue create_queue
          else if option =? 100 then on_queue eliminar_cola
          else if option =? 105 then on_queue print_queue_info
          else if option =? 104 then (EXIT_SUCCESS, [], qs)
          else (EXIT_FAILURE, [], qs)
      end
  end.
End user.

(** ** Messages arrive in order *)

(** A string that fits a field of [n] bytes with its terminator. *)
Definition fits (n : nat) (s : list Z) : Prop := Forall (fun c => c <> 0) s /\ (length s < n)%nat.
Definition line (u t : list Z) : list Z := bytes "Mensaje de " ++ u ++ bytes ": " ++ t ++ [10].
Definition packed (ut : list Z * list Z) : list Z := strncpy USERNAME_MAXSIZE ut.1 ++ strncpy TXT_SIZE ut.2.

Lemma strncpy_fits n s : fits n s -> exists pad, strncpy n s = s ++ 0 :: pad.
Proof.
  intros [Hs Hl]. unfold strncpy. rewrite cstr_id by done. cbv zeta. rewrite take_ge by lia. destruct (n - length s)%nat as [|k] eqn:E; [lia|]. by exists (repeat 0 k).
Qed.
Lemma c_string_stops s rest : Forall (fun c => c <> 0) s -> c_string ((Some <$> (s ++ 0 :: rest))) = Some s.
Proof. induction 1 as [|c s Hc Hs IH]; [done|]. cbn. rewrite (proj2 (Z.eqb_neq _ _) Hc). by setoid_rewrite IH. Qed.
Lemma c_string_runs_off b : Forall (fun c => c <> 0) b -> c_string (Some <$> b) = None.
Proof. induction 1 as [|c s Hc Hs IH]; [done|]. cbn. rewrite (proj2 (Z.eqb_neq _ _) Hc). by setoid_rewrite IH. Qed.
Lemma length_packed ut : length (packed ut) = MSG_SIZE.
Proof. unfold packed. rewrite length_app, !length_strncpy. done. Qed.
Lemma store_packed ut msg : length msg = MSG_SIZE -> store_msg (packed ut) msg = Some <$> packed ut.
Proof. intros Hm. unfold store_msg. rewrite length_packed, drop_ge by lia. apply app_nil_r. Qed.
Lemma drop_packed ut : drop USERNAME_MAXSIZE (Some <$> packed ut) = Some <$> strncpy TXT_SIZE ut.2.
Proof. unfold packed. rewrite fmap_app. apply drop_app_length'. by rewrite length_fmap, length_strncpy. Qed.

Lemma print_packed u t : fits USERNAME_MAXSIZE u -> fits TXT_SIZE t -> print_msg (Some <$> packed (u, t)) = Some (line u t).
Proof.
  intros Hu Ht. unfold print_msg. rewrite drop_packed. destruct (strncpy_fits _ _ Ht) as [pt Et]. destruct (strncpy_fits _ _ Hu) as [pu Eu]. unfold packed. cbn [fst snd]. rewrite Et, Eu.
  rewrite <-app_assoc. cbn [app]. rewrite !c_string_stops by (apply Hu || apply Ht). done.
Qed.

Definition fit (ut : list Z * list Z) : Prop := fits USERNAME_MAXSIZE ut.1 /\ fits TXT_SIZE ut.2.

Lemma receive_loop_packed l : Forall fit l -> forall msg out, length msg = MSG_SIZE ->
  receive_loop (packed <$> l) msg out = (Waits, out ++ flat_map (fun ut => line ut.1 ut.2) l, []).
Proof.
  induction 1 as [|[u t] l [Hu Ht] Hl IH]; intros msg out Hm; cbn [fmap list_fmap receive_loop flat_map]; [by rewrite app_nil_r|]. cbv zeta. rewrite store_packed by done.
  rewrite print_packed by done. rewrite IH by (by rewrite length_fmap, length_packed). cbn [fst snd]. by rewrite <-app_assoc.
Qed.

(** The messages of several users, sent one after the other. *)
Fixpoint send_all (name : list Z) (l : list (list Z * list Z)) (qs : queues) : list outcome * queues :=
  match l with
  | [] => ([], qs)
  | (u, t) :: l => let '(r, _, qs) := send_message u name t qs in let '(rs, qs) := send_all name l qs in (r :: rs, qs)
  end.

Lemma send_all_ok name : forall l ms qs, qs !! name = Some (mk_queue MAX_MENSAJES MSG_SIZE ms) -> (length ms + length l <= MAX_MENSAJES)%nat ->
  send_all name l qs = (replicate (length l) EXIT_SUCCESS, <[name := mk_queue MAX_MENSAJES MSG_SIZE (ms ++ (packed <$> l))]> qs).
Proof.
  induction l as [|[u t] l IH]; intros ms qs Hq Hl; cbn [send_all]; [cbn; by rewrite app_nil_r, insert_id|].
  unfold send_message. rewrite Hq. cbn [mq_msgsize mq_maxmsg mq_msgs length] in *. rewrite (proj2 (Nat.ltb_ge MSG_SIZE MSG_SIZE)) by lia.
  rewrite (proj2 (Nat.leb_gt MAX_MENSAJES (length ms))) by lia. cbv zeta. unfold with_msgs at 1. cbn [mq_msgsize mq_maxmsg].
  rewrite (IH (ms ++ [packed (u, t)])); [|apply lookup_insert_eq|rewrite length_app; cbn [length]; lia]. rewrite insert_insert_eq, <-app_assoc. done.
Qed.

(** On a new queue up to ten messages are sent without waiting; [-a] then prints all of them
    in the order in which they were sent, each with its sender, and empties the queue.  It
    does not end there: it waits for a further message. *)
Theorem msgbox_fifo name l qs : qs !! name = None -> Forall fit l -> (length l <= MAX_MENSAJES)%nat ->
  let '(r, _, qs1) := create_queue name qs in
  let '(rs, qs2) := send_all name l qs1 in
  r = EXIT_SUCCESS /\ rs = replicate (length l) EXIT_SUCCESS /\
  print_all_messages name qs2 = (Waits, flat_map (fun ut => line ut.1 ut.2) l, <[name := mk_queue MAX_MENSAJES MSG_SIZE []]> qs).
Proof.
  intros Hq Hf Hl. unfold create_queue. rewrite Hq. rewrite (send_all_ok _ _ []); [|apply lookup_insert_eq|done]. split; [done|]. split; [done|].
  unfold print_all_messages. rewrite lookup_insert_eq. change (too_small _) with false. cbn [mq_msgs app]. rewrite receive_loop_packed by (done || apply length_replicate).
  cbn [app]. by rewrite !insert_insert_eq.
Qed.

(** A text of a hundred bytes or more is stored without a terminator: who receives it reads
    past the end of the struct. *)
Theorem long_message_undefined u name t q qs : Forall (fun c => c <> 0) t -> (TXT_SIZE <= length t)%nat -> qs !! name = Some q ->
  mq_msgsize q = MSG_SIZE -> mq_msgs q = [] -> (0 < mq_maxmsg q)%nat ->
  let '(r, _, qs1) := send_message u name t qs in r = EXIT_SUCCESS /\ (receive_message name qs1).1.1 = Undefined.
Proof.
  intros Ht Hl Hq Hs Hm Hx. unfold send_message. rewrite Hq, Hs, Hm. rewrite (proj2 (Nat.ltb_ge MSG_SIZE MSG_SIZE)) by lia. rewrite (proj2 (Nat.leb_gt _ _)) by (cbn; lia).
  split; [done|]. unfold receive_message. rewrite lookup_insert_eq. unfold too_small, with_msgs at 1. cbn [mq_msgsize]. rewrite Hs. rewrite (proj2 (Nat.ltb_ge MSG_SIZE MSG_SIZE)) by lia.
  cbn [mq_msgs with_msgs app]. change (strncpy USERNAME_MAXSIZE u ++ strncpy TXT_SIZE t) with (packed (u, t)). rewrite store_packed by apply length_replicate. unfold print_msg.
  rewrite drop_packed. cbn [snd]. rewrite (c_string_runs_off (strncpy TXT_SIZE t)); [by destruct (c_string _)|].
  unfold strncpy. rewrite cstr_id by done. cbv zeta. rewrite length_take, Nat.min_l, Nat.sub_diag by lia. rewrite app_nil_r. by apply Forall_take.
Qed.
