(* ===== verification/Canvas.v ===== *)
(** * The shared canvas ([src/lab-05/canvas.c])

    The named memory segments are a map from names to canvases of [HEIGHT * WIDTH] cells.  The
    index of a cell is computed as in C on a 64-bit machine: [x * WIDTH + y] is an [int], the
    addition of the [size_t] counter converts it, and the remainder is unsigned.  An [exit]
    after a failed [shm_open] or [shm_unlink] is [None]. *)

From S2P Require Import Prelude.

Definition HEIGHT : nat := 25.
Definition WIDTH : nat := 25.
Definition CELLS : nat := HEIGHT * WIDTH.

Definition u64 (x : Z) : Z := x mod 18446744073709551616.

Abbreviation canvas := (list Z) (only parsing).
Abbreviation shm := (gmap (list Z) (list Z)).

Definition crear_canvas (name : list Z) (m : shm) : shm := <[name := replicate CELLS 45]> m.
Definition borrar_canvas (name : list Z) (m : shm) : option shm := match m !! name with Some _ => Some (delete name m) | None => None end.

(** The two loops of [putchar]. *)
Definition mostrar (c : canvas) : list Z := flat_map (fun i => ((fun j => default 0 (c !! (i * WIDTH + j)%nat)) <$> seq 0 WIDTH) ++ [10]) (seq 0 HEIGHT).
Definition mostrar_canvas (name : list Z) (m : shm) : option (list Z) := match m !! name with Some c => Some (mostrar c) | None => None end.

(** The cell of character [i] of the message. *)
Definition cell_h (x y i : Z) : Z := u64 (i32 (i32 (x * Z.of_nat WIDTH) + y) + i) mod Z.of_nat CELLS.
Definition cell_v (x y i : Z) : Z := u64 (u64 (x + i) * Z.of_nat WIDTH + y) mod Z.of_nat CELLS.

Fixpoint escribir (cell : Z -> Z) (i : Z) (mensaje : list Z) (c : canvas) : canvas :=
  match mensaje with [] => c | ch :: mensaje => escribir cell (i + 1) mensaje (<[Z.to_nat (cell i) := ch]> c) end.
(** Another direction only prints an error. *)
Definition escribir_canvas (name mensaje : list Z) (x y direccion : Z) (m : shm) : option shm :=
  match m !! name with
  | None => None
  | Some c =>
      Some (<[name := if direccion =? 104 then escribir (cell_h x y) 0 mensaje c else if direccion =? 118 then escribir (cell_v x y) 0 mensaje c else c]> m)
  end.

(** [atoi] of the C library: white space, a sign, digits. *)
Fixpoint digits (s : list Z) (n : Z) : Z :=
  match s with c :: s => if (48 <=? c) && (c <=? 57) then digits s (n * 10 + (c - 48)) else n | [] => n end.
Fixpoint skip_space (s : list Z) : list Z := match s with c :: s' => if (c =? 32) || ((9 <=? c) && (c <=? 13)) then skip_space s' else s | [] => [] end.
Definition atoi (s : list Z) : Z :=
  match skip_space s with
  | c :: s' => if c =? 45 then i32 (- digits s' 0) else if c =? 43 then i32 (digits s' 0) else i32 (digits (c :: s') 0)
  | [] => 0
  end.

(** [main]: the text printed, or an exit with failure; [None] of the inner calls fails too. *)
Inductive outcome : Type := Usage (status : Z) | Failed | Printed (text : list Z) (m : shm).
Definition done_with (r : option shm) : outcome := match r with Some m => Printed [] m | None => Failed end.
Definition canvas_main (argv : list (list Z)) (m : shm) : outcome :=
  match argv with
  | _ :: a :: rest =>
      if negb (default 0 (a !! 0%nat) =? 45) then Usage 1 else
      let o := default 0 (a !! 1%nat) in
      if o =? 119 then match rest with [n; w; x; y; d] => done_with (escribir_canvas n w (atoi x) (atoi y) (default 0 (d !! 0%nat)) m) | _ => Usage 1 end
      else if o =? 112 then match rest with [n] => match mostrar_canvas n m with Some t => Printed t m | None => Failed end | _ => Usage 1 end
      else if o =? 99 then match rest with [n] => Printed [] (crear_canvas n m) | _ => Usage 1 end
      else if o =? 100 then match rest with [n] => done_with (borrar_canvas n m) | _ => Usage 1 end
      else if o =? 104 then Usage 0
      else Usage 1
  | _ => Usage 1
  end.

(** ** What a message does to the canvas *)

Lemma cell_range x y i : 0 <= cell_h x y i < Z.of_nat CELLS /\ 0 <= cell_v x y i < Z.of_nat CELLS.
Proof. split; apply Z.mod_pos_bound; done. Qed.

Lemma escribir_length cell : forall mensaje i c, length (escribir cell i mensaje c) = length c.
Proof. induction mensaje as [|ch w IH]; intros i c; cbn [escribir]; [done|]. by rewrite IH, length_insert. Qed.

(** Characters with cells of their own are all there, and the other cells stay. *)
Lemma escribir_cells cell : forall mensaje i c, (forall k, 0 <= cell k < Z.of_nat (length c)) ->
  (forall j k, i <= j < i + Z.of_nat (length mensaje) -> i <= k < i + Z.of_nat (length mensaje) -> cell j = cell k -> j = k) ->
  (forall k ch, mensaje !! k = Some ch -> escribir cell i mensaje c !! Z.to_nat (cell (i + Z.of_nat k)) = Some ch) /\
  (forall p, (forall k, i <= k < i + Z.of_nat (length mensaje) -> Z.to_nat (cell k) <> p) -> escribir cell i mensaje c !! p = c !! p).
Proof.
  induction mensaje as [|ch w IH]; intros i c Hr Hinj; cbn [escribir]; [done|]. cbn [length] in Hinj.
  destruct (IH (i + 1) (<[Z.to_nat (cell i) := ch]> c)) as [I1 I2]; [by intros k; rewrite length_insert|intros j k Hj Hk; apply Hinj; lia|]. split.
  - intros [|k] x Hx.
    + injection Hx as <-. rewrite Z.add_0_r. rewrite I2; [apply list_lookup_insert_eq; specialize (Hr i); lia|].
      intros k Hk E. pose proof (Hr k). pose proof (Hr i). assert (i = k) by (apply Hinj; cbn; lia). lia.
    + replace (i + Z.of_nat (S k)) with (i + 1 + Z.of_nat k) by lia. by apply I1.
  - intros p Hp. cbn [length] in Hp. rewrite I2 by (intros k Hk; apply Hp; lia). apply list_lookup_insert_ne. apply Hp. lia.
Qed.

(** On the canvas: from column [y] of row [x] on, along the rows or down the columns, around the border. *)
Lemma cell_h_small x y i : 0 <= x < 25 -> 0 <= y < 25 -> 0 <= i < 625 -> cell_h x y i = (x * 25 + y + i) mod 625.
Proof. intros Hx Hy Hi. unfold cell_h, u64. change (Z.of_nat WIDTH) with 25. rewrite (i32_small (x * 25)), i32_small by lia. rewrite (Z.mod_small _ 18446744073709551616) by lia. done. Qed.
Lemma cell_v_small x y i : 0 <= x < 25 -> 0 <= y < 25 -> 0 <= i < 25 -> cell_v x y i = ((x + i) * 25 + y) mod 625.
Proof. intros Hx Hy Hi. unfold cell_v, u64. change (Z.of_nat WIDTH) with 25. rewrite (Z.mod_small (x + i)) by lia. rewrite (Z.mod_small _ 18446744073709551616) by lia. done. Qed.

Lemma Zmod_eq_small a n j k : 0 < n -> 0 <= j < n -> 0 <= k < n -> (a + j) mod n = (a + k) mod n -> j = k.
Proof.
  intros Hn Hj Hk E. assert (Hd : (j - k) mod n = 0) by (replace (j - k) with ((a + j) - (a + k)) by lia; rewrite Zminus_mod, E, Z.sub_diag; apply Z.mod_0_l; lia).
  pose proof (Z.div_mod (j - k) n ltac:(lia)) as Hq. rewrite Hd in Hq. set (q := (j - k) / n) in Hq. assert (q = 0) by nia. nia.
Qed.

(** The message is on the canvas: written at a cell of the canvas, a message of at most 625
    characters (25 when it is written down a column) appears character by character, around
    the border where it does not fit, nothing else changes, and every cell that is written
    lies on the canvas whatever the arguments are. *)
Theorem canvas_message m name c mensaje x y dir (cell := fun i => if dir =? 104 then (x * 25 + y + i) mod 625 else ((x + i) * 25 + y) mod 625) :
  m !! name = Some c -> length c = CELLS -> 0 <= x < 25 -> 0 <= y < 25 -> (dir = 104 /\ (length mensaje <= 625)%nat) \/ (dir = 118 /\ (length mensaje <= 25)%nat) ->
  exists c', escribir_canvas name mensaje x y dir m = Some (<[name := c']> m) /\ length c' = CELLS /\
    (forall k ch, mensaje !! k = Some ch -> c' !! Z.to_nat (cell (Z.of_nat k)) = Some ch) /\
    (forall p, (forall k, 0 <= k < Z.of_nat (length mensaje) -> Z.to_nat (cell k) <> p) -> c' !! p = c !! p).
Proof.
  intros Hm Hc Hx Hy Hd. unfold escribir_canvas. rewrite Hm. set (f := if dir =? 104 then cell_h x y else cell_v x y). exists (escribir f 0 mensaje c). split.
  { unfold f. by destruct Hd as [[-> _]|[-> _]]. }
  split; [by rewrite escribir_length|]. assert (Hcell : forall k, 0 <= k < Z.of_nat (length mensaje) -> f k = cell k).
  { intros k Hk. unfold f, cell. destruct Hd as [[-> Hl]|[-> Hl]]; cbn [Z.eqb Pos.eqb]; [apply cell_h_small; lia|apply cell_v_small; lia]. }
  destruct (escribir_cells f mensaje 0 c) as [E1 E2].
  - intros k. rewrite Hc. unfold f. destruct (dir =? 104); apply cell_range.
  - intros j k Hj Hk. rewrite !Hcell by lia. unfold cell. destruct Hd as [[-> Hl]|[-> Hl]]; cbn [Z.eqb Pos.eqb]; intros E.
    + apply (Zmod_eq_small (x * 25 + y) 625 j k); lia.
    + assert ((x + j) mod 25 = (x + k) mod 25) by (change 625 with (25 * 25) in E; zlia). apply (Zmod_eq_small x 25 j k); lia.
  - split; [intros k ch Hk; rewrite <-Hcell by (apply lookup_lt_Some in Hk; lia); by apply E1|]. intros p Hp. apply E2. intros k Hk. rewrite Hcell by lia. by apply Hp.
Qed.
