(* ===== verification/LabText.v ===== *)
(** * The text programs of the laboratories ([src/lab-01/histograma.c], [src/lab-01/palabras.c],
      [src/crypt.c])

    The standard input and files are lists of bytes.  [getchar] returns a byte or -1, and the
    programs keep it in a [char], so that the byte 255 looks like the end of the file.
    [histograma] counts the words of each length; its inner loop has fuel, since it does not
    end. *)

From S2P Require Import Prelude Ulib Canvas.

Definition EOF : Z := -1.
Definition getchar (input : list Z) : Z * list Z := match input with [] => (EOF, []) | b :: input => (b, input) end.

(** ** [histograma] *)

Definition max_long : Z := 10.
Definition blank_char (c : Z) : bool := (c =? 32) || (c =? 10) || (c =? 9).

(** [while ((c==getchar())!= ' ' && c!= '\n' && c!='\t' && c!=EOF);] *)
Fixpoint skip_word (fuel : nat) (c : Z) (input : list Z) : option (Z * list Z) :=
  match fuel with
  | O => None
  | S k =>
      let (g, input) := getchar input in
      if negb ((if c =? g then 1 else 0) =? 32) && negb (c =? 10) && negb (c =? 9) && negb (c =? EOF) then skip_word k c input else Some (c, input)
  end.

(** The counters, or [None] when the fuel is used up. *)
Fixpoint count_words (fuel : nat) (longitud : Z) (contador : list Z) (input : list Z) : option (list Z) :=
  match fuel with
  | O => None
  | S k =>
      let (g, input) := getchar input in
      let c := i8 g in
      if c =? EOF then Some contador else
      if blank_char c then
        let contador := if (0 <? longitud) && (longitud <=? max_long) then alter (fun n => i32 (n + 1)) (Z.to_nat longitud) contador else contador in
        count_words k 0 contador input
      else
        let longitud := longitud + 1 in
        if max_long <? longitud then
          match skip_word k c input with Some (_, input) => count_words k 0 contador input | None => None end
        else count_words k longitud contador input
  end.

(** [%2d], for the numbers 1 to 10. *)
Definition pad2 (i : Z) : list Z := if i <? 10 then [32; 48 + i] else [48 + i / 10; 48 + i mod 10].
Definition bar (i n : Z) : list Z := pad2 i ++ bytes " | " ++ replicate (Z.to_nat n) 42 ++ [10].
Definition histograma (fuel : nat) (input : list Z) : option (list Z) :=
  (fun contador => flat_map (fun i => bar i (default 0 (contador !! Z.to_nat i))) (seqZ 1 10)) <$> count_words fuel 0 (replicate 11 0) input.

(** ** [palabras] and [crypt] *)

Fixpoint palabras (input : list Z) : list Z :=
  match input with
  | [] => []
  | b :: input => let p := i8 b in if p =? EOF then [] else (if negb (p =? 32) then u8 p else 10) :: palabras input
  end.

(** The bytes of the output file, with the shift [desp]; [buf] is a [char].  An input that
    cannot be opened reads nothing.  [atoi] is that of the C library ([Canvas.v]). *)
Fixpoint crypt_loop (desp : Z) (file : list Z) : list Z :=
  match file with [] => [] | b :: file => u8 (i8 (i8 b + desp)) :: crypt_loop desp file end.
Definition crypt (file : option (list Z)) (clave : list Z) : list Z := match file with Some f => crypt_loop (Canvas.atoi clave) f | None => [] end.

(** ** What they do *)

(** A word of more than ten letters stops the program for ever. *)
Lemma skip_word_hangs fuel c input : blank_char c = false -> c <> EOF -> skip_word fuel c input = None.
Proof.
  intros Hb He. revert input. induction fuel as [|k IH]; intros input; [done|]. cbn [skip_word]. destruct (getchar input) as [g input'].
  unfold blank_char in Hb. apply orb_false_iff in Hb as [Hb H9]. apply orb_false_iff in Hb as [_ H10]. rewrite H10, H9, (proj2 (Z.eqb_neq _ _) He).
  assert (E : negb ((if c =? g then 1 else 0) =? 32) = true) by (by destruct (c =? g)). rewrite E. apply IH.
Qed.

(** The words that are followed by a blank. *)
Fixpoint closed_words (w : Z) (text : list Z) : list Z :=
  match text with
  | [] => []
  | b :: text => if blank_char (i8 b) then w :: closed_words 0 text else closed_words (w + 1) text
  end.
Definition how_many (i : Z) (l : list Z) : Z := Z.of_nat (length (filter (fun x => x = i) l)).
(** No word, closed or not, is longer than ten letters. *)
Fixpoint short_words (w : Z) (text : list Z) : bool :=
  match text with
  | [] => true
  | b :: text => if blank_char (i8 b) then short_words 0 text else (w + 1 <=? max_long) && short_words (w + 1) text
  end.

Lemma how_many_cons i x l : how_many i (x :: l) = (if x =? i then 1 else 0) + how_many i l.
Proof. unfold how_many. rewrite filter_cons. destruct (decide (x = i)) as [->|Hne]; [rewrite Z.eqb_refl; cbn [length]; lia|by rewrite (proj2 (Z.eqb_neq _ _) Hne)]. Qed.
Lemma how_many_nonneg i l : 0 <= how_many i l.
Proof. unfold how_many. lia. Qed.
Lemma closed_words_length w text : (length (closed_words w text) <= length text)%nat.
Proof. revert w. induction text as [|b text IH]; intros w; cbn; [lia|]. destruct (blank_char _); cbn; [specialize (IH 0)|specialize (IH (w + 1))]; lia. Qed.
Lemma how_many_length i l : how_many i l <= Z.of_nat (length l).
Proof. unfold how_many. pose proof (length_filter (fun x => x = i) l). lia. Qed.

Lemma count_words_ok : forall text fuel w contador, (length text < fuel)%nat -> 0 <= w <= max_long -> short_words w text = true -> Forall (fun b => i8 b <> EOF) text ->
  length contador = 11%nat -> (forall i n, contador !! i = Some n -> 0 <= n /\ n + Z.of_nat (length text) < 2147483648) ->
  exists c', count_words fuel w contador text = Some c' /\ forall i, 1 <= i <= 10 -> default 0 (c' !! Z.to_nat i) = default 0 (contador !! Z.to_nat i) + how_many i (closed_words w text).
Proof.
  unfold max_long. induction text as [|b text IH]; intros fuel w contador Hf Hw Hs He Hl Hn; (destruct fuel as [|k]; [cbn in Hf; lia|]); cbn [count_words getchar].
  { exists contador. split; [done|]. intros i Hi. change (how_many i (closed_words w [])) with 0. lia. }
  apply Forall_cons in He as [Hb He]. rewrite (proj2 (Z.eqb_neq _ _) Hb). cbn [short_words closed_words length] in *. destruct (blank_char (i8 b)) eqn:Eb.
  - set (c1 := if (0 <? w) && (w <=? max_long) then _ else _). cbv zeta.
    assert (L1 : length c1 = 11%nat) by (unfold c1; destruct (_ && _); [by rewrite length_alter|done]).
    assert (E1 : forall i : nat, c1 !! i = (fun n => if (Z.of_nat i =? w) && (0 <? w) then i32 (n + 1) else n) <$> contador !! i).
    { intros i. unfold c1. rewrite (proj2 (Z.leb_le w max_long)) by (unfold max_long; lia). rewrite andb_true_r. destruct (Z.ltb_spec 0 w).
      - destruct (Z.eqb_spec (Z.of_nat i) w) as [<-|Hne]; cbn [andb]; [rewrite Nat2Z.id; by rewrite list_lookup_alter_eq|].
        rewrite list_lookup_alter_ne by lia. by destruct (contador !! i).
      - rewrite andb_false_r. by destruct (contador !! i). }
    clearbody c1. destruct (IH k 0 c1) as (c' & -> & Hc'); [lia|lia|done|done|done| |].
    { intros i n Hi. rewrite E1 in Hi. destruct (contador !! i) as [m|] eqn:Em; [|done]. cbn in Hi. injection Hi as <-. destruct (Hn i m Em) as [N1 N2].
      destruct (_ && _); [rewrite i32_small by lia; lia|lia]. }
    exists c'. split; [done|]. intros i Hi. rewrite Hc' by done. rewrite how_many_cons, E1, Z2Nat.id by lia.
    destruct (lookup_lt_is_Some_2 contador (Z.to_nat i) ltac:(lia)) as [m Em]. rewrite Em. destruct (Hn _ _ Em) as [N1 N2]. cbn [fmap option_fmap option_map from_option id].
    destruct (Z.eqb_spec i w) as [->|Hne].
    + rewrite Z.eqb_refl. rewrite (proj2 (Z.ltb_lt 0 w)) by lia. cbn [andb]. rewrite i32_small by lia. lia.
    + cbn [andb]. rewrite (proj2 (Z.eqb_neq w i)) by lia. lia.
  - apply andb_prop in Hs as [Hs1 Hs2]. apply Z.leb_le in Hs1. cbv zeta. rewrite (proj2 (Z.ltb_ge max_long (w + 1))) by (unfold max_long in *; lia).
    apply IH; [lia|unfold max_long in *; lia|done|done|done|]. intros i n Hi. destruct (Hn i n Hi). lia.
Qed.

(** A word that is too long uses up any fuel. *)
Lemma count_words_hangs : forall text fuel w contador, 0 <= w <= max_long -> short_words w text = false -> Forall (fun b => i8 b <> EOF) text ->
  count_words fuel w contador text = None.
Proof.
  induction text as [|b text IH]; intros fuel w contador Hw Hs He; [done|]. destruct fuel as [|k]; [done|]. cbn [count_words getchar short_words] in *.
  apply Forall_cons in He as [Hb He]. rewrite (proj2 (Z.eqb_neq _ _) Hb). destruct (blank_char (i8 b)) eqn:Eb; [apply IH; [unfold max_long; lia|done|done]|].
  cbv zeta. destruct (Z.ltb_spec max_long (w + 1)) as [Hlt|Hle]; [by rewrite skip_word_hangs|].
  rewrite (proj2 (Z.leb_le (w + 1) max_long)) in Hs by done. apply IH; [lia|done|done].
Qed.

(** [histograma] on a text without the byte 255: when no word has more than ten letters it
    ends, and its bar for every length from 1 to 10 has a star for every word of that length
    that is followed by a blank.  When some word is longer, it never ends, whatever the fuel:
    the comparison [c==getchar()] of the inner loop does not read into [c]. *)
Theorem histograma_counts text : Z.of_nat (length text) < 2147483648 -> Forall (fun b => i8 b <> EOF) text ->
  (short_words 0 text = true -> histograma (S (length text)) text = Some (flat_map (fun i => bar i (how_many i (closed_words 0 text))) (seqZ 1 10))) /\
  (short_words 0 text = false -> forall fuel, histograma fuel text = None).
Proof.
  intros Hlen He. split; intros Hs.
  - unfold histograma. destruct (count_words_ok text (S (length text)) 0 (replicate 11 0)) as (c' & -> & Hc); [lia|unfold max_long; lia|done|done|done| |].
    { intros i n Hi. apply lookup_replicate in Hi as [-> _]. lia. }
    cbn [fmap option_fmap option_map]. f_equal. rewrite !flat_map_concat_map. f_equal. apply map_ext_in. intros i Hi%list_elem_of_In%elem_of_seqZ. f_equal. rewrite Hc by lia.
    rewrite lookup_replicate_2 by lia. done.
  - intros fuel. unfold histograma. rewrite count_words_hangs; [done|unfold max_long; lia|done|done].
Qed.

Definition demo_text : list Z := bytes "uno y dos ".
Definition demo_long : list Z := bytes "electroencefalograma ".
Lemma demo_no_eof : Forall (fun b => i8 b <> EOF) demo_text /\ Forall (fun b => i8 b <> EOF) demo_long.
Proof. split; apply Forall_forall; intros x Hx E; vm_compute in Hx; apply list_elem_of_In in Hx; repeat (destruct Hx as [<-|Hx]; [by vm_compute in E|]); destruct Hx. Qed.

Lemma histograma_counts_witness :
  histograma (S (length demo_text)) demo_text = Some (flat_map (fun i => bar i (how_many i (closed_words 0 demo_text))) (seqZ 1 10)) /\ forall fuel, histograma fuel demo_long = None.
Proof.
  split.
  - apply (histograma_counts demo_text); [vm_compute; reflexivity|apply demo_no_eof|vm_compute; reflexivity].
  - apply (histograma_counts demo_long); [vm_compute; reflexivity|apply demo_no_eof|vm_compute; reflexivity].
Defined.

Lemma i8_mod x : exists q, i8 x = x + 256 * q.
Proof. unfold i8. pose proof (Z.div_mod x 256 ltac:(lia)) as E. cbv zeta. destruct (_ <? _); [exists (- (x / 256))|exists (- (x / 256) - 1)]; lia. Qed.

(** Decrypting with the opposite key gives the file back. *)
Theorem crypt_roundtrip file k k' : Forall (fun b => 0 <= b < 256) file -> Canvas.atoi k' = - Canvas.atoi k -> crypt (Some (crypt (Some file) k)) k' = file.
Proof.
  intros Hf Hk. unfold crypt. rewrite Hk. generalize (Canvas.atoi k) as d. intros d. induction Hf as [|b file Hb Hf IH]; [done|]. cbn [crypt_loop]. f_equal; [|exact IH].
  destruct (i8_mod b) as [q1 ->]. destruct (i8_mod (b + 256 * q1 + d)) as [q2 ->]. unfold u8 at 2.
  destruct (i8_mod ((b + 256 * q1 + d + 256 * q2) mod 256)) as [q3 ->]. match goal with |- u8 (i8 ?x) = _ => destruct (i8_mod x) as [q4 ->] end. unfold u8.
  pose proof (Z.div_mod (b + 256 * q1 + d + 256 * q2) 256 ltac:(lia)) as E. symmetry. eapply (Z.mod_unique_pos _ _ (q1 + q2 + q3 + q4 - (b + 256 * q1 + d + 256 * q2) / 256)); lia.
Qed.
