(* ===== verification/PageSim.v ===== *)
(** * The page replacement simulator ([src/lab-07/sim.c])

    Two processes of sixteen pages share eight frames.  [asignarPagina] loads a page, in a
    free frame or in that of the resident page with the largest counter.  Arrays are lists;
    an index outside them is [None], as are the out-of-range [pid] and [pagina] of the input. *)

From S2P Require Import Prelude.

Definition NUM_PAGINAS : nat := 16.
Definition NUM_PROCESOS : nat := 2.
Definition NUM_MARCOS : nat := 8.

Record Marco : Type := mk_marco { m_pid : Z; m_pagina : Z }.

#[export] Instance Marco_eq_dec : EqDecision Marco.
Proof. solve_decision. Defined.

Record EntradaTablaPaginas : Type := mk_entrada {
  e_pid : Z;
  e_pagina : Z;
  presente : bool;
  modificado : bool;
  contadorLRU : Z;
  indiceMarco : Z
}.
Definition set_presente x e := mk_entrada (e_pid e) (e_pagina e) x (modificado e) (contadorLRU e) (indiceMarco e).
Definition set_contador x e := mk_entrada (e_pid e) (e_pagina e) (presente e) (modificado e) x (indiceMarco e).

Record sim : Type := mk_sim {
  memoriaFisica : list Marco;
  tablaPaginasProceso : list (list EntradaTablaPaginas);
  almacenamientoSecundario : list Marco
}.

Definition inicializarTablasPaginas : list (list EntradaTablaPaginas) :=
  replicate NUM_PROCESOS (replicate NUM_PAGINAS (mk_entrada (-1) (-1) false false (-1) (-1))).
Definition inicializarMemoriaFisica : list Marco := replicate NUM_MARCOS (mk_marco (-1) (-1)).
Definition inicializarAlmacenamientoSecundario : list Marco := replicate (NUM_PAGINAS * NUM_PROCESOS) (mk_marco (-1) (-1)).
Definition inicializar : sim := mk_sim inicializarMemoriaFisica inicializarTablasPaginas inicializarAlmacenamientoSecundario.

(** [tablaPaginasProceso[pid - 1][pagina]], and an assignment to it. *)
Definition entrada (t : list (list EntradaTablaPaginas)) (pid pagina : Z) : option EntradaTablaPaginas :=
  if (1 <=? pid) && (0 <=? pagina) then t !! Z.to_nat (pid - 1) ≫= fun row => row !! Z.to_nat pagina else None.
Definition set_entrada (f : EntradaTablaPaginas -> EntradaTablaPaginas) (pid pagina : Z) (t : list (list EntradaTablaPaginas)) : list (list EntradaTablaPaginas) :=
  alter (alter f (Z.to_nat pagina)) (Z.to_nat (pid - 1)) t.
(** The loops over the row of a process. *)
Definition each_entrada (f : EntradaTablaPaginas -> EntradaTablaPaginas) (pid : Z) (t : list (list EntradaTablaPaginas)) : list (list EntradaTablaPaginas) :=
  alter (fmap f) (Z.to_nat (pid - 1)) t.

(** The counters of the process of a page that is resident. *)
Definition touch (pagina : Z) (e : EntradaTablaPaginas) : EntradaTablaPaginas :=
  if e_pagina e =? pagina then set_contador 0 e
  else if negb (contadorLRU e =? -1) then set_contador (i32 (contadorLRU e + 1)) e else e.
Definition age (e : EntradaTablaPaginas) : EntradaTablaPaginas :=
  if negb (contadorLRU e =? -1) then set_contador (i32 (contadorLRU e + 1)) e else e.

(** The search for a frame: the first free one, or the one with the largest counter. *)
Fixpoint buscar (t : list (list EntradaTablaPaginas)) (l : list Marco) (i : nat) (indice_lru : option nat) (max_contador : Z) : option (option nat) :=
  match l with
  | [] => Some indice_lru
  | x :: l =>
      if m_pid x =? -1 then Some (Some i) else
      match entrada t (m_pid x) (m_pagina x) with
      | None => None
      | Some e =>
          if max_contador <? contadorLRU e then buscar t l (S i) (Some i) (contadorLRU e)
          else buscar t l (S i) indice_lru max_contador
      end
  end.

(** [almacenamientoSecundario]: the first free place. *)
Definition guardar (v : Marco) (l : list Marco) : list Marco :=
  match find_index (fun x => m_pid x =? -1) l with Some j => <[j := v]> l | None => l end.

Definition asignarPagina (s : sim) (pid pagina : Z) : option sim :=
  if negb ((1 <=? pid) && (pid <=? Z.of_nat NUM_PROCESOS) && (1 <=? pagina) && (pagina <=? Z.of_nat NUM_PAGINAS)) then None else
  let '(mk_sim mf t sec) := s in
  match find_index (fun x => (m_pid x =? pid) && (m_pagina x =? pagina - 1)) mf with
  | Some _ => Some (mk_sim mf (each_entrada (touch (pagina - 1)) pid t) sec)
  | None =>
      match buscar t mf 0 None (-1) with
      | Some (Some indice_lru) =>
          match mf !! indice_lru with
          | None => None
          | Some victima =>
              let '(t, sec) :=
                if negb (m_pid victima =? -1) then
                  (set_entrada (set_presente false) (m_pid victima) (m_pagina victima) t, guardar victima sec)
                else (t, sec) in
              let mf := <[indice_lru := mk_marco pid (pagina - 1)]> mf in
              let t := set_entrada (fun e => mk_entrada pid (pagina - 1) true (modificado e) 0 (Z.of_nat indice_lru)) pid (pagina - 1) t in
              Some (mk_sim mf (each_entrada age pid t) sec)
          end
      | _ => None
      end
  end.

(** The loop of [main] over the references. *)
Fixpoint referencias (s : sim) (l : list (Z * Z)) : option sim :=
  match l with
  | [] => Some s
  | (pid, pagina) :: l => asignarPagina s pid pagina ≫= fun s => referencias s l
  end.

(** What [imprimirTablaPaginas] prints: the frame of each resident page. *)
Definition imprimirTablaPaginas (s : sim) (pid : Z) : list (option Z) :=
  (fun e => if presente e then Some (indiceMarco e) else None) <$> default [] (tablaPaginasProceso s !! Z.to_nat (pid - 1)).
(** [imprimirMemoriaFisica] and [imprimirAlmacenamientoSecundario]. *)
Definition imprimir_marcos (l : list Marco) : list (option (Z * Z)) :=
  (fun x => if negb (m_pid x =? -1) then Some (m_pid x, m_pagina x + 1) else None) <$> l.

(** ** The tables and the frames agree *)

Definition valid (pid pagina : Z) : Prop := 1 <= pid <= 2 /\ 0 <= pagina < 16.

Definition shape (t : list (list EntradaTablaPaginas)) : Prop := length t = 2%nat /\ Forall (fun row => length row = 16%nat) t.

Lemma entrada_valid t pid p e : shape t -> entrada t pid p = Some e -> valid pid p.
Proof.
  intros [H1 H2] E. unfold entrada in E. destruct (Z.leb_spec 1 pid), (Z.leb_spec 0 p); try done. cbn in E.
  destruct (t !! Z.to_nat (pid - 1)) as [row|] eqn:Er; [|done]. cbn in E. rewrite Forall_lookup in H2. specialize (H2 _ _ Er).
  apply lookup_lt_Some in Er, E. unfold valid. lia.
Qed.
Lemma valid_entrada t pid p : shape t -> valid pid p -> is_Some (entrada t pid p).
Proof.
  intros [H1 H2] [V1 V2]. unfold entrada. destruct (Z.leb_spec 1 pid), (Z.leb_spec 0 p); try lia. cbn.
  destruct (lookup_lt_is_Some_2 t (Z.to_nat (pid - 1)) ltac:(lia)) as [row Er]. rewrite Er. cbn. rewrite Forall_lookup in H2.
  apply lookup_lt_is_Some_2. rewrite (H2 _ _ Er). lia.
Qed.

Lemma set_entrada_shape f pid p t : shape t -> shape (set_entrada f pid p t).
Proof.
  intros [H1 H2]. unfold set_entrada. split; [by rewrite length_alter|]. apply Forall_alter; [done|]. intros row _ H. by rewrite length_alter.
Qed.
Lemma each_entrada_shape f pid t : shape t -> shape (each_entrada f pid t).
Proof.
  intros [H1 H2]. unfold each_entrada. split; [by rewrite length_alter|]. apply Forall_alter; [done|]. intros row _ H. by rewrite length_fmap.
Qed.

Lemma entrada_set f pid p t pid' p' : valid pid p -> valid pid' p' ->
  entrada (set_entrada f pid p t) pid' p' = if decide (pid' = pid /\ p' = p) then f <$> entrada t pid' p' else entrada t pid' p'.
Proof.
  intros [V1 V2] [V3 V4]. unfold entrada, set_entrada. destruct (Z.leb_spec 1 pid'), (Z.leb_spec 0 p'); try lia. cbn.
  destruct (decide (pid' = pid)) as [->|Hne].
  - rewrite list_lookup_alter_eq. destruct (t !! Z.to_nat (pid - 1)) as [row|]; [|by destruct (decide _)]. cbn.
    destruct (decide (p' = p)) as [->|Hp]; [rewrite decide_True by done; by rewrite list_lookup_alter_eq|].
    rewrite decide_False by tauto. apply list_lookup_alter_ne. lia.
  - rewrite decide_False by tauto. by rewrite list_lookup_alter_ne by lia.
Qed.
Lemma entrada_each f pid t pid' p' : valid pid p' -> valid pid' p' ->
  entrada (each_entrada f pid t) pid' p' = if decide (pid' = pid) then f <$> entrada t pid' p' else entrada t pid' p'.
Proof.
  intros [V1 V2] [V3 V4]. unfold entrada, each_entrada. destruct (Z.leb_spec 1 pid'), (Z.leb_spec 0 p'); try lia. cbn.
  destruct (decide (pid' = pid)) as [->|Hne].
  - rewrite list_lookup_alter_eq. destruct (t !! Z.to_nat (pid - 1)) as [row|]; [|done]. cbn. apply list_lookup_fmap.
  - by rewrite list_lookup_alter_ne by lia.
Qed.

Record entry_ok (n : Z) (mf : list Marco) (pid p : Z) (e : EntradaTablaPaginas) : Prop := mk_entry_ok {
  eo_pagina : e_pagina e = -1 \/ e_pagina e = p;
  eo_contador : -1 <= contadorLRU e <= n;
  eo_presente : presente e = true -> 0 <= contadorLRU e /\ e_pagina e = p /\ 0 <= indiceMarco e /\ mf !! Z.to_nat (indiceMarco e) = Some (mk_marco pid p)
}.

Record consistent (n : Z) (s : sim) : Prop := mk_consistent {
  co_mf : length (memoriaFisica s) = 8%nat;
  co_sec : length (almacenamientoSecundario s) = 32%nat;
  co_shape : shape (tablaPaginasProceso s);
  co_frame i x : memoriaFisica s !! i = Some x -> m_pid x <> -1 ->
    exists e, entrada (tablaPaginasProceso s) (m_pid x) (m_pagina x) = Some e /\ presente e = true /\ indiceMarco e = Z.of_nat i;
  co_entry pid p e : entrada (tablaPaginasProceso s) pid p = Some e -> entry_ok n (memoriaFisica s) pid p e
}.

Lemma inicializar_ok : consistent 0 inicializar.
Proof.
  assert (Hs : shape inicializarTablasPaginas) by (split; [done|]; by repeat constructor).
  split; [done|done|done| |].
  - intros i x Hi Hp. apply lookup_replicate in Hi as [-> _]. done.
  - intros pid p e E. assert (e = mk_entrada (-1) (-1) false false (-1) (-1)) as ->.
    { unfold entrada in E. destruct (_ && _); [|done]. cbn [inicializar tablaPaginasProceso] in E. unfold inicializarTablasPaginas in E.
      destruct (replicate _ _ !! _) as [row|] eqn:Er in E; [|done]. apply lookup_replicate in Er as [-> _]. cbn [mbind option_bind] in E. by apply lookup_replicate in E as [-> _]. }
    split; cbn; [by left|lia|done].
Qed.

(** ** The search for a frame *)

Definition contador (t : list (list EntradaTablaPaginas)) (x : Marco) : Z := match entrada t (m_pid x) (m_pagina x) with Some e => contadorLRU e | None => -1 end.

Lemma buscar_ok t l : (forall x, x ∈ l -> m_pid x <> -1 -> is_Some (entrada t (m_pid x) (m_pagina x))) -> forall i best mx, exists r, buscar t l i best mx = Some r /\
  ((exists k x, l !! k = Some x /\ m_pid x = -1 /\ r = Some (i + k)%nat) \/
   ((forall x, x ∈ l -> m_pid x <> -1) /\
    ((r = best /\ forall x, x ∈ l -> contador t x <= mx) \/
     exists k x, l !! k = Some x /\ r = Some (i + k)%nat /\ mx < contador t x /\ forall x', x' ∈ l -> contador t x' <= contador t x))).
Proof.
  intros Hl. induction l as [|x l IH]; intros i best mx; cbn [buscar].
  { exists best. split; [done|]. right. split; [intros x Hx; by apply elem_of_nil in Hx|]. left. split; [done|]. intros x Hx. by apply elem_of_nil in Hx. }
  destruct (Z.eqb_spec (m_pid x) (-1)) as [E|E].
  { exists (Some i). split; [done|]. left. exists 0%nat, x. split_and!; [done|done|]. f_equal. lia. }
  destruct (Hl x ltac:(apply elem_of_cons; by left) E) as [e He]. rewrite He. assert (Hc : contador t x = contadorLRU e) by (unfold contador; by rewrite He).
  specialize (IH ltac:(intros y Hy; apply Hl; apply elem_of_cons; by right)). destruct (Z.ltb_spec mx (contadorLRU e)) as [Hlt|Hge].
  - destruct (IH (S i) (Some i) (contadorLRU e)) as (r & -> & Hr). exists r. split; [done|].
    destruct Hr as [(k & y & Hk & Hy & ->)|(Hn & [(-> & Hm)|(k & y & Hk & -> & Hy & Hm)])].
    + left. exists (S k), y. split_and!; [done|done|]. f_equal. lia.
    + right. split; [intros y Hy; apply elem_of_cons in Hy as [->|Hy]; auto|]. right. exists 0%nat, x. rewrite Hc. split_and!; [done|f_equal; lia|done|].
      intros y Hy. apply elem_of_cons in Hy as [->|Hy]; [lia|auto].
    + right. split; [intros z Hz; apply elem_of_cons in Hz as [->|Hz]; auto|]. right. exists (S k), y. split_and!; [done|f_equal; lia|lia|].
      intros z Hz. apply elem_of_cons in Hz as [->|Hz]; [lia|auto].
  - destruct (IH (S i) best mx) as (r & -> & Hr). exists r. split; [done|].
    destruct Hr as [(k & y & Hk & Hy & ->)|(Hn & [(-> & Hm)|(k & y & Hk & -> & Hy & Hm)])].
    + left. exists (S k), y. split_and!; [done|done|]. f_equal. lia.
    + right. split; [intros y Hy; apply elem_of_cons in Hy as [->|Hy]; auto|]. left. split; [done|].
      intros y Hy. apply elem_of_cons in Hy as [->|Hy]; [lia|auto].
    + right. split; [intros z Hz; apply elem_of_cons in Hz as [->|Hz]; auto|]. right. exists (S k), y. split_and!; [done|f_equal; lia|lia|].
      intros z Hz. apply elem_of_cons in Hz as [->|Hz]; [lia|auto].
Qed.

(** ** A reference *)

Lemma touch_ok n mf pid p q e : n < 2147483647 -> entry_ok n mf pid p e -> entry_ok (n + 1) mf pid p (touch q e).
Proof.
  intros Hn [E1 E2 E3]. unfold touch. destruct (e_pagina e =? q); [split; cbn; [done|lia|intros H; destruct (E3 H); tauto || (split; [lia|tauto])]|].
  destruct (Z.eqb_spec (contadorLRU e) (-1)) as [H1|H1]; cbn [negb]; [split; [done|lia|done]|].
  rewrite i32_small by lia. split; cbn; [done|lia|]. intros H. destruct (E3 H) as (? & ? & ?). split; [lia|done].
Qed.
Lemma age_ok n mf pid p e : n < 2147483647 -> entry_ok n mf pid p e -> entry_ok (n + 1) mf pid p (age e).
Proof.
  intros Hn [E1 E2 E3]. unfold age. destruct (Z.eqb_spec (contadorLRU e) (-1)) as [H1|H1]; cbn [negb]; [split; [done|lia|done]|].
  rewrite i32_small by lia. split; cbn; [done|lia|]. intros H. destruct (E3 H) as (? & ? & ?). split; [lia|done].
Qed.
Lemma entry_ok_le n n' mf pid p e : n <= n' -> entry_ok n mf pid p e -> entry_ok n' mf pid p e.
Proof. intros H [E1 E2 E3]. split; [done|lia|done]. Qed.
Lemma page_touch_fields q e : presente (touch q e) = presente e /\ indiceMarco (touch q e) = indiceMarco e.
Proof. unfold touch. destruct (_ =? _); [done|]. by destruct (negb _). Qed.
Lemma age_fields e : presente (age e) = presente e /\ indiceMarco (age e) = indiceMarco e.
Proof. unfold age. by destruct (negb _). Qed.

(** A change of the counters of a process. *)
Lemma each_consistent n mf t sec pid f : 1 <= pid <= 2 -> consistent n (mk_sim mf t sec) ->
  (forall pid p e, entry_ok n mf pid p e -> entry_ok (n + 1) mf pid p (f e)) -> (forall e, presente (f e) = presente e /\ indiceMarco (f e) = indiceMarco e) ->
  consistent (n + 1) (mk_sim mf (each_entrada f pid t) sec).
Proof.
  intros Hp [C1 C2 C3 C4 C5] Hok Hf. cbn [memoriaFisica tablaPaginasProceso almacenamientoSecundario] in *. pose proof (each_entrada_shape f pid t C3) as Hs.
  split; cbn [memoriaFisica tablaPaginasProceso almacenamientoSecundario]; [done|done|done| |].
  - intros i x Hi Hx. destruct (C4 i x Hi Hx) as (e & He & E1 & E2). pose proof (entrada_valid _ _ _ _ C3 He) as Hv.
    rewrite (entrada_each _ _ _ _ _ (conj Hp (proj2 Hv)) Hv). destruct (decide _); [|eauto]. rewrite He. cbn. exists (f e). destruct (Hf e) as [-> ->]. done.
  - intros q p e He. pose proof (entrada_valid _ _ _ _ Hs He) as Hv. rewrite (entrada_each _ _ _ _ _ (conj Hp (proj2 Hv)) Hv) in He.
    destruct (decide _); [|by eapply entry_ok_le, C5; [lia|]]. destruct (entrada t q p) as [e1|] eqn:E1; [|done]. injection He as <-. by apply Hok, C5.
Qed.

(** The page [p] of [pid] replaces the page of frame [i], if there is one. *)
Definition unload (x : Marco) (t : list (list EntradaTablaPaginas)) : list (list EntradaTablaPaginas) :=
  if negb (m_pid x =? -1) then set_entrada (set_presente false) (m_pid x) (m_pagina x) t else t.
Definition load (pid p : Z) (i : nat) (t : list (list EntradaTablaPaginas)) : list (list EntradaTablaPaginas) :=
  set_entrada (fun e => mk_entrada pid p true (modificado e) 0 (Z.of_nat i)) pid p t.

Lemma load_consistent n mf t sec sec' pid p i x : valid pid p -> consistent n (mk_sim mf t sec) -> 0 <= n -> length sec' = 32%nat ->
  mf !! i = Some x -> (forall y, y ∈ mf -> y <> mk_marco pid p) ->
  consistent n (mk_sim (<[i := mk_marco pid p]> mf) (load pid p i (unload x t)) sec').
Proof.
  intros Hv [C1 C2 C3 C4 C5] Hn Hsec Hi Hnot. cbn [memoriaFisica tablaPaginasProceso almacenamientoSecundario] in *.
  set (t1 := unload x t). assert (Hs1 : shape t1) by (unfold t1, unload; destruct (negb _); [by apply set_entrada_shape|done]).
  assert (Hs2 : shape (load pid p i t1)) by (by apply set_entrada_shape).
  (* an entry after the unloading: that of the frame is not present *)
  assert (H1 : forall q r e, entrada t1 q r = Some e -> exists e0, entrada t q r = Some e0 /\ e_pagina e = e_pagina e0 /\ contadorLRU e = contadorLRU e0 /\
    indiceMarco e = indiceMarco e0 /\ (presente e = true -> e = e0 /\ (q, r) <> (m_pid x, m_pagina x))).
  { intros q r e He. pose proof (entrada_valid _ _ _ _ Hs1 He) as Hq. unfold t1, unload in He. destruct (Z.eqb_spec (m_pid x) (-1)) as [E|E]; cbn [negb] in He.
    - exists e. split_and!; try done. intros _. split; [done|]. intros [= -> _]. destruct Hq. lia.
    - destruct (C4 i x Hi E) as (ex & Hex & _). pose proof (entrada_valid _ _ _ _ C3 Hex) as Hvx. rewrite (entrada_set _ _ _ _ _ _ Hvx Hq) in He. destruct (decide _) as [[-> ->]|Hne].
      + rewrite Hex in He. injection He as <-. exists ex. done.
      + exists e. split_and!; try done. intros _. split; [done|]. intros [= -> ->]. by apply Hne. }
  assert (H2 : forall q r e, entrada (load pid p i t1) q r = Some e ->
    ((q, r) = (pid, p) /\ presente e = true /\ e_pagina e = p /\ contadorLRU e = 0 /\ indiceMarco e = Z.of_nat i) \/ ((q, r) <> (pid, p) /\ entrada t1 q r = Some e)).
  { intros q r e He. pose proof (entrada_valid _ _ _ _ Hs2 He) as Hq. unfold load in He. rewrite (entrada_set _ _ _ _ _ _ Hv Hq) in He. destruct (decide _) as [[-> ->]|Hne].
    - left. destruct (entrada t1 pid p) as [e1|]; [|done]. injection He as <-. done.
    - right. split; [|done]. intros [= -> ->]. by apply Hne. }
  assert (Hlt : (i < length mf)%nat) by (by eapply lookup_lt_Some).
  split; cbn [memoriaFisica tablaPaginasProceso almacenamientoSecundario]; [by rewrite length_insert|done|done| |].
  - intros j y Hj Hy. destruct (decide (j = i)) as [->|Hji].
    + rewrite list_lookup_insert_eq in Hj by done. injection Hj as <-. cbn [m_pid m_pagina]. destruct (valid_entrada _ _ _ Hs2 Hv) as [e He]. exists e.
      destruct (H2 _ _ _ He) as [(_ & ? & _ & _ & ?)|[Hne _]]; [done|by destruct Hne].
    + rewrite list_lookup_insert_ne in Hj by done. destruct (C4 j y Hj Hy) as (e & He & E1 & E2). pose proof (entrada_valid _ _ _ _ C3 He) as Hvy.
      assert (Hne : (m_pid y, m_pagina y) <> (pid, p)). { intros [= E3 E4]. apply (Hnot y); [by eapply list_elem_of_lookup_2|]. destruct y. cbn in *. congruence. }
      assert (Hnx : m_pid x <> -1 -> (m_pid y, m_pagina y) <> (m_pid x, m_pagina x)).
      { intros Hx [= E3 E4]. destruct (C4 i x Hi Hx) as (ex & Hex & _ & Ex). rewrite <-E3, <-E4, He in Hex. injection Hex as <-. lia. }
      exists e. split; [|done]. unfold load. rewrite (entrada_set _ _ _ _ _ _ Hv Hvy), decide_False by (intros [E3 E4]; apply Hne; congruence).
      unfold t1, unload. destruct (Z.eqb_spec (m_pid x) (-1)) as [E|E]; [done|]. cbn [negb].
      destruct (C4 i x Hi E) as (ex & Hex & _). rewrite (entrada_set _ _ _ _ _ _ (entrada_valid _ _ _ _ C3 Hex) Hvy), decide_False; [done|].
      intros [E3 E4]. apply (Hnx E). congruence.
  - intros q r e He. destruct (H2 _ _ _ He) as [([= -> ->] & E1 & E2 & E3 & E4)|[Hne He1]].
    + split; [by right|lia|]. intros _. split_and!; [lia|done|lia|]. rewrite E4, Nat2Z.id. by apply list_lookup_insert_eq.
    + destruct (H1 _ _ _ He1) as (e0 & He0 & E1 & E2 & E3 & Hpres). destruct (C5 _ _ _ He0) as [O1 O2 O3]. rewrite <-E1, <-E2, <-E3 in *.
      split; [done|done|]. intros Hpr. destruct (Hpres Hpr) as [-> Hnx]. destruct (O3 Hpr) as (P1 & P2 & P3 & P4). split_and!; [done|done|done|].
      destruct (decide (i = Z.to_nat (indiceMarco e0))) as [->|Hd]; [|by rewrite list_lookup_insert_ne]. rewrite P4 in Hi. injection Hi as <-. by destruct Hnx.
Qed.

Lemma guardar_length v l : length (guardar v l) = length l.
Proof. unfold guardar. destruct (find_index _ l); [apply length_insert|done]. Qed.

Definition resident (s : sim) (pid p : Z) : Prop := mk_marco pid p ∈ memoriaFisica s.
#[export] Instance resident_dec s pid p : Decision (resident s pid p).
Proof. unfold resident. apply _. Defined.

Lemma find_page mf pid p : match find_index (fun x => (m_pid x =? pid) && (m_pagina x =? p)) mf with
  | Some _ => mk_marco pid p ∈ mf | None => mk_marco pid p ∉ mf end.
Proof.
  destruct (find_index _ mf) as [i|] eqn:E.
  - apply find_index_Some in E as [(x & Hx & Hf) _]. apply andb_true_iff in Hf as [H1 H2]. apply Z.eqb_eq in H1, H2. apply list_elem_of_lookup_2 in Hx.
    destruct x as [a b]. cbn in *. by subst.
  - intros Hin. rewrite find_index_None in E. apply list_elem_of_lookup_1 in Hin as [i Hi]. specialize (E _ _ Hi). cbn in E. by rewrite !Z.eqb_refl in E.
Qed.

(** A reference to a resident page only changes counters; one to another page loads it, into a
    free frame if there is one and else into that of a page with the largest counter. *)
Lemma asignar_ok n s pid pagina : consistent n s -> valid pid (pagina - 1) -> 0 <= n < 2147483646 -> exists s', asignarPagina s pid pagina = Some s' /\ consistent (n + 1) s' /\
  (resident s pid (pagina - 1) -> memoriaFisica s' = memoriaFisica s) /\
  (~ resident s pid (pagina - 1) -> exists i x, memoriaFisica s !! i = Some x /\ memoriaFisica s' = <[i := mk_marco pid (pagina - 1)]> (memoriaFisica s) /\
     (m_pid x = -1 \/ forall y, y ∈ memoriaFisica s -> m_pid y <> -1 /\ contador (tablaPaginasProceso s) y <= contador (tablaPaginasProceso s) x)).
Proof.
  intros C Hv Hn. destruct s as [mf t sec]. unfold asignarPagina, resident. pose proof Hv as [V1 V2]. unfold NUM_PROCESOS, NUM_PAGINAS.
  rewrite (proj2 (Z.leb_le 1 pid)), (proj2 (Z.leb_le pid _)), (proj2 (Z.leb_le 1 pagina)), (proj2 (Z.leb_le pagina _)) by lia. cbn [negb andb memoriaFisica tablaPaginasProceso].
  pose proof (find_page mf pid (pagina - 1)) as Hfind. destruct (find_index _ mf) as [j|].
  - eexists. split; [done|]. split; [|done]. apply each_consistent; [done|done| |intros e; apply page_touch_fields]. intros q p e. apply touch_ok. lia.
  - pose proof C as [C1 C2 C3 C4 C5]. cbn [memoriaFisica tablaPaginasProceso almacenamientoSecundario] in *.
    assert (Hfr : forall x, x ∈ mf -> m_pid x <> -1 -> exists e, entrada t (m_pid x) (m_pagina x) = Some e /\ 0 <= contadorLRU e).
    { intros x Hx Hne. apply list_elem_of_lookup_1 in Hx as [i Hi]. destruct (C4 i x Hi Hne) as (e & He & Hp & _). exists e. split; [done|]. by apply (eo_presente _ _ _ _ _ (C5 _ _ _ He) Hp). }
    destruct (buscar_ok t mf ltac:(intros x Hx Hne; destruct (Hfr x Hx Hne) as (e & -> & _); eauto) 0 None (-1)) as (r & Hb & Hr). rewrite Hb.
    assert (Hpick : exists i x, r = Some i /\ mf !! i = Some x /\ (m_pid x = -1 \/ forall y, y ∈ mf -> m_pid y <> -1 /\ contador t y <= contador t x)).
    { destruct Hr as [(k & x & Hk & Hx & ->)|(Hall & [(-> & Hm)|(k & x & Hk & -> & _ & Hm)])]; [by exists k, x; auto| |exists k, x; split_and!; auto].
      exfalso. destruct mf as [|x mf]; [done|]. assert (Hx : x ∈ x :: mf) by (apply elem_of_cons; by left). destruct (Hfr x Hx (Hall x Hx)) as (e & He & H0).
      specialize (Hm x Hx). unfold contador in Hm. rewrite He in Hm. lia. }
    destruct Hpick as (i & x & -> & Hi & Hx). rewrite Hi.
    assert (Hnot : forall y, y ∈ mf -> y <> mk_marco pid (pagina - 1)) by (intros y Hy ->; done).
    assert (Hload := fun sec' Hs => load_consistent n mf t sec sec' pid (pagina - 1) i x Hv C (proj1 Hn) Hs Hi Hnot). unfold unload, load in Hload.
    assert (Hage : forall pid p e, entry_ok n (<[i := mk_marco pid (pagina - 1)]> mf) pid p e -> entry_ok (n + 1) (<[i := mk_marco pid (pagina - 1)]> mf) pid p (age e)) by (intros q p e; apply age_ok; lia).
    destruct (negb (m_pid x =? -1)).
    + eexists. split; [done|]. split; [|split; [done|]; intros _; exists i, x; done].
      apply each_consistent; [done|apply Hload; by rewrite guardar_length|intros q p e; apply age_ok; lia|apply age_fields].
    + eexists. split; [done|]. split; [|split; [done|]; intros _; exists i, x; done].
      apply each_consistent; [done|by apply Hload|intros q p e; apply age_ok; lia|apply age_fields].
Qed.

Definition good_ref (r : Z * Z) : Prop := valid (fst r) (snd r - 1).

Lemma referencias_ok l : forall n s, Forall good_ref l -> consistent n s -> 0 <= n -> n + Z.of_nat (length l) < 2147483647 ->
  exists s', referencias s l = Some s' /\ consistent (n + Z.of_nat (length l)) s' /\
    (forall r, last l = Some r -> resident s' (fst r) (snd r - 1)).
Proof.
  induction l as [|[pid pagina] l IH]; intros n s Hl C Hn Hlen; cbn [referencias length] in *.
  - exists s. rewrite Z.add_0_r. split_and!; done.
  - apply Forall_cons in Hl as [Hr Hl]. destruct (asignar_ok n s pid pagina C Hr ltac:(lia)) as (s1 & E1 & C1 & Hres & Hmiss). rewrite E1. cbn [mbind option_bind].
    destruct (IH (n + 1) s1 Hl C1 ltac:(lia) ltac:(lia)) as (s' & E' & C' & Hlast). exists s'. split; [done|]. split; [by replace (n + Z.of_nat (S (length l))) with (n + 1 + Z.of_nat (length l)) by lia|].
    destruct l as [|r' l]; [|by rewrite last_cons_cons]. cbn in E'. injection E' as <-. intros r [= <-]. cbn [fst snd]. unfold resident in *.
    destruct (decide (mk_marco pid (pagina - 1) ∈ memoriaFisica s)) as [Hin|Hnin]; [by rewrite Hres|]. destruct (Hmiss Hnin) as (i & x & Hi & -> & _).
    apply list_elem_of_lookup_2 with i, list_lookup_insert_eq. by eapply lookup_lt_Some.
Qed.

(** C34: After any references to pages of the two processes, the page tables and the frames agree:
    a page is marked present exactly when a frame holds it, in the frame its entry names, so
    that no page is in two frames; and the page referenced last is resident. *)
Theorem page_tables_consistent l : Forall good_ref l -> Z.of_nat (length l) < 2147483647 -> exists s, referencias inicializar l = Some s /\
  (forall pid p, valid pid p -> exists e, entrada (tablaPaginasProceso s) pid p = Some e /\
     (presente e = true <-> resident s pid p) /\
     (forall i, memoriaFisica s !! i = Some (mk_marco pid p) -> indiceMarco e = Z.of_nat i)) /\
  (forall r, last l = Some r -> resident s (fst r) (snd r - 1)).
Proof.
  intros Hl Hlen. destruct (referencias_ok l 0 inicializar Hl inicializar_ok ltac:(lia) ltac:(lia)) as (s & E & [C1 C2 C3 C4 C5] & Hlast).
  exists s. split; [done|]. split; [|done]. intros pid p Hv. destruct (valid_entrada _ _ _ C3 Hv) as [e He]. exists e. split; [done|].
  assert (Hin : forall i, memoriaFisica s !! i = Some (mk_marco pid p) -> presente e = true /\ indiceMarco e = Z.of_nat i).
  { intros i Hi. destruct (C4 i _ Hi) as (e' & He' & ? & ?); [cbn; destruct Hv; lia|]. cbn in He'. rewrite He in He'. injection He' as <-. done. }
  split; [split|].
  - intros Hp. destruct (eo_presente _ _ _ _ _ (C5 _ _ _ He) Hp) as (_ & _ & _ & Hm). by eapply list_elem_of_lookup_2.
  - intros Hr. apply list_elem_of_lookup_1 in Hr as [i Hi]. exact (proj1 (Hin i Hi)).
  - intros i Hi. exact (proj2 (Hin i Hi)).
Qed.

(** ** Runs *)

Definition demo_refs : list (Z * Z) := [(1, 1); (2, 1); (1, 2); (1, 1)].

Lemma page_tables_consistent_witness : exists s, referencias inicializar demo_refs = Some s /\ resident s 1 0.
Proof.
  destruct (page_tables_consistent demo_refs) as (s & E & _ & Hl).
  - apply (bool_decide_unpack _). vm_compute. exact I.
  - vm_compute. reflexivity.
  - exists s. split; [exact E|]. exact (Hl (1, 1) eq_refl).
Defined.

(** The victim is not the least recently used page: loading a page ages it together with the
    others, so that it ties with a page used just before, and the first frame wins.  Page 8 is
    used before page 9 and before every other resident page, and page 9 is evicted. *)
Definition lru_refs : list (Z * Z) := (fun p => (1, p)) <$> [1; 2; 3; 4; 5; 6; 7; 8; 8; 9; 2; 3; 4; 5; 6; 7].

Theorem evicts_recent_page : exists s s', referencias inicializar lru_refs = Some s /\
  (forall p, 2 <= p <= 9 -> resident s 1 (p - 1)) /\ asignarPagina s 1 10 = Some s' /\ resident s' 1 7 /\ ~ resident s' 1 8.
Proof.
  destruct (referencias inicializar lru_refs) as [s|] eqn:E; [|by vm_compute in E]. vm_compute in E. injection E as <-. eexists _, _. split; [done|].
  split; [|split; [vm_compute; reflexivity|]; split; apply (bool_decide_unpack _); vm_compute; exact I].
  intros p Hp. assert (p = 2 \/ p = 3 \/ p = 4 \/ p = 5 \/ p = 6 \/ p = 7 \/ p = 8 \/ p = 9) as H by lia.
  repeat destruct H as [->|H]; try (subst p); apply (bool_decide_unpack _); vm_compute; exact I.
Qed.
