(* ===== verification/Console.v ===== *)
(** * The console: screen, serial line and keyboard
      ([src/xv6/console.c], [src/xv6/uart.c], [src/xv6/kbd.c], [src/xv6/kbd.h])

    The devices are behind the input and output ports, the class [Ports], whose state is that
    of the devices.  The screen memory [crt] is a function from cells to words.  Reading the
    console ends in [CSleep] where the source sleeps: the bytes read so far, after which the
    reader goes on with what is left of its count.  A processor that stops for good after a
    [panic] waits. *)

From S2P Require Import Prelude Spinlock Ulib.

Class Ports (D : Type) : Type := { inb : Z -> M D Z; outb : Z -> Z -> M D unit }.

Definition INPUT_BUF : Z := 128.

Record input_buf : Type := mk_input { in_buf : list Z; in_r : Z; in_w : Z; in_e : Z }.

Record cons (D : Type) : Type := mk_cons {
  c_lock : spinlock;
  c_locking : bool;
  c_panicked : bool;
  c_crt : Z -> Z;
  c_input : input_buf;
  c_wakes : nat;          (* calls of wakeup(&input.r) *)
  c_uart : bool;
  c_shift : Z;            (* shift of kbdgetc *)
  c_dev : D
}.
Arguments mk_cons {D}.
Arguments c_lock {D}. Arguments c_locking {D}. Arguments c_panicked {D}. Arguments c_crt {D}. Arguments c_input {D}.
Arguments c_wakes {D}. Arguments c_uart {D}. Arguments c_shift {D}. Arguments c_dev {D}.

Section console.
Context {D : Type} `{!Ports D} (me : nat).
#[local] Abbreviation CM := (M (cons D)).

Definition c_set_lock x (s : cons D) := mk_cons x (c_locking s) (c_panicked s) (c_crt s) (c_input s) (c_wakes s) (c_uart s) (c_shift s) (c_dev s).
Definition c_set_locking x (s : cons D) := mk_cons (c_lock s) x (c_panicked s) (c_crt s) (c_input s) (c_wakes s) (c_uart s) (c_shift s) (c_dev s).
Definition c_set_crt x (s : cons D) := mk_cons (c_lock s) (c_locking s) (c_panicked s) x (c_input s) (c_wakes s) (c_uart s) (c_shift s) (c_dev s).
Definition c_set_input x (s : cons D) := mk_cons (c_lock s) (c_locking s) (c_panicked s) (c_crt s) x (c_wakes s) (c_uart s) (c_shift s) (c_dev s).
Definition c_wakeup (s : cons D) := mk_cons (c_lock s) (c_locking s) (c_panicked s) (c_crt s) (c_input s) (S (c_wakes s)) (c_uart s) (c_shift s) (c_dev s).
Definition c_set_uart x (s : cons D) := mk_cons (c_lock s) (c_locking s) (c_panicked s) (c_crt s) (c_input s) (c_wakes s) x (c_shift s) (c_dev s).
Definition c_set_shift x (s : cons D) := mk_cons (c_lock s) (c_locking s) (c_panicked s) (c_crt s) (c_input s) (c_wakes s) (c_uart s) x (c_dev s).
Definition c_set_dev x (s : cons D) : cons D := mk_cons (c_lock s) (c_locking s) (c_panicked s) (c_crt s) (c_input s) (c_wakes s) (c_uart s) (c_shift s) x.

Definition dev {A} (m : M D A) : CM A := zoom c_dev c_set_dev m.

(** ** The serial line *)

Definition COM1 : Z := 0x3f8.

(** The wait for the transmitter, at most [n] times. *)
Fixpoint uart_wait (n : nat) : CM unit :=
  match n with
  | O => ret tt
  | S k => let! x := dev (inb (COM1 + 5)) in if negb (Z.land x 0x20 =? 0) then ret tt else uart_wait k
  end.
Definition uartputc (c : Z) : CM unit :=
  let! uart := gets c_uart in
  if negb uart then ret tt else
  uart_wait 128 ;;;
  dev (outb (COM1 + 0) (u8 c)).

Definition uartgetc : CM Z :=
  let! uart := gets c_uart in
  if negb uart then ret (-1) else
  let! x := dev (inb (COM1 + 5)) in
  if Z.land x 1 =? 0 then ret (-1) else dev (inb (COM1 + 0)).

Fixpoint uart_puts (l : list Z) : CM unit :=
  match l with [] => ret tt | c :: l => uartputc c ;;; uart_puts l end.
(** The interrupt is enabled in the I/O APIC by [enable]. *)
Definition uartinit (enable : CM unit) : CM unit :=
  dev (outb (COM1 + 2) 0) ;;;
  dev (outb (COM1 + 3) 0x80) ;;;
  dev (outb (COM1 + 0) (115200 / 9600)) ;;;
  dev (outb (COM1 + 1) 0) ;;;
  dev (outb (COM1 + 3) 0x03) ;;;
  dev (outb (COM1 + 4) 0) ;;;
  dev (outb (COM1 + 1) 0x01) ;;;
  let! st := dev (inb (COM1 + 5)) in
  if st =? 0xFF then ret tt else
  modify (c_set_uart true) ;;;
  dev (inb (COM1 + 2)) ;;;
  dev (inb (COM1 + 0)) ;;;
  enable ;;;
  uart_puts (line "xv6...").

(** ** The screen *)

Definition BACKSPACE : Z := 0x100.
Definition CRTPORT : Z := 0x3d4.

Definition put_cell (i x : Z) : CM unit := modify (fun s => c_set_crt (fun j => if j =? i then x else c_crt s j) s).
(** [memmove(crt, crt+80, ...)] of 23 lines and [memset(crt+pos, 0, ...)] up to line 24. *)
Definition scroll (pos : Z) : CM unit := modify (fun s => c_set_crt (fun j =>
  let m := fun j => if (0 <=? j) && (j <? 23 * 80) then c_crt s (j + 80) else c_crt s j in
  if (pos <=? j) && (j <? 24 * 80) then 0 else m j) s).

Definition cgaputc (c : Z) : CM unit :=
  dev (outb CRTPORT 14) ;;;
  let! hi := dev (inb (CRTPORT + 1)) in
  dev (outb CRTPORT 15) ;;;
  let! lo := dev (inb (CRTPORT + 1)) in
  let pos := Z.lor (Z.shiftl hi 8) lo in
  let! pos :=
    (if c =? 10 then ret (pos + (80 - Z.rem pos 80))
     else if c =? BACKSPACE then ret (if 0 <? pos then pos - 1 else pos)
     else put_cell pos (Z.lor (Z.land c 255) 0x700) ;;; ret (pos + 1)) in
  if (pos <? 0) || (25 * 80 <? pos) then panic "pos under/overflow" else
  let! pos := (if 24 <=? Z.quot pos 80 then scroll (pos - 80) ;;; ret (pos - 80) else ret pos) in
  dev (outb CRTPORT 14) ;;;
  dev (outb (CRTPORT + 1) (u8 (Z.shiftr pos 8))) ;;;
  dev (outb CRTPORT 15) ;;;
  dev (outb (CRTPORT + 1) (u8 pos)) ;;;
  put_cell pos (Z.lor 32 0x700).

Definition consputc (c : Z) : CM unit :=
  let! p := gets c_panicked in
  if p then waits else
  (if c =? BACKSPACE then uartputc 8 ;;; uartputc 32 ;;; uartputc 8 else uartputc c) ;;;
  cgaputc c.

(** ** [cprintf] *)

Definition cdigits : list Z := bytes "0123456789abcdef".

Fixpoint cdigits_loop (fuel : nat) (x base : Z) (buf : list Z) : CM (list Z) :=
  match fuel with
  | O => fun _ => OutOfFuel
  | S k =>
      let! buf := push buf (default 0 (cdigits !! Z.to_nat (x mod base))) in
      let x := x / base in
      if x =? 0 then ret buf else cdigits_loop k x base buf
  end.
Fixpoint cput_back (buf : list Z) : CM unit :=
  match buf with [] => ret tt | c :: buf => cput_back buf ;;; consputc c end.
Definition cprintint (xx base : Z) (sign : bool) : CM unit :=
  let sign := sign && (xx <? 0) in
  let x := if sign then u32 (- xx) else u32 xx in
  let! buf := cdigits_loop 32 x base [] in
  let! buf := (if sign then push buf 45 else ret buf) in
  cput_back buf.

Fixpoint cput_str (s : list Z) : CM unit :=
  match s with [] => ret tt | c :: s => consputc c ;;; cput_str s end.

Fixpoint cprintf_loop (fmt : list Z) (argp : list arg) : CM unit :=
  match fmt with
  | [] => ret tt
  | c :: fmt =>
      if negb (c =? 37) then consputc c ;;; cprintf_loop fmt argp else
      match fmt with
      | [] => ret tt
      | c :: fmt =>
          if c =? 100 then with_int argp (fun x argp => cprintint (i32 x) 10 true ;;; cprintf_loop fmt argp)
          else if (c =? 120) || (c =? 112) then with_int argp (fun x argp => cprintint (i32 x) 16 false ;;; cprintf_loop fmt argp)
          else if c =? 115 then with_str argp (fun s argp => cput_str s ;;; cprintf_loop fmt argp)
          else if c =? 37 then consputc 37 ;;; cprintf_loop fmt argp
          else consputc 37 ;;; consputc c ;;; cprintf_loop fmt argp
      end
  end.
Definition cprintf (fmt : list Z) (argp : list arg) : CM unit :=
  let! locking := gets c_locking in
  (if locking then acquire me c_lock c_set_lock else ret tt) ;;;
  cprintf_loop fmt argp ;;;
  (if locking then release me c_lock c_set_lock else ret tt).

(** ** Input *)

Definition C (x : Z) : Z := x - 64.

Definition in_slot (i : Z) : nat := Z.to_nat (i mod INPUT_BUF).
Definition set_e x i := mk_input (in_buf i) (in_r i) (in_w i) x.
Definition set_w x i := mk_input (in_buf i) (in_r i) x (in_e i).
Definition set_r x i := mk_input (in_buf i) x (in_w i) (in_e i).
Definition on_input (f : input_buf -> input_buf) : CM unit := modify (fun s => c_set_input (f (c_input s)) s).

(** The loop of control-U; at most the whole buffer is edited. *)
Fixpoint kill_line (fuel : nat) : CM unit :=
  match fuel with
  | O => fun _ => OutOfFuel
  | S k =>
      let! i := gets c_input in
      if negb (in_e i =? in_w i) && negb (default 0 (in_buf i !! in_slot (u32 (in_e i - 1))) =? 10) then
        on_input (set_e (u32 (in_e i - 1))) ;;;
        consputc BACKSPACE ;;;
        kill_line k
      else ret tt
  end.

(** One character; the result is [doprocdump]. *)
Definition console_char (c : Z) : CM bool :=
  let! i := gets c_input in
  if c =? C 80 then ret true
  else if c =? C 85 then kill_line 129 ;;; ret false
  else if (c =? C 72) || (c =? 0x7f) then
    (if negb (in_e i =? in_w i) then on_input (set_e (u32 (in_e i - 1))) ;;; consputc BACKSPACE else ret tt) ;;; ret false
  else
    (if negb (c =? 0) && (u32 (in_e i - in_r i) <? INPUT_BUF) then
       let c := if c =? 13 then 10 else c in
       on_input (fun i => mk_input (<[in_slot (in_e i) := u8 c]> (in_buf i)) (in_r i) (in_w i) (u32 (in_e i + 1))) ;;;
       consputc c ;;;
       let! i := gets c_input in
       if (c =? 10) || (c =? C 68) || (in_e i =? u32 (in_r i + INPUT_BUF)) then
         on_input (set_w (in_e i)) ;;; modify c_wakeup
       else ret tt
     else ret tt) ;;; ret false.

Fixpoint console_chars (fuel : nat) (getc : CM Z) (doprocdump : bool) : CM bool :=
  match fuel with
  | O => fun _ => OutOfFuel
  | S k =>
      let! c := getc in
      if c <? 0 then ret doprocdump else
      let! d := console_char c in
      console_chars k getc (doprocdump || d)
  end.
(** The result tells whether [procdump] is called next. *)
Definition consoleintr (fuel : nat) (getc : CM Z) : CM bool :=
  acquire me c_lock c_set_lock ;;;
  let! d := console_chars fuel getc false in
  release me c_lock c_set_lock ;;;
  ret d.
Definition uartintr (fuel : nat) : CM bool := consoleintr fuel uartgetc.

(** ** The keyboard *)

(** A table of the source: its first entries, and those given by index; the others are 0. *)
Definition key_table (first : list Z) (others : list (Z * Z)) (data : Z) : Z :=
  match find (fun x => fst x =? data) others with
  | Some x => snd x
  | None => default 0 (first !! Z.to_nat data)
  end.
Definition shiftcode : Z -> Z := key_table []
  [(0x1d, 2); (0x2a, 1); (0x36, 1); (0x38, 4); (0x9d, 2); (0xb8, 4)].
Definition togglecode : Z -> Z := key_table []
  [(0x3a, 8); (0x45, 16); (0x46, 32)].
Definition normalmap : Z -> Z := key_table [0; 27; 49; 50; 51; 52; 53; 54; 55; 56; 57; 48; 45; 61; 8; 9;
   113; 119; 101; 114; 116; 121; 117; 105; 111; 112; 91; 93; 10; 0; 97; 115;
   100; 102; 103; 104; 106; 107; 108; 59; 39; 96; 0; 92; 122; 120; 99; 118;
   98; 110; 109; 44; 46; 47; 0; 42; 0; 32; 0; 0; 0; 0; 0; 0;
   0; 0; 0; 0; 0; 0; 0; 55; 56; 57; 45; 52; 53; 54; 43; 49;
   50; 51; 48; 46; 0; 0; 0; 0]
  [(0x9c, 10); (0xb5, 47); (0xc8, 226); (0xd0, 227); (0xc9, 230); (0xd1, 231); (0xcb, 228); (0xcd, 229); (0x97, 224); (0xcf, 225); (0xd2, 232); (0xd3, 233)].
Definition shiftmap : Z -> Z := key_table [0; 27; 33; 64; 35; 36; 37; 94; 38; 42; 40; 41; 95; 43; 8; 9;
   81; 87; 69; 82; 84; 89; 85; 73; 79; 80; 123; 125; 10; 0; 65; 83;
   68; 70; 71; 72; 74; 75; 76; 58; 34; 126; 0; 124; 90; 88; 67; 86;
   66; 78; 77; 60; 62; 63; 0; 42; 0; 32; 0; 0; 0; 0; 0; 0;
   0; 0; 0; 0; 0; 0; 0; 55; 56; 57; 45; 52; 53; 54; 43; 49;
   50; 51; 48; 46; 0; 0; 0; 0]
  [(0x9c, 10); (0xb5, 47); (0xc8, 226); (0xd0, 227); (0xc9, 230); (0xd1, 231); (0xcb, 228); (0xcd, 229); (0x97, 224); (0xcf, 225); (0xd2, 232); (0xd3, 233)].
Definition ctlmap : Z -> Z := key_table [0; 0; 0; 0; 0; 0; 0; 0; 0; 0; 0; 0; 0; 0; 0; 0;
   17; 23; 5; 18; 20; 25; 21; 9; 15; 16; 0; 0; 13; 0; 1; 19;
   4; 6; 7; 8; 10; 11; 12; 0; 0; 0; 0; 28; 26; 24; 3; 22;
   2; 14; 13; 0; 0; 239; 0; 0]
  [(0x9c, 13); (0xb5, 239); (0xc8, 226); (0xd0, 227); (0xc9, 230); (0xd1, 231); (0xcb, 228); (0xcd, 229); (0x97, 224); (0xcf, 225); (0xd2, 232); (0xd3, 233)].

Definition KBSTATP : Z := 0x64.
Definition KBS_DIB : Z := 0x01.
Definition KBDATAP : Z := 0x60.
Definition SHIFT : Z := 1.
Definition CTL : Z := 2.
Definition CAPSLOCK : Z := 8.
Definition E0ESC : Z := 64.

Definition charcode (i data : Z) : Z :=
  if i =? 0 then normalmap data else if i =? 1 then shiftmap data else ctlmap data.

Definition kbdgetc : CM Z :=
  let! st := dev (inb KBSTATP) in
  if Z.land st KBS_DIB =? 0 then ret (-1) else
  let! data := dev (inb KBDATAP) in
  let! shift := gets c_shift in
  if data =? 0xE0 then modify (c_set_shift (Z.lor shift E0ESC)) ;;; ret 0
  else if negb (Z.land data 0x80 =? 0) then
    let data := if negb (Z.land shift E0ESC =? 0) then data else Z.land data 0x7F in
    modify (c_set_shift (Z.ldiff shift (Z.lor (shiftcode data) E0ESC))) ;;; ret 0
  else
    let '(data, shift) := if negb (Z.land shift E0ESC =? 0) then (Z.lor data 0x80, Z.ldiff shift E0ESC) else (data, shift) in
    let shift := Z.lxor (Z.lor shift (shiftcode data)) (togglecode data) in
    modify (c_set_shift shift) ;;;
    let c := charcode (Z.land shift (Z.lor CTL SHIFT)) data in
    if negb (Z.land shift CAPSLOCK =? 0) then
      if (97 <=? c) && (c <=? 122) then ret (c + (65 - 97))
      else if (65 <=? c) && (c <=? 90) then ret (c + (97 - 65))
      else ret c
    else ret c.
Definition kbdintr (fuel : nat) : CM bool := consoleintr fuel kbdgetc.

(** ** The calls *)

(** The bytes read, with [CDone]; or the bytes read before the reader sleeps; or killed. *)
Inductive cread : Type := CDone (l : list Z) | CSleep (l : list Z) | CKilled.

(** [n] bytes are still wanted of [target], [l] have been stored. *)
Fixpoint consoleread_loop (n : nat) (target : Z) (killed : bool) (l : list Z) : CM cread :=
  match n with
  | O => ret (CDone l)
  | S k =>
      let! i := gets c_input in
      if in_r i =? in_w i then ret (if killed then CKilled else CSleep l) else
      let c := default 0 (in_buf i !! in_slot (in_r i)) in
      on_input (set_r (u32 (in_r i + 1))) ;;;
      if c =? C 68 then
        (if Z.of_nat n <? target then on_input (set_r (u32 (u32 (in_r i + 1) - 1))) else ret tt) ;;;
        ret (CDone l)
      else if c =? 10 then ret (CDone (l ++ [c]))
      else consoleread_loop k target killed (l ++ [c])
  end.

(** The part of [consoleread] between two sleeps.  The lock is held all along. *)
Definition consoleread (n target : Z) (killed : bool) : CM cread :=
  acquire me c_lock c_set_lock ;;;
  let! r := consoleread_loop (Z.to_nat n) target killed [] in
  release me c_lock c_set_lock ;;;
  ret r.

Definition consolewrite (buf : list Z) : CM Z :=
  acquire me c_lock c_set_lock ;;;
  cput_str (map (fun c => Z.land c 255) buf) ;;;
  release me c_lock c_set_lock ;;;
  ret (Z.of_nat (length buf)).

(** The device switch is set up by [install], the interrupt enabled by [enable]. *)
Definition consoleinit (install enable : CM unit) : CM unit :=
  modify (c_set_lock initlock) ;;;
  install ;;;
  modify (c_set_locking true) ;;;
  enable.
End console.
