(* ===== verification/ConsoleProps.v ===== *)
(** * The screen and the line discipline of the console

    The screen controller keeps the cursor in two registers behind the ports; the class [Crt]
    states how they answer.  With the cursor on the screen, [cgaputc] never panics, writes
    only cells of the screen and keeps the cursor on it.  The ring buffer with its three
    32-bit indices implements a queue of finished input and a line that is being edited. *)

From S2P Require Import Prelude Spinlock Ulib Console.

(** ** The screen controller *)

Record crtc : Type := mk_crtc { cr_sel : Z; cr_hi : Z; cr_lo : Z }.
Definition cr_pos (c : crtc) : Z := 256 * cr_hi c + cr_lo c.

Class Crt (D : Type) `{!Ports D} : Type := {
  crt_of : D -> crtc;
  pending : D -> list Z;     (* the scan codes the keyboard has not handed over *)
  crt_select d v : wp (outb CRTPORT v) (fun _ d' => crt_of d' = mk_crtc v (cr_hi (crt_of d)) (cr_lo (crt_of d))) d;
  crt_read d : wp (inb (CRTPORT + 1)) (fun x d' => crt_of d' = crt_of d /\
    (cr_sel (crt_of d) = 14 -> x = cr_hi (crt_of d)) /\ (cr_sel (crt_of d) = 15 -> x = cr_lo (crt_of d))) d;
  crt_write d v : wp (outb (CRTPORT + 1) v) (fun _ d' =>
    (cr_sel (crt_of d) = 14 -> crt_of d' = mk_crtc 14 v (cr_lo (crt_of d))) /\
    (cr_sel (crt_of d) = 15 -> crt_of d' = mk_crtc 15 (cr_hi (crt_of d)) v)) d;
  crt_other_in d p : p <> CRTPORT -> p <> CRTPORT + 1 -> wp (inb p) (fun _ d' => crt_of d' = crt_of d) d;
  crt_other_out d p v : p <> CRTPORT -> p <> CRTPORT + 1 -> wp (outb p v) (fun _ d' => crt_of d' = crt_of d) d;
  kb_status d : wp (inb KBSTATP) (fun x d' => Z.land x KBS_DIB = 0 <-> pending d = []) d;
  kb_data d : wp (inb KBDATAP) (fun x d' => pending d <> [] -> pending d = x :: pending d') d;
  kb_other_in d p : p <> KBDATAP -> wp (inb p) (fun _ d' => pending d' = pending d) d;
  kb_other_out d p v : wp (outb p v) (fun _ d' => pending d' = pending d) d
}.

Section screen.
Context {D : Type} `{!Ports D} `{!Crt D} (me : nat).

(** The cursor is on one of the 24 lines that scroll. *)
Definition cursor (s : cons D) : Z := cr_pos (crt_of (c_dev s)).
Record on_screen (s : cons D) : Prop := mk_on_screen {
  os_panicked : c_panicked s = false;
  os_lo : 0 <= cr_lo (crt_of (c_dev s)) < 256;
  os_hi : 0 <= cr_hi (crt_of (c_dev s)) < 256;
  os_pos : 0 <= cursor s < 1920
}.

(** Everything but the screen and the devices is as before. *)
Record same_cons (s s' : cons D) : Prop := mk_same_cons {
  sc_lock : c_lock s' = c_lock s;
  sc_locking : c_locking s' = c_locking s;
  sc_panicked : c_panicked s' = c_panicked s;
  sc_input : c_input s' = c_input s;
  sc_wakes : c_wakes s' = c_wakes s;
  sc_uart : c_uart s' = c_uart s;
  sc_shift : c_shift s' = c_shift s;
  sc_pending : pending (c_dev s') = pending (c_dev s)
}.
#[local] Instance same_cons_pre : PreOrder same_cons.
Proof. split; [by split|]. intros s1 s2 s3 [] []. split; congruence. Qed.

Lemma same_cons_dev s d : pending d = pending (c_dev s) -> same_cons s (c_set_dev d s).
Proof. by split. Qed.

Lemma wp_dev {A} (m : M D A) s (Q : A -> cons D -> Prop) (P : A -> D -> Prop) : wp m P (c_dev s) ->
  (forall a d, P a d -> Q a (c_set_dev d s)) -> wp (dev m) Q s.
Proof. intros Hm HQ. unfold dev. apply wp_zoom. eapply wp_mono; [exact Hm|]. auto. Qed.

(** Port operations that leave the keyboard alone. *)
Lemma wp_inb p s (Q : Z -> cons D -> Prop) P : p <> KBDATAP -> wp (inb p) P (c_dev s) ->
  (forall x d, P x d -> pending d = pending (c_dev s) -> Q x (c_set_dev d s)) -> wp (dev (inb p)) Q s.
Proof. intros Hp HP HQ. eapply wp_dev; [apply wp_and; [exact HP|by apply kb_other_in]|]. intros x d []. by apply HQ. Qed.
Lemma wp_outb p v s (Q : unit -> cons D -> Prop) P : wp (outb p v) P (c_dev s) ->
  (forall x d, P x d -> pending d = pending (c_dev s) -> Q x (c_set_dev d s)) -> wp (dev (outb p v)) Q s.
Proof. intros HP HQ. eapply wp_dev; [apply wp_and; [exact HP|apply kb_other_out]|]. intros x d []. by apply HQ. Qed.

Definition kept (s s' : cons D) : Prop := same_cons s s' /\ c_crt s' = c_crt s /\ crt_of (c_dev s') = crt_of (c_dev s).
#[local] Instance kept_pre : PreOrder kept.
Proof.
  split; [intros s; split; [reflexivity|done]|]. intros s1 s2 s3 (A1 & A2 & A3) (B1 & B2 & B3). split; [by etransitivity|]. split; congruence.
Qed.

Lemma wp_uart_wait n : forall s (Q : unit -> cons D -> Prop), (forall s', kept s s' -> Q tt s') -> wp (uart_wait n) Q s.
Proof.
  induction n as [|n IH]; intros s Q HQ; cbn [uart_wait]; [wp_step; by apply HQ|]. wp_step.
  eapply wp_inb; [done|apply crt_other_in; unfold COM1, CRTPORT; lia|]. intros x d Hd Hk.
  assert (K : kept s (c_set_dev d s)) by (split; [by apply same_cons_dev|done]). destruct (negb _); [wp_step; by apply HQ|].
  apply IH. intros s' K'. apply HQ. by etransitivity.
Qed.
Lemma wp_uartputc c s (Q : unit -> cons D -> Prop) : (forall s', kept s s' -> Q tt s') -> wp (uartputc c) Q s.
Proof.
  intros HQ. unfold uartputc. wp_steps. destruct (negb _); [wp_step; by apply HQ|]. wp_step. apply wp_uart_wait. intros s1 K1.
  eapply wp_outb; [apply crt_other_out; unfold COM1, CRTPORT; lia|]. intros u d Hd Hk. destruct u. apply HQ. etransitivity; [exact K1|]. split; [by apply same_cons_dev|done].
Qed.

(** ** [cgaputc] *)

(** The cursor and the cells after a character, before the final scroll. *)
Definition cga_move (c pos : Z) : Z := if c =? 10 then pos + (80 - pos mod 80) else if c =? BACKSPACE then Z.max 0 (pos - 1) else pos + 1.
Definition cga_cell (c pos : Z) (crt : Z -> Z) : Z -> Z :=
  if (c =? 10) || (c =? BACKSPACE) then crt else fun j => if j =? pos then Z.lor (Z.land c 255) 0x700 else crt j.
(** The whole effect: scrolling moves the lines up and clears the last one. *)
Definition cga_pos (c pos : Z) : Z := let p := cga_move c pos in if p <? 1920 then p else p - 80.
Definition cga_crt (c pos : Z) (crt : Z -> Z) : Z -> Z := fun j =>
  let p := cga_move c pos in
  if j =? cga_pos c pos then 0x720
  else if p <? 1920 then cga_cell c pos crt j
  else if (0 <=? j) && (j <? 1840) then cga_cell c pos crt (j + 80)
  else if (p - 80 <=? j) && (j <? 1920) then 0
  else cga_cell c pos crt j.

Lemma cga_move_range c pos : 0 <= pos < 1920 -> 0 <= cga_move c pos <= 1920.
Proof. intros Hp. unfold cga_move. destruct (c =? 10); [zlia|]. destruct (c =? BACKSPACE); lia. Qed.
Lemma cga_pos_range c pos : 0 <= pos < 1920 -> 0 <= cga_pos c pos < 1920.
Proof. intros Hp. pose proof (cga_move_range c pos Hp). unfold cga_pos. zcase; lia. Qed.

Lemma bytes_pos hi lo : 0 <= lo < 256 -> Z.lor (Z.shiftl hi 8) lo = 256 * hi + lo.
Proof. intros Hl. rewrite Z.shiftl_mul_pow2, lor_mul_pow2; lia. Qed.
Lemma split_pos p : 0 <= p < 1920 ->
  256 * u8 (Z.shiftr p 8) + u8 p = p /\ 0 <= u8 (Z.shiftr p 8) < 256 /\ 0 <= u8 p < 256.
Proof. intros Hp. rewrite Z.shiftr_div_pow2 by lia. unfold u8. change (2 ^ 8) with 256. zlia. Qed.

(** The four port operations that fetch the cursor, and the four that store it. *)
Lemma wp_get_cursor {A} (k : Z -> Z -> M (cons D) A) s Q :
  (forall s', same_cons s s' -> c_crt s' = c_crt s -> cr_hi (crt_of (c_dev s')) = cr_hi (crt_of (c_dev s)) ->
     cr_lo (crt_of (c_dev s')) = cr_lo (crt_of (c_dev s)) ->
     wp (k (cr_hi (crt_of (c_dev s))) (cr_lo (crt_of (c_dev s)))) Q s') ->
  wp (dev (outb CRTPORT 14) ;;; let! hi := dev (inb (CRTPORT + 1)) in
      dev (outb CRTPORT 15) ;;; let! lo := dev (inb (CRTPORT + 1)) in k hi lo) Q s.
Proof.
  intros Hk. wp_step. eapply wp_outb; [apply crt_select|]. intros ? d1 H1 G1. wp_step.
  eapply wp_inb; [done|apply crt_read|]. intros hi d2 (H2 & Hhi & _) G2. cbn in H2, Hhi. rewrite H1 in Hhi. rewrite Hhi by done.
  wp_step. eapply wp_outb; [apply crt_select|]. intros ? d3 H3 G3. cbn in H3. wp_step.
  eapply wp_inb; [done|apply crt_read|]. intros lo d4 (H4 & _ & Hlo) G4. cbn in H4, Hlo. rewrite H3, H2, H1 in Hlo. rewrite Hlo by done. cbn.
  apply Hk; [split; cbn in *; congruence|done|by rewrite ?H4; cbn; rewrite H4, H3, H2, H1|by cbn; rewrite H4, H3, H2, H1].
Qed.
Lemma wp_set_cursor {A} (k : M (cons D) A) hi lo s Q :
  (forall s', same_cons s s' -> c_crt s' = c_crt s -> crt_of (c_dev s') = mk_crtc 15 hi lo -> wp k Q s') ->
  wp (dev (outb CRTPORT 14) ;;; dev (outb (CRTPORT + 1) hi) ;;; dev (outb CRTPORT 15) ;;; dev (outb (CRTPORT + 1) lo) ;;; k) Q s.
Proof.
  intros Hk. wp_step. eapply wp_outb; [apply crt_select|]. intros ? d1 H1 G1. wp_step.
  eapply wp_outb; [apply crt_write|]. intros ? d2 (H2 & _) G2. cbn in H2. rewrite H1 in H2. specialize (H2 eq_refl). wp_step.
  eapply wp_outb; [apply crt_select|]. intros ? d3 H3 G3. cbn in H3. rewrite H2 in H3. wp_step.
  eapply wp_outb; [apply crt_write|]. intros ? d4 (_ & H4) G4. cbn in H4. rewrite H3 in H4. specialize (H4 eq_refl).
  apply Hk; [split; cbn in *; congruence|done|done].
Qed.

Lemma wp_cgaputc c s (Q : unit -> cons D -> Prop) : on_screen s ->
  (forall s', same_cons s s' -> on_screen s' -> cursor s' = cga_pos c (cursor s) ->
     (forall j, c_crt s' j = cga_crt c (cursor s) (c_crt s) j) -> Q tt s') ->
  wp (cgaputc c) Q s.
Proof.
  intros Hs HQ. unfold cgaputc. apply wp_get_cursor. intros s1 S1 C1 H1 L1. destruct Hs as [Hp Hlo Hhi Hpos].
  rewrite bytes_pos by done. change (256 * _ + _) with (cursor s). set (pos := cursor s) in *. rewrite Z.rem_mod_nonneg by lia.
  apply wp_bind, (wp_mono _ (fun p s2 => p = cga_move c pos /\ same_cons s s2 /\ forall j, c_crt s2 j = cga_cell c pos (c_crt s) j)).
  { unfold cga_move, cga_cell. destruct (c =? 10) eqn:E1; [wp_step; rewrite C1; by split_and!|]. destruct (c =? BACKSPACE) eqn:E2; cbn [orb].
    - wp_step. split; [zcase; lia|]. rewrite C1. by split.
    - wp_steps. split; [done|]. split; [by destruct S1|]. intros j. cbn. by rewrite C1. }
  intros p s2 (-> & S2 & C2). pose proof (cga_move_range c pos Hpos) as Hr. pose proof (cga_pos_range c pos Hpos) as Hr'.
  replace ((_ <? 0) || _) with false by (symmetry; apply orb_false_iff; split; apply Z.ltb_ge; lia).
  apply wp_bind, (wp_mono _ (fun p s3 => p = cga_pos c pos /\ same_cons s s3 /\
    forall j, j <> cga_pos c pos -> c_crt s3 j = cga_crt c pos (c_crt s) j)).
  { unfold cga_pos, cga_crt. rewrite Z.quot_div_nonneg by lia. replace (24 <=? _) with (negb (cga_move c pos <? 1920)) by (zcase; zlia).
    destruct (cga_move c pos <? 1920) eqn:E; cbn [negb].
    - wp_step. split; [done|]. split; [done|]. intros j Hj. rewrite C2. zcase; [|done]. unfold cga_pos in *. rewrite E in *. done.
    - wp_steps. split; [done|]. split; [by destruct S2|]. intros j Hj. unfold cga_pos in *. rewrite E in *. cbn. rewrite !C2.
      change (23 * 80) with 1840. change (24 * 80) with 1920. apply Z.ltb_ge in E.
      assert (cga_move c pos = 1920) as Hm by lia. rewrite Hm in *. destruct (Z.eqb_spec j (1920 - 80)); [done|].
      destruct (Z.leb_spec (1920 - 80) j), (Z.ltb_spec j 1920), (Z.leb_spec 0 j), (Z.ltb_spec j 1840); cbn; try lia; done. }
  intros p s3 (-> & S3 & C3). apply wp_set_cursor. intros s4 S4 C4 D4. destruct (split_pos _ Hr') as (E & E1 & E2).
  assert (K : same_cons s s4) by (by etransitivity). unfold put_cell. wp_step. apply HQ.
  - by destruct K.
  - split; cbn; [by rewrite (sc_panicked _ _ K)|by rewrite D4|by rewrite D4|]. unfold cursor, cr_pos. cbn. rewrite D4. cbn. lia.
  - unfold cursor, cr_pos. cbn. rewrite D4. cbn. lia.
  - intros j. cbn. rewrite C4. destruct (Z.eqb_spec j (cga_pos c pos)) as [->|Hj]; [|by apply C3].
    unfold cga_crt. by rewrite Z.eqb_refl.
Qed.

Lemma wp_consputc c s (Q : unit -> cons D -> Prop) : on_screen s ->
  (forall s', same_cons s s' -> on_screen s' -> cursor s' = cga_pos c (cursor s) ->
     (forall j, c_crt s' j = cga_crt c (cursor s) (c_crt s) j) -> Q tt s') ->
  wp (consputc c) Q s.
Proof.
  intros Hs HQ. unfold consputc. wp_steps. rewrite (os_panicked _ Hs).
  apply wp_bind, (wp_mono _ (fun _ s' => kept s s')).
  { destruct (c =? BACKSPACE); [|by apply wp_uartputc].
    wp_step. apply wp_uartputc. intros s1 K1. wp_step. apply wp_uartputc. intros s2 K2. apply wp_uartputc. intros s3 K3.
    do 2 (etransitivity; [eassumption|]). done. }
  intros _ s1 (K1 & K2 & K3).
  assert (Hc : cursor s1 = cursor s) by (unfold cursor; by rewrite K3).
  apply wp_cgaputc.
  - destruct Hs as [A1 A2 A3 A4]. split; rewrite ?K3, ?Hc; [by rewrite (sc_panicked _ _ K1)|done..].
  - intros s2 S2 O2 P2 C2. rewrite Hc, K2 in *. apply HQ; [by etransitivity|done|done|done].
Qed.

(** ** The line discipline *)

(** The finished input that waits for a reader, and the line that is being edited. *)
Record disc : Type := mk_disc { d_queue : list Z; d_line : list Z }.

Definition type_char (d : disc) (c : Z) : disc :=
  let '(mk_disc q l) := d in
  if c =? C 80 then d
  else if c =? C 85 then mk_disc q []
  else if (c =? C 72) || (c =? 127) then mk_disc q (removelast l)
  else if negb (c =? 0) && Nat.ltb (length q + length l) 128 then
    let c := if c =? 13 then 10 else c in
    let l := l ++ [c] in
    if (c =? 10) || (c =? C 68) || (length q + length l =? 128)%nat then mk_disc (q ++ l) [] else mk_disc q l
  else d.

(** The ring holds [l] in the slots from index [r] on. *)
Definition ring (buf : list Z) (r : Z) (l : list Z) : Prop := forall k b, l !! k = Some b -> buf !! in_slot (r + Z.of_nat k) = Some b.

Record holds (i : input_buf) (d : disc) : Prop := mk_holds {
  h_size : length (in_buf i) = 128%nat;
  h_r : 0 <= in_r i < W32;
  h_w : in_w i = u32 (in_r i + Z.of_nat (length (d_queue d)));
  h_e : in_e i = u32 (in_r i + Z.of_nat (length (d_queue d) + length (d_line d)));
  h_room : (length (d_queue d) + length (d_line d) <= 128)%nat;
  h_ring : ring (in_buf i) (in_r i) (d_queue d ++ d_line d);
  h_line : 10 ∉ d_line d
}.

Lemma in_slot_u32 x : in_slot (u32 x) = in_slot x.
Proof. unfold in_slot, u32, INPUT_BUF. f_equal. zlia. Qed.
Lemma in_slot_lt x : (in_slot x < 128)%nat.
Proof. unfold in_slot, INPUT_BUF. zlia. Qed.
Lemma in_slot_inj r a b : 0 <= a < 128 -> 0 <= b < 128 -> in_slot (r + a) = in_slot (r + b) -> a = b.
Proof. unfold in_slot, INPUT_BUF. intros. assert ((r + a) mod 128 = (r + b) mod 128) by zlia. zlia. Qed.

Lemma u32_add_inj r a b : 0 <= a < W32 -> 0 <= b < W32 -> u32 (r + a) = u32 (r + b) -> a = b.
Proof. unfold u32, W32. intros. zlia. Qed.
Lemma u32_add_u32 r a b : u32 (u32 (r + a) + b) = u32 (r + (a + b)).
Proof. unfold u32. zlia. Qed.
Lemma u32_sub_u32 r a : 0 <= a < W32 -> u32 (u32 (r + a) - r) = a.
Proof. unfold u32, W32. intros. zlia. Qed.

Lemma ring_take buf r l n : ring buf r l -> ring buf r (take n l).
Proof. intros H k b Hk. apply H. apply lookup_take_Some in Hk. by destruct Hk. Qed.
Lemma ring_drop buf r l n : ring buf r l -> ring buf (u32 (r + Z.of_nat n)) (drop n l).
Proof.
  intros H k b Hk. rewrite lookup_drop in Hk. rewrite <-in_slot_u32, u32_add_u32, in_slot_u32. rewrite <-Nat2Z.inj_add. by apply H.
Qed.
Lemma ring_snoc buf r l c : length buf = 128%nat -> (length l < 128)%nat -> ring buf r l ->
  ring (<[in_slot (r + Z.of_nat (length l)) := c]> buf) r (l ++ [c]).
Proof.
  intros Hb Hl H k b Hk. apply lookup_app_Some in Hk as [Hk|[Hle Hk]].
  - pose proof (lookup_lt_Some _ _ _ Hk). rewrite list_lookup_insert_ne; [by apply H|].
    intros He. apply in_slot_inj in He; lia.
  - destruct (k - length l)%nat eqn:E; [|done]. injection Hk as <-. replace k with (length l) by lia.
    rewrite list_lookup_insert_eq; [done|]. rewrite Hb. apply in_slot_lt.
Qed.

(** Everything but the input, the calls of [wakeup], the screen and the devices. *)
Record same_other (s s' : cons D) : Prop := mk_same_other {
  so_lock : c_lock s' = c_lock s;
  so_locking : c_locking s' = c_locking s;
  so_panicked : c_panicked s' = c_panicked s;
  so_uart : c_uart s' = c_uart s;
  so_shift : c_shift s' = c_shift s;
  so_pending : pending (c_dev s') = pending (c_dev s)
}.
#[local] Instance same_other_pre : PreOrder same_other.
Proof. split; [by split|]. intros s1 s2 s3 [] []. split; congruence. Qed.
Lemma same_cons_other s s' : same_cons s s' -> same_other s s'.
Proof. intros []. by split. Qed.
Lemma on_screen_input s f : on_screen s -> on_screen (c_set_input f s).
Proof. intros []. by split. Qed.
Lemma same_other_input s f : same_other s (c_set_input f s).
Proof. by split. Qed.

(** Removing the last character of the line. *)
Lemma holds_unput i q l c : holds i (mk_disc q (l ++ [c])) -> holds (set_e (u32 (in_e i - 1)) i) (mk_disc q l).
Proof.
  intros [H1 H2 H3 H4 H5 H6 H7]. cbn in *. rewrite length_app in *. cbn in *. split; cbn; try done.
  - rewrite H4. replace (u32 _ - 1) with (u32 (in_r i + Z.of_nat (length q + (length l + 1))) + -1) by lia. rewrite u32_add_u32. f_equal. lia.
  - lia.
  - pose proof (ring_take _ _ _ (length q + length l) H6) as Hr. by rewrite app_assoc, take_app_length' in Hr by (rewrite length_app; lia).
  - set_solver.
Qed.
Lemma holds_nonempty i q l : holds i (mk_disc q l) -> (in_e i =? in_w i) = bool_decide (l = []).
Proof.
  intros [H1 H2 H3 H4 H5 H6 H7]. cbn in *. rewrite H3, H4. case_bool_decide as E.
  - subst. by rewrite Nat.add_0_r, Z.eqb_refl.
  - apply Z.eqb_neq. intros He. apply u32_add_inj in He; [|unfold W32; lia..]. destruct l; [done|]. cbn in He. lia.
Qed.
Lemma holds_last i q l c : holds i (mk_disc q (l ++ [c])) -> in_buf i !! in_slot (u32 (in_e i - 1)) = Some c.
Proof.
  intros [H1 H2 H3 H4 H5 H6 H7]. cbn in *. rewrite length_app in *. cbn in *. rewrite H4.
  replace (u32 _ - 1) with (u32 (in_r i + Z.of_nat (length q + (length l + 1))) + -1) by lia. rewrite u32_add_u32, in_slot_u32.
  replace (Z.of_nat (length q + (length l + 1)) + -1) with (Z.of_nat (length q + length l)) by lia. apply H6.
  rewrite app_assoc, <-length_app. apply list_lookup_middle. done.
Qed.

Lemma wp_kill_line q : forall l fuel s (Q : unit -> cons D -> Prop), (length l < fuel)%nat -> on_screen s -> holds (c_input s) (mk_disc q l) ->
  (forall s', on_screen s' -> same_other s s' -> holds (c_input s') (mk_disc q []) -> Q tt s') -> wp (kill_line fuel) Q s.
Proof.
  intros l. induction l as [|c l IH] using rev_ind; intros fuel s Q Hf Hs Hi HQ; (destruct fuel as [|fuel]; [cbn in Hf; lia|]); cbn [kill_line]; wp_steps;
    rewrite (holds_nonempty _ _ _ Hi).
  - rewrite bool_decide_true by done. cbn. by apply HQ.
  - rewrite bool_decide_false by (by destruct l). rewrite (holds_last _ _ _ _ Hi). change (default 0 (Some c)) with c; cbn [negb andb].
    rewrite (proj2 (Z.eqb_neq c 10)) by (intros ->; apply (h_line _ _ Hi); set_solver). cbn. unfold on_input. wp_steps.
    apply wp_consputc; [by apply on_screen_input|]. intros s1 S1 O1 _ _. rewrite length_app in Hf. cbn in Hf. apply IH; [lia|done| |].
    + rewrite (sc_input _ _ S1). cbn. by eapply holds_unput.
    + intros s2 O2 S2 H2. apply HQ; [done| |done]. etransitivity; [|exact S2]. etransitivity; [apply same_other_input|apply same_cons_other, S1].
Qed.

Lemma holds_put i q l c : holds i (mk_disc q l) -> (length q + length l < 128)%nat -> c <> 10 ->
  holds (mk_input (<[in_slot (in_e i) := c]> (in_buf i)) (in_r i) (in_w i) (u32 (in_e i + 1))) (mk_disc q (l ++ [c])).
Proof.
  intros [H1 H2 H3 H4 H5 H6 H7] Hr Hc. cbn in *. rewrite H4, in_slot_u32. split; cbn; rewrite ?length_insert, ?length_app; cbn; try done.
  - rewrite u32_add_u32. f_equal. lia.
  - lia.
  - rewrite app_assoc, <-length_app. apply ring_snoc; [done|rewrite length_app; lia|done].
  - set_solver.
Qed.
(** A character that ends the line, or fills the buffer, finishes the line. *)
Lemma holds_commit i q l c : holds i (mk_disc q l) -> (length q + length l < 128)%nat ->
  let e := u32 (in_e i + 1) in
  holds (mk_input (<[in_slot (in_e i) := c]> (in_buf i)) (in_r i) e e) (mk_disc (q ++ l ++ [c]) []).
Proof.
  intros [H1 H2 H3 H4 H5 H6 H7] Hr e. unfold e. cbn in *. rewrite H4, in_slot_u32, u32_add_u32. split; cbn; rewrite ?length_insert, ?length_app; cbn; try done.
  - f_equal. lia.
  - f_equal. lia.
  - lia.
  - rewrite app_nil_r, app_assoc, <-length_app. apply ring_snoc; [done|rewrite length_app; lia|done].
  - set_solver.
Qed.

Lemma wp_console_char c d s (Q : bool -> cons D -> Prop) : 0 <= c < 256 -> on_screen s -> holds (c_input s) d ->
  (forall s', on_screen s' -> same_other s s' -> holds (c_input s') (type_char d c) -> Q (c =? C 80) s') ->
  wp (console_char c) Q s.
Proof.
  intros Hc Hs Hi HQ. destruct d as [q l]. unfold console_char, type_char in *. wp_steps. destruct (c =? C 80) eqn:E1; [by apply HQ|].
  destruct (c =? C 85) eqn:E2.
  { wp_steps. apply (wp_kill_line q l); [|done|done|]; [pose proof (h_room _ _ Hi); cbn in *; lia|]. intros s1 O1 S1 H1. wp_steps. by apply HQ. }
  destruct ((c =? C 72) || (c =? 127)) eqn:E3.
  { rewrite (holds_nonempty _ _ _ Hi). destruct l as [|x l _] using rev_ind; [rewrite bool_decide_true by done; wp_steps; by apply HQ|].
    rewrite bool_decide_false by (by destruct l). cbn [negb]. unfold on_input. wp_steps.
    apply wp_consputc; [by apply on_screen_input|]. intros s1 S1 O1 _ _. wp_steps. apply HQ; [done| |].
    - etransitivity; [apply same_other_input|apply same_cons_other, S1].
    - rewrite (sc_input _ _ S1), removelast_last. cbn. by eapply holds_unput. }
  assert (Hfull : (u32 (in_e (c_input s) - in_r (c_input s)) <? INPUT_BUF) = Nat.ltb (length q + length l) 128).
  { destruct Hi as [H1 H2 H3 H4 H5 H6 H7]. cbn in H4, H5. rewrite H4, u32_sub_u32 by (unfold W32; lia). unfold INPUT_BUF.
    apply eq_iff_eq_true. rewrite Z.ltb_lt, Nat.ltb_lt. lia. }
  rewrite Hfull. destruct (negb (c =? 0) && _) eqn:E4; [|wp_steps; by apply HQ].
  apply andb_true_iff in E4 as [_ E4%Nat.ltb_lt]. set (c' := if c =? 13 then 10 else c) in *.
  assert (Hc' : u8 c' = c') by (apply u8_small; unfold c'; zcase; lia). rewrite Hc'.
  unfold on_input. wp_steps. apply wp_consputc; [by apply on_screen_input|]. intros s1 S1 O1 _ _. wp_steps. rewrite (sc_input _ _ S1). cbn.
  assert (Hat : (u32 (in_e (c_input s) + 1) =? u32 (in_r (c_input s) + INPUT_BUF)) = (length q + length (l ++ [c']) =? 128)%nat).
  { destruct Hi as [H1 H2 H3 H4 H5 H6 H7]. cbn in *. rewrite H4, u32_add_u32, length_app. cbn. unfold INPUT_BUF.
    destruct (Nat.eqb_spec (length q + (length l + 1)) 128) as [E|E]; [apply Z.eqb_eq; f_equal; lia|].
    apply Z.eqb_neq. intros He. apply u32_add_inj in He; unfold W32; lia. }
  assert (So : same_other s s1) by (etransitivity; [apply same_other_input|apply same_cons_other, S1]).
  rewrite Hat. destruct ((c' =? 10) || (c' =? C 68) || _) eqn:E5; wp_steps; (apply HQ; [by destruct O1|by destruct So|]); cbn; rewrite (sc_input _ _ S1); cbn.
  - exact (holds_commit _ _ _ c' Hi E4).
  - apply holds_put; [done|done|]. intros Hn. by rewrite Hn in E5.
Qed.

(** ** The keyboard *)

(** What a scan code does to the shift state, and the character it gives; 0 is none. *)
Definition kbd_key (shift data : Z) : Z * Z :=
  if data =? 0xE0 then (Z.lor shift E0ESC, 0)
  else if negb (Z.land data 0x80 =? 0) then
    (Z.ldiff shift (Z.lor (shiftcode (if negb (Z.land shift E0ESC =? 0) then data else Z.land data 0x7F)) E0ESC), 0)
  else
    let escaped := negb (Z.land shift E0ESC =? 0) in
    let data := if escaped then Z.lor data 0x80 else data in
    let shift := Z.lxor (Z.lor (if escaped then Z.ldiff shift E0ESC else shift) (shiftcode data)) (togglecode data) in
    let c := charcode (Z.land shift (Z.lor CTL SHIFT)) data in
    let lower := (97 <=? c) && (c <=? 122) in
    let upper := (65 <=? c) && (c <=? 90) in
    (shift, if negb (Z.land shift CAPSLOCK =? 0) then if lower then c - 32 else if upper then c + 32 else c else c).
Fixpoint kbd_keys (shift : Z) (l : list Z) : Z * list Z :=
  match l with
  | [] => (shift, [])
  | x :: l => let '(shift, c) := kbd_key shift x in let '(shift, cs) := kbd_keys shift l in (shift, c :: cs)
  end.

Lemma key_table_range first others data : Forall (fun x => 0 <= x < 256) first -> Forall (fun x => 0 <= x.2 < 256) others ->
  0 <= key_table first others data < 256.
Proof.
  intros Hf Ho. unfold key_table. destruct (find _ others) as [x|] eqn:E.
  - apply find_some in E as [E _]. rewrite Forall_forall in Ho. apply Ho. by apply list_elem_of_In.
  - destruct (first !! _) as [x|] eqn:E'; [|cbn; lia]. cbn. by eapply Forall_lookup_1 in Hf.
Qed.
Lemma charcode_range i data : 0 <= charcode i data < 256.
Proof.
  unfold charcode, normalmap, shiftmap, ctlmap. destruct (i =? 0); [|destruct (i =? 1)]; apply key_table_range; repeat constructor; cbn; lia.
Qed.
Lemma kbd_key_range shift data : 0 <= (kbd_key shift data).2 < 256.
Proof.
  unfold kbd_key. destruct (data =? 0xE0); [cbn; lia|]. destruct (negb (Z.land data 0x80 =? 0)); [cbn; lia|]. cbn [snd].
  set (c := charcode _ _). assert (Hc : 0 <= c < 256) by apply charcode_range. destruct (negb (Z.land _ CAPSLOCK =? 0)); [|done].
  destruct ((97 <=? c) && (c <=? 122)) eqn:E1; [|destruct ((65 <=? c) && (c <=? 90)) eqn:E2; [|done]].
  - apply andb_true_iff in E1 as [E1%Z.leb_le _]. lia.
  - apply andb_true_iff in E2 as [_ E2%Z.leb_le]. lia.
Qed.

(** The console with another shift state and other pending keys. *)
Record got_key (s s' : cons D) (shift : Z) (keys : list Z) : Prop := mk_got_key {
  gk_lock : c_lock s' = c_lock s;
  gk_locking : c_locking s' = c_locking s;
  gk_panicked : c_panicked s' = c_panicked s;
  gk_crt : c_crt s' = c_crt s;
  gk_input : c_input s' = c_input s;
  gk_uart : c_uart s' = c_uart s;
  gk_cursor : crt_of (c_dev s') = crt_of (c_dev s);
  gk_shift : c_shift s' = shift;
  gk_keys : pending (c_dev s') = keys
}.
Lemma got_key_on_screen s s' shift keys : got_key s s' shift keys -> on_screen s -> on_screen s'.
Proof. intros [] []. unfold cursor in *. split; unfold cursor in *; congruence. Qed.

Lemma wp_kbdgetc s (Q : Z -> cons D -> Prop) :
  (forall s', match pending (c_dev s) with
              | [] => got_key s s' (c_shift s) [] -> Q (-1) s'
              | x :: keys => got_key s s' (kbd_key (c_shift s) x).1 keys -> Q (kbd_key (c_shift s) x).2 s'
              end) -> wp kbdgetc Q s.
Proof.
  intros HQ. unfold kbdgetc. wp_step. eapply wp_inb; [done|apply wp_and; [apply kb_status|by apply crt_other_in]|].
  intros st d1 [Hst C1] K1. destruct (Z.eqb_spec (Z.land st KBS_DIB) 0) as [E|E].
  { wp_step. apply Hst in E. specialize (HQ (c_set_dev d1 s)). rewrite E in *. apply HQ. by split. }
  destruct (pending (c_dev s)) as [|x keys] eqn:Ek; [exfalso; apply E; by apply Hst|].
  wp_step. eapply wp_dev; [apply wp_and; [apply kb_data|by apply crt_other_in]|]. intros data d2 [Hd C2]. cbn in Hd, C2.
  rewrite K1 in Hd. specialize (Hd ltac:(done)). injection Hd as <- Hk. wp_steps. cbn.
  assert (G : forall sh, got_key s (c_set_shift sh (c_set_dev d2 (c_set_dev d1 s))) sh keys) by (intros sh; split; cbn; congruence).
  unfold kbd_key in HQ. destruct (x =? 0xE0); [wp_steps; by apply HQ|]. destruct (negb (Z.land x 0x80 =? 0)); [wp_steps; by apply HQ|].
  destruct (negb (Z.land (c_shift s) E0ESC =? 0)); cbn [fst snd] in HQ; wp_steps;
    (destruct (negb (Z.land _ CAPSLOCK =? 0)); [|wp_steps; by apply HQ]; repeat case_match; wp_steps; by apply HQ).
Qed.

Lemma wp_console_chars : forall keys fuel s d b (Q : bool -> cons D -> Prop), (length keys < fuel)%nat -> pending (c_dev s) = keys ->
  on_screen s -> holds (c_input s) d ->
  (forall s', on_screen s' -> c_lock s' = c_lock s -> pending (c_dev s') = [] -> c_shift s' = (kbd_keys (c_shift s) keys).1 ->
     holds (c_input s') (foldl type_char d (kbd_keys (c_shift s) keys).2) ->
     Q (b || existsb (fun c => c =? C 80) (kbd_keys (c_shift s) keys).2) s') ->
  wp (console_chars fuel kbdgetc b) Q s.
Proof.
  induction keys as [|x keys IH]; intros fuel s d b Q Hf Hk Hs Hi HQ; (destruct fuel as [|fuel]; [cbn in Hf; lia|]); cbn [console_chars]; wp_step;
    apply wp_kbdgetc; intros s1; rewrite Hk; intros G1; pose proof (got_key_on_screen _ _ _ _ G1 Hs) as O1.
  - cbn. wp_steps. rewrite orb_false_r in HQ. apply HQ; [done|apply G1..|]. by rewrite (gk_input _ _ _ _ G1).
  - pose proof (kbd_key_range (c_shift s) x) as Hr. rewrite (proj2 (Z.ltb_ge _ _)) by lia. wp_step.
    apply (wp_console_char _ d); [done|done|by rewrite (gk_input _ _ _ _ G1)|]. intros s2 O2 S2 H2.
    destruct G1 as [A1 A2 A3 A4 A5 A6 A7 A8 A9], S2 as [B1 B2 B3 B4 B5 B6].
    eapply IH; [cbn in Hf; lia|congruence|done|exact H2|]. intros s3 O3 L3 P3 T3 H3. cbn [kbd_keys] in HQ.
    rewrite B5, A8 in *. destruct (kbd_key (c_shift s) x) as [sh c] eqn:E1. cbn [fst snd] in *. destruct (kbd_keys sh keys) as [sh' cs].
    cbn in *. rewrite <-orb_assoc. apply HQ; [done|congruence|done|done|done].
Qed.

(** ** Reading *)

(** What a reader that wants [n] more bytes of [target] gets of the finished input [q], and
    what it leaves: at most [n] bytes, up to and including a newline, or up to a control-D.
    The control-D is left for the next call unless the call has read nothing. *)
Definition reads (n target : nat) (killed : bool) (q : list Z) (r : cread) (q' : list Z) : Prop :=
  match r with
  | CDone l => C 68 ∉ l /\ 10 ∉ removelast l /\ (length l <= n)%nat /\
      ((q = l ++ q' /\ (length l = n \/ last l = Some 10)) \/
       (exists rest, q = l ++ C 68 :: rest /\ last l <> Some 10 /\ (length l < n)%nat /\
          q' = if (n - length l <? target)%nat then C 68 :: rest else rest))
  | CSleep l => killed = false /\ q = l /\ q' = [] /\ C 68 ∉ l /\ 10 ∉ l /\ (length l < n)%nat
  | CKilled => killed = true /\ q' = [] /\ C 68 ∉ q /\ 10 ∉ q /\ (length q < n)%nat
  end.

Lemma reads_cons n target killed c q r q' : c <> C 68 -> c <> 10 -> reads n target killed q r q' ->
  reads (S n) target killed (c :: q) (match r with CDone l => CDone (c :: l) | CSleep l => CSleep (c :: l) | CKilled => CKilled end) q'.
Proof.
  intros H1 H2. destruct r as [l|l|]; cbn [reads].
  - intros (A1 & A2 & A3 & A4). split_and!; [set_solver|destruct l; set_solver|cbn; lia|]. destruct A4 as [(-> & A4)|(rest & -> & A4 & A5 & A6)].
    + left. split; [done|]. destruct A4 as [A4|A4]; [left; cbn; lia|right; by rewrite last_cons, A4].
    + right. exists rest. split_and!; [done| |cbn; lia|done]. rewrite last_cons. destruct (last l); [done|congruence].
  - intros (A1 & -> & A2 & A3 & A4 & A5). split_and!; set_solver + H1 H2 A3 A4 || (cbn; lia) || done.
  - intros (A1 & A2 & A3 & A4 & A5). split_and!; set_solver + H1 H2 A3 A4 || (cbn; lia) || done.
Qed.

(** The reader takes the first byte. *)
Lemma holds_take i c q l : holds i (mk_disc (c :: q) l) -> holds (set_r (u32 (in_r i + 1)) i) (mk_disc q l).
Proof.
  intros [H1 H2 H3 H4 H5 H6 H7]. cbn in *. split; cbn; try done.
  - apply u32_range.
  - rewrite H3, u32_add_u32. f_equal. lia.
  - rewrite H4, u32_add_u32. f_equal. lia.
  - lia.
  - by apply (ring_drop _ _ _ 1) in H6.
Qed.
Lemma holds_first i c q l : holds i (mk_disc (c :: q) l) -> in_buf i !! in_slot (in_r i) = Some c /\ in_r i <> in_w i.
Proof.
  intros [H1 H2 H3 H4 H5 H6 H7]. cbn in *. split.
  - rewrite <-(Z.add_0_r (in_r i)). by apply (H6 0%nat).
  - rewrite H3. rewrite <-(u32_small (in_r i)) at 1 by done. rewrite <-(Z.add_0_r (in_r i)) at 1. intros He. apply u32_add_inj in He; unfold W32; lia.
Qed.

Definition out_app (l : list Z) (r : cread) : cread :=
  match r with CDone l' => CDone (l ++ l') | CSleep l' => CSleep (l ++ l') | CKilled => CKilled end.

Lemma wp_consoleread_loop l target killed : forall n q got s (Q : cread -> cons D -> Prop), holds (c_input s) (mk_disc q l) ->
  (forall r q' i, reads n target killed q r q' -> holds i (mk_disc q' l) -> Q (out_app got r) (c_set_input i s)) ->
  wp (consoleread_loop n (Z.of_nat target) killed got) Q s.
Proof.
  induction n as [|n IH]; intros q got s Q Hi HQ; cbn [consoleread_loop].
  { wp_step. specialize (HQ (CDone []) q (c_input s)). cbn in HQ. rewrite app_nil_r in HQ. replace s with (c_set_input (c_input s) s) by (by destruct s).
    apply HQ; [|done]. split_and!; [set_solver|set_solver|lia|]. left. split; [done|by left]. }
  wp_step. wp_step. destruct q as [|c q].
  { assert (in_r (c_input s) = in_w (c_input s)) as ->; [|rewrite Z.eqb_refl].
    { destruct Hi as [H1 H2 H3 H4 H5 H6 H7]. cbn in *. by rewrite H3, Z.add_0_r, u32_small. }
    wp_step. replace s with (c_set_input (c_input s) s) by (by destruct s). destruct killed.
    - apply (HQ CKilled []); [|done]. split_and!; [done|done|set_solver|set_solver|cbn; lia].
    - specialize (HQ (CSleep []) []). cbn in HQ. rewrite app_nil_r in HQ. apply HQ; [|done]. split_and!; try done; [set_solver|set_solver|lia]. }
  destruct (holds_first _ _ _ _ Hi) as [Hb Hne]. rewrite (proj2 (Z.eqb_neq _ _) Hne), Hb. change (default 0 (Some c)) with c.
  unfold on_input. wp_step. wp_step. pose proof (holds_take _ _ _ _ Hi) as Ht. destruct (Z.eqb_spec c (C 68)) as [->|N1].
  { specialize (HQ (CDone [])). cbn [out_app] in HQ. rewrite app_nil_r in HQ. destruct (Z.ltb_spec (Z.of_nat (S n)) (Z.of_nat target)) as [L|L]; wp_steps; cbn.
    - replace (u32 (u32 (in_r (c_input s) + 1) - 1)) with (in_r (c_input s))
        by (destruct Hi as [H1 H2 H3 H4 H5 H6 H7]; unfold u32, W32 in *; zlia).
      apply (HQ (C 68 :: q) (set_r (in_r (c_input s)) (set_r (u32 (in_r (c_input s) + 1)) (c_input s)))); [|by destruct Hi].
      split_and!; [set_solver|set_solver|cbn; lia|]. right. exists q. split_and!; [done|done|cbn; lia|]. cbn [length]. rewrite (proj2 (Nat.ltb_lt _ _)) by lia. done.
    - apply (HQ q); [|done]. split_and!; [set_solver|set_solver|cbn; lia|]. right. exists q. split_and!; [done|done|cbn; lia|].
      cbn [length]. rewrite (proj2 (Nat.ltb_ge _ _)) by lia. done. }
  destruct (Z.eqb_spec c 10) as [->|N2].
  { wp_step. apply (HQ (CDone [10]) q); [|done]. split_and!; [set_solver|set_solver|cbn; lia|]. left. split; [done|by right]. }
  eapply IH; [exact Ht|]. intros r q' i Hr Hi'. apply (reads_cons _ _ _ _ _ _ _ N1 N2) in Hr. specialize (HQ _ q' i Hr Hi').
  by destruct r; cbn [out_app] in *; rewrite <-?app_assoc.
Qed.

(** ** The console as a whole *)

(** Between two calls nobody holds the lock. *)
Record ready (s : cons D) (d : disc) : Prop := mk_ready {
  rd_lock : c_lock s = initlock;
  rd_screen : on_screen s;
  rd_input : holds (c_input s) d
}.

(** C21: The ring buffer of the console, with its indices that wrap around, implements a queue of
    finished input and a line that is being edited: a keyboard interrupt types the characters
    of the pending scan codes, one after the other, whatever the screen does meanwhile; a
    read takes bytes from the front of the queue up to a newline or a control-D. *)
Theorem console_line_discipline s d fuel n killed : ready s d -> (length (pending (c_dev s)) < fuel)%nat ->
  let typed := (kbd_keys (c_shift s) (pending (c_dev s))).2 in
  wp (kbdintr me fuel) (fun dump s' => dump = existsb (fun c => c =? C 80) typed /\ ready s' (foldl type_char d typed) /\ pending (c_dev s') = []) s /\
  wp (consoleread me (Z.of_nat n) (Z.of_nat n) killed)
     (fun r s' => exists q', reads n n killed (d_queue d) r q' /\ ready s' (mk_disc q' (d_line d))) s.
Proof.
  intros [Hl Hs Hi] Hf typed. split.
  - unfold kbdintr, consoleintr. wp_step. apply wp_acquire; [done|]. wp_step.
    eapply (wp_console_chars (pending (c_dev s))); [done|done|by destruct Hs|exact Hi|].
    intros s1 O1 L1 P1 T1 H1. wp_step. apply wp_release; [by rewrite L1|]. wp_step. split_and!; [done| |done].
    split; [done|by destruct O1|exact H1].
  - unfold consoleread. wp_step. apply wp_acquire; [done|]. wp_step. rewrite Nat2Z.id. destruct d as [q l].
    eapply wp_consoleread_loop; [exact Hi|]. intros r q' i Hr Hi'. wp_step. apply wp_release; [done|]. wp_step.
    exists q'. split; [by destruct r|]. split; [done|by destruct Hs|exact Hi'].
Qed.

(** The cursor and the cells after a text. *)
Fixpoint show (text : list Z) (pos : Z) (crt : Z -> Z) : Z * (Z -> Z) :=
  match text with [] => (pos, crt) | c :: text => show text (cga_pos c pos) (cga_crt c pos crt) end.
Lemma show_ext text : forall pos crt crt', (forall j, crt j = crt' j) ->
  (show text pos crt).1 = (show text pos crt').1 /\ forall j, (show text pos crt).2 j = (show text pos crt').2 j.
Proof.
  induction text as [|c text IH]; intros pos crt crt' He; [done|]. cbn [show]. apply IH. intros j.
  assert (Hc : forall j, cga_cell c pos crt j = cga_cell c pos crt' j) by (intros k; unfold cga_cell; destruct (_ || _); [done|]; destruct (k =? pos); done).
  unfold cga_crt. by rewrite !Hc.
Qed.

Lemma wp_cput_str text : forall s (Q : unit -> cons D -> Prop), on_screen s ->
  (forall s', same_cons s s' -> on_screen s' -> cursor s' = (show text (cursor s) (c_crt s)).1 ->
    (forall j, c_crt s' j = (show text (cursor s) (c_crt s)).2 j) -> Q tt s') -> wp (cput_str text) Q s.
Proof.
  induction text as [|c text IH]; intros s Q Hs HQ; cbn [cput_str show] in *; [wp_step; by apply HQ|].
  wp_step. apply wp_consputc; [done|]. intros s1 S1 O1 P1 C1. apply IH; [done|]. intros s2 S2 O2 P2 C2.
  destruct (show_ext text (cursor s1) _ _ C1) as [E1 E2]. rewrite P1 in *. apply HQ; [by etransitivity|done|congruence|].
  intros j. by rewrite C2, E2.
Qed.

(** Cells outside the 24 lines that scroll are never written. *)
Lemma show_outside text : forall pos crt j, 0 <= pos < 1920 -> ~ 0 <= j < 1920 -> (show text pos crt).2 j = crt j.
Proof.
  induction text as [|c text IH]; intros pos crt j Hp Hj; [done|]. cbn [show]. pose proof (cga_pos_range c pos Hp) as Hr.
  rewrite IH by done. unfold cga_crt. rewrite (proj2 (Z.eqb_neq j _)) by lia.
  assert (Hc : cga_cell c pos crt j = crt j) by (unfold cga_cell; destruct (_ || _); [done|]; by rewrite (proj2 (Z.eqb_neq j pos)) by lia).
  destruct (Z.ltb_spec (cga_move c pos) 1920); [done|]. destruct (Z.leb_spec 0 j), (Z.ltb_spec j 1840), (Z.leb_spec (cga_move c pos - 80) j), (Z.ltb_spec j 1920); cbn; done || lia.
Qed.

(** Writing to the console never panics and returns the number of bytes: the text is shown
    from the cursor on, the lines scroll when the cursor leaves the last one, the cursor stays
    on the 24 lines and no cell outside them is written. *)
Theorem consolewrite_shows s d buf : ready s d ->
  wp (consolewrite me buf) (fun r s' => r = Z.of_nat (length buf) /\ ready s' d /\
    cursor s' = (show (map u8 buf) (cursor s) (c_crt s)).1 /\
    (forall j, c_crt s' j = (show (map u8 buf) (cursor s) (c_crt s)).2 j) /\
    (forall j, ~ 0 <= j < 1920 -> c_crt s' j = c_crt s j)) s.
Proof.
  intros [Hl Hs Hi]. unfold consolewrite. wp_step. apply wp_acquire; [done|]. wp_step.
  replace (map (fun c => Z.land c 255) buf) with (map u8 buf)
    by (apply map_ext; intros c; unfold u8; change 255 with (Z.ones 8); by rewrite Z.land_ones).
  apply wp_cput_str; [by destruct Hs|]. intros s1 S1 O1 P1 C1. wp_step. apply wp_release; [by rewrite (sc_lock _ _ S1)|]. wp_step.
  split_and!; [done| |exact P1|exact C1|].
  - split; [done|by destruct O1|]. cbn. by rewrite (sc_input _ _ S1).
  - intros j Hj. cbn. rewrite C1. apply show_outside; [apply Hs|done].
Qed.
End screen.

(** ** A machine with a screen and a keyboard *)

Record pc_dev : Type := mk_pc { pc_crtc : crtc; pc_keys : list Z }.

#[global] Instance pc_ports : Ports pc_dev := {|
  inb p d :=
    if p =? CRTPORT + 1 then Ok (if cr_sel (pc_crtc d) =? 14 then cr_hi (pc_crtc d) else cr_lo (pc_crtc d)) d
    else if p =? KBSTATP then Ok (match pc_keys d with [] => 0 | _ => 1 end) d
    else if p =? KBDATAP then match pc_keys d with [] => Ok 0 d | x :: l => Ok x (mk_pc (pc_crtc d) l) end
    else Ok 0 d;
  outb p v d :=
    if p =? CRTPORT then Ok tt (mk_pc (mk_crtc v (cr_hi (pc_crtc d)) (cr_lo (pc_crtc d))) (pc_keys d))
    else if p =? CRTPORT + 1 then
      Ok tt (mk_pc (if cr_sel (pc_crtc d) =? 14 then mk_crtc 14 v (cr_lo (pc_crtc d)) else mk_crtc (cr_sel (pc_crtc d)) (cr_hi (pc_crtc d)) v) (pc_keys d))
    else Ok tt d
|}.

#[global, refine] Instance pc_crt : Crt pc_dev := {| crt_of := pc_crtc; pending := pc_keys |}.
Proof.
  - by intros [[] ?] v.
  - intros [[sel hi lo] k]. unfold wp. cbn. split_and!; [done|by intros ->|by intros ->].
  - intros [[sel hi lo] k] v. unfold wp. cbn. split; by intros ->.
  - intros [c k] p H1 H2. unfold wp, inb, pc_ports. rewrite (proj2 (Z.eqb_neq p _) H2). by repeat case_match; simplify_eq/=.
  - intros [c k] p v H1 H2. unfold wp, outb, pc_ports. by rewrite (proj2 (Z.eqb_neq p _) H1), (proj2 (Z.eqb_neq p _) H2).
  - intros [c k]. unfold wp. cbn. destruct k; by split.
  - intros [c k]. unfold wp. cbn. destruct k; intros H; [by destruct (H eq_refl)|done].
  - intros [c k] p H. unfold wp, inb, pc_ports. rewrite (proj2 (Z.eqb_neq p _) H). by repeat case_match; simplify_eq/=.
  - intros [c k] p v. unfold wp, outb, pc_ports. by repeat case_match; simplify_eq/=.
Defined.

(** The scan codes of [hi], backspace, [o] and Enter, after which a program reads 10 bytes. *)
Definition demo_cons : cons pc_dev :=
  mk_cons initlock true false (fun _ => 0) (mk_input (replicate 128 0) 4294967295 4294967295 4294967295) 0 false 0
    (mk_pc (mk_crtc 0 7 100) [0x23; 0x17; 0x0e; 0x18; 0x1c]).
Lemma demo_cons_ready : ready demo_cons (mk_disc [] []).
Proof.
  split; [done|by split; vm_compute|]. split; [done|by vm_compute|done|done|by apply Nat.le_0_l|by intros k b Hk|apply not_elem_of_nil].
Qed.

Lemma demo_line : foldl type_char (mk_disc [] []) (kbd_keys (c_shift demo_cons) (pending (c_dev demo_cons))).2 = mk_disc (line "ho") [].
Proof. vm_compute. reflexivity. Qed.
Lemma reads_ho r q' : reads 10 10 false (line "ho") r q' -> r = CDone (line "ho").
Proof.
  destruct r as [l|l|]; cbn [reads].
  - intros (H1 & H2 & H3 & [(E & H)|(rest & E & _)]).
    + destruct l as [|a [|b [|c l]]]; cbn in E; simplify_eq/=; [by destruct H..|]. destruct l; [done|]. by destruct l.
    + destruct l as [|a [|b [|c l]]]; cbn in E; simplify_eq/=. by destruct l.
  - intros (_ & <- & _ & _ & H & _). exfalso. apply H. cbn. rewrite !elem_of_cons. auto.
  - by intros [? _].
Qed.

Lemma console_line_discipline_witness :
  wp (kbdintr 0 10 ;;; consoleread 0 (Z.of_nat 10) (Z.of_nat 10) false) (fun r _ => r = CDone (line "ho")) demo_cons.
Proof.
  apply wp_bind. destruct (console_line_discipline 0 demo_cons (mk_disc [] []) 10 10 false demo_cons_ready ltac:(cbn; lia)) as [H _].
  rewrite demo_line in H. eapply wp_mono; [exact H|]. intros x s (_ & R & P).
  destruct (console_line_discipline 0 s _ 10 10 false R ltac:(rewrite P; cbn; lia)) as [_ H'].
  eapply wp_mono; [exact H'|]. intros r s' (q' & Hr & _). exact (reads_ho r q' Hr).
Defined.

Lemma consolewrite_shows_witness :
  wp (consolewrite 0 (line "ok")) (fun r s => r = 3 /\ cursor s = 1840 + 80 - 80) demo_cons.
Proof.
  eapply wp_mono; [exact (consolewrite_shows 0 demo_cons (mk_disc [] []) (line "ok") demo_cons_ready)|].
  intros r s (H1 & _ & H2 & _). split; [exact H1|]. rewrite H2. by vm_compute.
Defined.
