(* ===== verification/ConsoleTypes.v ===== *)
(** * The types of the console's data
      ([src/xv6/console.c], [src/xv6/uart.c], [src/xv6/kbd.c])

    The state of [Console.v] is made of integers; in the source they are the cells of a
    [ushort] array, the bytes of [input.buf], three [uint] indices and the [uint] shift state.
    [cons_ok] says that every one of them is in the range of its C type, and [typed m R] that
    [m] keeps it so and returns a value of type [R].  The rules follow the structure of the
    code, and the device only has to give bytes. *)

From S2P Require Import Prelude Spinlock Ulib Console ConsoleProps.

Definition uchar (x : Z) : Prop := 0 <= x < 256.
Definition ushort (x : Z) : Prop := 0 <= x < 65536.
Definition uint (x : Z) : Prop := 0 <= x < 4294967296.
(** What [getc] returns: a byte, or -1. *)
Definition keycode (x : Z) : Prop := x = -1 \/ uchar x.

Definition input_ok (i : input_buf) : Prop :=
  Z.of_nat (length (in_buf i)) = INPUT_BUF /\ Forall uchar (in_buf i) /\ uint (in_r i) /\ uint (in_w i) /\ uint (in_e i).
Definition cons_ok {D} (s : cons D) : Prop :=
  (forall j, ushort (c_crt s j)) /\ input_ok (c_input s) /\ uint (c_shift s).

Definition typed {D A} (m : M (cons D) A) (R : A -> Prop) : Prop :=
  forall s, cons_ok s -> match m s with Ok a s' => cons_ok s' /\ R a | Blocked s' => cons_ok s' | _ => True end.

Abbreviation any := (fun _ => True) (only parsing).

(** The devices answer with bytes. *)
Class ByteDev (D : Type) `{!Ports D} : Prop := inb_byte : forall p d, match inb p d with Ok x _ => uchar x | _ => True end.

(** ** Ranges *)

Lemma uint_bits x : 0 <= x -> uint x <-> forall l, 32 <= l -> Z.testbit x l = false.
Proof. intros Hx. unfold uint. change 4294967296 with (2 ^ 32). rewrite <- Z.bounded_iff_bits_nonneg by lia. lia. Qed.
Lemma uint_lor x y : uint x -> uint y -> uint (Z.lor x y).
Proof.
  intros Hx Hy. apply uint_bits; [apply Z.lor_nonneg; unfold uint in *; lia|]. intros l Hl.
  rewrite Z.lor_spec. by rewrite (proj1 (uint_bits x ltac:(unfold uint in *; lia)) Hx l Hl), (proj1 (uint_bits y ltac:(unfold uint in *; lia)) Hy l Hl).
Qed.
Lemma uint_lxor x y : uint x -> uint y -> uint (Z.lxor x y).
Proof.
  intros Hx Hy. apply uint_bits; [apply Z.lxor_nonneg; unfold uint in *; lia|]. intros l Hl.
  rewrite Z.lxor_spec. by rewrite (proj1 (uint_bits x ltac:(unfold uint in *; lia)) Hx l Hl), (proj1 (uint_bits y ltac:(unfold uint in *; lia)) Hy l Hl).
Qed.
Lemma uint_ldiff x y : uint x -> uint (Z.ldiff x y).
Proof.
  intros Hx. apply uint_bits; [apply Z.ldiff_nonneg; unfold uint in *; lia|]. intros l Hl.
  rewrite Z.ldiff_spec. by rewrite (proj1 (uint_bits x ltac:(unfold uint in *; lia)) Hx l Hl).
Qed.
Lemma uint_u32 x : uint (u32 x).
Proof. unfold uint, u32. zlia. Qed.
Lemma uchar_u8 x : uchar (u8 x).
Proof. unfold uchar, u8. zlia. Qed.

(** A table holds bytes. *)
Lemma key_table_byte first others x : Forall uchar first -> Forall (fun p => uchar (snd p)) others -> uchar (key_table first others x).
Proof.
  intros Hf Ho. unfold key_table. destruct (find _ others) as [p|] eqn:E.
  - apply find_some in E as [Hi _]. rewrite Forall_forall in Ho. apply Ho. by apply list_elem_of_In.
  - destruct (first !! Z.to_nat x) as [y|] eqn:E'; cbn [default from_option]; [by eapply Forall_lookup in E'|unfold uchar; lia].
Qed.
Ltac bytes_of := repeat constructor; unfold uchar; cbn; lia.
Lemma shiftcode_byte x : uchar (shiftcode x).
Proof. apply key_table_byte; bytes_of. Qed.
Lemma togglecode_byte x : uchar (togglecode x).
Proof. apply key_table_byte; bytes_of. Qed.
Lemma charcode_byte i x : uchar (charcode i x).
Proof. unfold charcode. destruct (i =? 0); [|destruct (i =? 1)]; apply key_table_byte; bytes_of. Qed.
Lemma uchar_uint x : uchar x -> uint x.
Proof. unfold uchar, uint. lia. Qed.
Create HintDb ranges discriminated.
#[export] Hint Resolve uint_lor uint_lxor uint_ldiff uint_u32 uchar_u8 shiftcode_byte togglecode_byte charcode_byte uchar_uint : ranges.
Lemma E0ESC_uint : uint E0ESC.
Proof. unfold uint, E0ESC. lia. Qed.
#[export] Hint Resolve E0ESC_uint : ranges.

(** The cell of a character: its byte and its colour. *)
Lemma cell_ushort c : ushort (Z.lor (Z.land c 255) 0x700).
Proof.
  change 255 with (Z.ones 8). rewrite Z.land_ones by lia. unfold ushort.
  pose proof (Z.mod_pos_bound c (2 ^ 8) ltac:(lia)). set (y := c mod 2 ^ 8) in *.
  split; [apply Z.lor_nonneg; lia|]. change 65536 with (2 ^ 16). apply Z.bounded_iff_bits_nonneg; [lia|apply Z.lor_nonneg; lia|].
  intros l Hl. rewrite Z.lor_spec. rewrite (proj1 (Z.bounded_iff_bits_nonneg 16 y ltac:(lia) ltac:(lia)) ltac:(lia) l Hl).
  by rewrite (proj1 (Z.bounded_iff_bits_nonneg 16 0x700 ltac:(lia) ltac:(lia)) ltac:(lia) l Hl).
Qed.

(** ** The rules *)

Section rules.
Context {D : Type}.
#[local] Abbreviation CM := (M (cons D)).

Lemma typed_ret {A} (a : A) (R : A -> Prop) : R a -> typed (ret a : CM A) R.
Proof. by intros H s Hs. Qed.
Lemma typed_bind {A B} (m : CM A) (k : A -> CM B) (T : A -> Prop) (R : B -> Prop) :
  typed m T -> (forall a, T a -> typed (k a) R) -> typed (bind m k) R.
Proof.
  intros Hm Hk s Hs. unfold bind. specialize (Hm s Hs). destruct (m s) as [a s'|e|s'|]; [|done..].
  destruct Hm as [Hs' Ha]. by apply Hk.
Qed.
Lemma typed_weaken {A} (m : CM A) (T R : A -> Prop) : typed m T -> (forall a, T a -> R a) -> typed m R.
Proof. intros Hm HT s Hs. specialize (Hm s Hs). destruct (m s) as [a s'|e|s'|]; [|done..]. destruct Hm; auto. Qed.
Lemma typed_any {A} (m : CM A) (T : A -> Prop) : typed m T -> typed m any.
Proof. intros H. by apply (typed_weaken m T). Qed.
Lemma typed_gets {A} (f : cons D -> A) (R : A -> Prop) : (forall s, cons_ok s -> R (f s)) -> typed (gets f : CM A) R.
Proof. intros H s Hs. split; [done|]. by apply H. Qed.
Lemma typed_modify (f : cons D -> cons D) : (forall s, cons_ok s -> cons_ok (f s)) -> typed (modify f : CM unit) any.
Proof. intros H s Hs. split; [|done]. by apply H. Qed.
Lemma typed_panic {A} msg (R : A -> Prop) : typed (panic msg : CM A) R.
Proof. done. Qed.
Lemma typed_fuel {A} (R : A -> Prop) : typed (fun _ => OutOfFuel : res (cons D) A) R.
Proof. done. Qed.
Lemma typed_waits {A} (R : A -> Prop) : typed (waits : CM A) R.
Proof. by intros s Hs. Qed.
Lemma typed_dev {A} (m : M D A) : typed (dev m) any.
Proof. intros s Hs. unfold dev, zoom. by destruct (m (c_dev s)). Qed.
Lemma typed_inb `{!Ports D, !ByteDev D} p : typed (dev (inb p)) uchar.
Proof. intros s Hs. unfold dev, zoom. pose proof (inb_byte p (c_dev s)) as H. by destruct (inb p (c_dev s)). Qed.
Lemma typed_acquire me : typed (acquire me c_lock (c_set_lock (D := D))) any.
Proof. intros s Hs. unfold acquire. destruct (holding me (c_lock s)); [done|]. by destruct (locked (c_lock s) =? 0). Qed.
Lemma typed_release me : typed (release me c_lock (c_set_lock (D := D))) any.
Proof. intros s Hs. unfold release. by destruct (holding me (c_lock s)). Qed.

Lemma typed_gets_input : typed (gets c_input : CM input_buf) input_ok.
Proof. apply typed_gets. by intros s (_ & H & _). Qed.
Lemma typed_gets_shift : typed (gets c_shift : CM Z) uint.
Proof. apply typed_gets. by intros s (_ & _ & H). Qed.
Lemma typed_gets_any {A} (f : cons D -> A) : typed (gets f : CM A) any.
Proof. by apply typed_gets. Qed.
Lemma typed_on_input f : (forall i, input_ok i -> input_ok (f i)) -> typed (on_input f : CM unit) any.
Proof. intros H. apply typed_modify. intros s (Hc & Hi & Hs). split_and!; [done| |done]. by apply H. Qed.
Lemma typed_set_shift x : uint x -> typed (modify (c_set_shift x) : CM unit) any.
Proof. intros H. apply typed_modify. intros s (Hc & Hi & Hs). by split_and!. Qed.
Lemma typed_put_cell i x : ushort x -> typed (put_cell i x : CM unit) any.
Proof. intros H. apply typed_modify. intros s (Hc & Hi & Hs). split_and!; [|done..]. intros j. cbn. by destruct (j =? i). Qed.
Lemma typed_scroll pos : typed (scroll pos : CM unit) any.
Proof.
  apply typed_modify. intros s (Hc & Hi & Hs). split_and!; [|done..]. intros j. cbn.
  destruct (_ && _); [unfold ushort; lia|]. by destruct (_ && _).
Qed.
End rules.

Create HintDb typed discriminated.
#[export] Hint Constants Opaque : typed.
#[export] Hint Resolve typed_dev typed_inb typed_acquire typed_release typed_gets_input typed_gets_shift typed_gets_any typed_scroll : typed.

(** One rule; the type of an intermediate result is the one that the database finds. *)
Ltac typed_step :=
  match goal with
  | |- typed (bind (gets c_input) _) _ => apply (typed_bind _ _ input_ok); [apply typed_gets_input|intros ? ?]
  | |- typed (bind (gets c_shift) _) _ => apply (typed_bind _ _ uint); [apply typed_gets_shift|intros ? ?]
  | |- typed (bind (dev (inb _)) _) _ => apply (typed_bind _ _ uchar); [apply typed_inb|intros ? ?]
  | |- typed (bind _ _) _ => apply (typed_bind _ _ any); [|intros ? _]
  | |- typed (ret _) any => by apply typed_ret
  | |- typed (ret _) _ => apply typed_ret
  | |- typed (panic _) _ => apply typed_panic
  | |- typed (undefined _) _ => apply typed_panic
  | |- typed (fun _ => OutOfFuel) _ => apply typed_fuel
  | |- typed waits _ => apply typed_waits
  | |- typed (modify (c_set_shift _)) _ => apply typed_set_shift
  | |- typed (on_input _) _ => apply typed_on_input
  | |- typed (if ?b then _ else _) _ => destruct b
  | |- typed (match ?x with _ => _ end) _ => destruct x
  | |- typed _ _ => solve [eauto 3 with typed]
  end.
Ltac typed_steps := cbv zeta; repeat (typed_step; cbn beta).

(** ** The operations *)

Section operations.
Context {D : Type} `{!Ports D, !ByteDev D}.
#[local] Abbreviation CM := (M (cons D)).

Lemma typed_uart_wait n : typed (uart_wait n : CM unit) any.
Proof. induction n as [|n IH]; cbn [uart_wait]; typed_steps. Qed.
#[local] Hint Resolve typed_uart_wait : typed.
Lemma typed_uartputc c : typed (uartputc c : CM unit) any.
Proof. unfold uartputc. typed_steps. Qed.
#[local] Hint Resolve typed_uartputc : typed.
Lemma typed_cgaputc c : typed (cgaputc c : CM unit) any.
Proof.
  unfold cgaputc. typed_steps; apply typed_put_cell; [apply cell_ushort|by split].
Qed.
#[local] Hint Resolve typed_cgaputc : typed.
Lemma typed_consputc c : typed (consputc c : CM unit) any.
Proof. unfold consputc. typed_steps. Qed.
#[local] Hint Resolve typed_consputc : typed.
Lemma typed_uart_puts l : typed (uart_puts l : CM unit) any.
Proof. induction l as [|c l IH]; cbn [uart_puts]; typed_steps. Qed.
Lemma typed_push buf c : typed (push buf c : CM (list Z)) any.
Proof. unfold push. typed_steps. Qed.
#[local] Hint Resolve typed_uart_puts typed_push : typed.
Lemma typed_cdigits fuel x base buf : typed (cdigits_loop fuel x base buf : CM (list Z)) any.
Proof. revert x buf. induction fuel as [|k IH]; intros x buf; cbn [cdigits_loop]; typed_steps. Qed.
Lemma typed_cput_back l : typed (cput_back l : CM unit) any.
Proof. induction l as [|c l IH]; cbn [cput_back]; typed_steps. Qed.
Lemma typed_cput_str l : typed (cput_str l : CM unit) any.
Proof. induction l as [|c l IH]; cbn [cput_str]; typed_steps. Qed.
#[local] Hint Resolve typed_cdigits typed_cput_back typed_cput_str : typed.
Lemma typed_cprintint xx base sign : typed (cprintint xx base sign : CM unit) any.
Proof. unfold cprintint. typed_steps. Qed.
#[local] Hint Resolve typed_cprintint : typed.
Lemma typed_cprintf_loop fmt : forall argp, typed (cprintf_loop fmt argp : CM unit) any.
Proof.
  cut (forall n fmt argp, (length fmt <= n)%nat -> typed (cprintf_loop fmt argp : CM unit) any); [eauto|].
  clear fmt. induction n as [|n IH]; intros [|c fmt] argp Hn; cbn [length] in Hn; try lia; cbn [cprintf_loop]; [typed_steps..|].
  destruct (negb (c =? 37)); [typed_steps; apply IH; lia|]. destruct fmt as [|c' fmt]; [typed_steps|]. cbn [length] in Hn.
  unfold with_int, with_str. typed_steps; apply IH; lia.
Qed.
#[local] Hint Resolve typed_cprintf_loop : typed.
Lemma typed_cprintf me fmt argp : typed (cprintf me fmt argp : CM unit) any.
Proof. unfold cprintf. typed_steps. Qed.
Lemma typed_consolewrite me buf : typed (consolewrite me buf : CM Z) (fun r => r = Z.of_nat (length buf)).
Proof. unfold consolewrite. typed_steps. done. Qed.

(** Input *)
Lemma input_e x i : uint x -> input_ok i -> input_ok (set_e x i).
Proof. by intros Hx (? & ? & ? & ? & ?). Qed.
Lemma input_w x i : uint x -> input_ok i -> input_ok (set_w x i).
Proof. by intros Hx (? & ? & ? & ? & ?). Qed.
Lemma input_r x i : uint x -> input_ok i -> input_ok (set_r x i).
Proof. by intros Hx (? & ? & ? & ? & ?). Qed.
Lemma input_put c i : input_ok i -> input_ok (mk_input (<[in_slot (in_e i) := u8 c]> (in_buf i)) (in_r i) (in_w i) (u32 (in_e i + 1))).
Proof.
  intros (Hl & Hb & Hr & Hw & He). split_and!; cbn [in_buf in_r in_w in_e]; [by rewrite length_insert| |done|done|apply uint_u32].
  apply Forall_insert; [done|apply uchar_u8].
Qed.
Lemma input_get i k : input_ok i -> uchar (default 0 (in_buf i !! k)).
Proof.
  intros (_ & Hb & _). destruct (in_buf i !! k) as [c|] eqn:E; cbn [default from_option]; [|unfold uchar; lia].
  by eapply Forall_lookup in E.
Qed.
#[local] Hint Resolve input_e input_w input_r input_put : typed ranges.

Lemma typed_kill_line fuel : typed (kill_line fuel : CM unit) any.
Proof. induction fuel as [|k IH]; cbn [kill_line]; typed_steps. eauto with ranges. Qed.
#[local] Hint Resolve typed_kill_line : typed.
Lemma typed_wakeup : typed (modify c_wakeup : CM unit) any.
Proof. apply typed_modify. by intros s (? & ? & ?). Qed.
#[local] Hint Resolve typed_wakeup : typed.
Lemma typed_console_char c : typed (console_char c : CM bool) any.
Proof.
  unfold console_char. typed_steps; eauto with ranges.
  all: intros i Hi; apply input_w; [|done]; match goal with H : input_ok ?j |- uint (in_e ?j) => apply H end.
Qed.
#[local] Hint Resolve typed_console_char : typed.
Lemma typed_console_chars fuel getc : typed (getc : CM Z) keycode -> forall d, typed (console_chars fuel getc d : CM bool) any.
Proof.
  intros Hg. induction fuel as [|k IH]; intros d; cbn [console_chars]; typed_steps. by apply (typed_any _ keycode).
Qed.
Lemma typed_consoleintr me fuel getc : typed (getc : CM Z) keycode -> typed (consoleintr me fuel getc : CM bool) any.
Proof. intros Hg. unfold consoleintr. typed_steps. by apply typed_console_chars. Qed.

Lemma typed_uartgetc : typed (uartgetc : CM Z) keycode.
Proof. unfold uartgetc. typed_steps; try by left. eapply typed_weaken; [apply typed_inb|]. by right. Qed.
(** [shift] stays a [uint], and every key gives a byte. *)
Lemma typed_kbdgetc : typed (kbdgetc : CM Z) keycode.
Proof.
  unfold kbdgetc. typed_step. typed_step; [by apply typed_ret; left|]. typed_step. typed_step. rename a0 into data, a1 into shift.
  destruct (data =? 0xE0); [typed_steps; [eauto with ranges|right; unfold uchar; lia]|].
  destruct (negb (Z.land data 0x80 =? 0)); [typed_steps; [eauto with ranges..|right; unfold uchar; lia]|].
  set (ds := if negb (Z.land shift E0ESC =? 0) then _ else _). assert (Hds : uint (snd ds)) by (unfold ds; destruct (negb _); cbn; eauto with ranges).
  clearbody ds. destruct ds as [data' shift']. cbn [snd] in Hds. pose proof (charcode_byte (Z.land (Z.lxor (Z.lor shift' (shiftcode data')) (togglecode data')) (Z.lor CTL SHIFT)) data') as Hc.
  cbv zeta. set (c := charcode _ _) in *. clearbody c. typed_step; [typed_steps; eauto 6 with ranges|].
  unfold uchar in Hc. destruct (negb _); [|apply typed_ret; by right].
  repeat match goal with |- context [if ?b then _ else _] => destruct b eqn:? end; apply typed_ret; right; unfold uchar; lia.
Qed.

(** What a read returns: bytes, no more than were asked for. *)
Definition read_ok (n : nat) (r : cread) : Prop :=
  match r with CDone l | CSleep l => Forall uchar l /\ (length l <= n)%nat | CKilled => True end.
Lemma typed_consoleread_loop target killed : forall n l, Forall uchar l -> typed (consoleread_loop n target killed l : CM cread) (read_ok (length l + n)).
Proof.
  induction n as [|n IH]; intros l Hl; cbn [consoleread_loop]; [apply typed_ret; split; [done|lia]|].
  typed_step. destruct (in_r a =? in_w a); [apply typed_ret; destruct killed; [done|split; [done|lia]]|].
  cbv zeta. pose proof (input_get a (in_slot (in_r a)) H) as Hc. set (c := default 0 _) in *. clearbody c.
  assert (Hlc : Forall uchar (l ++ [c])) by (apply Forall_app; split; [done|by constructor]).
  typed_step; [typed_steps; eauto with ranges|]. destruct (c =? C 68).
  - typed_steps; [eauto with ranges|]. split; [done|lia].
  - destruct (c =? 10); [apply typed_ret; split; [done|rewrite length_app; cbn; lia]|].
    replace (length l + S n)%nat with (length (l ++ [c]) + n)%nat by (rewrite length_app; cbn; lia). by apply IH.
Qed.

End operations.

(** ** A terminal on the serial line *)

(** What has been received; the transmitter is always ready. *)
#[global] Instance tty_ports : Ports (list Z) := {|
  inb p l :=
    if p =? COM1 + 5 then Ok (match l with [] => 0x20 | _ => 0x21 end) l
    else if p =? COM1 + 0 then match l with [] => Ok 0 [] | x :: l => Ok (u8 x) l end
    else Ok 0 l;
  outb _ _ l := Ok tt l
|}.
#[global] Instance tty_bytes : ByteDev (list Z).
Proof. intros p l. cbn. repeat case_match; simplify_eq/=; first [apply uchar_u8|unfold uchar; lia]. Qed.

Definition demo_tty : cons (list Z) :=
  mk_cons initlock true false (fun _ => 0) (mk_input (replicate 128 0) 4294967295 4294967295 4294967295) 0 true 0 [108; 115; 13].
Lemma demo_tty_ok : cons_ok demo_tty.
Proof. split_and!; [by intros j|split_and!; [done|by apply Forall_replicate|by split..]|by split]. Qed.
Lemma demo_tty_reads : match (uartintr 0 5 ;;; consoleread 0 10 10 false) demo_tty with Ok r _ => r = CDone (line "ls") | _ => False end.
Proof. vm_compute. reflexivity. Qed.

