(* ===== verification/Ide.v ===== *)
(** * The IDE disk driver ([src/xv6/ide.c])

    Requests wait in the queue [idequeue], linked by the [qnext] fields of their buffers; the
    first one is at the controller.  [iderw] ends where it sleeps, and goes on with
    [iderw_resume] when its process is woken.  Everything happens under [idelock], so these
    parts and the interrupt handler are the steps of the driver.  The controller is behind the
    ports. *)

From S2P Require Import Prelude Spinlock Sleeplock Block Disk Console.

(** The string instructions transfer the 128 words of a sector. *)
Class IdePorts (D : Type) : Type := {
  ide_ports :: Ports D;
  insl : Z -> M D (list Z);
  outsl : Z -> list Z -> M D unit
}.

Definition SECTOR_SIZE : nat := 512.
Definition IDE_BSY : Z := 0x80.
Definition IDE_DRDY : Z := 0x40.
Definition IDE_DF : Z := 0x20.
Definition IDE_ERR : Z := 0x01.
Definition IDE_CMD_READ : Z := 0x20.
Definition IDE_CMD_WRITE : Z := 0x30.
Definition IDE_CMD_RDMUL : Z := 0xc4.
Definition IDE_CMD_WRMUL : Z := 0xc5.
Definition FSSIZE : Z := 1000.

(** Buffers are named by numbers. *)
Record ide (D : Type) : Type := mk_ide {
  idelock : spinlock;
  idequeue : option nat;
  qnext : nat -> option nat;
  havedisk1 : bool;
  bufs : nat -> buf;
  woken : list nat;            (* calls of wakeup *)
  ctl : D
}.
Arguments mk_ide {D}. Arguments idelock {D}. Arguments idequeue {D}. Arguments qnext {D}. Arguments havedisk1 {D}.
Arguments bufs {D}. Arguments woken {D}. Arguments ctl {D}.

Definition fset {A} (f : nat -> A) (i : nat) (x : A) : nat -> A := fun j => if Nat.eqb j i then x else f j.

Section ide.
Context {D : Type} `{!IdePorts D} (me : nat) (pid : Z).
#[local] Abbreviation IM := (M (ide D)).

Definition i_set_lock x (s : ide D) := mk_ide x (idequeue s) (qnext s) (havedisk1 s) (bufs s) (woken s) (ctl s).
Definition i_set_queue x (s : ide D) := mk_ide (idelock s) x (qnext s) (havedisk1 s) (bufs s) (woken s) (ctl s).
Definition i_set_qnext x (s : ide D) := mk_ide (idelock s) (idequeue s) x (havedisk1 s) (bufs s) (woken s) (ctl s).
Definition i_set_disk1 x (s : ide D) := mk_ide (idelock s) (idequeue s) (qnext s) x (bufs s) (woken s) (ctl s).
Definition i_set_bufs x (s : ide D) := mk_ide (idelock s) (idequeue s) (qnext s) (havedisk1 s) x (woken s) (ctl s).
Definition i_wakeup i (s : ide D) := mk_ide (idelock s) (idequeue s) (qnext s) (havedisk1 s) (bufs s) (woken s ++ [i]) (ctl s).
Definition i_set_ctl x (s : ide D) : ide D := mk_ide (idelock s) (idequeue s) (qnext s) (havedisk1 s) (bufs s) (woken s) x.

Definition io {A} (m : M D A) : IM A := zoom ctl i_set_ctl m.
Definition get_buf (i : nat) : IM buf := gets (fun s => bufs s i).
Definition on_buf (i : nat) (f : buf -> buf) : IM unit := modify (fun s => i_set_bufs (fset (bufs s) i (f (bufs s i))) s).

(** The wait for the controller, which becomes ready after a number of polls. *)
Fixpoint idewait (fuel : nat) (checkerr : bool) : IM Z :=
  match fuel with
  | O => fun _ => OutOfFuel
  | S k =>
      let! r := io (inb 0x1f7) in
      if negb (Z.land r (Z.lor IDE_BSY IDE_DRDY) =? IDE_DRDY) then idewait k checkerr else
      if checkerr && negb (Z.land r (Z.lor IDE_DF IDE_ERR) =? 0) then ret (-1) else ret 0
  end.

(** The search for the second disk, at most [n] times. *)
Fixpoint probe (n : nat) : IM unit :=
  match n with
  | O => ret tt
  | S k =>
      let! r := io (inb 0x1f7) in
      if negb (r =? 0) then modify (i_set_disk1 true) else probe k
  end.
(** [enable] is the call of [ioapicenable]. *)
Definition ideinit (fuel : nat) (enable : IM unit) : IM unit :=
  modify (i_set_lock initlock) ;;;
  enable ;;;
  idewait fuel false ;;;
  io (outb 0x1f6 (Z.lor 0xe0 (Z.shiftl 1 4))) ;;;
  probe 1000 ;;;
  io (outb 0x1f6 (Z.lor 0xe0 (Z.shiftl 0 4))).

Definition idestart (fuel : nat) (ob : option nat) : IM unit :=
  match ob with
  | None => panic "idestart"
  | Some i =>
      let! b := get_buf i in
      if FSSIZE <=? b_blockno b then panic "incorrect blockno" else
      let sector_per_block := Z.of_nat BSIZE / Z.of_nat SECTOR_SIZE in
      let sector := b_blockno b * sector_per_block in
      let read_cmd := if sector_per_block =? 1 then IDE_CMD_READ else IDE_CMD_RDMUL in
      let write_cmd := if sector_per_block =? 1 then IDE_CMD_WRITE else IDE_CMD_WRMUL in
      if 7 <? sector_per_block then panic "idestart" else
      idewait fuel false ;;;
      io (outb 0x3f6 0) ;;;
      io (outb 0x1f2 (u8 sector_per_block)) ;;;
      io (outb 0x1f3 (Z.land sector 0xff)) ;;;
      io (outb 0x1f4 (Z.land (Z.shiftr sector 8) 0xff)) ;;;
      io (outb 0x1f5 (Z.land (Z.shiftr sector 16) 0xff)) ;;;
      io (outb 0x1f6 (u8 (Z.lor (Z.lor 0xe0 (Z.shiftl (Z.land (b_dev b) 1) 4)) (Z.land (Z.shiftr sector 24) 0x0f)))) ;;;
      if has_flag b B_DIRTY then
        io (outb 0x1f7 write_cmd) ;;;
        io (outsl 0x1f0 (b_data b))
      else io (outb 0x1f7 read_cmd)
  end.

Definition ideintr (fuel : nat) : IM unit :=
  acquire me idelock i_set_lock ;;;
  let! q := gets idequeue in
  match q with
  | None => release me idelock i_set_lock
  | Some i =>
      let! n := gets (fun s => qnext s i) in
      modify (i_set_queue n) ;;;
      let! b := get_buf i in
      (if negb (has_flag b B_DIRTY) then
         let! r := idewait fuel true in
         if 0 <=? r then let! d := io (insl 0x1f0) in on_buf i (b_set_data d) else ret tt
       else ret tt) ;;;
      on_buf i (fun b => b_set_flags (Z.lor (b_flags b) B_VALID) b) ;;;
      on_buf i (fun b => b_set_flags (Z.ldiff (b_flags b) B_DIRTY) b) ;;;
      modify (i_wakeup i) ;;;
      let! q := gets idequeue in
      (if q is Some _ then idestart fuel q else ret tt) ;;;
      release me idelock i_set_lock
  end.

(** The end of the queue: [None] is [&idequeue], [Some j] the field of buffer [j]. *)
Fixpoint queue_end (fuel : nat) (pp : option nat) : IM (option nat) :=
  match fuel with
  | O => fun _ => OutOfFuel
  | S k =>
      let! x := gets (fun s => match pp with None => idequeue s | Some j => qnext s j end) in
      match x with None => ret pp | Some j => queue_end k (Some j) end
  end.

(** The loop at the end of [iderw]: [true] when the request is done, [false] when the process
    sleeps, which releases the lock. *)
Definition iderw_wait (i : nat) : IM bool :=
  let! b := get_buf i in
  release me idelock i_set_lock ;;;
  ret (Z.land (b_flags b) (Z.lor B_VALID B_DIRTY) =? B_VALID).

Definition iderw_enter (fuel : nat) (i : nat) : IM bool :=
  let! h := zoom (fun s => bufs s i) (fun b s => i_set_bufs (fset (bufs s) i b) s) (b_holdingsleep me pid) in
  if negb h then panic "iderw: buf not locked" else
  let! b := get_buf i in
  if Z.land (b_flags b) (Z.lor B_VALID B_DIRTY) =? B_VALID then panic "iderw: nothing to do" else
  let! h1 := gets havedisk1 in
  if negb (b_dev b =? 0) && negb h1 then panic "iderw: ide disk 1 not present" else
  acquire me idelock i_set_lock ;;;
  modify (fun s => i_set_qnext (fset (qnext s) i None) s) ;;;
  let! pp := queue_end fuel None in
  modify (fun s => match pp with None => i_set_queue (Some i) s | Some j => i_set_qnext (fset (qnext s) j (Some i)) s end) ;;;
  let! q := gets idequeue in
  (if bool_decide (q = Some i) then idestart fuel (Some i) else ret tt) ;;;
  iderw_wait i.

Definition iderw_resume (i : nat) : IM bool :=
  acquire me idelock i_set_lock ;;;
  iderw_wait i.
End ide.
