(* ===== verification/IdeProps.v ===== *)
(** * The disk queue

    The class [Ata] states how the controller answers; with it, the driver serves the requests
    in the order of their arrival, one at a time, and implements the driver interface [Disk]
    of the buffer cache. *)

From S2P Require Import Prelude Spinlock Sleeplock Block Disk Console Ide.

(** The task file of the controller. *)
Record areg : Type := mk_areg { r_count : Z; r_lba0 : Z; r_lba1 : Z; r_lba2 : Z; r_dev : Z }.
Definition set_reg (p v : Z) (r : areg) : areg :=
  if p =? 0x1f2 then mk_areg v (r_lba0 r) (r_lba1 r) (r_lba2 r) (r_dev r)
  else if p =? 0x1f3 then mk_areg (r_count r) v (r_lba1 r) (r_lba2 r) (r_dev r)
  else if p =? 0x1f4 then mk_areg (r_count r) (r_lba0 r) v (r_lba2 r) (r_dev r)
  else if p =? 0x1f5 then mk_areg (r_count r) (r_lba0 r) (r_lba1 r) v (r_dev r)
  else if p =? 0x1f6 then mk_areg (r_count r) (r_lba0 r) (r_lba1 r) (r_lba2 r) v
  else r.
Definition r_drive (r : areg) : Z := Z.land (Z.shiftr (r_dev r) 4) 1.
Definition r_sector (r : areg) : Z := r_lba0 r + 256 * r_lba1 r + 65536 * r_lba2 r + 16777216 * Z.land (r_dev r) 15.

(** A request of one sector: a write or a read, the drive and the sector. *)
Definition request_of (v : Z) (r : areg) : option (bool * Z * Z) :=
  if r_count r =? 1 then
    if v =? 0x20 then Some (false, r_drive r, r_sector r) else if v =? 0x30 then Some (true, r_drive r, r_sector r) else None
  else None.

Definition media_set (m : Z -> Z -> list Z) (dr sec : Z) (data : list Z) : Z -> Z -> list Z :=
  fun x y => if (x =? dr) && (y =? sec) then data else m x y.

(** The controller: a status that becomes ready after at most [max_polls] reads, without
    errors; registers; a command that makes the request; and the transfer of its sector. *)
Class Ata (D : Type) `{!IdePorts D} : Type := {
  regs : D -> areg;
  request : D -> option (bool * Z * Z);
  media : D -> Z -> Z -> list Z;
  written : D -> list (Z * Z * list Z);
  polls : D -> nat;
  max_polls : nat;
  ata_polls d : (polls d <= max_polls)%nat;
  ata_status d : wp (inb 0x1f7) (fun r d' =>
    regs d' = regs d /\ request d' = request d /\ media d' = media d /\ written d' = written d /\ Z.land r 0x21 = 0 /\
    match polls d with O => Z.land r 0xc0 = 0x40 | S n => polls d' = n end) d;
  ata_out d p v : wp (outb p v) (fun _ d' =>
    regs d' = set_reg p v (regs d) /\ request d' = (if p =? 0x1f7 then request_of v (regs d) else request d) /\
    media d' = media d /\ written d' = written d) d;
  ata_outsl d dr sec data : request d = Some (true, dr, sec) -> wp (outsl 0x1f0 data) (fun _ d' =>
    request d' = request d /\ media d' = media_set (media d) dr sec data /\ written d' = written d ++ [(dr, sec, data)]) d;
  ata_insl d dr sec : request d = Some (false, dr, sec) -> wp (insl 0x1f0) (fun x d' =>
    x = media d dr sec /\ request d' = request d /\ media d' = media d /\ written d' = written d) d
}.

Section ide.
Context {D : Type} `{!IdePorts D} `{!Ata D} (me : nat) (pid : Z).

Lemma wp_io {A} (m : M D A) s (Q : A -> ide D -> Prop) (P : A -> D -> Prop) : wp m P (ctl s) ->
  (forall a d, P a d -> Q a (i_set_ctl d s)) -> wp (io m) Q s.
Proof. intros Hm HQ. unfold io. apply wp_zoom. eapply wp_mono; [exact Hm|]. auto. Qed.

Lemma wp_idewait check : forall fuel s (Q : Z -> ide D -> Prop), (polls (ctl s) < fuel)%nat ->
  (forall d, regs d = regs (ctl s) -> request d = request (ctl s) -> media d = media (ctl s) -> written d = written (ctl s) -> Q 0 (i_set_ctl d s)) ->
  wp (idewait fuel check) Q s.
Proof.
  induction fuel as [|fuel IH]; intros s Q Hf HQ; [lia|]. cbn [idewait]. wp_step. eapply wp_io; [apply ata_status|].
  intros r d (R1 & R2 & R3 & R4 & Herr & Hp). change (Z.lor IDE_BSY IDE_DRDY) with 0xc0. change (Z.lor IDE_DF IDE_ERR) with 0x21. unfold IDE_DRDY.
  destruct (Z.eqb_spec (Z.land r 0xc0) 0x40) as [E|E]; cbn [negb].
  - rewrite Herr. cbn. rewrite andb_false_r. wp_step. by apply HQ.
  - destruct (polls (ctl s)) as [|n]; [done|]. apply IH; [cbn; lia|]. cbn. intros d' E1 E2 E3 E4. apply HQ; congruence.
Qed.

(** The task file names the sector of a block. *)
Lemma sector_regs dev sector : 0 <= sector < 1000 -> 0 <= dev < 2 ->
  let v := u8 (Z.lor (Z.lor 0xe0 (Z.shiftl (Z.land dev 1) 4)) (Z.land (Z.shiftr sector 24) 0x0f)) in
  Z.land sector 255 + 256 * Z.land (Z.shiftr sector 8) 255 + 65536 * Z.land (Z.shiftr sector 16) 255 + 16777216 * Z.land v 15 = sector /\
  Z.land (Z.shiftr v 4) 1 = dev.
Proof.
  intros Hs Hd. rewrite !Z.shiftr_div_pow2 by lia. change 255 with (Z.ones 8). rewrite !Z.land_ones by lia.
  change (2 ^ 8) with 256. change (2 ^ 16) with 65536. change (2 ^ 24) with 16777216.
  rewrite (Z.div_small sector 16777216) by lia. intros v. assert (Z.land v 15 = 0) as -> by (unfold v; assert (dev = 0 \/ dev = 1) as [-> | ->] by lia; done).
  assert (dev = 0 \/ dev = 1) as [-> | ->] by lia; (split; [|done]); rewrite Z.mul_0_r; zlia.
Qed.

(** What starting the request of a buffer does to the medium. *)
Definition dirty (b : buf) : bool := has_flag b B_DIRTY.
Definition good_req (b : buf) : Prop := 0 <= b_blockno b < FSSIZE /\ 0 <= b_dev b < 2.
Definition started (b : buf) (m : Z -> Z -> list Z) : Z -> Z -> list Z :=
  if dirty b then media_set m (b_dev b) (b_blockno b) (b_data b) else m.
Definition logged (b : buf) : list (Z * Z * list Z) := if dirty b then [(b_dev b, b_blockno b, b_data b)] else [].

Lemma i_set_ctl_ctl d d' (s : ide D) : i_set_ctl d (i_set_ctl d' s) = i_set_ctl d s.
Proof. done. Qed.

Record is_started (s : ide D) (b : buf) (d : D) : Prop := mk_is_started {
  st_request : request d = Some (dirty b, b_dev b, b_blockno b);
  st_media : media d = started b (media (ctl s));
  st_written : written d = written (ctl s) ++ logged b
}.

Lemma wp_idestart fuel i s (Q : unit -> ide D -> Prop) (b := bufs s i) : (max_polls < fuel)%nat -> good_req b ->
  (forall d, is_started s b d -> Q tt (i_set_ctl d s)) -> wp (idestart fuel (Some i)) Q s.
Proof.
  intros Hf [Hb Hd] HQ. unfold idestart, get_buf. wp_step. wp_step. fold b. rewrite (proj2 (Z.leb_gt _ _)) by (unfold FSSIZE in *; lia).
  change (Z.of_nat BSIZE / Z.of_nat SECTOR_SIZE) with 1. rewrite Z.mul_1_r. cbn [Z.eqb Z.ltb Z.compare Pos.compare Pos.compare_cont Pos.eqb].
  wp_step. apply wp_idewait; [pose proof (ata_polls (ctl s)); lia|]. intros d0 _ _ M0 W0.
  wp_step. eapply wp_io; [apply ata_out|]. cbn [ctl i_set_ctl]. intros ? d1 (R1 & _ & M1 & W1).
  wp_step. eapply wp_io; [apply ata_out|]. cbn [ctl i_set_ctl]. intros ? d2 (R2 & _ & M2 & W2).
  wp_step. eapply wp_io; [apply ata_out|]. cbn [ctl i_set_ctl]. intros ? d3 (R3 & _ & M3 & W3).
  wp_step. eapply wp_io; [apply ata_out|]. cbn [ctl i_set_ctl]. intros ? d4 (R4 & _ & M4 & W4).
  wp_step. eapply wp_io; [apply ata_out|]. cbn [ctl i_set_ctl]. intros ? d5 (R5 & _ & M5 & W5).
  wp_step. eapply wp_io; [apply ata_out|]. cbn [ctl i_set_ctl]. intros ? d6 (R6 & _ & M6 & W6).
  destruct (sector_regs (b_dev b) (b_blockno b) ltac:(unfold FSSIZE in *; lia) Hd) as [Hs Hdr].
  set (v := u8 _) in *. rewrite R5, R4, R3, R2 in R6. cbn in R6.
  assert (Hreq : forall c, request_of c (regs d6) = if c =? 0x20 then Some (false, b_dev b, b_blockno b) else if c =? 0x30 then Some (true, b_dev b, b_blockno b) else None).
  { intros c. rewrite R6. unfold request_of, r_drive, r_sector. cbn [r_count r_dev r_lba0 r_lba1 r_lba2]. rewrite Hs, Hdr. done. }
  assert (Hm : media d6 = media (ctl s)) by congruence. assert (Hw : written d6 = written (ctl s)) by congruence.
  change (has_flag b B_DIRTY) with (dirty b). destruct (dirty b) eqn:Ed.
  - wp_step. eapply wp_io; [apply ata_out|]. cbn [ctl i_set_ctl]. intros ? d7 (_ & Q7 & M7 & W7). rewrite Hreq in Q7. cbn in Q7.
    eapply wp_io; [by eapply ata_outsl|]. cbn [ctl i_set_ctl]. intros [] d8 (Q8 & M8 & W8). apply HQ. split.
    + by rewrite Ed, Q8.
    + unfold started. rewrite Ed. congruence.
    + unfold logged. rewrite Ed. congruence.
  - eapply wp_io; [apply ata_out|]. cbn [ctl i_set_ctl]. intros [] d7 (_ & Q7 & M7 & W7). rewrite Hreq in Q7. cbn in Q7. apply HQ. split.
    + by rewrite Ed, Q7.
    + unfold started. rewrite Ed. congruence.
    + unfold logged. rewrite Ed, app_nil_r. congruence.
Qed.

(** ** The queue *)

(** The buffers from a link on, in order. *)
Fixpoint queue (qn : nat -> option nat) (q : option nat) (l : list nat) : Prop :=
  match l with [] => q = None | i :: l => q = Some i /\ queue qn (qn i) l end.

Definition needs_io (b : buf) : Prop := Z.land (b_flags b) 6 <> 2.

Record ide_ok (s : ide D) (l : list nat) : Prop := mk_ide_ok {
  io_lock : idelock s = initlock;
  io_queue : queue (qnext s) (idequeue s) l;
  io_nodup : NoDup l;
  io_reqs : Forall (fun i => good_req (bufs s i) /\ needs_io (bufs s i)) l;
  io_head : match l with [] => True | i :: _ => request (ctl s) = Some (dirty (bufs s i), b_dev (bufs s i), b_blockno (bufs s i)) end
}.

Lemma queue_ext qn qn' q l : (forall i, i ∈ l -> qn' i = qn i) -> queue qn q l -> queue qn' q l.
Proof.
  revert q. induction l as [|i l IH]; intros q He; cbn; [done|]. intros [-> H]. split; [done|]. rewrite He by set_solver. apply IH; [set_solver|done].
Qed.
Lemma fset_eq {A} (f : nat -> A) i x : fset f i x i = x.
Proof. unfold fset. by rewrite Nat.eqb_refl. Qed.
Lemma fset_ne {A} (f : nat -> A) i x j : j <> i -> fset f i x j = f j.
Proof. intros H. unfold fset. by rewrite (proj2 (Nat.eqb_neq j i) H). Qed.

(** Where the loop of [iderw] stops. *)
Lemma wp_queue_end s (Q : option nat -> ide D -> Prop) : forall l pp fuel, (length l < fuel)%nat ->
  queue (qnext s) (match pp with None => idequeue s | Some j => qnext s j end) l -> Q (match last l with Some j => Some j | None => pp end) s -> wp (queue_end fuel pp) Q s.
Proof.
  induction l as [|i l IH]; intros pp fuel Hf Hq HQ; (destruct fuel as [|fuel]; [cbn in Hf; lia|]); cbn [queue_end]; wp_step; wp_step.
  - cbn in Hq. rewrite Hq. wp_step. done.
  - destruct Hq as [Hq Hq']. rewrite Hq. apply IH; [cbn in Hf; lia|done|]. rewrite last_cons in HQ. by destruct (last l).
Qed.

Lemma queue_snoc qn i : forall l q, NoDup l -> i ∉ l -> queue qn q l ->
  match last l with
  | None => q = None
  | Some j => queue (fset (fset qn i None) j (Some i)) q (l ++ [i])
  end.
Proof.
  induction l as [|k l IH]; intros q Hd Hi Hq; [done|]. apply NoDup_cons in Hd as [Hk Hd]. destruct Hq as [-> Hq]. rewrite last_cons.
  specialize (IH _ Hd ltac:(set_solver) Hq). destruct (last l) as [j|] eqn:El; cbn [app queue].
  - split; [done|]. apply last_Some_elem_of in El. rewrite !fset_ne by set_solver. done.
  - apply last_None in El as ->. cbn in Hq. cbn. split; [done|]. rewrite fset_eq. split; [done|]. rewrite fset_ne, fset_eq by set_solver. done.
Qed.

(** The request joins the end of the queue; it is started when the queue was empty. *)
Record entered (s s' : ide D) (l : list nat) (i : nat) : Prop := mk_entered {
  en_ok : ide_ok s' (l ++ [i]);
  en_bufs j : bufs s' j = bufs s j;
  en_woken : woken s' = woken s;
  en_disk1 : havedisk1 s' = havedisk1 s;
  en_media : media (ctl s') = (if l is [] then started (bufs s i) (media (ctl s)) else media (ctl s));
  en_written : written (ctl s') = written (ctl s) ++ (if l is [] then logged (bufs s i) else [])
}.

Lemma wp_iderw_enter fuel s l i (Q : bool -> ide D -> Prop) (b := bufs s i) : ide_ok s l -> i ∉ l -> (max_polls + length l < fuel)%nat ->
  b_lock b = held_by pid -> good_req b -> needs_io b -> (b_dev b = 0 \/ havedisk1 s = true) ->
  (forall s', entered s s' l i -> Q false s') -> wp (iderw_enter me pid fuel i) Q s.
Proof.
  intros [H1 H2 H3 H4 H5] Hi Hf Hl Hg Hn Hd HQ. unfold iderw_enter. wp_step. wp_step. apply wp_b_holdingsleep; [done|].
  set (s0 := i_set_bufs (fset (bufs s) i (bufs s i)) s).
  assert (Hb0 : forall j, bufs s0 j = bufs s j) by (intros j; unfold s0, fset; cbn; destruct (Nat.eqb_spec j i) as [->|]; done).
  assert (Hfs : forall j, fset (bufs s) i (bufs s i) j = bufs s j) by exact Hb0.
  cbn [negb]. unfold get_buf. wp_step. wp_step. rewrite Hb0. fold b. change (Z.lor B_VALID B_DIRTY) with 6. unfold B_VALID.
  rewrite (proj2 (Z.eqb_neq _ _) Hn). wp_step. wp_step.
  replace (negb (b_dev b =? 0) && negb (havedisk1 s0)) with false by (cbn; destruct Hd as [-> | ->]; [done|by rewrite andb_false_r]).
  wp_step. apply wp_acquire; [done|]. wp_step. wp_step. wp_step.
  apply (wp_queue_end _ _ l None); [lia| |].
  { cbn. apply (queue_ext (qnext s)); [|done]. intros j Hj. apply fset_ne. by intros ->. }
  cbn [option_map]. wp_step. wp_step. pose proof (queue_snoc (qnext s) i l _ H3 Hi H2) as Hq. wp_step. wp_step.
  assert (Hdone : forall s1, idelock s1 = mk_spinlock 1 (Some me) -> (forall j, bufs s1 j = bufs s j) -> entered s (i_set_lock initlock s1) l i -> wp (iderw_wait me i) Q s1).
  { intros s1 E1 E2 E3. unfold iderw_wait, get_buf. wp_step. wp_step. wp_step. apply wp_release; [done|]. wp_step. rewrite E2. fold b. change (Z.lor B_VALID B_DIRTY) with 6. unfold B_VALID.
    rewrite (proj2 (Z.eqb_neq _ _) Hn). by apply HQ. }
  assert (Hr : Forall (fun j => good_req (bufs s0 j) /\ needs_io (bufs s0 j)) (l ++ [i])).
  { apply Forall_app. split; [|constructor; [by rewrite Hb0|constructor]]. eapply Forall_impl; [exact H4|]. intros j. by rewrite Hb0. }
  assert (Hnd : NoDup (l ++ [i])) by (apply NoDup_app; split_and!; [done|set_solver|by apply NoDup_singleton]).
  destruct (last l) as [j|] eqn:El.
  - rewrite bool_decide_false; [|cbn; destruct l as [|k l]; [done|]; destruct H2 as [-> _]; intros [= ->]; set_solver].
    wp_step. wp_step. apply Hdone; [done|done|]. split; cbn; [|done|done|done|by destruct l|destruct l; [done|by rewrite app_nil_r]].
    split; cbn; [done|done|done|done|]. destruct l as [|k l]; [done|]. cbn. by rewrite !Hfs.
  - apply last_None in El as ->. cbn. rewrite bool_decide_true by done. wp_step. apply wp_idestart; [cbn in Hf; lia|change (good_req (bufs s0 i)); by rewrite Hb0|].
    intros d Hst. match type of Hst with is_started ?x _ _ => change (is_started x (bufs s0 i) d) in Hst end. rewrite Hb0 in Hst. destruct Hst as [S1 S2 S3]. apply Hdone; [done|done|]. split; cbn; [|done|done|done|done|done].
    split; cbn; [done|split; [done|by rewrite fset_eq]|done|done|]. by rewrite !Hfs.
Qed.

(** ** The interrupt *)

(** The buffer of a request that is done. *)
Definition finished (b : buf) (m : Z -> Z -> list Z) : buf :=
  let b' := if dirty b then b else b_set_data (m (b_dev b) (b_blockno b)) b in
  b_set_flags (Z.ldiff (Z.lor (b_flags b) B_VALID) B_DIRTY) b'.

Lemma finished_flags f : Z.land (Z.ldiff (Z.lor f B_VALID) B_DIRTY) 6 = 2.
Proof.
  apply Z.bits_inj'. intros n Hn. rewrite Z.land_spec, Z.ldiff_spec, Z.lor_spec. unfold B_VALID, B_DIRTY.
  assert (n = 0 \/ n = 1 \/ n = 2 \/ 2 < n) as [-> | [-> | [-> | Hn']]] by lia; cbn; rewrite ?orb_true_r, ?andb_false_r; try done.
  rewrite (Z.bits_above_log2 6), andb_false_r, (Z.bits_above_log2 2) by (cbn; lia). done.
Qed.

Lemma finished_done b m : Z.land (b_flags (finished b m)) 6 = 2.
Proof. exact (finished_flags (b_flags b)). Qed.

(** The first request is done, the next one has been started. *)
Record served (s s' : ide D) (i : nat) (l : list nat) : Prop := mk_served {
  sv_ok : ide_ok s' l;
  sv_done : bufs s' i = finished (bufs s i) (media (ctl s));
  sv_bufs j : j <> i -> bufs s' j = bufs s j;
  sv_woken : woken s' = woken s ++ [i];
  sv_disk1 : havedisk1 s' = havedisk1 s;
  sv_media : media (ctl s') = (if l is j :: _ then started (bufs s j) (media (ctl s)) else media (ctl s));
  sv_written : written (ctl s') = written (ctl s) ++ (if l is j :: _ then logged (bufs s j) else [])
}.

(** The handler after the transfer of the data. *)
Record transferred (s s2 : ide D) (i : nat) : Prop := mk_transferred {
  tr_lock : idelock s2 = mk_spinlock 1 (Some me);
  tr_queue : idequeue s2 = qnext s i;
  tr_qnext : qnext s2 = qnext s;
  tr_disk1 : havedisk1 s2 = havedisk1 s;
  tr_woken : woken s2 = woken s;
  tr_bufs j : j <> i -> bufs s2 j = bufs s j;
  tr_buf : bufs s2 i = (if dirty (bufs s i) then bufs s i else b_set_data (media (ctl s) (b_dev (bufs s i)) (b_blockno (bufs s i))) (bufs s i));
  tr_media : media (ctl s2) = media (ctl s);
  tr_written : written (ctl s2) = written (ctl s)
}.

Lemma wp_ideintr fuel s i l (Q : unit -> ide D -> Prop) : ide_ok s (i :: l) -> (max_polls < fuel)%nat ->
  (forall s', served s s' i l -> Q tt s') -> wp (ideintr me fuel) Q s.
Proof.
  intros [H1 H2 H3 H4 H5] Hf HQ. destruct H2 as [Hq H2]. apply NoDup_cons in H3 as [Hi H3]. apply Forall_cons in H4 as [_ H4].
  unfold ideintr. wp_step. apply wp_acquire; [done|]. wp_step. wp_step. cbn [idequeue i_set_lock]. rewrite Hq. wp_step. wp_step. wp_step. wp_step.
  unfold get_buf. wp_step. wp_step. set (s1 := i_set_queue _ _). change (bufs s1 i) with (bufs s i). set (b := bufs s i) in *.
  apply wp_bind, (wp_mono _ (fun _ s2 => transferred s s2 i)).
  { destruct (has_flag b B_DIRTY) eqn:Ed; cbn [negb].
    - wp_step. split; try done. change (bufs s1 i) with b. fold b. unfold dirty. by rewrite Ed.
    - wp_step. apply wp_idewait; [pose proof (ata_polls (ctl s1)); lia|]. intros d R1 R2 R3 R4. cbn [Z.leb Z.compare]. wp_step.
      eapply wp_io; [eapply ata_insl; cbn; rewrite R2; cbn; rewrite H5; fold b; unfold dirty; by rewrite Ed|].
      cbn [ctl i_set_ctl]. intros x d' (-> & R5 & R6 & R7). unfold on_buf. wp_step. split; cbn; try done; [intros j Hj; by apply fset_ne| |by rewrite R6, R3|by rewrite R7, R4].
      rewrite fset_eq. fold b. unfold dirty. rewrite Ed, R3. done. }
  intros _ s2 [T1 T2 T3 T4 T5 T6 T7 T8 T9]. unfold on_buf. wp_step. wp_step. wp_step. wp_step. wp_step. wp_step. wp_step. wp_step. cbn [idequeue i_wakeup i_set_bufs].
  set (s3 := i_wakeup i _).
  assert (Hb3 : forall j, j <> i -> bufs s3 j = bufs s j) by (intros j Hj; cbn; rewrite !fset_ne by done; by apply T6).
  assert (Hd3 : bufs s3 i = finished b (media (ctl s))).
  { cbn. rewrite !fset_eq, T7. unfold finished. fold b. destruct (dirty b); done. }
  assert (Hr : Forall (fun j => good_req (bufs s3 j) /\ needs_io (bufs s3 j)) l).
  { rewrite Forall_forall in *. intros j Hj. rewrite Hb3 by (by intros ->). by apply H4. }
  rewrite T2. destruct l as [|j l]; cbn in H2.
  - rewrite H2. wp_step. wp_step. apply wp_release; [done|]. apply HQ. split; cbn; [|exact Hd3|exact Hb3|by rewrite T5|done|done|by rewrite app_nil_r].
    split; cbn; [done|by rewrite T2|constructor|constructor|done].
  - destruct H2 as [Hj H2]. rewrite Hj. wp_step. assert (Hji : j <> i) by (intros ->; set_solver).
    apply wp_idestart; [done|change (good_req (bufs s3 j)); exact (proj1 (Forall_inv Hr))|]. intros d [S1 S2 S3].
    apply wp_release; [done|]. change (ctl s3) with (ctl s2) in S2, S3. rewrite (Hb3 j Hji) in S1, S2, S3.
    apply HQ. split; cbn; [|exact Hd3|exact Hb3|by rewrite T5|done|congruence|congruence].
    split; cbn; [done|rewrite T2, T3; by split|done|exact Hr|]. change (fset _ i _ j) with (bufs s3 j). by rewrite (Hb3 j Hji).
Qed.

(** Without a request an interrupt does nothing. *)
Lemma wp_ideintr_spurious fuel s (Q : unit -> ide D -> Prop) : ide_ok s [] -> (forall s', s' = i_set_lock initlock s -> Q tt s') -> wp (ideintr me fuel) Q s.
Proof.
  intros [H1 H2 H3 H4 H5] HQ. unfold ideintr. wp_step. apply wp_acquire; [done|]. wp_step. wp_step. cbn in *. rewrite H2. apply wp_release; [done|]. by apply HQ.
Qed.

(** A process that is woken goes on exactly when its request is done. *)
Lemma wp_iderw_resume s i l (Q : bool -> ide D -> Prop) : ide_ok s l -> (forall s', s' = i_set_lock initlock s -> Q (Z.land (b_flags (bufs s i)) 6 =? 2) s') -> wp (iderw_resume me i) Q s.
Proof.
  intros [H1 H2 H3 H4 H5] HQ. unfold iderw_resume, iderw_wait, get_buf. wp_step. apply wp_acquire; [done|]. wp_step. wp_step. wp_step. apply wp_release; [done|]. wp_step. by apply HQ.
Qed.
End ide.

(** ** The driver as a queue *)

(** What processes and the disk do: a process enters [iderw], the disk interrupts, a woken
    process goes on. *)
Inductive event : Type := Enter (me : nat) (pid : Z) (i : nat) | Interrupt (me : nat) | Resume (me : nat) (i : nat).

(** A server that treats requests one at a time, in the order of their arrival. *)
Record server : Type := mk_server {
  q_list : list nat;
  q_bufs : nat -> buf;
  q_media : Z -> Z -> list Z;
  q_written : list (Z * Z * list Z);
  q_served : list nat
}.

Definition start (b : buf) (q : server) : server :=
  mk_server (q_list q) (q_bufs q) (started b (q_media q)) (q_written q ++ logged b) (q_served q).
Definition arrive (i : nat) (q : server) : server :=
  let q' := mk_server (q_list q ++ [i]) (q_bufs q) (q_media q) (q_written q) (q_served q) in
  if q_list q is [] then start (q_bufs q i) q' else q'.
Definition serve (q : server) : server :=
  match q_list q with
  | [] => q
  | i :: l =>
      let q' := mk_server l (fset (q_bufs q) i (finished (q_bufs q i) (q_media q))) (q_media q) (q_written q) (q_served q ++ [i]) in
      if l is j :: _ then start (q_bufs q j) q' else q'
  end.
Definition answer (q : server) (e : event) : server * option bool :=
  match e with
  | Enter _ _ i => (arrive i q, Some false)
  | Interrupt _ => (serve q, None)
  | Resume _ i => (q, Some (Z.land (b_flags (q_bufs q i)) 6 =? 2))
  end.
(** A process enters with a buffer it has locked, that needs a transfer and is not queued. *)
Definition allowed (q : server) (e : event) : Prop :=
  match e with
  | Enter _ pid i => i ∉ q_list q /\ b_lock (q_bufs q i) = held_by pid /\ good_req (q_bufs q i) /\ needs_io (q_bufs q i)
  | _ => True
  end.

Fixpoint answers (q : server) (es : list event) : server * list (option bool) :=
  match es with
  | [] => (q, [])
  | e :: es => let '(q, r) := answer q e in let '(q, rs) := answers q es in (q, r :: rs)
  end.
Fixpoint all_allowed (q : server) (es : list event) : Prop :=
  match es with [] => True | e :: es => allowed q e /\ all_allowed (answer q e).1 es end.

Section queue.
Context {D : Type} `{!IdePorts D} `{!Ata D}.

Definition drive (fuel : nat) (e : event) : M (ide D) (option bool) :=
  match e with
  | Enter me pid i => let! r := iderw_enter me pid fuel i in ret (Some r)
  | Interrupt me => ideintr me fuel ;;; ret None
  | Resume me i => let! r := iderw_resume me i in ret (Some r)
  end.
Fixpoint drives (fuel : nat) (es : list event) : M (ide D) (list (option bool)) :=
  match es with [] => ret [] | e :: es => let! r := drive fuel e in let! rs := drives fuel es in ret (r :: rs) end.

Record implements (s : ide D) (q : server) : Prop := mk_implements {
  im_ok : ide_ok s (q_list q);
  im_bufs j : bufs s j = q_bufs q j;
  im_media : media (ctl s) = q_media q;
  im_written : written (ctl s) = q_written q;
  im_served : woken s = q_served q;
  im_disk1 : havedisk1 s = true
}.

Lemma drive_ok fuel e s q : implements s q -> allowed q e -> (max_polls + length (q_list q) < fuel)%nat ->
  wp (drive fuel e) (fun r s' => r = (answer q e).2 /\ implements s' (answer q e).1) s.
Proof.
  intros [H1 H2 H3 H4 H5 H6] Ha Hf. destruct e as [me pid i|me|me i]; cbn [drive answer fst snd].
  - destruct Ha as (A1 & A2 & A3 & A4). rewrite <-H2 in A2, A3, A4. wp_step. eapply wp_iderw_enter; [done|done|done|done|done|done|by right|].
    intros s' [E1 E2 E3 E4 E5 E6]. wp_step. split; [done|]. unfold arrive. rewrite <-H2. destruct (q_list q); cbn [start q_list q_bufs q_media q_written q_served] in *.
    + split; cbn; [done|intros j; by rewrite E2|by rewrite E5, H3|by rewrite E6, H4|congruence|congruence].
    + split; cbn; [done|intros j; by rewrite E2|by rewrite E5, H3|by rewrite E6, H4, app_nil_r|congruence|congruence].
  - wp_step. unfold serve. destruct (q_list q) as [|i l] eqn:El.
    + apply wp_ideintr_spurious; [done|]. intros s' ->. wp_step. split; [done|]. destruct H1. split; cbn; rewrite ?El; try done.
    + eapply wp_ideintr; [done|lia|]. intros s' [S1 S2 S3 S4 S5 S6 S7]. wp_step. split; [done|]. rewrite <-!H2.
      assert (Hb : forall j, bufs s' j = fset (q_bufs q) i (finished (bufs s i) (q_media q)) j).
      { intros j. unfold fset. destruct (Nat.eqb_spec j i) as [->|Hj]; [by rewrite S2, H3|by rewrite S3, H2]. }
      destruct l as [|j l]; split; cbn [start q_list q_bufs q_media q_written q_served]; try done; rewrite ?S4, ?S5, ?S6, ?S7, ?H3, ?H4, ?H5, ?app_nil_r, <-?H2; done.
  - wp_step. eapply wp_iderw_resume; [done|]. intros s' ->. wp_step. rewrite H2. split; [done|]. destruct H1. split; cbn; try done.
Qed.

Lemma drives_ok fuel es : forall s q, implements s q -> all_allowed q es -> (max_polls + length (q_list q) + length es < fuel)%nat ->
  wp (drives fuel es) (fun rs s' => rs = (answers q es).2 /\ implements s' (answers q es).1) s.
Proof.
  induction es as [|e es IH]; intros s q Hi Ha Hf; cbn [drives answers]; [by wp_step|]. destruct Ha as [Ha1 Ha2]. cbn in Hf. wp_step.
  eapply wp_mono; [apply (drive_ok fuel e s q); [done|done|lia]|]. intros r s1 [-> H1]. wp_step.
  assert (Hl : (length (q_list (answer q e).1) <= S (length (q_list q)))%nat).
  { destruct e; cbn; [unfold arrive|unfold serve|lia]; destruct (q_list q) as [|? []] eqn:El; cbn; rewrite ?El, ?length_app; cbn; lia. }
  eapply wp_mono; [apply IH; [exact H1|done|lia]|]. intros rs s2 [-> H2]. wp_step. destruct (answer q e) as [q1 r]. cbn in *. by destruct (answers q1 es).
Qed.

(** The buffers in the order in which their processes entered. *)
Definition arrivals (es : list event) : list nat := omap (fun e => match e with Enter _ _ i => Some i | _ => None end) es.
Lemma answers_order es : forall q, let q' := (answers q es).1 in q_served q' ++ q_list q' = q_served q ++ q_list q ++ arrivals es.
Proof.
  induction es as [|e es IH]; intros q; cbn [answers fst]; [by rewrite app_nil_r|]. destruct (answer q e) as [q1 r] eqn:E1. specialize (IH q1). destruct (answers q1 es) as [q2 rs]. cbn in *. rewrite IH.
  destruct e as [me pid i|me|me i]; cbn in E1; injection E1 as <- _; cbn; try done.
  - unfold arrive. destruct (q_list q); cbn; by rewrite <-?app_assoc.
  - unfold serve. destruct (q_list q) as [|i [|j l]] eqn:El; cbn; rewrite ?El; by rewrite <-?app_assoc.
Qed.


(** ** The driver interface of the buffer cache *)

(** A process alone with the disk: it enters, sleeps, and goes on after the interrupt. *)
Definition ide_iderw (me : nat) (pid : Z) : M (ide D * buf) unit :=
  let fuel := (max_polls + 2)%nat in
  modify (fun '(s, b) => (i_set_bufs (fset (bufs s) 0 b) s, b)) ;;;
  let! r := zoom fst (fun s p => (s, p.2)) (iderw_enter me pid fuel 0) in
  (if r then ret tt else
   zoom fst (fun s p => (s, p.2)) (ideintr me fuel) ;;;
   let! r := zoom fst (fun s p => (s, p.2)) (iderw_resume me 0) in
   if r then ret tt else waits) ;;;
  modify (fun '(s, b) => (s, bufs s 0)).
#[export] Instance ide_ops : DiskOps (ide D) := {| iderw := ide_iderw |}.

Definition ide_hist (s : ide D) : list (Z * list Z) :=
  omap (fun w => if w.1.1 =? 1 then Some (w.1.2, w.2) else None) (written (ctl s)).
Record alone (s : ide D) : Prop := mk_alone {
  an_ok : ide_ok s [];
  an_disk1 : havedisk1 s = true;
  an_media x : 0 <= x < FSSIZE -> block_ok (media (ctl s) 1 x)
}.

Lemma wp_ide_iderw me pid s b (Q : unit -> ide D * buf -> Prop) : alone s -> b_lock b = held_by pid -> b_dev b = 1 -> 0 <= b_blockno b < FSSIZE -> needs_io b ->
  (forall s', ide_ok s' [] -> havedisk1 s' = true -> media (ctl s') = started b (media (ctl s)) -> written (ctl s') = written (ctl s) ++ logged b ->
     Q tt (s', finished b (media (ctl s')))) -> wp (ide_iderw me pid) Q (s, b).
Proof.
  intros [H1 H2 H3] Hl Hd Hb Hn HQ. unfold ide_iderw. wp_step. wp_step. wp_step. wp_step. cbn [fst snd].
  set (s0 := i_set_bufs _ s). assert (Hb0 : bufs s0 0%nat = b) by done.
  eapply (wp_iderw_enter me pid _ s0 []); [by destruct H1|set_solver|cbn; lia|by rewrite Hb0|rewrite Hb0; split; [done|lia]|by rewrite Hb0|by right|].
  intros s1 [E1 E2 E3 E4 E5 E6]. wp_step. wp_step. wp_step. cbn [fst snd]. eapply (wp_ideintr me _ s1 0%nat []); [done|lia|].
  intros s2 [S1 S2 S3 S4 S5 S6 S7]. wp_step. wp_step. cbn [fst snd]. eapply wp_iderw_resume; [done|]. intros s3 ->.
  assert (Hfin : bufs s2 0%nat = finished b (media (ctl s2))) by (rewrite S2, E2, Hb0, S6; done).
  rewrite S2, finished_done. cbn [Z.eqb Pos.eqb]. wp_step. wp_step. cbn [fst snd].
  change (bufs (i_set_lock initlock s2) 0%nat) with (bufs s2 0%nat). rewrite Hfin. apply (HQ (i_set_lock initlock s2)).
  - by destruct S1.
  - cbn. rewrite S5, E4. done.
  - cbn. rewrite S6, E5, Hb0. done.
  - cbn. rewrite S7, E6, Hb0, app_nil_r. done.
Qed.

#[export] Program Instance ide_disk : Disk (ide D) := {|
  dk_dev := 1; dk_size := fun _ => FSSIZE; dk_read := fun s x => media (ctl s) 1 x; dk_hist := ide_hist; dk_ok := alone
|}.
Next Obligation. done. Qed.
Next Obligation. intros s x H Hx. by apply H. Qed.
Next Obligation.
  intros me pid s b Q Hok Hl Hd Hb Hf Hlen HQ. cbn in *. assert (Hdirty : dirty b = false) by (unfold dirty, has_flag; by rewrite Hf).
  eapply wp_ide_iderw; [done|done|done|done|unfold needs_io; by rewrite Hf|]. intros s' A1 A2 A3 A4. unfold started, logged in *. rewrite Hdirty in *. rewrite app_nil_r in A4.
  replace (finished b (media (ctl s'))) with (b_set_flags B_VALID (b_set_data (media (ctl s) 1 (b_blockno b)) b)) by (unfold finished; by rewrite Hdirty, Hf, Hd, A3).
  apply HQ; [|done|by intros; rewrite A3|unfold ide_hist; by rewrite A4]. split; [done|done|]. rewrite A3. apply Hok.
Qed.
Next Obligation.
  intros me pid s b Q Hok Hl Hd Hb Hf Hbo HQ. cbn in *. assert (Hdirty : dirty b = true) by (unfold dirty, has_flag; by rewrite Hf).
  eapply wp_ide_iderw; [done|done|done|done|unfold needs_io; by rewrite Hf|]. intros s' A1 A2 A3 A4. unfold started, logged in *. rewrite Hdirty in *.
  replace (finished b (media (ctl s'))) with (b_set_flags B_VALID b) by (unfold finished; by rewrite Hdirty, Hf).
  assert (Hm : forall x, media (ctl s') 1 x = disk_write (media (ctl s) 1) (b_blockno b, b_data b) x) by (intros x; rewrite A3, Hd; done).
  apply HQ; [|done|by intros|unfold ide_hist; rewrite A4, omap_app; cbn; by rewrite Hd].
  split; [done|done|]. intros x Hx. rewrite Hm. unfold disk_write. cbn. destruct (x =? b_blockno b); [done|]. by apply Hok.
Qed.
End queue.

(** ** A controller *)

(** After a command the status reads busy twice. *)
Record ata_dev : Type := mk_ata { at_regs : areg; at_request : option (bool * Z * Z); at_media : Z -> Z -> list Z; at_written : list (Z * Z * list Z); at_busy : nat }.
Definition at_polls (d : ata_dev) : nat := Nat.min (at_busy d) 2.

#[global] Instance ata_ports : IdePorts ata_dev := {|
  ide_ports := {|
    inb p d := if p =? 0x1f7 then Ok (match at_polls d with O => 0x40 | S _ => 0x80 end)
                                   (mk_ata (at_regs d) (at_request d) (at_media d) (at_written d) (pred (at_polls d)))
               else Ok 0 d;
    outb p v d := Ok tt (mk_ata (set_reg p v (at_regs d)) (if p =? 0x1f7 then request_of v (at_regs d) else at_request d) (at_media d) (at_written d)
                           (if p =? 0x1f7 then 2%nat else at_busy d))
  |};
  insl _ d := match at_request d with Some (false, dr, sec) => Ok (at_media d dr sec) d | _ => Ok [] d end;
  outsl _ data d :=
    match at_request d with
    | Some (true, dr, sec) => Ok tt (mk_ata (at_regs d) (at_request d) (media_set (at_media d) dr sec data) (at_written d ++ [(dr, sec, data)]) (at_busy d))
    | _ => Ok tt d
    end
|}.
#[global, refine] Instance ata_ata : Ata ata_dev := {|
  regs := at_regs; request := at_request; media := at_media; written := at_written; polls := at_polls; max_polls := 2
|}.
Proof.
  - intros d. unfold at_polls. lia.
  - intros d. unfold wp. cbn. unfold at_polls. split_and!; try done; destruct (Nat.min (at_busy d) 2) as [|n] eqn:E; cbn; [done|done|done|lia].
  - intros d p v. unfold wp. cbn. done.
  - intros d dr sec data H. unfold wp. cbn. rewrite H. done.
  - intros d dr sec H. unfold wp. cbn. rewrite H. done.
Defined.

(** Process 7 writes block 3, process 8 reads it back through another buffer. *)
Definition demo_bufs (i : nat) : buf :=
  if Nat.eqb i 0 then mk_buf (Z.lor B_VALID B_DIRTY) 1 3 (held_by 7) 1 0 0 (replicate 512 1) else mk_buf 0 1 3 (held_by 8) 1 0 0 (replicate 512 0).
Definition demo_ide : ide ata_dev :=
  mk_ide initlock None (fun _ => None) true demo_bufs [] (mk_ata (mk_areg 0 0 0 0 0) None (fun _ _ => replicate 512 0) [] 0).
Definition demo_server : server := mk_server [] demo_bufs (fun _ _ => replicate 512 0) [] [].
Definition demo_events : list event := [Enter 0 7 0; Enter 1 8 1; Interrupt 0; Resume 0 0; Interrupt 1; Resume 1 1].

