(* ===== verification/Umalloc.v ===== *)
(** * The memory allocator of the user library ([src/xv6/umalloc.c])

    The allocator of Kernighan and Ritchie: a circular list of free blocks in the order of
    their addresses, each with a header of two words in front.  Memory is a function from the
    addresses of words to words, and the list is in it.  The system call [sbrk] is the class
    [Sbrk], whose law is what the allocator relies on. *)

From Stdlib Require Import Sorted.
From stdpp Require Import sorting.
From S2P Require Import Prelude.

(** [sizeof(Header)]: a pointer and a size, aligned like a long. *)
Definition HDR : Z := 8.

Class SbrkOp (E : Type) : Type := { sbrk : Z -> M E Z }.

Record ustate (E : Type) : Type := mk_ustate { mem : Z -> Z; freep : Z; env : E }.
Arguments mk_ustate {E}. Arguments mem {E}. Arguments freep {E}. Arguments env {E}.

Definition update (m : Z -> Z) (a v : Z) : Z -> Z := fun x => if x =? a then v else m x.

Section umalloc.
Context {E : Type} `{!SbrkOp E} (base : Z).
#[local] Abbreviation UM := (M (ustate E)).

(** The fields of the header at an address. *)
Definition get_ptr (p : Z) : UM Z := gets (fun s => mem s p).
Definition get_size (p : Z) : UM Z := gets (fun s => mem s (p + 4)).
Definition put_word (a v : Z) : UM unit := modify (fun s => mk_ustate (update (mem s) a v) (freep s) (env s)).
Definition put_ptr (p v : Z) : UM unit := put_word p v.
Definition put_size (p v : Z) : UM unit := put_word (p + 4) v.
Definition put_freep (p : Z) : UM unit := modify (fun s => mk_ustate (mem s) p (env s)).

(** The loop of [free]. *)
Fixpoint free_find (fuel : nat) (bp p : Z) : UM Z :=
  match fuel with
  | O => fun _ => OutOfFuel
  | S k =>
      let! q := get_ptr p in
      if (p <? bp) && (bp <? q) then ret p
      else if (q <=? p) && ((p <? bp) || (bp <? q)) then ret p
      else free_find k bp q
  end.

(** The block is joined with the next one or linked to it. *)
Definition join_upper (bp p : Z) : UM unit :=
  let! q := get_ptr p in
  let! n := get_size bp in
  if u32 (bp + n * HDR) =? q then
    let! nq := get_size q in
    put_size bp (u32 (n + nq)) ;;;
    let! qq := get_ptr q in
    put_ptr bp qq
  else put_ptr bp q.
(** The previous block is joined with the block or linked to it. *)
Definition join_lower (bp p : Z) : UM unit :=
  let! np := get_size p in
  if u32 (p + np * HDR) =? bp then
    let! n := get_size bp in
    put_size p (u32 (np + n)) ;;;
    let! q := get_ptr bp in
    put_ptr p q
  else put_ptr p bp.

Definition free (fuel : nat) (ap : Z) : UM unit :=
  let bp := ap - HDR in
  let! p := gets freep in
  let! p := free_find fuel bp p in
  join_upper bp p ;;;
  join_lower bp p ;;;
  put_freep p.

(** The break is given as an [int]. *)
Definition morecore (fuel : nat) (nu : Z) : UM Z :=
  let nu := if nu <? 4096 then 4096 else nu in
  let! p := zoom env (fun e s => mk_ustate (mem s) (freep s) e) (sbrk (i32 (u32 (nu * HDR)))) in
  if p =? 0xffffffff then ret 0 else
  put_size p nu ;;;
  free fuel (p + HDR) ;;;
  gets freep.

(** [nunits] are taken from the end of a block of [n] units, or the whole block. *)
Definition take_block (nunits prevp p n : Z) : UM Z :=
  let! p :=
    (if n =? nunits then let! q := get_ptr p in put_ptr prevp q ;;; ret p
     else
       put_size p (u32 (n - nunits)) ;;;
       let p := u32 (p + u32 (n - nunits) * HDR) in
       put_size p nunits ;;;
       ret p) in
  put_freep prevp ;;;
  ret (p + HDR).

Fixpoint malloc_loop (fuel : nat) (nunits prevp p : Z) : UM Z :=
  match fuel with
  | O => fun _ => OutOfFuel
  | S k =>
      let! n := get_size p in
      if nunits <=? n then take_block nunits prevp p n
      else
        let! f := gets freep in
        if p =? f then
          let! p := morecore fuel nunits in
          if p =? 0 then ret 0 else
          let! q := get_ptr p in
          malloc_loop k nunits p q
        else
          let! q := get_ptr p in
          malloc_loop k nunits p q
  end.

Definition nunits_of (nbytes : Z) : Z := u32 (nbytes + HDR - 1) / HDR + 1.

Definition malloc (fuel : nat) (nbytes : Z) : UM Z :=
  let nunits := nunits_of nbytes in
  let! f := gets freep in
  (if f =? 0 then put_freep base ;;; put_ptr base base ;;; put_size base 0 else ret tt) ;;;
  let! prevp := gets freep in
  let! p := get_ptr prevp in
  malloc_loop fuel nunits prevp p.
End umalloc.

Ltac ustep := unfold get_ptr, get_size, put_ptr, put_size, put_word, put_freep; wp_steps; cbn [mem freep env].

(** ** The list of free blocks *)

(** The law of [sbrk]: it fails, or gives fresh memory above [heap_lo] and below 2 GB, aligned
    like a header. *)
Class Sbrk (E : Type) `{!SbrkOp E} (heap_lo : Z) : Type := {
  granted : E -> Z -> Prop;
  sbrk_ok e n : 0 <= n < 2147483648 -> n mod 8 = 0 -> wp (sbrk n) (fun r e' =>
    (r = 0xffffffff /\ forall x, granted e' x <-> granted e x) \/
    (heap_lo <= r /\ r mod 8 = 0 /\ r + n <= 2147483648 /\
     (forall x, granted e' x <-> granted e x \/ r <= x < r + n) /\ (forall x, r <= x < r + n -> ~ granted e x))) e
}.

(** From [a] through the addresses [l] to [b] along the pointers. *)
Fixpoint chain (m : Z -> Z) (a : Z) (l : list Z) (b : Z) : Prop :=
  match l with [] => m a = b | x :: l => m a = x /\ chain m x l b end.

Lemma chain_app m a l1 x l2 b : chain m a (l1 ++ x :: l2) b <-> chain m a l1 x /\ chain m x l2 b.
Proof. revert a. induction l1 as [|y l1 IH]; intros a; cbn; [tauto|]. rewrite IH. tauto. Qed.
Lemma hchain_ext m m' a l b : (forall x, x ∈ a :: l -> m' x = m x) -> chain m a l b -> chain m' a l b.
Proof.
  revert a. induction l as [|y l IH]; intros a He; cbn; [intros <-; apply He; set_solver|].
  intros [<- H]. rewrite He by set_solver. split; [done|]. apply IH; [set_solver|done].
Qed.

Lemma hchain_head m m' a a' l b : m' a' = m a -> (forall x, x ∈ l -> m' x = m x) -> chain m a l b -> chain m' a' l b.
Proof.
  intros Ha Hl. destruct l as [|y l]; cbn; [congruence|]. intros [<- H]. split; [done|]. by apply (hchain_ext m).
Qed.

(** Removing an element from a chain. *)
Fixpoint last_of (a : Z) (l : list Z) : Z := match l with [] => a | y :: l => last_of y l end.
Lemma last_of_lookup l1 l2 : forall a, (a :: l1 ++ l2) !! length l1 = Some (last_of a l1).
Proof. induction l1 as [|y l1 IH]; intros a; [done|]. apply IH. Qed.
Lemma last_of_elem l : forall a, last_of a l ∈ a :: l.
Proof. induction l as [|y l IH]; intros a; cbn; apply elem_of_cons; [by left|right; apply IH]. Qed.
Lemma chain_unlink m l1 p l2 b : forall a, NoDup (a :: l1 ++ l2) -> chain m a l1 p -> chain m p l2 b ->
  chain (fun x => if x =? last_of a l1 then m p else m x) a (l1 ++ l2) b.
Proof.
  induction l1 as [|y l1 IH]; intros a Hd H1 H2; cbn [last_of app].
  - apply (hchain_head m _ p); [by rewrite Z.eqb_refl| |done]. intros x Hx. apply NoDup_cons in Hd as [Hd _]. cbn in Hd.
    rewrite (proj2 (Z.eqb_neq x a)); [done|]. by intros ->.
  - destruct H1 as [<- H1]. apply NoDup_cons in Hd as [Ha Hd]. cbn [chain]. split; [|by apply IH].
    rewrite (proj2 (Z.eqb_neq a _)); [done|]. intros E. apply Ha. rewrite E at 1. apply (elem_of_app (m a :: l1)). left. apply last_of_elem.
Qed.

(** A block: the address of its header and its size in units. *)
Abbreviation block := (Z * Z)%type.
Definition b_end (b : block) : Z := fst b + 8 * snd b.
Definition inside (x : Z) (b : block) : Prop := fst b <= x < b_end b.
Definition apart (b c : block) : Prop := b_end b <= fst c \/ b_end c <= fst b.
(** Free blocks are in order and never touch. *)
Definition before (b c : block) : Prop := b_end b < fst c.

Lemma update_eq m a v : update m a v a = v.
Proof. unfold update. by rewrite Z.eqb_refl. Qed.
Lemma update_ne m a v x : x <> a -> update m a v x = m x.
Proof. intros H. unfold update. by rewrite (proj2 (Z.eqb_neq _ _) H). Qed.

Fixpoint pairwise (l : list block) : Prop := match l with [] => True | b :: l => Forall (apart b) l /\ pairwise l end.
Lemma apart_sym b c : apart b c -> apart c b.
Proof. unfold apart. tauto. Qed.
#[global] Instance pairwise_perm : Proper ((≡ₚ) ==> iff) pairwise.
Proof.
  assert (H : forall l l', l ≡ₚ l' -> pairwise l -> pairwise l'); [|intros l l' Hl; split; by apply H].
  induction 1 as [|b l l' Hl IH|b c l|l1 l2 l3 _ IH1 _ IH2]; cbn; [done| |rewrite !Forall_cons|tauto].
  - intros [H1 H2]. split; [by rewrite <-Hl|by apply IH].
  - intros ((H1 & H2) & H3 & H4). split_and!; [by apply apart_sym|done..].
Qed.

Section heap.
Context {E : Type} `{!SbrkOp E} (base heap_lo : Z) `{!Sbrk E heap_lo}.
Context (Hbase : 0 < base /\ base mod 8 = 0 /\ base + 8 <= heap_lo).

Record block_ok (m : Z -> Z) (b : block) : Prop := mk_block_ok {
  bo_size : m (fst b + 4) = snd b;
  bo_pos : 1 <= snd b;
  bo_aligned : fst b mod 8 = 0;
  bo_lo : heap_lo <= fst b;
  bo_hi : b_end b <= 2147483648
}.
Definition blocks (m : Z -> Z) (B : list block) : Prop := Forall (block_ok m) B /\ pairwise B.
#[local] Instance blocks_perm m : Proper ((≡ₚ) ==> iff) (blocks m).
Proof. intros B B' HB. unfold blocks. by rewrite HB. Qed.

(** Writing a pointer changes no size. *)
Lemma blocks_ptr m a v B : a mod 8 = 0 -> blocks m B -> blocks (update m a v) B.
Proof.
  intros Ha [H1 H2]. split; [|done]. eapply Forall_impl; [exact H1|]. intros b [B1 B2 B3 B4 B5]. split; try done.
  rewrite update_ne; [done|]. zlia.
Qed.
Lemma chain_size m a v x l y : a mod 8 = 4 -> x mod 8 = 0 -> Forall (fun z => z mod 8 = 0) l -> chain m x l y -> chain (update m a v) x l y.
Proof. intros Ha Hx Hl. apply hchain_ext. intros z Hz. apply update_ne. rewrite Forall_forall in Hl. assert (z mod 8 = 0) by set_solver. zlia. Qed.

(** Joining two blocks that touch, and splitting one. *)
Lemma blocks_join m b c B : b_end b = fst c -> blocks m (b :: c :: B) ->
  blocks (update m (fst b + 4) (snd b + snd c)) ((fst b, snd b + snd c) :: B).
Proof.
  intros Hbc [H1 H2]. destruct b as [a n], c as [a' n']. unfold b_end in *. cbn [fst snd] in *. rewrite !Forall_cons in H1. destruct H1 as ([B1 B2 B3 B4 B5] & [C1 C2 C3 C4 C5] & H1). unfold b_end in *. cbn in *.
  destruct H2 as (H2 & H3 & H4). apply Forall_cons in H2 as [_ H2]. split; [constructor|split].
  - split; cbn; [apply update_eq|lia|done|done|unfold b_end; cbn; lia].
  - rewrite Forall_forall in *. intros d Hd. specialize (H1 d Hd) as [D1 D2 D3 D4 D5]. split; try done. rewrite update_ne; [done|].
    specialize (H2 d Hd). unfold apart, b_end in H2. cbn in H2. unfold b_end in D5. zlia.
  - rewrite Forall_forall in *. intros d Hd. specialize (H2 d Hd). specialize (H3 d Hd). pose proof (bo_pos _ _ (H1 d Hd)). unfold apart, b_end in *. cbn in *. lia.
  - done.
Qed.
Lemma blocks_split m a n k B : 0 < k < n -> blocks m ((a, n) :: B) ->
  blocks (update (update m (a + 4) (n - k)) (a + 8 * (n - k) + 4) k) ((a + 8 * (n - k), k) :: (a, n - k) :: B).
Proof.
  intros Hk [H1 H2]. rewrite Forall_cons in H1. destruct H1 as ([B1 B2 B3 B4 B5] & H1). unfold b_end in *. cbn in *. destruct H2 as (H2 & H3).
  split; [constructor; [|constructor]|split; [constructor|split]].
  - split; unfold b_end; cbn; [apply update_eq|lia|zlia|lia|lia].
  - split; unfold b_end; cbn; [rewrite update_ne by lia; apply update_eq|lia|done|done|lia].
  - rewrite Forall_forall in *. intros d Hd. specialize (H1 d Hd) as [D1 D2 D3 D4 D5]. split; try done.
    specialize (H2 d Hd). unfold apart, b_end in *. cbn in *. rewrite !update_ne by zlia. done.
  - right. unfold b_end. cbn. lia.
  - rewrite Forall_forall in *. intros d Hd. specialize (H2 d Hd). unfold apart, b_end in *. cbn in *. lia.
  - rewrite Forall_forall in *. intros d Hd. specialize (H2 d Hd). unfold apart, b_end in *. cbn in *. lia.
  - done.
Qed.

(** ** The circle *)

Definition circle (F : list block) : list Z := base :: F.*1.

Lemma chain_lookup m a l b k x : chain m a l b -> (a :: l) !! k = Some x -> m x = default b (l !! k).
Proof.
  revert a k. induction l as [|y l IH]; intros a [|k]; cbn; [by intros <- [= ->]|done|by intros [<- _] [= ->]|].
  intros [_ Hc] Hk. by eapply IH.
Qed.
Lemma circle_next m F k x : chain m base F.*1 base -> circle F !! k = Some x -> m x = default base (circle F !! S k).
Proof. exact (chain_lookup m base F.*1 base k x). Qed.

Lemma sorted_lookup (F : list block) i j b c : StronglySorted before F -> F !! i = Some b -> F !! j = Some c -> (i < j)%nat -> before b c.
Proof.
  intros Hs. revert i j. induction Hs as [|d F _ IH HF]; intros [|i] [|j] Hi Hj Hlt; try done; try lia; cbn in *.
  - injection Hi as ->. rewrite Forall_forall in HF. apply HF. by eapply list_elem_of_lookup_2.
  - apply (IH i j); [done|done|lia].
Qed.
Lemma circle_lt m F i j x y : StronglySorted before F -> Forall (block_ok m) F ->
  circle F !! i = Some x -> circle F !! j = Some y -> (i < j)%nat -> x < y.
Proof.
  intros Hs Hb Hi Hj Hlt. destruct j as [|j]; [lia|]. cbn in Hj. apply list_lookup_fmap_Some in Hj as ([y' ny] & -> & Hj). cbn.
  rewrite Forall_forall in Hb. pose proof (Hb _ (list_elem_of_lookup_2 _ _ _ Hj)) as [Y1 Y2 Y3 Y4 Y5]. cbn in *. destruct i as [|i]; cbn in Hi; [injection Hi as <-; lia|].
  apply list_lookup_fmap_Some in Hi as ([x' nx] & -> & Hi). pose proof (Hb _ (list_elem_of_lookup_2 _ _ _ Hi)) as [X1 X2 X3 X4 X5].
  pose proof (sorted_lookup _ _ _ _ _ Hs Hi Hj ltac:(lia)) as Hbef. unfold before, b_end in Hbef. cbn in *. lia.
Qed.

(** The free blocks below a block that is not free, and those above it. *)
Lemma split_at m F b : StronglySorted before F -> Forall (apart b) F -> Forall (block_ok m) (b :: F) ->
  exists F1 F2, F = F1 ++ F2 /\ Forall (fun c => b_end c <= fst b) F1 /\ Forall (fun c => b_end b <= fst c) F2.
Proof.
  intros Hs Ha Hb. induction Hs as [|c F Hs IH HF]; [by exists [], []|]. apply Forall_cons in Ha as [Hc Ha]. rewrite !Forall_cons in Hb. destruct Hb as (Hb & Hcb & HbF).
  destruct (IH Ha) as (F1 & F2 & -> & H1 & H2); [by constructor|].
  destruct Hc as [Hc|Hc].
  - exists [], (c :: F1 ++ F2). split_and!; [done|by constructor|]. constructor; [done|]. eapply Forall_impl; [exact HF|]. intros d Hd. unfold before, b_end in *. pose proof (bo_pos _ _ Hcb). lia.
  - exists (c :: F1), F2. split_and!; [done|by constructor|done].
Qed.

(** Where the loop of [free] stops. *)
Lemma wp_free_find s F1 F2 bp fuel (Q : Z -> ustate E -> Prop) (m := mem s) (F := F1 ++ F2) : StronglySorted before F -> Forall (block_ok m) F ->
  chain m base F.*1 base -> heap_lo <= bp -> Forall (fun c => fst c < bp) F1 -> Forall (fun c => bp < fst c) F2 ->
  forall k x, circle F !! k = Some x ->
  (if Nat.leb k (length F1) then length F1 - k < fuel else S (length F) - k + length F1 < fuel)%nat ->
  (forall p, circle F !! length F1 = Some p -> p < bp -> Q p s) -> wp (free_find fuel bp x) Q s.
Proof.
  intros Hs Hb Hc Hlo H1 H2. induction fuel as [|fuel IH]; intros k x Hk Hf HQ; [by destruct (Nat.leb_spec k (length F1)); lia|]. cbn [free_find]. ustep.
  fold m. rewrite (circle_next m F k x Hc Hk).
  assert (Hlow : forall i y, (i <= length F1)%nat -> circle F !! i = Some y -> y < bp).
  { intros [|i] y Hi Hy; [injection Hy as <-; lia|]. change (circle F !! S i) with ((F1 ++ F2).*1 !! i) in Hy. rewrite fmap_app, lookup_app_l in Hy by (rewrite length_fmap; lia).
    apply list_lookup_fmap_Some in Hy as (c & -> & Hy). rewrite Forall_forall in H1. apply H1. by eapply list_elem_of_lookup_2. }
  assert (Hhigh : forall i y, (length F1 < i)%nat -> circle F !! i = Some y -> bp < y).
  { intros [|i] y Hi Hy; [lia|]. change (circle F !! S i) with ((F1 ++ F2).*1 !! i) in Hy. rewrite fmap_app, lookup_app_r in Hy by (rewrite length_fmap; lia).
    apply list_lookup_fmap_Some in Hy as (c & -> & Hy). rewrite Forall_forall in H2. apply H2. by eapply list_elem_of_lookup_2. }
  assert (Hlen : length (circle F) = S (length F)) by (cbn; by rewrite length_fmap). assert (HlF : length F = (length F1 + length F2)%nat) by apply length_app.
  assert (Hpos : forall y, circle F !! S k = Some y -> x < y) by (intros y Hy; eapply circle_lt; [done|done|exact Hk|exact Hy|lia]).
  pose proof (lookup_lt_Some _ _ _ Hk) as Hkl. rewrite Hlen in Hkl.
  assert (Hx : base <= x).
  { destruct k as [|k]; cbn in Hk; [injection Hk as <-; lia|]. enough (base < x) by lia. by eapply (circle_lt m F 0 (S k)); [..|lia]. }
  destruct (circle F !! S k) as [y|] eqn:Ey.
  - change (default base (Some y)) with y. specialize (Hpos _ eq_refl). rewrite (proj2 (Z.leb_gt y x)) by done. cbn [andb].
    destruct (lt_eq_lt_dec k (length F1)) as [[Hlt|Heq]|Hgt].
    + pose proof (Hlow (S k) y ltac:(lia) Ey). rewrite (proj2 (Z.ltb_ge bp y)), andb_false_r by lia. apply (IH (S k)); [done| |done].
      rewrite (proj2 (Nat.leb_le k _)) in Hf by lia. rewrite (proj2 (Nat.leb_le (S k) _)) by lia. lia.
    + subst k. pose proof (Hlow (length F1) x ltac:(lia) Hk). pose proof (Hhigh (S (length F1)) y ltac:(lia) Ey).
      rewrite (proj2 (Z.ltb_lt x bp)), (proj2 (Z.ltb_lt bp y)) by done. cbn [andb]. wp_step. by apply HQ.
    + pose proof (Hhigh k x ltac:(lia) Hk). rewrite (proj2 (Z.ltb_ge x bp)) by lia. cbn [andb]. apply (IH (S k)); [done| |done].
      rewrite (proj2 (Nat.leb_gt k _)) in Hf by lia. rewrite (proj2 (Nat.leb_gt (S k) _)) by lia. lia.
  - change (default base None) with base. apply lookup_ge_None in Ey. rewrite (proj2 (Z.leb_le base x)), (proj2 (Z.ltb_ge bp base)), andb_false_r, orb_false_r by lia. cbn [andb].
    destruct (decide (k = length F1)) as [->|Hne].
    + pose proof (Hlow (length F1) x ltac:(lia) Hk). rewrite (proj2 (Z.ltb_lt x bp)) by done. wp_step. by apply HQ.
    + pose proof (Hhigh k x ltac:(lia) Hk). rewrite (proj2 (Z.ltb_ge x bp)) by lia. apply (IH 0%nat); [done| |done].
      rewrite (proj2 (Nat.leb_gt k _)) in Hf by lia. cbn. lia.
Qed.

(** ** The invariant *)

(** [F] are the free blocks, [A] the blocks in use. *)
Record heap (s : ustate E) (F A : list block) : Prop := mk_heap {
  hp_base : mem s (base + 4) = 0;
  hp_chain : chain (mem s) base F.*1 base;
  hp_sorted : StronglySorted before F;
  hp_blocks : blocks (mem s) (F ++ A);
  hp_freep : freep s ∈ circle F;
  hp_granted x : granted (env s) x <-> Exists (inside x) (F ++ A)
}.

Lemma inside_not m b B c x : blocks m (b :: B) -> c ∈ B -> inside x c -> ~ inside x b.
Proof.
  intros [_ [H _]] Hc. rewrite Forall_forall in H. specialize (H c Hc). unfold apart, inside in *. lia.
Qed.
Lemma below_not m b x : block_ok m b -> x < heap_lo -> ~ inside x b.
Proof. intros [B1 B2 B3 B4 B5]. unfold inside. lia. Qed.
Lemma inside_join a n n' x : 0 <= n -> 0 <= n' -> inside x (a, n + n') <-> inside x (a, n) \/ inside x (a + 8 * n, n').
Proof. unfold inside, b_end. cbn. lia. Qed.
Lemma header_inside m b : block_ok m b -> inside (fst b) b /\ inside (fst b + 4) b.
Proof. intros [B1 B2 B3 B4 B5]. unfold inside, b_end. lia. Qed.
Lemma aligned m F : Forall (block_ok m) F -> Forall (fun z => z mod 8 = 0) F.*1.
Proof. intros H. apply Forall_fmap. eapply Forall_impl; [exact H|]. intros b Hb. apply Hb. Qed.

(** After [join_upper]: the block is [(bp, n')], the free blocks above it are [F2']. *)
Record upper (m m1 : Z -> Z) (bp n : Z) (F1 F2 A : list block) (n' : Z) (F2' : list block) : Prop := mk_upper {
  up_chain : chain m1 bp F2'.*1 base;
  up_blocks : blocks m1 ((bp, n') :: F1 ++ F2' ++ A);
  up_above : Forall (before (bp, n')) F2';
  up_sorted : StronglySorted before F2';
  up_cover x : Exists (inside x) ((bp, n') :: F1 ++ F2' ++ A) <-> Exists (inside x) ((bp, n) :: F1 ++ F2 ++ A);
  up_same x : ~ inside x (bp, n) -> m1 x = m x;
  up_grows : n <= n';
  up_length : (length F2' <= length F2)%nat
}.

Lemma wp_join_upper s bp n p F1 F2 A (Q : unit -> ustate E -> Prop) (m := mem s) : blocks m ((bp, n) :: F1 ++ F2 ++ A) ->
  chain m p F2.*1 base -> StronglySorted before F2 -> Forall (fun c => bp + 8 * n <= fst c) F2 ->
  (forall m1 n' F2', upper m m1 bp n F1 F2 A n' F2' -> Q tt (mk_ustate m1 (freep s) (env s))) -> wp (join_upper bp p) Q s.
Proof.
  intros Hb Hc Hs Ha HQ. unfold join_upper. ustep. fold m. pose proof (proj1 (Forall_cons _ _ _) (proj1 Hb)) as [[B1 B2 B3 B4 B5] HbF].
  unfold b_end in B5. cbn in B1, B2, B3, B4, B5. rewrite B1. unfold HDR. rewrite u32_small by (unfold W32; lia).
  assert (HF2 : Forall (block_ok m) F2) by (rewrite !Forall_app in HbF; tauto).
  destruct (Z.eqb_spec (bp + n * 8) (m p)) as [He|Hne].
  - destruct F2 as [|[q nq] G2]; cbn in Hc; [lia|]. destruct Hc as [Hp Hc]. rewrite Hp in He.
    apply Forall_cons in HF2 as [[Q1 Q2 Q3 Q4 Q5] HG2]. unfold b_end in Q5. cbn in Q1, Q2, Q3, Q4, Q5. ustep. rewrite Hp. fold m. rewrite Q1.
    rewrite u32_small by (unfold W32; lia). rewrite (update_ne _ _ _ q) by zlia.
    assert (Hperm : (bp, n) :: F1 ++ ((q, nq) :: G2) ++ A ≡ₚ (bp, n) :: (q, nq) :: F1 ++ G2 ++ A) by solve_Permutation.
    apply (HQ _ (n + nq) G2). apply StronglySorted_inv in Hs as [Hs Hq]. split.
    + apply (hchain_head m _ q); [apply update_eq| |done]. intros x Hx. apply list_elem_of_fmap in Hx as ([x' nx] & -> & Hx). rewrite Forall_forall in HG2, Hq.
      destruct (HG2 _ Hx) as [X1 X2 X3 X4 X5]. specialize (Hq _ Hx). unfold before, b_end in *. cbn in *. rewrite !update_ne by zlia. done.
    + apply blocks_ptr; [done|]. rewrite Hperm in Hb. apply (blocks_join m (bp, n) (q, nq)) in Hb; [done|]. unfold b_end. cbn. lia.
    + eapply Forall_impl; [exact Hq|]. intros c. unfold before, b_end. cbn. lia.
    + done.
    + intros x. rewrite Hperm. rewrite !Exists_cons, inside_join by lia. replace (bp + 8 * n) with q by lia. tauto.
    + intros x Hx. unfold inside, b_end in Hx. cbn in Hx. rewrite !update_ne by lia. done.
    + lia.
    + cbn. lia.
  - ustep. apply (HQ _ n F2). split; [| | |done|done| |lia|done].
    + apply (hchain_head m _ p); [apply update_eq| |done]. intros x Hx. apply list_elem_of_fmap in Hx as ([x' nx] & -> & Hx). rewrite Forall_forall in HF2, Ha.
      specialize (Ha _ Hx). cbn in *. apply update_ne. lia.
    + by apply blocks_ptr.
    + destruct F2 as [|[q nq] G2]; [done|]. cbn in Hc. destruct Hc as [Hp Hc]. apply Forall_cons in Ha as [Hq' _]. apply StronglySorted_inv in Hs as [_ Hq].
      apply Forall_cons in HF2 as [[Q1 Q2 Q3 Q4 Q5] _]. unfold before, b_end in *. cbn in *.
      constructor; [cbn; lia|]. eapply Forall_impl; [exact Hq|]. intros c. cbn. lia.
    + intros x Hx. unfold inside, b_end in Hx. cbn in Hx. apply update_ne. lia.
Qed.

Lemma sorted_mid m F1 b F2 : block_ok m b -> StronglySorted before F1 -> StronglySorted before F2 -> Forall (fun c => before c b) F1 -> Forall (before b) F2 ->
  StronglySorted before (F1 ++ b :: F2).
Proof.
  intros Hb H1 H2 H3 H4. rewrite Forall_forall in H3. apply StronglySorted_app_2; [|done|by constructor]. intros c d Hc Hd. specialize (H3 _ Hc).
  apply elem_of_cons in Hd as [->|Hd]; [done|]. rewrite Forall_forall in H4. specialize (H4 _ Hd). pose proof (bo_pos _ _ Hb). unfold before, b_end in *. lia.
Qed.

(** After [join_lower]: the free blocks are [F']. *)
Record lower (m m2 : Z -> Z) (p bp n : Z) (F1 F2 A F' : list block) : Prop := mk_lower {
  lo_base : m2 (base + 4) = 0;
  lo_chain : chain m2 base F'.*1 base;
  lo_sorted : StronglySorted before F';
  lo_blocks : blocks m2 (F' ++ A);
  lo_cover x : Exists (inside x) (F' ++ A) <-> Exists (inside x) ((bp, n) :: F1 ++ F2 ++ A);
  lo_p : p ∈ circle F';
  lo_same x c : c ∈ A -> inside x c -> m2 x = m x;
  lo_has : exists c, c ∈ F' /\ fst c <= bp /\ bp + 8 * n <= b_end c;
  lo_length : (length F' <= S (length F1 + length F2))%nat
}.

Lemma wp_join_lower s bp n p F1 F2 A (Q : unit -> ustate E -> Prop) (m := mem s) : m (base + 4) = 0 -> blocks m ((bp, n) :: F1 ++ F2 ++ A) ->
  chain m bp F2.*1 base -> (F1 = [] /\ p = base \/ exists G1 np, F1 = G1 ++ [(p, np)] /\ chain m base G1.*1 p) ->
  StronglySorted before F1 -> StronglySorted before F2 -> Forall (fun c => b_end c <= bp) F1 -> Forall (before (bp, n)) F2 ->
  (forall m2 F', lower m m2 p bp n F1 F2 A F' -> Q tt (mk_ustate m2 (freep s) (env s))) -> wp (join_lower bp p) Q s.
Proof.
  intros Hb0 Hb Hc Hp Hs1 Hs2 Ha1 Ha2 HQ. unfold join_lower. ustep. fold m. pose proof (proj1 (Forall_cons _ _ _) (proj1 Hb)) as [Hbp HbF].
  pose proof Hbp as [B1 B2 B3 B4 B5]. unfold b_end in B5. cbn in B1, B2, B3, B4, B5. rewrite !Forall_app in HbF. destruct HbF as (HF1 & HF2 & HA).
  assert (Hal : Forall (fun z => z mod 8 = 0) F2.*1) by (by eapply aligned).
  assert (Hgt : forall x, x ∈ F2.*1 -> bp < x).
  { intros x Hx. apply list_elem_of_fmap in Hx as (c & -> & Hx). rewrite Forall_forall in Ha2. specialize (Ha2 _ Hx). unfold before, b_end in Ha2. cbn in Ha2. lia. }
  destruct Hp as [[-> ->]|(G1 & np & -> & Hp)].
  - rewrite Hb0. unfold HDR. rewrite u32_small by (unfold W32; lia). rewrite (proj2 (Z.eqb_neq _ _)) by lia. ustep. fold m.
    apply (HQ _ ((bp, n) :: F2)). split.
    + rewrite update_ne by lia. done.
    + cbn. split; [apply update_eq|]. apply (hchain_ext m); [|done]. intros x Hx. apply update_ne. apply elem_of_cons in Hx as [->|Hx]; [lia|]. specialize (Hgt x Hx). lia.
    + by constructor.
    + apply blocks_ptr; [lia|]. done.
    + done.
    + unfold circle. set_solver.
    + intros x c Hc' Hx. apply update_ne. rewrite Forall_forall in HA. pose proof (HA c Hc') as [C1 C2 C3 C4 C5]. unfold inside in Hx. lia.
    + exists (bp, n). unfold b_end. cbn. split_and!; [set_solver|lia|lia].
    + cbn. lia.
  - apply Forall_app in HF1 as [HG1 HF1]. apply Forall_cons in HF1 as [Hpb _]. pose proof Hpb as [P1 P2 P3 P4 P5]. unfold b_end in P5. cbn in P1, P2, P3, P4, P5.
    apply Forall_app in Ha1 as [HaG Ha1]. apply Forall_cons in Ha1 as [Hpa _]. unfold b_end in Hpa. cbn in Hpa.
    assert (HG : Forall (fun c => before c (p, np)) G1).
    { apply Forall_forall. intros c Hc'. eapply StronglySorted_app_1_elem_of; [exact Hs1|done|set_solver]. }
    apply StronglySorted_app in Hs1 as (_ & Hs1 & _).
    assert (HltG : forall x, x ∈ base :: G1.*1 -> x < p /\ x mod 8 = 0).
    { intros x Hx. apply elem_of_cons in Hx as [->|Hx]; [lia|]. apply list_elem_of_fmap in Hx as (c & -> & Hx). rewrite Forall_forall in HG, HG1.
      specialize (HG _ Hx). destruct (HG1 _ Hx) as [X1 X2 X3 X4 X5]. unfold before, b_end in HG. cbn in HG. lia. }
    assert (Hperm : (bp, n) :: (G1 ++ [(p, np)]) ++ F2 ++ A ≡ₚ (p, np) :: (bp, n) :: G1 ++ F2 ++ A) by solve_Permutation.
    assert (Hout : forall x c, c ∈ A -> inside x c -> x <> p /\ x <> p + 4).
    { intros x c Hc' Hx. rewrite Hperm in Hb. pose proof (inside_not m _ _ c x Hb ltac:(set_solver) Hx) as Hn. unfold inside, b_end in Hn. cbn in Hn. lia. }
    rewrite P1. unfold HDR. rewrite u32_small by (unfold W32; lia). destruct (Z.eqb_spec (p + np * 8) bp) as [He|Hne].
    + ustep. fold m. rewrite B1, u32_small by (unfold W32; lia). rewrite (update_ne _ _ _ bp) by zlia.
      assert (Hj : blocks (update m (p + 4) (np + n)) ((p, np + n) :: G1 ++ F2 ++ A)).
      { apply (blocks_join m (p, np) (bp, n)); [unfold b_end; cbn; lia|]. by rewrite <-Hperm. }
      apply (HQ _ (G1 ++ (p, np + n) :: F2)). split.
      * rewrite !update_ne by zlia. done.
      * rewrite fmap_app. cbn. apply chain_app. split.
        -- apply (hchain_ext m); [|done]. intros x Hx. destruct (HltG x Hx). rewrite !update_ne by zlia. done.
        -- apply (hchain_head m _ bp); [apply update_eq| |done]. intros x Hx. specialize (Hgt x Hx). rewrite Forall_forall in Hal. specialize (Hal x Hx). rewrite !update_ne by zlia. done.
      * eapply sorted_mid; [exact (Forall_inv (proj1 Hj))|done|done|done|]. eapply Forall_impl; [exact Ha2|]. intros c. unfold before, b_end. cbn. lia.
      * apply blocks_ptr; [done|]. assert ((G1 ++ (p, np + n) :: F2) ++ A ≡ₚ (p, np + n) :: G1 ++ F2 ++ A) as -> by solve_Permutation. done.
      * intros x. rewrite Hperm. assert ((G1 ++ (p, np + n) :: F2) ++ A ≡ₚ (p, np + n) :: G1 ++ F2 ++ A) as -> by solve_Permutation.
        rewrite !Exists_cons, inside_join by lia. replace (p + 8 * np) with bp by lia. tauto.
      * unfold circle. rewrite fmap_app. set_solver.
      * intros x c Hc' Hx. destruct (Hout x c Hc' Hx). rewrite !update_ne by done. done.
      * exists (p, np + n). unfold b_end. cbn. split_and!; [set_solver|lia|lia].
      * rewrite !length_app. cbn. lia.
    + ustep. fold m. apply (HQ _ (G1 ++ (p, np) :: (bp, n) :: F2)). split.
      * rewrite !update_ne by zlia. done.
      * rewrite fmap_app. cbn. apply chain_app. split; [|split; [apply update_eq|]].
        -- apply (hchain_ext m); [|done]. intros x Hx. destruct (HltG x Hx). rewrite !update_ne by zlia. done.
        -- apply (hchain_ext m); [|done]. intros x Hx. apply update_ne. apply elem_of_cons in Hx as [->|Hx]; [lia|]. specialize (Hgt x Hx). lia.
      * assert (Hpp : before (p, np) (bp, n)) by (unfold before, b_end; cbn; lia).
        eapply sorted_mid; [exact Hpb|done|by constructor|done|]. constructor; [done|]. eapply Forall_impl; [exact Ha2|]. intros c. unfold before, b_end in *. cbn in *. lia.
      * apply blocks_ptr; [done|]. assert ((G1 ++ (p, np) :: (bp, n) :: F2) ++ A ≡ₚ (bp, n) :: (G1 ++ [(p, np)]) ++ F2 ++ A) as -> by solve_Permutation. done.
      * intros x. assert ((G1 ++ (p, np) :: (bp, n) :: F2) ++ A ≡ₚ (bp, n) :: (G1 ++ [(p, np)]) ++ F2 ++ A) as -> by solve_Permutation. done.
      * unfold circle. rewrite fmap_app. set_solver.
      * intros x c Hc' Hx. destruct (Hout x c Hc' Hx). by apply update_ne.
      * exists (bp, n). unfold b_end. cbn. split_and!; [set_solver|lia|lia].
      * rewrite !length_app. cbn. lia.
Qed.

(** What [free] of the block [b] leaves. *)
Record freed (s s' : ustate E) (b : block) (F A F' : list block) : Prop := mk_freed {
  fr_heap : heap s' F' A;
  fr_env : env s' = env s;
  fr_same x c : c ∈ A -> inside x c -> mem s' x = mem s x;
  fr_has : exists c, c ∈ F' /\ fst c <= fst b /\ b_end b <= b_end c;
  fr_length : (length F' <= S (length F))%nat
}.

Lemma wp_free s b F A fuel (Q : unit -> ustate E -> Prop) : heap s F (b :: A) -> (2 * length F + 1 < fuel)%nat ->
  (forall s' F', freed s s' b F A F' -> Q tt s') -> wp (free fuel (fst b + HDR)) Q s.
Proof.
  destruct b as [bp n]. intros [H1 H2 H3 H4 H5 H6] Hf HQ. unfold free. cbn [fst]. replace (bp + HDR - HDR) with bp by lia. wp_step. wp_step. wp_step.
  assert (Hperm : F ++ (bp, n) :: A ≡ₚ (bp, n) :: F ++ A) by solve_Permutation. setoid_rewrite Hperm in H6. rewrite Hperm in H4.
  pose proof (proj1 (Forall_cons _ _ _) (proj1 H4)) as [Hb HFA]. pose proof Hb as [B1 B2 B3 B4 B5]. cbn in B1, B2, B3, B4.
  pose proof (proj1 (Forall_app _ _ _) HFA) as [HF HA]. pose proof (proj1 (proj2 H4)) as Hap. apply Forall_app in Hap as [Hap _].
  destruct (split_at (mem s) F (bp, n) H3 Hap ltac:(by constructor)) as (F1 & F2 & -> & Hl & Hh). cbn in Hl, Hh.
  apply list_elem_of_lookup_1 in H5 as [k Hk]. pose proof (lookup_lt_Some _ _ _ Hk) as Hkl. cbn in Hkl. rewrite length_fmap in Hkl.
  assert (HF1' : Forall (fun c => fst c < bp) F1).
  { apply Forall_app in HF as [HF1 _]. rewrite Forall_forall in *. intros c Hc. specialize (Hl c Hc). pose proof (bo_pos _ _ (HF1 c Hc)). unfold b_end in Hl. lia. }
  assert (HF2' : Forall (fun c => bp < fst c) F2) by (eapply Forall_impl; [exact Hh|]; intros c; unfold b_end; cbn; lia).
  eapply (wp_free_find s F1 F2 bp fuel); [done|done|done|done|done|done|exact Hk| |].
  { rewrite length_app in *. destruct (Nat.leb_spec k (length F1)); lia. }
  intros p Hp Hpb. assert (Hsp : (F1 = [] /\ p = base \/ exists G1 np, F1 = G1 ++ [(p, np)] /\ chain (mem s) base G1.*1 p) /\ chain (mem s) p F2.*1 base).
  { destruct F1 as [|[p' np] G1 _] using rev_ind; [injection Hp as <-; split; [by left|done]|].
    assert (p' = p) as ->.
    { rewrite length_app, Nat.add_1_r in Hp. change (circle ((G1 ++ [(p', np)]) ++ F2) !! S (length G1)) with (((G1 ++ [(p', np)]) ++ F2).*1 !! length G1) in Hp.
      rewrite <-app_assoc, list_lookup_fmap in Hp. cbn [app] in Hp. rewrite list_lookup_middle in Hp by done. by injection Hp. }
    rewrite !fmap_app in H2. cbn in H2. rewrite <-app_assoc in H2. cbn in H2. apply chain_app in H2 as [H2 H2']. split; [|done]. right. by exists G1, np. }
  destruct Hsp as [Hsp Hc2]. apply StronglySorted_app in H3 as (_ & Hs1 & Hs2). wp_step.
  eapply (wp_join_upper _ _ n _ F1 F2 A); [by rewrite app_assoc|done|done|done|]. intros m1 n' F2' [U1 U2 U3 U4 U5 U6 U7 U8]. wp_step.
  assert (Hns : forall x, x < heap_lo \/ Exists (inside x) (F1 ++ F2 ++ A) -> m1 x = mem s x).
  { intros x [Hx|Hx]; apply U6; [by eapply below_not|]. apply Exists_exists in Hx as (c & Hc & Hx). eapply inside_not; [exact H4| |exact Hx]. by rewrite <-app_assoc. }
  apply (wp_join_lower _ _ n' _ F1 F2' A); cbn [mem]; try done.
  - rewrite Hns by lia. done.
  - destruct Hsp as [Hsp|(G1 & np & -> & Hsp)]; [by left|right]. exists G1, np. split; [done|]. apply (hchain_ext (mem s)); [|done]. intros x Hx. apply Hns.
    apply elem_of_cons in Hx as [->|Hx]; [left; lia|right]. apply list_elem_of_fmap in Hx as (c & -> & Hx). apply Exists_exists. exists c. split; [set_solver|].
    rewrite Forall_forall in HFA. eapply header_inside. apply HFA. set_solver.
  - intros m2 F' [L1 L2 L3 L4 L5 L6 L7 L8 L9]. unfold put_freep. wp_step. apply (HQ _ F'). split; cbn [mem freep env fst].
    + split; try done. cbn. intros x. rewrite H6, L5, U5, <-app_assoc. done.
    + done.
    + intros x c Hc Hx. rewrite (L7 x c Hc Hx). apply Hns. right. apply Exists_exists. exists c. split; [set_solver|done].
    + destruct L8 as (c & Hc & Hc1 & Hc2'). exists c. unfold b_end in *. cbn in *. split_and!; [done|done|lia].
    + rewrite length_app. lia.
Qed.

(** ** [morecore] *)

(** Memory that [sbrk] has just given is a block in use. *)
Lemma heap_grant s F A e r nu (m' := update (mem s) (r + 4) nu) : heap s F A -> 1 <= nu -> heap_lo <= r -> r mod 8 = 0 -> r + nu * 8 <= 2147483648 ->
  (forall x, granted e x <-> granted (env s) x \/ r <= x < r + nu * 8) -> (forall x, r <= x < r + nu * 8 -> ~ granted (env s) x) ->
  heap (mk_ustate m' (freep s) e) F ((r, nu) :: A).
Proof.
  intros [H1 H2 H3 H4 H5 H6] Hn Hr Hr8 Hmax Hg Hf.
  assert (Hap : Forall (fun c => block_ok (mem s) c /\ apart (r, nu) c) (F ++ A)).
  { destruct H4 as [H4 _]. rewrite Forall_forall in *. intros c Hc. pose proof (H4 c Hc) as Hb. split; [done|]. destruct Hb as [B1 B2 B3 B4 B5].
    unfold apart, b_end. cbn. destruct (decide (r + 8 * nu <= fst c)); [by left|]. destruct (decide (fst c + 8 * snd c <= r)); [by right|]. exfalso.
    apply (Hf (Z.max (fst c) r)); [lia|]. apply H6, Exists_exists. exists c. split; [done|]. unfold inside, b_end. lia. }
  assert (Hne : forall c, c ∈ F ++ A -> fst c + 4 <> r + 4).
  { intros c Hc. rewrite Forall_forall in Hap. destruct (Hap c Hc) as [[B1 B2 B3 B4 B5] Ha]. unfold apart, b_end in Ha. cbn in Ha. lia. }
  split; cbn [mem freep env]; unfold m'.
  - rewrite update_ne by lia. done.
  - apply chain_size; [zlia|lia| |done]. eapply aligned. apply Forall_app in Hap as [Hap _]. eapply Forall_impl; [exact Hap|]. by intros c [? _].
  - done.
  - assert (F ++ (r, nu) :: A ≡ₚ (r, nu) :: F ++ A) as -> by solve_Permutation. destruct H4 as [H4 H4']. split; [constructor|split; [|done]].
    + split; unfold b_end; cbn; [apply update_eq|done|done|done|lia].
    + rewrite Forall_forall in *. intros c Hc. destruct (H4 c Hc) as [B1 B2 B3 B4 B5]. split; try done. rewrite update_ne; [done|by apply Hne].
    + eapply Forall_impl; [exact Hap|]. by intros c [_ ?].
  - done.
  - intros x. assert (F ++ (r, nu) :: A ≡ₚ (r, nu) :: F ++ A) as -> by solve_Permutation. rewrite Hg, H6, Exists_cons. unfold inside at 2, b_end. cbn. replace (8 * nu) with (nu * 8) by lia. tauto.
Qed.

(** More memory, with a free block of [nu] units at least; or none, and nothing has changed. *)
Lemma wp_morecore s F A nu fuel (Q : Z -> ustate E -> Prop) : heap s F A -> 1 <= nu -> nu * 8 < 2147483648 -> (2 * length F + 1 < fuel)%nat ->
  (forall e, heap (mk_ustate (mem s) (freep s) e) F A -> Q 0 (mk_ustate (mem s) (freep s) e)) ->
  (forall s' F' c, heap s' F' A -> c ∈ F' -> nu <= snd c -> (forall x d, d ∈ A -> inside x d -> mem s' x = mem s x) -> (length F' <= S (length F))%nat -> Q (freep s') s') ->
  wp (morecore fuel nu) Q s.
Proof.
  intros Hh Hn Hmax Hf HQ0 HQ. unfold morecore. set (nu' := if nu <? 4096 then 4096 else nu). assert (Hnu : nu <= nu' /\ 1 <= nu' /\ nu' * 8 < 2147483648) by (unfold nu'; zcase; lia).
  unfold HDR. rewrite u32_small, i32_small by (unfold W32; lia). wp_step. wp_step. eapply wp_mono; [apply sbrk_ok; [lia|zlia]|].
  intros r e [[-> Hg]|(Hr & Hr8 & Hrm & Hg & Hfresh)].
  - rewrite Z.eqb_refl. wp_step. apply HQ0. destruct Hh as [H1 H2 H3 H4 H5 H6]. split; try done. cbn. intros x. by rewrite Hg.
  - rewrite (proj2 (Z.eqb_neq r _)) by lia. ustep. pose proof (heap_grant s F A e r nu' Hh ltac:(lia) Hr Hr8 Hrm Hg Hfresh) as Hh'.
    apply (wp_free _ (r, nu') F A); [done|done|]. intros s' F' [S1 S2 S3 (c & Hc & Hc1 & Hc2) S5]. wp_step. eapply (HQ s' F' c); [done|done| | |done].
    + unfold b_end in Hc2. cbn in *. lia.
    + intros x d Hd Hx. rewrite (S3 x d Hd Hx). cbn. apply update_ne. intros ->. destruct Hh as [_ _ _ H4 _ H6].
      apply (Hfresh (r + 4)); [lia|]. apply H6, Exists_exists. exists d. split; [set_solver|done].
Qed.

(** ** [malloc] *)

(** A block of [nunits] in use more, and the contents of the others as before. *)
Record allocated (s s' : ustate E) (A : list block) (nunits r : Z) : Prop := mk_allocated {
  al_heap : exists F', heap s' F' ((r - HDR, nunits) :: A);
  al_same x c : c ∈ A -> inside x c -> mem s' x = mem s x
}.

Lemma circle_nodup m F : StronglySorted before F -> Forall (block_ok m) F -> NoDup (circle F).
Proof.
  intros Hs Hb. apply NoDup_alt. intros i j x Hi Hj. destruct (lt_eq_lt_dec i j) as [[H|H]|H]; [|done|].
  - pose proof (circle_lt m F i j x x Hs Hb Hi Hj H). lia.
  - pose proof (circle_lt m F j i x x Hs Hb Hj Hi H). lia.
Qed.
(** Headers of the list are not in blocks in use. *)
Lemma circle_out m F A p c x : blocks m (F ++ A) -> p ∈ circle F -> c ∈ A -> inside x c -> x <> p /\ x <> p + 4.
Proof.
  intros Hb Hp Hc Hx. apply elem_of_cons in Hp as [->|Hp].
  - destruct Hb as [Hb _]. rewrite Forall_forall in Hb. pose proof (bo_lo _ _ (Hb c ltac:(set_solver))). unfold inside in Hx. lia.
  - apply list_elem_of_fmap in Hp as (d & -> & Hd). apply list_elem_of_split in Hd as (F1 & F2 & ->).
    assert ((F1 ++ d :: F2) ++ A ≡ₚ d :: F1 ++ F2 ++ A) as Hperm by solve_Permutation. rewrite Hperm in Hb.
    pose proof (inside_not _ _ _ c x Hb ltac:(set_solver) Hx) as Hn. pose proof (header_inside _ _ (Forall_inv (proj1 Hb))) as [I1 I2].
    split; by intros ->.
Qed.

Lemma wp_take_block s F A k prevp p n nunits (Q : Z -> ustate E -> Prop) : heap s F A -> circle F !! k = Some prevp -> F !! k = Some (p, n) ->
  1 <= nunits <= n -> (forall r s', allocated s s' A nunits r -> Q r s') -> wp (take_block nunits prevp p n) Q s.
Proof.
  intros Hh Hk Hp Hn HQ. unfold take_block. pose proof Hh as [H1 H2 H3 H4 H5 H6].
  assert (Hout : forall x c, c ∈ A -> inside x c -> x <> prevp /\ x <> prevp + 4) by (intros x c; eapply circle_out; [done|by eapply list_elem_of_lookup_2]).
  assert (Hnd : NoDup (circle F)) by (eapply circle_nodup; [done|exact (proj1 (proj1 (Forall_app _ _ _) (proj1 H4)))]).
  assert (HF : F = take k F ++ (p, n) :: drop (S k) F) by (by rewrite take_drop_middle).
  assert (Hlen : k = length (take k F)) by (rewrite length_take; apply lookup_lt_Some in Hp; lia). set (F1 := take k F) in *. set (F2 := drop (S k) F) in *.
  clearbody F1 F2. subst k F. clear Hp. unfold circle in Hk, Hnd. rewrite fmap_app in Hk, Hnd, H2. cbn in Hk, Hnd, H2.
  replace (length F1) with (length F1.*1) in Hk by apply length_fmap. rewrite last_of_lookup in Hk. injection Hk as <-. set (prevp := last_of base F1.*1) in *.
  assert (Hperm : (F1 ++ (p, n) :: F2) ++ A ≡ₚ (p, n) :: F1 ++ F2 ++ A) by solve_Permutation.
  rewrite Hperm in H4. setoid_rewrite Hperm in H6. pose proof (proj1 (Forall_cons _ _ _) (proj1 H4)) as [Hb HFA]. pose proof Hb as [B1 B2 B3 B4 B5]. unfold b_end in B5. cbn in B1, B2, B3, B4, B5.
  apply chain_app in H2 as [H2 H2']. apply StronglySorted_app in H3 as (H3 & Hs1 & Hs2). apply StronglySorted_inv in Hs2 as [Hs2 Hs2'].
  assert (Hpe : prevp ∈ base :: F1.*1) by apply last_of_elem.
  destruct (Z.eqb_spec n nunits) as [->|Hne].
  - ustep. apply HQ. split; [|intros x c Hc Hx; cbn [mem]; apply update_ne, (Hout x c Hc Hx)]. exists (F1 ++ F2).
    replace (p + HDR - HDR) with p by lia. assert (Hperm' : (F1 ++ F2) ++ (p, nunits) :: A ≡ₚ (p, nunits) :: F1 ++ F2 ++ A) by solve_Permutation.
    assert (Hnd' : base :: F1.*1 ++ p :: F2.*1 ≡ₚ p :: base :: F1.*1 ++ F2.*1) by solve_Permutation. rewrite Hnd' in Hnd. apply NoDup_cons in Hnd as [_ Hnd].
    assert (Hpm : prevp mod 8 = 0).
    { apply elem_of_cons in Hpe as [->|Hpe]; [lia|]. apply list_elem_of_fmap in Hpe as (c & -> & Hc). rewrite Forall_forall in HFA. apply (HFA c). set_solver. }
    split; cbn [mem freep env].
    + rewrite update_ne by zlia. done.
    + rewrite fmap_app. by apply chain_unlink.
    + apply StronglySorted_app_2; [|done|done]. intros c d Hc Hd. apply H3; set_solver.
    + rewrite Hperm'. by apply blocks_ptr.
    + unfold circle. rewrite fmap_app. set_solver.
    + intros x. by rewrite H6, Hperm'.
  - ustep. rewrite !(u32_small (n - nunits)), u32_small by (unfold W32, HDR; lia). unfold HDR. set (a := p + (n - nunits) * 8) in *. apply HQ.
    assert (Ha : a = p + 8 * (n - nunits)) by (unfold a; lia). clearbody a. subst a.
    split; [exists (F1 ++ (p, n - nunits) :: F2); replace (_ - HDR) with (p + 8 * (n - nunits)) by (unfold HDR; lia)|].
    + assert (Hperm' : (F1 ++ (p, n - nunits) :: F2) ++ (p + 8 * (n - nunits), nunits) :: A ≡ₚ (p + 8 * (n - nunits), nunits) :: (p, n - nunits) :: F1 ++ F2 ++ A) by solve_Permutation.
      assert (Hal : Forall (fun z => z mod 8 = 0) (F1.*1 ++ p :: F2.*1)).
      { apply Forall_app; split; [|constructor; [done|]]; eapply aligned, Forall_forall; intros c Hc; rewrite Forall_forall in HFA; apply HFA; set_solver. }
      split; cbn [mem freep env].
      * rewrite !update_ne by zlia. done.
      * rewrite fmap_app. cbn. do 2 (apply chain_size; [zlia|lia|done|]). by apply chain_app.
      * eapply (sorted_mid (update (mem s) (p + 4) (n - nunits))); [|done|done| |].
        -- split; unfold b_end; cbn; [apply update_eq|lia|done|done|lia].
        -- apply Forall_forall. intros c Hc. specialize (H3 c (p, n) Hc ltac:(set_solver)). unfold before in *. done.
        -- eapply Forall_impl; [exact Hs2'|]. intros c. unfold before, b_end. cbn. lia.
      * rewrite Hperm'. apply blocks_split; [lia|done].
      * unfold circle. rewrite fmap_app. set_solver.
      * intros x. rewrite H6, Hperm', !Exists_cons. replace n with ((n - nunits) + nunits) at 1 by lia. rewrite inside_join by lia. tauto.
    + intros x c Hc Hx. cbn [mem]. pose proof (inside_not _ _ _ c x H4 ltac:(set_solver) Hx) as Hni. unfold inside, b_end in Hni. cbn in Hni. rewrite !update_ne by lia. done.
Qed.

(** Steps along the circle of [len] headers from position [a] to position [b]. *)
Definition dist (len a b : nat) : nat := if Nat.leb a b then b - a else len - a + b.
Definition succ (len a : nat) : nat := if Nat.ltb (S a) len then S a else 0.
Lemma dist_succ len a b : (a < len)%nat -> (b < len)%nat -> a <> b -> dist len a b = S (dist len (succ len a) b).
Proof.
  intros Ha Hb Hn. unfold dist, succ. destruct (Nat.leb_spec a b), (Nat.ltb_spec (S a) len); destruct (Nat.leb_spec (S a) b); cbn; lia.
Qed.
Lemma succ_lt len a : (a < len)%nat -> (succ len a < len)%nat.
Proof. intros Ha. unfold succ. destruct (Nat.ltb_spec (S a) len); lia. Qed.
Lemma circle_succ m F k x : chain m base F.*1 base -> circle F !! k = Some x -> circle F !! succ (length (circle F)) k = Some (m x).
Proof.
  intros Hc Hk. rewrite (circle_next m F k x Hc Hk). unfold succ. destruct (Nat.ltb_spec (S k) (length (circle F))) as [Hl|Hl].
  - destruct (lookup_lt_is_Some_2 _ _ Hl) as [y Hy]. by rewrite Hy.
  - by rewrite (lookup_ge_None_2 (circle F) (S k)).
Qed.

(** The sizes along the circle; the header [base] has size 0. *)
Definition sizes (F : list block) : list Z := 0 :: F.*2.
Lemma circle_size s F A k x : heap s F A -> circle F !! k = Some x -> sizes F !! k = Some (mem s (x + 4)).
Proof.
  intros [H1 H2 H3 H4 H5 H6] Hk. destruct k as [|k]; [injection Hk as <-; cbn; by rewrite H1|].
  change (F.*1 !! k = Some x) in Hk. change (F.*2 !! k = Some (mem s (x + 4))). apply list_lookup_fmap_Some in Hk as (b & -> & Hb).
  rewrite list_lookup_fmap, Hb. cbn. f_equal. symmetry. apply bo_size. destruct H4 as [H4 _]. apply Forall_app in H4 as [H4 _]. exact (Forall_lookup_1 _ _ _ _ H4 Hb).
Qed.

(** A header with enough units follows [prevp]. *)
Lemma wp_take_fit s F A k prevp n nunits (Q : Z -> ustate E -> Prop) : heap s F A -> circle F !! k = Some prevp -> 1 <= nunits ->
  sizes F !! succ (length (circle F)) k = Some n -> nunits <= n -> (forall r s', allocated s s' A nunits r -> Q r s') ->
  wp (take_block nunits prevp (mem s prevp) n) Q s.
Proof.
  intros Hh Hk Hn Hz Hle HQ. pose proof (circle_succ _ _ _ _ (hp_chain _ _ _ Hh) Hk) as Hc. unfold succ in *. destruct (Nat.ltb _ _); [|injection Hz as <-; lia].
  eapply (wp_take_block s F A k); [done|done| |lia|done]. change (F.*1 !! k = Some (mem s prevp)) in Hc. change (F.*2 !! k = Some n) in Hz.
  rewrite list_lookup_fmap in Hc, Hz. destruct (F !! k) as [[p n']|]; [|done]. cbn in *. congruence.
Qed.

(** The scan when a block that fits comes no later than the header [freep]. *)
Lemma wp_malloc_scan s F A nunits t n (Q : Z -> ustate E -> Prop) (len := length (circle F)) : heap s F A -> 1 <= nunits -> sizes F !! t = Some n -> nunits <= n ->
  (forall r s', allocated s s' A nunits r -> Q r s') -> forall j, circle F !! j = Some (freep s) -> forall fuel k prevp, circle F !! k = Some prevp ->
  (dist len (succ len k) t <= dist len (succ len k) j)%nat -> (dist len (succ len k) t < fuel)%nat -> wp (malloc_loop fuel nunits prevp (mem s prevp)) Q s.
Proof.
  intros Hh Hn Ht Hfit HQ j Hj. induction fuel as [|fuel IH]; intros k prevp Hk Hd Hf; [lia|]. cbn [malloc_loop]. ustep.
  pose proof (circle_succ _ _ _ _ (hp_chain _ _ _ Hh) Hk) as Hc. fold len in Hc. set (k' := succ len k) in *. pose proof (circle_size _ _ _ _ _ Hh Hc) as Hz.
  destruct (Z.leb_spec nunits (mem s (mem s prevp + 4))) as [Hle|Hgt]; [by eapply wp_take_fit|]. ustep.
  assert (Hlt : length (sizes F) = len) by (unfold len; cbn; by rewrite !length_fmap).
  pose proof (lookup_lt_Some _ _ _ Hc) as L1. fold len in L1. pose proof (lookup_lt_Some _ _ _ Ht) as L2. rewrite Hlt in L2. pose proof (lookup_lt_Some _ _ _ Hj) as L3. fold len in L3.
  assert (Hkt : k' <> t) by (intros E'; rewrite E' in Hz; rewrite Ht in Hz; injection Hz as Hz; lia).
  rewrite (proj2 (Z.eqb_neq _ _)).
  - ustep. apply (IH k'); [done| |]; pose proof (dist_succ len k' t L1 L2 Hkt); [|lia].
    destruct (decide (k' = j)) as [->|Hkj]; [|pose proof (dist_succ len k' j L1 L3 Hkj); lia].
    unfold dist in Hd at 2. rewrite (proj2 (Nat.leb_le j j)) in Hd by lia. lia.
  - intros E'. rewrite E' in Hc. assert (k' = j) as ->.
    { eapply NoDup_lookup; [eapply circle_nodup; [apply Hh|exact (proj1 (proj1 (Forall_app _ _ _) (proj1 (hp_blocks _ _ _ Hh))))]|exact Hc|exact Hj]. }
    pose proof (dist_succ len j t L1 L2 Hkt). unfold dist in Hd at 2. rewrite (proj2 (Nat.leb_le j j)) in Hd by lia. lia.
Qed.

Lemma dist_self len j t : (j < len)%nat -> (t < len)%nat -> (dist len (succ len j) t <= dist len (succ len j) j)%nat /\ (dist len (succ len j) t < len)%nat.
Proof. intros Hj Ht. unfold dist, succ. destruct (Nat.ltb_spec (S j) len);
  repeat match goal with |- context [Nat.leb ?a ?b] => destruct (Nat.leb_spec a b) end; lia. Qed.

Lemma freep_nonzero s F A : heap s F A -> freep s <> 0.
Proof.
  intros Hh. pose proof (hp_freep _ _ _ Hh) as Hin. apply elem_of_cons in Hin as [->|Hin]; [lia|]. apply list_elem_of_fmap in Hin as (d & -> & Hd).
  destruct (hp_blocks _ _ _ Hh) as [Hb _]. rewrite Forall_forall in Hb. pose proof (bo_lo _ _ (Hb d ltac:(set_solver))). lia.
Qed.

(** The outcome of [malloc]: no memory, or a new block. *)
Definition outcome (s s' : ustate E) (A : list block) (nunits r : Z) : Prop :=
  (r = 0 /\ mem s' = mem s /\ exists F', heap s' F' A) \/ (r <> 0 /\ allocated s s' A nunits r).

Lemma allocated_nonzero s s' A nunits r : allocated s s' A nunits r -> r <> 0.
Proof. intros [(F' & [_ _ _ [H _] _ _]) _]. rewrite Forall_forall in H. destruct (H (r - HDR, nunits) ltac:(set_solver)) as [B1 B2 B3 B4 B5]. unfold HDR in *. cbn in *. lia. Qed.

Lemma wp_malloc_loop s F A nunits (Q : Z -> ustate E -> Prop) (len := length (circle F)) : heap s F A -> 1 <= nunits -> nunits * 8 < 2147483648 ->
  (forall r s', outcome s s' A nunits r -> Q r s') -> forall j, circle F !! j = Some (freep s) -> forall fuel k prevp, circle F !! k = Some prevp ->
  (dist len (succ len k) j + 2 * length F + 2 < fuel)%nat -> wp (malloc_loop fuel nunits prevp (mem s prevp)) Q s.
Proof.
  intros Hh Hn Hmax HQ j Hj. induction fuel as [|fuel IH]; intros k prevp Hk Hf; [lia|]. cbn [malloc_loop]. ustep.
  pose proof (circle_succ _ _ _ _ (hp_chain _ _ _ Hh) Hk) as Hc. fold len in Hc. set (k' := succ len k) in *. pose proof (circle_size _ _ _ _ _ Hh Hc) as Hz.
  destruct (Z.leb_spec nunits (mem s (mem s prevp + 4))) as [Hle|Hgt].
  { eapply wp_take_fit; try done. intros r s' Ha. apply HQ. right. split; [by eapply allocated_nonzero|done]. }
  ustep. pose proof (lookup_lt_Some _ _ _ Hc) as L1. fold len in L1. pose proof (lookup_lt_Some _ _ _ Hj) as L3. fold len in L3.
  destruct (Z.eqb_spec (mem s prevp) (freep s)) as [He|Hne].
  - wp_step. apply (wp_morecore s F A); [done|done|done|lia| |].
    + intros e He'. rewrite Z.eqb_refl. wp_step. apply HQ. left. split_and!; [done|done|by exists F].
    + intros s' F' [c n] Hh' Hc' Hfit Hsame Hlen. cbn in Hfit. pose proof (hp_freep _ _ _ Hh') as Hfp. apply list_elem_of_lookup_1 in Hfp as [j' Hj'].
      rewrite (proj2 (Z.eqb_neq _ _)) by (by eapply freep_nonzero). ustep. apply list_elem_of_lookup_1 in Hc' as [i Hi].
      assert (Ht : sizes F' !! S i = Some n) by (change (F'.*2 !! i = Some n); by rewrite list_lookup_fmap, Hi).
      assert (Hl' : length (circle F') = S (length F')) by (cbn; by rewrite length_fmap).
      destruct (dist_self (length (circle F')) j' (S i)) as [D1 D2]; [by eapply lookup_lt_Some|rewrite Hl'; apply lookup_lt_Some in Hi; lia|].
      eapply (wp_malloc_scan s' F' A nunits (S i) n); [done|done|done|done| |exact Hj'|exact Hj'|done|lia].
      intros r s'' Ha. apply HQ. right. split; [by eapply allocated_nonzero|]. destruct Ha as [Ha1 Ha2]. split; [done|]. intros x d Hd Hx. rewrite (Ha2 x d Hd Hx). by eapply Hsame.
  - ustep. apply (IH k'); [done|]. destruct (decide (k' = j)) as [E'|Hkj]; [rewrite E' in Hc; rewrite Hj in Hc; congruence|].
    pose proof (dist_succ len k' j L1 L3 Hkj). lia.
Qed.

(** Before the first call of [malloc] there is no list. *)
Definition uheap (s : ustate E) (F A : list block) : Prop :=
  heap s F A \/ (freep s = 0 /\ F = [] /\ A = [] /\ forall x, ~ granted (env s) x).

Lemma wp_malloc s F A nbytes fuel (Q : Z -> ustate E -> Prop) (nunits := nunits_of nbytes) : uheap s F A -> 1 <= nunits -> nunits * 8 < 2147483648 -> (3 * length F + 3 < fuel)%nat ->
  (forall r s', (exists s0, (forall x c, c ∈ A -> inside x c -> mem s0 x = mem s x) /\ outcome s0 s' A nunits r) -> Q r s') -> wp (malloc base fuel nbytes) Q s.
Proof.
  intros Hu Hn Hmax Hf HQ. unfold malloc. fold nunits. wp_step. wp_step.
  assert (Hgo : forall s0, heap s0 F A -> (forall x c, c ∈ A -> inside x c -> mem s0 x = mem s x) -> wp (let! prevp := gets freep in let! p := get_ptr prevp in malloc_loop fuel nunits prevp p) Q s0).
  { intros s0 H0 Hsame. ustep. pose proof (hp_freep _ _ _ H0) as Hfp. apply list_elem_of_lookup_1 in Hfp as [j Hj].
    assert (Hl : length (circle F) = S (length F)) by (cbn; by rewrite length_fmap).
    eapply (wp_malloc_loop s0 F A); [done|done|done| |exact Hj|exact Hj|]; [intros r s' Ho; apply HQ; by exists s0|].
    destruct (dist_self (length (circle F)) j j) as [_ D2]; [by eapply lookup_lt_Some..|]. rewrite Hl in *. lia. }
  destruct Hu as [Hh|(Hz & -> & -> & Hg)].
  - rewrite (proj2 (Z.eqb_neq _ _)) by (by eapply freep_nonzero). wp_step. wp_step. by apply Hgo.
  - rewrite Hz. cbn [Z.eqb]. unfold put_freep, put_ptr, put_size, put_word. wp_step. wp_step. wp_step. wp_step. wp_step. wp_step. apply Hgo; [|set_solver].
    split; cbn [mem freep env]; [apply update_eq|cbn; rewrite update_ne by lia; apply update_eq|constructor|by split|unfold circle; set_solver|].
    intros x. split; [by intros ?%Hg|by intros ?%Exists_nil].
Qed.

Lemma nunits_ok nbytes : 0 <= nbytes < 2147483632 -> let n := nunits_of nbytes in 1 <= n /\ n * 8 < 2147483648 /\ nbytes <= 8 * n - 8.
Proof. intros Hn. unfold nunits_of, HDR. rewrite u32_small by (unfold W32; lia). cbn. zlia. Qed.

(** A program stores a word in a block it has been given. *)
Lemma heap_store s F A b x v : heap s F A -> b ∈ A -> fst b + 8 <= x < b_end b -> heap (mk_ustate (update (mem s) x v) (freep s) (env s)) F A.
Proof.
  intros [H1 H2 H3 H4 H5 H6] Hb Hx. pose proof H4 as [H4' H4'']. rewrite Forall_forall in H4'. pose proof (H4' b ltac:(set_solver)) as [B1 B2 B3 B4 B5].
  assert (Hne : forall c, c ∈ F ++ A -> x <> fst c /\ x <> fst c + 4).
  { intros c Hc. destruct (decide (c = b)) as [->|Hcb]; [lia|]. apply list_elem_of_split in Hc as (L1 & L2 & E').
    assert (Hin : b ∈ L1 ++ L2) by (assert (b ∈ F ++ A) as Hin by set_solver; rewrite E' in Hin; set_solver).
    assert (Hp : F ++ A ≡ₚ c :: L1 ++ L2) by (rewrite E'; solve_Permutation). rewrite Hp in H4.
    pose proof (inside_not _ _ _ b x H4 Hin ltac:(unfold inside; lia)) as Hn. destruct (header_inside _ _ (Forall_inv (proj1 H4))) as [I1 I2]. split; by intros ->. }
  split; cbn [mem freep env]; try done.
  - rewrite update_ne by lia. done.
  - apply (hchain_ext (mem s)); [|done]. intros y Hy. apply update_ne. apply elem_of_cons in Hy as [->|Hy]; [lia|]. apply list_elem_of_fmap in Hy as (c & -> & Hy).
    destruct (Hne c ltac:(set_solver)). congruence.
  - split; [|done]. apply Forall_forall. intros c Hc. destruct (H4' c Hc) as [C1 C2 C3 C4 C5]. split; try done. rewrite update_ne; [done|]. destruct (Hne c Hc). congruence.
Qed.

End heap.

(** ** A process with its break *)

(** The break is [units] headers above 8192, and below one megabyte. *)
Record brk_env : Type := mk_brk { units : nat }.
Definition brk (e : brk_env) : Z := 8192 + 8 * Z.of_nat (units e).

#[global] Instance brk_op : SbrkOp brk_env := {|
  sbrk n e := if (8192 <=? brk e + n) && (brk e + n <=? 1048576) && (n mod 8 =? 0)
              then Ok (brk e) (mk_brk (Z.to_nat ((brk e + n - 8192) / 8))) else Ok 0xffffffff e
|}.
#[global, refine] Instance brk_sbrk : Sbrk brk_env 8192 := {| granted e x := 8192 <= x < brk e |}.
Proof.
  intros [u] n Hn Hn8. unfold wp, sbrk, brk_op, brk. cbn [units]. set (b := 8192 + 8 * Z.of_nat u) in *.
  destruct ((8192 <=? b + n) && (b + n <=? 1048576) && (n mod 8 =? 0)) eqn:E; [right|left; done].
  rewrite !andb_true_iff, !Z.leb_le in E. cbn [units]. assert (Hb : 8192 + 8 * Z.of_nat (Z.to_nat ((b + n - 8192) / 8)) = b + n) by (unfold b in *; zlia).
  rewrite Hb. unfold b in *. split_and!; [lia|zlia|lia|intros x; lia|intros x; lia].
Defined.

Definition demo_heap : ustate brk_env := mk_ustate (fun _ => 0) 0 (mk_brk 0).
Lemma demo_uheap : uheap 64 8192 demo_heap [] [].
Proof. right. split_and!; try done. intros x. unfold granted, brk_sbrk, brk. cbn. lia. Qed.


(** The rounding of the size wraps around: a request for nearly 4 GB is granted, with a block
    that has room for no byte at all: the pointer is the break of the process. *)
Theorem malloc_size_wraps :
  match malloc 64 10 0xffffffff demo_heap with
  | Ok p s => p = brk (env s) /\ p <> 0
  | _ => False
  end.
Proof. vm_compute. done. Qed.
