(* ===== verification/Mkfs.v ===== *)
(** * The image builder ([src/xv6/mkfs.c])

    [mkfs] writes a file-system image: zeroed sectors, the superblock, the inodes and blocks of
    the root directory and of the given files, and the free bitmap.  The image is a list of
    sectors.  An [assert] that fails and the [exit] after an error of the host end in [Panic].
    A file is its name in the argument list and its bytes, which [read] returns 512 at a time. *)

From S2P Require Import Prelude Block Layout Format Fs.

Definition NINODES : Z := 200.
Definition FSSIZE : Z := 1000.
Definition LOGSIZE : Z := 30.

Definition nbitmap : Z := FSSIZE / (512 * 8) + 1.
Definition ninodeblocks : Z := NINODES / IPB + 1.
Definition nlog : Z := LOGSIZE.
Definition nmeta : Z := 2 + nlog + ninodeblocks + nbitmap.
Definition nblocks : Z := FSSIZE - nmeta.

Record mkfs : Type := mk_mkfs {
  img : list block;
  sb : superblock;
  freeinode : Z;
  freeblock : Z
}.
#[local] Abbreviation MM := (M mkfs).

Definition zeroes : block := repeat 0 BSIZE.

(** A number in Intel byte order, read back by the host, which is an Intel machine. *)
Definition xshort (x : Z) : Z := get16 (bytes16 x) 0.
Definition xint (x : Z) : Z := get32 (bytes32 x) 0.

(** [lseek] and [write]: a write behind the end extends the file with zeroes. *)
Definition wsect (sec : Z) (buf : block) : MM unit := modify (fun s =>
  let n := Z.to_nat sec in
  let l := img s ++ replicate (S n - length (img s)) zeroes in
  mk_mkfs (<[n := buf]> l) (sb s) (freeinode s) (freeblock s)).
(** [read] behind the end fails. *)
Definition rsect (sec : Z) : MM block :=
  let! l := gets img in
  match l !! Z.to_nat sec with Some b => ret b | None => panic "read" end.

Definition winode (inum : Z) (ip : dinode) : MM unit :=
  let! b := gets sb in
  let bn := IBLOCK inum b in
  let! buf := rsect bn in
  wsect bn (put_dinode buf (di_off inum) ip).
Definition rinode (inum : Z) : MM dinode :=
  let! b := gets sb in
  let! buf := rsect (IBLOCK inum b) in
  ret (get_dinode buf (di_off inum)).

Definition mk_ialloc (type : Z) : MM Z :=
  let! inum := gets freeinode in
  modify (fun s => mk_mkfs (img s) (sb s) (u32 (inum + 1)) (freeblock s)) ;;;
  winode inum (mk_dinode (xshort type) 0 0 (xshort 1) (xint 0) (repeat 0 13)) ;;;
  ret inum.

(** [freeblock++] *)
Definition next_block : MM Z :=
  let! b := gets freeblock in
  modify (fun s => mk_mkfs (img s) (sb s) (freeinode s) (u32 (b + 1))) ;;;
  ret (xint b).

(** The block of the file that holds its block [fbn], and the inode afterwards. *)
Definition map_block (din : dinode) (fbn : Z) : MM (dinode * Z) :=
  if fbn <? Z.of_nat NDIRECT then
    let! din := (if xint (default 0 (di_addrs din !! Z.to_nat fbn)) =? 0
                 then let! b := next_block in ret (set_addr (Z.to_nat fbn) b din) else ret din) in
    ret (din, xint (default 0 (di_addrs din !! Z.to_nat fbn)))
  else
    let! din := (if xint (default 0 (di_addrs din !! NDIRECT)) =? 0
                 then let! b := next_block in ret (set_addr NDIRECT b din) else ret din) in
    let ind := xint (default 0 (di_addrs din !! NDIRECT)) in
    let off := (4 * Z.to_nat (fbn - Z.of_nat NDIRECT))%nat in
    let! indirect := rsect ind in
    let! indirect := (if get32 indirect off =? 0
                      then let! b := next_block in
                           let indirect := put32 indirect off b in
                           wsect ind indirect ;;; ret indirect
                      else ret indirect) in
    ret (din, xint (get32 indirect off)).

Fixpoint iappend_loop (fuel : nat) (din : dinode) (off : Z) (p : list Z) : MM (dinode * Z) :=
  match fuel with
  | O => fun _ => OutOfFuel
  | S k =>
      if Nat.eqb (length p) 0 then ret (din, off) else
      let fbn := off / 512 in
      if negb (fbn <? MAXFILE) then panic "assert" else
      let! r := map_block din fbn in
      let '(din, x) := r in
      let n1 := Z.min (Z.of_nat (length p)) ((fbn + 1) * 512 - off) in
      let! buf := rsect x in
      wsect x (list_inserts (Z.to_nat (off - fbn * 512)) (take (Z.to_nat n1) p) buf) ;;;
      iappend_loop k din (off + n1) (drop (Z.to_nat n1) p)
  end.
Definition iappend (inum : Z) (p : list Z) : MM unit :=
  let! din := rinode inum in
  let! r := iappend_loop (S (length p)) din (xint (di_size din)) p in
  let '(din, off) := r in
  winode inum (set_size (xint off) din).

(** The loop over the bits of the blocks in use. *)
Fixpoint mark (n : nat) (buf : block) : block :=
  match n with O => buf | S k => bit_set (mark k buf) (Z.of_nat k) end.
Definition mk_balloc (used : Z) : MM unit :=
  if negb (used <? 512 * 8) then panic "assert" else
  let! b := gets sb in
  wsect (sb_bmapstart b) (mark (Z.to_nat used) zeroes).

(** [memmove(buf, &sb, sizeof(sb))] *)
Definition encode_sb (b : superblock) (d : block) : block :=
  put_words d 0 [sb_size b; sb_nblocks b; sb_ninodes b; sb_nlog b; sb_logstart b; sb_inodestart b; sb_bmapstart b].

Fixpoint clear (n : nat) (i : Z) : MM unit :=
  match n with O => ret tt | S k => wsect i zeroes ;;; clear k (i + 1) end.

(** The reads of a file, 512 bytes at a time. *)
Fixpoint copy_in (fuel : nat) (inum : Z) (data : list Z) : MM unit :=
  match fuel with
  | O => fun _ => OutOfFuel
  | S k =>
      let cc := take 512 data in
      if Nat.eqb (length cc) 0 then ret tt else
      iappend inum cc ;;;
      copy_in k inum (drop 512 data)
  end.

Definition has_slash (name : list Z) : bool := existsb (fun c => c =? 47) name.
Definition skip_underscore (name : list Z) : list Z := match name with c :: n => if c =? 95 then n else name | [] => [] end.

Fixpoint add_files (rootino : Z) (files : list (list Z * list Z)) : MM unit :=
  match files with
  | [] => ret tt
  | (name, data) :: files =>
      if has_slash name then panic "assert" else
      let! inum := mk_ialloc T_FILE in
      iappend rootino (mk_dirent (skip_underscore name) (xshort inum)) ;;;
      copy_in (S (length data)) inum data ;;;
      add_files rootino files
  end.

Definition fix_root (rootino : Z) : MM unit :=
  let! din := rinode rootino in
  let off := xint (di_size din) in
  let off := u32 ((off / 512 + 1) * 512) in
  winode rootino (set_size (xint off) din).

Definition mkfs_sb : superblock :=
  mk_superblock (xint FSSIZE) (xint nblocks) (xint NINODES) (xint nlog) (xint 2) (xint (2 + nlog)) (xint (2 + nlog + ninodeblocks)).

Definition mkfs_main (files : list (list Z * list Z)) : MM unit :=
  modify (fun s => mk_mkfs (img s) mkfs_sb (freeinode s) nmeta) ;;;
  clear (Z.to_nat FSSIZE) 0 ;;;
  wsect 1 (encode_sb mkfs_sb zeroes) ;;;
  let! rootino := mk_ialloc T_DIR in
  if negb (rootino =? ROOTINO) then panic "assert" else
  iappend rootino (mk_dirent [46] (xshort rootino)) ;;;
  iappend rootino (mk_dirent [46; 46] (xshort rootino)) ;;;
  add_files rootino files ;;;
  fix_root rootino ;;;
  let! b := gets freeblock in
  mk_balloc b.

(** Before [main]: an empty file and the initial values of the variables. *)
Definition mkfs_start : mkfs := mk_mkfs [] (mk_superblock 0 0 0 0 0 0 0) 1 0.
