(* ===== verification/MkfsProps.v ===== *)
(** * The image that [mkfs] builds

    While [mkfs] runs the bitmap is still empty on the image.  The proofs look at the image
    with the bitmap that [mkfs] would write at that moment ([vv]): then its steps are those of
    the block map of a file, and the lemmas of the file system apply.  The image that results
    is a file system in the sense of the kernel's theorems, with the given files in it. *)

From S2P Require Import Prelude Spinlock Sleeplock Block Disk Layout Format Tx Fs FsBlocks FsInode FsRw FsCache FsDir FsPath Mkfs.

(** The superblock. *)
Definition SB : superblock := mk_superblock 1000 941 200 30 2 32 58.
Lemma mkfs_sb_SB : mkfs_sb = SB.
Proof. vm_compute. reflexivity. Qed.
Lemma SB_ok : sb_ok SB 1000.
Proof. by split; vm_compute. Qed.
Lemma dstart_SB : dstart SB = 59.
Proof. done. Qed.

Lemma xint_id x : 0 <= x < W32 -> xint x = x.
Proof. intros Hx. unfold xint, get32, byte_at, bytes32, W32, u8 in *. cbn. zlia. Qed.
Lemma xshort_id x : 0 <= x < 65536 -> xshort x = x.
Proof. intros Hx. unfold xshort, get16, byte_at, bytes16, u8. cbn. zlia. Qed.

(** ** The bitmap *)

Lemma length_mark n buf : length (mark n buf) = length buf.
Proof. induction n as [|n IH]; cbn; [done|]. unfold bit_set. by rewrite length_insert. Qed.
Lemma zeroes_ok : block_ok zeroes.
Proof. apply repeat_zero_ok. Qed.
Lemma mark_ok n : (n <= 4096)%nat -> block_ok (mark n zeroes).
Proof.
  induction n as [|n IH]; intros Hn; [apply zeroes_ok|]. apply block_ok_bit_set. apply IH. lia.
Qed.
Lemma byte_at_zeroes i : byte_at zeroes i = 0.
Proof.
  unfold byte_at. destruct (zeroes !! i) as [x|] eqn:Hx; [|done]. by apply list_elem_of_lookup_2, list_elem_of_In, repeat_spec in Hx.
Qed.
Lemma bit_mark n bj : (n <= 4096)%nat -> 0 <= bj < BPB -> bit (mark n zeroes) bj = (bj <? Z.of_nat n).
Proof.
  induction n as [|n IH]; intros Hn Hj.
  - unfold bit. cbn [mark]. rewrite byte_at_zeroes, Z.testbit_0_l. symmetry. apply Z.ltb_ge. lia.
  - cbn [mark]. rewrite bit_bit_set; [|unfold BPB in *; lia|by rewrite length_mark|done]. rewrite IH by lia.
    destruct (Z.eqb_spec bj (Z.of_nat n)), (Z.ltb_spec bj (Z.of_nat n)), (Z.ltb_spec bj (Z.of_nat (S n))); lia || done.
Qed.

(** ** The image *)

Definition view (s : mkfs) (x : Z) : block := default zeroes (img s !! Z.to_nat x).
Definition vv (s : mkfs) (x : Z) : block := if x =? 58 then mark (Z.to_nat (freeblock s)) zeroes else view s x.

Record on_image (s : mkfs) : Prop := mk_on_image {
  oi_sb : sb s = SB;
  oi_len : length (img s) = 1000%nat;
  oi_ok : Forall block_ok (img s);
  oi_fb : 59 <= freeblock s <= 1000;
  oi_zero x : freeblock s <= x < 1000 -> view s x = zeroes
}.

Lemma view_ok s x : Forall block_ok (img s) -> block_ok (view s x).
Proof.
  intros Hf. unfold view. destruct (img s !! _) as [b|] eqn:E; cbn; [|apply zeroes_ok]. by eapply Forall_lookup_1.
Qed.
Lemma vv_ok s x : on_image s -> block_ok (vv s x).
Proof. intros [H1 H2 H3 H4 H5]. unfold vv. destruct (x =? 58); [apply mark_ok; lia|by apply view_ok]. Qed.
Lemma vv_view s x : x <> 58 -> vv s x = view s x.
Proof. intros Hx. unfold vv. by rewrite (proj2 (Z.eqb_neq _ _) Hx). Qed.

Lemma used_vv s x : on_image s -> 0 <= x < 1000 -> used SB (vv s) x = (x <? freeblock s).
Proof.
  intros [H1 H2 H3 H4 H5] Hx. unfold used. assert (BBLOCK x SB = 58) as ->.
  { unfold BBLOCK, BPB. cbn. rewrite Z.div_small by lia. done. }
  unfold vv. cbn. rewrite bit_mark; [|lia|unfold BPB; zlia]. unfold BPB. rewrite Z.mod_small, Z2Nat.id by lia. done.
Qed.
Lemma meta_vv s : on_image s -> meta_used SB (vv s).
Proof.
  intros Hs x Hx. rewrite dstart_SB in Hx. rewrite used_vv by (done || lia). apply Z.ltb_lt. pose proof (oi_fb _ Hs). lia.
Qed.

Definition put_sector (sec : Z) (buf : block) (s : mkfs) : mkfs := mk_mkfs (<[Z.to_nat sec := buf]> (img s)) (sb s) (freeinode s) (freeblock s).

Lemma wp_rsect s sec (Q : block -> mkfs -> Prop) : on_image s -> 0 <= sec < 1000 -> Q (view s sec) s -> wp (rsect sec) Q s.
Proof.
  intros [H1 H2 H3 H4 H5] Hs HQ. unfold rsect. wp_steps. unfold view in HQ. destruct (lookup_lt_is_Some_2 (img s) (Z.to_nat sec)) as [b Hb]; [lia|].
  rewrite Hb in *. by wp_step.
Qed.
Lemma wp_wsect s sec buf (Q : unit -> mkfs -> Prop) : on_image s -> 0 <= sec < 1000 -> Q tt (put_sector sec buf s) -> wp (wsect sec buf) Q s.
Proof.
  intros [H1 H2 H3 H4 H5] Hs HQ. unfold wsect. wp_step. replace (S (Z.to_nat sec) - length (img s))%nat with 0%nat by lia. cbn [replicate]. rewrite app_nil_r. done.
Qed.
Lemma view_put s sec buf x : on_image s -> 0 < sec < 1000 -> view (put_sector sec buf s) x = if x =? sec then buf else view s x.
Proof.
  intros Hs Hsec. unfold view. cbn. destruct (Z.eqb_spec x sec) as [->|Hne].
  - rewrite list_lookup_insert_eq by (rewrite (oi_len _ Hs); lia). done.
  - rewrite list_lookup_insert_ne by lia. done.
Qed.
Lemma on_image_put s sec buf : on_image s -> 0 < sec < freeblock s -> block_ok buf -> on_image (put_sector sec buf s).
Proof.
  intros Hs Hsec Hb. pose proof Hs as [H1 H2 H3 H4 H5]. split; cbn; [done|by rewrite length_insert|by apply Forall_insert|done|].
  intros x Hx. rewrite view_put by (done || lia). rewrite (proj2 (Z.eqb_neq _ _)) by lia. by apply H5.
Qed.
Lemma vv_put s sec buf x : on_image s -> 0 < sec < 1000 -> sec <> 58 -> vv (put_sector sec buf s) x = disk_write (vv s) (sec, buf) x.
Proof.
  intros Hs Hsec Hne. unfold vv, disk_write. cbn. destruct (Z.eqb_spec x 58) as [->|Hx].
  - by rewrite (proj2 (Z.eqb_neq 58 sec)) by lia.
  - by rewrite view_put.
Qed.

(** ** A fresh block *)

Definition bump (s : mkfs) : mkfs := mk_mkfs (img s) (sb s) (freeinode s) (freeblock s + 1).
Lemma wp_next_block s (Q : Z -> mkfs -> Prop) : on_image s -> freeblock s < 1000 -> Q (freeblock s) (bump s) -> wp next_block Q s.
Proof.
  intros Hs Hf HQ. unfold next_block. pose proof (oi_fb _ Hs). wp_steps. rewrite xint_id, u32_small by (unfold W32; lia). done.
Qed.
Lemma on_image_bump s : on_image s -> freeblock s < 1000 -> on_image (bump s).
Proof. intros [H1 H2 H3 H4 H5] Hf. split; cbn; try done; [lia|]. intros x Hx. apply H5. lia. Qed.
Lemma allocated_bump s : on_image s -> freeblock s < 1000 -> allocated SB (vv s) (vv (bump s)) (freeblock s).
Proof.
  intros Hs Hf. pose proof Hs as [H1 H2 H3 H4 H5]. split.
  - rewrite dstart_SB. cbn. lia.
  - rewrite used_vv by (done || lia). apply Z.ltb_irrefl.
  - rewrite vv_view by lia. apply H5. lia.
  - intros x Hx. rewrite !used_vv by (done || by apply on_image_bump). cbn. zcase; lia || done.
  - intros x Hx Hr. rewrite dstart_SB in Hr. rewrite !vv_view by (cbn in Hr; lia). done.
Qed.

(** ** Views that agree *)

Section ext.
Context (b : superblock) (v w : Z -> block) (Hvw : forall x, w x = v x).
Lemma used_vext x : used b w x = used b v x.
Proof. unfold used. by rewrite Hvw. Qed.
Lemma faddr_vext d k : faddr w d k = faddr v d k.
Proof. unfold faddr. by rewrite Hvw. Qed.
Lemma fbyte_vext d k : fbyte w d k = fbyte v d k.
Proof. unfold fbyte. by rewrite faddr_vext, Hvw. Qed.
Lemma data_block_vext x : data_block b w x <-> data_block b v x.
Proof. unfold data_block. by rewrite used_vext. Qed.
Lemma inode_wf_vext d : inode_wf b v d -> inode_wf b w d.
Proof.
  intros [W1 W2 W3 W4 W5 W6 W7]. split; try done; intros *; rewrite ?faddr_vext, ?data_block_vext; auto.
Qed.
Lemma owned_vext d x : owned w d x <-> owned v d x.
Proof. unfold owned. by setoid_rewrite faddr_vext. Qed.
Lemma evolves_vext u d d' : evolves b u v d d' -> evolves b u w d d'.
Proof.
  intros [E1 E2 E3 E4 E5 E6 E7 E8 E9]. split; try done.
  - by apply inode_wf_vext.
  - intros x Hx. rewrite used_vext. by apply E3.
  - intros x. rewrite used_vext. apply E4.
  - intros x. rewrite Hvw. apply E5.
  - intros x. rewrite Hvw. apply E6.
  - intros x. rewrite owned_vext. apply E7.
  - intros bn. rewrite faddr_vext. apply E8.
Qed.
Lemma wrote_vext u d d' data off : wrote b u v d d' data off -> wrote b u w d d' data off.
Proof.
  intros [W1 W2 W3 W4 W5]. split; [by apply evolves_vext|..|done]; intros k; rewrite ?faddr_vext, ?fbyte_vext; auto.
Qed.
Lemma contents_vext d : contents w d = contents v d.
Proof. apply list_fmap_ext. intros i k _. apply fbyte_vext. Qed.
Lemma disk_inode_vext i : disk_inode b w i = disk_inode b v i.
Proof. unfold disk_inode. by rewrite Hvw. Qed.
End ext.

(** ** [map_block] *)

(** What it takes to have block [fbn] of a file. *)
Definition fresh_blocks (v : Z -> block) (di : dinode) (fbn : Z) : Z :=
  if faddr v di fbn =? 0 then 1 + (if (Z.of_nat NDIRECT <=? fbn) && (ind di =? 0) then 1 else 0) else 0.

Record mapped (s : mkfs) (din : dinode) (fbn : Z) (s' : mkfs) (din' : dinode) (x : Z) : Prop := mk_mapped {
  mp_image : on_image s';
  mp_fi : freeinode s' = freeinode s;
  mp_fb : freeblock s' = freeblock s + fresh_blocks (vv s) din fbn;
  mp_ev : evolves SB (vv s) (vv s') din din';
  mp_addr : faddr (vv s') din' fbn = x;
  mp_x : x <> 0;
  mp_other bm : 0 <= bm < MAXFILE -> bm <> fbn -> faddr (vv s') din' bm = faddr (vv s) din bm;
  mp_data bm : 0 <= bm < MAXFILE -> faddr (vv s) din bm <> 0 -> vv s' (faddr (vv s) din bm) = vv s (faddr (vv s) din bm);
  mp_hit : faddr (vv s) din fbn <> 0 -> din' = din;
  mp_ind : fbn < Z.of_nat NDIRECT -> ind din' = ind din;
  mp_zero : faddr (vv s) din fbn = 0 -> vv s' x = zeroes
}.

Lemma addr_range di k : dinode_ok di -> 0 <= default 0 (di_addrs di !! k) < W32.
Proof.
  intros Hd. destruct (di_addrs di !! k) as [a|] eqn:E; [|unfold W32; cbn; lia]. exact (Forall_lookup_1 _ _ _ _ (ok_addrs _ Hd) E).
Qed.

Lemma wp_map_direct s din fbn (Q : dinode * Z -> mkfs -> Prop) : on_image s -> inode_wf SB (vv s) din -> 0 <= fbn < 12 ->
  freeblock s + fresh_blocks (vv s) din fbn <= 1000 ->
  (forall s' din' x, mapped s din fbn s' din' x -> Q (din', x) s') -> wp (map_block din fbn) Q s.
Proof.
  intros Hs Hw Hfbn Hf HQ. unfold map_block. rewrite (proj2 (Z.ltb_lt fbn _)) by (unfold NDIRECT; lia).
  assert (Hfa : faddr (vv s) din fbn = default 0 (di_addrs din !! Z.to_nat fbn)) by (unfold faddr; by rewrite (proj2 (Z.ltb_lt fbn _)) by (unfold NDIRECT; lia)).
  rewrite (xint_id (default 0 (di_addrs din !! _))) by apply addr_range, Hw. rewrite <-Hfa. unfold fresh_blocks in *.
  destruct (Z.eqb_spec (faddr (vv s) din fbn) 0) as [Hz|Hz].
  - rewrite (proj2 (Z.leb_gt _ fbn)) in Hf by (unfold NDIRECT; lia). cbn [andb] in Hf. wp_step. wp_step. apply wp_next_block; [done|lia|]. wp_step. wp_step.
    pose proof (allocated_bump s Hs ltac:(lia)) as Ha. pose proof (oi_fb _ Hs).
    assert (Hset : default 0 (di_addrs (set_addr (Z.to_nat fbn) (freeblock s) din) !! Z.to_nat fbn) = freeblock s).
    { cbn. by rewrite list_lookup_insert_eq by (rewrite (ok_len _ (w_ok _ _ _ Hw)); unfold NDIRECT; lia). }
    rewrite Hset, xint_id by (unfold W32; lia).
    pose proof (faddr_direct _ _ SB_ok (vv s) (vv (bump s)) din (freeblock s) fbn Hw Ha ltac:(unfold NDIRECT; lia)) as Hfd.
    apply HQ. split.
    + apply on_image_bump; [done|lia].
    + done.
    + cbn. unfold fresh_blocks. rewrite Hz. cbn. rewrite (proj2 (Z.leb_gt _ fbn)) by (unfold NDIRECT; lia). done.
    + eapply grow_direct; [apply SB_ok|done|by apply meta_vv|done|unfold NDIRECT; lia|done].
    + rewrite Hfd by (unfold MAXFILE; lia). by rewrite Z.eqb_refl.
    + lia.
    + intros bm Hbm Hne. rewrite Hfd by done. by rewrite (proj2 (Z.eqb_neq _ _) Hne).
    + intros bm Hbm Hne. by apply (alloc_data _ _ SB_ok _ _ _ _ Ha), (w_addr _ _ _ Hw).
    + done.
    + intros _. apply ind_set_addr. unfold NDIRECT. lia.
    + intros _. apply Ha.
  - wp_step. wp_step. wp_step. rewrite (xint_id (default 0 (di_addrs din !! _))) by apply addr_range, Hw. rewrite <-Hfa. apply HQ. split; try done.
    + unfold fresh_blocks. rewrite (proj2 (Z.eqb_neq _ _) Hz). lia.
    + by apply evolves_refl; [|apply meta_vv].
Qed.

(** The indirect block. *)
Record has_ind (s : mkfs) (din : dinode) (s' : mkfs) (din' : dinode) : Prop := mk_has_ind {
  hi_image : on_image s';
  hi_fi : freeinode s' = freeinode s;
  hi_fb : freeblock s' = freeblock s + (if ind din =? 0 then 1 else 0);
  hi_ev : evolves SB (vv s) (vv s') din din';
  hi_ind : ind din' <> 0;
  hi_addr bm : faddr (vv s') din' bm = faddr (vv s) din bm;
  hi_data bm : 0 <= bm < MAXFILE -> faddr (vv s) din bm <> 0 -> vv s' (faddr (vv s) din bm) = vv s (faddr (vv s) din bm);
  hi_hit : ind din <> 0 -> din' = din
}.
Lemma wp_map_ind s din (Q : dinode -> mkfs -> Prop) : on_image s -> inode_wf SB (vv s) din -> freeblock s + (if ind din =? 0 then 1 else 0) <= 1000 ->
  (forall s' din', has_ind s din s' din' -> Q din' s') ->
  wp (if xint (default 0 (di_addrs din !! NDIRECT)) =? 0 then let! b := next_block in ret (set_addr NDIRECT b din) else ret din) Q s.
Proof.
  intros Hs Hw Hf HQ. rewrite xint_id by apply addr_range, Hw. fold (ind din). destruct (Z.eqb_spec (ind din) 0) as [Hz|Hz].
  - wp_step. apply wp_next_block; [done|lia|]. wp_step. pose proof (allocated_bump s Hs ltac:(lia)) as Ha. apply HQ. split.
    + apply on_image_bump; [done|lia].
    + done.
    + cbn. by rewrite Hz.
    + eapply grow_ind; [apply SB_ok|done|by apply meta_vv|done|done].
    + rewrite ind_set_ind by apply Hw. pose proof (oi_fb _ Hs). lia.
    + intros bm. by eapply (faddr_indirect _ _ SB_ok).
    + intros bm Hbm Hne. by apply (alloc_data _ _ SB_ok _ _ _ _ Ha), (w_addr _ _ _ Hw).
    + done.
  - wp_step. apply HQ. split; try done; [rewrite (proj2 (Z.eqb_neq _ _) Hz); lia|]. by apply evolves_refl; [|apply meta_vv].
Qed.

Lemma wp_map_indirect s din fbn (Q : dinode * Z -> mkfs -> Prop) : on_image s -> inode_wf SB (vv s) din -> 12 <= fbn < MAXFILE ->
  (faddr (vv s) din fbn <> 0 -> ind din <> 0) -> freeblock s + fresh_blocks (vv s) din fbn <= 1000 ->
  (forall s' din' x, mapped s din fbn s' din' x -> Q (din', x) s') -> wp (map_block din fbn) Q s.
Proof.
  intros Hs Hw Hfbn Hif Hf HQ. unfold map_block. rewrite (proj2 (Z.ltb_ge fbn _)) by (unfold NDIRECT; lia).
  assert (Hcost : fresh_blocks (vv s) din fbn = (if ind din =? 0 then 1 else 0) + (if faddr (vv s) din fbn =? 0 then 1 else 0)).
  { unfold fresh_blocks. rewrite (proj2 (Z.leb_le _ fbn)) by (unfold NDIRECT; lia). cbn [andb].
    destruct (Z.eqb_spec (faddr (vv s) din fbn) 0) as [E|E]; [destruct (ind din =? 0); lia|]. rewrite (proj2 (Z.eqb_neq _ _) (Hif E)). done. }
  rewrite Hcost in Hf. wp_step. apply wp_map_ind; [done|done|destruct (faddr (vv s) din fbn =? 0); lia|].
  intros s1 d1 [I1 I2 I3 I4 I5 I6 I7 I8]. pose proof (ev_wf _ _ _ _ _ I4) as Hw1.
  rewrite xint_id by apply addr_range, Hw1. fold (ind d1). set (off := (4 * Z.to_nat (fbn - Z.of_nat NDIRECT))%nat).
  pose proof (w_ind _ _ _ Hw1 I5) as [[Hi1 Hi2] Hi3]. rewrite dstart_SB in Hi1. cbn in Hi2. rewrite used_vv in Hi3 by (done || lia). apply Z.ltb_lt in Hi3.
  wp_step. apply wp_rsect; [done|lia|]. rewrite <-(vv_view s1) by lia.
  assert (Hfa : faddr (vv s1) d1 fbn = get32 (vv s1 (ind d1)) off).
  { unfold faddr. by rewrite (proj2 (Z.ltb_ge fbn _)), (proj2 (Z.eqb_neq _ _) I5) by (unfold NDIRECT; lia). }
  rewrite <-Hfa, I6. wp_step. destruct (Z.eqb_spec (faddr (vv s) din fbn) 0) as [Hz|Hz].
  - assert (Hlt : freeblock s1 < 1000) by lia. pose proof (oi_fb _ I1) as Hfb1. set (y := freeblock s1) in *.
    wp_step. apply wp_next_block; [done|done|]. pose proof (on_image_bump _ I1 Hlt) as Hb1. pose proof (allocated_bump s1 I1 Hlt) as Ha. fold y in Ha |- *.
    wp_step. apply wp_wsect; [done|lia|]. wp_step. wp_step. pose proof (vv_ok s1 (ind d1) I1) as Hok.
    rewrite get32_put32, xint_id; [|unfold W32; lia|rewrite (proj1 Hok); unfold off, NDIRECT, MAXFILE, BSIZE in *; lia|unfold W32; lia].
    destruct (grow_entry SB _ SB_ok (vv s1) (vv (bump s1)) d1 y Hw1 (meta_vv _ I1) Ha fbn ltac:(unfold NDIRECT; lia) I5 ltac:(by rewrite I6) Hok) as [Hev Hfn].
    fold off in Hev, Hfn. set (s2 := put_sector _ _ _).
    assert (Hvv : forall x, vv s2 x = disk_write (vv (bump s1)) (ind d1, put32 (vv s1 (ind d1)) off y) x) by (intros x; apply vv_put; [done|lia|lia]).
    assert (Hf2 : forall bm, 0 <= bm < MAXFILE -> faddr (vv s2) d1 bm = if bm =? fbn then y else faddr (vv s) din bm).
    { intros bm Hbm. rewrite (faddr_vext _ _ Hvv), Hfn by done. by rewrite I6. }
    apply HQ. split.
    + apply on_image_put; [done|cbn; fold y; lia|]. by apply block_ok_put32.
    + cbn. done.
    + rewrite Hcost. change (freeblock s2) with (y + 1). lia.
    + eapply evolves_trans; [apply SB_ok|exact I4|]. eapply evolves_vext; [exact Hvv|done].
    + rewrite Hf2, Z.eqb_refl by (unfold MAXFILE in *; lia). done.
    + lia.
    + intros bm Hbm Hne. rewrite Hf2 by done. by rewrite (proj2 (Z.eqb_neq _ _) Hne).
    + intros bm Hbm Hne. rewrite Hvv. unfold disk_write. cbn [fst snd]. rewrite <-(I6 bm) in Hne |- *.
      rewrite (proj2 (Z.eqb_neq _ _)) by (by apply (w_ind_ne _ _ _ Hw1)). destruct (alloc_data _ _ SB_ok _ _ _ _ Ha (w_addr _ _ _ Hw1 bm Hbm Hne)) as (_ & -> & _).
      rewrite (I6 bm) in *. by apply I7.
    + done.
    + unfold NDIRECT. lia.
    + intros _. rewrite Hvv. unfold disk_write. cbn [fst snd]. rewrite (proj2 (Z.eqb_neq _ _)) by lia. apply Ha.
  - wp_step. wp_step. rewrite <-Hfa, I6, xint_id.
    2:{ pose proof (data_range _ _ _ _ SB_ok (w_addr _ _ _ Hw fbn ltac:(unfold MAXFILE in *; lia) Hz)) as Hr. cbn in Hr. unfold W32. lia. }
    assert (d1 = din) as -> by (by apply I8, Hif). apply HQ. split; try done.
    + rewrite Hcost, I3. lia.
Qed.

Lemma wp_map_block s din fbn (Q : dinode * Z -> mkfs -> Prop) : on_image s -> inode_wf SB (vv s) din -> 0 <= fbn < MAXFILE ->
  freeblock s + fresh_blocks (vv s) din fbn <= 1000 ->
  (forall s' din' x, mapped s din fbn s' din' x -> Q (din', x) s') -> wp (map_block din fbn) Q s.
Proof.
  intros Hs Hw Hfbn Hf HQ. destruct (decide (fbn < 12)); [apply wp_map_direct; try done; lia|]. apply wp_map_indirect; try done; [lia|].
  unfold faddr. rewrite (proj2 (Z.ltb_ge fbn _)) by (unfold NDIRECT; lia). by destruct (Z.eqb_spec (ind din) 0).
Qed.

(** ** [iappend] *)

(** The number of blocks of a file of [n] bytes, with its indirect block. *)
Definition blocks_of (n : Z) : Z := (n + 511) / 512 + (if 6144 <? n then 1 else 0).

(** The file has exactly the blocks that its first [n] bytes need. *)
Record tight (v : Z -> block) (di : dinode) (n : Z) : Prop := mk_tight {
  ti_full bn : 0 <= bn -> bn * 512 < n -> faddr v di bn <> 0;
  ti_none bn : 0 <= bn < MAXFILE -> n <= bn * 512 -> faddr v di bn = 0;
  ti_ind : n <= 6144 -> ind di = 0
}.

Lemma tight_fresh v di off n1 : tight v di off -> 0 <= off < 71680 -> 0 < n1 <= 512 - off mod 512 ->
  fresh_blocks v di (off / 512) = blocks_of (off + n1) - blocks_of off.
Proof.
  intros [T1 T2 T3] Ho Hn. unfold fresh_blocks, blocks_of. pose proof (Z.div_mod off 512 ltac:(lia)) as Hdm. pose proof (Z.mod_pos_bound off 512 ltac:(lia)) as Hmb.
  assert (Hfb : 0 <= off / 512 < MAXFILE) by (apply blk_range; unfold MAXFILE; lia).
  destruct (decide (off mod 512 = 0)) as [Hz|Hz].
  - rewrite T2 by (done || lia). cbn [Z.eqb]. assert ((off + n1 + 511) / 512 = (off + 511) / 512 + 1) as -> by zlia.
    assert (Hi : (Z.of_nat NDIRECT <=? off / 512) && (ind di =? 0) = (off =? 6144)).
    { destruct (Z.eqb_spec off 6144) as [->|Hne]; [rewrite T3 by lia; done|]. apply andb_false_iff.
      destruct (Z.leb_spec (Z.of_nat NDIRECT) (off / 512)) as [Hle|Hgt]; [right|by left]. unfold NDIRECT in Hle. apply Z.eqb_neq. intros Hi.
      apply (T1 12); [lia|lia|]. unfold faddr, NDIRECT in *. rewrite Hi. done. }
    rewrite Hi. destruct (Z.eqb_spec off 6144), (Z.ltb_spec 6144 (off + n1)), (Z.ltb_spec 6144 off); lia.
  - assert (Hne : faddr v di (off / 512) <> 0) by (apply T1; lia). rewrite (proj2 (Z.eqb_neq _ _) Hne).
    assert ((off + n1 + 511) / 512 = (off + 511) / 512) as -> by zlia.
    destruct (Z.ltb_spec 6144 (off + n1)), (Z.ltb_spec 6144 off); zlia.
Qed.
Lemma blocks_of_mono a c : 0 <= a <= c -> blocks_of a <= blocks_of c.
Proof. intros H. unfold blocks_of. assert ((a + 511) / 512 <= (c + 511) / 512) by (apply Z.div_le_mono; lia). destruct (Z.ltb_spec 6144 a), (Z.ltb_spec 6144 c); lia. Qed.

(** The rest of the last block of a file is zero. *)
Definition slack (v : Z -> block) (di : dinode) (n : Z) : Prop := forall k, n <= k < 71680 -> faddr v di (k / 512) <> 0 -> fbyte v di k = 0.

Record appended (s : mkfs) (din : dinode) (off : Z) (p : list Z) (s' : mkfs) (din' : dinode) : Prop := mk_appended {
  ap_image : on_image s';
  ap_fi : freeinode s' = freeinode s;
  ap_fb : freeblock s' = freeblock s + blocks_of (off + Z.of_nat (length p)) - blocks_of off;
  ap_wrote : wrote SB (vv s) (vv s') din din' p off;
  ap_tight : tight (vv s') din' (off + Z.of_nat (length p));
  ap_slack : slack (vv s) din off -> slack (vv s') din' (off + Z.of_nat (length p))
}.

(** One block of the loop. *)
Lemma append_step s din off s1 d1 x p (s2 := put_sector x (list_inserts (Z.to_nat (off mod 512)) p (vv s1 x)) s1) :
  on_image s -> inode_wf SB (vv s) din -> tight (vv s) din off -> 0 <= off < 71680 -> (0 < length p)%nat -> Z.of_nat (length p) <= 512 - off mod 512 -> Forall (fun b => 0 <= b < 256) p ->
  mapped s din (off / 512) s1 d1 x -> appended s din off p s2 d1 /\ 0 <= x < 1000.
Proof.
  intros Hs Hw Ht Ho Hp Hlen Hbytes [M1 M2 M3 M4 M5 M6 M7 M8 M9 M10 M11]. pose proof (blk_range off ltac:(unfold MAXFILE; lia)) as Hfbn.
  pose proof (ev_wf _ _ _ _ _ M4) as Hw1. pose proof (Z.mod_pos_bound off 512 ltac:(lia)) as Hmb. pose proof (Z.div_mod off 512 ltac:(lia)) as Hdm.
  assert (Hdx : data_block SB (vv s1) x) by (rewrite <-M5 in *; by apply (w_addr _ _ _ Hw1)). destruct Hdx as [[Hx1 Hx2] Hx3]. rewrite dstart_SB in Hx1. cbn in Hx2.
  rewrite used_vv in Hx3 by (done || lia). apply Z.ltb_lt in Hx3. pose proof (vv_ok s1 x M1) as Hok.
  assert (Hvv : forall z, vv s2 z = disk_write (vv s1) (x, list_inserts (Z.to_nat (off mod 512)) p (vv s1 x)) z) by (intros z; apply vv_put; [done|lia|lia]).
  assert (Hf : forall bm, faddr (vv s2) d1 bm = faddr (vv s1) d1 bm).
  { intros bm. unfold faddr. destruct (bm <? _); [done|]. destruct (Z.eqb_spec (ind d1) 0) as [|Hi]; [done|]. rewrite Hvv. unfold disk_write. cbn [fst snd].
    rewrite (proj2 (Z.eqb_neq (ind d1) x)); [done|]. intros E. apply (w_ind_ne _ _ _ Hw1 _ Hfbn Hi). congruence. }
  assert (Htight : tight (vv s2) d1 (off + Z.of_nat (length p))).
  { destruct Ht as [T1 T2 T3]. split.
    - intros bn Hbn Hlt. rewrite Hf. destruct (decide (bn = off / 512)) as [->|Hne]; [by rewrite M5|].
      assert (Hle : bn <= off / 512) by lia. rewrite M7; [apply T1; lia|lia|done].
    - intros bn Hbn Hle. rewrite Hf, M7; [apply T2; [done|lia]|done|lia].
    - intros Hle. rewrite M10 by (unfold NDIRECT; lia). apply T3. lia. }
  split; [|lia]. split.
  - apply on_image_put; [done|lia|]. split; [rewrite length_inserts; apply Hok|]. apply Forall_inserts; [done|apply Hok].
  - done.
  - cbn. rewrite M3, (tight_fresh _ _ _ (Z.of_nat (length p)) Ht) by lia. lia.
  - eapply wrote_vext; [exact Hvv|]. apply (wrote_block SB _ (vv s) (vv s1) din d1 off x p SB_ok); try done; [apply Hok|lia].
  - done.
  - intros Hsl k Hk Hne. pose proof (blk_range k ltac:(unfold MAXFILE; lia)) as Hkb. pose proof (Z.div_mod k 512 ltac:(lia)). pose proof (Z.mod_pos_bound k 512 ltac:(lia)).
    assert (Hkq : k / 512 = off / 512).
    { destruct (decide (off + Z.of_nat (length p) <= k / 512 * 512)) as [Hge|Hlt]; [by rewrite (ti_none _ _ _ Htight) in Hne|]. lia. }
    unfold fbyte. rewrite Hf, Hkq, M5, Hvv. unfold disk_write. cbn [fst snd]. rewrite Z.eqb_refl.
    rewrite byte_at_inserts by (rewrite (proj1 Hok); unfold BSIZE; lia). rewrite decide_False by lia.
    destruct (decide (faddr (vv s) din (off / 512) = 0)) as [Hz|Hz]; [rewrite M11 by done; apply byte_at_zeroes|].
    assert (d1 = din) as -> by auto. rewrite <-M5. rewrite (ev_addr _ _ _ _ _ M4), M8 by done. rewrite <-Hkq in Hz |- *. apply Hsl; [lia|done].
Qed.

Lemma appended_app s din off p s1 d1 q s2 d2 : 0 <= off -> off + Z.of_nat (length p + length q) <= 71680 ->
  appended s din off p s1 d1 -> appended s1 d1 (off + Z.of_nat (length p)) q s2 d2 -> appended s din off (p ++ q) s2 d2.
Proof.
  intros Ho Hm [A1 A2 A3 A4 A5 A6] [B1 B2 B3 B4 B5 B6]. split; rewrite ?length_app, ?Nat2Z.inj_add, ?Z.add_assoc; try done; [congruence|lia| |auto].
  eapply wrote_app; [apply SB_ok|done|done|done|done].
Qed.

Lemma wp_iappend_loop fuel : forall s din off p (Q : dinode * Z -> mkfs -> Prop), on_image s -> inode_wf SB (vv s) din -> tight (vv s) din off -> 0 <= off ->
  off + Z.of_nat (length p) <= 71680 -> Forall (fun b => 0 <= b < 256) p -> freeblock s + blocks_of (off + Z.of_nat (length p)) - blocks_of off <= 1000 -> (length p < fuel)%nat ->
  (forall s' din', appended s din off p s' din' -> Q (din', off + Z.of_nat (length p)) s') -> wp (iappend_loop fuel din off p) Q s.
Proof.
  induction fuel as [|fuel IH]; intros s din off p Q Hs Hw Ht Ho Hmax Hb Hf Hfu HQ; [lia|]. cbn [iappend_loop].
  destruct (Nat.eqb_spec (length p) 0) as [Hz|Hz].
  { wp_step. apply nil_length_inv in Hz as ->. cbn in *. rewrite Z.add_0_r in *. apply HQ. split; cbn; rewrite ?Z.add_0_r; try done; [lia|]. by apply wrote_nil; [|apply meta_vv]. }
  pose proof (blk_range off ltac:(unfold MAXFILE; lia)) as Hfbn. rewrite (proj2 (Z.ltb_lt (off / 512) _)) by lia. cbn [negb].
  pose proof (Z.mod_pos_bound off 512 ltac:(lia)) as Hmb. pose proof (Z.div_mod off 512 ltac:(lia)) as Hdm.
  set (n1 := Z.min _ _). assert (Hn1 : 0 < n1 <= 512 - off mod 512 /\ n1 <= Z.of_nat (length p)) by lia. set (c := take (Z.to_nat n1) p). set (r := drop (Z.to_nat n1) p).
  assert (Hlc : length c = Z.to_nat n1) by (unfold c; rewrite length_take; lia). assert (Hlr : length r = (length p - Z.to_nat n1)%nat) by (unfold r; rewrite length_drop; lia).
  assert (Hcr : p = c ++ r) by (unfold c, r; by rewrite take_drop).
  pose proof (blocks_of_mono (off + n1) (off + Z.of_nat (length p)) ltac:(lia)) as Hm1.
  wp_step. apply wp_map_block; [done|done|done|rewrite (tight_fresh _ _ _ n1 Ht) by lia; lia|]. intros s1 d1 x Hm.
  destruct (append_step s din off s1 d1 x c Hs Hw Ht ltac:(lia) ltac:(lia) ltac:(lia) ltac:(by apply Forall_take) Hm) as [Ha Hx].
  wp_step. apply wp_rsect; [apply Hm|done|]. wp_step. apply wp_wsect; [apply Hm|done|].
  assert (Hx58 : x <> 58). { destruct Hm as [M1 M2 M3 M4 M5 M6 M7 M8 M9 M10 M11]. destruct (w_addr _ _ _ (ev_wf _ _ _ _ _ M4) (off / 512) Hfbn ltac:(by rewrite M5)) as [[Hd _] _]. rewrite M5, dstart_SB in Hd. lia. }
  rewrite <-(vv_view s1 x) by done. replace (off - off / 512 * 512) with (off mod 512) by lia. fold c r.
  set (s2 := put_sector _ _ _) in *. pose proof Ha as [A1 A2 A3 A4 A5 A6]. replace (off + n1) with (off + Z.of_nat (length c)) by lia.
  apply IH; [done|apply (ev_wf _ _ _ _ _ (wr_ev _ _ _ _ _ _ _ A4))|done|lia|lia|by apply Forall_drop|rewrite A3; replace (off + Z.of_nat (length c) + Z.of_nat (length r)) with (off + Z.of_nat (length p)) by lia; lia|lia|].
  intros s3 d3 Hb3. replace (off + Z.of_nat (length c) + Z.of_nat (length r)) with (off + Z.of_nat (length p)) by lia. apply HQ. rewrite Hcr at 1. eapply appended_app; [done|lia|exact Ha|exact Hb3].
Qed.

(** ** Inodes *)

Lemma IBLOCK_SB i : 0 <= i < 200 -> 32 <= IBLOCK i SB < 58.
Proof. intros Hi. apply (IBLOCK_range SB 1000 i SB_ok Hi). Qed.

Lemma wp_rinode s i (Q : dinode -> mkfs -> Prop) : on_image s -> 0 <= i < 200 -> Q (disk_inode SB (vv s) i) s -> wp (rinode i) Q s.
Proof.
  intros Hs Hi HQ. pose proof (IBLOCK_SB i Hi). unfold rinode. wp_step. wp_step. rewrite (oi_sb _ Hs). wp_step. apply wp_rsect; [done|lia|]. wp_step.
  unfold disk_inode in HQ. by rewrite vv_view in HQ by lia.
Qed.

Record put_inode (s : mkfs) (i : Z) (d : dinode) (s' : mkfs) : Prop := mk_put_inode {
  pi_image : on_image s';
  pi_fi : freeinode s' = freeinode s;
  pi_fb : freeblock s' = freeblock s;
  pi_inode x : 0 <= x < 200 -> disk_inode SB (vv s') x = if x =? i then d else disk_inode SB (vv s) x;
  pi_view x : x < 32 \/ 58 <= x -> vv s' x = vv s x
}.
Lemma wp_winode s i d (Q : unit -> mkfs -> Prop) : on_image s -> 0 <= i < 200 -> dinode_ok d -> (forall s', put_inode s i d s' -> Q tt s') -> wp (winode i d) Q s.
Proof.
  intros Hs Hi Hd HQ. pose proof (IBLOCK_SB i Hi) as HI. pose proof (oi_fb _ Hs). unfold winode. wp_step. wp_step. rewrite (oi_sb _ Hs). wp_step. apply wp_rsect; [done|lia|]. apply wp_wsect; [done|lia|].
  rewrite <-(vv_view s (IBLOCK i SB)) by lia. pose proof (vv_ok s (IBLOCK i SB) Hs) as Hok. apply HQ.
  assert (Hvv : forall x, vv (put_sector (IBLOCK i SB) (put_dinode (vv s (IBLOCK i SB)) (di_off i) d) s) x = disk_write (vv s) (IBLOCK i SB, put_dinode (vv s (IBLOCK i SB)) (di_off i) d) x)
    by (intros x; apply vv_put; [done|lia|lia]).
  split; [apply on_image_put; [done|lia|by apply block_ok_put_dinode]|done|done| |].
  - intros x Hx. rewrite (disk_inode_vext _ _ _ Hvv). apply (disk_inode_put SB 1000); [apply SB_ok|done|done|done|done].
  - intros x Hx. rewrite Hvv. unfold disk_write. cbn [fst snd]. by rewrite (proj2 (Z.eqb_neq x _)) by lia.
Qed.

(** ** The files built so far *)

(** A type and the contents. *)
Abbreviation node := (Z * list Z)%type.
Fixpoint total (C : list node) : Z := match C with [] => 0 | x :: C => blocks_of (Z.of_nat (length (snd x))) + total C end.
Definition the_inode (s : mkfs) (i : nat) : dinode := disk_inode SB (vv s) (Z.of_nat i + 1).

Record node_ok (s : mkfs) (di : dinode) (x : node) : Prop := mk_node_ok {
  no_wf : inode_wf SB (vv s) di;
  no_type : di_type di = fst x;
  no_nlink : di_nlink di = 1;
  no_size : di_size di = Z.of_nat (length (snd x));
  no_contents : contents (vv s) di = snd x;
  no_tight : tight (vv s) di (Z.of_nat (length (snd x)));
  no_slack : slack (vv s) di (Z.of_nat (length (snd x)))
}.

Record building (s : mkfs) (C : list node) : Prop := mk_building {
  bd_image : on_image s;
  bd_super : view s 1 = encode_sb SB zeroes;
  bd_fi : freeinode s = Z.of_nat (length C) + 1;
  bd_count : (length C <= 199)%nat;
  bd_fb : freeblock s = 59 + total C;
  bd_node i x : C !! i = Some x -> node_ok s (the_inode s i) x;
  bd_free x : freeinode s <= x < 200 -> di_type (disk_inode SB (vv s) x) = 0;
  bd_disj i j z : (i < length C)%nat -> (j < length C)%nat -> i <> j -> owned (vv s) (the_inode s i) z -> ~ owned (vv s) (the_inode s j) z
}.

(** A file none of whose blocks has changed. *)
Lemma node_keep s s' di x : node_ok s di x -> (forall z, owned (vv s) di z -> vv s' z = vv s z) ->
  (forall z, 0 <= z < 1000 -> used SB (vv s) z = true -> used SB (vv s') z = true) -> node_ok s' di x /\ (forall z, owned (vv s') di z <-> owned (vv s) di z).
Proof.
  intros [N1 N2 N3 N4 N5 N6 N7] Hown Hu. destruct (file_ext SB 1000 (vv s) (vv s') di SB_ok N1 Hown Hu) as (W & Hf & Hby).
  assert (Hf' : forall bm, faddr (vv s') di bm = faddr (vv s) di bm).
  { intros bm. unfold faddr. destruct (bm <? _); [done|]. destruct (Z.eqb_spec (ind di) 0) as [|Hi]; [done|]. rewrite Hown; [done|]. split; [done|by left]. }
  split.
  - split; try done.
    + by rewrite (file_ext_contents SB 1000 (vv s) (vv s') di SB_ok N1 Hown Hu).
    + destruct N6 as [T1 T2 T3]. split; intros *; rewrite ?Hf'; auto.
    + intros k Hk. rewrite Hf'. intros Hne. rewrite Hby; [by apply N7|unfold MAXFILE; lia|done].
  - intros z. unfold owned. by setoid_rewrite Hf'.
Qed.

Lemma total_app C D : total (C ++ D) = total C + total D.
Proof. induction C as [|x C IH]; cbn [total app]; [done|]. rewrite IH. lia. Qed.
Lemma total_insert C i x y : C !! i = Some x -> total (<[i := y]> C) = total C + blocks_of (Z.of_nat (length (snd y))) - blocks_of (Z.of_nat (length (snd x))).
Proof.
  revert i. induction C as [|z C IH]; intros [|i] Hi; try done; cbn [insert list_insert total].
  - injection Hi as ->. lia.
  - rewrite IH by done. lia.
Qed.

(** Writing an inode changes no block of a file. *)
Lemma put_inode_keep s i d s' di x : on_image s -> put_inode s i d s' -> node_ok s di x -> node_ok s' di x /\ (forall z, owned (vv s') di z <-> owned (vv s) di z).
Proof.
  intros Hs [P1 P2 P3 P4 P5] Hn. apply node_keep; [done| |].
  - intros z Hz. apply P5. right. pose proof (owned_data _ _ _ _ (no_wf _ _ _ Hn) Hz) as [[Hd _] _]. rewrite dstart_SB in Hd. lia.
  - intros z Hz. rewrite !used_vv by done. by rewrite P3.
Qed.

(** The inode after an append, on the image before it is written. *)
Lemma appended_node s din ty data p s1 d1 (n := Z.of_nat (length data)) : node_ok s din (ty, data) -> appended s din n p s1 d1 -> Z.of_nat (length data + length p) <= 71680 ->
  node_ok s1 (set_size (n + Z.of_nat (length p)) d1) (ty, data ++ p).
Proof.
  intros [N1 N2 N3 N4 N5 N6 N7] [A1 A2 A3 A4 A5 A6] Hmax. pose proof A4 as [W1 W2 W3 W4 W5]. cbn [fst snd] in *. pose proof (ev_file _ _ _ _ _ W1) as (F1 & F2 & F3 & F4 & F5).
  split; cbn [fst snd]; rewrite ?length_app, ?Nat2Z.inj_add; fold n.
  - apply resize_wf; [apply W1|unfold MAXFILE; lia|apply A5].
  - cbn. congruence.
  - cbn. congruence.
  - done.
  - rewrite (contents_splice (vv s) (vv s1) din _ n p).
    + rewrite N5. unfold splice. replace (Z.to_nat n) with (length data) by lia. rewrite firstn_all, drop_ge by lia. by rewrite app_nil_r.
    + lia.
    + cbn. lia.
    + exact W3.
    + intros k Hk Hno. apply W4; [unfold MAXFILE; lia|done|]. apply (w_full _ _ _ N1); [apply Z.div_pos; lia|]. pose proof (Z.mul_div_le k 512 ltac:(lia)). lia.
  - destruct A5 as [T1 T2 T3]. by split.
  - by apply A6.
Qed.

Lemma wp_iappend s C i ty data p (Q : unit -> mkfs -> Prop) (C' := <[i := (ty, data ++ p)]> C) : building s C -> C !! i = Some (ty, data) -> Forall (fun b => 0 <= b < 256) p ->
  Z.of_nat (length data + length p) <= 71680 -> total C' <= 941 -> (forall s', building s' C' -> Q tt s') -> wp (iappend (Z.of_nat i + 1) p) Q s.
Proof.
  intros [B1 B2 B3 B4 B5 B6 B7 B8] Hi Hp Hmax Hfit HQ. pose proof (lookup_lt_Some _ _ _ Hi) as Hil. unfold iappend. wp_step. apply wp_rinode; [done|lia|].
  fold (the_inode s i). pose proof (B6 _ _ Hi) as Hn. pose proof Hn as [N1 N2 N3 N4 N5 N6 N7]. cbn [fst snd] in *. set (din := the_inode s i) in *.
  unfold C' in Hfit. rewrite (total_insert _ _ _ _ Hi) in Hfit. cbn [snd] in Hfit. rewrite length_app, Nat2Z.inj_add in Hfit.
  rewrite N4, xint_id by (unfold W32; lia). set (n := Z.of_nat (length data)) in *. wp_step.
  apply wp_iappend_loop; [done|done|done|lia|lia|done|lia|lia|]. intros s1 d1 Ha. pose proof (appended_node s din ty data p s1 d1 Hn Ha Hmax) as Hn1. fold n in Hn1.
  pose proof Ha as [A1 A2 A3 A4 A5 A6]. pose proof (wr_ev _ _ _ _ _ _ _ A4) as Hev.
  rewrite (xint_id (n + Z.of_nat (length p))) by (unfold W32; lia).
  apply wp_winode; [done|lia|apply (no_wf _ _ _ Hn1)|]. intros s2 Hput. pose proof Hput as [P1 P2 P3 P4 P5]. set (d2 := set_size _ d1) in *. apply HQ.
  assert (Hinode : forall j, (j < length C)%nat -> the_inode s2 j = if decide (j = i) then d2 else the_inode s j).
  { intros j Hj. unfold the_inode. rewrite P4 by lia. case_decide as E; [subst; by rewrite Z.eqb_refl|]. rewrite (proj2 (Z.eqb_neq _ _)) by lia.
    unfold disk_inode. rewrite (ev_low _ _ _ _ _ Hev); [done|]. cbn. pose proof (IBLOCK_SB (Z.of_nat j + 1) ltac:(lia)). lia. }
  assert (Hown2 : forall z, owned (vv s2) d2 z <-> owned (vv s1) d1 z) by (intros z; rewrite (proj2 (put_inode_keep _ _ _ _ _ _ A1 Hput Hn1)); done).
  assert (Hother : forall j x, j <> i -> C !! j = Some x -> node_ok s2 (the_inode s j) x /\ forall z, owned (vv s2) (the_inode s j) z <-> owned (vv s) (the_inode s j) z).
  { intros j x Hj Hx. pose proof (lookup_lt_Some _ _ _ Hx) as Hjl. destruct (node_keep s s1 (the_inode s j) x (B6 _ _ Hx)) as [K1 K2].
    - intros z Hz. apply (ev_frame _ _ _ _ _ Hev); [by eapply owned_data; [apply (B6 _ _ Hx)|]|]. by apply (B8 j i).
    - apply (ev_used _ _ _ _ _ Hev).
    - destruct (put_inode_keep _ _ _ _ _ _ A1 Hput K1) as [K3 K4]. split; [done|]. intros z. by rewrite K4. }
  assert (Hfresh : forall j x z, j <> i -> C !! j = Some x -> owned (vv s2) d2 z -> ~ owned (vv s) (the_inode s j) z).
  { intros j x z Hj Hx Hz Hz'. apply Hown2 in Hz. apply (ev_own _ _ _ _ _ Hev) in Hz as [Hz|Hu].
    - by apply (B8 i j z Hil (lookup_lt_Some _ _ _ Hx) ltac:(done) Hz).
    - pose proof (owned_data _ _ _ _ (no_wf _ _ _ (B6 _ _ Hx)) Hz') as [_ Hu']. congruence. }
  assert (HC' : forall j, j <> i -> C' !! j = C !! j) by (intros j Hj; by apply list_lookup_insert_ne).
  assert (HCi : C' !! i = Some (ty, data ++ p)) by (by apply list_lookup_insert_eq).
  split; unfold C'; rewrite ?length_insert; try done.
  - rewrite <-vv_view by lia. rewrite P5 by lia. rewrite (ev_low _ _ _ _ _ Hev) by (cbn; lia). by rewrite vv_view by lia.
  - congruence.
  - rewrite P3, A3, B5, (total_insert _ _ _ _ Hi). cbn [snd]. rewrite length_app, Nat2Z.inj_add. fold n. lia.
  - intros j x Hx. fold C' in Hx. destruct (decide (j = i)) as [->|Hj].
    + rewrite HCi in Hx. injection Hx as <-. rewrite Hinode, decide_True by done. by apply (put_inode_keep _ _ _ _ _ _ A1 Hput Hn1).
    + rewrite HC' in Hx by done. rewrite Hinode, decide_False by (done || by eapply lookup_lt_Some). by apply Hother.
  - intros x Hx. rewrite P2, A2 in Hx. rewrite P4 by lia. rewrite (proj2 (Z.eqb_neq _ _)) by lia. unfold disk_inode.
    rewrite (ev_low _ _ _ _ _ Hev); [by apply B7|]. cbn. pose proof (IBLOCK_SB x ltac:(lia)). lia.
  - intros j k z Hj Hk Hne. destruct (lookup_lt_is_Some_2 C j Hj) as [xj Ej], (lookup_lt_is_Some_2 C k Hk) as [xk Ek]. rewrite !Hinode by done.
    destruct (decide (j = i)) as [->|Hji], (decide (k = i)) as [->|Hki]; [done| | |].
    + intros Hz. rewrite (proj2 (Hother k xk Hki Ek)). by eapply Hfresh.
    + rewrite (proj2 (Hother j xj Hji Ej)). intros Hz Hz'. by apply (Hfresh j xj z).
    + rewrite (proj2 (Hother j xj Hji Ej)), (proj2 (Hother k xk Hki Ek)). by apply B8.
Qed.

Lemma total_extend C i ty data p q : C !! i = Some (ty, data) -> total (<[i := (ty, data ++ p)]> C) <= total (<[i := (ty, data ++ p ++ q)]> C).
Proof.
  intros Hi. rewrite !(total_insert _ _ _ _ Hi). cbn [snd]. rewrite !length_app.
  pose proof (blocks_of_mono (Z.of_nat (length data + length p)) (Z.of_nat (length data + (length p + length q))) ltac:(lia)). lia.
Qed.

Lemma wp_copy_in i ty p : forall fuel s C data (Q : unit -> mkfs -> Prop), building s C -> C !! i = Some (ty, p) -> Forall (fun b => 0 <= b < 256) data ->
  Z.of_nat (length p + length data) <= 71680 -> total (<[i := (ty, p ++ data)]> C) <= 941 -> (length data < fuel)%nat ->
  (forall s', building s' (<[i := (ty, p ++ data)]> C) -> Q tt s') -> wp (copy_in fuel (Z.of_nat i + 1) data) Q s.
Proof.
  intros fuel. revert p. induction fuel as [|fuel IH]; intros p s C data Q Hb Hi Hd Hmax Hfit Hf HQ; [lia|]. cbn [copy_in].
  destruct (Nat.eqb_spec (length (take 512 data)) 0) as [Hz|Hz].
  - wp_step. apply nil_length_inv in Hz. destruct data; [|done]. rewrite app_nil_r, list_insert_id in HQ by done. by apply HQ.
  - rewrite <-(take_drop 512 data) in Hfit, HQ, Hmax. set (c := take 512 data) in *. set (r := drop 512 data) in *. rewrite length_app in Hmax.
    assert (Hl : (length c + length r = length data)%nat) by (unfold c, r; rewrite length_take, length_drop; lia).
    pose proof (total_extend C i ty p c r Hi) as Hmono. pose proof (lookup_lt_Some _ _ _ Hi) as Hil.
    wp_step. apply (wp_iappend s C i ty p); [done|done|by apply Forall_take|lia|lia|]. intros s' Hb'.
    assert (Hins : forall x, <[i := x]> (<[i := (ty, p ++ c)]> C) = <[i := x]> C) by (intros x; apply list_insert_insert_eq).
    eapply (IH (p ++ c)); [exact Hb'|by apply list_lookup_insert_eq|by apply Forall_drop|rewrite length_app; lia|by rewrite Hins, <-app_assoc|lia|].
    intros s'' Hb''. rewrite Hins, <-app_assoc in Hb''. by apply HQ.
Qed.

(** ** A new inode *)

Definition empty_inode (ty : Z) : dinode := mk_dinode ty 0 0 1 0 (repeat 0 13).
Lemma empty_addr ty k : default 0 (di_addrs (empty_inode ty) !! k) = 0.
Proof.
  unfold empty_inode. cbn [di_addrs]. destruct (repeat 0 13 !! k) as [a|] eqn:E; [|done]. by apply list_elem_of_lookup_2, list_elem_of_In, repeat_spec in E.
Qed.
Lemma empty_faddr v ty bn : faddr v (empty_inode ty) bn = 0.
Proof. unfold faddr, ind. rewrite !empty_addr. by destruct (bn <? _). Qed.
Lemma empty_dinode_ok ty : short_ok ty -> dinode_ok (empty_inode ty).
Proof.
  intros Ht. split; try done. apply Forall_forall. intros x Hx%list_elem_of_In%repeat_spec. unfold W32. lia.
Qed.
Lemma empty_node s ty : short_ok ty -> node_ok s (empty_inode ty) (ty, []).
Proof.
  intros Ht. split; try done.
  - assert (Hi : ind (empty_inode ty) = 0) by apply empty_addr. split.
    + by apply empty_dinode_ok.
    + intros bn _. by rewrite empty_faddr.
    + by rewrite Hi.
    + intros bn _. by rewrite Hi.
    + intros bn bm _ _ _. by rewrite empty_faddr.
    + unfold MAXFILE. cbn. lia.
    + cbn. lia.
  - split; [cbn; lia|intros; apply empty_faddr|intros _; unfold ind; apply empty_addr].
  - intros k _ Hne. by rewrite empty_faddr in Hne.
Qed.
Lemma empty_owned v ty z : ~ owned v (empty_inode ty) z.
Proof. intros [Hz [->|(bn & _ & E)]]; [unfold ind in Hz; by rewrite empty_addr in Hz|]. rewrite empty_faddr in E. congruence. Qed.

Lemma wp_mk_ialloc s C ty (Q : Z -> mkfs -> Prop) : building s C -> (length C < 199)%nat -> ty = T_DIR \/ ty = T_FILE ->
  (forall s', building s' (C ++ [(ty, [])]) -> Q (Z.of_nat (length C) + 1) s') -> wp (mk_ialloc ty) Q s.
Proof.
  intros [B1 B2 B3 B4 B5 B6 B7 B8] Hl Ht HQ. unfold mk_ialloc. wp_step. wp_step. wp_step. wp_step. rewrite B3. rewrite u32_small by (unfold W32; lia).
  assert (mk_dinode (xshort ty) 0 0 (xshort 1) (xint 0) (repeat 0 13) = empty_inode ty) as -> by (by destruct Ht as [-> | ->]).
  set (s0 := mk_mkfs _ _ _ _). assert (H0 : on_image s0) by (by destruct B1).
  assert (Hst : short_ok ty) by (destruct Ht as [-> | ->]; unfold short_ok, T_DIR, T_FILE; lia).
  wp_step. apply wp_winode; [done|lia|by apply empty_dinode_ok|]. intros s' Hput. wp_step. apply HQ. pose proof Hput as [P1 P2 P3 P4 P5].
  assert (Hinode : forall j, (j < length C)%nat -> the_inode s' j = the_inode s j).
  { intros j Hj. unfold the_inode. rewrite P4 by lia. by rewrite (proj2 (Z.eqb_neq _ _)) by lia. }
  assert (Hnew : the_inode s' (length C) = empty_inode ty) by (unfold the_inode; rewrite P4, Z.eqb_refl by lia; done).
  split; rewrite ?length_app; cbn [length]; try done; try lia.
  - rewrite <-vv_view by lia. rewrite P5 by lia. by rewrite vv_view by lia.
  - cbn in P2. lia.
  - rewrite P3, total_app. cbn [total snd length]. change (freeblock s0) with (freeblock s). change (blocks_of (Z.of_nat 0)) with 0. lia.
  - intros j x Hx. apply lookup_app_Some in Hx as [Hx|[Hge Hx]].
    + rewrite Hinode by (by eapply lookup_lt_Some). apply (put_inode_keep s0 _ _ _ _ _ H0 Hput). destruct (B6 _ _ Hx). by split.
    + destruct (j - length C)%nat eqn:E; [|done]. injection Hx as <-. replace j with (length C) by lia. rewrite Hnew. by apply empty_node.
  - intros x Hx. cbn in P2. rewrite P4 by lia. rewrite (proj2 (Z.eqb_neq _ _)) by lia. apply B7. lia.
  - assert (Hown : forall j z, (j < length C)%nat -> owned (vv s') (the_inode s' j) z <-> owned (vv s) (the_inode s j) z).
    { intros j z Hj. destruct (lookup_lt_is_Some_2 C j Hj) as [x Hx]. rewrite Hinode by done.
      assert (Hn0 : node_ok s0 (the_inode s j) x) by (destruct (B6 _ _ Hx); by split). apply (put_inode_keep s0 _ _ _ _ _ H0 Hput Hn0). }
    intros i j z Hi Hj Hne Hz Hz'. destruct (decide (i < length C)%nat), (decide (j < length C)%nat).
    + rewrite Hown in Hz, Hz' by done. by apply (B8 i j z).
    + replace j with (length C) in Hz' by lia. rewrite Hnew in Hz'. by apply empty_owned in Hz'.
    + replace i with (length C) in Hz by lia. rewrite Hnew in Hz. by apply empty_owned in Hz.
    + lia.
Qed.
