(* ===== verification/MkfsImage.v ===== *)
(** * The file system on the image of [mkfs]

    The run of [main] from the empty file on: the superblock, the root directory with an entry
    for every file, the files, the rounded size of the root directory and the bitmap.  The
    result is a tree of directories in the sense of the path lookup of the kernel. *)

From S2P Require Import Prelude CString Spinlock Sleeplock Block Disk Layout Format Tx Fs FsBlocks FsInode FsRw FsCache FsDir FsPath Mkfs MkfsProps.

(** ** The empty image *)

Definition blank : mkfs := mk_mkfs (replicate 1000 zeroes) SB 1 59.

Lemma wp_clear n : forall s (Q : unit -> mkfs -> Prop),
  Q tt (mk_mkfs (img s ++ replicate n zeroes) (sb s) (freeinode s) (freeblock s)) -> wp (clear n (Z.of_nat (length (img s)))) Q s.
Proof.
  induction n as [|n IH]; intros s Q HQ; cbn [clear].
  - wp_step. rewrite app_nil_r in HQ. by destruct s.
  - wp_step. unfold wsect. wp_step. rewrite Nat2Z.id. replace (S (length (img s)) - length (img s))%nat with 1%nat by lia.
    rewrite insert_app_r_alt, Nat.sub_diag by lia. cbn [replicate insert list_insert].
    set (s1 := mk_mkfs _ _ _ _). replace (Z.of_nat (length (img s)) + 1) with (Z.of_nat (length (img s1))) by (cbn; rewrite length_app; cbn; lia).
    apply IH. cbn. by rewrite <-app_assoc.
Qed.

Lemma view_blank x : view blank x = zeroes.
Proof.
  unfold view. destruct (img blank !! Z.to_nat x) as [b|] eqn:E; [|done]. cbn -[replicate] in E. by apply lookup_replicate in E as [-> _].
Qed.
Lemma on_image_blank : on_image blank.
Proof.
  split; [done|by cbn -[replicate]; rewrite length_replicate| |cbn; lia|intros; apply view_blank].
  apply Forall_replicate, zeroes_ok.
Qed.

Lemma encode_sb_ok : block_ok (encode_sb SB zeroes).
Proof. apply block_ok_put_words, zeroes_ok. Qed.
Lemma decode_encode : decode_sb (encode_sb SB zeroes) = SB.
Proof. vm_compute. reflexivity. Qed.

Definition formatted : mkfs := put_sector 1 (encode_sb SB zeroes) blank.
Lemma building_formatted : building formatted [].
Proof.
  pose proof on_image_blank as Hb. assert (Hi : on_image formatted) by (apply on_image_put; [done|cbn; lia|apply encode_sb_ok]).
  split; try done; [cbn; lia| |intros i j z Hx; cbn in Hx; lia].
  - intros x Hx. pose proof (IBLOCK_SB x ltac:(cbn in Hx; lia)). unfold disk_inode. rewrite vv_view by lia. unfold formatted. rewrite view_put by done.
    rewrite (proj2 (Z.eqb_neq _ _)) by lia. rewrite view_blank. unfold get_dinode. cbn [di_type]. unfold get16. by rewrite !byte_at_zeroes.
Qed.

(** ** The entries of a directory *)

Fixpoint dir_bytes (es : list (list Z * Z)) : list Z := match es with [] => [] | (name, i) :: es => mk_dirent name i ++ dir_bytes es end.
Fixpoint ents (i : Z) (files : list (list Z * list Z)) : list (list Z * Z) :=
  match files with [] => [] | f :: files => (skip_underscore (fst f), i) :: ents (i + 1) files end.
Definition dots : list (list Z * Z) := [([46], 1); ([46; 46], 1)].

Lemma dir_bytes_app es fs : dir_bytes (es ++ fs) = dir_bytes es ++ dir_bytes fs.
Proof. induction es as [|[n i] es IH]; cbn [app dir_bytes]; [done|]. by rewrite IH, app_assoc. Qed.
Lemma length_dir_bytes es : length (dir_bytes es) = (16 * length es)%nat.
Proof. induction es as [|[n i] es IH]; cbn [length dir_bytes]; [done|]. rewrite length_app, length_mk_dirent, IH. lia. Qed.
Lemma bytes_dir_bytes es : Forall (fun e => bytes (fst e)) es -> bytes (dir_bytes es).
Proof. induction 1 as [|[n i] es Hn _ IH]; cbn [dir_bytes]; [constructor|]. apply Forall_app. split; [by apply bytes_mk_dirent|done]. Qed.
Lemma dent_dir_bytes es rest k e : es !! k = Some e -> dent (dir_bytes es ++ rest) k = mk_dirent (fst e) (snd e).
Proof.
  revert es. unfold dent. induction k as [|k IH]; intros [|[n i] es] Hk; try done; cbn [dir_bytes].
  - injection Hk as <-. rewrite Nat.mul_0_r, drop_0, <-app_assoc. apply take_app_length'. symmetry. apply length_mk_dirent.
  - rewrite <-app_assoc, drop_app_ge by (rewrite length_mk_dirent; lia). rewrite length_mk_dirent.
    replace (16 * S k - 16)%nat with (16 * k)%nat by lia. by apply IH.
Qed.
Lemma ents_lookup files : forall i k f, files !! k = Some f -> ents i files !! k = Some (skip_underscore (fst f), i + Z.of_nat k).
Proof.
  induction files as [|g files IH]; intros i [|k] f Hk; try done; cbn [ents].
  - injection Hk as ->. cbn. by rewrite Z.add_0_r.
  - change (((skip_underscore (fst g), i) :: ents (i + 1) files) !! S k) with (ents (i + 1) files !! k). rewrite (IH _ _ _ Hk). do 2 f_equal. lia.
Qed.
Lemma length_ents files : forall i, length (ents i files) = length files.
Proof. induction files as [|f files IH]; intros i; cbn [ents length]; [done|]. by rewrite IH. Qed.
Lemma ents_inum files : forall i e, e ∈ ents i files -> i <= snd e < i + Z.of_nat (length files).
Proof.
  induction files as [|f files IH]; intros i e He; cbn [ents length] in *; [by apply elem_of_nil in He|].
  apply elem_of_cons in He as [->|He]; cbn [snd]; [lia|]. apply IH in He. lia.
Qed.
Lemma ents_names files i : (ents i files).*1 = skip_underscore ∘ fst <$> files.
Proof. revert i. induction files as [|f files IH]; intros i; cbn; [done|]. by rewrite IH. Qed.

(** A name of a directory whose names differ leads to its entry; the free entries behind them do not matter. *)
Lemma dfind_dir es m name inum k (c := dir_bytes es ++ replicate (16 * m) 0) :
  Forall (fun e => bytes (fst e) /\ 0 < snd e < 65536) es -> NoDup (cname DIRSIZ <$> es.*1) -> es !! k = Some (name, inum) ->
  dfind c name = Some k /\ de_inum (dent c k) = inum.
Proof.
  intros Hes Hnd Hk. pose proof (Forall_lookup_1 _ _ _ _ Hes Hk) as [Hb Hin]. cbn in Hb, Hin.
  assert (Hd : forall j e, es !! j = Some e -> dent c j = mk_dirent (fst e) (snd e)) by (intros j e Hj; by apply dent_dir_bytes).
  assert (Hlen : (length c / 16 = length es + m)%nat).
  { unfold c. rewrite length_app, length_dir_bytes, length_replicate. symmetry. apply (Nat.div_unique _ _ _ 0); lia. }
  assert (Hbc : bytes c). { apply Forall_app. split; [|by apply Forall_replicate; lia]. apply bytes_dir_bytes. eapply Forall_impl; [exact Hes|]. by intros e [He _]. }
  pose proof (lookup_lt_Some _ _ _ Hk) as Hkl. split; [|rewrite (Hd k _ Hk); apply de_inum_mk; cbn; lia].
  assert (Hm : dmatch name (dent c k) = true).
  { apply dmatch_iff; [done|by apply bytes_dent|]. rewrite (Hd k _ Hk), de_inum_mk, de_name_mk, cname_name_field by (cbn; lia). cbn. split; [lia|done]. }
  unfold dfind. destruct (first _ _) as [j|] eqn:Hf.
  - apply first_Some in Hf as [Hj%list_elem_of_In%in_seq Hmj]. apply dmatch_iff in Hmj as [Hne Hcn]; [|done|by apply bytes_dent]. f_equal.
    destruct (es !! j) as [e|] eqn:Ej.
    + rewrite (Hd j _ Ej), de_name_mk, cname_name_field in Hcn. apply (NoDup_lookup _ j k (cname DIRSIZ name) Hnd).
      * by rewrite !list_lookup_fmap, Ej, Hcn.
      * by rewrite !list_lookup_fmap, Hk.
    + exfalso. apply Hne. apply lookup_ge_None in Ej. unfold dent, c. rewrite drop_app_ge by (rewrite length_dir_bytes; lia).
      rewrite drop_replicate, take_replicate. unfold de_inum, get16, byte_at. by destruct (_ `min` _)%nat as [|[|?]].
  - pose proof (first_None _ _ Hf k) as Hn. rewrite Hn in Hm; [done|]. apply list_elem_of_In, in_seq. lia.
Qed.

(** ** The files *)

Definition file_node (f : list Z * list Z) : node := (T_FILE, snd f).
(** A name and contents that [mkfs] can store. *)
Record file_ok (f : list Z * list Z) : Prop := mk_file_ok {
  fl_slash : has_slash (fst f) = false;
  fl_name : bytes (fst f);
  fl_data : bytes (snd f);
  fl_max : Z.of_nat (length (snd f)) <= 71680
}.

Lemma bytes_skip n : bytes n -> bytes (skip_underscore n).
Proof. destruct n as [|c n]; cbn; [done|]. destruct (c =? 95); [|done]. by inversion 1. Qed.
Lemma blocks_of_nonneg n : 0 <= n -> 0 <= blocks_of n.
Proof. intros Hn. unfold blocks_of. assert (0 <= (n + 511) / 512) by (apply Z.div_pos; lia). destruct (6144 <? n); lia. Qed.
Lemma total_nonneg C : 0 <= total C.
Proof. induction C as [|x C IH]; cbn [total]; [lia|]. pose proof (blocks_of_nonneg (Z.of_nat (length (snd x))) ltac:(lia)). lia. Qed.

Lemma wp_add_files files : forall s es rest (Q : unit -> mkfs -> Prop) (n := Z.of_nat (length rest) + 2), building s ((T_DIR, dir_bytes es) :: rest) -> Forall file_ok files ->
  (length rest + length files <= 198)%nat -> length es = (length rest + 2)%nat ->
  blocks_of (16 * Z.of_nat (length es + length files)) + total rest + total (file_node <$> files) <= 941 ->
  (forall s', building s' ((T_DIR, dir_bytes (es ++ ents n files)) :: rest ++ (file_node <$> files)) -> Q tt s') -> wp (add_files 1 files) Q s.
Proof.
  induction files as [|[name data] files IH]; intros s es rest Q n Hb Hok Hn He Hfit HQ; cbn [add_files].
  { wp_step. rewrite !app_nil_r in HQ. by apply HQ. }
  apply Forall_cons in Hok as [[Hs Hnm Hd Hmax] Hok]. cbn [fst snd fmap list_fmap total length file_node] in *. rewrite Hs.
  wp_step. eapply wp_mk_ialloc; [exact Hb|cbn; lia|by right|]. cbn [length]. replace (Z.of_nat (S (length rest)) + 1) with n by lia. intros s1 Hb1. rewrite xshort_id by lia.
  set (de := mk_dirent _ n). pose proof (total_nonneg (file_node <$> files)) as Ht. pose proof (total_nonneg rest) as Ht0. pose proof (blocks_of_nonneg (Z.of_nat (length data)) ltac:(lia)) as Ht1.
  assert (Hde : dir_bytes es ++ de = dir_bytes (es ++ [(skip_underscore name, n)])) by (rewrite dir_bytes_app; cbn [dir_bytes]; by rewrite app_nil_r).
  pose proof (blocks_of_mono (16 * Z.of_nat (length es + 1)) (16 * Z.of_nat (length es + S (length files))) ltac:(lia)) as Hm1.
  assert (Hld : Z.of_nat (length (dir_bytes es ++ de)) = 16 * Z.of_nat (length es + 1)) by (rewrite Hde, length_dir_bytes, length_app; cbn [length]; lia).
  wp_step. change 1 with (Z.of_nat 0 + 1). eapply (wp_iappend s1 _ 0 T_DIR (dir_bytes es) de); [exact Hb1|done|by apply bytes_mk_dirent, bytes_skip| | |].
  { rewrite <-length_app, Hld. lia. }
  { cbn [app insert list_insert total snd]. rewrite Hld, total_app. cbn [total snd length]. change (blocks_of (Z.of_nat 0)) with 0. lia. }
  cbn [app insert list_insert]. rewrite Hde. intros s2 Hb2. wp_step. replace n with (Z.of_nat (S (length rest)) + 1) by lia.
  assert (Hins : forall x, <[S (length rest) := x]> ((T_DIR, dir_bytes (es ++ [(skip_underscore name, n)])) :: rest ++ [(T_FILE, [])]) = (T_DIR, dir_bytes (es ++ [(skip_underscore name, n)])) :: rest ++ [x] :> list node).
  { intros x. rewrite app_comm_cons, insert_app_r_alt by (cbn; lia). cbn [length]. by rewrite Nat.sub_diag. }
  eapply (wp_copy_in (S (length rest)) T_FILE []); [exact Hb2| |done|cbn; lia| |lia|].
  { change (((T_DIR, dir_bytes (es ++ [(skip_underscore name, n)])) :: rest ++ [(T_FILE, [])]) !! S (length rest)) with ((rest ++ [(T_FILE, [])]) !! length rest : option node). by rewrite lookup_app_r, Nat.sub_diag by lia. }
  { rewrite Hins. cbn [total snd app]. rewrite <-Hde, Hld, total_app. cbn [total snd]. lia. }
  rewrite Hins. cbn [app]. intros s3 Hb3. eapply IH; [exact Hb3|done|rewrite length_app; cbn; lia|rewrite !length_app; cbn; lia| |].
  { rewrite total_app, length_app. cbn [total snd length]. replace (length es + 1 + length files)%nat with (length es + S (length files))%nat by lia. lia. }
  intros s4. rewrite length_app, <-!app_assoc. cbn [length app]. replace (Z.of_nat (length rest + 1) + 2) with (n + 1) by lia. apply HQ.
Qed.

(** ** The size of the root directory *)

(** Another inode for a file, with blocks of the file only. *)
Lemma building_put s C i d x x' s' : building s C -> C !! i = Some x -> node_ok s d x' -> (forall z, owned (vv s) d z -> owned (vv s) (the_inode s i) z) ->
  blocks_of (Z.of_nat (length (snd x'))) = blocks_of (Z.of_nat (length (snd x))) -> put_inode s (Z.of_nat i + 1) d s' -> building s' (<[i := x']> C).
Proof.
  intros [B1 B2 B3 B4 B5 B6 B7 B8] Hi Hd Hown Hbl Hput. pose proof Hput as [P1 P2 P3 P4 P5]. pose proof (lookup_lt_Some _ _ _ Hi) as Hil.
  assert (Hinode : forall j, (j < length C)%nat -> the_inode s' j = if decide (j = i) then d else the_inode s j).
  { intros j Hj. unfold the_inode. rewrite P4 by lia. case_decide as E; [subst; by rewrite Z.eqb_refl|]. by rewrite (proj2 (Z.eqb_neq _ _)) by lia. }
  assert (Hkeep : forall j z, (j < length C)%nat -> owned (vv s') (the_inode s' j) z -> owned (vv s) (the_inode s j) z).
  { intros j z Hj. rewrite Hinode by done. destruct (lookup_lt_is_Some_2 C j Hj) as [y Hy]. case_decide as E.
    - rewrite (proj2 (put_inode_keep s _ _ _ _ _ B1 Hput Hd)). subst j. apply Hown.
    - by rewrite (proj2 (put_inode_keep s _ _ _ _ _ B1 Hput (B6 _ _ Hy))). }
  split; rewrite ?length_insert; try done.
  - rewrite <-vv_view by lia. rewrite P5 by lia. by rewrite vv_view by lia.
  - by rewrite P2.
  - rewrite P3, B5, (total_insert _ _ _ _ Hi). lia.
  - intros j y Hy. destruct (decide (j = i)) as [->|Hj].
    + rewrite list_lookup_insert_eq in Hy by done. injection Hy as <-. rewrite Hinode, decide_True by done. by apply (put_inode_keep s _ _ _ _ _ B1 Hput).
    + rewrite list_lookup_insert_ne in Hy by done. rewrite Hinode, decide_False by (done || by eapply lookup_lt_Some). by apply (put_inode_keep s _ _ _ _ _ B1 Hput), B6.
  - intros y Hy. rewrite P2 in Hy. rewrite P4 by lia. rewrite (proj2 (Z.eqb_neq _ _)) by lia. apply B7. lia.
  - intros j k z Hj Hk Hne Hz Hz'. exact (B8 j k z Hj Hk Hne (Hkeep j z Hj Hz) (Hkeep k z Hk Hz')).
Qed.

Lemma blocks_of_round n : 0 <= n -> n mod 512 <> 0 -> blocks_of ((n / 512 + 1) * 512) = blocks_of n.
Proof.
  intros Hn Hm. pose proof (Z.div_mod n 512 ltac:(lia)) as Hdm. pose proof (Z.mod_pos_bound n 512 ltac:(lia)) as Hmb. unfold blocks_of.
  assert ((n + 511) / 512 = n / 512 + 1) as -> by (symmetry; apply (Z.div_unique _ _ _ (n mod 512 - 1)); lia).
  assert (((n / 512 + 1) * 512 + 511) / 512 = n / 512 + 1) as -> by (symmetry; apply (Z.div_unique _ _ _ 511); lia).
  destruct (Z.ltb_spec 6144 ((n / 512 + 1) * 512)), (Z.ltb_spec 6144 n); lia.
Qed.

(** A file whose size is rounded up to whole blocks is followed by zeroes. *)
Lemma node_round s di ty data (n := Z.of_nat (length data)) (N := (n / 512 + 1) * 512) : node_ok s di (ty, data) -> n mod 512 <> 0 -> n < 71680 ->
  node_ok s (set_size N di) (ty, data ++ replicate (Z.to_nat (N - n)) 0) /\ blocks_of N = blocks_of n.
Proof.
  intros [N1 N2 N3 N4 N5 N6 N7] Hm Hmax. cbn [fst snd] in *. fold n in N4, N6, N7. pose proof (Z.div_mod n 512 ltac:(lia)) as Hdm. pose proof (Z.mod_pos_bound n 512 ltac:(lia)) as Hmb.
  assert (HN : n < N <= 71680 /\ N - n < 512) by lia. destruct N6 as [T1 T2 T3].
  assert (Hlen : Z.of_nat (length (data ++ replicate (Z.to_nat (N - n)) 0)) = N) by (rewrite length_app, length_replicate; lia).
  assert (Hblk : forall bn, bn * 512 < N -> bn * 512 < n) by (intros bn Hbn; lia). split.
  - split; cbn [fst snd]; rewrite ?Hlen; try done.
    + apply resize_wf; [done|unfold MAXFILE; lia|]. intros bn Hbn Hlt. apply T1; [done|by apply Hblk].
    + unfold contents. cbn [di_size set_size]. replace N with (n + (N - n)) by lia. rewrite seqZ_app by lia. rewrite fmap_app. f_equal.
      * rewrite <-N5. unfold contents. by rewrite N4.
      * apply list_eq. intros k. rewrite list_lookup_fmap. destruct (decide (k < Z.to_nat (N - n))%nat) as [Hk|Hk].
        -- rewrite lookup_seqZ_lt, lookup_replicate_2 by lia. cbn. f_equal. apply (N7 (0 + n + Z.of_nat k)); [lia|]. apply T1; [apply Z.div_pos; lia|]. apply Hblk.
           pose proof (Z.mul_div_le (0 + n + Z.of_nat k) 512 ltac:(lia)). lia.
        -- rewrite lookup_seqZ_ge by lia. symmetry. apply lookup_ge_None. rewrite length_replicate. lia.
    + split; [intros bn Hbn Hlt; apply T1; [done|by apply Hblk]|intros bn Hbn Hle; apply T2; lia|intros Hle; apply T3; lia].
    + intros k Hk. apply N7. lia.
  - apply blocks_of_round; [lia|done].
Qed.

Lemma wp_fix_root s data rest (Q : unit -> mkfs -> Prop) (n := Z.of_nat (length data)) (N := (n / 512 + 1) * 512) : building s ((T_DIR, data) :: rest) -> n mod 512 <> 0 -> n < 71680 ->
  (forall s', building s' ((T_DIR, data ++ replicate (Z.to_nat (N - n)) 0) :: rest) -> Q tt s') -> wp (fix_root 1) Q s.
Proof.
  intros Hb Hm Hmax HQ. pose proof Hb as [B1 B2 B3 B4 B5 B6 B7 B8]. pose proof (B6 0%nat _ eq_refl) as Hn. destruct (node_round _ _ _ _ Hn Hm Hmax) as [Hn' Hbl]. fold n N in Hn', Hbl.
  assert (HN : 0 <= N <= 71680) by (subst N; pose proof (Z.mul_div_le n 512 ltac:(lia)); pose proof (Z.div_pos n 512 ltac:(lia) ltac:(lia)); pose proof (no_size _ _ _ Hn'); pose proof (w_size _ _ _ (no_wf _ _ _ Hn')) as Hw; cbn in Hw; unfold MAXFILE in Hw; lia).
  unfold fix_root. wp_step. apply wp_rinode; [done|lia|]. change (disk_inode SB (vv s) 1) with (the_inode s 0). rewrite (no_size _ _ _ Hn). cbn [snd]. fold n.
  rewrite (xint_id n) by (unfold W32; lia). fold N. rewrite u32_small, xint_id by (unfold W32; lia).
  apply wp_winode; [done|lia|apply (no_wf _ _ _ Hn')|]. intros s' Hput. apply HQ.
  apply (building_put s _ 0 _ (T_DIR, data) _ s' Hb eq_refl Hn'); [by intros z| |done].
  rewrite <-(no_size _ _ _ Hn'). cbn [di_size set_size snd]. exact Hbl.
Qed.

(** ** The tree *)

Lemma building_live s C i : building s C -> live SB (vv s) i -> exists k x, i = Z.of_nat k + 1 /\ C !! k = Some x.
Proof.
  intros [B1 B2 B3 B4 B5 B6 B7 B8] [Hi Ht]. cbn in Hi. assert (Hlt : i < freeinode s) by (apply Z.nle_gt; intros Hge; apply Ht, B7; lia).
  exists (Z.to_nat (i - 1)). destruct (lookup_lt_is_Some_2 C (Z.to_nat (i - 1)) ltac:(lia)) as [x Hx]. exists x. split; [lia|done].
Qed.
Lemma building_inode s C k x : building s C -> C !! k = Some x -> fst x <> 0 -> live SB (vv s) (Z.of_nat k + 1) /\ node_ok s (disk_inode SB (vv s) (Z.of_nat k + 1)) x.
Proof.
  intros [B1 B2 B3 B4 B5 B6 B7 B8] Hk Hx. pose proof (lookup_lt_Some _ _ _ Hk). pose proof (B6 _ _ Hk) as Hn. split; [|done]. split; [cbn; lia|]. fold (the_inode s k). by rewrite (no_type _ _ _ Hn).
Qed.

Lemma building_tree s dir rest : building s ((T_DIR, dir) :: rest) -> Forall (fun x => fst x = T_FILE) rest -> (length dir mod 16 = 0)%nat ->
  (forall i, (i < length dir / 16)%nat -> 0 <= de_inum (dent dir i) <= Z.of_nat (length rest) + 1) -> tree_ok SB (vv s).
Proof.
  intros Hb Hf Hm He. assert (Hty : forall k x, ((T_DIR, dir) :: rest) !! k = Some x -> fst x <> 0 /\ (fst x = T_DIR -> k = 0%nat)).
  { intros [|k] x Hk; [by injection Hk as <-|]. pose proof (Forall_lookup_1 _ _ k x Hf Hk) as E. cbn in E. rewrite E. by split. }
  assert (Hroot : forall i, live SB (vv s) i -> di_type (disk_inode SB (vv s) i) = T_DIR -> i = 1).
  { intros i Hl Ht. destruct (building_live s _ i Hb Hl) as (k & x & -> & Hk). destruct (Hty k x Hk) as [H0 H1].
    pose proof (proj2 (building_inode _ _ _ _ Hb Hk H0)) as Hn. rewrite (no_type _ _ _ Hn) in Ht. rewrite (H1 Ht). done. }
  pose proof (proj2 (building_inode s _ 0%nat _ Hb eq_refl (proj1 (Hty 0%nat _ eq_refl)))) as Hn0. change (Z.of_nat 0 + 1) with 1 in Hn0.
  assert (Hdir : dir_of SB (vv s) 1 = dir) by (exact (no_contents _ _ _ Hn0)). split.
  - intros i Hl. destruct (building_live s _ i Hb Hl) as (k & x & -> & Hk). apply (no_wf s _ x). by eapply building_inode; [| |apply (Hty k x Hk)].
  - intros i Hl. destruct (building_live s _ i Hb Hl) as (k & x & -> & Hk). rewrite (no_nlink s _ x); [done|]. by eapply building_inode; [| |apply (Hty k x Hk)].
  - intros i Hl Ht. rewrite (Hroot i Hl Ht). rewrite (no_size _ _ _ Hn0). cbn [snd]. change 16 with (Z.of_nat 16). by rewrite <-Nat2Z.inj_mod, Hm.
  - intros i j Hl Ht. rewrite (Hroot i Hl Ht), Hdir. intros Hj Hne. specialize (He j Hj).
    set (e := de_inum (dent dir j)) in *. destruct (lookup_lt_is_Some_2 ((T_DIR, dir) :: rest) (Z.to_nat (e - 1))) as [x Hx]; [cbn; lia|].
    replace e with (Z.of_nat (Z.to_nat (e - 1)) + 1) by lia. eapply building_inode; [done|exact Hx|]. apply (Hty _ _ Hx).
Qed.

Section ext.
Context (b : superblock) (v w : Z -> block) (Hvw : forall x, w x = v x).
Lemma dir_of_vext i : dir_of b w i = dir_of b v i.
Proof. unfold dir_of. by rewrite (disk_inode_vext b v w Hvw), (contents_vext v w Hvw). Qed.
Lemma resolve_vext es : forall i, resolve b w i es = resolve b v i es.
Proof.
  induction es as [|e es IH]; intros i; cbn [resolve]; [done|]. rewrite (disk_inode_vext b v w Hvw), dir_of_vext. destruct (_ =? _); [|done]. by destruct (dfind _ _).
Qed.
Lemma live_vext i : live b w i <-> live b v i.
Proof. unfold live. by rewrite (disk_inode_vext b v w Hvw). Qed.
Lemma tree_ok_vext : tree_ok b v -> tree_ok b w.
Proof.
  intros [T1 T2 T3 T4]. split; intros *; rewrite ?live_vext, ?(disk_inode_vext b v w Hvw), ?dir_of_vext; auto.
  intros Hl. by apply (inode_wf_vext b v w Hvw), T1.
Qed.
End ext.

(** ** The whole run *)

(** What [mkfs] is given: names that differ, and room for everything. *)
Record job_ok (files : list (list Z * list Z)) : Prop := mk_job_ok {
  jb_files : Forall file_ok files;
  jb_count : (length files <= 198)%nat;
  jb_names : NoDup (cname DIRSIZ <$> [46] :: [46; 46] :: (skip_underscore ∘ fst <$> files));
  jb_room : blocks_of (16 * Z.of_nat (length files + 2)) + total (file_node <$> files) <= 941;
  jb_round : (Z.of_nat (length files) + 2) mod 32 <> 0
}.

Definition root_dir (files : list (list Z * list Z)) : list Z := dir_bytes (dots ++ ents 2 files).
Definition pad (n : Z) : list Z := replicate (Z.to_nat ((n / 512 + 1) * 512 - n)) 0.

Lemma root_mod k : (Z.of_nat k + 2) mod 32 <> 0 -> (16 * Z.of_nat (k + 2)) mod 512 <> 0.
Proof. intros Hk. rewrite Nat2Z.inj_add. change 512 with (16 * 32). rewrite Z.mul_mod_distr_l by lia. change (Z.of_nat 2) with 2. lia. Qed.

Lemma wp_mk_balloc s C (Q : unit -> mkfs -> Prop) : building s C ->
  (forall s', (forall x, view s' x = vv s x) -> length (img s') = 1000%nat -> Q tt s') -> wp (mk_balloc (freeblock s)) Q s.
Proof.
  intros [B1 B2 B3 B4 B5 B6 B7 B8] HQ. pose proof (oi_fb _ B1). unfold mk_balloc. rewrite (proj2 (Z.ltb_lt _ _)) by lia. cbn [negb]. wp_step. wp_step. rewrite (oi_sb _ B1).
  apply wp_wsect; [done|cbn; lia|]. apply HQ; [|cbn; by rewrite length_insert, (oi_len _ B1)].
  intros x. cbn [sb_bmapstart SB]. by rewrite view_put by (done || lia).
Qed.

Lemma wp_mkfs_main files (Q : unit -> mkfs -> Prop) (n := 16 * Z.of_nat (length files + 2)) : job_ok files ->
  (forall s s', building s ((T_DIR, root_dir files ++ pad n) :: (file_node <$> files)) -> (forall x, view s' x = vv s x) -> length (img s') = 1000%nat -> Q tt s') ->
  wp (mkfs_main files) Q mkfs_start.
Proof.
  intros [J1 J2 J3 J4 J5] HQ. pose proof (total_nonneg (file_node <$> files)) as Ht.
  pose proof (root_mod _ J5) as Hn1. fold n in Hn1. assert (Hn2 : n < 71680) by (unfold n; lia). unfold mkfs_main. wp_step. wp_step. rewrite mkfs_sb_SB. cbn [img freeinode mkfs_start].
  wp_step. set (s0 := mk_mkfs _ _ _ _). change 0 with (Z.of_nat (length (img s0))). apply wp_clear. change (mk_mkfs _ _ _ _) with blank. generalize on_image_blank building_formatted. unfold formatted. generalize blank. intros bl Hbl Hf.
  wp_step. apply wp_wsect; [done|lia|]. wp_step. eapply wp_mk_ialloc; [exact Hf|cbn; lia|by left|]. intros s1 Hb1. cbn [length] in *. change (Z.of_nat 0 + 1) with 1. cbn [negb Z.eqb ROOTINO Pos.eqb app] in *.
  assert (Hfit : forall es : list (list Z * Z), (length es <= 2)%nat -> blocks_of (16 * Z.of_nat (length es)) <= 941) by (intros es Hes; pose proof (blocks_of_mono (16 * Z.of_nat (length es)) (16 * Z.of_nat (length files + 2)) ltac:(lia)); lia).
  assert (Hdot : forall s es name (R : unit -> mkfs -> Prop), building s [(T_DIR, dir_bytes es)] -> bytes name -> (length es <= 1)%nat ->
    (forall s', building s' [(T_DIR, dir_bytes (es ++ [(name, 1)]))] -> R tt s') -> wp (iappend 1 (mk_dirent name (xshort 1))) R s).
  { intros s es name R Hb Hn Hes HR. rewrite xshort_id by lia. change 1 with (Z.of_nat 0 + 1) at 1. rewrite dir_bytes_app in HR. cbn [dir_bytes] in HR. rewrite app_nil_r in HR.
    eapply (wp_iappend s _ 0 T_DIR (dir_bytes es)); [exact Hb|done|by apply bytes_mk_dirent|rewrite length_dir_bytes, length_mk_dirent; lia| |done].
    cbn [insert list_insert total snd]. rewrite length_app, length_dir_bytes, length_mk_dirent. specialize (Hfit (es ++ [(name, 1)]) ltac:(rewrite length_app; cbn; lia)). rewrite length_app in Hfit. cbn [length] in Hfit.
    replace (Z.of_nat (16 * length es + 16)) with (16 * Z.of_nat (length es + 1)) by lia. lia. }
  wp_step. apply (Hdot s1 []); [done|by repeat constructor|cbn; lia|]. intros s2 Hb2. wp_step. apply (Hdot s2 [([46], 1)]); [done|by repeat constructor|cbn; lia|]. intros s3 Hb3.
  wp_step. eapply (wp_add_files files s3 dots []); [exact Hb3|done|cbn; lia|done|cbn [length total]; rewrite (Nat.add_comm 2); lia|]. cbn [length app]. change (Z.of_nat 0 + 2) with 2. intros s4 Hb4.
  assert (Hlen : Z.of_nat (length (root_dir files)) = n) by (unfold root_dir; rewrite length_dir_bytes, length_app, length_ents; cbn [length dots]; lia).
  wp_step. eapply wp_fix_root; [exact Hb4|fold (root_dir files); by rewrite Hlen|fold (root_dir files); by rewrite Hlen|]. fold (root_dir files). rewrite Hlen. intros s5 Hb5.
  wp_step. wp_step. eapply wp_mk_balloc; [exact Hb5|]. intros s6. by apply HQ.
Qed.

(** The padding of the root directory is a number of free entries. *)
Lemma pad_entries k : exists m, pad (16 * k) = replicate (16 * m) 0.
Proof.
  exists (Z.to_nat ((16 * k / 512 + 1) * 32 - k)). unfold pad. f_equal. pose proof (Z.mul_div_le (16 * k) 512 ltac:(lia)). pose proof (Z.mod_pos_bound (16 * k) 512 ltac:(lia)).
  pose proof (Z.div_mod (16 * k) 512 ltac:(lia)). lia.
Qed.

Lemma root_blocks files (n := 16 * Z.of_nat (length files + 2)) : (Z.of_nat (length files) + 2) mod 32 <> 0 -> blocks_of (Z.of_nat (length (root_dir files ++ pad n))) = blocks_of n.
Proof.
  intros Hr. rewrite <-(blocks_of_round n) by (unfold n; lia || by apply root_mod). f_equal. unfold root_dir, pad.
  rewrite length_app, length_replicate, length_dir_bytes, length_app, length_ents. cbn [length dots]. pose proof (Z.mod_pos_bound n 512 ltac:(lia)). pose proof (Z.div_mod n 512 ltac:(lia)). lia.
Qed.

Lemma root_entries files : job_ok files -> Forall (fun e => bytes (fst e) /\ 0 < snd e < 65536) (dots ++ ents 2 files) /\ NoDup (cname DIRSIZ <$> (dots ++ ents 2 files).*1) /\
  Forall (fun e => 0 <= snd e <= Z.of_nat (length files) + 1) (dots ++ ents 2 files).
Proof.
  intros [J1 J2 J3 J4 J5]. split_and!.
  - apply Forall_app. split; [by repeat constructor|]. apply Forall_lookup. intros k e Hk. pose proof (ents_inum _ _ _ (list_elem_of_lookup_2 _ _ _ Hk)) as Hi. split; [|lia].
    destruct (lookup_lt_is_Some_2 files k) as [f Hf]; [apply lookup_lt_Some in Hk; by rewrite length_ents in Hk|]. rewrite (ents_lookup _ _ _ _ Hf) in Hk. injection Hk as <-. cbn.
    apply bytes_skip, (fl_name f). exact (Forall_lookup_1 _ _ _ _ J1 Hf).
  - rewrite fmap_app, ents_names. exact J3.
  - apply Forall_app. split; [repeat constructor; cbn; lia|]. apply Forall_forall. intros e He%ents_inum. lia.
Qed.

Lemma root_tree files s (n := 16 * Z.of_nat (length files + 2)) : job_ok files -> building s ((T_DIR, root_dir files ++ pad n) :: (file_node <$> files)) -> tree_ok SB (vv s).
Proof.
  intros HJ Hb. destruct (root_entries files HJ) as (R1 & R2 & R3). destruct (pad_entries (Z.of_nat (length files + 2))) as [m Hm]. fold n in Hm. rewrite Hm in Hb.
  assert (Hlen : length (root_dir files ++ replicate (16 * m) 0) = ((length files + 2 + m) * 16)%nat).
  { unfold root_dir. rewrite length_app, length_replicate, length_dir_bytes, length_app, length_ents. cbn [length dots]. lia. }
  eapply building_tree; [exact Hb|by apply Forall_fmap, Forall_true|rewrite Hlen; apply Nat.Div0.mod_mul|].
  intros i. rewrite Hlen, Nat.div_mul by done. rewrite length_fmap. intros Hi. destruct ((dots ++ ents 2 files) !! i) as [e|] eqn:Ei.
  - unfold root_dir. rewrite (dent_dir_bytes _ _ _ _ Ei). pose proof (Forall_lookup_1 _ _ _ _ R1 Ei) as [_ Hr]. pose proof (Forall_lookup_1 _ _ _ _ R3 Ei) as Hr3. cbn in Hr3. rewrite de_inum_mk by lia. lia.
  - apply lookup_ge_None in Ei. unfold dent, root_dir. rewrite drop_app_ge by (rewrite length_dir_bytes; lia). rewrite drop_replicate, take_replicate.
    unfold de_inum, get16, byte_at. destruct (_ `min` _)%nat as [|[|?]]; cbn; lia.
Qed.


Definition demo_files : list (list Z * list Z) := [([95; 99; 97; 116], [1; 2; 3]); ([82; 69; 65; 68; 77; 69], repeat 7 600)].
Lemma demo_job : job_ok demo_files.
Proof.
  assert (Hb : Forall (fun b : Z => 0 <= b < 256) (repeat 7 600)) by (apply Forall_forall; intros x Hx%list_elem_of_In%repeat_spec; lia).
  split; [|cbn; lia|by apply (bool_decide_unpack _); vm_compute|by vm_compute|by vm_compute].
  repeat constructor; try done; cbn; lia.
Qed.

(** With thirty files the thirty-two entries fill the block of the root directory, and [main]
    rounds its size up to a second block that it has not allocated. *)
Definition thirty_files : list (list Z * list Z) := (fun k => ([Z.of_nat k + 97], [])) <$> seq 0 30.
Lemma root_size_too_large : match mkfs_main thirty_files mkfs_start with
  | Ok _ s' => di_size (disk_inode SB (view s') ROOTINO) = 1024 /\ faddr (view s') (disk_inode SB (view s') ROOTINO) 1 = 0
  | _ => False end.
Proof. vm_compute. split; reflexivity. Qed.
