(* ===== verification/Boot.v ===== *)
(** * The boot loader ([src/xv6/bootmain.c])

    It reads the kernel, an ELF file that starts at sector 1 of the first disk, sector by
    sector into memory.  The headers are looked at where they lie in memory, at the moment the
    source looks at them.  The result is the entry point that is called, or [None] where
    [bootmain] returns to the assembly code.  The theorem holds for every controller that
    answers as the class [Ata] says. *)

From S2P Require Import Prelude Mem Block Disk Console Ide IdeProps Elf.

Record boot (D : Type) : Type := mk_boot { bt_mem : mem; bt_disk : D }.
Arguments mk_boot {D}. Arguments bt_mem {D}. Arguments bt_disk {D}.

Definition SECTSIZE : Z := 512.

(** The bytes of memory from an address on. *)
Definition load_bytes (m : mem) (a n : Z) : list Z := m <$> seqZ a n.

Section boot.
Context {D : Type} `{!IdePorts D}.
#[local] Abbreviation BM := (M (boot D)).

Definition bio {A} (m : M D A) : BM A := zoom bt_disk (fun d s => mk_boot (bt_mem s) d) m.
Definition on_mem (f : mem -> mem) : BM unit := modify (fun s => mk_boot (f (bt_mem s)) (bt_disk s)).

Fixpoint waitdisk (fuel : nat) : BM unit :=
  match fuel with
  | O => fun _ => OutOfFuel
  | S k => let! r := bio (inb 0x1F7) in if negb (Z.land r 0xC0 =? 0x40) then waitdisk k else ret tt
  end.

Definition readsect (fuel : nat) (dst offset : Z) : BM unit :=
  waitdisk fuel ;;;
  bio (outb 0x1F2 1) ;;;
  bio (outb 0x1F3 (u8 offset)) ;;;
  bio (outb 0x1F4 (u8 (Z.shiftr offset 8))) ;;;
  bio (outb 0x1F5 (u8 (Z.shiftr offset 16))) ;;;
  bio (outb 0x1F6 (u8 (Z.lor (Z.shiftr offset 24) 0xE0))) ;;;
  bio (outb 0x1F7 0x20) ;;;
  waitdisk fuel ;;;
  let! d := bio (insl 0x1F0) in
  on_mem (fun m => store_bytes m dst d).

Fixpoint readseg_loop (n fuel : nat) (pa epa offset : Z) : BM unit :=
  match n with
  | O => fun _ => OutOfFuel
  | S k =>
      if pa <? epa then
        readsect fuel pa offset ;;;
        readseg_loop k fuel (u32 (pa + SECTSIZE)) epa (u32 (offset + 1))
      else ret tt
  end.
Definition readseg (n fuel : nat) (pa count offset : Z) : BM unit :=
  let epa := u32 (pa + count) in
  let pa := u32 (pa - offset mod SECTSIZE) in
  let offset := u32 (offset / SECTSIZE + 1) in
  readseg_loop n fuel pa epa offset.

Definition stosb (addr data cnt : Z) : BM unit := on_mem (fun m => store_bytes m addr (repeat (u8 data) (Z.to_nat cnt))).

Definition elf_at : Z := 0x10000.

(** A header in memory. *)
Definition the_elf : BM elfhdr := gets (fun s => get_elfhdr (load_bytes (bt_mem s) elf_at ELFHDR)).
Definition the_ph (ph : Z) : BM proghdr := gets (fun s => get_proghdr (load_bytes (bt_mem s) ph PROGHDR)).

Fixpoint load_all (k n fuel : nat) (ph eph : Z) : BM unit :=
  match k with
  | O => fun _ => OutOfFuel
  | S k =>
      if ph <? eph then
        let! h := the_ph ph in
        let pa := ph_paddr h in
        readseg n fuel pa (ph_filesz h) (ph_off h) ;;;
        let! h := the_ph ph in
        (if ph_filesz h <? ph_memsz h then stosb (u32 (pa + ph_filesz h)) 0 (ph_memsz h - ph_filesz h) else ret tt) ;;;
        load_all k n fuel (u32 (ph + PROGHDR)) eph
      else ret tt
  end.

(** [k] bounds the program headers, [n] the sectors of a segment, [fuel] the polls of the disk. *)
Definition bootmain (k n fuel : nat) : BM (option Z) :=
  readseg n fuel elf_at 4096 0 ;;;
  let! elf := the_elf in
  if negb (elf_magic elf =? ELF_MAGIC) then ret None else
  let ph := u32 (elf_at + elf_phoff elf) in
  let eph := u32 (ph + PROGHDR * elf_phnum elf) in
  load_all k n fuel ph eph ;;;
  let! elf := the_elf in
  ret (Some (elf_entry elf)).
End boot.

(** ** What is loaded *)

Section props.
Context {D : Type} `{!IdePorts D} `{!Ata D}.
Implicit Types (s : boot D) (d : D).

Lemma wp_bio {A} (m : M D A) s (Q : A -> boot D -> Prop) (P : A -> D -> Prop) : wp m P (bt_disk s) ->
  (forall a d, P a d -> Q a (mk_boot (bt_mem s) d)) -> wp (bio m) Q s.
Proof. intros Hm HQ. unfold bio. apply wp_zoom. eapply wp_mono; [exact Hm|]. auto. Qed.

Lemma wp_waitdisk : forall fuel s (Q : unit -> boot D -> Prop), (polls (bt_disk s) < fuel)%nat ->
  (forall d, regs d = regs (bt_disk s) -> request d = request (bt_disk s) -> media d = media (bt_disk s) -> Q tt (mk_boot (bt_mem s) d)) -> wp (waitdisk fuel) Q s.
Proof.
  induction fuel as [|fuel IH]; intros s Q Hf HQ; [lia|]. cbn [waitdisk]. wp_step. eapply wp_bio; [apply ata_status|].
  intros r d (R1 & R2 & R3 & R4 & Herr & Hp). destruct (Z.eqb_spec (Z.land r 0xc0) 0x40) as [E|E]; cbn [negb].
  - wp_step. by apply HQ.
  - destruct (polls (bt_disk s)) as [|n]; [done|]. apply IH; [cbn; lia|]. cbn. intros d' E1 E2 E3. apply HQ; congruence.
Qed.

Lemma boot_sector_regs o : 0 <= o < 16777216 -> let v := u8 (Z.lor (Z.shiftr o 24) 0xE0) in
  u8 o + 256 * u8 (Z.shiftr o 8) + 65536 * u8 (Z.shiftr o 16) + 16777216 * Z.land v 15 = o /\ Z.land (Z.shiftr v 4) 1 = 0.
Proof.
  intros Ho. rewrite !Z.shiftr_div_pow2 by lia. change (2 ^ 8) with 256. change (2 ^ 16) with 65536. change (2 ^ 24) with 16777216.
  rewrite (Z.div_small o 16777216) by lia. intros v. assert (Z.land v 15 = 0) as -> by done. split; [|done]. rewrite Z.mul_0_r. unfold u8. zlia.
Qed.

Lemma wp_readsect fuel dst o s (Q : unit -> boot D -> Prop) : (max_polls < fuel)%nat -> 0 <= o < 16777216 ->
  (forall d, media d = media (bt_disk s) -> Q tt (mk_boot (store_bytes (bt_mem s) dst (media (bt_disk s) 0 o)) d)) -> wp (readsect fuel dst o) Q s.
Proof.
  intros Hf Ho HQ. destruct (boot_sector_regs o Ho) as [Hsec Hdr]. unfold readsect. wp_step. apply wp_waitdisk; [pose proof (ata_polls (bt_disk s)); lia|]. intros d0 A1 A2 A3.
  do 6 (wp_step; eapply wp_bio; [apply ata_out|]; intros [] ? (? & ? & ? & ?); cbn [bt_mem bt_disk Z.eqb Pos.eqb] in * ).
  wp_step. apply wp_waitdisk; [match goal with |- (polls ?d < _)%nat => pose proof (ata_polls d) end; lia|]. cbn [bt_mem bt_disk]. intros e1 B1 B2 B3.
  assert (Hreq : request e1 = Some (false, 0, o)).
  { rewrite B2. match goal with H : request ?a = request_of _ _ |- request ?a = _ => rewrite H end. repeat match goal with H : regs _ = set_reg _ _ _ |- _ => rewrite H; clear H end.
    cbn [set_reg Z.eqb Pos.eqb]. unfold request_of, r_drive, r_sector. cbn [r_count r_lba0 r_lba1 r_lba2 r_dev Z.eqb Pos.eqb]. by rewrite Hsec, Hdr. }
  wp_step. eapply wp_bio; [apply ata_insl; exact Hreq|]. cbn [bt_mem bt_disk]. intros x e2 (-> & C1 & C2 & C3). unfold on_mem. wp_step. cbn [bt_mem bt_disk].
  assert (Hm : media e1 = media (bt_disk s)) by congruence. rewrite Hm. apply HQ. congruence.
Qed.

(** Byte [i] of the kernel file. *)
Definition kbyte d (i : Z) : Z := byte_at (media d 0 (i / 512 + 1)) (Z.to_nat (i mod 512)).
Definition sectors d : Prop := forall o, length (media d 0 o) = 512%nat.

(** The bytes of the file from [i] on are at [lo .. hi), and at most a sector behind it has changed. *)
Record loaded d (lo hi i : Z) (m m' : mem) : Prop := mk_loaded {
  ld_bytes x : lo <= x < hi -> m' x = kbyte d (x - lo + i);
  ld_frame x : x < lo \/ hi + 512 <= x -> m' x = m x
}.

Lemma store_sector d m a o x : sectors d -> store_bytes m a (media d 0 o) x = if (a <=? x) && (x <? a + 512) then byte_at (media d 0 o) (Z.to_nat (x - a)) else m x.
Proof. intros Hs. unfold store_bytes. by rewrite Hs. Qed.

Lemma wp_readseg_loop fuel : forall n pa epa o s (Q : unit -> boot D -> Prop), (max_polls < fuel)%nat -> sectors (bt_disk s) -> 0 <= pa -> epa + 512 <= W32 -> 0 < o ->
  epa - pa <= 512 * (16777215 - o) -> epa - pa <= 512 * (Z.of_nat n - 1) -> (0 < n)%nat ->
  (forall d m', media d = media (bt_disk s) -> loaded (bt_disk s) pa epa (512 * (o - 1)) (bt_mem s) m' -> Q tt (mk_boot m' d)) -> wp (readseg_loop n fuel pa epa o) Q s.
Proof.
  unfold W32. induction n as [|n IH]; intros pa epa o s Q Hf Hs Hpa Hepa Ho Hsec Hn Hn0 HQ; [lia|]. cbn [readseg_loop]. destruct (Z.ltb_spec pa epa) as [Hlt|Hge].
  - wp_step. apply wp_readsect; [done|lia|]. intros d1 Hm1. unfold SECTSIZE. rewrite !u32_small by (unfold W32; lia).
    assert (Hs1 : sectors d1) by (intros z; rewrite Hm1; apply Hs).
    apply IH; cbn [bt_disk bt_mem]; [done|done|lia|lia|lia|lia|lia|lia|]. intros d2 m2 Hm2 [L1 L2]. apply HQ; [congruence|]. split.
    + intros x Hx. destruct (decide (pa + 512 <= x)) as [Hge|Hl].
      * rewrite L1 by lia. unfold kbyte. rewrite Hm1. by replace (x - (pa + 512) + 512 * (o + 1 - 1)) with (x - pa + 512 * (o - 1)) by lia.
      * rewrite L2 by lia. rewrite store_sector by done. rewrite (proj2 (Z.leb_le _ _)), (proj2 (Z.ltb_lt _ _)) by lia. cbn [andb]. unfold kbyte.
        replace (x - pa + 512 * (o - 1)) with ((o - 1) * 512 + (x - pa)) by lia. rewrite Z.div_add_l by lia. rewrite (Z.add_comm _ (x - pa)), Z.mod_add, Z.mod_small, Z.div_small by lia. do 2 f_equal. lia.
    + intros x Hx. rewrite L2 by lia. rewrite store_sector by done. destruct (Z.leb_spec pa x), (Z.ltb_spec x (pa + 512)); cbn; done || lia.
  - wp_step. destruct s as [m0 d0]. apply HQ; [done|]. split; [lia|done].
Qed.

Lemma wp_readseg fuel n pa count off s (Q : unit -> boot D -> Prop) (r := off mod 512) : (max_polls < fuel)%nat -> sectors (bt_disk s) -> 0 <= count -> 0 <= off -> r <= pa -> pa + count + 512 <= W32 ->
  off + count < W32 -> r + count <= 512 * (Z.of_nat n - 1) -> (0 < n)%nat ->
  (forall d m', media d = media (bt_disk s) -> loaded (bt_disk s) (pa - r) (pa + count) (off - r) (bt_mem s) m' -> Q tt (mk_boot m' d)) -> wp (readseg n fuel pa count off) Q s.
Proof.
  intros Hf Hs Hc Ho Hr Hw Hoc Hn Hn0 HQ. pose proof (Z.div_mod off 512 ltac:(lia)) as Hdm. pose proof (Z.mod_pos_bound off 512 ltac:(lia)) as Hmb. fold r in Hdm, Hmb. unfold W32 in *.
  unfold readseg, SECTSIZE. fold r. rewrite !u32_small by (unfold W32; lia). apply wp_readseg_loop; [done|done|lia|unfold W32; lia|lia|lia|lia|done|].
  intros d m' Hm Hl. apply HQ; [done|]. replace (off - r) with (512 * (off / 512 + 1 - 1)) by lia. exact Hl.
Qed.

(** ** The segments *)

Definition kheader d : elfhdr := get_elfhdr (kbyte d <$> seqZ 0 ELFHDR).
Definition kph d (i : Z) : proghdr := get_proghdr (kbyte d <$> seqZ (elf_phoff (kheader d) + PROGHDR * i) PROGHDR).

(** Where the loading of a segment starts. *)
Definition seg_lo (h : proghdr) : Z := ph_paddr h - ph_off h mod 512.
Definition seg_hi (h : proghdr) : Z := ph_paddr h + ph_memsz h.

(** A kernel file that the loader can load: its headers are in the first page, its segments
    are above the page with the headers, and each one is loaded above the ones before it. *)
Record bootable d (n : nat) : Prop := mk_bootable {
  bo_sectors : sectors d;
  bo_magic : elf_magic (kheader d) = ELF_MAGIC;
  bo_headers : 0 <= elf_phoff (kheader d) /\ 0 <= elf_phnum (kheader d) /\ elf_phoff (kheader d) + PROGHDR * elf_phnum (kheader d) <= 4096;
  bo_scratch i : 0 <= i < elf_phnum (kheader d) -> elf_at + 4096 <= seg_lo (kph d i);
  bo_sizes i : 0 <= i < elf_phnum (kheader d) -> 0 <= ph_filesz (kph d i) <= ph_memsz (kph d i) /\ 0 <= ph_off (kph d i);
  bo_range i : 0 <= i < elf_phnum (kheader d) -> seg_hi (kph d i) + 512 <= W32 /\ ph_off (kph d i) + ph_filesz (kph d i) < W32;
  bo_order i j : 0 <= i < j -> j < elf_phnum (kheader d) -> seg_hi (kph d i) <= seg_lo (kph d j);
  bo_fuel i : 0 <= i < elf_phnum (kheader d) -> ph_filesz (kph d i) <= 512 * (Z.of_nat n - 2)
}.

(** A segment in memory: the bytes of the file, then zeroes. *)
Definition in_place d (m : mem) (h : proghdr) : Prop :=
  (forall x, 0 <= x < ph_filesz h -> m (ph_paddr h + x) = kbyte d (ph_off h + x)) /\ (forall x, ph_filesz h <= x < ph_memsz h -> m (ph_paddr h + x) = 0).

(** The first page of the file at its place. *)
Definition scratch d (m : mem) : Prop := forall x, 0 <= x < 4096 -> m (elf_at + x) = kbyte d x.

Lemma scratch_bytes d m i n : scratch d m -> 0 <= i -> 0 <= n -> i + n <= 4096 -> load_bytes m (elf_at + i) n = kbyte d <$> seqZ i n.
Proof.
  intros Hs Hi Hn Hl. unfold load_bytes. apply list_eq. intros k. rewrite !list_lookup_fmap. destruct (decide (Z.of_nat k < n)) as [Hk|Hk].
  - rewrite !lookup_seqZ_lt by lia. cbn. f_equal. rewrite <-Z.add_assoc. apply Hs. lia.
  - by rewrite !lookup_seqZ_ge by lia.
Qed.
Lemma scratch_elf d m : scratch d m -> get_elfhdr (load_bytes m elf_at ELFHDR) = kheader d.
Proof. intros Hs. unfold kheader. f_equal. rewrite <-(Z.add_0_r elf_at). by apply scratch_bytes. Qed.
Lemma kbyte_media d d' : media d = media d' -> kbyte d = kbyte d'.
Proof. intros E. unfold kbyte. by rewrite E. Qed.

(** One round of the loop: the segment is in place, those before it stay. *)
Lemma segment_step d n i m m' (h := kph d i) : bootable d n -> 0 <= i < elf_phnum (kheader d) -> scratch d m -> (forall j, 0 <= j < i -> in_place d m (kph d j)) ->
  loaded d (seg_lo h) (ph_paddr h + ph_filesz h) (ph_off h - ph_off h mod 512) m m' ->
  scratch d m' /\ let m2 := if ph_filesz h <? ph_memsz h then store_bytes m' (ph_paddr h + ph_filesz h) (repeat 0 (Z.to_nat (ph_memsz h - ph_filesz h))) else m' in
  scratch d m2 /\ forall j, 0 <= j < i + 1 -> in_place d m2 (kph d j).
Proof.
  intros [B1 B2 B3 B4 B5 B6 B7 B8] Hi Hsc Hin [L1 L2]. destruct (B5 i Hi) as [Hsz Hoff]. pose proof (B4 i Hi) as Hlo. fold h in Hsz, Hlo, Hoff. pose proof (Z.mod_pos_bound (ph_off h) 512 ltac:(lia)) as Hm.
  assert (Hlow : forall x, x < seg_lo h -> m' x = m x) by (intros x Hx; apply L2; by left).
  assert (Hsc' : scratch d m') by (intros x Hx; rewrite Hlow by lia; by apply Hsc). split; [done|]. intros m2.
  assert (Hm2 : forall x, m2 x = if (ph_paddr h + ph_filesz h <=? x) && (x <? ph_paddr h + ph_memsz h) then 0 else m' x).
  { intros x. unfold m2. destruct (Z.ltb_spec (ph_filesz h) (ph_memsz h)) as [Hlt|Hge].
    - unfold store_bytes. rewrite repeat_length, Z2Nat.id by lia. replace (ph_paddr h + ph_filesz h + (ph_memsz h - ph_filesz h)) with (ph_paddr h + ph_memsz h) by lia.
      destruct (_ && _) eqn:E; [|done]. destruct (repeat 0 _ !! _) as [y|] eqn:Ey; [|done]. by apply list_elem_of_lookup_2, list_elem_of_In, repeat_spec in Ey.
    - destruct (Z.leb_spec (ph_paddr h + ph_filesz h) x), (Z.ltb_spec x (ph_paddr h + ph_memsz h)); cbn; done || lia. }
  unfold seg_lo in *. assert (Hlow2 : forall x, x < ph_paddr h - ph_off h mod 512 -> m2 x = m x) by (intros x Hx; rewrite Hm2, (proj2 (Z.leb_gt _ _)) by lia; by apply Hlow).
  split; [intros x Hx; rewrite Hlow2 by lia; by apply Hsc|]. intros j Hj. destruct (decide (j = i)) as [->|Hne].
  - fold h. split; intros x Hx; rewrite Hm2.
    + rewrite (proj2 (Z.leb_gt _ _)) by lia. cbn [andb]. rewrite L1 by lia. f_equal. lia.
    + by rewrite (proj2 (Z.leb_le _ _)), (proj2 (Z.ltb_lt _ _)) by lia.
  - destruct (Hin j ltac:(lia)) as [I1 I2]. pose proof (B7 j i ltac:(lia) ltac:(lia)) as Hord. destruct (B5 j ltac:(lia)) as [Hszj _]. unfold seg_hi, seg_lo in Hord. fold h in Hord.
    split; intros x Hx; rewrite Hlow2 by lia; auto.
Qed.

Lemma wp_load_all d n fuel : bootable d n -> (max_polls < fuel)%nat -> forall k i s (Q : unit -> boot D -> Prop) (N := elf_phnum (kheader d)) (a := elf_at + elf_phoff (kheader d)),
  media (bt_disk s) = media d -> scratch d (bt_mem s) -> 0 <= i <= N -> (forall j, 0 <= j < i -> in_place d (bt_mem s) (kph d j)) -> N - i < Z.of_nat k ->
  (forall s', scratch d (bt_mem s') -> (forall j, 0 <= j < N -> in_place d (bt_mem s') (kph d j)) -> Q tt s') ->
  wp (load_all k n fuel (a + PROGHDR * i) (a + PROGHDR * N)) Q s.
Proof.
  intros Hb Hf. pose proof Hb as [B1 B2 B3 B4 B5 B6 B7 B8]. induction k as [|k IH]; intros i s Q N a Hm Hsc Hi Hin Hk HQ; [lia|]. cbn [load_all].
  assert (HN : N = elf_phnum (kheader d)) by done. assert (Ha : a = 0x10000 + elf_phoff (kheader d)) by done.
  destruct (Z.ltb_spec (a + PROGHDR * i) (a + PROGHDR * N)) as [Hlt|Hge]; unfold PROGHDR in *; [|wp_step; apply HQ; [done|]; intros j Hj; apply Hin; lia].
  assert (HiN : 0 <= i < N) by lia. set (h := kph d i). assert (Hph : forall m, scratch d m -> get_proghdr (load_bytes m (a + 32 * i) 32) = h).
  { intros m Hs'. unfold h, kph. f_equal. unfold a, PROGHDR. rewrite <-Z.add_assoc. apply scratch_bytes; [done|lia|lia|lia]. }
  pose proof (B4 i HiN) as Hlo. destruct (B5 i HiN) as [Hsz Hoff]. destruct (B6 i HiN) as [Hhi Hoc]. pose proof (B8 i HiN) as Hfu. fold h in Hlo, Hsz, Hoff, Hhi, Hoc, Hfu. unfold seg_lo, seg_hi, elf_at in Hlo, Hhi.
  pose proof (Z.mod_pos_bound (ph_off h) 512 ltac:(lia)) as Hmod. wp_step. unfold the_ph. wp_step. rewrite Hph by done.
  wp_step. apply wp_readseg; [done|intros o; rewrite Hm; apply B1|lia|lia|lia|lia|lia|lia|lia|]. intros d1 m1 Hm1 Hl. rewrite Hm in Hm1.
  assert (Hl' : loaded d (seg_lo h) (ph_paddr h + ph_filesz h) (ph_off h - ph_off h mod 512) (bt_mem s) m1) by (destruct Hl as [L1 L2]; split; [intros x Hx; rewrite L1 by done; by rewrite (kbyte_media _ _ Hm)|done]).
  destruct (segment_step d n i (bt_mem s) m1 Hb HiN Hsc Hin Hl') as (Hsc1 & Hsc2 & Hin2). fold h in Hsc2, Hin2. cbv zeta in Hsc2, Hin2.
  assert (Hnext : forall m2, scratch d m2 -> (forall j, 0 <= j < i + 1 -> in_place d m2 (kph d j)) -> wp (load_all k n fuel (u32 (a + 32 * i + 32)) (a + 32 * N)) Q (mk_boot m2 d1)).
  { intros m2 Hs2 Hi2. rewrite u32_small by (unfold W32; lia). replace (a + 32 * i + 32) with (a + 32 * (i + 1)) by lia. apply IH; [done|done|lia|done|lia|done]. }
  wp_step. wp_step. cbn [bt_mem]. rewrite Hph by done. wp_step. destruct (ph_filesz h <? ph_memsz h).
  - unfold stosb, on_mem. wp_step. rewrite (u32_small (ph_paddr h + ph_filesz h)) by (unfold W32 in *; lia). change (u8 0) with 0. cbn [bt_mem bt_disk]. apply Hnext; [exact Hsc2|exact Hin2].
  - wp_step. apply Hnext; [exact Hsc2|exact Hin2].
Qed.

(** C7: The boot loader loads the kernel: from a disk whose kernel file can be loaded, [bootmain]
    puts every segment at its physical address, the bytes of the file followed by zeroes up
    to the size in memory, although it reads whole sectors, and calls the entry point of the
    ELF header. *)
Theorem bootmain_loads k n fuel s : bootable (bt_disk s) n -> (8 < n)%nat -> elf_phnum (kheader (bt_disk s)) < Z.of_nat k -> (max_polls < fuel)%nat ->
  exists s', bootmain k n fuel s = Ok (Some (elf_entry (kheader (bt_disk s)))) s' /\
    forall i, 0 <= i < elf_phnum (kheader (bt_disk s)) -> in_place (bt_disk s) (bt_mem s') (kph (bt_disk s) i).
Proof.
  intros Hb Hn Hk Hf. set (d := bt_disk s) in *. pose proof Hb as [B1 B2 B3 B4 B5 B6 B7 B8].
  cut (wp (bootmain k n fuel) (fun r s' => r = Some (elf_entry (kheader d)) /\ forall i, 0 <= i < elf_phnum (kheader d) -> in_place d (bt_mem s') (kph d i)) s).
  { intros (r & s' & E & -> & H)%wp_ok. by exists s'. }
  unfold bootmain. wp_step. apply wp_readseg; [done|done|lia|lia|by vm_compute|unfold elf_at, W32; lia|unfold W32; lia|change (0 mod 512) with 0; lia|lia|]. intros d1 m1 Hm1 Hl.
  change (0 mod 512) with 0 in Hl. rewrite !Z.sub_0_r in Hl. destruct Hl as [L1 L2].
  assert (Hsc : scratch d m1) by (intros x Hx; rewrite L1 by lia; f_equal; lia).
  wp_step. unfold the_elf. wp_step. cbn [bt_mem]. rewrite (scratch_elf d m1 Hsc). rewrite B2, Z.eqb_refl. cbn [negb]. unfold PROGHDR in *.
  rewrite !u32_small by (unfold W32, elf_at; lia). wp_step. replace (elf_at + elf_phoff (kheader d)) with (elf_at + elf_phoff (kheader d) + PROGHDR * 0) at 1 by lia.
  apply (wp_load_all d n fuel Hb Hf k 0); [done|done|lia|lia|lia|]. intros s' Hsc' Hin. wp_step. wp_step. rewrite (scratch_elf d _ Hsc'). done.
Qed.
End props.

(** A kernel of one segment: ten bytes of the file at offset 600, and ten zeroes. *)
Definition demo_sector : list Z :=
  bytes32 ELF_MAGIC ++ repeat 0 12 ++ bytes32 0 ++ bytes32 0 ++ bytes32 0x10000c ++ bytes32 52 ++ repeat 0 12 ++ [1; 0] ++ repeat 0 6 ++
  bytes32 1 ++ bytes32 600 ++ bytes32 0x80100000 ++ bytes32 0x100000 ++ bytes32 10 ++ bytes32 20 ++ bytes32 0 ++ bytes32 0 ++ repeat 0 428.
Definition demo_disk : ata_dev := mk_ata (mk_areg 0 0 0 0 0) None (fun _ o => if o =? 1 then demo_sector else repeat 7 512) [] 0.

Lemma demo_phnum : elf_phnum (kheader demo_disk) = 1.
Proof. vm_compute. reflexivity. Qed.
Lemma demo_entry : elf_entry (kheader demo_disk) = 0x10000c.
Proof. vm_compute. reflexivity. Qed.
Lemma demo_ph : kph demo_disk 0 = mk_proghdr 1 600 0x80100000 0x100000 10 20 0 0.
Proof. vm_compute. reflexivity. Qed.
Lemma demo_bootable : bootable demo_disk 9.
Proof.
  split; rewrite ?demo_phnum.
  - intros o. cbn [media ata_ata at_media demo_disk]. by destruct (o =? 1).
  - vm_compute. reflexivity.
  - vm_compute. by split_and!.
  - intros i Hi. assert (i = 0) as -> by lia. rewrite demo_ph. by vm_compute.
  - intros i Hi. assert (i = 0) as -> by lia. rewrite demo_ph. cbn. lia.
  - intros i Hi. assert (i = 0) as -> by lia. rewrite demo_ph. unfold seg_hi, W32. cbn [ph_paddr ph_memsz ph_off ph_filesz]. lia.
  - lia.
  - intros i Hi. assert (i = 0) as -> by lia. rewrite demo_ph. cbn. lia.
Qed.
Lemma demo_bytes : kbyte demo_disk (600 + 9) = 7.
Proof. vm_compute. reflexivity. Qed.
Lemma bootmain_loads_witness : exists s', bootmain 2 9 3 (mk_boot (fun _ => 1) demo_disk) = Ok (Some 0x10000c) s' /\ bt_mem s' (0x100000 + 9) = 7 /\ bt_mem s' (0x100000 + 10) = 0.
Proof.
  destruct (bootmain_loads 2 9 3 (mk_boot (fun _ => 1) demo_disk) demo_bootable) as (s' & E & H); cbn [bt_disk] in *; rewrite ?demo_phnum, ?demo_entry in *; [lia|lia|cbn; lia|].
  exists s'. split; [exact E|]. destruct (H 0 ltac:(lia)) as [H1 H2]. rewrite demo_ph in H1, H2. cbn [ph_filesz ph_memsz ph_paddr ph_off] in H1, H2.
  split; [rewrite (H1 9 ltac:(lia)); exact demo_bytes|exact (H2 10 ltac:(lia))].
Defined.
