(* ===== verification/Mp.v ===== *)
(** * The search for processors ([src/xv6/mp.c], [src/xv6/mp.h])

    The BIOS leaves a floating pointer structure and a configuration table in low memory.
    [mpinit] walks over the entries of the table with a pointer; its loop has fuel, since the
    source does not advance the pointer over an entry of an unknown type. *)

From S2P Require Import Prelude Mem CString Mmu Console.

Definition MPPROC : Z := 0.
Definition MPBUS : Z := 1.
Definition MPIOAPIC : Z := 2.
Definition MPIOINTR : Z := 3.
Definition MPLINTR : Z := 4.
Definition NCPU : nat := 8.

(** [struct mp], at an address *)
Definition sizeof_mp : Z := 16.
Definition mp_physaddr (m : mem) (p : Z) : Z := load32 m (p + 4).
Definition mp_imcrp (m : mem) (p : Z) : Z := m (p + 12).
(** [struct mpconf] *)
Definition sizeof_mpconf : Z := 44.
Definition conf_length (m : mem) (c : Z) : Z := m (c + 4) + 256 * m (c + 5).
Definition conf_version (m : mem) (c : Z) : Z := m (c + 6).
Definition conf_lapicaddr (m : mem) (c : Z) : Z := load32 m (c + 36).
(** [struct mpproc] and [struct mpioapic] *)
Definition sizeof_mpproc : Z := 20.
Definition proc_apicid (m : mem) (p : Z) : Z := m (p + 1).
Definition sizeof_mpioapic : Z := 8.
Definition ioapic_apicno (m : mem) (p : Z) : Z := m (p + 1).

Fixpoint sum_loop (m : mem) (addr : Z) (n : nat) (sum : Z) : Z :=
  match n with O => sum | S k => sum_loop m (addr + 1) k (sum + m addr) end.
Definition sum (m : mem) (addr len : Z) : Z := u8 (sum_loop m addr (Z.to_nat len) 0).

(** Four bytes against a string constant. *)
Definition sig_is (m : mem) (p : Z) (sig : list Z) : bool := bool_decide (m <$> seqZ p 4 = sig).
Definition MP_SIG : list Z := [95; 77; 80; 95].
Definition PCMP_SIG : list Z := [80; 67; 77; 80].

Fixpoint mpsearch1_loop (n : nat) (m : mem) (p e : Z) : option Z :=
  match n with
  | O => None
  | S k =>
      if p <? e then
        if sig_is m p MP_SIG && (sum m p sizeof_mp =? 0) then Some p else mpsearch1_loop k m (p + sizeof_mp) e
      else None
  end.
Definition mpsearch1 (m : mem) (a len : Z) : option Z :=
  let addr := P2V a in
  mpsearch1_loop (Z.to_nat len) m addr (addr + len).

Definition mpsearch (m : mem) : option Z :=
  let bda := P2V 0x400 in
  let rom := mpsearch1 m 0xF0000 0x10000 in
  let p := Z.shiftl (Z.lor (Z.shiftl (m (bda + 0x0F)) 8) (m (bda + 0x0E))) 4 in
  if negb (p =? 0) then match mpsearch1 m p 1024 with Some mp => Some mp | None => rom end
  else
    let p := Z.lor (Z.shiftl (m (bda + 0x14)) 8) (m (bda + 0x13)) * 1024 in
    match mpsearch1 m (u32 (p - 1024)) 1024 with Some mp => Some mp | None => rom end.

(** The floating structure and the table. *)
Definition mpconfig (m : mem) : option (Z * Z) :=
  match mpsearch m with
  | None => None
  | Some mp =>
      if mp_physaddr m mp =? 0 then None else
      let conf := P2V (mp_physaddr m mp) in
      if negb (sig_is m conf PCMP_SIG) then None else
      if negb (conf_version m conf =? 1) && negb (conf_version m conf =? 4) then None else
      if negb (sum m conf (conf_length m conf) =? 0) then None else
      Some (mp, conf)
  end.

(** The variables that [mpinit] sets: [cpus] up to [ncpu], by their [apicid]. *)
Record mpst (D : Type) : Type := mk_mpst { mp_mem : mem; cpus : list Z; ioapicid : Z; lapic : Z; mp_ports : D }.
Arguments mk_mpst {D}. Arguments mp_mem {D}. Arguments cpus {D}. Arguments ioapicid {D}. Arguments lapic {D}. Arguments mp_ports {D}.

Section mp.
Context {D : Type} `{!Ports D}.
#[local] Abbreviation PM := (M (mpst D)).

Definition set_cpus x (s : mpst D) := mk_mpst (mp_mem s) x (ioapicid s) (lapic s) (mp_ports s).
Definition set_ioapicid x (s : mpst D) := mk_mpst (mp_mem s) (cpus s) x (lapic s) (mp_ports s).
Definition set_lapic x (s : mpst D) := mk_mpst (mp_mem s) (cpus s) (ioapicid s) x (mp_ports s).
Definition mp_io {A} (m : M D A) : PM A := zoom mp_ports (fun d s => mk_mpst (mp_mem s) (cpus s) (ioapicid s) (lapic s) d) m.

(** The result is [ismp]. *)
Fixpoint mp_entries (fuel : nat) (p e : Z) (ismp : bool) : PM bool :=
  match fuel with
  | O => fun _ => OutOfFuel
  | S k =>
      if p <? e then
        let! m := gets mp_mem in
        let t := m p in
        if t =? MPPROC then
          let! l := gets cpus in
          (if Nat.ltb (length l) NCPU then modify (set_cpus (l ++ [proc_apicid m p])) else ret tt) ;;;
          mp_entries k (p + sizeof_mpproc) e ismp
        else if t =? MPIOAPIC then
          modify (set_ioapicid (ioapic_apicno m p)) ;;;
          mp_entries k (p + sizeof_mpioapic) e ismp
        else if (t =? MPBUS) || (t =? MPIOINTR) || (t =? MPLINTR) then mp_entries k (p + 8) e ismp
        else mp_entries k p e false
      else ret ismp
  end.

Definition mpinit (fuel : nat) : PM unit :=
  let! m := gets mp_mem in
  match mpconfig m with
  | None => panic "Expect to run on an SMP"
  | Some (mp, conf) =>
      modify (set_lapic (conf_lapicaddr m conf)) ;;;
      let! ismp := mp_entries fuel (conf + sizeof_mpconf) (conf + conf_length m conf) true in
      if negb ismp then panic "Didn't find a suitable machine" else
      if negb (mp_imcrp m mp =? 0) then
        mp_io (outb 0x22 0x70) ;;;
        let! x := mp_io (inb 0x23) in
        mp_io (outb 0x23 (u8 (Z.lor x 1)))
      else ret tt
  end.
End mp.

(** ** The search *)

Definition is_mp (m : mem) (p : Z) : bool := sig_is m p MP_SIG && (sum m p sizeof_mp =? 0).

(** The first of the [k] paragraphs from [p] on that holds a structure. *)
Lemma mpsearch1_loop_spec m e : forall n p k, e = p + 16 * Z.of_nat k -> (k <= n)%nat ->
  match mpsearch1_loop n m p e with
  | Some q => exists j, (j < k)%nat /\ q = p + 16 * Z.of_nat j /\ is_mp m q = true /\ forall i, (i < j)%nat -> is_mp m (p + 16 * Z.of_nat i) = false
  | None => forall i, (i < k)%nat -> is_mp m (p + 16 * Z.of_nat i) = false
  end.
Proof.
  unfold sizeof_mp. induction n as [|n IH]; intros p k He Hk; cbn [mpsearch1_loop].
  { intros i Hi. lia. }
  destruct (Z.ltb_spec p e) as [Hlt|Hge]; [|intros i Hi; lia]. fold (is_mp m p). destruct (is_mp m p) eqn:Hp.
  - exists 0%nat. rewrite Z.add_0_r. split_and!; try done; lia.
  - destruct k as [|k]; [lia|]. specialize (IH (p + 16) k ltac:(lia) ltac:(lia)). unfold sizeof_mp. destruct (mpsearch1_loop n m (p + 16) e) as [q|].
    + destruct IH as (j & Hj & -> & Hm & Hf). exists (S j). split_and!; [lia|lia|done|]. intros [|i] Hi; [by rewrite Z.add_0_r|]. replace (p + 16 * Z.of_nat (S i)) with (p + 16 + 16 * Z.of_nat i) by lia. apply Hf. lia.
    + intros [|i] Hi; [by rewrite Z.add_0_r|]. replace (p + 16 * Z.of_nat (S i)) with (p + 16 + 16 * Z.of_nat i) by lia. apply IH. lia.
Qed.

(** What [mpconfig] accepts. *)
Record table_ok (m : mem) (mp conf : Z) : Prop := mk_table_ok {
  tb_mp : is_mp m mp = true;
  tb_conf : conf = P2V (mp_physaddr m mp);
  tb_sig : m <$> seqZ conf 4 = PCMP_SIG;
  tb_version : conf_version m conf = 1 \/ conf_version m conf = 4;
  tb_sum : sum m conf (conf_length m conf) = 0
}.

Lemma mpsearch1_mp m a k q : mpsearch1 m a (16 * Z.of_nat k) = Some q -> is_mp m q = true.
Proof.
  intros H. pose proof (mpsearch1_loop_spec m (P2V a + 16 * Z.of_nat k) (Z.to_nat (16 * Z.of_nat k)) (P2V a) k eq_refl ltac:(lia)) as Hs.
  unfold mpsearch1 in H. cbv zeta in H. rewrite H in Hs. by destruct Hs as (j & _ & _ & Hm & _).
Qed.
Lemma mpsearch_mp m q : mpsearch m = Some q -> is_mp m q = true.
Proof.
  unfold mpsearch. cbv zeta. change 1024 with (16 * Z.of_nat 64). change 0x10000 with (16 * Z.of_nat 4096).
  destruct (negb _); (destruct (mpsearch1 m _ (16 * Z.of_nat 64)) as [p|] eqn:E; [intros [= <-]; by eapply mpsearch1_mp|]); intros H; by eapply mpsearch1_mp.
Qed.
Lemma mpconfig_ok m mp conf : mpconfig m = Some (mp, conf) -> table_ok m mp conf.
Proof.
  unfold mpconfig. destruct (mpsearch m) as [q|] eqn:E; [|done]. apply mpsearch_mp in E. destruct (mp_physaddr m q =? 0); [done|]. cbv zeta. set (c := P2V _).
  destruct (sig_is m c PCMP_SIG) eqn:Es; [|done]. cbn [negb]. destruct (negb (conf_version m c =? 1) && negb (conf_version m c =? 4)) eqn:Ev; [done|].
  destruct (Z.eqb_spec (sum m c (conf_length m c)) 0) as [Hz|]; [|done]. cbn [negb]. intros [= <- <-]. split; [done|done|by apply bool_decide_eq_true in Es| |done].
  apply andb_false_iff in Ev as [Ev|Ev]; apply negb_false_iff, Z.eqb_eq in Ev; auto.
Qed.

(** ** The table *)

(** The entries from [p] to [e]: the APIC ids of the processors and of the I/O APICs. *)
Inductive entries (m : mem) (e : Z) : Z -> list Z -> list Z -> Prop :=
| entries_end p : e <= p -> entries m e p [] []
| entries_proc p ps ios : p < e -> m p = MPPROC -> entries m e (p + sizeof_mpproc) ps ios -> entries m e p (proc_apicid m p :: ps) ios
| entries_ioapic p ps ios : p < e -> m p = MPIOAPIC -> entries m e (p + sizeof_mpioapic) ps ios -> entries m e p ps (ioapic_apicno m p :: ios)
| entries_other p ps ios : p < e -> m p = MPBUS \/ m p = MPIOINTR \/ m p = MPLINTR -> entries m e (p + 8) ps ios -> entries m e p ps ios.

Section mp_props.
Context {D : Type} `{!Ports D}.

Lemma take_snoc_le {A} n (l : list A) x r : (length l <= n)%nat -> take n (l ++ x :: r) = take n ((if Nat.ltb (length l) n then l ++ [x] else l) ++ r).
Proof.
  intros Hl. destruct (Nat.ltb_spec (length l) n) as [Hlt|Hge]; [by rewrite <-app_assoc|]. by rewrite !take_app_le, !take_ge by lia.
Qed.

Lemma wp_mp_entries e : forall fuel p ps ios (s : mpst D) (Q : bool -> mpst D -> Prop), entries (mp_mem s) e p ps ios -> e - p <= 8 * (Z.of_nat fuel - 1) -> (length (cpus s) <= NCPU)%nat -> (0 < fuel)%nat ->
  Q true (mk_mpst (mp_mem s) (take NCPU (cpus s ++ ps)) (default (ioapicid s) (last ios)) (lapic s) (mp_ports s)) -> wp (mp_entries fuel p e true) Q s.
Proof.
  induction fuel as [|fuel IH]; intros p ps ios s Q He Hf Hc Hf0 HQ; [lia|]. cbn [mp_entries]. inversion He as [p' Hge|p' ps' ios' Hlt Ht Hr|p' ps' ios' Hlt Ht Hr|p' ps' ios' Hlt Ht Hr]; subst.
  - rewrite (proj2 (Z.ltb_ge _ _)) by done. wp_step. rewrite app_nil_r, take_ge in HQ by done. by destruct s.
  - rewrite (proj2 (Z.ltb_lt _ _)) by done. wp_step. wp_step. rewrite Ht, Z.eqb_refl. wp_step. wp_step. unfold sizeof_mpproc in *. rewrite take_snoc_le in HQ by done.
    assert (Hgo : forall l', (length l' <= NCPU)%nat -> l' = (if Nat.ltb (length (cpus s)) NCPU then cpus s ++ [proc_apicid (mp_mem s) p] else cpus s) -> wp (mp_entries fuel (p + 20) e true) Q (set_cpus l' s)).
    { intros l' Hl' ->. eapply IH; [exact Hr|lia|done|lia|]. exact HQ. }
    wp_step. destruct (Nat.ltb_spec (length (cpus s)) NCPU).
    + wp_step. apply Hgo; [rewrite length_app; cbn; lia|done].
    + wp_step. specialize (Hgo _ Hc eq_refl). by destruct s.
  - rewrite (proj2 (Z.ltb_lt _ _)) by done. wp_step. wp_step. rewrite Ht. cbn [Z.eqb MPPROC MPIOAPIC Pos.eqb]. wp_step. wp_step. unfold sizeof_mpioapic in *. eapply IH; [exact Hr|lia|done|lia|].
    cbn [mp_mem cpus ioapicid lapic mp_ports set_ioapicid]. destruct ios' as [|y ios']; [exact HQ|]. rewrite last_cons_cons in HQ. destruct (last (y :: ios')) as [z|] eqn:El; [exact HQ|by apply last_None in El].
  - rewrite (proj2 (Z.ltb_lt _ _)) by done. wp_step. wp_step. assert (Hno : (mp_mem s p =? MPPROC) = false /\ (mp_mem s p =? MPIOAPIC) = false /\ ((mp_mem s p =? MPBUS) || (mp_mem s p =? MPIOINTR) || (mp_mem s p =? MPLINTR)) = true) by (destruct Ht as [-> |[-> | ->]]; done).
    destruct Hno as (-> & -> & ->). eapply IH; [exact Hr|lia|done|lia|done].
Qed.

(** The processors of the table: on a machine with a configuration table that the checks
    accept and whose entries all have known types, [mpinit] returns with the APIC ids of the
    processors of the table, in its order and at most [NCPU] of them, the id of the last
    I/O APIC, and the address of the local APIC. *)
Theorem mpinit_finds fuel (s : mpst D) mp conf ps ios : mpconfig (mp_mem s) = Some (mp, conf) ->
  let m := mp_mem s in entries m (conf + conf_length m conf) (conf + sizeof_mpconf) ps ios -> cpus s = [] -> conf_length m conf < 8 * Z.of_nat fuel -> (0 < fuel)%nat ->
  (forall d p v, exists d', outb p v d = Ok tt d') -> (forall d p, exists x d', inb p d = Ok x d') ->
  table_ok m mp conf /\ exists s', mpinit fuel s = Ok tt s' /\ cpus s' = take NCPU ps /\ ioapicid s' = default (ioapicid s) (last ios) /\ lapic s' = conf_lapicaddr m conf.
Proof.
  intros Hc m He Hcpus Hf Hf0 Hout Hin. split; [by apply mpconfig_ok|].
  cut (wp (mpinit fuel) (fun _ s' => cpus s' = take NCPU ps /\ ioapicid s' = default (ioapicid s) (last ios) /\ lapic s' = conf_lapicaddr m conf) s).
  { intros ([] & s' & E & H)%wp_ok. by exists s'. }
  assert (Hio : forall p v (s1 : mpst D) (Q : unit -> mpst D -> Prop), (forall d, Q tt (mk_mpst (mp_mem s1) (cpus s1) (ioapicid s1) (lapic s1) d)) -> wp (mp_io (outb p v)) Q s1).
  { intros p v s1 Q HQ. unfold mp_io. apply wp_zoom, wp_ok. destruct (Hout (mp_ports s1) p v) as [d' Hd]. exists tt, d'. split; [exact Hd|apply HQ]. }
  unfold mpinit. wp_step. wp_step. rewrite Hc. fold m. wp_step. wp_step. wp_step. eapply wp_mp_entries; [exact He|unfold sizeof_mpconf; lia|cbn; rewrite Hcpus; cbn; lia|done|].
  cbn [mp_mem cpus ioapicid lapic mp_ports set_lapic negb]. rewrite Hcpus. destruct (negb (mp_imcrp m mp =? 0)).
  - wp_step. apply Hio. intros d1. wp_step. unfold mp_io at 1. apply wp_zoom, wp_ok. cbn [mp_ports]. destruct (Hin d1 0x23) as (x & d2 & Hd2). exists x, d2. split; [exact Hd2|]. cbn [mp_mem cpus ioapicid lapic mp_ports]. apply Hio. done.
  - by wp_step.
Qed.

(** An entry of another type stops the machine for good: the [break] of the [default] case
    leaves the [switch], not the loop, and the pointer stays. *)
Lemma mp_entries_hangs fuel p e ismp (s : mpst D) : p < e -> ~ 0 <= mp_mem s p <= 4 -> mp_entries fuel p e ismp s = OutOfFuel.
Proof.
  revert ismp. induction fuel as [|fuel IH]; intros ismp Hlt Ht; [done|]. cbn [mp_entries]. rewrite (proj2 (Z.ltb_lt _ _)) by done. unfold bind at 1, gets. unfold MPPROC, MPIOAPIC, MPBUS, MPIOINTR, MPLINTR.
  rewrite !(proj2 (Z.eqb_neq (mp_mem s p) _)) by lia. cbn [orb]. by apply IH.
Qed.
End mp_props.

(** Two processors and an I/O APIC, with the table at 0x1000. *)
Definition demo_mp : list Z := MP_SIG ++ [0; 16; 0; 0; 1; 4; 144; 0; 0; 0; 0; 0].
Definition demo_conf : list Z :=
  PCMP_SIG ++ [92; 0; 4; 138] ++ repeat 0 28 ++ [0; 0; 0xe0; 0xfe] ++ repeat 0 4 ++ (0 :: 0 :: repeat 0 18) ++ (0 :: 1 :: repeat 0 18) ++ (2 :: 5 :: repeat 0 6).
Definition demo_bios : mem := store_bytes (store_bytes (fun _ => 0) (P2V 0xF0000) demo_mp) (P2V 0x1000) demo_conf.
#[local] Instance quiet_ports : Ports unit := { inb := fun _ => ret 0; outb := fun _ _ => ret tt }.
Lemma demo_config : mpconfig demo_bios = Some (P2V 0xF0000, P2V 0x1000).
Proof. vm_compute. reflexivity. Qed.
Lemma demo_entries : entries demo_bios (P2V 0x1000 + 92) (P2V 0x1000 + 44) [0; 1] [5].
Proof.
  change [0; 1] with [proc_apicid demo_bios (P2V 0x1000 + 44); proc_apicid demo_bios (P2V 0x1000 + 64)]. change [5] with [ioapic_apicno demo_bios (P2V 0x1000 + 84)].
  apply entries_proc; [done|done|]. apply (entries_proc _ _ (P2V 0x1000 + 64)); [done|done|]. apply (entries_ioapic _ _ (P2V 0x1000 + 84)); [done|done|]. by apply entries_end.
Qed.
Lemma mpinit_finds_witness : exists s', mpinit 12 (mk_mpst demo_bios [] 0 0 tt) = Ok tt s' /\ cpus s' = [0; 1] /\ ioapicid s' = 5.
Proof.
  destruct (mpinit_finds 12 (mk_mpst demo_bios [] 0 0 tt) (P2V 0xF0000) (P2V 0x1000) [0; 1] [5]) as (_ & s' & E & H1 & H2 & _).
  - exact demo_config.
  - exact demo_entries.
  - reflexivity.
  - by vm_compute.
  - lia.
  - intros d p v. by exists d.
  - intros d p. by exists 0, d.
  - exists s'. split; [exact E|]. split; [exact H1|exact H2].
Defined.
