(* ===== verification/Apic.v ===== *)
(** * The interrupt controllers and the clock ([src/xv6/lapic.c], [src/xv6/ioapic.c],
      [src/xv6/picirq.c])

    The registers of the local APIC and of the I/O APIC are words of the physical address
    space behind [Mmio]; the clock and the old interrupt controllers are behind the ports.
    [microdelay] is empty.  What the theorems need from the I/O APIC and from the clock is
    stated by the classes [IoApic] and [Rtc]. *)

From S2P Require Import Prelude Mem Mmu Console Sysproc.

(** A volatile word at an address. *)
Class Mmio (D : Type) : Type := { mread : Z -> M D Z; mwrite : Z -> Z -> M D unit }.

Definition IRQ_ERROR : Z := 19.
Definition ID : Z := 0x20 / 4.
Definition VER : Z := 0x30 / 4.
Definition TPR : Z := 0x80 / 4.
Definition EOI : Z := 0xB0 / 4.
Definition SVR : Z := 0xF0 / 4.
Definition ENABLE : Z := 0x100.
Definition ESR : Z := 0x280 / 4.
Definition ICRLO : Z := 0x300 / 4.
Definition INIT : Z := 0x500.
Definition STARTUP : Z := 0x600.
Definition DELIVS : Z := 0x1000.
Definition ASSERT : Z := 0x4000.
Definition LEVEL : Z := 0x8000.
Definition BCAST : Z := 0x80000.
Definition ICRHI : Z := 0x310 / 4.
Definition TIMER : Z := 0x320 / 4.
Definition X1 : Z := 0xB.
Definition PERIODIC : Z := 0x20000.
Definition PCINT : Z := 0x340 / 4.
Definition LINT0 : Z := 0x350 / 4.
Definition LINT1 : Z := 0x360 / 4.
Definition ERROR : Z := 0x370 / 4.
Definition MASKED : Z := 0x10000.
Definition TICR : Z := 0x380 / 4.
Definition TDCR : Z := 0x3E0 / 4.

Definition IOAPIC : Z := 0xFEC00000.
Definition REG_ID : Z := 0.
Definition REG_VER : Z := 1.
Definition REG_TABLE : Z := 0x10.
Definition INT_DISABLED : Z := 0x10000.

Definition IO_PIC1 : Z := 0x20.
Definition IO_PIC2 : Z := 0xA0.

Definition CMOS_PORT : Z := 0x70.
Definition CMOS_RETURN : Z := 0x71.
Definition CMOS_STATA : Z := 0x0a.
Definition CMOS_STATB : Z := 0x0b.
Definition CMOS_UIP : Z := Z.shiftl 1 7.

Record rtcdate : Type := mk_rtcdate { second : Z; minute : Z; hour : Z; day : Z; month : Z; year : Z }.
#[export] Instance rtcdate_eq_dec : EqDecision rtcdate.
Proof. solve_decision. Defined.

Record apic (D : Type) : Type := mk_apic { a_mem : mem; a_lapic : Z; a_ioapicid : Z; a_said : list string; a_dev : D }.
Arguments mk_apic {D}. Arguments a_mem {D}. Arguments a_lapic {D}. Arguments a_ioapicid {D}. Arguments a_said {D}. Arguments a_dev {D}.

Section apic.
Context {D : Type} `{!Ports D} `{!Mmio D}.
#[local] Abbreviation AM := (M (apic D)).

Definition dev {A} (m : M D A) : AM A := zoom a_dev (fun d s => mk_apic (a_mem s) (a_lapic s) (a_ioapicid s) (a_said s) d) m.
Definition say (x : string) : AM unit := modify (fun s => mk_apic (a_mem s) (a_lapic s) (a_ioapicid s) (a_said s ++ [x]) (a_dev s)).

(** ** The old controllers *)

Definition picinit : AM unit :=
  dev (outb (IO_PIC1 + 1) 0xFF) ;;;
  dev (outb (IO_PIC2 + 1) 0xFF).

(** ** The I/O APIC *)

Definition ioapicread (reg : Z) : AM Z := dev (mwrite IOAPIC reg) ;;; dev (mread (IOAPIC + 16)).
Definition ioapicwrite (reg data : Z) : AM unit := dev (mwrite IOAPIC reg) ;;; dev (mwrite (IOAPIC + 16) data).

Definition ioapicinit : AM unit :=
  let! v := ioapicread REG_VER in
  let maxintr := Z.land (Z.shiftr v 16) 0xFF in
  let! x := ioapicread REG_ID in
  let id := Z.shiftr x 24 in
  let! ioapicid := gets a_ioapicid in
  (if negb (id =? ioapicid) then say "ioapicinit: id isn't equal to ioapicid; not a MP" else ret tt) ;;;
  for_loop (Z.to_nat (maxintr + 1)) 0 (fun i =>
    ioapicwrite (REG_TABLE + 2 * i) (Z.lor INT_DISABLED (T_IRQ0 + i)) ;;;
    ioapicwrite (REG_TABLE + 2 * i + 1) 0).

Definition ioapicenable (irq cpunum : Z) : AM unit :=
  ioapicwrite (REG_TABLE + 2 * irq) (T_IRQ0 + irq) ;;;
  ioapicwrite (REG_TABLE + 2 * irq + 1) (u32 (Z.shiftl cpunum 24)).

(** ** The local APIC *)

Definition lapicr (index : Z) : AM Z := let! l := gets a_lapic in dev (mread (l + 4 * index)).
Definition lapicw (index value : Z) : AM unit :=
  let! l := gets a_lapic in
  dev (mwrite (l + 4 * index) value) ;;;
  lapicr ID ;;; ret tt.

Fixpoint wait_delivery (fuel : nat) : AM unit :=
  match fuel with
  | O => fun _ => OutOfFuel
  | S k => let! x := lapicr ICRLO in if negb (Z.land x DELIVS =? 0) then wait_delivery k else ret tt
  end.

Definition lapicinit (fuel : nat) : AM unit :=
  let! l := gets a_lapic in
  if l =? 0 then ret tt else
  lapicw SVR (Z.lor ENABLE (T_IRQ0 + IRQ_SPURIOUS)) ;;;
  lapicw TDCR X1 ;;;
  lapicw TIMER (Z.lor PERIODIC (T_IRQ0 + IRQ_TIMER)) ;;;
  lapicw TICR 10000000 ;;;
  lapicw LINT0 MASKED ;;;
  lapicw LINT1 MASKED ;;;
  let! v := lapicr VER in
  (if 4 <=? Z.land (Z.shiftr v 16) 0xFF then lapicw PCINT MASKED else ret tt) ;;;
  lapicw ERROR (T_IRQ0 + IRQ_ERROR) ;;;
  lapicw ESR 0 ;;;
  lapicw ESR 0 ;;;
  lapicw EOI 0 ;;;
  lapicw ICRHI 0 ;;;
  lapicw ICRLO (Z.lor (Z.lor BCAST INIT) LEVEL) ;;;
  wait_delivery fuel ;;;
  lapicw TPR 0.

Definition lapicid : AM Z :=
  let! l := gets a_lapic in
  if l =? 0 then ret 0 else let! x := lapicr ID in ret (Z.shiftr x 24).

Definition lapiceoi : AM unit :=
  let! l := gets a_lapic in
  if negb (l =? 0) then lapicw EOI 0 else ret tt.

Definition store16 (m : mem) (a v : Z) : mem := store8 (store8 m a (u8 v)) (a + 1) (u8 (Z.shiftr v 8)).

Definition lapicstartap (apicid addr : Z) : AM unit :=
  dev (outb CMOS_PORT 0xF) ;;;
  dev (outb (CMOS_PORT + 1) 0x0A) ;;;
  let wrv := P2V (Z.lor (Z.shiftl 0x40 4) 0x67) in
  modify (fun s => mk_apic (store16 (store16 (a_mem s) wrv 0) (wrv + 2) (u16 (Z.shiftr addr 4))) (a_lapic s) (a_ioapicid s) (a_said s) (a_dev s)) ;;;
  lapicw ICRHI (u32 (Z.shiftl apicid 24)) ;;;
  lapicw ICRLO (Z.lor (Z.lor INIT LEVEL) ASSERT) ;;;
  lapicw ICRLO (Z.lor INIT LEVEL) ;;;
  for_loop 2 0 (fun _ =>
    lapicw ICRHI (u32 (Z.shiftl apicid 24)) ;;;
    lapicw ICRLO (Z.lor STARTUP (Z.shiftr addr 12))).

(** ** The clock *)

Definition cmos_read (reg : Z) : AM Z := dev (outb CMOS_PORT reg) ;;; dev (inb CMOS_RETURN).

Definition fill_rtcdate : AM rtcdate :=
  let! s := cmos_read 0x00 in
  let! m := cmos_read 0x02 in
  let! h := cmos_read 0x04 in
  let! d := cmos_read 0x07 in
  let! mo := cmos_read 0x08 in
  let! y := cmos_read 0x09 in
  ret (mk_rtcdate s m h d mo y).

Fixpoint stable_date (fuel : nat) : AM rtcdate :=
  match fuel with
  | O => fun _ => OutOfFuel
  | S k =>
      let! t1 := fill_rtcdate in
      let! a := cmos_read CMOS_STATA in
      if negb (Z.land a CMOS_UIP =? 0) then stable_date k else
      let! t2 := fill_rtcdate in
      if decide (t1 = t2) then ret t1 else stable_date k
  end.

Definition CONV (x : Z) : Z := Z.shiftr x 4 * 10 + Z.land x 0xf.

Definition cmostime (fuel : nat) : AM rtcdate :=
  let! sb := cmos_read CMOS_STATB in
  let bcd := Z.land sb (Z.shiftl 1 2) =? 0 in
  let! t := stable_date fuel in
  let t1 := if bcd then mk_rtcdate (CONV (second t)) (CONV (minute t)) (CONV (hour t)) (CONV (day t)) (CONV (month t)) (CONV (year t)) else t in
  ret (mk_rtcdate (second t1) (minute t1) (hour t1) (day t1) (month t1) (year t1 + 2000)).
End apic.

(** ** Routing interrupts *)

(** The I/O APIC: a register is selected, then read or written. *)
Class IoApic (D : Type) `{!Mmio D} : Type := {
  io_sel : D -> Z;
  io_reg : D -> Z -> Z;
  io_select d r : wp (mwrite IOAPIC r) (fun _ d' => io_sel d' = r /\ io_reg d' = io_reg d) d;
  io_store d v : wp (mwrite (IOAPIC + 16) v) (fun _ d' => io_reg d' = fun r => if r =? io_sel d then v else io_reg d r) d;
  io_load d : wp (mread (IOAPIC + 16)) (fun x d' => x = io_reg d (io_sel d) /\ io_reg d' = io_reg d) d
}.

(** The entry of a line: its two registers. *)
Definition line_off (i : Z) : Z * Z := (Z.lor INT_DISABLED (T_IRQ0 + i), 0).
Definition line_on (i cpu : Z) : Z * Z := (T_IRQ0 + i, u32 (Z.shiftl cpu 24)).
Definition route (reqs : list (Z * Z)) (i : Z) : Z * Z :=
  fold_left (fun e r => if i =? fst r then line_on i (snd r) else e) reqs (line_off i).

Section ioapic.
Context {D : Type} `{!Ports D} `{!Mmio D} `{!IoApic D}.
Implicit Types (s : apic D).

Definition table s (i : Z) : Z * Z := (io_reg (a_dev s) (REG_TABLE + 2 * i), io_reg (a_dev s) (REG_TABLE + 2 * i + 1)).

Lemma wp_adev {A} (m : M D A) s (Q : A -> apic D -> Prop) (P : A -> D -> Prop) : wp m P (a_dev s) ->
  (forall a d, P a d -> Q a (mk_apic (a_mem s) (a_lapic s) (a_ioapicid s) (a_said s) d)) -> wp (dev m) Q s.
Proof. intros Hm HQ. unfold dev. apply wp_zoom. eapply wp_mono; [exact Hm|]. auto. Qed.

Lemma wp_ioapicread r s (Q : Z -> apic D -> Prop) : (forall s', io_reg (a_dev s') = io_reg (a_dev s) -> Q (io_reg (a_dev s) r) s') -> wp (ioapicread r) Q s.
Proof.
  intros HQ. unfold ioapicread. wp_step. eapply wp_adev; [apply io_select|]. intros [] d1 [S1 S2]. eapply wp_adev; [apply io_load|]. cbn [a_dev]. intros x d2 [-> L]. rewrite S1, S2. apply HQ. cbn. congruence.
Qed.
Lemma wp_ioapicwrite r v s (Q : unit -> apic D -> Prop) : (forall s', (forall x, io_reg (a_dev s') x = if x =? r then v else io_reg (a_dev s) x) -> Q tt s') -> wp (ioapicwrite r v) Q s.
Proof.
  intros HQ. unfold ioapicwrite. wp_step. eapply wp_adev; [apply io_select|]. intros [] d1 [S1 S2]. eapply wp_adev; [apply io_store|]. cbn [a_dev]. intros [] d2 L. apply HQ. intros x. cbn [a_dev]. rewrite L, S1. by rewrite S2.
Qed.
(** Both registers of a line. *)
Lemma wp_entry i a b s (Q : unit -> apic D -> Prop) : (forall s', (forall j, table s' j = if j =? i then (a, b) else table s j) -> Q tt s') ->
  wp (ioapicwrite (REG_TABLE + 2 * i) a ;;; ioapicwrite (REG_TABLE + 2 * i + 1) b) Q s.
Proof.
  intros HQ. wp_step. apply wp_ioapicwrite. intros s1 H1. apply wp_ioapicwrite. intros s2 H2. apply HQ. intros j. unfold table, REG_TABLE in *. rewrite !H2, !H1.
  destruct (Z.eqb_spec j i) as [->|Hne]; repeat zcase; done || lia.
Qed.

Lemma wp_ioapicinit s (Q : unit -> apic D -> Prop) (n := Z.land (Z.shiftr (io_reg (a_dev s) REG_VER) 16) 0xFF) :
  (forall s', (forall i, 0 <= i <= n -> table s' i = line_off i) -> Q tt s') -> wp ioapicinit Q s.
Proof.
  intros HQ. unfold ioapicinit. wp_step. apply wp_ioapicread. intros s1 H1. fold n. wp_step. apply wp_ioapicread. intros s2 H2. wp_step. wp_step.
  assert (Hn : 0 <= n) by (unfold n; apply Z.land_nonneg; lia). wp_step.
  assert (Hgo : forall s3, wp (for_loop (Z.to_nat (n + 1)) 0 (fun i => ioapicwrite (REG_TABLE + 2 * i) (Z.lor INT_DISABLED (T_IRQ0 + i)) ;;; ioapicwrite (REG_TABLE + 2 * i + 1) 0)) Q s3).
  { intros s3. apply (wp_for (fun j s' => forall i, 0 <= i < j -> table s' i = line_off i)); [lia| |].
    - intros j s4 Hj HI. apply wp_entry. intros s5 H5 i Hi. rewrite H5. destruct (Z.eqb_spec i j) as [->|Hne]; [done|]. apply HI. lia.
    - intros s4 HI. apply HQ. intros i Hi. apply HI. lia. }
  destruct (negb _); [unfold say|]; wp_step; apply Hgo.
Qed.

(** Only enabled lines are delivered: after [ioapicinit] and any calls of [ioapicenable] the
    table sends every line that was enabled to the CPU named last, on its own vector, and
    every other line of the controller is masked. *)
Theorem ioapic_routes reqs s (n := Z.land (Z.shiftr (io_reg (a_dev s) REG_VER) 16) 0xFF) :
  wp (ioapicinit ;;; foldr (fun r k => ioapicenable (fst r) (snd r) ;;; k) (ret tt) reqs)
    (fun _ s' => forall i, 0 <= i <= n -> table s' i = route reqs i) s.
Proof.
  wp_step. apply wp_ioapicinit. fold n. intros s1 H1. unfold route.
  assert (Hgen : forall reqs s1 (f : Z -> Z * Z), (forall i, 0 <= i <= n -> table s1 i = f i) ->
    wp (foldr (fun r k => ioapicenable (fst r) (snd r) ;;; k) (ret tt) reqs) (fun _ s' => forall i, 0 <= i <= n -> table s' i = fold_left (fun e r => if i =? fst r then line_on i (snd r) else e) reqs (f i)) s1).
  { clear. induction reqs as [|[irq cpu] reqs IH]; intros s1 f Hf; cbn [foldr fold_left]; [by wp_step|]. wp_step. unfold ioapicenable. apply wp_entry. intros s2 H2.
    apply (IH s2 (fun i => if i =? irq then line_on i cpu else f i)). intros i Hi. rewrite H2. cbn [fst snd]. destruct (Z.eqb_spec i irq) as [->|]; [done|by apply Hf]. }
  by apply Hgen.
Qed.
End ioapic.

(** ** Reading the clock *)

(** The clock shows a value of its registers that changes at the ticks; a tick can happen at
    any access. *)
Class Rtc (D : Type) `{!Ports D} : Type := {
  rtc_index : D -> Z;
  rtc_regs : D -> Z -> Z;
  rtc_ticks : D -> nat;
  rtc_select d r : wp (outb CMOS_PORT r) (fun _ d' => rtc_index d' = r /\ (rtc_ticks d <= rtc_ticks d')%nat /\ (rtc_ticks d = rtc_ticks d' -> rtc_regs d' = rtc_regs d)) d;
  rtc_read d : wp (inb CMOS_RETURN) (fun x d' => x = rtc_regs d (rtc_index d) /\ (rtc_ticks d <= rtc_ticks d')%nat /\ (rtc_ticks d = rtc_ticks d' -> rtc_regs d' = rtc_regs d)) d
}.

Definition shown (c : Z -> Z) : rtcdate := mk_rtcdate (c 0x00) (c 0x02) (c 0x04) (c 0x07) (c 0x08) (c 0x09).
Definition decoded (statb : Z) (t : rtcdate) : rtcdate :=
  let f x := if Z.land statb 4 =? 0 then CONV x else x in
  mk_rtcdate (f (second t)) (f (minute t)) (f (hour t)) (f (day t)) (f (month t)) (f (year t) + 2000).

Section rtc.
Context {D : Type} `{!Ports D} `{!Mmio D} `{!Rtc D}.
Implicit Types (s : apic D).

Abbreviation at_tick s := (rtc_ticks (a_dev s)).
Abbreviation regs_of s := (rtc_regs (a_dev s)).

(** Time goes on, and between two ticks the clock shows the same. *)
Definition later s s' : Prop := (at_tick s <= at_tick s')%nat /\ (at_tick s = at_tick s' -> regs_of s' = regs_of s).
#[local] Instance later_preorder : PreOrder later.
Proof. split; [done|]. intros a b c [A1 A2] [B1 B2]. split; [lia|]. intros E. rewrite B2 by lia. apply A2. lia. Qed.

Lemma wp_cmos_read r s (Q : Z -> apic D -> Prop) : (forall e s', later s e -> later e s' -> Q (regs_of e r) s') -> wp (cmos_read r) Q s.
Proof.
  intros HQ. unfold cmos_read. wp_step. eapply wp_adev; [apply rtc_select|]. intros [] d1 (S1 & S2 & S3). eapply wp_adev; [apply rtc_read|]. cbn [a_dev]. intros x d2 (-> & R2 & R3).
  rewrite S1. eapply (HQ (mk_apic (a_mem s) (a_lapic s) (a_ioapicid s) (a_said s) d1)); split; cbn [a_dev]; auto.
Qed.

Lemma wp_fill_rtcdate s (Q : rtcdate -> apic D -> Prop) : (forall t s', later s s' -> (at_tick s = at_tick s' -> t = shown (regs_of s)) -> Q t s') -> wp fill_rtcdate Q s.
Proof.
  intros HQ. unfold fill_rtcdate. do 6 (wp_step; apply wp_cmos_read; intros ? ? [? ?] [? ?]). wp_step. apply HQ.
  - repeat (split; [lia|]). intros E. repeat match goal with H : at_tick ?a = at_tick ?b -> regs_of ?b = regs_of ?a |- _ => specialize (H ltac:(lia)) end. congruence.
  - intros E. repeat match goal with H : at_tick ?a = at_tick ?b -> regs_of ?b = regs_of ?a |- _ => specialize (H ltac:(lia)) end. unfold shown. congruence.
Qed.

(** Between two states one tick apart the clock shows what it shows in one of them. *)
Lemma between s e s' : later s e -> later e s' -> (at_tick s' <= S (at_tick s))%nat -> regs_of e = regs_of s \/ regs_of e = regs_of s'.
Proof.
  intros [A1 A2] [B1 B2] Ht. destruct (decide (at_tick s = at_tick e)) as [E|E]; [left; by apply A2|]. right. symmetry. apply B2. lia.
Qed.

Lemma post_stable_date fuel : forall s (Q : rtcdate -> apic D -> Prop),
  (forall t s', later s s' -> ((at_tick s' <= S (at_tick s))%nat -> t = shown (regs_of s) \/ t = shown (regs_of s')) -> Q t s') -> post (stable_date fuel) Q (fun _ => True) s.
Proof.
  induction fuel as [|fuel IH]; intros s Q HQ; [done|]. cbn [stable_date].
  assert (Hagain : forall e, later s e -> post (stable_date fuel) Q (fun _ => True) e).
  { intros e He. apply IH. intros t s' Hl Ht. apply HQ; [by transitivity e|]. intros Hone. destruct Ht as [-> | ->]; [destruct He; lia| |by right].
    destruct (between s e s' He Hl Hone) as [-> | ->]; auto. }
  post_step. apply wp_post, wp_fill_rtcdate. intros t1 s1 L1 F1. post_step. apply wp_post, wp_cmos_read. intros e s2 L2 L2'. assert (L3 : later s1 s2) by (by transitivity e).
  destruct (negb _); [apply Hagain; by transitivity s1|]. post_step. apply wp_post, wp_fill_rtcdate. intros t2 s3 L4 F4. case_decide as E; [|apply Hagain; transitivity s1; [done|by transitivity s2]].
  post_step. assert (L13 : later s1 s3) by (by transitivity s2). apply HQ; [by transitivity s1|]. intros Hone. subst t2. destruct (decide (at_tick s = at_tick s1)) as [Hs|Hs]; [left; by apply F1|].
  right. destruct L1 as [L1 _], L3 as [L3 _], L4 as [L4 L4']. rewrite L4' by lia. apply F4. lia.
Qed.

End rtc.

(** A device with an I/O APIC of 24 lines, and a clock that ticks at the tenth access. *)
Record pc_dev : Type := mk_pc_dev { pd_sel : Z; pd_reg : Z -> Z; pd_index : Z; pd_count : nat }.
Definition pd_ticks (d : pc_dev) : nat := if Nat.ltb (pd_count d) 10 then 0 else 1.
Definition pd_regs (d : pc_dev) (r : Z) : Z := if Nat.ltb (pd_count d) 10 then r else r + 16.
#[global] Instance pd_ports : Ports pc_dev := {
  inb := fun p d => Ok (pd_regs d (pd_index d)) (mk_pc_dev (pd_sel d) (pd_reg d) (pd_index d) (S (pd_count d)));
  outb := fun p v d => Ok tt (mk_pc_dev (pd_sel d) (pd_reg d) v (S (pd_count d)))
}.
#[global] Instance pd_mmio : Mmio pc_dev := {
  mread := fun a d => Ok (pd_reg d (pd_sel d)) d;
  mwrite := fun a v d => Ok tt (if a =? IOAPIC then mk_pc_dev v (pd_reg d) (pd_index d) (pd_count d)
    else mk_pc_dev (pd_sel d) (fun r => if r =? pd_sel d then v else pd_reg d r) (pd_index d) (pd_count d))
}.
#[global, refine] Instance pd_ioapic : IoApic pc_dev := {| io_sel := pd_sel; io_reg := pd_reg |}.
Proof. all: done. Defined.
Lemma pd_ticks_step d d' : pd_count d' = S (pd_count d) -> (pd_ticks d <= pd_ticks d')%nat /\ (pd_ticks d = pd_ticks d' -> pd_regs d' = pd_regs d).
Proof.
  intros E. unfold pd_ticks, pd_regs. rewrite E. destruct (Nat.ltb_spec (pd_count d) 10), (Nat.ltb_spec (S (pd_count d)) 10); split; lia || done.
Qed.
#[global, refine] Instance pd_rtc : Rtc pc_dev := {| rtc_index := pd_index; rtc_regs := pd_regs; rtc_ticks := pd_ticks |}.
Proof. all: intros; split; [done|by apply pd_ticks_step]. Defined.

Definition pc_start : apic pc_dev := mk_apic (fun _ => 0) 0 0 [] (mk_pc_dev 0 (fun r => if r =? REG_VER then 0x170000 else 0) 0 0).
Lemma clock_read : exists s', cmostime 3 pc_start = Ok (mk_rtcdate 10 12 14 17 18 2019) s' /\ rtc_ticks (a_dev s') = 1%nat.
Proof. vm_compute. eexists. split; reflexivity. Qed.
Lemma demo_routes : wp (ioapicinit ;;; foldr (fun r k => ioapicenable (fst r) (snd r) ;;; k) (ret tt) [(1, 0); (14, 1)])
  (fun _ s' => table s' 14 = (46, 0x1000000) /\ table s' 3 = (0x10023, 0)) pc_start.
Proof. eapply wp_mono; [apply (ioapic_routes [(1, 0); (14, 1)] pc_start)|]. intros [] s' H. split; rewrite H; done. Qed.
