(* ===== verification/Uswitch.v ===== *)
(** * The context switch of the user-level threads ([src/xv6/uthread_switch.S])

    The instructions of [thread_switch] on registers and memory, and the stack that
    [thread_create] prepares.  A switch away from a thread and back restores its registers and
    continues behind its call. *)

From S2P Require Import Prelude Mem.


Record cpu : Type := mk_cpu { eax : Z; ebx : Z; ecx : Z; edx : Z; esp : Z; ebp : Z; esi : Z; edi : Z; eip : Z }.
Record machine : Type := mk_machine { regs : cpu; memory : mem; current_thread : Z; next_thread : Z }.

Definition set_esp (x : Z) (c : cpu) : cpu := mk_cpu (eax c) (ebx c) (ecx c) (edx c) x (ebp c) (esi c) (edi c) (eip c).
Definition set_eax (x : Z) (c : cpu) : cpu := mk_cpu x (ebx c) (ecx c) (edx c) (esp c) (ebp c) (esi c) (edi c) (eip c).

(** [pusha]: the eight registers below the stack pointer, [esp] with its old value. *)
Definition pusha (s : machine) : machine :=
  let c := regs s in
  let put k v m := store32 m (u32 (esp c - 4 * k)) v in
  mk_machine (set_esp (u32 (esp c - 32)) c)
    (put 8 (edi c) (put 7 (esi c) (put 6 (ebp c) (put 5 (esp c) (put 4 (ebx c) (put 3 (edx c) (put 2 (ecx c) (put 1 (eax c) (memory s)))))))))
    (current_thread s) (next_thread s).
(** [popa]: the saved [esp] is skipped. *)
Definition popa (s : machine) : machine :=
  let c := regs s in
  let w k := load32 (memory s) (u32 (esp c + 4 * k)) in
  mk_machine (mk_cpu (w 7) (w 4) (w 6) (w 5) (u32 (esp c + 32)) (w 2) (w 1) (w 0) (eip c)) (memory s) (current_thread s) (next_thread s).
Definition ret_near (s : machine) : machine :=
  let c := regs s in
  mk_machine (mk_cpu (eax c) (ebx c) (ecx c) (edx c) (u32 (esp c + 4)) (ebp c) (esi c) (edi c) (load32 (memory s) (esp c))) (memory s) (current_thread s) (next_thread s).

(** The field [sp] is the first word of a [struct thread]. *)
Definition thread_switch (s : machine) : machine :=
  let s := pusha s in
  (* movl current_thread, %eax; movl %esp, (%eax) *)
  let s := mk_machine (set_eax (current_thread s) (regs s)) (store32 (memory s) (current_thread s) (esp (regs s))) (current_thread s) (next_thread s) in
  (* movl next_thread, %eax; movl (%eax), %esp *)
  let s := mk_machine (set_esp (load32 (memory s) (next_thread s)) (set_eax (next_thread s) (regs s))) (memory s) (current_thread s) (next_thread s) in
  (* movl %eax, current_thread; movl $0x0, next_thread *)
  let s := mk_machine (regs s) (memory s) (eax (regs s)) 0 in
  ret_near (popa s).

(** The stack pointer of a thread that [thread_create] has set up for the function at
    [func]; [top] is the end of its stack. *)
Definition STACK_SIZE : Z := 8192.
Definition create_sp (t : Z) : Z := t + 4 + STACK_SIZE - 4 - 32.
Definition create_stack (m : mem) (t func : Z) : mem := store32 (store32 m (t + 4 + STACK_SIZE - 4) func) t (create_sp t).

Definition cpu_ok (c : cpu) : Prop := Forall (fun x => 0 <= x < W32) [eax c; ebx c; ecx c; edx c; esp c; ebp c; esi c; edi c].

(** What the switch leaves of a context: eight words below the return address. *)
Record saved (m : mem) (t : Z) (c : cpu) (ra : Z) : Prop := mk_saved {
  sv_sp : load32 m t = esp c - 32;
  sv_edi : load32 m (esp c - 32) = edi c;
  sv_esi : load32 m (esp c - 28) = esi c;
  sv_ebp : load32 m (esp c - 24) = ebp c;
  sv_ebx : load32 m (esp c - 16) = ebx c;
  sv_edx : load32 m (esp c - 12) = edx c;
  sv_ecx : load32 m (esp c - 8) = ecx c;
  sv_eax : load32 m (esp c - 4) = eax c;
  sv_ra : load32 m (esp c) = ra
}.

(** A word that does not meet the words of a stack from [a] to [b]. *)
Definition apart (x a b : Z) : Prop := x + 4 <= a \/ b <= x.

Lemma pusha_mem s : cpu_ok (regs s) -> 32 <= esp (regs s) ->
  regs (pusha s) = set_esp (esp (regs s) - 32) (regs s) /\ forall x, apart x (esp (regs s) - 32) (esp (regs s)) -> load32 (memory (pusha s)) x = load32 (memory s) x.
Proof.
  intros Hc Hsp. assert (Hw : 0 <= esp (regs s) < W32) by (unfold cpu_ok in Hc; by decompose_Forall_hyps). unfold W32 in Hw.
  unfold pusha. cbv zeta. cbn [regs memory]. rewrite !u32_small by (unfold W32; lia). split; [done|]. intros x Hx. unfold apart in Hx. rewrite !load32_store32_ne by lia. done.
Qed.

(** After the switch the context of the thread that was running is saved. *)
Lemma pusha_saved s t : cpu_ok (regs s) -> 32 <= esp (regs s) -> apart t (esp (regs s) - 32) (esp (regs s) + 4) ->
  saved (store32 (memory (pusha s)) t (esp (regs s) - 32)) t (regs s) (load32 (memory s) (esp (regs s))).
Proof.
  intros Hc Hsp Ht. unfold cpu_ok, W32 in Hc. decompose_Forall_hyps. unfold apart in Ht.
  unfold pusha. cbv zeta. cbn [regs memory]. rewrite !u32_small by (unfold W32; lia).
  split; repeat first [rewrite load32_store32_ne by lia | match goal with |- context [store32 _ ?a _] => match goal with |- load32 _ ?b = _ => replace a with b by lia end end; rewrite load32_store32_eq by (unfold W32; lia)]; done.
Qed.

(** A switch to a saved context. *)
Lemma switch_to s t c ra (s1 := pusha s) (m := store32 (memory s1) (current_thread s1) (esp (regs s1))) :
  next_thread s = t -> saved m t c ra -> 32 <= esp c < W32 - 4 -> let s' := thread_switch s in
  regs s' = mk_cpu (eax c) (ebx c) (ecx c) (edx c) (esp c + 4) (ebp c) (esi c) (edi c) ra /\ memory s' = m /\ current_thread s' = t /\ next_thread s' = 0.
Proof.
  intros Hn [V1 V2 V3 V4 V5 V6 V7 V8 V9] Hsp. unfold thread_switch. fold s1. change (next_thread s1) with (next_thread s). cbv zeta. cbn [regs memory current_thread next_thread eax set_eax set_esp]. fold m. rewrite Hn, V1. unfold W32 in Hsp.
  unfold popa, ret_near. cbv zeta. cbn [regs memory current_thread next_thread esp eip eax ebx ecx edx ebp esi edi set_eax set_esp]. rewrite !(u32_small (esp c - 32 + _)) by (unfold W32; lia). rewrite u32_small by (unfold W32; lia).
  replace (esp c - 32 + 32) with (esp c) by lia. replace (esp c - 32 + 4 * 7) with (esp c - 4) by lia. replace (esp c - 32 + 4 * 6) with (esp c - 8) by lia.
  replace (esp c - 32 + 4 * 5) with (esp c - 12) by lia. replace (esp c - 32 + 4 * 4) with (esp c - 16) by lia. replace (esp c - 32 + 4 * 2) with (esp c - 24) by lia.
  replace (esp c - 32 + 4 * 1) with (esp c - 28) by lia. replace (esp c - 32 + 4 * 0) with (esp c - 32) by lia. rewrite V2, V3, V4, V5, V6, V7, V8, V9. done.
Qed.

Lemma saved_ext m m' t c ra : saved m t c ra -> (forall x, x = t \/ esp c - 32 <= x <= esp c -> load32 m' x = load32 m x) -> saved m' t c ra.
Proof. intros [V1 V2 V3 V4 V5 V6 V7 V8 V9] H. split; rewrite H by lia; done. Qed.

(** A thread that has just been created will start at its function with an empty stack. *)
Lemma create_saved m t func : 0 <= t -> t + 4 + STACK_SIZE < W32 -> 0 <= func < W32 -> exists c, esp c = t + 4 + STACK_SIZE - 4 /\ saved (create_stack m t func) t c func.
Proof.
  intros Ht Hw Hf. unfold STACK_SIZE, W32 in *. set (sp := t + 4 + 8192 - 4). set (m' := create_stack m t func). set (w k := load32 m' (sp - k)).
  exists (mk_cpu (w 4) (w 16) (w 8) (w 12) sp (w 24) (w 28) (w 32) 0). split; [done|]. split; cbn; try done.
  - unfold m', create_stack, create_sp, STACK_SIZE. rewrite load32_store32_eq by (unfold W32; lia). done.
  - unfold m', create_stack, STACK_SIZE. rewrite load32_store32_ne by lia. by rewrite load32_store32_eq by (unfold W32; lia).
Qed.

(** A thread gets its context back: when [thread_switch] leaves thread [t], and after
    whatever other threads did without touching the saved words of [t] another thread switches
    to [t], the call of [thread_switch] returns to [t]: to its return address, with its
    registers and its stack pointer behind the return address. *)
Theorem thread_switch_resumes s s2 (t := current_thread s) (sp := esp (regs s)) (w := current_thread s2) (sp2 := esp (regs s2)) :
  cpu_ok (regs s) -> 32 <= sp < W32 - 4 -> apart t (sp - 32) (sp + 4) ->
  (forall x, t <= x < t + 4 \/ sp - 32 <= x < sp + 4 -> memory s2 x = memory (thread_switch s) x) ->
  cpu_ok (regs s2) -> 32 <= sp2 -> next_thread s2 = t -> apart w t (t + 4) -> apart w (sp - 32) (sp + 4) -> apart t (sp2 - 32) sp2 -> sp2 <= sp - 32 \/ sp + 4 <= sp2 - 32 ->
  let c := regs s in
  regs (thread_switch s2) = mk_cpu (eax c) (ebx c) (ecx c) (edx c) (sp + 4) (ebp c) (esi c) (edi c) (load32 (memory s) sp) /\ current_thread (thread_switch s2) = t.
Proof.
  intros Hc Hsp Ht Hkeep Hc2 Hsp2 Hn Hwt Hwf Hts Hfr c. destruct (pusha_mem s Hc (proj1 Hsp)) as [P1 _]. destruct (pusha_mem s2 Hc2 Hsp2) as [R1 R2].
  assert (Hm1 : memory (thread_switch s) = store32 (memory (pusha s)) t (sp - 32)) by (change (memory (thread_switch s)) with (store32 (memory (pusha s)) t (esp (regs (pusha s)))); by rewrite P1).
  pose proof (pusha_saved s t Hc (proj1 Hsp) Ht) as Hs. fold sp in Hs. rewrite <-Hm1 in Hs.
  destruct (switch_to s2 t (regs s) (load32 (memory s) sp) Hn) as (E1 & _ & E2 & _); [|done|done].
  apply (saved_ext _ _ _ _ _ Hs). intros x Hx. fold sp in Hx. unfold apart in *. change (current_thread (pusha s2)) with w. rewrite load32_store32_ne by lia.
  rewrite R2; [|unfold apart; fold sp2; lia]. apply load32_ext. intros y Hy. apply Hkeep. lia.
Qed.

Definition switch_demo : machine :=
  mk_machine (mk_cpu 1 2 3 4 0x1800 5 6 7 0) (store32 (create_stack (fun _ => 0) 0x4000 0x77) 0x1800 0x123) 0x1000 0x4000.
Definition switch_back : machine :=
  let s := thread_switch switch_demo in mk_machine (regs s) (memory s) (current_thread s) 0x1000.
Lemma switch_back_regs : regs switch_back = mk_cpu 0 0 0 0 0x6004 0 0 0 0x77 /\ current_thread switch_back = 0x4000.
Proof. vm_compute. split; reflexivity. Qed.
Lemma thread_switch_resumes_witness : regs (thread_switch switch_back) = mk_cpu 1 2 3 4 0x1804 5 6 7 0x123.
Proof.
  destruct switch_back_regs as [R C].
  destruct (thread_switch_resumes switch_demo switch_back) as [E _]; rewrite ?R, ?C; unfold apart; change (esp (regs switch_demo)) with 0x1800;
    change (current_thread switch_demo) with 0x1000; cbn [esp]; unfold W32; try lia.
  - repeat (apply Forall_cons; split; [unfold W32; cbn; lia|]). by apply Forall_nil.
  - intros x _. reflexivity.
  - repeat (apply Forall_cons; split; [unfold W32; cbn; lia|]). by apply Forall_nil.
  - reflexivity.
  - rewrite E. vm_compute. reflexivity.
Defined.

