(* ===== verification/Uthread.v ===== *)
(** * User-level threads ([src/xv6/uthreadlib.c], [src/xv6/uthread.c])

    The thread table with the scheduler, and the test program.  Between two switches a thread
    runs a piece of [mythread] or [main], and what [thread_switch] ([Uswitch.v]) saves of it is
    the place where it goes on. *)

From S2P Require Import Prelude.

(** ** The scheduler *)

Definition FREE : Z := 0.
Definition RUNNING : Z := 1.
Definition RUNNABLE : Z := 2.
Definition MAX_THREAD : nat := 8.

(** What the program prints, thread by thread. *)
Inductive event : Type := Started (t : nat) | Num (t i : nat) | Ended (t : nat) | NoRunnable | AllEnded.

(** The table by its states; threads are named by their index. *)
Record uthreads : Type := mk_ut { all_thread : list Z; current_thread : nat; current_thread_index : nat; printed : list event }.
#[local] Abbreviation UM := (M uthreads).

Definition state_of (s : uthreads) (t : nat) : Z := default 0 (all_thread s !! t).
Definition set_state (t : nat) (x : Z) : UM unit := modify (fun s => mk_ut (<[t := x]> (all_thread s)) (current_thread s) (current_thread_index s) (printed s)).
Definition set_index (i : nat) : UM unit := modify (fun s => mk_ut (all_thread s) (current_thread s) i (printed s)).
Definition printf (e : event) : UM unit := modify (fun s => mk_ut (all_thread s) (current_thread s) (current_thread_index s) (printed s ++ [e])).
(** The switch as the table sees it. *)
Definition switch_thread (t : nat) : UM unit := modify (fun s => mk_ut (all_thread s) t (current_thread_index s) (printed s)).

Definition thread_init : UM unit :=
  modify (fun s => mk_ut (all_thread s) 0 (current_thread_index s) (printed s)) ;;;
  set_state 0 RUNNING ;;;
  set_index 0.

(** The search from [start], with [n] entries left. *)
Fixpoint find_next (s : uthreads) (start n i : nat) : option nat :=
  match n with
  | O => None
  | S n =>
      let t := ((start + i) mod MAX_THREAD)%nat in
      if (state_of s t =? RUNNABLE) && negb (t =? current_thread s)%nat then Some t else find_next s start n (S i)
  end.

(** The result says whether [thread_switch] is called: then the caller goes on only when it
    is switched to. *)
Definition thread_schedule : UM bool :=
  let! start := gets (fun s => (current_thread_index s + 1) mod MAX_THREAD)%nat in
  let! next := gets (fun s => find_next s start MAX_THREAD 0) in
  (match next with Some t => set_index t | None => ret tt end) ;;;
  let! cur := gets current_thread in
  let! cs := gets (fun s => state_of s cur) in
  let next := match next with None => if cs =? RUNNABLE then Some cur else None | _ => next end in
  let! next := (match next with None => printf NoRunnable ;;; ret 0%nat | Some t => ret t end) in
  if negb (cur =? next)%nat then
    set_state next RUNNING ;;;
    switch_thread next ;;;
    ret true
  else ret false.

Fixpoint first_free (l : list Z) (t : nat) : option nat :=
  match l with [] => None | x :: l => if x =? FREE then Some t else first_free l (S t) end.
(** Behind the end of the table the source writes outside of it. *)
Definition thread_create : UM unit :=
  let! t := gets (fun s => first_free (all_thread s) 0) in
  match t with
  | Some t => set_state t RUNNABLE
  | None => undefined "thread_create: all_thread[MAX_THREAD]"
  end.

Definition thread_yield : UM bool :=
  let! cur := gets current_thread in
  set_state cur RUNNABLE ;;;
  thread_schedule.
Definition thread_exit : UM bool :=
  let! cur := gets current_thread in
  set_state cur FREE ;;;
  thread_schedule.
Definition thread_id : UM nat := gets current_thread.

(** ** The test program *)

Section program.
Context (numexecs : nat).

(** The loop of [mythread] from counter [i] on: the counter at which it was switched away,
    or [None] after [thread_exit]. *)
Fixpoint mythread_loop (fuel i : nat) : UM (option nat) :=
  match fuel with
  | O => fun _ => OutOfFuel
  | S f =>
      if Nat.ltb i numexecs then
        let! t := thread_id in
        printf (Num t i) ;;;
        let! switched := thread_yield in
        if switched then ret (Some i) else mythread_loop f (S i)
      else
        let! t := thread_id in
        printf (Ended t) ;;;
        thread_exit ;;;
        ret None
  end.

(** Where a thread goes on: at its start, or in the loop behind [thread_yield]. *)
Inductive place : Type := Start | Yielded (i : nat).
Definition mythread (p : place) : UM (option nat) :=
  match p with
  | Start => let! t := thread_id in printf (Started t) ;;; mythread_loop (S numexecs) 0
  | Yielded i => mythread_loop (S numexecs) (S i)
  end.

(** The threads until [main] is switched to again. *)
Fixpoint run (fuel : nat) (places : nat -> place) : UM unit :=
  match fuel with
  | O => fun _ => OutOfFuel
  | S f =>
      let! c := gets current_thread in
      if (c =? 0)%nat then ret tt else
      let! r := mythread (places c) in
      run f (match r with Some i => (fun t => if (t =? c)%nat then Yielded i else places t) | None => places end)
  end.

Fixpoint create_all (n : nat) : UM unit := match n with O => ret tt | S n => thread_create ;;; create_all n end.

Definition uthread_main (fuel numthreads : nat) : UM unit :=
  thread_init ;;;
  create_all numthreads ;;;
  let! switched := thread_schedule in
  (if switched then run fuel (fun _ => Start) else ret tt) ;;;
  printf AllEnded.
End program.

Definition uthread_start : uthreads := mk_ut (replicate MAX_THREAD FREE) 0 0 [].

(** ** The threads take turns *)

(** The states while threads [1] to [n] live and [cur] runs, and while they end in order. *)
Definition tbl (n cur : nat) : list Z := RUNNING :: ((fun j => if (j =? cur)%nat then RUNNING else if (j <=? n)%nat then RUNNABLE else FREE) <$> seq 1 7).
Definition etbl (n cur : nat) : list Z := RUNNING :: ((fun j => if (j =? cur)%nat then RUNNING else if (cur <? j)%nat && (j <=? n)%nat then RUNNABLE else FREE) <$> seq 1 7).
Definition turn_after (n cur : nat) : nat := if (cur <? n)%nat then S cur else 1.

(** Case analysis on a number below eight. *)
Ltac upto8 n := destruct n as [|[|[|[|[|[|[|[|?]]]]]]]]; try lia.

Lemma yield_turn n cur out : (2 <= n <= 7)%nat -> (1 <= cur <= n)%nat ->
  thread_yield (mk_ut (tbl n cur) cur cur out) = Ok true (mk_ut (tbl n (turn_after n cur)) (turn_after n cur) (turn_after n cur) out).
Proof. intros Hn Hc. upto8 n; upto8 cur; reflexivity. Qed.
Lemma exit_turn n cur out : (n <= 7)%nat -> (1 <= cur <= n)%nat ->
  thread_exit (mk_ut (etbl n cur) cur cur out) =
  if (cur <? n)%nat then Ok true (mk_ut (etbl n (S cur)) (S cur) (S cur) out) else Ok true (mk_ut (RUNNING :: replicate 7 FREE) 0 cur (out ++ [NoRunnable])).
Proof. intros Hn Hc. upto8 n; upto8 cur; reflexivity. Qed.

Section turns.
Context (k n : nat).

(** What thread [t] prints in turn [r] of the loop, and at its end. *)
Definition line (r t : nat) : list event := (if (r =? 0)%nat then [Started t] else []) ++ [Num t r].
Definition last_line (t : nat) : list event := (if (k =? 0)%nat then [Started t] else []) ++ [Ended t].
Definition before (r : nat) : place := match r with O => Start | S q => Yielded q end.
Definition expected : list event :=
  flat_map (fun r => flat_map (line r) (seq 1 n)) (seq 0 k) ++ flat_map last_line (seq 1 n) ++ [NoRunnable; AllEnded].

Lemma mythread_from r s : mythread k (before r) s = mythread_loop k (S k) r (mk_ut (all_thread s) (current_thread s) (current_thread_index s) (printed s ++ if (r =? 0)%nat then [Started (current_thread s)] else [])).
Proof. destruct r as [|q]; [done|]. cbn [before mythread Nat.eqb]. rewrite app_nil_r. by destruct s. Qed.

Lemma loop_yield f r s : (r < k)%nat -> mythread_loop k (S f) r s =
  match thread_yield (mk_ut (all_thread s) (current_thread s) (current_thread_index s) (printed s ++ [Num (current_thread s) r])) with
  | Ok true s' => Ok (Some r) s' | Ok false s' => mythread_loop k f (S r) s' | Panic e => Panic e | Blocked s' => Blocked s' | OutOfFuel => OutOfFuel end.
Proof.
  intros Hr. cbn [mythread_loop]. rewrite (proj2 (Nat.ltb_lt _ _)) by done. unfold bind at 1, thread_id, gets. unfold bind at 1, printf, modify. unfold bind at 1. by destruct (thread_yield _) as [[]| | |].
Qed.
Lemma loop_exit f s : mythread_loop k (S f) k s =
  match thread_exit (mk_ut (all_thread s) (current_thread s) (current_thread_index s) (printed s ++ [Ended (current_thread s)])) with
  | Ok _ s' => Ok None s' | Panic e => Panic e | Blocked s' => Blocked s' | OutOfFuel => OutOfFuel end.
Proof.
  cbn [mythread_loop]. rewrite Nat.ltb_irrefl. unfold bind at 1, thread_id, gets. unfold bind at 1, printf, modify. unfold bind at 1. by destruct (thread_exit _) as [[]| | |].
Qed.

Lemma turn_yield r cur out : (2 <= n <= 7)%nat -> (1 <= cur <= n)%nat -> (r < k)%nat ->
  mythread k (before r) (mk_ut (tbl n cur) cur cur out) = Ok (Some r) (mk_ut (tbl n (turn_after n cur)) (turn_after n cur) (turn_after n cur) (out ++ line r cur)).
Proof.
  intros Hn Hc Hr. rewrite mythread_from, loop_yield by done. cbn [all_thread current_thread current_thread_index printed]. rewrite yield_turn by done. unfold line. by rewrite <-app_assoc.
Qed.
Lemma turn_exit cur out : (n <= 7)%nat -> (1 <= cur <= n)%nat ->
  mythread k (before k) (mk_ut (etbl n cur) cur cur out) =
  if (cur <? n)%nat then Ok None (mk_ut (etbl n (S cur)) (S cur) (S cur) (out ++ last_line cur))
  else Ok None (mk_ut (RUNNING :: replicate 7 FREE) 0 cur (out ++ last_line cur ++ [NoRunnable])).
Proof.
  intros Hn Hc. rewrite mythread_from, loop_exit. cbn [all_thread current_thread current_thread_index printed]. rewrite exit_turn by done. unfold last_line. destruct (cur <? n)%nat; by rewrite <-?app_assoc.
Qed.

Lemma run_turn f places s r s' : current_thread s <> 0%nat -> mythread k (places (current_thread s)) s = Ok r s' ->
  run k (S f) places s = run k f (match r with Some i => (fun t => if (t =? current_thread s)%nat then Yielded i else places t) | None => places end) s'.
Proof. intros Hc Hm. cbn [run]. unfold bind at 1, gets. rewrite (proj2 (Nat.eqb_neq _ _)) by done. unfold bind. by rewrite Hm. Qed.

(** The rest of a round, from thread [cur] on. *)
Lemma run_round r : (2 <= n <= 7)%nat -> (r < k)%nat -> forall d cur f places out, (n - cur = d)%nat -> (1 <= cur <= n)%nat ->
  (forall t, (1 <= t < cur)%nat -> places t = Yielded r) -> (forall t, (cur <= t <= n)%nat -> places t = before r) ->
  exists places', (forall t, (1 <= t <= n)%nat -> places' t = Yielded r) /\
    run k (S d + f) places (mk_ut (tbl n cur) cur cur out) = run k f places' (mk_ut (tbl n 1) 1 1 (out ++ flat_map (line r) (seq cur (S d)))).
Proof.
  intros Hn Hr. induction d as [|d IH]; intros cur f places out Hd Hc Hlo Hhi.
  - assert (cur = n) as -> by lia. cbn [Nat.add]. erewrite run_turn; [|cbn; lia|cbn [current_thread]; rewrite Hhi by lia; apply turn_yield; lia].
    unfold turn_after. rewrite Nat.ltb_irrefl. eexists. split; [|cbn [seq flat_map]; rewrite app_nil_r; reflexivity]. intros t Ht. cbn [current_thread]. destruct (Nat.eqb_spec t n); [done|]. apply Hlo. lia.
  - cbn [Nat.add]. erewrite run_turn; [|cbn; lia|cbn [current_thread]; rewrite Hhi by lia; apply turn_yield; lia].
    unfold turn_after. rewrite (proj2 (Nat.ltb_lt cur n)) by lia. cbn [current_thread]. change (S (d + f)) with (S d + f)%nat.
    destruct (IH (S cur) f (fun t => if (t =? cur)%nat then Yielded r else places t) (out ++ line r cur)) as (places' & H1 & H2); [lia|lia| | |].
    + intros t Ht. destruct (Nat.eqb_spec t cur); [done|]. apply Hlo. lia.
    + intros t Ht. rewrite (proj2 (Nat.eqb_neq t cur)) by lia. apply Hhi. lia.
    + exists places'. split; [done|]. rewrite H2. cbn [seq flat_map]. by rewrite <-app_assoc.
Qed.

Lemma run_rounds : (2 <= n <= 7)%nat -> forall m r f places out, (r + m = k)%nat -> (forall t, (1 <= t <= n)%nat -> places t = before r) ->
  exists places', (forall t, (1 <= t <= n)%nat -> places' t = before k) /\
    run k (n * m + f) places (mk_ut (tbl n 1) 1 1 out) = run k f places' (mk_ut (tbl n 1) 1 1 (out ++ flat_map (fun r => flat_map (line r) (seq 1 n)) (seq r m))).
Proof.
  intros Hn. induction m as [|m IH]; intros r f places out Hm Hp.
  - rewrite Nat.mul_0_r, app_nil_r. assert (r = k) as -> by lia. by exists places.
  - replace (n * S m + f)%nat with (S (n - 1) + (n * m + f))%nat by lia.
    destruct (run_round r Hn ltac:(lia) (n - 1) 1 (n * m + f) places out) as (p1 & H1 & H2); [lia|lia|lia|done|]. rewrite H2.
    destruct (IH (S r) f p1 (out ++ flat_map (line r) (seq 1 (S (n - 1))))) as (p2 & H3 & H4); [lia|done|]. exists p2. split; [done|]. rewrite H4.
    replace (S (n - 1)) with n by lia. cbn [seq flat_map]. by rewrite <-app_assoc.
Qed.

Lemma run_ends : (n <= 7)%nat -> forall d cur f places out, (n - cur = d)%nat -> (1 <= cur <= n)%nat -> (forall t, (cur <= t <= n)%nat -> places t = before k) ->
  run k (S d + S f) places (mk_ut (etbl n cur) cur cur out) = Ok tt (mk_ut (RUNNING :: replicate 7 FREE) 0 n (out ++ flat_map last_line (seq cur (S d)) ++ [NoRunnable])).
Proof.
  intros Hn. induction d as [|d IH]; intros cur f places out Hd Hc Hp.
  - assert (cur = n) as -> by lia. cbn [Nat.add]. erewrite run_turn; [|cbn; lia|cbn [current_thread]; rewrite Hp by lia; rewrite turn_exit by lia; rewrite Nat.ltb_irrefl; reflexivity].
    cbn [run seq flat_map]. unfold bind, gets. cbn [current_thread Nat.eqb]. by rewrite app_nil_r.
  - cbn [Nat.add]. erewrite run_turn; [|cbn; lia|cbn [current_thread]; rewrite Hp by lia; rewrite turn_exit by lia; rewrite (proj2 (Nat.ltb_lt cur n)) by lia; reflexivity].
    change (S (d + S f)) with (S d + S f)%nat. rewrite IH; [|lia|lia|intros t Ht; apply Hp; lia]. cbn [seq flat_map]. by rewrite <-!app_assoc.
Qed.
End turns.

(** One thread alone: it yields to itself. *)
Definition alone : list Z := [RUNNING; RUNNABLE; FREE; FREE; FREE; FREE; FREE; FREE].
Lemma loop_alone k : forall m f r st out, st = tbl 1 1 \/ st = alone -> (r + m = k)%nat -> (m < f)%nat ->
  mythread_loop k f r (mk_ut st 1 1 out) = Ok None (mk_ut (RUNNING :: replicate 7 FREE) 0 1 (out ++ (Num 1 <$> seq r m) ++ [Ended 1; NoRunnable])).
Proof.
  induction m as [|m IH]; intros f r st out Hst Hk Hf; (destruct f as [|f]; [lia|]).
  - assert (r = k) as -> by lia. rewrite loop_exit. cbn [all_thread current_thread current_thread_index printed]. destruct Hst as [-> | ->]; unfold thread_exit, thread_schedule; cbn; by rewrite <-!app_assoc.
  - rewrite loop_yield by lia. cbn [all_thread current_thread current_thread_index printed].
    assert (Hy : forall o, thread_yield (mk_ut st 1 1 o) = Ok false (mk_ut alone 1 1 o)) by (intros o; by destruct Hst as [-> | ->]).
    rewrite Hy, (IH _ _ alone); [|by right|lia|lia]. cbn [seq fmap list_fmap]. by rewrite <-!app_assoc.
Qed.

Lemma expected_alone k : expected k 1 = Started 1 :: (Num 1 <$> seq 0 k) ++ [Ended 1; NoRunnable; AllEnded].
Proof.
  unfold expected, last_line. cbn [seq flat_map]. destruct k as [|k]; [done|]. cbn [Nat.eqb seq flat_map fmap list_fmap app]. unfold line at 1. cbn [Nat.eqb app]. do 2 f_equal.
  assert (Hgen : forall m a, (0 < a)%nat -> flat_map (fun r => line r 1 ++ []) (seq a m) = Num 1 <$> seq a m).
  { induction m as [|m IH]; intros a Ha; [done|]. cbn [seq flat_map fmap list_fmap]. unfold line at 1. rewrite (proj2 (Nat.eqb_neq a 0)) by lia. cbn [app]. f_equal. apply IH. lia. }
  by rewrite Hgen by lia.
Qed.

Lemma main_start k n f s' : (1 <= n <= 7)%nat -> run k f (fun _ => Start) (mk_ut (tbl n 1) 1 1 []) = Ok tt s' -> uthread_main k f n uthread_start = Ok tt (mk_ut (all_thread s') (current_thread s') (current_thread_index s') (printed s' ++ [AllEnded])).
Proof.
  intros Hn Hrun. assert (Hs : (thread_init ;;; create_all n ;;; thread_schedule) uthread_start = Ok true (mk_ut (tbl n 1) 1 1 [])) by (upto8 n; reflexivity).
  unfold uthread_main. revert Hs. unfold bind, printf, modify. destruct (thread_init uthread_start) as [[] s1| | |]; [|done..]. destruct (create_all n s1) as [[] s2| | |]; [|done..].
  destruct (thread_schedule s2) as [b s3| | |]; [|done..]. intros [= -> ->]. by rewrite Hrun.
Qed.


(** With eight threads the table is full, and the last [thread_create] writes behind it. *)
Lemma uthread_table_full k fuel : uthread_main k fuel 8 uthread_start = Panic "undefined: thread_create: all_thread[MAX_THREAD]".
Proof. reflexivity. Qed.
