(* ===== verification/Trapasm.v ===== *)
(** * The assembly code of traps and context switches
      ([src/xv6/trapasm.S], [src/xv6/vectors.pl], [src/xv6/swtch.S], [src/xv6/usys.S],
      [src/xv6/initcode.S], and the kernel stack that [allocproc] of [src/xv6/proc.c] prepares)

    The instructions work on the registers of Uswitch.v, the segment registers, the flags and
    the memory as the current page table shows it.  [deliver] and [iret] are what the processor
    does when it takes a trap through a gate ([Seg.v]) and when it returns; its checks of
    segments are not modelled.  The body of [trap] itself is in Sysproc.v: here it is whatever
    happens between the call and the return. *)

From S2P Require Import Prelude Mem Proc Seg Uswitch.

Record xcpu : Type := mk_x {
  x_r : cpu; x_cs : Z; x_ds : Z; x_es : Z; x_fs : Z; x_gs : Z; x_ss : Z; x_eflags : Z; x_mem : mem
}.
Definition x_set_r r s := mk_x r (x_cs s) (x_ds s) (x_es s) (x_fs s) (x_gs s) (x_ss s) (x_eflags s) (x_mem s).
Definition x_set_mem m s := mk_x (x_r s) (x_cs s) (x_ds s) (x_es s) (x_fs s) (x_gs s) (x_ss s) (x_eflags s) m.
Definition x_set_ds v s := mk_x (x_r s) (x_cs s) v (x_es s) (x_fs s) (x_gs s) (x_ss s) (x_eflags s) (x_mem s).
Definition x_set_es v s := mk_x (x_r s) (x_cs s) (x_ds s) v (x_fs s) (x_gs s) (x_ss s) (x_eflags s) (x_mem s).
Definition x_set_fs v s := mk_x (x_r s) (x_cs s) (x_ds s) (x_es s) v (x_gs s) (x_ss s) (x_eflags s) (x_mem s).
Definition x_set_gs v s := mk_x (x_r s) (x_cs s) (x_ds s) (x_es s) (x_fs s) v (x_ss s) (x_eflags s) (x_mem s).
Definition x_esp (s : xcpu) : Z := esp (x_r s).
Definition x_set_esp v s := x_set_r (set_esp v (x_r s)) s.
Definition set_eip (v : Z) (c : cpu) : cpu := mk_cpu (eax c) (ebx c) (ecx c) (edx c) (esp c) (ebp c) (esi c) (edi c) v.
Definition x_goto a s := x_set_r (set_eip a (x_r s)) s.

Definition pushl (v : Z) (s : xcpu) : xcpu :=
  let sp := u32 (x_esp s - 4) in x_set_esp sp (x_set_mem (store32 (x_mem s) sp v) s).
(** [popl], with what is done with the word. *)
Definition popl (f : Z -> xcpu -> xcpu) (s : xcpu) : xcpu :=
  f (load32 (x_mem s) (x_esp s)) (x_set_esp (u32 (x_esp s + 4)) s).
Definition pushes (l : list Z) (s : xcpu) : xcpu := foldl (fun s v => pushl v s) s l.

(** Code is a list of instructions, run from the first to the last. *)
Abbreviation instr := (xcpu -> xcpu).
Definition run (l : list instr) (s : xcpu) : xcpu := foldl (fun s f => f s) s l.

(** [pushal], [popal]: [esp] is pushed as it was before, and skipped on the way back. *)
Definition pushal (s : xcpu) : xcpu :=
  let c := x_r s in pushes [eax c; ecx c; edx c; ebx c; esp c; ebp c; esi c; edi c] s.
Definition popal (s : xcpu) : xcpu :=
  let w k := load32 (x_mem s) (u32 (x_esp s + 4 * k)) in
  x_set_r (mk_cpu (w 7) (w 4) (w 6) (w 5) (u32 (x_esp s + 32)) (w 2) (w 1) (w 0) (eip (x_r s))) s.

(** ** Traps *)

Definition FL_IF : Z := 0x200.

(** The processor takes a trap through the gate [g]: from user mode it switches to the stack
    of the task state; some traps push an error code. *)
Definition deliver (g : gatedesc) (t : taskstate) (err : option Z) (s : xcpu) : xcpu :=
  let s1 := if Z.land (x_cs s) 3 =? 0 then s else
    pushes [x_ss s; x_esp s] (mk_x (set_esp (ts_esp0 t) (x_r s)) (x_cs s) (x_ds s) (x_es s) (x_fs s) (x_gs s) (ts_ss0 t) (x_eflags s) (x_mem s)) in
  let s2 := pushes ([x_eflags s; x_cs s; eip (x_r s)] ++ match err with Some e => [e] | None => [] end) s1 in
  mk_x (set_eip (gate_offset g) (x_r s2)) (gd_cs g) (x_ds s2) (x_es s2) (x_fs s2) (x_gs s2) (x_ss s2)
    (if gd_type g =? STS_IG32 then Z.ldiff (x_eflags s) FL_IF else x_eflags s) (x_mem s2).
(** [int $n]; without the privilege for the gate it is another trap, [None]. *)
Definition int_n (idt : list gatedesc) (t : taskstate) (n : Z) (s : xcpu) : option xcpu :=
  match idt !! Z.to_nat n with
  | Some g => if gd_dpl g <? Z.land (x_cs s) 3 then None else Some (deliver g t None s)
  | None => None
  end.
(** [iret]; a return to user mode also pops the stack pointer. *)
Definition iret (s : xcpu) : xcpu :=
  let w k := load32 (x_mem s) (u32 (x_esp s + 4 * k)) in
  let outer := Z.land (x_cs s) 3 <? Z.land (w 1) 3 in
  mk_x (set_eip (w 0) (set_esp (if outer then w 3 else u32 (x_esp s + 12)) (x_r s))) (u16 (w 1)) (x_ds s) (x_es s) (x_fs s) (x_gs s)
    (if outer then u16 (w 4) else x_ss s) (w 2) (x_mem s).

(** The generated entry point of trap [i], up to the jump to [alltraps]. *)
Definition has_errcode (i : Z) : bool := (i =? 8) || ((10 <=? i) && (i <=? 14)) || (i =? 17).
Definition vector (i : Z) : list instr := (if negb (has_errcode i) then [pushl 0] else []) ++ [pushl i].

(** Up to the first instruction of [trap]; [ra] is the address behind the call. *)
Definition alltraps (trap_addr ra : Z) : list instr :=
  [fun s => pushl (x_ds s) s;
   fun s => pushl (x_es s) s;
   fun s => pushl (x_fs s) s;
   fun s => pushl (x_gs s) s;
   pushal;
   fun s => x_set_r (set_eax (Z.lor (Z.land (eax (x_r s)) 0xffff0000) (Z.shiftl SEG_KDATA 3)) (x_r s)) s;
   fun s => x_set_ds (u16 (eax (x_r s))) s;
   fun s => x_set_es (u16 (eax (x_r s))) s;
   fun s => pushl (x_esp s) s;
   fun s => x_goto trap_addr (pushl ra s)].
Definition trapret : list instr :=
  [popal;
   popl (fun w => x_set_gs (u16 w));
   popl (fun w => x_set_fs (u16 w));
   popl (fun w => x_set_es (u16 w));
   popl (fun w => x_set_ds (u16 w));
   fun s => x_set_esp (u32 (x_esp s + 8)) s;
   iret].
(** What follows the call. *)
Definition after_trap : list instr := (fun s => x_set_esp (u32 (x_esp s + 4)) s) :: trapret.

(** [struct trapframe] in memory. *)
Definition get_tf (m : mem) (a : Z) : trapframe :=
  let w k := load32 m (a + 4 * k) in
  mk_tf (w 0) (w 1) (w 2) (w 3) (w 4) (w 5) (w 6) (w 7) (u16 (w 8)) (u16 (w 9)) (u16 (w 10)) (u16 (w 11)) (w 12)
    (w 13) (w 14) (u16 (w 15)) (w 16) (w 17) (u16 (w 18)).
Definition TFSIZE : Z := 76.

(** ** System calls of user programs *)

(** A stub of usys.S: up to the trap, behind which the address is [after], and the [ret] there. *)
Definition stub_enter (num : Z) (after : Z) (s : xcpu) : xcpu := x_goto after (x_set_r (set_eax num (x_r s)) s).
Definition stub_ret (s : xcpu) : xcpu := popl x_goto s.

(** The first instructions of initcode.S. *)
Definition initcode_start (argv init num after : Z) : list instr := [pushl argv; pushl init; pushl 0; stub_enter num after].

(** ** Context switches *)

Definition set_ebp v c := mk_cpu (eax c) (ebx c) (ecx c) (edx c) (esp c) v (esi c) (edi c) (eip c).
Definition set_ebx v c := mk_cpu (eax c) v (ecx c) (edx c) (esp c) (ebp c) (esi c) (edi c) (eip c).
Definition set_esi v c := mk_cpu (eax c) (ebx c) (ecx c) (edx c) (esp c) (ebp c) v (edi c) (eip c).
Definition set_edi v c := mk_cpu (eax c) (ebx c) (ecx c) (edx c) (esp c) (ebp c) (esi c) v (eip c).
Definition set_edx v c := mk_cpu (eax c) (ebx c) (ecx c) v (esp c) (ebp c) (esi c) (edi c) (eip c).
Definition to_reg (f : Z -> cpu -> cpu) (v : Z) (s : xcpu) : xcpu := x_set_r (f v (x_r s)) s.

Definition swtch : list instr :=
  [fun s => to_reg set_eax (load32 (x_mem s) (u32 (x_esp s + 4))) s;
   fun s => to_reg set_edx (load32 (x_mem s) (u32 (x_esp s + 8))) s;
   fun s => pushl (ebp (x_r s)) s;
   fun s => pushl (ebx (x_r s)) s;
   fun s => pushl (esi (x_r s)) s;
   fun s => pushl (edi (x_r s)) s;
   fun s => x_set_mem (store32 (x_mem s) (eax (x_r s)) (x_esp s)) s;
   fun s => x_set_esp (edx (x_r s)) s;
   popl (to_reg set_edi);
   popl (to_reg set_esi);
   popl (to_reg set_ebx);
   popl (to_reg set_ebp);
   popl x_goto].

(** The kernel stack of a new process, from [sp = p->kstack + KSTACKSIZE] on: the memory, the
    address of the trap frame and that of the context. *)
Definition new_kstack (kstack trapret_addr forkret_addr : Z) (m : mem) : mem * Z * Z :=
  let sp := kstack + KSTACKSIZE in
  let tf := sp - TFSIZE in
  let sp := tf - 4 in
  let m := store32 m sp trapret_addr in
  let context := sp - 20 in
  let m := store_bytes m context (replicate 20 0) in
  (store32 m (context + 16) forkret_addr, tf, context).

(** ** What a sequence of pushes does *)

Fixpoint psp (l : list Z) (sp : Z) : Z := match l with [] => sp | _ :: l => psp l (u32 (sp - 4)) end.
Fixpoint pmem (l : list Z) (sp : Z) (m : mem) : mem :=
  match l with [] => m | v :: l => pmem l (u32 (sp - 4)) (store32 m (u32 (sp - 4)) v) end.

Lemma pushes_eq l : forall s, pushes l s = x_set_esp (psp l (x_esp s)) (x_set_mem (pmem l (x_esp s) (x_mem s)) s).
Proof.
  induction l as [|v l IH]; intros s; [by destruct s as [[]]|].
  change (pushes (v :: l) s) with (pushes l (pushl v s)). by rewrite IH.
Qed.
Lemma psp_eq l : forall sp, 4 * Z.of_nat (length l) <= sp < W32 -> psp l sp = sp - 4 * Z.of_nat (length l).
Proof.
  induction l as [|v l IH]; intros sp Hsp; cbn [psp length] in *; [lia|].
  rewrite u32_small by (unfold W32 in *; lia). rewrite IH by lia. lia.
Qed.
Lemma pmem_frame l : forall sp m x, 4 * Z.of_nat (length l) <= sp < W32 -> x < sp - 4 * Z.of_nat (length l) \/ sp <= x -> pmem l sp m x = m x.
Proof.
  induction l as [|v l IH]; intros sp m x Hsp Hx; cbn [pmem length] in *; [done|].
  rewrite u32_small by (unfold W32 in *; lia). rewrite IH by lia. apply store32_ne. lia.
Qed.
Lemma pmem_word l : forall sp m k v, 4 * Z.of_nat (length l) <= sp < W32 -> l !! k = Some v -> 0 <= v < W32 ->
  load32 (pmem l sp m) (sp - 4 * (Z.of_nat k + 1)) = v.
Proof.
  induction l as [|w l IH]; intros sp m k v Hsp Hk Hv; [done|]. cbn [pmem length] in *.
  rewrite u32_small by (unfold W32 in *; lia). destruct k as [|k]; cbn in Hk.
  - injection Hk as ->. replace (sp - 4 * (Z.of_nat 0 + 1)) with (sp - 4) by lia.
    rewrite (load32_ext _ (store32 m (sp - 4) v)) by (intros x Hx; apply pmem_frame; lia). by apply load32_store32_eq.
  - replace (sp - 4 * (Z.of_nat (S k) + 1)) with (sp - 4 - 4 * (Z.of_nat k + 1)) by lia. apply IH; [lia|done|done].
Qed.

(** ** From the trap to [trap] *)

Lemma psp_snoc l v k : psp (l ++ [v]) k = u32 (psp l k - 4).
Proof. revert k. induction l as [|w l IH]; intros k; [done|]. apply IH. Qed.
Lemma pmem_snoc l v k m : pmem (l ++ [v]) k m = store32 (pmem l k m) (u32 (psp l k - 4)) v.
Proof. revert k m. induction l as [|w l IH]; intros k m; [done|]. apply IH. Qed.

(** A state whose stack has grown by [l] from [k] on. *)
Abbreviation stacked l k m a b c d bp si di ip cs ds es fs gs ss fl := (mk_x (mk_cpu a b c d (psp l k) bp si di ip) cs ds es fs gs ss fl (pmem l k m)).
Lemma pushl_stacked v l k m a b c d bp si di ip cs ds es fs gs ss fl :
  pushl v (stacked l k m a b c d bp si di ip cs ds es fs gs ss fl) = stacked (l ++ [v]) k m a b c d bp si di ip cs ds es fs gs ss fl.
Proof. unfold pushl. rewrite psp_snoc, pmem_snoc. reflexivity. Qed.
Lemma run_cons f l s : run (f :: l) s = run l (f s).
Proof. done. Qed.
Lemma run_app l1 l2 s : run (l1 ++ l2) s = run l2 (run l1 s).
Proof. apply foldl_app. Qed.
Lemma pushes_stacked l' : forall l k m a b c d bp si di ip cs ds es fs gs ss fl,
  pushes l' (stacked l k m a b c d bp si di ip cs ds es fs gs ss fl) = stacked (l ++ l') k m a b c d bp si di ip cs ds es fs gs ss fl.
Proof.
  induction l' as [|v l' IH]; intros; [by rewrite app_nil_r|]. change (v :: l') with ([v] ++ l'). rewrite app_assoc.
  change (pushes ([v] ++ l') ?s) with (pushes l' (pushl v s)). by rewrite pushl_stacked, IH.
Qed.

(** The words of the trap frame, from the top of the kernel stack down. *)
Definition hw_words (s : xcpu) : list Z := [x_ss s; esp (x_r s); x_eflags s; x_cs s; eip (x_r s)].
Definition seg_words (s : xcpu) : list Z := [x_ds s; x_es s; x_fs s; x_gs s].
Definition frame_words (s : xcpu) (i e k : Z) : list Z :=
  let l := hw_words s ++ [e; i] ++ seg_words s in
  let c := x_r s in
  l ++ [eax c; ecx c; edx c; ebx c; psp l k; ebp c; esi c; edi c].

Lemma kdata_ax a : u16 (Z.lor (Z.land a 0xffff0000) (Z.shiftl SEG_KDATA 3)) = 16.
Proof.
  unfold u16. change 65536 with (2 ^ 16). rewrite <- Z.land_ones by lia. change 0xffff0000 with (Z.shiftl 0xffff 16).
  apply Z.bits_inj'. intros n Hn. rewrite !Z.land_spec, Z.lor_spec, Z.land_spec. change (Z.shiftl SEG_KDATA 3) with 16.
  rewrite Z.shiftl_spec by lia. destruct (Z.lt_ge_cases n 16).
  - rewrite (Z.testbit_neg_r 65535 (n - 16)) by lia. rewrite Z.ones_spec_low by lia. by rewrite andb_false_r, andb_true_r.
  - rewrite Z.ones_spec_high by lia. rewrite andb_false_r. symmetry. apply Z.bits_above_log2; [lia|]. change (Z.log2 16) with 4. lia.
Qed.

(** A trap from user mode: at the first instruction of [trap] the frame, its address and the
    return address are on the kernel stack of the process. *)
Lemma trap_entry_run g t (err : option Z) i ta ra s (k := ts_esp0 t) (l := frame_words s i (default 0 err) k) :
  Z.land (x_cs s) 3 <> 0 -> has_errcode i = match err with Some _ => true | None => false end ->
  exists a fl, run (vector i ++ alltraps ta ra) (deliver g t err s) =
    stacked (l ++ [psp l k; ra]) k (x_mem s) a (ebx (x_r s)) (ecx (x_r s)) (edx (x_r s)) (ebp (x_r s)) (esi (x_r s)) (edi (x_r s)) ta
      (gd_cs g) 16 16 (x_fs s) (x_gs s) (ts_ss0 t) fl.
Proof.
  intros Hu Hi. destruct s as [[a b c d sp bp si di ip] cs ds es fs gs ss fl m]. unfold deliver. cbn [x_cs] in *. rewrite (proj2 (Z.eqb_neq _ _) Hu).
  cbn [x_r x_ss x_esp x_eflags x_ds x_es x_fs x_gs x_mem set_esp eax ebx ecx edx esp ebp esi edi eip].
  unfold set_esp. cbn [eax ebx ecx edx esp ebp esi edi eip].
  change (mk_x (mk_cpu a b c d (ts_esp0 t) bp si di ip) cs ds es fs gs (ts_ss0 t) fl m) with (stacked [] k m a b c d bp si di ip cs ds es fs gs (ts_ss0 t) fl).
  cbv zeta. rewrite !pushes_stacked. cbn [x_r x_cs x_ds x_es x_fs x_gs x_ss x_eflags x_mem set_eip eax ebx ecx edx esp ebp esi edi eip].
  set (fl' := if gd_type g =? STS_IG32 then _ else _). clearbody fl'.
  assert (Hv : forall x, run (vector i) (stacked ([] ++ [ss; sp] ++ [fl; cs; ip] ++ match err with Some e => [e] | None => [] end) k m a b c d bp si di (gate_offset g) (gd_cs g) ds es fs gs (ts_ss0 t) x) =
    stacked ([ss; sp; fl; cs; ip] ++ [default 0 err; i]) k m a b c d bp si di (gate_offset g) (gd_cs g) ds es fs gs (ts_ss0 t) x).
  { intros x. unfold vector. rewrite Hi. destruct err as [e|]; cbn [app negb default from_option]; rewrite ?run_cons, !pushl_stacked; reflexivity. }
  rewrite run_app. cbn [app] in *. rewrite Hv. unfold alltraps. clear Hv.
  do 4 (rewrite run_cons; cbn [x_ds x_es x_fs x_gs]; rewrite pushl_stacked).
  rewrite run_cons. unfold pushal. cbv zeta. cbn [x_r eax ebx ecx edx esp ebp esi edi]. rewrite pushes_stacked.
  do 3 rewrite run_cons. unfold x_set_r, x_set_ds, x_set_es, set_eax. cbn [x_r x_cs x_ds x_es x_fs x_gs x_ss x_eflags x_mem eax ebx ecx edx esp ebp esi edi eip].
  rewrite kdata_ax. rewrite run_cons. unfold x_esp at 1. cbn [x_r esp]. rewrite pushl_stacked. rewrite run_cons, pushl_stacked.
  do 2 eexists. rewrite <- !app_assoc. reflexivity.
Qed.

(** ** The trap frame *)

(** The registers are words, the selectors 16 bits. *)
Definition x_ok (s : xcpu) : Prop :=
  Forall (fun x => 0 <= x < W32) [eax (x_r s); ebx (x_r s); ecx (x_r s); edx (x_r s); esp (x_r s); ebp (x_r s); esi (x_r s); edi (x_r s); eip (x_r s); x_eflags s] /\
  Forall (fun x => 0 <= x < 65536) [x_cs s; x_ds s; x_es s; x_fs s; x_gs s; x_ss s].

(** What [trap] finds in the frame, and the user state that a frame describes. *)
Definition frame_of (s : xcpu) (i e k : Z) : trapframe :=
  let c := x_r s in
  mk_tf (edi c) (esi c) (ebp c) (k - 44) (ebx c) (edx c) (ecx c) (eax c) (x_gs s) (x_fs s) (x_es s) (x_ds s) i e (eip c) (x_cs s) (x_eflags s) (esp c) (x_ss s).
Definition user_of (f : trapframe) (m : mem) : xcpu :=
  mk_x (mk_cpu (tf_eax f) (tf_ebx f) (tf_ecx f) (tf_edx f) (tf_esp f) (tf_ebp f) (tf_esi f) (tf_edi f) (tf_eip f))
    (tf_cs f) (tf_ds f) (tf_es f) (tf_fs f) (tf_gs f) (tf_ss f) (tf_eflags f) m.

Lemma u16_small x : 0 <= x < 65536 -> u16 x = x.
Proof. apply Z.mod_small. Qed.
Lemma u16_land3 x : Z.land (u16 x) 3 = Z.land x 3.
Proof. unfold u16. change 65536 with (2 ^ 16). rewrite <- Z.land_ones by lia. by rewrite <- Z.land_assoc. Qed.

Lemma get_tf_frame s i e k m x y : x_ok s -> 0 <= i < 256 -> 0 <= e < W32 -> 84 <= k < W32 ->
  get_tf (pmem (frame_words s i e k ++ [x; y]) k m) (k - TFSIZE) = frame_of s i e k.
Proof.
  intros [Hr Hs] Hi He Hk. unfold W32 in *. set (l := frame_words s i e k ++ [x; y]).
  assert (W : forall n v, 0 <= n <= 18 -> l !! Z.to_nat (18 - n) = Some v -> 0 <= v < 4294967296 -> load32 (pmem l k m) (k - TFSIZE + 4 * n) = v).
  { intros n v Hn Hl Hv. replace (k - TFSIZE + 4 * n) with (k - 4 * (Z.of_nat (Z.to_nat (18 - n)) + 1)) by (unfold TFSIZE; lia).
    apply pmem_word; [change (length l) with 21%nat; unfold W32; lia|done|done]. }
  generalize dependent (pmem l k m). intros mm W. unfold get_tf. cbv beta zeta.
  assert (Ho : psp (hw_words s ++ [e; i] ++ seg_words s) k = k - 44) by (rewrite psp_eq by (cbn [length app hw_words seg_words]; unfold W32; lia); cbn [length app hw_words seg_words]; lia).
  assert (Hl : l = [x_ss s; esp (x_r s); x_eflags s; x_cs s; eip (x_r s); e; i; x_ds s; x_es s; x_fs s; x_gs s; eax (x_r s); ecx (x_r s); edx (x_r s); ebx (x_r s); k - 44; ebp (x_r s); esi (x_r s); edi (x_r s); x; y])
    by (unfold l, frame_words; cbv zeta; rewrite Ho; done).
  rewrite Hl in W. clearbody l. clear Hl. decompose_Forall_hyps.
  rewrite (W 0 _ ltac:(lia) eq_refl), (W 1 _ ltac:(lia) eq_refl), (W 2 _ ltac:(lia) eq_refl), (W 3 _ ltac:(lia) eq_refl), (W 4 _ ltac:(lia) eq_refl), (W 5 _ ltac:(lia) eq_refl),
    (W 6 _ ltac:(lia) eq_refl), (W 7 _ ltac:(lia) eq_refl), (W 8 _ ltac:(lia) eq_refl), (W 9 _ ltac:(lia) eq_refl), (W 10 _ ltac:(lia) eq_refl), (W 11 _ ltac:(lia) eq_refl),
    (W 12 _ ltac:(lia) eq_refl), (W 13 _ ltac:(lia) eq_refl), (W 14 _ ltac:(lia) eq_refl), (W 15 _ ltac:(lia) eq_refl), (W 16 _ ltac:(lia) eq_refl), (W 17 _ ltac:(lia) eq_refl), (W 18 _ ltac:(lia) eq_refl) by lia.
  rewrite !u16_small by lia. reflexivity.
Qed.

(** Returning from a frame of user mode restores what it describes. *)
Lemma popl_eq f a b c d sp bp si di ip cs ds es fs gs ss fl m : 0 <= sp < W32 - 4 ->
  popl f (mk_x (mk_cpu a b c d sp bp si di ip) cs ds es fs gs ss fl m) = f (load32 m sp) (mk_x (mk_cpu a b c d (sp + 4) bp si di ip) cs ds es fs gs ss fl m).
Proof. intros H. unfold popl, x_esp. cbn [x_r esp x_mem]. rewrite u32_small by (unfold W32 in *; lia). reflexivity. Qed.

Lemma trapret_run s tf f : x_esp s = tf -> get_tf (x_mem s) tf = f -> 0 <= tf -> tf + TFSIZE < W32 ->
  Z.land (x_cs s) 3 = 0 -> Z.land (tf_cs f) 3 = 3 -> run trapret s = user_of f (x_mem s).
Proof.
  intros Hsp Hf Htf Hw Hk Hu. unfold TFSIZE in Hw. destruct s as [[a b c d sp bp si di ip] cs ds es fs gs ss fl m]. cbn in Hsp. subst sp. cbn [x_mem x_cs] in *.
  unfold trapret. rewrite run_cons. unfold popal, x_esp, x_set_r. cbv beta zeta. cbn [x_r x_mem x_cs x_ds x_es x_fs x_gs x_ss x_eflags esp eip].
  rewrite !(u32_small (tf + _)) by (unfold W32 in *; lia).
  do 4 (rewrite run_cons, popl_eq by lia; unfold x_set_gs, x_set_fs, x_set_es, x_set_ds; cbn [x_r x_mem x_cs x_ds x_es x_fs x_gs x_ss x_eflags]).
  rewrite run_cons. unfold x_set_esp, x_esp, x_set_r, set_esp. cbn [x_r x_mem x_cs x_ds x_es x_fs x_gs x_ss x_eflags eax ebx ecx edx esp ebp esi edi eip].
  rewrite run_cons. unfold iret, x_esp. cbv beta zeta. cbn [x_r x_mem x_cs x_ds x_es x_fs x_gs x_ss x_eflags esp].
  rewrite (u32_small (tf + 32 + 4 + 4 + 4 + 4 + 8)) by (unfold W32 in *; lia). rewrite !(u32_small (_ + 4 * _)) by (unfold W32 in *; lia).
  rewrite Hk. subst f. unfold get_tf in *. cbv beta zeta in *. cbn [tf_cs] in Hu. rewrite u16_land3 in Hu.
  replace (tf + 32 + 4 + 4 + 4 + 4 + 8 + 4 * 1) with (tf + 4 * 15) by lia. rewrite Hu. change (0 <? 3) with true. cbv iota.
  replace (tf + 32 + 4 + 4 + 4 + 4 + 8 + 4 * 0) with (tf + 4 * 14) by lia. replace (tf + 32 + 4 + 4 + 4 + 4 + 8 + 4 * 2) with (tf + 4 * 16) by lia.
  replace (tf + 32 + 4 + 4 + 4 + 4 + 8 + 4 * 3) with (tf + 4 * 17) by lia. replace (tf + 32 + 4 + 4 + 4 + 4 + 8 + 4 * 4) with (tf + 4 * 18) by lia.
  replace (tf + 32 + 4 + 4 + 4) with (tf + 4 * 11) by lia. replace (tf + 32 + 4 + 4) with (tf + 4 * 10) by lia. replace (tf + 32 + 4) with (tf + 4 * 9) by lia. replace (tf + 32) with (tf + 4 * 8) by lia.
  reflexivity.
Qed.

(** The two halves of [swtch]: the context of the caller on its stack, and the one loaded. *)
Lemma swtch_run s (sp := x_esp s) (old := load32 (x_mem s) (sp + 4)) (new := load32 (x_mem s) (sp + 8)) :
  16 <= sp < W32 - 8 -> 0 <= new < W32 - 20 ->
  let c := x_r s in
  let m := store32 (pmem [ebp c; ebx c; esi c; edi c] sp (x_mem s)) old (sp - 16) in
  run swtch s = mk_x (mk_cpu old (load32 m (new + 8)) (ecx c) new (new + 20) (load32 m (new + 12)) (load32 m (new + 4)) (load32 m new) (load32 m (new + 16)))
    (x_cs s) (x_ds s) (x_es s) (x_fs s) (x_gs s) (x_ss s) (x_eflags s) m.
Proof.
  intros Hsp Hnew c m. subst c. subst m. destruct s as [[a b cc d sp' bp si di ip] cs ds es fs gs ss fl m]. unfold x_esp in *. cbn [x_r x_mem esp ecx ebx ebp esi edi] in *. change sp' with sp. clearbody sp.
  unfold swtch. do 2 (rewrite run_cons; unfold to_reg, x_set_r, x_esp, set_eax, set_edx; cbn [x_r x_mem x_cs x_ds x_es x_fs x_gs x_ss x_eflags eax ebx ecx edx esp ebp esi edi eip]).
  rewrite !u32_small by (unfold W32 in *; lia). fold old. fold new.
  change (mk_x (mk_cpu old b cc new sp bp si di ip) cs ds es fs gs ss fl m) with (stacked [] sp m old b cc new bp si di ip cs ds es fs gs ss fl).
  do 4 (rewrite run_cons; cbn [x_r ebp ebx esi edi]; rewrite pushl_stacked). cbn [app].
  do 2 (rewrite run_cons; unfold x_set_mem, x_set_esp, x_set_r, set_esp, x_esp; cbn [x_r x_mem x_cs x_ds x_es x_fs x_gs x_ss x_eflags eax ebx ecx edx esp ebp esi edi eip]).
  rewrite psp_eq by (cbn [length]; unfold W32 in *; lia). change (sp - 4 * Z.of_nat (length [bp; b; si; di])) with (sp - 16).
  set (mm := store32 _ old (sp - 16)). clearbody mm.
  do 5 (rewrite run_cons, popl_eq by lia; unfold to_reg, x_goto, x_set_r, set_edi, set_esi, set_ebx, set_ebp, set_eip; cbn [x_r x_mem x_cs x_ds x_es x_fs x_gs x_ss x_eflags eax ebx ecx edx esp ebp esi edi eip]).
  replace (new + 4 + 4 + 4 + 4 + 4) with (new + 20) by lia. replace (new + 4 + 4 + 4 + 4) with (new + 16) by lia. replace (new + 4 + 4 + 4) with (new + 12) by lia. replace (new + 4 + 4) with (new + 8) by lia.
  reflexivity.
Qed.

(** ** Traps from user mode *)

Lemma trap_enters g t (err : option Z) i ta ra s (k := ts_esp0 t) (s1 := run (vector i ++ alltraps ta ra) (deliver g t err s)) :
  x_ok s -> Z.land (x_cs s) 3 = 3 -> 84 <= k < W32 -> 0 <= i < 256 -> has_errcode i = match err with Some _ => true | None => false end ->
  0 <= default 0 err < W32 ->
  eip (x_r s1) = ta /\ x_cs s1 = gd_cs g /\ x_esp s1 = k - 84 /\ load32 (x_mem s1) (k - 80) = k - TFSIZE /\
  get_tf (x_mem s1) (k - TFSIZE) = frame_of s i (default 0 err) k /\ forall x, x < k - 84 \/ k <= x -> x_mem s1 x = x_mem s x.
Proof.
  intros Hok Hu Hk Hi Hv He. destruct (trap_entry_run g t err i ta ra s ltac:(lia) Hv) as (a & fl & E). fold k in E. unfold s1. rewrite E. clear E s1.
  set (l := frame_words s i (default 0 err) k). assert (Hl : length (l ++ [psp l k; ra]) = 21%nat) by done. assert (Hp : psp l k = k - TFSIZE).
  { rewrite psp_eq by (change (length l) with 19%nat; lia). by change (length l) with 19%nat. }
  unfold x_esp. cbn [x_r x_cs x_mem esp eip]. split_and!; [done|done| | | |].
  - rewrite psp_eq by (rewrite Hl; lia). rewrite Hl. lia.
  - rewrite Hp. replace (k - 80) with (k - 4 * (Z.of_nat 19 + 1)) by lia. apply pmem_word; [change (length (l ++ [k - TFSIZE; ra])) with 21%nat; lia|done|unfold TFSIZE, W32 in *; lia].
  - by apply get_tf_frame.
  - intros x Hx. apply pmem_frame; rewrite Hl; lia.
Qed.

Lemma trap_returns s tf f : x_esp s = tf - 4 -> get_tf (x_mem s) tf = f -> 4 <= tf -> tf + TFSIZE < W32 ->
  Z.land (x_cs s) 3 = 0 -> Z.land (tf_cs f) 3 = 3 -> run after_trap s = user_of f (x_mem s).
Proof.
  intros Hsp Hf Htf Hw Hk Hu. unfold after_trap. rewrite run_cons, Hsp. rewrite u32_small by (unfold TFSIZE, W32 in *; lia).
  set (s' := x_set_esp _ s). change (x_mem s) with (x_mem s'). apply (trapret_run s' tf f); [change (tf - 4 + 4 = tf); lia|done|lia|done..].
Qed.

(** The state in which the user program was. *)
Lemma user_of_frame s i e k m : user_of (frame_of s i e k) m = x_set_mem m s.
Proof. by destruct s as [[]]. Qed.
Lemma user_of_set_eax s i e k m r : user_of (tf_set_eax r (frame_of s i e k)) m = x_set_r (set_eax r (x_r s)) (x_set_mem m s).
Proof. by destruct s as [[]]. Qed.

(** A trap whose frame [trap] leaves as it is does not change the interrupted program. *)
Theorem trap_transparent g t (err : option Z) i ta ra s s2 (k := ts_esp0 t) (s1 := run (vector i ++ alltraps ta ra) (deliver g t err s)) :
  x_ok s -> Z.land (x_cs s) 3 = 3 -> 84 <= k < W32 - 1 -> 0 <= i < 256 -> has_errcode i = match err with Some _ => true | None => false end ->
  0 <= default 0 err < W32 -> Z.land (gd_cs g) 3 = 0 ->
  x_cs s2 = x_cs s1 -> x_esp s2 = x_esp s1 + 4 -> get_tf (x_mem s2) (k - TFSIZE) = get_tf (x_mem s1) (k - TFSIZE) ->
  run after_trap s2 = x_set_mem (x_mem s2) s.
Proof.
  intros Hok Hu Hk Hi Hv He Hg Hcs Hsp Hf. destruct (trap_enters g t err i ta ra s Hok Hu ltac:(lia) Hi Hv He) as (_ & Ecs & Esp & _ & Ef & _). fold k s1 in Ecs, Esp, Ef.
  rewrite <- (user_of_frame s i (default 0 err) k). apply (trap_returns s2 (k - TFSIZE)); [unfold TFSIZE; lia|by rewrite Hf|unfold TFSIZE; lia|unfold TFSIZE; lia|by rewrite Hcs, Ecs|done].
Qed.

(** C35: A system call from a user program and back: the program has pushed the arguments and
    called a stub of usys.S.  Through the gate of [tvinit] it gets into [trap] on the kernel
    stack of the process, with the address of a trap frame as its argument; in the frame are
    the number of the call in [eax], the trap number and the stack pointer, above which
    [argint] finds the arguments.  When [trap] returns with [r] in the [eax] of the frame, the
    stub returns [r] to the instruction behind the call, and every other register, the flags
    and the segments are those of the program. *)
Theorem syscall_roundtrip vectors t num after ta ra s (k := ts_esp0 t) (sp := esp (x_r s)) (u := stub_enter num after s) :
  x_ok s -> Z.land (x_cs s) 3 = 3 -> 0 <= num < W32 -> 0 <= after < W32 -> 84 <= k < W32 - 1 -> sp < W32 - 4 ->
  exists s0, int_n (tvinit vectors) t T_SYSCALL u = Some s0 /\ eip (x_r s0) = u32 (vectors T_SYSCALL) /\
  let s1 := run (vector T_SYSCALL ++ alltraps ta ra) s0 in
  let f := get_tf (x_mem s1) (k - TFSIZE) in
  eip (x_r s1) = ta /\ load32 (x_mem s1) (x_esp s1 + 4) = k - TFSIZE /\
  tf_eax f = num /\ tf_trapno f = T_SYSCALL /\ tf_esp f = sp /\ (forall x, x < k - 84 \/ k <= x -> x_mem s1 x = x_mem s x) /\
  (forall s2 r, x_cs s2 = x_cs s1 -> x_esp s2 = x_esp s1 + 4 -> get_tf (x_mem s2) (k - TFSIZE) = tf_set_eax r f ->
    stub_ret (run after_trap s2) = mk_x (mk_cpu r (ebx (x_r s)) (ecx (x_r s)) (edx (x_r s)) (sp + 4) (ebp (x_r s)) (esi (x_r s)) (edi (x_r s)) (load32 (x_mem s2) sp))
      (x_cs s) (x_ds s) (x_es s) (x_fs s) (x_gs s) (x_ss s) (x_eflags s) (x_mem s2)).
Proof.
  intros Hok Hu Hnum Ha Hk Hsp. destruct (tvinit_gates vectors T_SYSCALL ltac:(unfold T_SYSCALL; lia)) as (g & Hg & Ho & Hcs & _ & Hd & _).
  assert (Hsp0 : 0 <= sp) by (destruct Hok as [H _]; unfold sp; decompose_Forall_hyps; lia).
  assert (Hok' : x_ok u). { destruct Hok as [H1 H2]. split; [|done]. decompose_Forall_hyps. repeat (apply Forall_cons; split; [done|]). by apply Forall_nil. }
  exists (deliver g t None u). split; [|split; [exact Ho|]].
  { unfold int_n. rewrite Hg. change (x_cs u) with (x_cs s). by rewrite Hu, (proj2 Hd eq_refl). }
  destruct (trap_enters g t None T_SYSCALL ta ra u Hok' Hu ltac:(lia) ltac:(unfold T_SYSCALL; lia) eq_refl ltac:(cbn; unfold W32; lia)) as (E1 & E2 & E3 & E4 & E5 & E6).
  fold k in E3, E4, E5, E6. cbn [default from_option] in E5. cbv zeta. rewrite E3, E5. replace (k - 84 + 4) with (k - 80) by lia.
  split_and!; [exact E1|exact E4|reflexivity|reflexivity|reflexivity|exact E6|]. intros s2 r Hs2 Hs2sp Hf.
  rewrite (trap_returns s2 (k - TFSIZE) _ ltac:(rewrite Hs2sp; unfold TFSIZE; lia) Hf ltac:(unfold TFSIZE; lia) ltac:(unfold TFSIZE; lia) ltac:(by rewrite Hs2, E2, Hcs) Hu).
  rewrite user_of_set_eax. clear -Hsp Hsp0. unfold sp in *. clear sp. subst u. destruct s as [[a b c d sp bp si di ip] cs ds es fs gs ss fl m]. cbn [x_r esp] in *. unfold stub_ret, popl, x_esp.
  cbn. rewrite u32_small by (unfold W32 in *; lia). reflexivity.
Qed.

(** The call [getpid()] of a program at 0x1000, answered with 7. *)
Definition demo_user : xcpu := mk_x (mk_cpu 1 2 3 4 0x2f00 5 6 7 0x500) 0x1b 0x23 0x23 0 0 0x23 0x202 (store32 (fun _ => 0) 0x2f00 0x1005).
Definition demo_ts : taskstate := mk_ts 0x80400000 0x10 0xffff.
Definition demo_entered : option xcpu := run (vector T_SYSCALL ++ alltraps 0x9000 0x9500) <$> int_n (tvinit (fun i => i)) demo_ts T_SYSCALL (stub_enter 11 0x507 demo_user).
Lemma demo_user_ok : x_ok demo_user.
Proof. split; repeat (apply Forall_cons; split; [unfold W32; cbn; lia|]); by apply Forall_nil. Qed.
Lemma syscall_roundtrip_witness : exists s1, demo_entered = Some s1 /\
  let f := get_tf (x_mem s1) (0x80400000 - TFSIZE) in
  tf_eax f = 11 /\ forall s2, x_cs s2 = x_cs s1 -> x_esp s2 = x_esp s1 + 4 -> get_tf (x_mem s2) (0x80400000 - TFSIZE) = tf_set_eax 7 f ->
  x_r (stub_ret (run after_trap s2)) = mk_cpu 7 2 3 4 0x2f04 5 6 7 (load32 (x_mem s2) 0x2f00).
Proof.
  destruct (syscall_roundtrip (fun i => i) demo_ts 11 0x507 0x9000 0x9500 demo_user demo_user_ok eq_refl ltac:(unfold W32; lia) ltac:(unfold W32; lia) ltac:(unfold W32; cbn; lia) ltac:(unfold W32; cbn; lia))
    as (s0 & E & _ & _ & _ & E3 & _ & _ & _ & E7).
  exists (run (vector T_SYSCALL ++ alltraps 0x9000 0x9500) s0). unfold demo_entered. rewrite E. split; [done|]. split; [exact E3|].
  intros s2 H1 H2 H3. by rewrite (E7 s2 7 H1 H2 H3).
Defined.

(** ** New processes *)

Lemma store_bytes_ne m a l x : x < a \/ a + Z.of_nat (length l) <= x -> store_bytes m a l x = m x.
Proof. intros H. unfold store_bytes. destruct (Z.leb_spec a x), (Z.ltb_spec x (a + Z.of_nat (length l))); cbn [andb]; try done; lia. Qed.
Lemma load32_zeros m a n x : a <= x -> x + 4 <= a + Z.of_nat n -> load32 (store_bytes m a (replicate n 0)) x = 0.
Proof.
  intros H1 H2. assert (Z : forall y, x <= y < x + 4 -> store_bytes m a (replicate n 0) y = 0).
  { intros y Hy. unfold store_bytes. rewrite length_replicate. rewrite (proj2 (Z.leb_le a y)), (proj2 (Z.ltb_lt y _)) by lia. cbn [andb].
    by rewrite lookup_replicate_2 by lia. }
  unfold load32. rewrite !Z by lia. lia.
Qed.
Lemma get_tf_ext m m' a : (forall x, a <= x < a + TFSIZE -> m' x = m x) -> get_tf m' a = get_tf m a.
Proof. intros H. unfold TFSIZE in H. unfold get_tf. cbv beta zeta. f_equal; first [apply load32_ext|f_equal; apply load32_ext]; intros y Hy; apply H; lia. Qed.

(** The words of a fresh context: zeroes, [forkret], and the return address behind it. *)
Lemma new_kstack_words kstack tr fr m m1 tf ctx : new_kstack kstack tr fr m = (m1, tf, ctx) -> 0 <= tr < W32 -> 0 <= fr < W32 ->
  tf = kstack + 4020 /\ ctx = tf - 24 /\ load32 m1 ctx = 0 /\ load32 m1 (ctx + 4) = 0 /\ load32 m1 (ctx + 8) = 0 /\ load32 m1 (ctx + 12) = 0 /\
  load32 m1 (ctx + 16) = fr /\ load32 m1 (tf - 4) = tr.
Proof.
  unfold new_kstack, KSTACKSIZE, TFSIZE. cbv zeta. intros E Ht Hf.
  apply pair_equal_spec in E as [E <-]. apply pair_equal_spec in E as [<- <-]. split; [lia|]. split; [lia|].
  split_and!; [rewrite load32_store32_ne, load32_zeros by lia; done..| |].
  - by apply load32_store32_eq.
  - rewrite load32_store32_ne by lia.
    rewrite (load32_ext _ (store32 m (kstack + 4096 - 76 - 4) tr)) by (intros x Hx; apply store_bytes_ne; cbn [length replicate]; lia). by apply load32_store32_eq.
Qed.

(** C36: A new process reaches user mode: when the scheduler switches for the first time to the
    context that [allocproc] has built, its own context is saved in its variable, and
    [forkret] runs on the kernel stack of the process with [trapret] as its return address and
    the trap frame above it.  Returning there, the process is in user mode with the registers
    of its trap frame; for a child of [fork] that is the state of its parent at the system
    call, with 0 in [eax]. *)
Theorem new_process_starts kstack tr fr m0 m1 tf ctx s (sp := x_esp s) (old := load32 (x_mem s) (sp + 4)) :
  new_kstack kstack tr fr m0 = (m1, tf, ctx) -> 0 <= kstack -> kstack + 4096 < W32 -> 0 <= tr < W32 -> 0 <= fr < W32 ->
  16 <= sp < W32 - 8 -> load32 (x_mem s) (sp + 8) = ctx -> (forall x, ctx <= x < tf -> x_mem s x = m1 x) ->
  sp <= ctx \/ kstack + 4096 <= sp - 16 -> old + 4 <= ctx \/ kstack + 4096 <= old ->
  let s1 := run swtch s in
  eip (x_r s1) = fr /\ x_esp s1 = tf - 4 /\ load32 (x_mem s1) (tf - 4) = tr /\ load32 (x_mem s1) old = sp - 16 /\
  get_tf (x_mem s1) tf = get_tf (x_mem s) tf /\
  forall s2, x_esp s2 = tf -> Z.land (x_cs s2) 3 = 0 ->
    (forall f, get_tf (x_mem s2) tf = f -> Z.land (tf_cs f) 3 = 3 -> run trapret s2 = user_of f (x_mem s2)) /\
    (forall parent i e k, Z.land (x_cs parent) 3 = 3 -> get_tf (x_mem s2) tf = tf_set_eax 0 (frame_of parent i e k) ->
      run trapret s2 = x_set_r (set_eax 0 (x_r parent)) (x_set_mem (x_mem s2) parent)).
Proof.
  intros Hn Hk1 Hk2 Ht Hf Hsp Hctx Hm Ha Ho. destruct (new_kstack_words _ _ _ _ _ _ _ Hn Ht Hf) as (Etf & Ectx & W0 & W1 & W2 & W3 & W4 & W5). unfold W32 in *.
  assert (K : forall x, ctx <= x < kstack + 4096 -> store32 (pmem [ebp (x_r s); ebx (x_r s); esi (x_r s); edi (x_r s)] sp (x_mem s)) old (sp - 16) x = x_mem s x).
  { intros x Hx. rewrite store32_ne by lia. apply pmem_frame; cbn [length]; unfold W32; lia. }
  assert (L : forall x, ctx <= x -> x + 4 <= tf -> load32 (store32 (pmem [ebp (x_r s); ebx (x_r s); esi (x_r s); edi (x_r s)] sp (x_mem s)) old (sp - 16)) x = load32 m1 x).
  { intros x H1 H2. apply load32_ext. intros y Hy. rewrite K by lia. apply Hm. lia. }
  pose proof (swtch_run s) as R. cbv zeta in R. change (x_esp s) with sp in R. change (load32 (x_mem s) (sp + 4)) with old in R. rewrite Hctx in R. rewrite R by (unfold W32; lia). clear R. cbv zeta. unfold x_esp. cbn [x_r x_mem esp eip].
  split_and!; [by rewrite L by lia|lia|by rewrite L by lia|apply load32_store32_eq; unfold W32; lia|apply get_tf_ext; intros x Hx; apply K; unfold TFSIZE in *; lia|].
  intros s2 Hs2 Hcs. split.
  - intros f Hfr Hu. apply (trapret_run s2 tf f); try done; unfold TFSIZE, W32; lia.
  - intros parent i e k Hu Hfr. rewrite <- (user_of_set_eax parent i e k). apply (trapret_run s2 tf); try done; unfold TFSIZE, W32; lia.
Qed.

(** The scheduler switches to a process whose kernel stack is the page 0x80100000. *)
Definition demo_new : mem * Z * Z := new_kstack 0x80100000 0x7777 0x5555 (fun _ => 0).
Definition demo_sched : xcpu :=
  mk_x (mk_cpu 0 0 0 0 0x80200000 0 0 0 0) 8 16 16 0 0 16 2 (store32 (store32 (fst (fst demo_new)) 0x80200004 0x80300000) 0x80200008 0x80100f9c).
Lemma demo_sched_words : load32 (x_mem demo_sched) 0x80200004 = 0x80300000 /\ load32 (x_mem demo_sched) 0x80200008 = 0x80100f9c.
Proof. vm_compute. split; reflexivity. Qed.
Lemma new_process_starts_witness : let s1 := run swtch demo_sched in
  eip (x_r s1) = 0x5555 /\ load32 (x_mem s1) 0x80100fb0 = 0x7777 /\
  forall s2, x_esp s2 = 0x80100fb4 -> x_cs s2 = 8 -> get_tf (x_mem s2) 0x80100fb4 = tf_set_eax 0 (frame_of demo_user 64 0 0x80400000) ->
    x_r (run trapret s2) = mk_cpu 0 2 3 4 0x2f00 5 6 7 0x500.
Proof.
  destruct demo_sched_words as [W1 W2].
  destruct (new_process_starts 0x80100000 0x7777 0x5555 (fun _ => 0) (fst (fst demo_new)) 0x80100fb4 0x80100f9c demo_sched) as (E1 & _ & E3 & _ & _ & E6);
    change (x_esp demo_sched) with 0x80200000; rewrite ?W1, ?W2; unfold W32; try lia; try reflexivity.
  - intros x Hx. unfold demo_sched. cbn [x_mem]. by rewrite !store32_ne by lia.
  - change (0x80200000 + 4) with 0x80200004. rewrite W1. lia.
  - split; [exact E1|]. split; [exact E3|]. intros s2 H1 H2 H3. destruct (E6 s2 H1 ltac:(by rewrite H2)) as [_ E].
    by rewrite (E demo_user 64 0 0x80400000 eq_refl H3).
Defined.

(** A process that calls [swtch] finds its context again: whatever runs in between, as long as
    its saved words stay, a [swtch] to the saved context returns from its call with its
    callee-saved registers and its stack. *)
Theorem swtch_resumes s s2 (sp := x_esp s) (old := load32 (x_mem s) (sp + 4)) (new := load32 (x_mem s) (sp + 8)) (sp2 := x_esp s2) (old2 := load32 (x_mem s2) (sp2 + 4)) :
  x_ok s -> 16 <= sp < W32 - 8 -> 0 <= new < W32 - 20 -> old + 4 <= sp - 16 \/ sp + 4 <= old ->
  (forall x, sp - 16 <= x < sp + 4 -> x_mem s2 x = x_mem (run swtch s) x) ->
  16 <= sp2 < W32 - 8 -> load32 (x_mem s2) (sp2 + 8) = load32 (x_mem (run swtch s)) old ->
  sp2 <= sp - 16 \/ sp + 4 <= sp2 - 16 -> old2 + 4 <= sp - 16 \/ sp + 4 <= old2 ->
  let c := x_r (run swtch s2) in
  eip c = load32 (x_mem s) sp /\ esp c = sp + 4 /\ ebp c = ebp (x_r s) /\ ebx c = ebx (x_r s) /\ esi c = esi (x_r s) /\ edi c = edi (x_r s).
Proof.
  intros [Hok _] Hsp Hnew Hold Hkeep Hsp2 Hctx Ha Ho. pose proof (swtch_run s Hsp Hnew) as R. cbv zeta in R. fold sp old in R.
  assert (Hm : x_mem (run swtch s) = store32 (pmem [ebp (x_r s); ebx (x_r s); esi (x_r s); edi (x_r s)] sp (x_mem s)) old (sp - 16)) by (rewrite R; done). clear R.
  rewrite Hm in *. rewrite load32_store32_eq in Hctx by (unfold W32 in *; lia). unfold W32 in *.
  assert (L : forall x, sp - 16 <= x <= sp -> load32 (store32 (pmem [ebp (x_r s2); ebx (x_r s2); esi (x_r s2); edi (x_r s2)] sp2 (x_mem s2)) old2 (sp2 - 16)) x =
    load32 (pmem [ebp (x_r s); ebx (x_r s); esi (x_r s); edi (x_r s)] sp (x_mem s)) x).
  { intros x Hx. rewrite load32_store32_ne by lia. apply load32_ext. intros y Hy. rewrite pmem_frame by (cbn [length]; unfold W32; lia). rewrite Hkeep by lia. apply store32_ne. lia. }
  pose proof (swtch_run s2) as R. cbv zeta in R. change (x_esp s2) with sp2 in R. change (load32 (x_mem s2) (sp2 + 4)) with old2 in R. rewrite Hctx in R. rewrite R by (unfold W32; lia). clear R.
  cbv zeta. cbn [x_r eip esp ebp ebx esi edi]. rewrite !L by lia.
  assert (P : forall k v, [ebp (x_r s); ebx (x_r s); esi (x_r s); edi (x_r s)] !! k = Some v -> load32 (pmem [ebp (x_r s); ebx (x_r s); esi (x_r s); edi (x_r s)] sp (x_mem s)) (sp - 4 * (Z.of_nat k + 1)) = v).
  { intros k v Hk. apply pmem_word; [cbn [length]; unfold W32; lia|done|]. clear -Hok Hk. unfold W32. decompose_Forall_hyps. destruct k as [|[|[|[|k]]]]; cbn in Hk; simplify_eq; lia. }
  split_and!; [|lia|etrans; [|apply (P 0%nat _ eq_refl)]; f_equal; lia|etrans; [|apply (P 1%nat _ eq_refl)]; f_equal; lia|
    etrans; [|apply (P 2%nat _ eq_refl)]; f_equal; lia|etrans; [|apply (P 3%nat _ eq_refl)]; f_equal; lia].
  replace (sp - 16 + 16) with sp by lia. apply load32_ext. intros x Hx. apply pmem_frame; cbn [length]; unfold W32; lia.
Qed.

(** initcode.S calls [exec]: at the trap its two arguments are where [argint] looks for them. *)
Lemma initcode_execs argv init num after s (s1 := run (initcode_start argv init num after) s) :
  12 <= x_esp s < W32 -> 0 <= argv < W32 -> 0 <= init < W32 ->
  eax (x_r s1) = num /\ load32 (x_mem s1) (x_esp s1 + 4) = init /\ load32 (x_mem s1) (x_esp s1 + 8) = argv.
Proof.
  intros Hsp Ha Hi. assert (E : s1 = stub_enter num after (pushes [argv; init; 0] s)) by reflexivity. rewrite E, pushes_eq. clear E s1.
  unfold stub_enter, x_goto, x_set_esp, x_set_mem, x_set_r, set_eip, set_esp, set_eax, x_esp in *. cbn [x_r x_mem esp eax]. rewrite psp_eq by done. cbn [length]. set (sp := esp (x_r s)) in *.
  split; [done|]. replace (sp - 4 * Z.of_nat 3 + 4) with (sp - 4 * (Z.of_nat 1 + 1)) by lia. replace (sp - 4 * Z.of_nat 3 + 8) with (sp - 4 * (Z.of_nat 0 + 1)) by lia.
  split; by apply pmem_word.
Qed.
