(* ===== verification/Entry.v ===== *)
(** * From the first instruction to C code ([src/xv6/bootasm.S], [src/xv6/entry.S],
      [src/xv6/entryother.S], [src/xv6/asm.h], and [entrypgdir] and [startothers] of
      [src/xv6/main.c])

    The control and segment registers of a processor and the physical memory.  Addresses that
    the assembler and the linker choose are arguments.  In real mode, with segment registers
    that are zero, an address is its offset.  [xlate] is the translation of the processor with
    4-Mbyte pages. *)

From S2P Require Import Prelude Mem Block Mmu Spinlock Kalloc Vm Seg Console.

Definition CR0_PE : Z := 0x00000001.
Definition CR0_WP : Z := 0x00010000.
Definition CR0_PG : Z := 0x80000000.
Definition CR4_PSE : Z := 0x00000010.
Definition PTE_PS : Z := 0x080.

Inductive reg : Type := CR0 | CR3 | CR4 | EAX | ESP | EIP | CS | DS | ES | SS | FS | GS.
#[export] Instance reg_eq_dec : EqDecision reg.
Proof. solve_decision. Defined.

Record bcpu : Type := mk_b { b_reg : reg -> Z; b_if : bool; b_gdtr : Z * Z; b_mem : mem }.
Definition setr (r : reg) (v : Z) (s : bcpu) : bcpu := mk_b (fun r' => if decide (r' = r) then v else b_reg s r') (b_if s) (b_gdtr s) (b_mem s).

(** ** Translation *)

Definition xlate (s : bcpu) (va : Z) : option Z :=
  if Z.land (b_reg s CR0) CR0_PG =? 0 then Some va else
  let pde := load32 (b_mem s) (PTE_ADDR (b_reg s CR3) + 4 * PDX va) in
  if Z.land pde PTE_P =? 0 then None else
  if negb (Z.land pde PTE_PS =? 0) && negb (Z.land (b_reg s CR4) CR4_PSE =? 0) then Some (Z.land pde 0xffc00000 + va mod 4194304) else
  let pte := load32 (b_mem s) (PTE_ADDR pde + 4 * PTX va) in
  if Z.land pte PTE_P =? 0 then None else Some (PTE_ADDR pte + va mod 4096).

(** [entrypgdir]: two large pages. *)
Definition entrypgdir : list Z :=
  let e := Z.lor (Z.lor PTE_P PTE_W) PTE_PS in
  <[Z.to_nat (Z.shiftr KERNBASE PDXSHIFT) := e]> (<[0%nat := e]> (replicate 1024 0)).

(** ** Instructions *)

Abbreviation binstr := (bcpu -> option bcpu).
Fixpoint brun (l : list binstr) (s : bcpu) : option bcpu :=
  match l with [] => Some s | f :: l => match f s with Some s => brun l s | None => None end end.

Definition movr (dst src : reg) : binstr := fun s => Some (setr dst (b_reg s src) s).
Definition movi (dst : reg) (v : Z) : binstr := fun s => Some (setr dst v s).
Definition movm (dst : reg) (a : Z) : binstr := fun s => match xlate s a with Some pa => Some (setr dst (load32 (b_mem s) pa) s) | None => None end.
Definition orl (v : Z) : binstr := fun s => Some (setr EAX (Z.lor (b_reg s EAX) v) s).
Definition cli : binstr := fun s => Some (mk_b (b_reg s) false (b_gdtr s) (b_mem s)).
(** The limit and the base at [a]. *)
Definition lgdt (a : Z) : binstr := fun s =>
  Some (mk_b (b_reg s) (b_if s) (load32 (b_mem s) (a + 2), b_mem s a + 256 * b_mem s (a + 1)) (b_mem s)).
Definition ljmp (sel off : Z) : binstr := fun s => Some (setr EIP off (setr CS sel s)).
Definition jmp (off : Z) : binstr := fun s => Some (setr EIP off s).
(** A call pushes the address behind it. *)
Definition call (off after : Z) : binstr := fun s =>
  let sp := u32 (b_reg s ESP - 4) in
  match xlate s sp with
  | Some pa => Some (setr EIP off (setr ESP sp (mk_b (b_reg s) (b_if s) (b_gdtr s) (store32 (b_mem s) pa after))))
  | None => None
  end.
(** The indirect call, of the routine whose address is at [a]. *)
Definition call_at (a after : Z) : binstr := fun s => match xlate s a with Some pa => call (load32 (b_mem s) pa) after s | None => None end.

(** ** The code *)

Definition entry (pgdir_va stack main_addr : Z) : list binstr :=
  [movr EAX CR4; orl CR4_PSE; movr CR4 EAX;
   movi EAX (u32 (pgdir_va - KERNBASE)); movr CR3 EAX;
   movr EAX CR0; orl (Z.lor CR0_PG CR0_WP); movr CR0 EAX;
   movi ESP (u32 (stack + 4096));
   movi EAX main_addr; fun s => jmp (b_reg s EAX) s].

(** Zeroed segment registers, the bootstrap segments, and the jump to protected mode. *)
Definition to_protected (gdtdesc start32 : Z) : list binstr :=
  [lgdt gdtdesc; movr EAX CR0; orl CR0_PE; movr CR0 EAX; ljmp (Z.shiftl SEG_KCODE 3) start32].
Definition zero_segs : list binstr := [movi EAX 0; movr DS EAX; movr ES EAX; movr SS EAX].
Definition data_segs : list binstr :=
  [movi EAX (Z.shiftl SEG_KDATA 3); movr DS EAX; movr ES EAX; movr SS EAX; movi EAX 0; movr FS EAX; movr GS EAX].

Definition entryother (start gdtdesc start32 after : Z) : list binstr :=
  [cli] ++ zero_segs ++ to_protected gdtdesc start32 ++ data_segs ++
  [movr EAX CR4; orl CR4_PSE; movr CR4 EAX;
   movm EAX (start - 12); movr CR3 EAX;
   movr EAX CR0; orl (Z.lor (Z.lor CR0_PE CR0_PG) CR0_WP); movr CR0 EAX;
   movm ESP (start - 4);
   call_at (start - 8) after].

(** bootasm.S, before and after the opening of address line A20. *)
Definition bootasm_start : list binstr := [cli] ++ zero_segs.
Definition bootasm_32 (start gdtdesc start32 bootmain after : Z) : list binstr :=
  to_protected gdtdesc start32 ++ data_segs ++ [movi ESP start; call bootmain after].

(** The two waits for the keyboard controller and what it is told. *)
Section a20.
Context {D : Type} `{!Ports D}.
Fixpoint seta20_wait (fuel : nat) : M D unit :=
  match fuel with
  | O => fun _ => OutOfFuel
  | S k => let! al := inb 0x64 in if negb (Z.land al 2 =? 0) then seta20_wait k else ret tt
  end.
Definition seta20 (fuel : nat) : M D unit :=
  seta20_wait fuel ;;;
  outb 0x64 0xd1 ;;;
  seta20_wait fuel ;;;
  outb 0x60 0xdf.
End a20.

(** A descriptor of asm.h, its eight bytes, and the bootstrap table. *)
Definition SEG_NULLASM : list Z := [0; 0; 0; 0; 0; 0; 0; 0].
Definition SEG_ASM (type base lim : Z) : list Z :=
  bytes16 (Z.land (Z.shiftr lim 12) 0xffff) ++ bytes16 (Z.land base 0xffff) ++
  [Z.land (Z.shiftr base 16) 0xff; Z.lor 0x90 type; Z.lor 0xC0 (Z.land (Z.shiftr lim 28) 0xf); Z.land (Z.shiftr base 24) 0xff].
Definition boot_gdt : list Z := SEG_NULLASM ++ SEG_ASM (Z.lor STA_X STA_R) 0 0xffffffff ++ SEG_ASM STA_W 0 0xffffffff.
Definition gdtdesc_bytes (gdt : Z) : list Z := bytes16 (Z.of_nat (length boot_gdt) - 1) ++ bytes32 gdt.

(** What the processor reads of a descriptor. *)
Definition decode_seg (b : list Z) : segdesc :=
  mk_segdesc (get16 b 0) (get16 b 2) (byte_at b 4) (Z.land (byte_at b 5) 15) (Z.land (Z.shiftr (byte_at b 5) 4) 1) (Z.land (Z.shiftr (byte_at b 5) 5) 3)
    (Z.shiftr (byte_at b 5) 7) (Z.land (byte_at b 6) 15) (Z.land (Z.shiftr (byte_at b 6) 4) 1) (Z.land (Z.shiftr (byte_at b 6) 5) 1)
    (Z.land (Z.shiftr (byte_at b 6) 6) 1) (Z.shiftr (byte_at b 6) 7) (byte_at b 7).

(** ** The boot page table *)

Definition holds_pgdir (m : mem) (pa : Z) : Prop := forall i, 0 <= i < 1024 -> load32 m (pa + 4 * i) = default 0 (entrypgdir !! Z.to_nat i).

Lemma entrypgdir_at i : 0 <= i < 1024 -> default 0 (entrypgdir !! Z.to_nat i) = if (i =? 0) || (i =? 512) then 0x83 else 0.
Proof.
  intros Hi. unfold entrypgdir. cbv zeta. change (Z.to_nat (Z.shiftr KERNBASE PDXSHIFT)) with 512%nat.
  destruct (Z.eqb_spec i 0) as [->|H0]; [reflexivity|]. cbn [orb]. destruct (Z.eqb_spec i 512) as [->|H1].
  - change (Z.to_nat 512) with 512%nat. by rewrite list_lookup_insert_eq by (rewrite length_insert, length_replicate; lia).
  - rewrite !list_lookup_insert_ne by lia. rewrite lookup_replicate_2 by lia. done.
Qed.

(** Under the boot page table the first 4 Mbyte of memory are at their own addresses and above
    [KERNBASE], and nothing else is mapped. *)
Definition boot_xlate (va : Z) : option Z :=
  if va <? 4194304 then Some va else if (KERNBASE <=? va) && (va <? KERNBASE + 4194304) then Some (va - KERNBASE) else None.
Definition paged (s : bcpu) (pa : Z) : Prop :=
  Z.land (b_reg s CR0) CR0_PG <> 0 /\ Z.land (b_reg s CR4) CR4_PSE <> 0 /\ b_reg s CR3 = pa /\ holds_pgdir (b_mem s) pa.

Lemma xlate_paged s pa va : paged s pa -> 0 <= pa < W32 -> pa mod 4096 = 0 -> 0 <= va < W32 -> xlate s va = boot_xlate va.
Proof.
  intros (H1 & H2 & H3 & H4) Hpa Hal Hva. unfold xlate. rewrite (proj2 (Z.eqb_neq _ _) H1), H3. rewrite PTE_ADDR_spec, Hal, Z.sub_0_r by done. rewrite PDX_spec by done.
  unfold W32, boot_xlate, KERNBASE in *. cbv zeta. rewrite !H4 by zlia. rewrite !entrypgdir_at by zlia. rewrite (proj2 (Z.eqb_neq _ _) H2).
  destruct (Z.ltb_spec va 4194304) as [Hl|Hl].
  { replace (va / 4194304) with 0 by (symmetry; apply Z.div_small; lia). change (Z.land (if (0 =? 0) || (0 =? 512) then 0x83 else 0) PTE_P =? 0) with false. cbv iota.
    change (negb (Z.land (if (0 =? 0) || (0 =? 512) then 0x83 else 0) PTE_PS =? 0) && negb false) with true. cbv iota. f_equal. rewrite Z.mod_small by lia. reflexivity. }
  destruct (Z.leb_spec 0x80000000 va) as [Hk|Hk], (Z.ltb_spec va (0x80000000 + 4194304)) as [Hk'|Hk']; cbn [andb].
  { replace (va / 4194304) with 512 by zlia. change (Z.land (if (512 =? 0) || (512 =? 512) then 0x83 else 0) PTE_P =? 0) with false. cbv iota.
    change (negb (Z.land (if (512 =? 0) || (512 =? 512) then 0x83 else 0) PTE_PS =? 0) && negb false) with true. cbv iota. f_equal.
    change (Z.land _ 0xffc00000) with 0. zlia. }
  all: assert (Hi : va / 4194304 <> 0 /\ va / 4194304 <> 512) by zlia; destruct Hi as [Hi1 Hi2]; by rewrite (proj2 (Z.eqb_neq _ _) Hi1), (proj2 (Z.eqb_neq _ _) Hi2).
Qed.

Lemma land_lor_bit x y b n : b = 2 ^ n -> 0 <= n -> Z.testbit y n = true -> Z.land (Z.lor x y) b <> 0.
Proof.
  intros -> Hn Hy E. assert (H : Z.testbit (Z.land (Z.lor x y) (2 ^ n)) n = true) by (rewrite Z.land_spec, Z.lor_spec, Hy, Z.pow2_bits_true, orb_true_r by done; done).
  rewrite E, Z.bits_0 in H. done.
Qed.

(** The kernel's entry point turns on paging with the boot page table and gets to [main] at
    its high address, on the kernel's stack. *)
Theorem entry_enters_main pa stack main_addr s : 0 <= pa < KERNBASE -> pa mod 4096 = 0 -> holds_pgdir (b_mem s) pa ->
  exists s', brun (entry (KERNBASE + pa) stack main_addr) s = Some s' /\ b_reg s' EIP = main_addr /\ b_reg s' ESP = u32 (stack + 4096) /\
    b_mem s' = b_mem s /\ forall va, 0 <= va < W32 -> xlate s' va = boot_xlate va.
Proof.
  intros Hpa Hal Hd. eexists. split; [reflexivity|]. split; [reflexivity|]. split; [reflexivity|]. split; [reflexivity|]. intros va Hva.
  apply (xlate_paged _ pa); [|unfold KERNBASE, W32 in *; lia|done|done]. split; [|split; [|split]].
  - apply (land_lor_bit (b_reg s CR0) (Z.lor CR0_PG CR0_WP) CR0_PG 31); [done|lia|done].
  - apply (land_lor_bit (b_reg s CR4) CR4_PSE CR4_PSE 4); [done|lia|done].
  - change (u32 (KERNBASE + pa - KERNBASE) = pa). rewrite u32_small by (unfold KERNBASE, W32 in *; lia). lia.
  - exact Hd.
Qed.

(** ** The other processors *)

Lemma holds_pgdir_ext m m' pa : holds_pgdir m pa -> (forall x, pa <= x < pa + 4096 -> m' x = m x) -> holds_pgdir m' pa.
Proof. intros H E i Hi. rewrite <- H by done. apply load32_ext. intros x Hx. apply E. lia. Qed.

Lemma brun_app l1 l2 s : brun (l1 ++ l2) s = match brun l1 s with Some s => brun l2 s | None => None end.
Proof. revert s. induction l1 as [|f l1 IH]; intros s; [done|]. cbn [app brun]. by destruct (f s). Qed.
Lemma brun_movm r a l s pa : xlate s a = Some pa -> brun (movm r a :: l) s = brun l (setr r (load32 (b_mem s) pa) s).
Proof. intros H. cbn [brun]. unfold movm. by rewrite H. Qed.

(** From real mode to protected mode with flat segments. *)
Lemma zero_segs_run s : exists s', brun zero_segs s = Some s' /\ b_reg s' CR0 = b_reg s CR0 /\ b_reg s' CR4 = b_reg s CR4 /\ b_if s' = b_if s /\ b_mem s' = b_mem s.
Proof. eexists. split; [reflexivity|]. by split_and!. Qed.
Lemma to_protected_run gdtdesc start32 s : exists s', brun (to_protected gdtdesc start32) s = Some s' /\ b_reg s' CR0 = Z.lor (b_reg s CR0) CR0_PE /\ b_reg s' CR4 = b_reg s CR4 /\
  b_reg s' CS = 8 /\ b_if s' = b_if s /\ b_gdtr s' = (load32 (b_mem s) (gdtdesc + 2), b_mem s gdtdesc + 256 * b_mem s (gdtdesc + 1)) /\ b_mem s' = b_mem s.
Proof. eexists. split; [reflexivity|]. by split_and!. Qed.
Lemma data_segs_run s : exists s', brun data_segs s = Some s' /\ b_reg s' CR0 = b_reg s CR0 /\ b_reg s' CR4 = b_reg s CR4 /\ b_reg s' CS = b_reg s CS /\
  b_reg s' DS = 16 /\ b_reg s' ES = 16 /\ b_reg s' SS = 16 /\ b_if s' = b_if s /\ b_gdtr s' = b_gdtr s /\ b_mem s' = b_mem s.
Proof. eexists. split; [reflexivity|]. by split_and!. Qed.
Lemma protected_run gdtdesc start32 s : exists s', brun ([cli] ++ zero_segs ++ to_protected gdtdesc start32 ++ data_segs) s = Some s' /\
  b_reg s' CR0 = Z.lor (b_reg s CR0) CR0_PE /\ b_reg s' CR4 = b_reg s CR4 /\ b_reg s' CS = 8 /\ b_reg s' DS = 16 /\ b_reg s' ES = 16 /\ b_reg s' SS = 16 /\ b_if s' = false /\
  b_gdtr s' = (load32 (b_mem s) (gdtdesc + 2), b_mem s gdtdesc + 256 * b_mem s (gdtdesc + 1)) /\ b_mem s' = b_mem s.
Proof.
  rewrite brun_app. cbn [brun cli]. set (s0 := mk_b (b_reg s) false (b_gdtr s) (b_mem s)). rewrite brun_app.
  destruct (zero_segs_run s0) as (s1 & -> & A1 & A2 & A3 & A4). rewrite brun_app. destruct (to_protected_run gdtdesc start32 s1) as (s2 & -> & B1 & B2 & B3 & B4 & B5 & B6).
  destruct (data_segs_run s2) as (s3 & -> & C1 & C2 & C3 & C4 & C5 & C6 & C7 & C8 & C9). exists s3. split; [done|].
  rewrite C1, C2, C3, C7, C8, C9, B1, B2, B3, B4, B5, B6, A1, A2, A3, A4. done.
Qed.

(** The three words below the code. *)
Record ap_words (m : mem) (start top mpenter pa : Z) : Prop := mk_ap_words {
  aw_stack : load32 m (start - 4) = top; aw_enter : load32 m (start - 8) = mpenter; aw_pgdir : load32 m (start - 12) = pa
}.

(** A processor that starts in real mode at [start] reaches the routine whose address it finds
    below the code, in protected mode with the boot page table, on the stack it was given. *)
Lemma entryother_enters start gdtdesc start32 after top mpenter pa s :
  Z.land (b_reg s CR0) CR0_PG = 0 -> 12 <= start < 4194304 -> ap_words (b_mem s) start top mpenter pa ->
  0 <= pa < KERNBASE -> pa mod 4096 = 0 -> holds_pgdir (b_mem s) pa -> KERNBASE + 4 <= top < KERNBASE + 4194304 ->
  top - KERNBASE <= pa \/ pa + 4096 <= top - KERNBASE - 4 ->
  exists s', brun (entryother start gdtdesc start32 after) s = Some s' /\ b_reg s' EIP = mpenter /\ b_reg s' ESP = top - 4 /\ b_if s' = false /\
    b_reg s' CS = 8 /\ b_reg s' DS = 16 /\ b_reg s' ES = 16 /\ b_reg s' SS = 16 /\ paged s' pa /\
    b_mem s' = store32 (b_mem s) (top - KERNBASE - 4) after.
Proof.
  intros Hr Hst [W1 W2 W3] Hpa Hal Hd Htop Hap. unfold KERNBASE, W32 in *.
  assert (Hr1 : Z.land (Z.lor (b_reg s CR0) CR0_PE) CR0_PG = 0) by (rewrite Z.land_lor_distr_l, Hr; reflexivity).
  destruct (protected_run gdtdesc start32 s) as (s0 & E0 & D0 & D4 & S1 & S2 & S3 & S4 & S5 & _ & Sm).
  set (l1 := ([cli] ++ zero_segs ++ to_protected gdtdesc start32 ++ data_segs) ++ [movr EAX CR4; orl CR4_PSE; movr CR4 EAX]).
  assert (E1 : exists s1, brun l1 s = Some s1 /\ b_reg s1 CR0 = Z.lor (b_reg s CR0) CR0_PE /\ b_reg s1 CR4 = Z.lor (b_reg s CR4) CR4_PSE /\
    b_reg s1 CS = 8 /\ b_reg s1 DS = 16 /\ b_reg s1 ES = 16 /\ b_reg s1 SS = 16 /\ b_if s1 = false /\ b_mem s1 = b_mem s).
  { unfold l1. rewrite brun_app, E0. eexists. split; [reflexivity|]. rewrite <- D0, <- D4, <- Sm. split_and!; done. }
  destruct E1 as (s1 & E1 & C0 & C4 & R1 & R2 & R3 & R4 & R5 & Rm). clear S1 S2 S3 S4 S5.
  assert (E : brun (entryother start gdtdesc start32 after) s = brun [movm EAX (start - 12); movr CR3 EAX; movr EAX CR0; orl (Z.lor (Z.lor CR0_PE CR0_PG) CR0_WP); movr CR0 EAX; movm ESP (start - 4); call_at (start - 8) after] s1).
  { replace (entryother start gdtdesc start32 after) with (l1 ++ [movm EAX (start - 12); movr CR3 EAX; movr EAX CR0; orl (Z.lor (Z.lor CR0_PE CR0_PG) CR0_WP); movr CR0 EAX; movm ESP (start - 4); call_at (start - 8) after]) by (unfold l1, entryother; by rewrite <- !app_assoc). by rewrite brun_app, E1. }
  rewrite E. clear E E1 l1. rewrite <- C0 in Hr1.
  assert (X1 : xlate s1 (start - 12) = Some (start - 12)) by (unfold xlate; by rewrite Hr1).
  rewrite (brun_movm _ _ _ _ _ X1), Rm, W3.
  set (s2 := setr CR0 (Z.lor (b_reg s1 CR0) (Z.lor (Z.lor CR0_PE CR0_PG) CR0_WP)) (setr EAX (Z.lor (b_reg s1 CR0) (Z.lor (Z.lor CR0_PE CR0_PG) CR0_WP)) (setr EAX (b_reg s1 CR0) (setr CR3 pa (setr EAX pa s1))))).
  change (brun (movr CR3 EAX :: ?l) _) with (brun [movm ESP (start - 4); call_at (start - 8) after] s2).
  assert (P2 : paged s2 pa).
  { split; [|split; [|split]]; [apply (land_lor_bit (b_reg s1 CR0) (Z.lor (Z.lor CR0_PE CR0_PG) CR0_WP) CR0_PG 31); [done|lia|done]| |done|change (holds_pgdir (b_mem s1) pa); by rewrite Rm].
    change (Z.land (b_reg s1 CR4) CR4_PSE <> 0). rewrite C4. apply (land_lor_bit _ CR4_PSE CR4_PSE 4); [done|lia|done]. }
  assert (X2 : forall va, 0 <= va < 4194304 -> xlate s2 va = Some va).
  { intros va Hva. rewrite (xlate_paged s2 pa va P2) by (unfold W32; lia). unfold boot_xlate. by rewrite (proj2 (Z.ltb_lt _ _)) by lia. }
  rewrite (brun_movm _ _ _ _ _ (X2 (start - 4) ltac:(lia))). change (b_mem s2) with (b_mem s1). rewrite Rm, W1. set (s3 := setr ESP top s2).
  assert (P3 : paged s3 pa) by exact P2. cbn [brun]. unfold call_at.
  rewrite (xlate_paged s3 pa (start - 8) P3) by (unfold W32; lia). unfold boot_xlate. rewrite (proj2 (Z.ltb_lt (start - 8) _)) by lia. change (b_mem s3) with (b_mem s1). rewrite Rm, W2.
  unfold call. change (b_reg s3 ESP) with top. cbv zeta. rewrite u32_small by (unfold W32; lia). rewrite (xlate_paged s3 pa (top - 4) P3) by (unfold W32; lia). unfold boot_xlate, KERNBASE.
  rewrite (proj2 (Z.ltb_ge (top - 4) _)), (proj2 (Z.leb_le _ (top - 4))), (proj2 (Z.ltb_lt (top - 4) _)) by lia. cbn [andb]. change (b_mem s3) with (b_mem s1). rewrite Rm.
  eexists. split; [reflexivity|]. split_and!; try done; [..|by replace (top - 4 - 0x80000000) with (top - 0x80000000 - 4) by lia].
  destruct P2 as (Q1 & Q2 & Q3 & Q4). split_and!; [exact Q1|exact Q2|exact Q3|]. apply (holds_pgdir_ext (b_mem s)); [done|]. intros x Hx. apply store32_ne. lia.
Qed.

(** ** The first sector *)

Lemma u8_pair x : 0 <= x < 65536 -> u8 x + 256 * u8 (x / 256) = x.
Proof. intros H. unfold u8. zlia. Qed.
Lemma nibble_cases x : 0 <= x < 16 -> x ∈ [0; 1; 2; 3; 4; 5; 6; 7; 8; 9; 10; 11; 12; 13; 14; 15].
Proof. intros Hx. change [0; 1; 2; 3; 4; 5; 6; 7; 8; 9; 10; 11; 12; 13; 14; 15] with (seqZ 0 16). apply elem_of_seqZ. lia. Qed.
Ltac nibble := let H := fresh in intros H%nibble_cases; rewrite !elem_of_cons, elem_of_nil in H; repeat (destruct H as [->|H]; [reflexivity|]); done.
(** The access byte and the granularity byte. *)
Lemma access_byte type : 0 <= type < 16 ->
  (Z.land (Z.lor 0x90 type) 15, Z.land (Z.shiftr (Z.lor 0x90 type) 4) 1, Z.land (Z.shiftr (Z.lor 0x90 type) 5) 3, Z.shiftr (Z.lor 0x90 type) 7) = (type, 1, 0, 1).
Proof. nibble. Qed.
Lemma gran_byte n : 0 <= n < 16 ->
  (Z.land (Z.lor 0xC0 n) 15, Z.land (Z.shiftr (Z.lor 0xC0 n) 4) 1, Z.land (Z.shiftr (Z.lor 0xC0 n) 5) 1, Z.land (Z.shiftr (Z.lor 0xC0 n) 6) 1, Z.shiftr (Z.lor 0xC0 n) 7) = (n, 0, 0, 1, 1).
Proof. nibble. Qed.

(** A descriptor of asm.h is one of mmu.h, at privilege 0. *)
Theorem seg_asm_decodes type base lim : 0 <= type < 16 -> 0 <= base < W32 -> 0 <= lim < W32 -> decode_seg (SEG_ASM type base lim) = SEG type base lim 0.
Proof.
  intros Ht Hb Hl. unfold SEG. rewrite !(u32_small base), !(u32_small lim) by done. unfold SEG_ASM.
  assert (Hn : 0 <= Z.shiftr lim 28 < 16) by (rewrite Z.shiftr_div_pow2 by lia; change (2 ^ 28) with 268435456; unfold W32 in Hl; zlia).
  assert (Hlim : Z.land (Z.shiftr lim 28) 0xf = Z.shiftr lim 28) by (change 0xf with (Z.ones 4); rewrite Z.land_ones by lia; by apply Z.mod_small).
  assert (Hb24 : 0 <= Z.shiftr base 24 < 256) by (rewrite Z.shiftr_div_pow2 by lia; change (2 ^ 24) with 16777216; unfold W32 in Hb; zlia).
  assert (Hbase : Z.land (Z.shiftr base 24) 0xff = Z.shiftr base 24) by (change 0xff with (Z.ones 8); rewrite Z.land_ones by lia; by apply Z.mod_small).
  assert (H16 : forall x, 0 <= Z.land x 0xffff < 65536) by (intros x; change 0xffff with (Z.ones 16); rewrite Z.land_ones by lia; apply Z.mod_pos_bound; done).
  rewrite Hlim, Hbase. pose proof (H16 (Z.shiftr lim 12)) as L1. pose proof (H16 base) as L2.
  generalize dependent (Z.shiftr lim 28). intros nib Hn _. generalize dependent (Z.land (Z.shiftr lim 12) 0xffff). intros l12 L1. generalize dependent (Z.land base 0xffff). intros b16 L2.
  generalize (Z.land (Z.shiftr base 16) 0xff). intros b23. clear Hbase. generalize dependent (Z.shiftr base 24). intros b31 Hb24.
  pose proof (access_byte type Ht) as HA. pose proof (gran_byte nib Hn) as HG. generalize dependent (Z.lor 0x90 type). intros ab HA. generalize dependent (Z.lor 0xC0 nib). intros gb HG.
  apply pair_equal_spec in HA as [HA A4]. apply pair_equal_spec in HA as [HA A3]. apply pair_equal_spec in HA as [A1 A2].
  apply pair_equal_spec in HG as [HG G5]. apply pair_equal_spec in HG as [HG G4]. apply pair_equal_spec in HG as [HG G3]. apply pair_equal_spec in HG as [G1 G2].
  transitivity (mk_segdesc (u8 l12 + 256 * u8 (l12 / 256)) (u8 b16 + 256 * u8 (b16 / 256)) b23 (Z.land ab 15) (Z.land (Z.shiftr ab 4) 1) (Z.land (Z.shiftr ab 5) 3) (Z.shiftr ab 7)
    (Z.land gb 15) (Z.land (Z.shiftr gb 4) 1) (Z.land (Z.shiftr gb 5) 1) (Z.land (Z.shiftr gb 6) 1) (Z.shiftr gb 7) b31); [reflexivity|].
  by rewrite !u8_pair, A1, A2, A3, A4, G1, G2, G3, G4, G5 by done.
Qed.

(** The first sector, once the address line is open, calls [bootmain] in protected mode with
    its stack below itself, and the table it has loaded covers all addresses. *)
Theorem bootasm_enters gdt gdtdesc start start32 bootmain after s (s1 := brun (bootasm_32 start gdtdesc start32 bootmain after) s) :
  Z.land (b_reg s CR0) CR0_PG = 0 -> (forall i, 0 <= i < 6 -> b_mem s (gdtdesc + i) = default 0 (gdtdesc_bytes gdt !! Z.to_nat i)) -> 0 <= gdt < W32 -> 4 <= start < W32 ->
  exists s', s1 = Some s' /\ b_reg s' EIP = bootmain /\ b_reg s' ESP = start - 4 /\ Z.land (b_reg s' CR0) CR0_PE <> 0 /\ b_reg s' CS = 8 /\ b_reg s' DS = 16 /\ b_reg s' SS = 16 /\
    b_gdtr s' = (gdt, 23) /\ decode_seg (take 8 (drop 8 boot_gdt)) = SEG (Z.lor STA_X STA_R) 0 0xffffffff 0 /\ decode_seg (take 8 (drop 16 boot_gdt)) = SEG STA_W 0 0xffffffff 0.
Proof.
  intros Hr Hg Hgdt Hst. unfold s1, bootasm_32. clear s1. destruct (to_protected_run gdtdesc start32 s) as (s2 & E2 & B1 & B2 & B3 & B4 & B5 & B6).
  destruct (data_segs_run s2) as (s3 & E3 & C1 & C2 & C3 & C4 & C5 & C6 & C7 & C8 & C9). rewrite brun_app, E2, brun_app, E3. cbn [brun movi]. unfold call. set (s4 := setr ESP start s3). change (b_reg s4 ESP) with start. cbv zeta.
  rewrite u32_small by (unfold W32 in *; lia).
  assert (X : xlate s4 (start - 4) = Some (start - 4)) by (unfold xlate; change (b_reg s4 CR0) with (b_reg s3 CR0); rewrite C1, B1, Z.land_lor_distr_l, Hr; reflexivity).
  rewrite X. eexists. split; [reflexivity|]. split_and!.
  - reflexivity.
  - reflexivity.
  - change (Z.land (b_reg s3 CR0) CR0_PE <> 0). rewrite C1, B1. apply (land_lor_bit _ CR0_PE CR0_PE 0); [done|lia|done].
  - change (b_reg s3 CS = 8). congruence.
  - exact C4.
  - exact C6.
  - change (b_gdtr s3 = (gdt, 23)). rewrite C8, B5. unfold load32. rewrite <- !Z.add_assoc. pose proof (Hg 0 ltac:(lia)) as H0. rewrite Z.add_0_r in H0. rewrite H0, !Hg by lia.
    transitivity (u8 gdt + (256 * u8 (gdt / 256) + (65536 * u8 (gdt / 65536) + 16777216 * u8 (gdt / 16777216))), 23); [reflexivity|]. f_equal. unfold u8, W32 in *. zlia.
  - reflexivity.
  - reflexivity.
Qed.

(** ** The address line A20 *)

(** The keyboard controller: how long it is still busy, its last command, and the line. *)
Class Kbc (D : Type) `{!Ports D} : Type := {
  kb_polls : D -> nat; kb_max : nat; kb_cmd : D -> Z; kb_a20 : D -> bool;
  kb_bound d : (kb_polls d <= kb_max)%nat;
  kb_status d : wp (inb 0x64) (fun al d' => kb_cmd d' = kb_cmd d /\ kb_a20 d' = kb_a20 d /\
    match kb_polls d with O => Z.land al 2 = 0 /\ kb_polls d' = O | S n => Z.land al 2 <> 0 /\ kb_polls d' = n end) d;
  kb_command d v : kb_polls d = O -> wp (outb 0x64 v) (fun _ d' => kb_cmd d' = v /\ kb_a20 d' = kb_a20 d) d;
  kb_data d v : kb_polls d = O -> wp (outb 0x60 v) (fun _ d' => kb_a20 d' = if kb_cmd d =? 0xd1 then Z.testbit v 1 else kb_a20 d) d
}.

Lemma seta20_opens {D} `{!Ports D, !Kbc D} fuel (d : D) : (kb_max < fuel)%nat -> wp (seta20 fuel) (fun _ d' => kb_a20 d' = true) d.
Proof.
  intros Hf. assert (W : forall n d, (kb_polls d < n)%nat -> wp (seta20_wait n) (fun _ d' => kb_polls d' = O /\ kb_cmd d' = kb_cmd d) d).
  { induction n as [|n IH]; intros d0 Hn; [lia|]. cbn [seta20_wait]. wp_step. eapply wp_mono; [apply kb_status|]. intros al d1 (E1 & _ & E2).
    destruct (kb_polls d0) as [|k].
    - destruct E2 as [-> E2]. change (negb (0 =? 0)) with false. cbv iota. by wp_step.
    - destruct E2 as [E2 E3]. rewrite (proj2 (Z.eqb_neq _ _) E2). cbn [negb]. eapply wp_mono; [apply IH; lia|]. intros _ d2 [E4 E5]. by rewrite E5. }
  unfold seta20. pose proof (kb_bound d). wp_step. eapply wp_mono; [apply W; lia|]. intros _ d1 [P1 _]. wp_step. eapply wp_mono; [by apply kb_command|]. intros _ d2 [C2 _].
  wp_step. pose proof (kb_bound d2). eapply wp_mono; [apply W; lia|]. intros _ d3 [P3 C3]. eapply wp_mono; [by apply kb_data|]. intros [] d4 E4. cbn beta in E4. by rewrite E4, C3, C2.
Qed.

(** A controller that is busy for one poll after every byte it is sent. *)
Record kbc_dev : Type := mk_kbc_dev { kd_busy : bool; kd_cmd : Z; kd_a20 : bool }.
#[local] Instance kbc_ports : Ports kbc_dev := {|
  inb p d := if p =? 0x64 then Ok (if kd_busy d then 2 else 0) (mk_kbc_dev false (kd_cmd d) (kd_a20 d)) else Ok 0 d;
  outb p v d :=
    if p =? 0x64 then Ok tt (mk_kbc_dev true v (kd_a20 d)) else
    if p =? 0x60 then Ok tt (mk_kbc_dev true (kd_cmd d) (if kd_cmd d =? 0xd1 then Z.testbit v 1 else kd_a20 d)) else Ok tt d |}.
#[local, refine] Instance kbc_kbc : Kbc kbc_dev := {| kb_polls d := if kd_busy d then 1%nat else 0%nat; kb_max := 1%nat; kb_cmd := kd_cmd; kb_a20 := kd_a20 |}.
Proof.
  - intros d. destruct (kd_busy d); lia.
  - intros [[|] c a]; (split; [done|split; [done|split; [vm_compute; (reflexivity || discriminate)|reflexivity]]]).
  - intros d v _. done.
  - intros d v _. done.
Defined.
Lemma seta20_demo : wp (seta20 2) (fun _ d' => kb_a20 d' = true) (mk_kbc_dev true 0 false).
Proof. apply seta20_opens. cbn. lia. Qed.

(** ** [startothers] *)

Class SmpOps (S : Type) : Type := {
  smp_mem : S -> mem; smp_set_mem : mem -> S -> S;
  smp_kalloc : M S Z;
  smp_startap : Z -> Z -> M S unit;      (* lapicstartap *)
  smp_started : nat -> M S bool          (* cpus[i].started != 0 *)
}.

Section startothers.
Context {S : Type} `{!SmpOps S}.

Definition poke (va v : Z) : M S unit := modify (fun s => smp_set_mem (store32 (smp_mem s) (V2P va) v) s).
Fixpoint wait_started (fuel c : nat) : M S unit :=
  match fuel with
  | O => fun _ => OutOfFuel
  | Datatypes.S k => let! b := smp_started c in if negb b then wait_started k c else ret tt
  end.
(** [code] is the linked image of entryother.S. *)
Definition start_cpu (fuel : nat) (apicid : nat -> Z) (mpenter pgdir : Z) (c : nat) : M S unit :=
  let code := P2V 0x7000 in
  let! stack := smp_kalloc in
  poke (code - 4) (u32 (stack + 4096)) ;;;
  poke (code - 8) mpenter ;;;
  poke (code - 12) (V2P pgdir) ;;;
  smp_startap (apicid c) (V2P code) ;;;
  wait_started fuel c.
Fixpoint start_cpus (fuel : nat) (me : nat) (apicid : nat -> Z) (mpenter pgdir : Z) (cpus : list nat) : M S unit :=
  match cpus with
  | [] => ret tt
  | c :: cpus => (if (c =? me)%nat then ret tt else start_cpu fuel apicid mpenter pgdir c) ;;; start_cpus fuel me apicid mpenter pgdir cpus
  end.
Definition startothers (fuel ncpu me : nat) (apicid : nat -> Z) (mpenter pgdir : Z) (image : list Z) : M S unit :=
  modify (fun s => smp_set_mem (store_bytes (smp_mem s) (V2P (P2V 0x7000)) image) s) ;;;
  start_cpus fuel me apicid mpenter pgdir (seq 0 ncpu).
End startothers.

(** What [startothers] relies on, with the page of the boot page table at [pa]: the allocator
    hands out different pages of the first 4 Mbyte, [smp_room] of them; a processor that is started finds the
    memory of that moment, comes up after a while, and leaves the boot page table alone. *)
Class Smp (S : Type) `{!SmpOps S} (pa : Z) : Type := {
  smp_pages : S -> list Z;
  smp_launched : S -> list (Z * Z * mem);
  smp_polls : S -> nat; smp_max : nat; smp_room : nat;
  sl_set m s : smp_mem (smp_set_mem m s) = m /\ smp_pages (smp_set_mem m s) = smp_pages s /\ smp_launched (smp_set_mem m s) = smp_launched s;
  sl_kalloc s : (length (smp_pages s) < smp_room)%nat -> wp smp_kalloc (fun r s' => smp_mem s' = smp_mem s /\ smp_launched s' = smp_launched s /\ smp_pages s' = r :: smp_pages s /\ r ∉ smp_pages s /\
    KERNBASE <= r /\ r + 4096 < KERNBASE + 4194304 /\ (r + 4096 - KERNBASE <= pa \/ pa + 4096 <= r - KERNBASE)) s;
  sl_startap s id a : wp (smp_startap id a) (fun _ s' => smp_launched s' = smp_launched s ++ [(id, a, smp_mem s)] /\ smp_pages s' = smp_pages s /\
    (holds_pgdir (smp_mem s) pa -> holds_pgdir (smp_mem s') pa)) s;
  sl_polls s : (smp_polls s <= smp_max)%nat;
  sl_started s c : wp (smp_started c) (fun b s' => smp_launched s' = smp_launched s /\ smp_pages s' = smp_pages s /\
    (holds_pgdir (smp_mem s) pa -> holds_pgdir (smp_mem s') pa) /\ match smp_polls s with O => b = true | Datatypes.S n => smp_polls s' = n end) s
}.

Section start_props.
Context {S : Type} `{!SmpOps S} (pa : Z) `{!Smp S pa} (mpenter : Z) (apicid : nat -> Z) (me : nat).
Hypotheses (Hpa : 0x8000 <= pa < KERNBASE) (Hent : 0 <= mpenter < W32).

(** What a processor finds that has been given the stack page [st]. *)
Definition ready_ap (u : Z * mem) : Prop :=
  ap_words (snd u) 0x7000 (fst u + 4096) mpenter pa /\ holds_pgdir (snd u) pa /\
  KERNBASE <= fst u /\ fst u + 4096 < KERNBASE + 4194304 /\ (fst u + 4096 - KERNBASE <= pa \/ pa + 4096 <= fst u - KERNBASE).

Lemma wp_poke va v s (Q : unit -> S -> Prop) :
  (forall s', smp_mem s' = store32 (smp_mem s) (V2P va) v -> smp_pages s' = smp_pages s -> smp_launched s' = smp_launched s -> Q tt s') -> wp (poke va v) Q s.
Proof. intros HQ. unfold poke. apply wp_modify. destruct (sl_set (store32 (smp_mem s) (V2P va) v) s) as (E1 & E2 & E3). by apply HQ. Qed.

Lemma wp_wait_started fuel c s : (smp_max < fuel)%nat ->
  wp (wait_started fuel c) (fun _ s' => smp_launched s' = smp_launched s /\ smp_pages s' = smp_pages s /\ (holds_pgdir (smp_mem s) pa -> holds_pgdir (smp_mem s') pa)) s.
Proof.
  intros Hf. pose proof (sl_polls s) as Hp. assert (Hlt : (smp_polls s < fuel)%nat) by lia. clear Hf Hp. revert s Hlt. induction fuel as [|k IH]; intros s Hlt; [lia|]. cbn [wait_started]. wp_step.
  eapply wp_mono; [apply sl_started|]. intros b s1 (L1 & P1 & K1 & B1). destruct (smp_polls s) as [|n] eqn:E.
  - subst b. cbn [negb]. by wp_step.
  - destruct b; cbn [negb]; [by wp_step|]. eapply wp_mono; [apply IH; lia|]. intros [] s2 (L2 & P2 & K2). split_and!; [congruence|congruence|auto].
Qed.

Lemma wp_start_cpu fuel c s (Q : unit -> S -> Prop) : (smp_max < fuel)%nat -> (length (smp_pages s) < smp_room)%nat -> holds_pgdir (smp_mem s) pa ->
  (forall s' u, fst u ∉ smp_pages s -> smp_pages s' = fst u :: smp_pages s -> ready_ap u -> smp_launched s' = smp_launched s ++ [(apicid c, 0x7000, snd u)] ->
     holds_pgdir (smp_mem s') pa -> Q tt s') -> wp (start_cpu fuel apicid mpenter (KERNBASE + pa) c) Q s.
Proof.
  intros Hf Hroom Hd HQ. unfold start_cpu. cbv zeta. wp_step. eapply wp_mono; [by apply sl_kalloc|]. intros r s1 (M1 & L1 & P1 & N1 & R1 & R2 & R3).
  wp_step. apply wp_poke. intros s2 M2 P2 L2. wp_step. apply wp_poke. intros s3 M3 P3 L3. wp_step. apply wp_poke. intros s4 M4 P4 L4.
  rewrite u32_small in M2 by (unfold KERNBASE, W32 in *; lia).
  change (V2P (P2V 0x7000 - 4)) with 0x6ffc in *. change (V2P (P2V 0x7000 - 8)) with 0x6ff8 in *. change (V2P (P2V 0x7000 - 12)) with 0x6ff4 in *. change (V2P (P2V 0x7000)) with 0x7000.
  assert (Hv : V2P (KERNBASE + pa) = pa) by (unfold V2P, KERNBASE in *; rewrite u32_small by (unfold W32; lia); lia). rewrite Hv in M4.
  assert (W4 : ready_ap (r, smp_mem s4)).
  { rewrite M4, M3, M2, M1. split; [split; cbn [fst snd]|split; [|done]].
    - change (0x7000 - 4) with 0x6ffc. rewrite !load32_store32_ne by lia. apply load32_store32_eq. unfold KERNBASE, W32 in *. lia.
    - change (0x7000 - 8) with 0x6ff8. rewrite load32_store32_ne by lia. by apply load32_store32_eq.
    - change (0x7000 - 12) with 0x6ff4. apply load32_store32_eq. unfold KERNBASE, W32 in *. lia.
    - cbn [snd]. apply (holds_pgdir_ext (smp_mem s)); [done|]. intros x Hx. rewrite !store32_ne by lia. done. }
  wp_step. eapply wp_mono; [apply sl_startap|]. intros [] s5 (L5 & P5 & K5). eapply wp_mono; [by apply wp_wait_started|]. intros [] s6 (L6 & P6 & K6).
  apply (HQ s6 (r, smp_mem s4)); cbn [fst snd]; [done|congruence|done|by rewrite L6, L5, L4, L3, L2, L1|]. apply K6, K5, W4.
Qed.

Lemma wp_start_cpus fuel cpus s : (smp_max < fuel)%nat -> (length (smp_pages s) + length cpus <= smp_room)%nat -> holds_pgdir (smp_mem s) pa ->
  wp (start_cpus fuel me apicid mpenter (KERNBASE + pa) cpus) (fun _ s' => exists ups, let others := filter (fun c => c <> me) cpus in
    smp_launched s' = smp_launched s ++ zip_with (fun c u => (apicid c, 0x7000, snd u)) others ups /\ length ups = length others /\
    NoDup (fst <$> ups) /\ Forall ready_ap ups /\ Forall (fun u => fst u ∉ smp_pages s) ups) s.
Proof.
  intros Hf. revert s. induction cpus as [|c cpus IH]; intros s Hroom Hd; cbn [start_cpus length] in *.
  { wp_step. exists []. cbn. rewrite app_nil_r. split_and!; [done|done|constructor|constructor|constructor]. }
  destruct (Nat.eqb_spec c me) as [->|Hne]; wp_step.
  - wp_step. eapply wp_mono; [apply IH; [lia|done]|]. intros [] s' (ups & H). exists ups. by rewrite filter_cons_False by auto.
  - apply wp_start_cpu; [done|lia|done|]. intros s1 u N1 P1 R1 L1 D1. eapply wp_mono; [apply IH; [rewrite P1; cbn [length]; lia|done]|]. intros [] s' (ups & L' & Hlen & Hnd & Hr & Hp). exists (u :: ups).
    rewrite filter_cons_True by done. cbn [zip_with length fmap list_fmap]. rewrite P1 in Hp. split_and!.
    + by rewrite L', L1, <- app_assoc.
    + by rewrite Hlen.
    + apply NoDup_cons. split; [|done]. rewrite list_elem_of_fmap. intros (v & Hv & Hin). rewrite Forall_forall in Hp. apply (Hp v Hin). rewrite <- Hv. by left.
    + by constructor.
    + constructor; [done|]. eapply Forall_impl; [exact Hp|]. cbn. intros v Hv Hin. apply Hv. by right.
Qed.
End start_props.


(** Three processors; the stacks are the pages from 1 Mbyte on. *)
Record demo_smp : Type := mk_demo_smp { ds_mem : mem; ds_given : nat; ds_up : list (Z * Z * mem) }.
Definition demo_page (i : nat) : Z := KERNBASE + 0x100000 + 4096 * Z.of_nat i.
#[export] Instance demo_smp_ops : SmpOps demo_smp := {|
  smp_mem := ds_mem; smp_set_mem m s := mk_demo_smp m (ds_given s) (ds_up s);
  smp_kalloc s := Ok (demo_page (ds_given s)) (mk_demo_smp (ds_mem s) (S (ds_given s)) (ds_up s));
  smp_startap id a s := Ok tt (mk_demo_smp (ds_mem s) (ds_given s) (ds_up s ++ [(id, a, ds_mem s)]));
  smp_started _ := ret true |}.
Fixpoint demo_pages (n : nat) : list Z := match n with O => [] | S n => demo_page n :: demo_pages n end.
Lemma demo_pages_elem n x : x ∈ demo_pages n -> exists i, (i < n)%nat /\ x = demo_page i.
Proof. induction n as [|n IH]; cbn [demo_pages]; [by intros H%not_elem_of_nil|]. rewrite elem_of_cons. intros [->|H]; [exists n; lia|]. destruct (IH H) as (i & Hi & ->). exists i. split; [lia|done]. Qed.
Lemma demo_pages_length n : length (demo_pages n) = n.
Proof. induction n as [|n IH]; cbn; [done|by rewrite IH]. Qed.
#[export, refine] Instance demo_smp_laws : Smp demo_smp 0x9000 := {|
  smp_pages s := demo_pages (ds_given s); smp_launched := ds_up; smp_polls _ := O; smp_max := O; smp_room := 16 |}.
Proof.
  - done.
  - intros s Hs. rewrite demo_pages_length in Hs. unfold wp. cbn. split_and!; try done.
    + intros Hin%demo_pages_elem. destruct Hin as (i & Hi & E). unfold demo_page in E. lia.
    + unfold demo_page. lia.
    + unfold demo_page. lia.
    + right. unfold demo_page. lia.
  - done.
  - done.
  - done.
Defined.
Definition demo_boot : demo_smp := mk_demo_smp (store32 (store32 (fun _ => 0) 0x9000 0x83) 0x9800 0x83) 0 [].
Lemma demo_boot_pgdir : holds_pgdir (smp_mem demo_boot) 0x9000.
Proof.
  intros i Hi. rewrite entrypgdir_at by done. cbn [smp_mem demo_smp_ops ds_mem demo_boot]. destruct (Z.eqb_spec i 512) as [->|H1]; [reflexivity|]. rewrite load32_store32_ne by lia.
  destruct (Z.eqb_spec i 0) as [->|H0]; [reflexivity|]. by rewrite load32_store32_ne by lia.
Qed.
